(* ===== verification/_CoqProject ===== *)
-Q . S2P
Prelude.v
Layout.v
Types.v
Bitmap.v
Crc.v
Hash.v
Super.v
BlockGroup.v
Inode.v
ExtNode.v
ExtLaws.v
ExtProps.v
DirBlock.v
DirLaws.v
DirSpec.v
DirProps.v
Device.v
Bcache.v
BcacheLaws.v
CacheSpec.v
CacheProps.v
Trans.v
Jbd.v
JbdLaws.v
JbdWrite.v
JbdRecover.v
RecoverSpec.v
RecoverLaws.v
ReplayPass.v
RecoverProps.v
JbdBatch.v
BatchLaws.v
JbdDev.v
CommitLaws.v
CommitReplay.v
JournalProps.v
CommitProps.v
Store.v
Group.v
Fs.v
FsSpec.v
GroupLaws.v
Extent.v
Sample.v
ExtentProps.v
Balloc.v
BallocSpec.v
BallocProps.v
Ialloc.v
IallocSpec.v
IallocProps.v
ExtTree.v
ExtRemove.v
Imap.v
ImapSpec.v
InodeOps.v
DirIdx.v
Dir.v
DirWalk.v
Probe.v
Xattr.v
XattrLaws.v
XattrProps.v
XattrRead.v
Data.v
Bridge.v
BridgeRead.v
BridgeDir.v
BridgeData.v
BridgeXattr.v
BridgeTxn.v
Resv.v
