(* ===== verification/Prelude.v ===== *)
(** * A verification development for open_ext4_for_mac

    open_ext4_for_mac mounts ext2/3/4 volumes on macOS.  The file system itself is
    the C library Core/lwext4 (src/ and include/); Core/shim bridges it to the Swift
    extension.  This development models the library and proves what it promises.

    ** How the program is put together

    A volume is a device (ext4_blockdev.c) seen through a cache of blocks
    (ext4_bcache.c).  Everything above fetches a block, changes its bytes through
    accessors of packed structures, marks it dirty through ext4_trans.c and gives it
    back.  On top: the superblock (ext4_super.c), group descriptors
    (ext4_block_group.h), inodes (ext4_inode.c), the mounted file system with its
    references to groups and inodes (ext4_fs.c), the allocators (ext4_balloc.c,
    ext4_ialloc.c), extent trees (ext4_extent.c) and directories (ext4_dir.c).  The
    journal (ext4_journal.c) logs the blocks of a transaction and replays committed
    transactions after a crash.

    ** How it is modelled

    Bytes are a [list Z], a packed structure a buffer and an offset (Layout.v), a
    [uintN_t] a [Z] with the wrap-around of every operation written out ([u8] ..
    [u64]).  Code that can fail runs in the state and error monad [M] of this file:
    [Err rc] is the error code, and a state change made before a failure stays.
    [mtry] is the code's [r = f(); if (r != EOK)], and dropping its result is the
    code's dropping it.  A pointer into a block is the block's number and an offset,
    so aliasing of two handles on a block is in the model: both see one buffer.
    Loops over data are structural or have fuel; the lemmas say which fuel is enough.
    A definition that runs out of fuel returns [None], except where the fuel is the
    bound of the loop's own condition, so that it is not there any more when the fuel
    is (the runs and chunks of a read, the extents of a mapping).

    What is not under src/ is a parameter: the callbacks of the device (class [Host],
    with its contract [HostLaws]), the memory allocator ([h_malloc]), the map of the
    journal's file to blocks ([rs_bmap]).  Every contract has an instance: a disk in
    memory that fails when told to (JournalProps.v, Sample.v).

    The shim (ext4_bridge.c) is the layer the extension calls: one inode-oriented
    function per request, many mutations to a transaction.  Its state is the record
    [bridge]: the mounted file system, the batch, the reservations, and one inode
    reference per C local ([ref_var]), so that two of them on a block see one buffer.
    The running transaction is the class [TxStore], the transfers of file data that
    go past the cache the class [DataStore]; both have instances.  A ghost field
    records what the journal was told, in order.

    ** Files

    - Prelude.v: machine words, byte strings, the monad and its program logic
      ([wp f s Q]: running [f] from [s] ends in a result and a state with [Q]).
    - Layout.v, Types.v: packed structures; ext4_types.h, ext4_errno.h.
    - Bitmap.v: ext4_bitmap.c.  Crc.v: ext4_crc32.c and the CRC-16.  Hash.v:
      ext4_hash.c.  Super.v: ext4_super.c.  BlockGroup.v: ext4_block_group.h.
      Inode.v: ext4_inode.c.
    - ExtNode.v, ExtLaws.v, ExtProps.v: one node of an extent tree; Extent.v,
      ExtentProps.v: the tree (ext4_extent.c).
    - DirBlock.v, DirLaws.v, DirSpec.v, DirProps.v: one block of a directory
      (ext4_dir.c).
    - Device.v: ext4_blockdev.c below the cache.  Bcache.v, BcacheLaws.v,
      CacheSpec.v, CacheProps.v: ext4_bcache.c and the cached half of
      ext4_blockdev.c.  Trans.v: ext4_trans.c and the superblock's transfers.
    - Jbd.v, JbdLaws.v: the format of the journal.  JbdWrite.v: what a commit lays
      out.  JbdRecover.v: recovery, over the interface [ReplayIO]; RecoverSpec.v:
      what it is for; RecoverLaws.v, ReplayPass.v, RecoverProps.v: that it does it.
      JbdBatch.v, BatchLaws.v: the read window and the write batch, an
      implementation of [ReplayIO] over [RawStore]; JbdDev.v: ext4_blockdev.c as the
      [RawStore].  CommitLaws.v, CommitReplay.v: commit and recovery together.
      JournalProps.v, CommitProps.v: the properties.
    - Store.v: the class [BlockStore] between the cache and the code above, its
      contract, and the cache as an instance.  Group.v: group arithmetic and bitmap
      checksums.  Fs.v, FsSpec.v, GroupLaws.v: ext4_fs.c and its program logic.
      Balloc.v, BallocSpec.v, BallocProps.v: ext4_balloc.c.  Ialloc.v, IallocSpec.v,
      IallocProps.v: ext4_ialloc.c.  Sample.v: a volume to run them on.
    - ExtTree.v: inserting into an extent tree, which splits nodes and grows the
      tree; ExtRemove.v: removing a range, unwritten extents, preallocation
      (ext4_extent.c).  Imap.v: a file's blocks, through extents or indirect blocks, and
      ImapSpec.v: where they are; InodeOps.v: making, truncating and freeing inodes
      (ext4_fs.c).
    - Probe.v: whether a volume is one of ours, and can be addressed.  Data.v: what the
      shim asks of the store besides [BlockStore].  Bridge.v: the state of the shim, its
      transactions, the orphan list, and the reading requests.  BridgeDir.v: the
      requests that change names.  BridgeData.v: those that change data and attributes.
      BridgeXattr.v: those on extended attributes.  BridgeRead.v, BridgeTxn.v, Resv.v:
      what reading answers, what a batch guarantees, what the table of reservations is.
    - Xattr.v: extended attributes, in the inode's body and in their block
      (ext4_xattr.c).  XattrLaws.v, XattrProps.v: one area as a map; XattrRead.v:
      reading an attribute of an inode.
    - DirIdx.v: the hash index of a directory (ext4_dir_idx.c).  Dir.v: directories
      over all their blocks, and the iterator (ext4_dir.c); DirWalk.v: a whole
      directory as a map.

    The name of a definition is the C name where the definition is a whole C
    function; a part of one (a loop, a shared tail) has a short name of its own.

    ** What the theorems show

    - Journal.  A recovery that reports success is the replay of the committed
      transactions, whatever failed on the way; it can be interrupted and run again; a
      failure keeps the log; it completes.  Where the contents of blocks are claimed,
      the theorems ask that in that run the batch got its memory or no write fails
      when a block is released ([rl_ready] of the state it ended in): without either,
      the code drops a write home that failed, and still reports success
      ([JournalProps.bad_block_lost] is a run that does).  A revoke in the same
      transaction as the copy suppresses the copy, as in the code; two comments of
      ext4_journal.c say otherwise.  The log that commit lays out is read back, and so a
      committed transaction survives a crash.  The walk over the log is the code's, without a
      bound of its own; the theorems ask for a log whose walk ends ([log_ok], fuel
      the number of its records plus one), because a hostile one need not end.
    - Cache.  Any interleaving of fetches, stores, releases and flushes is a run of
      an array of blocks, whatever errors the device returns; a flush that succeeds
      has put everything on the medium; an error of a write-back is never lost.
    - Allocators.  An allocation or a free changes one bit of the bitmap and the
      counts that go with it, all checksums verify again and nothing else changes;
      the errors are the ones the code returns for a full volume.  They are proved
      against the contract of [BlockStore], for volumes of less than 2^32 blocks whose
      group tables lie apart.  Each asks that the bitmaps of the groups it may fetch are
      initialised: of every group for an allocation that searches, of the one group for
      a free or a claim.  Fetching an uninitialised group writes its bitmaps and its
      inode table; that code is in Fs.v, without a theorem.
    - Extents.  Looking a block up in a tree of any depth is looking it up in the
      list of extents; inserting into a leaf and merging are operations of the map;
      a node that passed its check is never read outside its block.
    - Directories.  A block is a finite map from names to inodes and the operations
      are those of the map; every block stays well formed ([dir_geom]: not on 64 KiB
      blocks without checksums); on any bytes the walks end and stay inside.  A directory of many blocks, found through extents or a
      block map, is the union of the maps of its blocks; finding, adding and removing
      a name are operations of that map.
    - Superblock, descriptors, inodes, bitmaps, checksums, hashes.  The setters
      implement updates of abstract records; the groups partition the volume;
      bitmap searches find the first bit; the tables of the CRCs are the
      polynomial's; checksums detect a changed byte; the hash reads the name only.

    - Extended attributes.  An area of attributes is a finite map from namespaces and
      names to values; finding, setting and removing are operations of that map, with
      the exact condition for ENOSPC; reading an attribute of an inode answers from the
      area in its body, then from its block, and names the one fetch that can fail.

    - Probe.  A volume it does not refuse can be addressed: sizes, counts and features
      are such that no address computed from them leaves its block or the volume.
    - Requests.  Over any sequence of mutations, with any failures, one that was
      reported as done is never aborted, and after a sync that succeeds none is left
      uncommitted.  A read gives the bytes of the file, holes as zeroes; a lookup what
      the directory's map has.  The table of reservations is a map of eight entries.

    Where the code does not do what it means to, the theorem states what it does.

    ** Not modelled

    The running journal's ring, batch and checkpoint, and opening the journal: the
    requests see them as [TxStore].  Formatting (ext4_mkfs.c) and partition tables
    (ext4_mbr.c).  Of the shim: mounting and unmounting, its logging and its checker.  The path-level API
    (ext4.c), which the shim goes around, and the tools are glue or input and output
    over what is modelled; the encrypted containers rest on third-party cryptography.
    Debug messages, statistics and the multi-threading of the cache's
    callers (one lock around the library) are left out. *)

From Stdlib Require Export ZArith Lia Bool.
From stdpp Require Export base tactics numbers list option gmap.

#[export] Set Default Goal Selector "!".
#[global] Open Scope Z_scope.

(** ** Machine integers

    A C integer of width [w] is a [Z]; every place where the C program wraps
    writes the wrap-around with one of these casts. *)

Definition u8 (z : Z) : Z := z mod 256.
Definition u16 (z : Z) : Z := z mod 65536.
Definition u32 (z : Z) : Z := z mod 4294967296.
Definition u64 (z : Z) : Z := z mod 18446744073709551616.

(** The cast to a signed 32-bit [int] (two's complement). *)
Definition i32 (z : Z) : Z :=
  let v := u32 z in if v <? 2147483648 then v else v - 4294967296.

(** The cast to a [signed char]. *)
Definition i8 (z : Z) : Z := let v := u8 z in if v <? 128 then v else v - 256.

Section Casts.
Context (m : Z) (Hm : 0 < m).
Lemma cast_range z : 0 <= z mod m < m.
Proof. by apply Z.mod_pos_bound. Qed.
Lemma cast_id z : 0 <= z < m -> z mod m = z.
Proof. apply Z.mod_small. Qed.
End Casts.

Lemma u8_range z : 0 <= u8 z < 256.
Proof. by apply cast_range. Qed.
Lemma u16_range z : 0 <= u16 z < 65536.
Proof. by apply cast_range. Qed.
Lemma u32_range z : 0 <= u32 z < 4294967296.
Proof. by apply cast_range. Qed.
Lemma u64_range z : 0 <= u64 z < 18446744073709551616.
Proof. by apply cast_range. Qed.

Lemma u8_id z : 0 <= z < 256 -> u8 z = z.
Proof. apply cast_id. Qed.
Lemma u16_id z : 0 <= z < 65536 -> u16 z = z.
Proof. apply cast_id. Qed.
Lemma u32_id z : 0 <= z < 4294967296 -> u32 z = z.
Proof. apply cast_id. Qed.
Lemma u64_id z : 0 <= z < 18446744073709551616 -> u64 z = z.
Proof. apply cast_id. Qed.

Create Rewrite HintDb cint.
#[export] Hint Rewrite u8_id u16_id u32_id u64_id using lia : cint.

(** [cint] puts the range of every cast of the goal and the hypotheses in the
    context and calls [lia]. *)
Ltac cast_ranges :=
  repeat match goal with
  | |- context [u8 ?z] => learn_range (u8 z) (u8_range z)
  | |- context [u16 ?z] => learn_range (u16 z) (u16_range z)
  | |- context [u32 ?z] => learn_range (u32 z) (u32_range z)
  | |- context [u64 ?z] => learn_range (u64 z) (u64_range z)
  | _ : context [u8 ?z] |- _ => learn_range (u8 z) (u8_range z)
  | _ : context [u16 ?z] |- _ => learn_range (u16 z) (u16_range z)
  | _ : context [u32 ?z] |- _ => learn_range (u32 z) (u32_range z)
  | _ : context [u64 ?z] |- _ => learn_range (u64 z) (u64_range z)
  end
with learn_range t pf :=
  lazymatch goal with
  | _ : 0 <= t < _ |- _ => fail
  | _ => pose proof pf
  end.
Ltac clia := cast_ranges; lia.

(** [lia] with division and remainder. *)
Ltac dlia := Z.div_mod_to_equations; lia.

(** ** Buffers

    A [uint8_t] buffer is a [list Z]; a cell is read through [u8], its C type,
    and a store truncates.  Reads past the end give 0 and stores past the end
    do nothing: the theorems that depend on it carry the length. *)

Definition byte_at (b : list Z) (i : Z) : Z := u8 (nth (Z.to_nat i) b 0).
Definition set_byte (b : list Z) (i v : Z) : list Z := <[Z.to_nat i := u8 v]> b.
Definition blen (b : list Z) : Z := Z.of_nat (length b).

(** [memcpy(dst + off, src, |src|)], [memset(dst + off, v, n)] and the bytes
    [src[off .. off+n)]. *)
Definition slice (off n : Z) (b : list Z) : list Z :=
  take (Z.to_nat n) (drop (Z.to_nat off) b).
Definition memcpy_at (off : Z) (src b : list Z) : list Z :=
  take (Z.to_nat off) b ++ src ++ drop (Z.to_nat off + length src) b.
Definition memset_at (off v n : Z) (b : list Z) : list Z :=
  memcpy_at off (replicate (Z.to_nat n) (u8 v)) b.

(** Little-endian integers of [n] bytes at byte offset [off]. *)
Fixpoint get_le (n : nat) (off : Z) (b : list Z) : Z :=
  match n with
  | O => 0
  | S n => byte_at b off + 256 * get_le n (off + 1) b
  end.
Fixpoint set_le (n : nat) (off v : Z) (b : list Z) : list Z :=
  match n with
  | O => b
  | S n => set_le n (off + 1) (v / 256) (set_byte b off v)
  end.

Lemma u8_u8 z : u8 (u8 z) = u8 z.
Proof. apply u8_id, u8_range. Qed.

Lemma byte_at_range b i : 0 <= byte_at b i < 256.
Proof. apply u8_range. Qed.

Lemma blen_set_byte b i v : blen (set_byte b i v) = blen b.
Proof. unfold blen, set_byte. by rewrite length_insert. Qed.

Lemma byte_at_set_byte_eq b i v :
  0 <= i < blen b -> byte_at (set_byte b i v) i = u8 v.
Proof.
  intros H. unfold byte_at, set_byte, blen in *.
  erewrite (nth_lookup_Some _ _ _ (u8 v)); [apply u8_u8|].
  apply list_lookup_insert_eq. lia.
Qed.

Lemma byte_at_set_byte_ne b i j v :
  0 <= i -> 0 <= j -> i <> j -> byte_at (set_byte b i v) j = byte_at b j.
Proof.
  intros Hi Hj Hne. unfold byte_at, set_byte.
  rewrite !nth_lookup, list_lookup_insert_ne; [done|lia].
Qed.

Lemma byte_at_set_byte b i j v :
  0 <= i < blen b -> 0 <= j ->
  byte_at (set_byte b i v) j = if i =? j then u8 v else byte_at b j.
Proof.
  intros Hi Hj. destruct (Z.eqb_spec i j) as [->|Hne].
  - by apply byte_at_set_byte_eq.
  - apply byte_at_set_byte_ne; lia.
Qed.

Lemma blen_set_le n : forall off v b, blen (set_le n off v b) = blen b.
Proof. induction n as [|n IH]; intros; [done|]. simpl. by rewrite IH, blen_set_byte. Qed.

Lemma byte_at_set_le_ne n : forall off v b j,
  0 <= off -> 0 <= j -> j < off \/ off + Z.of_nat n <= j ->
  byte_at (set_le n off v b) j = byte_at b j.
Proof.
  induction n as [|n IH]; intros off v b j Ho Hj Hd; [done|]. cbn [set_le].
  rewrite IH; [apply byte_at_set_byte_ne; lia|lia..].
Qed.

Lemma get_le_ext n : forall off b b',
  (forall j, off <= j < off + Z.of_nat n -> byte_at b j = byte_at b' j) ->
  get_le n off b = get_le n off b'.
Proof.
  induction n as [|n IH]; intros off b b' H; [done|]. cbn [get_le].
  rewrite (H off) by lia. by rewrite (IH (off + 1) b b') by (intros; apply H; lia).
Qed.

Lemma get_le_range n : forall off b, 0 <= get_le n off b < 256 ^ Z.of_nat n.
Proof.
  induction n as [|n IH]; intros off b; [simpl; lia|]. cbn [get_le].
  pose proof (byte_at_range b off). specialize (IH (off + 1) b).
  rewrite Nat2Z.inj_succ, Z.pow_succ_r by lia. lia.
Qed.

Lemma get_set_le_ne n m off off' v b :
  0 <= off -> 0 <= off' ->
  off' + Z.of_nat m <= off \/ off + Z.of_nat n <= off' ->
  get_le m off' (set_le n off v b) = get_le m off' b.
Proof. intros. apply get_le_ext. intros. apply byte_at_set_le_ne; lia. Qed.

Lemma mod_pow_step (v a p : Z) :
  0 < a -> 0 < p -> v mod a + a * ((v / a) mod p) = v mod (a * p).
Proof. intros Ha Hp. rewrite Z.rem_mul_r by lia. lia. Qed.

Lemma get_set_le_eq n : forall off v b,
  0 <= off -> off + Z.of_nat n <= blen b ->
  get_le n off (set_le n off v b) = v mod 256 ^ Z.of_nat n.
Proof.
  induction n as [|n IH]; intros off v b Ho Hb; [by rewrite Z.mod_1_r|].
  cbn [get_le set_le]. rewrite IH by (rewrite ?blen_set_byte; lia).
  rewrite byte_at_set_le_ne, byte_at_set_byte_eq by lia.
  rewrite Nat2Z.inj_succ, Z.pow_succ_r by lia.
  unfold u8. apply mod_pow_step; lia.
Qed.

(** Two buffers of one length with the same bytes are the same buffer, once
    every cell holds a byte. *)
Definition bytes_ok (b : list Z) : Prop := Forall (fun z => 0 <= z < 256) b.
#[export] Instance bytes_ok_dec b : Decision (bytes_ok b).
Proof. unfold bytes_ok. apply _. Defined.

Lemma bytes_ok_set_byte b i v : bytes_ok b -> bytes_ok (set_byte b i v).
Proof. intros. apply Forall_insert; [done|apply u8_range]. Qed.

Lemma bytes_ok_set_le n : forall off v b, bytes_ok b -> bytes_ok (set_le n off v b).
Proof. induction n; intros; simpl; auto using bytes_ok_set_byte. Qed.

Lemma byte_at_lookup b i x :
  bytes_ok b -> b !! i = Some x -> byte_at b (Z.of_nat i) = x.
Proof.
  intros Hb Hx. unfold byte_at. rewrite Nat2Z.id, (nth_lookup_Some _ _ _ _ Hx).
  apply u8_id. by apply (Forall_lookup_1 _ _ _ _ Hb Hx).
Qed.

Lemma bytes_ext b b' :
  bytes_ok b -> bytes_ok b' -> blen b = blen b' ->
  (forall j, 0 <= j < blen b -> byte_at b j = byte_at b' j) -> b = b'.
Proof.
  intros Hb Hb' Hl H. unfold blen in *. apply list_eq_same_length with (length b); [lia|lia|].
  intros i x y Hi Hx Hy.
  rewrite <- (byte_at_lookup b i x Hb Hx), <- (byte_at_lookup b' i y Hb' Hy).
  apply H. lia.
Qed.

(** ** Pieces of buffers *)

Lemma blen_nonneg b : 0 <= blen b.
Proof. unfold blen. lia. Qed.
Lemma blen_app a b : blen (a ++ b) = blen a + blen b.
Proof. unfold blen. rewrite length_app. lia. Qed.
Lemma blen_drop n b : 0 <= n <= blen b -> blen (drop (Z.to_nat n) b) = blen b - n.
Proof. intros. unfold blen in *. rewrite length_drop. lia. Qed.
Lemma blen_slice off n b : 0 <= off -> 0 <= n -> off + n <= blen b -> blen (slice off n b) = n.
Proof. intros. unfold blen, slice in *. rewrite length_take, length_drop. lia. Qed.

Lemma slice_drop n b : slice 0 n b ++ drop (Z.to_nat n) b = b.
Proof. apply take_drop. Qed.

Lemma byte_at_app_l a b i : 0 <= i < blen a -> byte_at (a ++ b) i = byte_at a i.
Proof. unfold byte_at, blen. intros. by rewrite app_nth1 by lia. Qed.
Lemma byte_at_app_r a b i : blen a <= i -> byte_at (a ++ b) i = byte_at b (i - blen a).
Proof.
  unfold byte_at, blen. intros. rewrite app_nth2 by lia. do 2 f_equal. lia.
Qed.
Lemma byte_at_app a b i :
  0 <= i -> byte_at (a ++ b) i = if i <? blen a then byte_at a i else byte_at b (i - blen a).
Proof.
  intros Hi. destruct (Z.ltb_spec i (blen a)); [by apply byte_at_app_l|by apply byte_at_app_r].
Qed.
Lemma byte_at_take n b i : 0 <= i < n -> byte_at (take (Z.to_nat n) b) i = byte_at b i.
Proof. unfold byte_at. intros. f_equal. rewrite !nth_lookup, lookup_take_lt by lia. done. Qed.
Lemma byte_at_drop n b i : 0 <= n -> 0 <= i -> byte_at (drop (Z.to_nat n) b) i = byte_at b (n + i).
Proof.
  unfold byte_at. intros. f_equal. rewrite !nth_lookup, lookup_drop. do 2 f_equal. lia.
Qed.
Lemma byte_at_slice off n b i :
  0 <= off -> 0 <= i < n -> byte_at (slice off n b) i = byte_at b (off + i).
Proof. intros. unfold slice. rewrite byte_at_take by done. apply byte_at_drop; lia. Qed.

Lemma blen_memcpy_at off src b :
  0 <= off -> off + blen src <= blen b -> blen (memcpy_at off src b) = blen b.
Proof.
  unfold memcpy_at, blen. intros. rewrite !length_app, length_take, length_drop. lia.
Qed.
Lemma byte_at_memcpy_at off src b i :
  0 <= off -> off + blen src <= blen b -> 0 <= i ->
  byte_at (memcpy_at off src b) i =
  if (off <=? i) && (i <? off + blen src) then byte_at src (i - off) else byte_at b i.
Proof.
  intros Ho Hb Hi. unfold memcpy_at. pose proof (blen_nonneg src).
  assert (Ht : blen (take (Z.to_nat off) b) = off).
  { unfold blen in *. rewrite length_take. lia. }
  rewrite byte_at_app, Ht by done. destruct (Z.ltb_spec i off).
  - replace (off <=? i) with false by lia. by apply byte_at_take.
  - replace (off <=? i) with true by lia. cbn [andb]. rewrite byte_at_app by lia.
    replace (i - off <? blen src) with (i <? off + blen src) by lia.
    case_match; [done|].
    replace (Z.to_nat off + length src)%nat with (Z.to_nat (off + blen src)) by (unfold blen; lia).
    rewrite byte_at_drop by lia. f_equal. lia.
Qed.

Lemma bytes_ok_app a b : bytes_ok a -> bytes_ok b -> bytes_ok (a ++ b).
Proof. intros. by apply Forall_app. Qed.
Lemma bytes_ok_take n b : bytes_ok b -> bytes_ok (take n b).
Proof. apply Forall_take. Qed.
Lemma bytes_ok_drop n b : bytes_ok b -> bytes_ok (drop n b).
Proof. apply Forall_drop. Qed.
Lemma bytes_ok_slice off n b : bytes_ok b -> bytes_ok (slice off n b).
Proof. intros. by apply bytes_ok_take, bytes_ok_drop. Qed.
Lemma bytes_ok_memcpy_at off src b : bytes_ok src -> bytes_ok b -> bytes_ok (memcpy_at off src b).
Proof.
  intros. apply bytes_ok_app; [by apply bytes_ok_take|]. apply bytes_ok_app; [done|by apply bytes_ok_drop].
Qed.

Lemma slice_ext off n b b' :
  bytes_ok b -> bytes_ok b' -> 0 <= off -> 0 <= n -> off + n <= blen b -> blen b = blen b' ->
  (forall j, off <= j < off + n -> byte_at b j = byte_at b' j) -> slice off n b = slice off n b'.
Proof.
  intros Hb Hb' Ho Hn Hl Hl' H. apply bytes_ext; try by apply bytes_ok_slice.
  - rewrite !blen_slice; lia.
  - intros j. rewrite blen_slice by lia. intros. rewrite !byte_at_slice by lia. apply H. lia.
Qed.
Lemma slice_memcpy off src b :
  bytes_ok src -> bytes_ok b -> 0 <= off -> off + blen src <= blen b ->
  slice off (blen src) (memcpy_at off src b) = src.
Proof.
  intros Hs Hb Ho Hl. pose proof (blen_nonneg src).
  assert (El := blen_memcpy_at off src b Ho Hl). apply bytes_ext; [|done|by rewrite blen_slice by lia|].
  - by apply bytes_ok_slice, bytes_ok_memcpy_at.
  - rewrite blen_slice by lia. intros j Hj. rewrite byte_at_slice, byte_at_memcpy_at by lia.
    replace ((off <=? off + j) && (off + j <? off + blen src)) with true by lia. f_equal. lia.
Qed.

(** ** State and errors

    A C function that returns an error code and works on shared state is a
    computation [M S A]: it takes the state, and returns the state it leaves
    behind together with a value ([Ok]) or an error code ([Err]).  The state
    survives an error, as it does in C. *)

Inductive result (A : Type) : Type :=
| Ok (a : A)
| Err (rc : Z).
Arguments Ok {A} a.
Arguments Err {A} rc.

Definition M (S A : Type) : Type := S -> result A * S.

Definition mok {S A} (a : A) : M S A := fun s => (Ok a, s).
Definition mfail {S A} (rc : Z) : M S A := fun s => (Err rc, s).
Definition mget {S A} (f : S -> A) : M S A := fun s => (Ok (f s), s).
Definition mmod {S} (f : S -> S) : M S unit := fun s => (Ok tt, f s).
Definition mbnd {S A B} (m : M S A) (k : A -> M S B) : M S B := fun s =>
  match m s with
  | (Ok a, s') => k a s'
  | (Err rc, s') => (Err rc, s')
  end.
(** The error code of [m] as a value: C code that inspects [rc] itself. *)
Definition mtry {S A} (m : M S A) : M S (result A) := fun s =>
  let '(r, s') := m s in (Ok r, s').

Declare Scope cmonad_scope.
Delimit Scope cmonad_scope with cm.
Notation "x <- m ;; k" := (mbnd m (fun x => k))
  (at level 67, m at next level, right associativity) : cmonad_scope.
Notation "'let*' pat := m 'in' k" := (mbnd m (fun x => match x with pat => k end))
  (at level 67, pat strict pattern, m at level 66, k at level 67) : cmonad_scope.
Notation "m ;;; k" := (mbnd m (fun _ => k))
  (at level 67, right associativity) : cmonad_scope.
#[global] Open Scope cmonad_scope.

(** [None]: what the code does is not defined, or the fuel of a loop ran out. *)
Definition obnd {S A B} (m : M S (option A)) (k : A -> M S (option B)) : M S (option B) :=
  x <- m;; match x with Some a => k a | None => mok None end.
Definition osome {S A} (m : M S A) : M S (option A) := x <- m;; mok (Some x).
Notation "x <-? m ;; k" := (obnd m (fun x => k)) (at level 67, m at next level, right associativity) : cmonad_scope.
Notation "m ;;? k" := (obnd m (fun _ => k)) (at level 67, right associativity) : cmonad_scope.
(** [cleanup] after [m], whatever it returned. *)
Definition finally {S A} (m : M S A) (cleanup : M S unit) : M S A :=
  r <- mtry m;;
  mtry cleanup;;;
  match r with Ok a => mok a | Err rc => mfail rc end.
Definition lift_result {S A} (r : result A) : M S A := match r with Ok a => mok a | Err rc => mfail rc end.

(** Weakest preconditions: what a run from [s] ends in. *)
Definition wp {S A} (m : M S A) (s : S) (Q : result A -> S -> Prop) : Prop :=
  let '(r, s') := m s in Q r s'.

Section Wp.
Context {S A B : Type}.
Implicit Types (s : S).

Lemma wp_run (m : M S A) s Q r s' : m s = (r, s') -> wp m s Q -> Q r s'.
Proof. unfold wp. by intros ->. Qed.

Lemma wp_intro (m : M S A) s (Q : result A -> S -> Prop) :
  (forall r s', m s = (r, s') -> Q r s') -> wp m s Q.
Proof. unfold wp. destruct (m s). auto. Qed.

Lemma wp_mono (m : M S A) s (Q Q' : result A -> S -> Prop) :
  wp m s Q -> (forall r s', Q r s' -> Q' r s') -> wp m s Q'.
Proof. unfold wp. destruct (m s). auto. Qed.

Lemma wp_and (m : M S A) s (Q Q' : result A -> S -> Prop) :
  wp m s Q -> wp m s Q' -> wp m s (fun r s' => Q r s' /\ Q' r s').
Proof. unfold wp. destruct (m s). auto. Qed.

Lemma wp_bind (m : M S A) (k : A -> M S B) s Q :
  wp m s (fun r s' => match r with
                      | Ok a => wp (k a) s' Q
                      | Err rc => Q (Err rc) s'
                      end) ->
  wp (mbnd m k) s Q.
Proof. unfold wp, mbnd. destruct (m s) as [[a|rc] s']; auto. Qed.

Lemma wp_ok (a : A) s (Q : result A -> S -> Prop) : Q (Ok a) s -> wp (mok a) s Q.
Proof. auto. Qed.
Lemma wp_fail rc s (Q : result A -> S -> Prop) : Q (Err rc) s -> wp (mfail rc) s Q.
Proof. auto. Qed.
Lemma wp_get (f : S -> A) s (Q : result A -> S -> Prop) :
  Q (Ok (f s)) s -> wp (mget f) s Q.
Proof. auto. Qed.
Lemma wp_mod (f : S -> S) s (Q : result unit -> S -> Prop) :
  Q (Ok tt) (f s) -> wp (mmod f) s Q.
Proof. auto. Qed.
Lemma wp_try (m : M S A) s (Q : result (result A) -> S -> Prop) :
  wp m s (fun r s' => Q (Ok r) s') -> wp (mtry m) s Q.
Proof. unfold wp, mtry. destruct (m s). auto. Qed.
Lemma wp_finally (m : M S A) (cl : M S unit) s (Q : result A -> S -> Prop) :
  wp m s (fun r s' => wp cl s' (fun _ s2 => Q r s2)) -> wp (finally m cl) s Q.
Proof. unfold wp, finally, mbnd, mtry. destruct (m s) as [r s1]. destruct (cl s1) as [r2 s2]. by destruct r. Qed.
End Wp.

(** One step of a symbolic run. *)
Ltac wp_step :=
  lazymatch goal with
  | |- wp (mbnd _ _) _ _ => apply wp_bind
  | |- wp (mok _) _ _ => apply wp_ok
  | |- wp (mfail _) _ _ => apply wp_fail
  | |- wp (mget _) _ _ => apply wp_get
  | |- wp (mmod _) _ _ => apply wp_mod
  | |- wp (mtry _) _ _ => apply wp_try
  | |- wp (if ?b then _ else _) _ _ => destruct b eqn:?
  end; cbv beta iota.
Ltac wp_steps := repeat wp_step.
(** Runs the next call by its specification [lem]. *)
Ltac wp_call lem :=
  lazymatch goal with
  | |- wp (mbnd _ _) _ _ => apply wp_bind; wp_call lem
  | |- wp (mtry _) _ _ => apply wp_try; wp_call lem
  | |- _ => eapply wp_mono; [apply lem|cbv beta]
  end.

(** ** Functions with one value changed *)

Definition fupd {A} (a : Z) (v : A) (f : Z -> A) : Z -> A := fun x => if x =? a then v else f x.
Lemma fupd_eq {A} a (v : A) f : fupd a v f a = v.
Proof. unfold fupd. by rewrite Z.eqb_refl. Qed.
Lemma fupd_ne {A} a (v : A) f x : x <> a -> fupd a v f x = f x.
Proof. intros Hx. unfold fupd. by rewrite (proj2 (Z.eqb_neq x a)). Qed.

(** ** Bits and ranges *)

Lemma testbit_above n x m : 0 <= n -> 0 <= x < 2 ^ n -> n <= m -> Z.testbit x m = false.
Proof. intros Hn Hx Hm. rewrite <- (Z.mod_small x (2 ^ n)) by done. by apply Z.mod_pow2_bits_high. Qed.

Lemma range_of_bits n x :
  0 <= n -> (forall m, n <= m -> Z.testbit x m = false) -> 0 <= x < 2 ^ n.
Proof.
  intros Hn Hx. assert (E : x = x mod 2 ^ n).
  { apply Z.bits_inj'. intros m Hm. destruct (Z.lt_ge_cases m n).
    - by rewrite Z.mod_pow2_bits_low.
    - rewrite Hx by lia. by rewrite Z.mod_pow2_bits_high by lia. }
  rewrite E. apply Z.mod_pos_bound. lia.
Qed.

Lemma lxor_range n a b : 0 <= n -> 0 <= a < 2 ^ n -> 0 <= b < 2 ^ n -> 0 <= Z.lxor a b < 2 ^ n.
Proof.
  intros Hn Ha Hb. apply range_of_bits; [done|]. intros m Hm.
  by rewrite Z.lxor_spec, !(testbit_above n) by done.
Qed.
Lemma lor_range n a b : 0 <= n -> 0 <= a < 2 ^ n -> 0 <= b < 2 ^ n -> 0 <= Z.lor a b < 2 ^ n.
Proof.
  intros Hn Ha Hb. apply range_of_bits; [done|]. intros m Hm.
  by rewrite Z.lor_spec, !(testbit_above n) by done.
Qed.
Lemma land_range n a b : 0 <= n -> 0 <= a < 2 ^ n -> 0 <= Z.land a b < 2 ^ n.
Proof.
  intros Hn Ha. apply range_of_bits; [done|]. intros m Hm.
  by rewrite Z.land_spec, (testbit_above n a) by done.
Qed.
Lemma shiftr_range n a k : 0 <= n -> 0 <= k -> 0 <= a < 2 ^ n -> 0 <= Z.shiftr a k < 2 ^ n.
Proof.
  intros Hn Hk Ha. apply range_of_bits; [done|]. intros m Hm.
  rewrite Z.shiftr_spec by lia. apply (testbit_above n); lia.
Qed.

Lemma land_lnot_u32 x f :
  0 <= x < 2 ^ 32 -> 0 <= f < 2 ^ 32 -> Z.land x (u32 (Z.lnot f)) = Z.ldiff x f.
Proof.
  intros Hx Hf. apply Z.bits_inj'. intros m Hm. rewrite Z.land_spec, Z.ldiff_spec.
  destruct (Z.lt_ge_cases m 32).
  - unfold u32. change 4294967296 with (2 ^ 32).
    by rewrite Z.mod_pow2_bits_low, Z.lnot_spec by lia.
  - by rewrite (testbit_above 32 x m) by lia.
Qed.
Lemma ldiff_range n a b : 0 <= n -> 0 <= a < 2 ^ n -> 0 <= Z.ldiff a b < 2 ^ n.
Proof.
  intros Hn Ha. apply range_of_bits; [done|]. intros m Hm.
  by rewrite Z.ldiff_spec, (testbit_above n a).
Qed.

(** [hi << k | lo] with [lo] below bit [k] is addition. *)
Lemma lor_shiftl_add k lo hi :
  0 <= k -> 0 <= lo < 2 ^ k -> Z.lor (Z.shiftl hi k) lo = hi * 2 ^ k + lo.
Proof.
  intros Hk Hlo. rewrite Z.lor_comm.
  assert (Hand : Z.land lo (Z.shiftl hi k) = 0).
  { apply Z.bits_inj'. intros m Hm. rewrite Z.land_spec, Z.testbit_0_l.
    destruct (Z.lt_ge_cases m k).
    - rewrite Z.shiftl_spec_low by lia. apply andb_false_r.
    - by rewrite (testbit_above k lo m). }
  rewrite <- Z.lxor_lor by done. rewrite <- Z.add_nocarry_lxor by done.
  rewrite Z.shiftl_mul_pow2 by lia. lia.
Qed.

(** ** Integers stored in two halves

    [hi << k | lo] rebuilds what [x >> k] and [(x << k) >> k] took apart; [lo]
    and [hi] are stored in fields of [k] bits. *)

Lemma mod_shiftl_shiftr m k x :
  0 <= k -> 0 <= x -> Z.shiftr (Z.shiftl x k mod 2 ^ (m + k)) k = x mod 2 ^ m \/ m < 0.
Proof.
  intros Hk Hx. destruct (Z.lt_ge_cases m 0) as [|Hm]; [by right|left].
  rewrite Z.shiftl_mul_pow2, Z.shiftr_div_pow2, Z.pow_add_r by lia.
  rewrite Z.mul_mod_distr_r by lia. apply Z.div_mul. lia.
Qed.

Lemma join_split k x :
  0 <= k -> 0 <= x < 2 ^ (2 * k) ->
  Z.lor (Z.shiftl (Z.shiftr x k) k) (x mod 2 ^ k) = x.
Proof.
  intros Hk Hx. rewrite lor_shiftl_add by (try apply Z.mod_pos_bound; lia).
  rewrite Z.shiftr_div_pow2 by lia. pose proof (Z.div_mod x (2 ^ k) ltac:(lia)). lia.
Qed.

Lemma u64_join32 x :
  0 <= x < 2 ^ 64 ->
  Z.lor (u64 (Z.shiftl (Z.shiftr x 32 mod 2 ^ 32) 32))
        (Z.shiftr (u64 (Z.shiftl x 32)) 32 mod 2 ^ 32) = x.
Proof.
  intros Hx. pose proof (shiftr_range 64 x 32 ltac:(lia) ltac:(lia) Hx) as Hs.
  assert (Hhi : 0 <= Z.shiftr x 32 < 2 ^ 32).
  { rewrite Z.shiftr_div_pow2 in * by lia. split; [lia|].
    apply Z.div_lt_upper_bound; lia. }
  unfold u64. change 18446744073709551616 with (2 ^ (32 + 32)).
  destruct (mod_shiftl_shiftr 32 32 x) as [-> |]; [lia..| |lia].
  rewrite Z.mod_mod, (Z.mod_small (Z.shiftr x 32)) by lia.
  rewrite (Z.mod_small (Z.shiftl _ _)).
  - apply (join_split 32); lia.
  - rewrite Z.shiftl_mul_pow2 by lia. lia.
Qed.

Lemma u32_join16 x :
  0 <= x < 2 ^ 32 ->
  Z.lor (Z.shiftr (u32 (Z.shiftl x 16)) 16 mod 2 ^ 16)
        (u32 (Z.shiftl (Z.shiftr x 16 mod 2 ^ 16) 16)) = x.
Proof.
  intros Hx. pose proof (shiftr_range 32 x 16 ltac:(lia) ltac:(lia) Hx) as Hs.
  assert (Hhi : 0 <= Z.shiftr x 16 < 2 ^ 16).
  { rewrite Z.shiftr_div_pow2 in * by lia. split; [lia|].
    apply Z.div_lt_upper_bound; lia. }
  unfold u32. change 4294967296 with (2 ^ (16 + 16)).
  destruct (mod_shiftl_shiftr 16 16 x) as [-> |]; [lia..| |lia].
  rewrite Z.mod_mod, (Z.mod_small (Z.shiftr x 16)) by lia.
  rewrite (Z.mod_small (Z.shiftl _ _)).
  - rewrite Z.lor_comm. apply (join_split 16); lia.
  - rewrite Z.shiftl_mul_pow2 by lia. lia.
Qed.
