(* ===== verification/Layout.v ===== *)
(** * Packed C structures

    A packed structure is a run of bytes and a table of its fields; a field is
    an offset and a size.  [rd f base b] is [p->f] for a pointer [p] at byte
    [base] of the buffer [b], [wr f base v b] is [p->f = v].  On the
    little-endian hosts this driver is built for, [to_le16/32/64]
    (Core/lwext4/include/ext4_misc.h) are the identity, so a field is a
    little-endian integer. *)

From stdpp Require Import strings.
From S2P Require Import Prelude.

Record field := mk_field { f_off : Z; f_size : Z }.

(** The field of a table: the sizes of the fields before it, added up. *)
Fixpoint field_from (off : Z) (l : list (string * Z)) (name : string) : field :=
  match l with
  | [] => mk_field off 0
  | (n, w) :: l =>
      if String.eqb n name then mk_field off w else field_from (off + w) l name
  end.
Definition field_of (l : list (string * Z)) (name : string) : field :=
  field_from 0 l name.
Definition layout_size (l : list (string * Z)) : Z :=
  fold_right (fun p a => p.2 + a) 0 l.

Definition rd (f : field) (base : Z) (b : list Z) : Z :=
  get_le (Z.to_nat (f_size f)) (base + f_off f) b.
Definition wr (f : field) (base v : Z) (b : list Z) : list Z :=
  set_le (Z.to_nat (f_size f)) (base + f_off f) v b.

(** Field [f] lies inside a structure of [n] bytes; [f] and [g] share no byte. *)
Definition f_within (n : Z) (f : field) : bool :=
  (0 <=? f_off f) && (0 <=? f_size f) && (f_off f + f_size f <=? n).
Definition f_disj (f g : field) : bool :=
  (0 <=? f_off f) && (0 <=? f_off g) && (0 <=? f_size f) && (0 <=? f_size g) &&
  ((f_off f + f_size f <=? f_off g) || (f_off g + f_size g <=? f_off f)).
(** The bytes a structure at [base] of size [n] occupies are disjoint from those
    of one at [base'] of size [n']. *)
Definition apart (base n base' n' : Z) : Prop := base + n <= base' \/ base' + n' <= base.

Lemma rd_range f base b : 0 <= f_size f -> 0 <= rd f base b < 2 ^ (8 * f_size f).
Proof.
  intros Hs. unfold rd. pose proof (get_le_range (Z.to_nat (f_size f)) (base + f_off f) b).
  rewrite Z2Nat.id in * by lia. by rewrite Z.pow_mul_r by lia.
Qed.

Lemma blen_wr f base v b : blen (wr f base v b) = blen b.
Proof. apply blen_set_le. Qed.

Lemma bytes_ok_wr f base v b : bytes_ok b -> bytes_ok (wr f base v b).
Proof. apply bytes_ok_set_le. Qed.

Lemma rd_wr_eq f base v b n :
  f_within n f = true -> 0 <= base -> base + n <= blen b ->
  rd f base (wr f base v b) = v mod 2 ^ (8 * f_size f).
Proof.
  intros Hf Hb Hn. unfold f_within in Hf. unfold rd, wr.
  rewrite get_set_le_eq by lia. by rewrite Z2Nat.id, Z.pow_mul_r by lia.
Qed.

Lemma rd_wr_ne f g base v b :
  f_disj f g = true -> 0 <= base -> rd g base (wr f base v b) = rd g base b.
Proof. intros Hd Hb. unfold f_disj in Hd. apply get_set_le_ne; lia. Qed.

Lemma rd_wr_apart f g base base' n n' v b :
  f_within n f = true -> f_within n' g = true -> 0 <= base -> 0 <= base' ->
  apart base n base' n' -> rd g base' (wr f base v b) = rd g base' b.
Proof.
  intros Hf Hg Hb Hb' Ha. unfold f_within, apart in *. apply get_set_le_ne; lia.
Qed.

Lemma byte_at_wr_out f base v b j n :
  f_within n f = true -> 0 <= base -> 0 <= j -> j < base \/ base + n <= j ->
  byte_at (wr f base v b) j = byte_at b j.
Proof. intros Hf Hb Hj Hd. unfold f_within in Hf. apply byte_at_set_le_ne; lia. Qed.

Lemma rd_ext f base b b' n :
  f_within n f = true ->
  (forall j, base <= j < base + n -> byte_at b j = byte_at b' j) ->
  rd f base b = rd f base b'.
Proof. intros Hf H. unfold f_within in Hf. apply get_le_ext. intros. apply H. lia. Qed.

Create Rewrite HintDb struct.
#[export] Hint Rewrite blen_wr blen_set_byte : struct.
#[export] Hint Rewrite rd_wr_ne using (first [reflexivity | lia]) : struct.

(** [rd_same n] rewrites a read of the field just written, in a structure of
    [n] bytes. *)
Ltac rd_same n := rewrite (rd_wr_eq _ _ _ _ n) by (first [reflexivity | rewrite ?blen_wr; lia]).

(** [b'] is [b] but for the bytes [from .. to). *)
Definition changed_in (from to : Z) (b b' : list Z) : Prop :=
  forall j, 0 <= j -> j < from \/ to <= j -> byte_at b' j = byte_at b j.

Lemma changed_in_wr f base v b n :
  f_within n f = true -> 0 <= base -> changed_in base (base + n) b (wr f base v b).
Proof. intros Hf Hb j Hj Hd. by apply (byte_at_wr_out _ _ _ _ _ n). Qed.
Lemma changed_in_trans from to b b' b'' :
  changed_in from to b b' -> changed_in from to b' b'' -> changed_in from to b b''.
Proof. intros H H' j Hj Hd. by rewrite H', H. Qed.
Lemma changed_in_weaken from to from' to' b b' :
  changed_in from to b b' -> from' <= from -> to <= to' -> changed_in from' to' b b'.
Proof. intros H ? ? j Hj Hd. apply H; lia. Qed.
Lemma changed_in_refl from to b : changed_in from to b b.
Proof. by intros j. Qed.

(** [struct_reads n] computes reads of fields that were stored to, in a structure
    of [n] bytes. *)
Ltac struct_reads n :=
  repeat first
    [ rewrite (rd_wr_eq _ _ _ _ n); [|reflexivity|lia|rewrite ?blen_wr; lia]
    | rewrite rd_wr_ne; [|reflexivity|lia] ].

(** ** Runs of one byte *)

Lemma memset_spec off v n b :
  bytes_ok b -> 0 <= off -> 0 <= n -> off + n <= blen b ->
  bytes_ok (memset_at off v n b) /\ blen (memset_at off v n b) = blen b /\
  changed_in off (off + n) b (memset_at off v n b).
Proof.
  intros Hb Ho Hn Hin. unfold memset_at.
  assert (El : blen (replicate (Z.to_nat n) (u8 v)) = n) by (unfold blen; rewrite length_replicate; lia).
  split_and!.
  - apply bytes_ok_memcpy_at; [|done]. apply Forall_replicate, u8_range.
  - rewrite blen_memcpy_at; lia.
  - intros j Hj Hd. rewrite byte_at_memcpy_at by lia. rewrite El.
    by replace ((off <=? j) && (j <? off + n)) with false by lia.
Qed.

Lemma byte_at_memset off v n b j :
  0 <= off -> off + n <= blen b -> off <= j < off + n -> byte_at (memset_at off v n b) j = u8 v.
Proof.
  intros Ho Hin Hj. unfold memset_at.
  assert (El : blen (replicate (Z.to_nat n) (u8 v)) = n) by (unfold blen; rewrite length_replicate; lia).
  rewrite byte_at_memcpy_at by lia. rewrite El. replace ((off <=? j) && (j <? off + n)) with true by lia.
  unfold byte_at. rewrite nth_lookup, lookup_replicate_2 by lia. apply u8_u8.
Qed.
Lemma byte_at_zeros n j : byte_at (replicate n 0) j = 0.
Proof.
  unfold byte_at. destruct (nth_in_or_default (Z.to_nat j) (replicate n 0) 0) as [Hi| ->]; [|done].
  by apply list_elem_of_In, elem_of_replicate in Hi as [-> _].
Qed.
Lemma rd_zeros f base z n :
  f_within n f = true -> (forall j, base <= j < base + n -> byte_at z j = 0) -> rd f base z = 0.
Proof.
  intros Hf Hz. rewrite (rd_ext f base z (replicate 0 0) n Hf) by (intros; by rewrite Hz, byte_at_zeros).
  unfold rd. generalize (base + f_off f). induction (Z.to_nat (f_size f)) as [|k IH]; intros o; [done|].
  cbn [get_le]. by rewrite IH, byte_at_zeros.
Qed.

(** ** Storing twice, storing what is there *)

Lemma set_byte_set_le n : forall o w off v b, 0 <= off < o ->
  set_byte (set_le n o w b) off v = set_le n o w (set_byte b off v).
Proof.
  induction n as [|n IH]; intros o w off v b Ho; [done|]. cbn [set_le]. rewrite IH by lia. f_equal.
  unfold set_byte. apply list_insert_insert_ne. lia.
Qed.
Lemma set_le_set_le n : forall off v v' b, 0 <= off -> set_le n off v (set_le n off v' b) = set_le n off v b.
Proof.
  induction n as [|n IH]; intros off v v' b Ho; [done|]. cbn [set_le].
  rewrite set_byte_set_le, IH by lia. f_equal. unfold set_byte. apply list_insert_insert_eq.
Qed.
Lemma set_le_same n : forall off v b, bytes_ok b -> 0 <= off -> off + Z.of_nat n <= blen b ->
  get_le n off b = v mod 256 ^ Z.of_nat n -> set_le n off v b = b.
Proof.
  induction n as [|n IH]; intros off v b Hb Ho Hl E; [done|]. cbn [set_le get_le] in *.
  rewrite Nat2Z.inj_succ, Z.pow_succ_r in E by lia.
  rewrite <- (mod_pow_step v 256) in E by lia. pose proof (byte_at_range b off) as Hr.
  pose proof (Z.mod_pos_bound v 256 ltac:(lia)).
  assert (E1 : byte_at b off = v mod 256) by lia.
  assert (Eb : set_byte b off v = b).
  { destruct (lookup_lt_is_Some_2 b (Z.to_nat off)) as [x Hx]; [unfold blen in Hl; lia|].
    apply list_insert_id. rewrite Hx. f_equal. unfold u8. rewrite <- E1.
    pose proof (byte_at_lookup _ _ _ Hb Hx) as Hy. rewrite Z2Nat.id in Hy by lia. congruence. }
  rewrite Eb. apply IH; (done || lia).
Qed.
Lemma wr_wr f p v v' b : 0 <= p + f_off f -> wr f p v (wr f p v' b) = wr f p v b.
Proof. apply set_le_set_le. Qed.
Lemma wr_same f p b n : f_within n f = true -> 0 <= p -> p + n <= blen b -> bytes_ok b -> wr f p (rd f p b) b = b.
Proof.
  intros Hf Hp Hl Hb. unfold f_within in Hf. apply set_le_same; try (done || lia).
  unfold rd. symmetry. apply Z.mod_small, get_le_range.
Qed.
