(* ===== verification/Types.v ===== *)
(** * On-disk structures and constants

    Core/lwext4/include/ext4_types.h: the superblock, the group descriptor and
    the inode as field tables, the feature bits and the constants; the error
    codes of Core/lwext4/include/ext4_errno.h. *)

From stdpp Require Import strings.
From S2P Require Import Prelude Layout.
Local Open Scope string_scope.

(** [struct ext4_sblock] (packed): field names and sizes in bytes. *)
Definition ext4_sblock_layout : list (string * Z) :=
  [("inodes_count", 4); ("blocks_count_lo", 4); ("reserved_blocks_count_lo", 4);
   ("free_blocks_count_lo", 4); ("free_inodes_count", 4); ("first_data_block", 4);
   ("log_block_size", 4); ("log_cluster_size", 4); ("blocks_per_group", 4);
   ("frags_per_group", 4); ("inodes_per_group", 4); ("mount_time", 4);
   ("write_time", 4); ("mount_count", 2); ("max_mount_count", 2); ("magic", 2);
   ("state", 2); ("errors", 2); ("minor_rev_level", 2); ("last_check_time", 4);
   ("check_interval", 4); ("creator_os", 4); ("rev_level", 4); ("def_resuid", 2);
   ("def_resgid", 2); ("first_inode", 4); ("inode_size", 2);
   ("block_group_index", 2); ("features_compatible", 4);
   ("features_incompatible", 4); ("features_read_only", 4); ("uuid", 16);
   ("volume_name", 16); ("last_mounted", 64); ("algorithm_usage_bitmap", 4);
   ("s_prealloc_blocks", 1); ("s_prealloc_dir_blocks", 1);
   ("s_reserved_gdt_blocks", 2); ("journal_uuid", 16); ("journal_inode_number", 4);
   ("journal_dev", 4); ("last_orphan", 4); ("hash_seed", 16);
   ("default_hash_version", 1); ("journal_backup_type", 1); ("desc_size", 2);
   ("default_mount_opts", 4); ("first_meta_bg", 4); ("mkfs_time", 4);
   ("journal_blocks", 68); ("blocks_count_hi", 4); ("reserved_blocks_count_hi", 4);
   ("free_blocks_count_hi", 4); ("min_extra_isize", 2); ("want_extra_isize", 2);
   ("flags", 4); ("raid_stride", 2); ("mmp_interval", 2); ("mmp_block", 8);
   ("raid_stripe_width", 4); ("log_groups_per_flex", 1); ("checksum_type", 1);
   ("reserved_pad", 2); ("kbytes_written", 8); ("snapshot_inum", 4);
   ("snapshot_id", 4); ("snapshot_r_blocks_count", 8); ("snapshot_list", 4);
   ("error_count", 4); ("first_error_time", 4); ("first_error_ino", 4);
   ("first_error_block", 8); ("first_error_func", 32); ("first_error_line", 4);
   ("last_error_time", 4); ("last_error_ino", 4); ("last_error_line", 4);
   ("last_error_block", 8); ("last_error_func", 32); ("mount_opts", 64);
   ("usr_quota_inum", 4); ("grp_quota_inum", 4); ("overhead_clusters", 4);
   ("backup_bgs", 8); ("encrypt_algos", 4); ("encrypt_pw_salt", 16);
   ("lpf_ino", 4); ("prj_quota_inum", 4); ("checksum_seed", 4); ("padding", 392);
   ("checksum", 4)].

(** [struct ext4_bgroup] (packed). *)
Definition ext4_bgroup_layout : list (string * Z) :=
  [("block_bitmap_lo", 4); ("inode_bitmap_lo", 4);
   ("inode_table_first_block_lo", 4); ("free_blocks_count_lo", 2);
   ("free_inodes_count_lo", 2); ("used_dirs_count_lo", 2); ("flags", 2);
   ("exclude_bitmap_lo", 4); ("block_bitmap_csum_lo", 2);
   ("inode_bitmap_csum_lo", 2); ("itable_unused_lo", 2); ("checksum", 2);
   ("block_bitmap_hi", 4); ("inode_bitmap_hi", 4);
   ("inode_table_first_block_hi", 4); ("free_blocks_count_hi", 2);
   ("free_inodes_count_hi", 2); ("used_dirs_count_hi", 2); ("itable_unused_hi", 2);
   ("exclude_bitmap_hi", 4); ("block_bitmap_csum_hi", 2);
   ("inode_bitmap_csum_hi", 2); ("reserved", 4)].

(** [struct ext4_dir_en] without its name, the union [in] as one byte; and
    [struct ext4_dir_entry_tail]. *)
Definition ext4_dir_en_layout : list (string * Z) :=
  [("inode", 4); ("entry_len", 2); ("name_len", 1); ("in", 1)].
Definition ext4_dir_entry_tail_layout : list (string * Z) :=
  [("reserved_zero1", 4); ("rec_len", 2); ("reserved_zero2", 1); ("reserved_ft", 1);
   ("checksum", 4)].

(** [struct ext4_inode] (packed), the union [osd2] as its [linux2] member. *)
Definition ext4_inode_layout : list (string * Z) :=
  [("mode", 2); ("uid", 2); ("size_lo", 4); ("access_time", 4);
   ("change_inode_time", 4); ("modification_time", 4); ("deletion_time", 4);
   ("gid", 2); ("links_count", 2); ("blocks_count_lo", 4); ("flags", 4);
   ("unused_osd1", 4); ("blocks", 60); ("generation", 4); ("file_acl_lo", 4);
   ("size_hi", 4); ("obso_faddr", 4); ("linux2.blocks_high", 2);
   ("linux2.file_acl_high", 2); ("linux2.uid_high", 2); ("linux2.gid_high", 2);
   ("linux2.checksum_lo", 2); ("linux2.reserved2", 2); ("extra_isize", 2);
   ("checksum_hi", 2); ("ctime_extra", 4); ("mtime_extra", 4); ("atime_extra", 4);
   ("crtime", 4); ("crtime_extra", 4); ("version_hi", 4)].

(** Fields of [ext4_sblock_layout] the modelled code accesses. *)
Definition sb_inodes_count : field := Eval vm_compute in field_of ext4_sblock_layout "inodes_count".
Definition sb_blocks_count_lo : field := Eval vm_compute in field_of ext4_sblock_layout "blocks_count_lo".
Definition sb_free_blocks_count_lo : field := Eval vm_compute in field_of ext4_sblock_layout "free_blocks_count_lo".
Definition sb_free_inodes_count : field := Eval vm_compute in field_of ext4_sblock_layout "free_inodes_count".
Definition sb_first_data_block : field := Eval vm_compute in field_of ext4_sblock_layout "first_data_block".
Definition sb_log_block_size : field := Eval vm_compute in field_of ext4_sblock_layout "log_block_size".
Definition sb_log_cluster_size : field := Eval vm_compute in field_of ext4_sblock_layout "log_cluster_size".
Definition sb_blocks_per_group : field := Eval vm_compute in field_of ext4_sblock_layout "blocks_per_group".
Definition sb_inodes_per_group : field := Eval vm_compute in field_of ext4_sblock_layout "inodes_per_group".
Definition sb_mount_count : field := Eval vm_compute in field_of ext4_sblock_layout "mount_count".
Definition sb_magic : field := Eval vm_compute in field_of ext4_sblock_layout "magic".
Definition sb_state : field := Eval vm_compute in field_of ext4_sblock_layout "state".
Definition sb_creator_os : field := Eval vm_compute in field_of ext4_sblock_layout "creator_os".
Definition sb_minor_rev_level : field := Eval vm_compute in field_of ext4_sblock_layout "minor_rev_level".
Definition sb_rev_level : field := Eval vm_compute in field_of ext4_sblock_layout "rev_level".
Definition sb_first_inode : field := Eval vm_compute in field_of ext4_sblock_layout "first_inode".
Definition sb_inode_size : field := Eval vm_compute in field_of ext4_sblock_layout "inode_size".
Definition sb_features_compatible : field := Eval vm_compute in field_of ext4_sblock_layout "features_compatible".
Definition sb_features_incompatible : field := Eval vm_compute in field_of ext4_sblock_layout "features_incompatible".
Definition sb_features_read_only : field := Eval vm_compute in field_of ext4_sblock_layout "features_read_only".
Definition sb_uuid : field := Eval vm_compute in field_of ext4_sblock_layout "uuid".
Definition sb_reserved_gdt_blocks : field := Eval vm_compute in field_of ext4_sblock_layout "s_reserved_gdt_blocks".
Definition sb_journal_inode_number : field := Eval vm_compute in field_of ext4_sblock_layout "journal_inode_number".
Definition sb_last_orphan : field := Eval vm_compute in field_of ext4_sblock_layout "last_orphan".
Definition sb_hash_seed : field := Eval vm_compute in field_of ext4_sblock_layout "hash_seed".
Definition sb_default_hash_version : field := Eval vm_compute in field_of ext4_sblock_layout "default_hash_version".
Definition sb_desc_size : field := Eval vm_compute in field_of ext4_sblock_layout "desc_size".
Definition sb_first_meta_bg : field := Eval vm_compute in field_of ext4_sblock_layout "first_meta_bg".
Definition sb_blocks_count_hi : field := Eval vm_compute in field_of ext4_sblock_layout "blocks_count_hi".
Definition sb_free_blocks_count_hi : field := Eval vm_compute in field_of ext4_sblock_layout "free_blocks_count_hi".
Definition sb_flags : field := Eval vm_compute in field_of ext4_sblock_layout "flags".
Definition sb_log_groups_per_flex : field := Eval vm_compute in field_of ext4_sblock_layout "log_groups_per_flex".
Definition sb_checksum_type : field := Eval vm_compute in field_of ext4_sblock_layout "checksum_type".
Definition sb_checksum_seed : field := Eval vm_compute in field_of ext4_sblock_layout "checksum_seed".
Definition sb_checksum : field := Eval vm_compute in field_of ext4_sblock_layout "checksum".
Definition sb_volume_name : field := Eval vm_compute in field_of ext4_sblock_layout "volume_name".

(** Fields of [ext4_bgroup_layout] the modelled code accesses. *)
Definition bg_block_bitmap_lo : field := Eval vm_compute in field_of ext4_bgroup_layout "block_bitmap_lo".
Definition bg_inode_bitmap_lo : field := Eval vm_compute in field_of ext4_bgroup_layout "inode_bitmap_lo".
Definition bg_inode_table_first_block_lo : field := Eval vm_compute in field_of ext4_bgroup_layout "inode_table_first_block_lo".
Definition bg_free_blocks_count_lo : field := Eval vm_compute in field_of ext4_bgroup_layout "free_blocks_count_lo".
Definition bg_free_inodes_count_lo : field := Eval vm_compute in field_of ext4_bgroup_layout "free_inodes_count_lo".
Definition bg_used_dirs_count_lo : field := Eval vm_compute in field_of ext4_bgroup_layout "used_dirs_count_lo".
Definition bg_flags : field := Eval vm_compute in field_of ext4_bgroup_layout "flags".
Definition bg_block_bitmap_csum_lo : field := Eval vm_compute in field_of ext4_bgroup_layout "block_bitmap_csum_lo".
Definition bg_inode_bitmap_csum_lo : field := Eval vm_compute in field_of ext4_bgroup_layout "inode_bitmap_csum_lo".
Definition bg_itable_unused_lo : field := Eval vm_compute in field_of ext4_bgroup_layout "itable_unused_lo".
Definition de_inode : field := Eval vm_compute in field_of ext4_dir_en_layout "inode".
Definition de_entry_len : field := Eval vm_compute in field_of ext4_dir_en_layout "entry_len".
Definition de_name_len : field := Eval vm_compute in field_of ext4_dir_en_layout "name_len".
Definition de_in : field := Eval vm_compute in field_of ext4_dir_en_layout "in".
Definition det_reserved_zero1 : field := Eval vm_compute in field_of ext4_dir_entry_tail_layout "reserved_zero1".
Definition det_rec_len : field := Eval vm_compute in field_of ext4_dir_entry_tail_layout "rec_len".
Definition det_reserved_zero2 : field := Eval vm_compute in field_of ext4_dir_entry_tail_layout "reserved_zero2".
Definition det_reserved_ft : field := Eval vm_compute in field_of ext4_dir_entry_tail_layout "reserved_ft".
Definition det_checksum : field := Eval vm_compute in field_of ext4_dir_entry_tail_layout "checksum".
Definition bg_checksum : field := Eval vm_compute in field_of ext4_bgroup_layout "checksum".
Definition bg_block_bitmap_hi : field := Eval vm_compute in field_of ext4_bgroup_layout "block_bitmap_hi".
Definition bg_inode_bitmap_hi : field := Eval vm_compute in field_of ext4_bgroup_layout "inode_bitmap_hi".
Definition bg_inode_table_first_block_hi : field := Eval vm_compute in field_of ext4_bgroup_layout "inode_table_first_block_hi".
Definition bg_free_blocks_count_hi : field := Eval vm_compute in field_of ext4_bgroup_layout "free_blocks_count_hi".
Definition bg_free_inodes_count_hi : field := Eval vm_compute in field_of ext4_bgroup_layout "free_inodes_count_hi".
Definition bg_used_dirs_count_hi : field := Eval vm_compute in field_of ext4_bgroup_layout "used_dirs_count_hi".
Definition bg_itable_unused_hi : field := Eval vm_compute in field_of ext4_bgroup_layout "itable_unused_hi".
Definition bg_block_bitmap_csum_hi : field := Eval vm_compute in field_of ext4_bgroup_layout "block_bitmap_csum_hi".
Definition bg_inode_bitmap_csum_hi : field := Eval vm_compute in field_of ext4_bgroup_layout "inode_bitmap_csum_hi".

(** Fields of [ext4_inode_layout] the modelled code accesses. *)
Definition ino_mode : field := Eval vm_compute in field_of ext4_inode_layout "mode".
Definition ino_uid : field := Eval vm_compute in field_of ext4_inode_layout "uid".
Definition ino_size_lo : field := Eval vm_compute in field_of ext4_inode_layout "size_lo".
Definition ino_access_time : field := Eval vm_compute in field_of ext4_inode_layout "access_time".
Definition ino_change_inode_time : field := Eval vm_compute in field_of ext4_inode_layout "change_inode_time".
Definition ino_modification_time : field := Eval vm_compute in field_of ext4_inode_layout "modification_time".
Definition ino_deletion_time : field := Eval vm_compute in field_of ext4_inode_layout "deletion_time".
Definition ino_gid : field := Eval vm_compute in field_of ext4_inode_layout "gid".
Definition ino_links_count : field := Eval vm_compute in field_of ext4_inode_layout "links_count".
Definition ino_blocks_count_lo : field := Eval vm_compute in field_of ext4_inode_layout "blocks_count_lo".
Definition ino_flags : field := Eval vm_compute in field_of ext4_inode_layout "flags".
Definition ino_blocks : field := Eval vm_compute in field_of ext4_inode_layout "blocks".
Definition ino_generation : field := Eval vm_compute in field_of ext4_inode_layout "generation".
Definition ino_file_acl_lo : field := Eval vm_compute in field_of ext4_inode_layout "file_acl_lo".
Definition ino_size_hi : field := Eval vm_compute in field_of ext4_inode_layout "size_hi".
Definition ino_blocks_high : field := Eval vm_compute in field_of ext4_inode_layout "linux2.blocks_high".
Definition ino_file_acl_high : field := Eval vm_compute in field_of ext4_inode_layout "linux2.file_acl_high".
Definition ino_checksum_lo : field := Eval vm_compute in field_of ext4_inode_layout "linux2.checksum_lo".
Definition ino_extra_isize : field := Eval vm_compute in field_of ext4_inode_layout "extra_isize".
Definition ino_checksum_hi : field := Eval vm_compute in field_of ext4_inode_layout "checksum_hi".

Definition EXT4_CHECKSUM_CRC32C := 1.
Definition EXT4_SUPERBLOCK_MAGIC := 0xEF53.
Definition EXT4_SUPERBLOCK_SIZE := 1024.
Definition EXT4_SUPERBLOCK_OFFSET := 1024.
Definition EXT4_SUPERBLOCK_OS_LINUX := 0.
Definition EXT4_SUPERBLOCK_OS_HURD := 1.
Definition EXT4_SUPERBLOCK_STATE_VALID_FS := 0x0001.
Definition EXT4_SUPERBLOCK_STATE_ERROR_FS := 0x0002.

Definition EXT4_FCOM_DIR_INDEX := 0x0020.
Definition EXT4_FRO_COM_SPARSE_SUPER := 0x0001.
Definition EXT4_FRO_COM_LARGE_FILE := 0x0002.
Definition EXT4_FRO_COM_HUGE_FILE := 0x0008.
Definition EXT4_FRO_COM_GDT_CSUM := 0x0010.
Definition EXT4_FRO_COM_DIR_NLINK := 0x0020.
Definition EXT4_FRO_COM_EXTRA_ISIZE := 0x0040.
Definition EXT4_FRO_COM_METADATA_CSUM := 0x0400.
Definition EXT4_FINCOM_FILETYPE := 0x0002.
Definition EXT4_FINCOM_RECOVER := 0x0004.
Definition EXT4_FINCOM_META_BG := 0x0010.
Definition EXT4_FINCOM_EXTENTS := 0x0040.
Definition EXT4_FINCOM_64BIT := 0x0080.
Definition EXT4_FINCOM_MMP := 0x0100.
Definition EXT4_FINCOM_FLEX_BG := 0x0200.
Definition EXT4_FINCOM_BG_USE_META_CSUM := 0x2000.

(** The ext4 feature sets; EXT_FINCOM_IGNORED is or-ed in by
    CONFIG_SUPPORTED_FINCOM (ext4_config.h). *)
Definition EXT4_SUPPORTED_FINCOM :=
  Eval vm_compute in
  fold_right Z.lor 0 [EXT4_FINCOM_FILETYPE; EXT4_FINCOM_META_BG;
    EXT4_FINCOM_EXTENTS; EXT4_FINCOM_FLEX_BG; EXT4_FINCOM_64BIT].
Definition EXT4_SUPPORTED_FRO_COM :=
  Eval vm_compute in
  fold_right Z.lor 0 [EXT4_FRO_COM_SPARSE_SUPER; EXT4_FRO_COM_METADATA_CSUM;
    EXT4_FRO_COM_LARGE_FILE; EXT4_FRO_COM_GDT_CSUM; EXT4_FRO_COM_DIR_NLINK;
    EXT4_FRO_COM_EXTRA_ISIZE; EXT4_FRO_COM_HUGE_FILE].
Definition EXT_FINCOM_IGNORED :=
  Eval vm_compute in Z.lor EXT4_FINCOM_RECOVER EXT4_FINCOM_MMP.

Definition EXT4_BLOCK_GROUP_INODE_UNINIT := 0x0001.
Definition EXT4_BLOCK_GROUP_BLOCK_UNINIT := 0x0002.
Definition EXT4_BLOCK_GROUP_ITABLE_ZEROED := 0x0004.
Definition EXT4_MIN_BLOCK_GROUP_DESCRIPTOR_SIZE := 32.
Definition EXT4_MAX_BLOCK_GROUP_DESCRIPTOR_SIZE := 64.
Definition EXT4_MAX_BLOCK_SIZE := 65536.
Definition EXT4_INODE_BLOCK_SIZE := 512.
Definition EXT4_INODE_INDIRECT_BLOCK := 12.

Definition EXT4_INODE_MODE_FIFO := 0x1000.
Definition EXT4_INODE_MODE_CHARDEV := 0x2000.
Definition EXT4_INODE_MODE_DIRECTORY := 0x4000.
Definition EXT4_INODE_MODE_BLOCKDEV := 0x6000.
Definition EXT4_INODE_MODE_FILE := 0x8000.
Definition EXT4_INODE_MODE_SOFTLINK := 0xA000.
Definition EXT4_INODE_MODE_SOCKET := 0xC000.
Definition EXT4_INODE_MODE_TYPE_MASK := 0xF000.
Definition EXT4_INODE_FLAG_IMMUTABLE := 0x00000010.
Definition EXT4_INODE_FLAG_APPEND := 0x00000020.
Definition EXT4_INODE_FLAG_HUGE_FILE := 0x00040000.
Definition EXT4_GOOD_OLD_INODE_SIZE := 128.

Definition EXT2_HTREE_LEGACY := 0.
Definition EXT2_HTREE_HALF_MD4 := 1.
Definition EXT2_HTREE_TEA := 2.
Definition EXT2_HTREE_LEGACY_UNSIGNED := 3.
Definition EXT2_HTREE_HALF_MD4_UNSIGNED := 4.
Definition EXT2_HTREE_TEA_UNSIGNED := 5.
Definition EXT2_HTREE_EOF := 0x7FFFFFFF.
Definition EXT4_CRC32_INIT := 0xFFFFFFFF.

Definition EXT4_DE_UNKNOWN := 0.
Definition EXT4_DE_REG_FILE := 1.
Definition EXT4_DE_DIR := 2.
Definition EXT4_DE_CHRDEV := 3.
Definition EXT4_DE_BLKDEV := 4.
Definition EXT4_DE_FIFO := 5.
Definition EXT4_DE_SOCK := 6.
Definition EXT4_DE_SYMLINK := 7.
Definition EXT4_DIRENTRY_DIR_CSUM := 0xDE.

Definition EOK := 0.
Definition ENOENT := 2.
Definition EIO := 5.
Definition ENXIO := 6.
Definition ENOMEM := 12.
Definition ENOTDIR := 20.
Definition EINVAL := 22.
Definition ENOSPC := 28.
Definition ENOTSUP := 95.

(** A C truth test of a masked value. *)
Definition has_bits (v mask : Z) : bool := negb (Z.land v mask =? 0)%Z.
