(* ===== verification/Bitmap.v ===== *)
(** * Block and inode bitmaps

    Core/lwext4/src/ext4_bitmap.c and include/ext4_bitmap.h, in the
    configuration the driver builds ([CONFIG_UNALIGNED_ACCESS] is 0).  A bitmap
    is a buffer; bit [i] is bit [i & 7] of byte [i >> 3].  The pointer [bmap]
    that the C loops advance is a byte offset here. *)

From S2P Require Import Prelude Types.

Definition ext4_bmap_bit_set (bmap : list Z) (bit : Z) : list Z :=
  set_byte bmap (Z.shiftr bit 3)
    (Z.lor (byte_at bmap (Z.shiftr bit 3)) (Z.shiftl 1 (Z.land bit 7))).

Definition ext4_bmap_bit_clr (bmap : list Z) (bit : Z) : list Z :=
  set_byte bmap (Z.shiftr bit 3)
    (Z.land (byte_at bmap (Z.shiftr bit 3)) (Z.lnot (Z.shiftl 1 (Z.land bit 7)))).

Definition ext4_bmap_is_bit_set (bmap : list Z) (bit : Z) : bool :=
  has_bits (byte_at bmap (Z.shiftr bit 3)) (Z.shiftl 1 (Z.land bit 7)).

Definition ext4_bmap_is_bit_clr (bmap : list Z) (bit : Z) : bool :=
  negb (ext4_bmap_is_bit_set bmap bit).

(** [while (i & 7) { if (!bcnt) return; clr(bmap, i); bcnt--; i++; }]: the
    bitmap, [i] and [bcnt] when the loop leaves, and whether it returned. *)
Fixpoint bits_free_head (fuel : nat) (bmap : list Z) (i bcnt : Z)
    : list Z * Z * Z * bool :=
  match fuel with
  | O => (bmap, i, bcnt, false)
  | S fuel =>
      if Z.land i 7 =? 0 then (bmap, i, bcnt, false)
      else if bcnt =? 0 then (bmap, i, bcnt, true)
      else bits_free_head fuel (ext4_bmap_bit_clr bmap i) (u32 (i + 1)) (u32 (bcnt - 1))
  end.

(** [while (bcnt >= 8) { *bmap = 0; bmap += 1; bcnt -= 8; sbit += 8; }] *)
Fixpoint bits_free_bytes (fuel : nat) (bmap : list Z) (p bcnt : Z) : list Z * Z * Z :=
  match fuel with
  | O => (bmap, p, bcnt)
  | S fuel =>
      if 8 <=? bcnt then bits_free_bytes fuel (set_byte bmap p 0) (p + 1) (bcnt - 8)
      else (bmap, p, bcnt)
  end.

(** [for (i = 0; i < bcnt; ++i) clr(bmap, i)] with [bmap] at byte [p]. *)
Fixpoint bits_free_tail (fuel : nat) (bmap : list Z) (p i bcnt : Z) : list Z :=
  match fuel with
  | O => bmap
  | S fuel =>
      if i <? bcnt
      then bits_free_tail fuel (ext4_bmap_bit_clr bmap (8 * p + i)) p (i + 1) bcnt
      else bmap
  end.

(** The head loop runs at most 7 times, the byte loop [bcnt / 8] times and the
    tail at most 7 times. *)
Definition ext4_bmap_bits_free (bmap : list Z) (sbit bcnt : Z) : list Z :=
  let '(bmap, i, bcnt, ret) := bits_free_head 8 bmap sbit bcnt in
  if ret then bmap
  else
    let '(bmap, p, bcnt) :=
      bits_free_bytes (S (Z.to_nat (bcnt / 8))) bmap (Z.shiftr i 3) bcnt in
    bits_free_tail 8 bmap p 0 bcnt.

(** What a stage of the search answers: return this, or go on. *)
Inductive search (A : Type) : Type :=
| Found (bit : Z)
| NoSpace
| GoOn (a : A).
Arguments Found {A} bit.
Arguments NoSpace {A}.
Arguments GoOn {A} a.

Fixpoint find_clr_head (fuel : nat) (bmap : list Z) (i bcnt : Z) : search (Z * Z) :=
  match fuel with
  | O => GoOn (i, bcnt)
  | S fuel =>
      if Z.land i 7 =? 0 then GoOn (i, bcnt)
      else if bcnt =? 0 then NoSpace
      else if ext4_bmap_is_bit_clr bmap i then Found i
      else find_clr_head fuel bmap (u32 (i + 1)) (u32 (bcnt - 1))
  end.

(** [for (i = 0; i < n; ++i) if (is_bit_clr(bmap, i)) ... sbit + i], with [bmap]
    at byte [p] and [n] the bits left to look at. *)
Fixpoint find_clr_bits (n : nat) (bmap : list Z) (p sbit i : Z) : option Z :=
  match n with
  | O => None
  | S n =>
      if ext4_bmap_is_bit_clr bmap (8 * p + i) then Some (u32 (sbit + i))
      else find_clr_bits n bmap p sbit (i + 1)
  end.

Fixpoint find_clr_bytes (fuel : nat) (bmap : list Z) (p sbit bcnt : Z)
    : search (Z * Z * Z) :=
  match fuel with
  | O => GoOn (p, sbit, bcnt)
  | S fuel =>
      if 8 <=? bcnt then
        match (if byte_at bmap p =? 0xFF then None
               else find_clr_bits 8 bmap p sbit 0) with
        | Some bit => Found bit
        | None => find_clr_bytes fuel bmap (p + 1) (u32 (sbit + 8)) (bcnt - 8)
        end
      else GoOn (p, sbit, bcnt)
  end.

Definition ext4_bmap_bit_find_clr (bmap : list Z) (sbit ebit : Z) : result Z :=
  if ebit <=? sbit then Err ENOSPC
  else
    match find_clr_head 8 bmap sbit (u32 (ebit - sbit)) with
    | Found bit => Ok bit
    | NoSpace => Err ENOSPC
    | GoOn (i, bcnt) =>
        match find_clr_bytes (S (Z.to_nat (bcnt / 8))) bmap (Z.shiftr i 3) i bcnt with
        | Found bit => Ok bit
        | NoSpace => Err ENOSPC
        | GoOn (p, sbit, bcnt) =>
            match find_clr_bits (Z.to_nat bcnt) bmap p sbit 0 with
            | Some bit => Ok bit
            | None => Err ENOSPC
            end
        end
    end.

Example find_clr_ex :
  ext4_bmap_bit_find_clr [0xFF; 0xFF; 0xFB; 0xFF] 3 32 = Ok 18.
Proof. reflexivity. Qed.
Example bits_free_ex :
  ext4_bmap_bits_free [0xFF; 0xFF; 0xFF] 3 15 = [0x07; 0x00; 0xFC].
Proof. reflexivity. Qed.

(** ** Bits *)

(** Bit [j] of a bitmap, as the theorems speak of it. *)
Definition bit_at (bmap : list Z) (j : Z) : bool :=
  Z.testbit (byte_at bmap (j / 8)) (j mod 8).

Lemma has_bits_pow2 v k : 0 <= k -> has_bits v (Z.shiftl 1 k) = Z.testbit v k.
Proof.
  intros Hk. unfold has_bits. rewrite Z.shiftl_1_l.
  destruct (Z.testbit v k) eqn:E.
  - apply negb_true_iff, Z.eqb_neq. intros H0.
    assert (Ht : Z.testbit (Z.land v (2 ^ k)) k = false) by (rewrite H0; apply Z.testbit_0_l).
    by rewrite Z.land_spec, E, Z.pow2_bits_true in Ht by lia.
  - apply negb_false_iff, Z.eqb_eq, Z.bits_inj'. intros n Hn.
    rewrite Z.land_spec, Z.testbit_0_l, Z.pow2_bits_eqb by lia.
    destruct (Z.eqb_spec k n) as [<-|]; [by rewrite E|apply andb_false_r].
Qed.

Lemma testbit_u8 z k : 0 <= k < 8 -> Z.testbit (u8 z) k = Z.testbit z k.
Proof. intros. unfold u8. change 256 with (2 ^ 8). apply Z.mod_pow2_bits_low. lia. Qed.

Lemma land7_mod j : Z.land j 7 = j mod 8.
Proof. change 7 with (Z.ones 3). by rewrite Z.land_ones by lia. Qed.
Lemma shiftr3_div j : Z.shiftr j 3 = j / 8.
Proof. by rewrite Z.shiftr_div_pow2 by lia. Qed.

Lemma is_bit_set_bit_at bmap j :
  0 <= j -> ext4_bmap_is_bit_set bmap j = bit_at bmap j.
Proof.
  intros Hj. unfold ext4_bmap_is_bit_set, bit_at. rewrite land7_mod, shiftr3_div.
  apply has_bits_pow2. dlia.
Qed.

Lemma is_bit_clr_bit_at bmap j :
  0 <= j -> ext4_bmap_is_bit_clr bmap j = negb (bit_at bmap j).
Proof. intros. unfold ext4_bmap_is_bit_clr. by rewrite is_bit_set_bit_at. Qed.

Lemma bit_index_eqb i j : 0 <= i -> 0 <= j ->
  (i =? j) = (i / 8 =? j / 8) && (i mod 8 =? j mod 8).
Proof.
  intros. destruct (Z.eqb_spec i j), (Z.eqb_spec (i / 8) (j / 8)),
    (Z.eqb_spec (i mod 8) (j mod 8)); simpl; try done; dlia.
Qed.

(** One byte replaced by one whose bits are [g] of the old ones. *)
Lemma bit_at_set_byte bmap p v j :
  0 <= p < blen bmap -> 0 <= j ->
  bit_at (set_byte bmap p v) j =
    if p =? j / 8 then Z.testbit v (j mod 8) else bit_at bmap j.
Proof.
  intros Hp Hj. unfold bit_at. rewrite byte_at_set_byte by dlia.
  destruct (p =? j / 8); [|done]. apply testbit_u8. dlia.
Qed.

Lemma blen_bit_set bmap i : blen (ext4_bmap_bit_set bmap i) = blen bmap.
Proof. apply blen_set_byte. Qed.
Lemma blen_bit_clr bmap i : blen (ext4_bmap_bit_clr bmap i) = blen bmap.
Proof. apply blen_set_byte. Qed.

Lemma bit_at_bit_set bmap i j :
  0 <= i < 8 * blen bmap -> 0 <= j ->
  bit_at (ext4_bmap_bit_set bmap i) j = (i =? j) || bit_at bmap j.
Proof.
  intros Hi Hj. unfold ext4_bmap_bit_set. rewrite land7_mod, shiftr3_div.
  rewrite bit_at_set_byte by dlia. rewrite (bit_index_eqb i j) by lia.
  destruct (Z.eqb_spec (i / 8) (j / 8)) as [E|]; [|done].
  rewrite Z.lor_spec, Z.shiftl_1_l, Z.pow2_bits_eqb by dlia.
  unfold bit_at. rewrite E. cbn [andb]. apply orb_comm.
Qed.

Lemma bit_at_bit_clr bmap i j :
  0 <= i < 8 * blen bmap -> 0 <= j ->
  bit_at (ext4_bmap_bit_clr bmap i) j = negb (i =? j) && bit_at bmap j.
Proof.
  intros Hi Hj. unfold ext4_bmap_bit_clr. rewrite land7_mod, shiftr3_div.
  rewrite bit_at_set_byte by dlia. rewrite (bit_index_eqb i j) by lia.
  destruct (Z.eqb_spec (i / 8) (j / 8)) as [E|]; [|done].
  rewrite Z.land_spec, Z.lnot_spec, Z.shiftl_1_l, Z.pow2_bits_eqb by dlia.
  unfold bit_at. rewrite E. cbn [andb]. apply andb_comm.
Qed.

Lemma bit_at_set_byte_0 bmap p j :
  0 <= p < blen bmap -> 0 <= j ->
  bit_at (set_byte bmap p 0) j = bit_at bmap j && negb ((8 * p <=? j) && (j <? 8 * p + 8)).
Proof.
  intros Hp Hj. rewrite bit_at_set_byte, Z.testbit_0_l by dlia.
  destruct (Z.eqb_spec p (j / 8)).
  - replace ((8 * p <=? j) && (j <? 8 * p + 8)) with true by dlia. by rewrite andb_false_r.
  - replace ((8 * p <=? j) && (j <? 8 * p + 8)) with false by dlia. by rewrite andb_true_r.
Qed.

Create Rewrite HintDb bitmap.
#[export] Hint Rewrite blen_bit_set blen_bit_clr blen_set_byte : bitmap.

(** ** Freeing a range *)

(** [b'] is [b] with exactly the bits of [lo, hi) cleared. *)
Definition cleared (b b' : list Z) (lo hi : Z) : Prop :=
  blen b' = blen b /\
  forall j, 0 <= j -> bit_at b' j = bit_at b j && negb ((lo <=? j) && (j <? hi)).

Lemma cleared_refl b lo : cleared b b lo lo.
Proof.
  split; [done|]. intros j Hj. replace ((lo <=? j) && (j <? lo)) with false by lia.
  by rewrite andb_true_r.
Qed.

Lemma cleared_trans b b1 b2 lo mid hi :
  lo <= mid <= hi -> cleared b b1 lo mid -> cleared b1 b2 mid hi -> cleared b b2 lo hi.
Proof.
  intros Hm [Hl1 H1] [Hl2 H2]. split; [lia|]. intros j Hj.
  rewrite H2, H1, <- andb_assoc by done. f_equal. lia.
Qed.

Lemma cleared_bit b i :
  0 <= i < 8 * blen b -> cleared b (ext4_bmap_bit_clr b i) i (i + 1).
Proof.
  intros Hi. split; [apply blen_bit_clr|]. intros j Hj.
  rewrite bit_at_bit_clr, andb_comm by done. f_equal. lia.
Qed.

Lemma cleared_byte b p :
  0 <= p < blen b -> cleared b (set_byte b p 0) (8 * p) (8 * p + 8).
Proof.
  intros Hp. split; [apply blen_set_byte|]. intros j Hj. by apply bit_at_set_byte_0.
Qed.

Lemma bits_free_head_spec fuel : forall b i c,
  0 <= i -> 0 <= c -> i + c <= 8 * blen b -> i + c < 4294967296 ->
  (8 - i mod 8) mod 8 < Z.of_nat fuel ->
  let '(b', i', c', ret) := bits_free_head fuel b i c in
  cleared b b' i i' /\ i <= i' /\ i' + c' = i + c /\ 0 <= c' /\
  if ret then c' = 0 else i' mod 8 = 0.
Proof.
  induction fuel as [|fuel IH]; intros b i c Hi Hc Hb Hm Hf; [dlia|].
  cbn [bits_free_head]. rewrite land7_mod.
  destruct (Z.eqb_spec (i mod 8) 0) as [E|E].
  { split_and!; try lia; apply cleared_refl. }
  destruct (Z.eqb_spec c 0) as [->|Hc0].
  { split_and!; try lia; apply cleared_refl. }
  rewrite !u32_id by lia.
  specialize (IH (ext4_bmap_bit_clr b i) (i + 1) (c - 1)).
  rewrite blen_bit_clr in IH.
  do 5 (ospecialize (IH _); [dlia|]).
  destruct (bits_free_head _ _ _ _) as [[[b' i'] c'] ret].
  destruct IH as (Hcl & H1 & H2 & H3 & H4). split_and!; try lia; try done.
  apply (cleared_trans _ (ext4_bmap_bit_clr b i) _ i (i + 1) i');
    [lia|apply cleared_bit; lia|done].
Qed.

Lemma bits_free_bytes_spec fuel : forall b p c,
  0 <= p -> 0 <= c -> 8 * p + c <= 8 * blen b -> c / 8 < Z.of_nat fuel ->
  let '(b', p', c') := bits_free_bytes fuel b p c in
  cleared b b' (8 * p) (8 * p') /\ p <= p' /\ 8 * p' + c' = 8 * p + c /\ 0 <= c' < 8.
Proof.
  induction fuel as [|fuel IH]; intros b p c Hp Hc Hb Hf; [dlia|].
  cbn [bits_free_bytes]. destruct (Z.leb_spec 8 c) as [H8|H8].
  2: { split_and!; try lia; apply cleared_refl. }
  specialize (IH (set_byte b p 0) (p + 1) (c - 8)). rewrite blen_set_byte in IH.
  do 4 (ospecialize (IH _); [dlia|]).
  destruct (bits_free_bytes _ _ _ _) as [[b' p'] c'].
  destruct IH as (Hcl & H1 & H2 & H3). split; [|lia].
  apply (cleared_trans _ (set_byte b p 0) _ _ (8 * p + 8)); [lia|apply cleared_byte; lia|].
  by replace (8 * p + 8) with (8 * (p + 1)) by lia.
Qed.

Lemma bits_free_tail_spec fuel : forall b p i c,
  0 <= p -> 0 <= i <= c -> 8 * p + c <= 8 * blen b -> c - i < Z.of_nat fuel ->
  cleared b (bits_free_tail fuel b p i c) (8 * p + i) (8 * p + c).
Proof.
  induction fuel as [|fuel IH]; intros b p i c Hp Hi Hb Hf; [lia|].
  cbn [bits_free_tail]. destruct (Z.ltb_spec i c) as [Hlt|Hge].
  2: { replace c with i by lia. apply cleared_refl. }
  apply (cleared_trans _ (ext4_bmap_bit_clr b (8 * p + i)) _ _ (8 * p + i + 1)); [lia|..].
  - apply cleared_bit. lia.
  - replace (8 * p + i + 1) with (8 * p + (i + 1)) by lia.
    apply IH; rewrite ?blen_bit_clr; lia.
Qed.

Lemma bits_free_cleared b sbit bcnt :
  0 <= sbit -> 0 <= bcnt -> sbit + bcnt <= 8 * blen b -> sbit + bcnt < 4294967296 ->
  cleared b (ext4_bmap_bits_free b sbit bcnt) sbit (sbit + bcnt).
Proof.
  intros Hs Hc Hb Hm. unfold ext4_bmap_bits_free.
  pose proof (bits_free_head_spec 8 b sbit bcnt Hs Hc Hb Hm ltac:(dlia)) as Hh.
  destruct (bits_free_head 8 b sbit bcnt) as [[[b1 i] c] ret].
  destruct Hh as (Hcl & H1 & H2 & H3 & H4). pose proof (proj1 Hcl) as Hl.
  destruct ret; cbn iota in H4; [by replace (sbit + bcnt) with i by lia|].
  rewrite shiftr3_div.
  pose proof (bits_free_bytes_spec (S (Z.to_nat (c / 8))) b1 (i / 8) c
    ltac:(dlia) ltac:(lia) ltac:(dlia) ltac:(dlia)) as Hb2.
  destruct (bits_free_bytes _ b1 (i / 8) c) as [[b2 p] c2].
  destruct Hb2 as (Hcl2 & H5 & H6 & H7). pose proof (proj1 Hcl2) as Hl2.
  apply (cleared_trans _ b1 _ _ i); [lia|done|].
  apply (cleared_trans _ b2 _ _ (8 * p)); [dlia| |].
  - by replace i with (8 * (i / 8)) at 1 by dlia.
  - replace (8 * p) with (8 * p + 0) at 1 by lia.
    replace (sbit + bcnt) with (8 * p + c2) by dlia.
    apply bits_free_tail_spec; dlia.
Qed.

(** ** Finding a clear bit *)

(** All bits of [lo, hi) are set. *)
Definition all_set (b : list Z) (lo hi : Z) : Prop :=
  forall j, lo <= j < hi -> bit_at b j = true.

Lemma all_set_nil b lo hi : hi <= lo -> all_set b lo hi.
Proof. intros H j Hj. lia. Qed.
Lemma all_set_app b lo mid hi : all_set b lo mid -> all_set b mid hi -> all_set b lo hi.
Proof. intros H1 H2 j Hj. destruct (Z.lt_ge_cases j mid); [apply H1|apply H2]; lia. Qed.
Lemma all_set_one b i : 0 <= i -> ext4_bmap_is_bit_clr b i = false -> all_set b i (i + 1).
Proof.
  intros Hi H j Hj. replace j with i by lia. rewrite is_bit_clr_bit_at in H by done.
  by apply negb_false_iff.
Qed.
Lemma all_set_ff b p : 0 <= p -> byte_at b p = 0xFF -> all_set b (8 * p) (8 * p + 8).
Proof.
  intros Hp H j Hj. unfold bit_at. replace (j / 8) with p by dlia. rewrite H.
  change 0xFF with (Z.ones 8). apply Z.ones_spec_low. dlia.
Qed.

(** What a search of [lo, hi) may answer. *)
Definition first_clear (b : list Z) (lo hi : Z) (r : result Z) : Prop :=
  match r with
  | Ok bit => lo <= bit < hi /\ bit_at b bit = false /\ all_set b lo bit
  | Err rc => rc = ENOSPC /\ all_set b lo hi
  end.

Lemma first_clear_skip b lo mid hi r :
  lo <= mid <= hi -> all_set b lo mid -> first_clear b mid hi r -> first_clear b lo hi r.
Proof.
  intros Hm Ha H. destruct r as [bit|rc]; simpl in *.
  - destruct H as (H1 & H2 & H3). split_and!; [lia|lia|done|eauto using all_set_app].
  - destruct H as [-> H]. eauto using all_set_app.
Qed.

Lemma find_clr_head_spec fuel : forall b i c,
  0 <= i -> 0 <= c -> i + c < 4294967296 -> (8 - i mod 8) mod 8 < Z.of_nat fuel ->
  match find_clr_head fuel b i c with
  | Found bit => first_clear b i (i + c) (Ok bit)
  | NoSpace => all_set b i (i + c)
  | GoOn (i', c') =>
      i <= i' /\ i' + c' = i + c /\ 0 <= c' /\ i' mod 8 = 0 /\ all_set b i i'
  end.
Proof.
  induction fuel as [|fuel IH]; intros b i c Hi Hc Hm Hf; [dlia|].
  cbn [find_clr_head]. rewrite land7_mod.
  destruct (Z.eqb_spec (i mod 8) 0) as [E|E].
  { split_and!; try lia. apply all_set_nil. lia. }
  destruct (Z.eqb_spec c 0) as [->|Hc0]; [apply all_set_nil; lia|].
  destruct (ext4_bmap_is_bit_clr b i) eqn:Hbit.
  { rewrite is_bit_clr_bit_at in Hbit by done. apply negb_true_iff in Hbit.
    split_and!; try lia; [done|]. apply all_set_nil. lia. }
  rewrite !u32_id by lia. pose proof (all_set_one _ _ Hi Hbit) as H1.
  specialize (IH b (i + 1) (c - 1)). do 4 (ospecialize (IH _); [dlia|]).
  replace (i + 1 + (c - 1)) with (i + c) in IH by lia.
  destruct (find_clr_head _ _ _ _) as [bit| |[i' c']].
  - by apply (first_clear_skip _ _ (i + 1)); [lia|..].
  - eauto using all_set_app.
  - destruct IH as (? & ? & ? & ? & ?). split_and!; try lia. eauto using all_set_app.
Qed.

Lemma find_clr_bits_spec n : forall b p i,
  0 <= p -> 0 <= i -> 8 * p + i + Z.of_nat n < 4294967296 ->
  match find_clr_bits n b p (8 * p) i with
  | Some bit => first_clear b (8 * p + i) (8 * p + i + Z.of_nat n) (Ok bit)
  | None => all_set b (8 * p + i) (8 * p + i + Z.of_nat n)
  end.
Proof.
  induction n as [|n IH]; intros b p i Hp Hi Hm; [apply all_set_nil; lia|].
  cbn [find_clr_bits]. destruct (ext4_bmap_is_bit_clr b (8 * p + i)) eqn:Hbit.
  { rewrite u32_id by lia. rewrite is_bit_clr_bit_at in Hbit by lia.
    apply negb_true_iff in Hbit. split_and!; try lia; [done|]. apply all_set_nil. lia. }
  apply all_set_one in Hbit; [|lia].
  specialize (IH b p (i + 1) Hp ltac:(lia) ltac:(lia)).
  replace (8 * p + (i + 1) + Z.of_nat n) with (8 * p + i + Z.of_nat (S n)) in IH by lia.
  replace (8 * p + (i + 1)) with (8 * p + i + 1) in IH by lia.
  destruct (find_clr_bits _ _ _ _ _) as [bit|].
  - by apply (first_clear_skip _ _ (8 * p + i + 1)); [lia|..].
  - eauto using all_set_app.
Qed.

Lemma find_clr_bytes_spec fuel : forall b p c,
  0 <= p -> 0 <= c -> 8 * p + c < 4294967296 -> c / 8 < Z.of_nat fuel ->
  match find_clr_bytes fuel b p (8 * p) c with
  | Found bit => first_clear b (8 * p) (8 * p + c) (Ok bit)
  | NoSpace => False
  | GoOn (p', s', c') =>
      s' = 8 * p' /\ p <= p' /\ 8 * p' + c' = 8 * p + c /\ 0 <= c' < 8 /\
      all_set b (8 * p) (8 * p')
  end.
Proof.
  induction fuel as [|fuel IH]; intros b p c Hp Hc Hm Hf; [dlia|].
  cbn [find_clr_bytes]. destruct (Z.leb_spec 8 c) as [H8|H8].
  2: { split_and!; try lia. apply all_set_nil. lia. }
  assert (Hbyte : match (if byte_at b p =? 0xFF then None
                         else find_clr_bits 8 b p (8 * p) 0) with
                  | Some bit => first_clear b (8 * p) (8 * p + 8) (Ok bit)
                  | None => all_set b (8 * p) (8 * p + 8)
                  end).
  { destruct (Z.eqb_spec (byte_at b p) 0xFF); [by apply all_set_ff|].
    pose proof (find_clr_bits_spec 8 b p 0 Hp ltac:(lia) ltac:(lia)) as H.
    by rewrite Z.add_0_r in H. }
  destruct (if byte_at b p =? 0xFF then _ else _) as [bit|].
  { destruct Hbyte as (? & ? & ?). split_and!; try lia; done. }
  specialize (IH b (p + 1) (c - 8)). do 4 (ospecialize (IH _); [dlia|]).
  replace (u32 (8 * p + 8)) with (8 * (p + 1)) by (rewrite u32_id; lia).
  replace (8 * (p + 1) + (c - 8)) with (8 * p + c) in IH by lia.
  replace (8 * p + 8) with (8 * (p + 1)) in Hbyte by lia.
  destruct (find_clr_bytes _ _ _ _ _) as [bit| |[[p' s'] c']]; [|done|].
  - by apply (first_clear_skip _ _ (8 * (p + 1))); [lia|..].
  - destruct IH as (? & ? & ? & ? & ?). split_and!; try lia; eauto using all_set_app.
Qed.

Lemma bit_find_clr_first b sbit ebit :
  0 <= sbit -> ebit < 4294967296 ->
  first_clear b sbit ebit (ext4_bmap_bit_find_clr b sbit ebit).
Proof.
  intros Hs He. unfold ext4_bmap_bit_find_clr. destruct (Z.leb_spec ebit sbit) as [Hle|Hlt].
  { split; [done|]. by apply all_set_nil. }
  rewrite u32_id by lia.
  pose proof (find_clr_head_spec 8 b sbit (ebit - sbit) Hs ltac:(lia) ltac:(lia)
    ltac:(dlia)) as Hh. replace (sbit + (ebit - sbit)) with ebit in Hh by lia.
  destruct (find_clr_head _ _ _ _) as [bit| |[i c]]; [done|by split|].
  destruct Hh as (H1 & H2 & H3 & H4 & H5). rewrite shiftr3_div.
  apply (first_clear_skip _ _ i); [lia|done|].
  pose proof (find_clr_bytes_spec (S (Z.to_nat (c / 8))) b (i / 8) c
    ltac:(dlia) H3 ltac:(dlia) ltac:(dlia)) as Hb.
  replace (8 * (i / 8)) with i in Hb by dlia. replace (i + c) with ebit in Hb by lia.
  destruct (find_clr_bytes _ _ _ _ _) as [bit| |[[p s'] c']]; [done|done|].
  destruct Hb as (-> & H6 & H7 & H8 & H9).
  apply (first_clear_skip _ _ (8 * p)); [dlia|done|].
  pose proof (find_clr_bits_spec (Z.to_nat c') b p 0 ltac:(dlia) ltac:(lia)
    ltac:(dlia)) as Hl. rewrite Z.add_0_r in Hl.
  replace (8 * p + Z.of_nat (Z.to_nat c')) with ebit in Hl by lia.
  destruct (find_clr_bits _ _ _ _ _) as [bit|]; [done|by split].
Qed.

(** ** Properties *)

(** Freeing a run of bits clears exactly that run.  For every range inside
    the bitmap, whatever its alignment, [ext4_bmap_bits_free] (a bit loop up to
    the next byte, a byte loop, a bit loop) keeps the length of the bitmap,
    clears every bit of [sbit, sbit + bcnt) and leaves every other bit as it
    was. *)
Theorem bits_free_exact (b : list Z) (sbit bcnt : Z)
    (Hs : 0 <= sbit) (Hc : 0 <= bcnt) (Hb : sbit + bcnt <= 8 * blen b) (Hm : sbit + bcnt < 2 ^ 32) :
  let b' := ext4_bmap_bits_free b sbit bcnt in
  blen b' = blen b /\
  forall j, 0 <= j ->
    ext4_bmap_is_bit_set b' j =
    if (sbit <=? j) && (j <? sbit + bcnt) then false else ext4_bmap_is_bit_set b j.
Proof.
  destruct (bits_free_cleared b sbit bcnt Hs Hc Hb Hm) as [Hl Hbits]. split; [done|].
  intros j Hj. rewrite !is_bit_set_bit_at, Hbits by done.
  case_match; [apply andb_false_r|apply andb_true_r].
Qed.

Lemma bits_free_exact_witness :
  let b := [0xFF; 0xFF; 0xFF; 0xFF] in
  map (ext4_bmap_is_bit_set (ext4_bmap_bits_free b 5 20)) [4; 5; 16; 24; 25] =
  [true; false; false; false; true].
Proof.
  cbv zeta. destruct (bits_free_exact [0xFF; 0xFF; 0xFF; 0xFF] 5 20) as [_ H];
    [lia|lia|vm_compute; discriminate|lia|].
  cbn [map]. rewrite !H by lia. vm_compute. reflexivity.
Defined.

(** The search for a free bit finds the first one.  For every range of a
    bitmap (the byte-skipping search included), [ext4_bmap_bit_find_clr] returns
    a clear bit of [sbit, ebit) with every bit of the range before it set, and
    returns ENOSPC only when every bit of the range is set. *)
Theorem bit_find_clr_is_first (b : list Z) (sbit ebit : Z) (Hs : 0 <= sbit) (He : ebit < 2 ^ 32) :
  match ext4_bmap_bit_find_clr b sbit ebit with
  | Ok bit => sbit <= bit < ebit /\ ext4_bmap_is_bit_clr b bit = true /\
              forall j, sbit <= j < bit -> ext4_bmap_is_bit_set b j = true
  | Err rc => rc = ENOSPC /\ forall j, sbit <= j < ebit -> ext4_bmap_is_bit_set b j = true
  end.
Proof.
  pose proof (bit_find_clr_first b sbit ebit Hs He) as H. unfold first_clear, all_set in H.
  destruct (ext4_bmap_bit_find_clr b sbit ebit) as [bit|rc].
  - destruct H as (H1 & H2 & H3). split_and!; [lia|lia|by rewrite is_bit_clr_bit_at, H2 by lia|].
    intros j Hj. rewrite is_bit_set_bit_at by lia. by apply H3.
  - destruct H as [H1 H2]. split; [done|]. intros j Hj. rewrite is_bit_set_bit_at by lia. by apply H2.
Qed.

Lemma bit_find_clr_is_first_witness :
  ext4_bmap_bit_find_clr [0xFF; 0xFF; 0xFB; 0] 3 32 = Ok 18 /\
  ext4_bmap_is_bit_set [0xFF; 0xFF; 0xFB; 0] 17 = true.
Proof.
  pose proof (bit_find_clr_is_first [0xFF; 0xFF; 0xFB; 0] 3 32 ltac:(lia) ltac:(lia)) as H.
  destruct (ext4_bmap_bit_find_clr [0xFF; 0xFF; 0xFB; 0] 3 32) as [bit|rc] eqn:E; [|vm_compute in E; discriminate].
  assert (Eb : bit = 18) by (vm_compute in E; congruence). subst bit.
  split; [reflexivity|]. apply H. lia.
Defined.
