(* ===== verification/Crc.v ===== *)
(** * Checksums

    Core/lwext4/src/ext4_crc32.c: CRC-32 and CRC-32C by table, the latter the
    metadata checksum of the volume; Core/lwext4/src/ext4_block_group.c: the
    CRC-16 of group descriptors on uninit_bg volumes. *)

From Stdlib Require Import Btauto.
From S2P Require Import Prelude Types.

(** The CRC-32 table (reflected polynomial 0xEDB88320). *)
Definition crc32_tab : list Z :=
  [0x00000000; 0x77073096; 0xEE0E612C; 0x990951BA; 0x076DC419; 0x706AF48F;
   0xE963A535; 0x9E6495A3; 0x0EDB8832; 0x79DCB8A4; 0xE0D5E91E; 0x97D2D988;
   0x09B64C2B; 0x7EB17CBD; 0xE7B82D07; 0x90BF1D91; 0x1DB71064; 0x6AB020F2;
   0xF3B97148; 0x84BE41DE; 0x1ADAD47D; 0x6DDDE4EB; 0xF4D4B551; 0x83D385C7;
   0x136C9856; 0x646BA8C0; 0xFD62F97A; 0x8A65C9EC; 0x14015C4F; 0x63066CD9;
   0xFA0F3D63; 0x8D080DF5; 0x3B6E20C8; 0x4C69105E; 0xD56041E4; 0xA2677172;
   0x3C03E4D1; 0x4B04D447; 0xD20D85FD; 0xA50AB56B; 0x35B5A8FA; 0x42B2986C;
   0xDBBBC9D6; 0xACBCF940; 0x32D86CE3; 0x45DF5C75; 0xDCD60DCF; 0xABD13D59;
   0x26D930AC; 0x51DE003A; 0xC8D75180; 0xBFD06116; 0x21B4F4B5; 0x56B3C423;
   0xCFBA9599; 0xB8BDA50F; 0x2802B89E; 0x5F058808; 0xC60CD9B2; 0xB10BE924;
   0x2F6F7C87; 0x58684C11; 0xC1611DAB; 0xB6662D3D; 0x76DC4190; 0x01DB7106;
   0x98D220BC; 0xEFD5102A; 0x71B18589; 0x06B6B51F; 0x9FBFE4A5; 0xE8B8D433;
   0x7807C9A2; 0x0F00F934; 0x9609A88E; 0xE10E9818; 0x7F6A0DBB; 0x086D3D2D;
   0x91646C97; 0xE6635C01; 0x6B6B51F4; 0x1C6C6162; 0x856530D8; 0xF262004E;
   0x6C0695ED; 0x1B01A57B; 0x8208F4C1; 0xF50FC457; 0x65B0D9C6; 0x12B7E950;
   0x8BBEB8EA; 0xFCB9887C; 0x62DD1DDF; 0x15DA2D49; 0x8CD37CF3; 0xFBD44C65;
   0x4DB26158; 0x3AB551CE; 0xA3BC0074; 0xD4BB30E2; 0x4ADFA541; 0x3DD895D7;
   0xA4D1C46D; 0xD3D6F4FB; 0x4369E96A; 0x346ED9FC; 0xAD678846; 0xDA60B8D0;
   0x44042D73; 0x33031DE5; 0xAA0A4C5F; 0xDD0D7CC9; 0x5005713C; 0x270241AA;
   0xBE0B1010; 0xC90C2086; 0x5768B525; 0x206F85B3; 0xB966D409; 0xCE61E49F;
   0x5EDEF90E; 0x29D9C998; 0xB0D09822; 0xC7D7A8B4; 0x59B33D17; 0x2EB40D81;
   0xB7BD5C3B; 0xC0BA6CAD; 0xEDB88320; 0x9ABFB3B6; 0x03B6E20C; 0x74B1D29A;
   0xEAD54739; 0x9DD277AF; 0x04DB2615; 0x73DC1683; 0xE3630B12; 0x94643B84;
   0x0D6D6A3E; 0x7A6A5AA8; 0xE40ECF0B; 0x9309FF9D; 0x0A00AE27; 0x7D079EB1;
   0xF00F9344; 0x8708A3D2; 0x1E01F268; 0x6906C2FE; 0xF762575D; 0x806567CB;
   0x196C3671; 0x6E6B06E7; 0xFED41B76; 0x89D32BE0; 0x10DA7A5A; 0x67DD4ACC;
   0xF9B9DF6F; 0x8EBEEFF9; 0x17B7BE43; 0x60B08ED5; 0xD6D6A3E8; 0xA1D1937E;
   0x38D8C2C4; 0x4FDFF252; 0xD1BB67F1; 0xA6BC5767; 0x3FB506DD; 0x48B2364B;
   0xD80D2BDA; 0xAF0A1B4C; 0x36034AF6; 0x41047A60; 0xDF60EFC3; 0xA867DF55;
   0x316E8EEF; 0x4669BE79; 0xCB61B38C; 0xBC66831A; 0x256FD2A0; 0x5268E236;
   0xCC0C7795; 0xBB0B4703; 0x220216B9; 0x5505262F; 0xC5BA3BBE; 0xB2BD0B28;
   0x2BB45A92; 0x5CB36A04; 0xC2D7FFA7; 0xB5D0CF31; 0x2CD99E8B; 0x5BDEAE1D;
   0x9B64C2B0; 0xEC63F226; 0x756AA39C; 0x026D930A; 0x9C0906A9; 0xEB0E363F;
   0x72076785; 0x05005713; 0x95BF4A82; 0xE2B87A14; 0x7BB12BAE; 0x0CB61B38;
   0x92D28E9B; 0xE5D5BE0D; 0x7CDCEFB7; 0x0BDBDF21; 0x86D3D2D4; 0xF1D4E242;
   0x68DDB3F8; 0x1FDA836E; 0x81BE16CD; 0xF6B9265B; 0x6FB077E1; 0x18B74777;
   0x88085AE6; 0xFF0F6A70; 0x66063BCA; 0x11010B5C; 0x8F659EFF; 0xF862AE69;
   0x616BFFD3; 0x166CCF45; 0xA00AE278; 0xD70DD2EE; 0x4E048354; 0x3903B3C2;
   0xA7672661; 0xD06016F7; 0x4969474D; 0x3E6E77DB; 0xAED16A4A; 0xD9D65ADC;
   0x40DF0B66; 0x37D83BF0; 0xA9BCAE53; 0xDEBB9EC5; 0x47B2CF7F; 0x30B5FFE9;
   0xBDBDF21C; 0xCABAC28A; 0x53B39330; 0x24B4A3A6; 0xBAD03605; 0xCDD70693;
   0x54DE5729; 0x23D967BF; 0xB3667A2E; 0xC4614AB8; 0x5D681B02; 0x2A6F2B94;
   0xB40BBE37; 0xC30C8EA1; 0x5A05DF1B; 0x2D02EF8D].

(** The CRC-32C table (reflected polynomial 0x82F63B78). *)
Definition crc32c_tab : list Z :=
  [0x00000000; 0xF26B8303; 0xE13B70F7; 0x1350F3F4; 0xC79A971F; 0x35F1141C;
   0x26A1E7E8; 0xD4CA64EB; 0x8AD958CF; 0x78B2DBCC; 0x6BE22838; 0x9989AB3B;
   0x4D43CFD0; 0xBF284CD3; 0xAC78BF27; 0x5E133C24; 0x105EC76F; 0xE235446C;
   0xF165B798; 0x030E349B; 0xD7C45070; 0x25AFD373; 0x36FF2087; 0xC494A384;
   0x9A879FA0; 0x68EC1CA3; 0x7BBCEF57; 0x89D76C54; 0x5D1D08BF; 0xAF768BBC;
   0xBC267848; 0x4E4DFB4B; 0x20BD8EDE; 0xD2D60DDD; 0xC186FE29; 0x33ED7D2A;
   0xE72719C1; 0x154C9AC2; 0x061C6936; 0xF477EA35; 0xAA64D611; 0x580F5512;
   0x4B5FA6E6; 0xB93425E5; 0x6DFE410E; 0x9F95C20D; 0x8CC531F9; 0x7EAEB2FA;
   0x30E349B1; 0xC288CAB2; 0xD1D83946; 0x23B3BA45; 0xF779DEAE; 0x05125DAD;
   0x1642AE59; 0xE4292D5A; 0xBA3A117E; 0x4851927D; 0x5B016189; 0xA96AE28A;
   0x7DA08661; 0x8FCB0562; 0x9C9BF696; 0x6EF07595; 0x417B1DBC; 0xB3109EBF;
   0xA0406D4B; 0x522BEE48; 0x86E18AA3; 0x748A09A0; 0x67DAFA54; 0x95B17957;
   0xCBA24573; 0x39C9C670; 0x2A993584; 0xD8F2B687; 0x0C38D26C; 0xFE53516F;
   0xED03A29B; 0x1F682198; 0x5125DAD3; 0xA34E59D0; 0xB01EAA24; 0x42752927;
   0x96BF4DCC; 0x64D4CECF; 0x77843D3B; 0x85EFBE38; 0xDBFC821C; 0x2997011F;
   0x3AC7F2EB; 0xC8AC71E8; 0x1C661503; 0xEE0D9600; 0xFD5D65F4; 0x0F36E6F7;
   0x61C69362; 0x93AD1061; 0x80FDE395; 0x72966096; 0xA65C047D; 0x5437877E;
   0x4767748A; 0xB50CF789; 0xEB1FCBAD; 0x197448AE; 0x0A24BB5A; 0xF84F3859;
   0x2C855CB2; 0xDEEEDFB1; 0xCDBE2C45; 0x3FD5AF46; 0x7198540D; 0x83F3D70E;
   0x90A324FA; 0x62C8A7F9; 0xB602C312; 0x44694011; 0x5739B3E5; 0xA55230E6;
   0xFB410CC2; 0x092A8FC1; 0x1A7A7C35; 0xE811FF36; 0x3CDB9BDD; 0xCEB018DE;
   0xDDE0EB2A; 0x2F8B6829; 0x82F63B78; 0x709DB87B; 0x63CD4B8F; 0x91A6C88C;
   0x456CAC67; 0xB7072F64; 0xA457DC90; 0x563C5F93; 0x082F63B7; 0xFA44E0B4;
   0xE9141340; 0x1B7F9043; 0xCFB5F4A8; 0x3DDE77AB; 0x2E8E845F; 0xDCE5075C;
   0x92A8FC17; 0x60C37F14; 0x73938CE0; 0x81F80FE3; 0x55326B08; 0xA759E80B;
   0xB4091BFF; 0x466298FC; 0x1871A4D8; 0xEA1A27DB; 0xF94AD42F; 0x0B21572C;
   0xDFEB33C7; 0x2D80B0C4; 0x3ED04330; 0xCCBBC033; 0xA24BB5A6; 0x502036A5;
   0x4370C551; 0xB11B4652; 0x65D122B9; 0x97BAA1BA; 0x84EA524E; 0x7681D14D;
   0x2892ED69; 0xDAF96E6A; 0xC9A99D9E; 0x3BC21E9D; 0xEF087A76; 0x1D63F975;
   0x0E330A81; 0xFC588982; 0xB21572C9; 0x407EF1CA; 0x532E023E; 0xA145813D;
   0x758FE5D6; 0x87E466D5; 0x94B49521; 0x66DF1622; 0x38CC2A06; 0xCAA7A905;
   0xD9F75AF1; 0x2B9CD9F2; 0xFF56BD19; 0x0D3D3E1A; 0x1E6DCDEE; 0xEC064EED;
   0xC38D26C4; 0x31E6A5C7; 0x22B65633; 0xD0DDD530; 0x0417B1DB; 0xF67C32D8;
   0xE52CC12C; 0x1747422F; 0x49547E0B; 0xBB3FFD08; 0xA86F0EFC; 0x5A048DFF;
   0x8ECEE914; 0x7CA56A17; 0x6FF599E3; 0x9D9E1AE0; 0xD3D3E1AB; 0x21B862A8;
   0x32E8915C; 0xC083125F; 0x144976B4; 0xE622F5B7; 0xF5720643; 0x07198540;
   0x590AB964; 0xAB613A67; 0xB831C993; 0x4A5A4A90; 0x9E902E7B; 0x6CFBAD78;
   0x7FAB5E8C; 0x8DC0DD8F; 0xE330A81A; 0x115B2B19; 0x020BD8ED; 0xF0605BEE;
   0x24AA3F05; 0xD6C1BC06; 0xC5914FF2; 0x37FACCF1; 0x69E9F0D5; 0x9B8273D6;
   0x88D28022; 0x7AB90321; 0xAE7367CA; 0x5C18E4C9; 0x4F48173D; 0xBD23943E;
   0xF36E6F75; 0x0105EC76; 0x12551F82; 0xE03E9C81; 0x34F4F86A; 0xC69F7B69;
   0xD5CF889D; 0x27A40B9E; 0x79B737BA; 0x8BDCB4B9; 0x988C474D; 0x6AE7C44E;
   0xBE2DA0A5; 0x4C4623A6; 0x5F16D052; 0xAD7D5351].

(** The CRC-16 table (reflected polynomial 0xA001). *)
Definition crc16_tab : list Z :=
  [0x0000; 0xC0C1; 0xC181; 0x0140; 0xC301; 0x03C0; 0x0280; 0xC241;
   0xC601; 0x06C0; 0x0780; 0xC741; 0x0500; 0xC5C1; 0xC481; 0x0440;
   0xCC01; 0x0CC0; 0x0D80; 0xCD41; 0x0F00; 0xCFC1; 0xCE81; 0x0E40;
   0x0A00; 0xCAC1; 0xCB81; 0x0B40; 0xC901; 0x09C0; 0x0880; 0xC841;
   0xD801; 0x18C0; 0x1980; 0xD941; 0x1B00; 0xDBC1; 0xDA81; 0x1A40;
   0x1E00; 0xDEC1; 0xDF81; 0x1F40; 0xDD01; 0x1DC0; 0x1C80; 0xDC41;
   0x1400; 0xD4C1; 0xD581; 0x1540; 0xD701; 0x17C0; 0x1680; 0xD641;
   0xD201; 0x12C0; 0x1380; 0xD341; 0x1100; 0xD1C1; 0xD081; 0x1040;
   0xF001; 0x30C0; 0x3180; 0xF141; 0x3300; 0xF3C1; 0xF281; 0x3240;
   0x3600; 0xF6C1; 0xF781; 0x3740; 0xF501; 0x35C0; 0x3480; 0xF441;
   0x3C00; 0xFCC1; 0xFD81; 0x3D40; 0xFF01; 0x3FC0; 0x3E80; 0xFE41;
   0xFA01; 0x3AC0; 0x3B80; 0xFB41; 0x3900; 0xF9C1; 0xF881; 0x3840;
   0x2800; 0xE8C1; 0xE981; 0x2940; 0xEB01; 0x2BC0; 0x2A80; 0xEA41;
   0xEE01; 0x2EC0; 0x2F80; 0xEF41; 0x2D00; 0xEDC1; 0xEC81; 0x2C40;
   0xE401; 0x24C0; 0x2580; 0xE541; 0x2700; 0xE7C1; 0xE681; 0x2640;
   0x2200; 0xE2C1; 0xE381; 0x2340; 0xE101; 0x21C0; 0x2080; 0xE041;
   0xA001; 0x60C0; 0x6180; 0xA141; 0x6300; 0xA3C1; 0xA281; 0x6240;
   0x6600; 0xA6C1; 0xA781; 0x6740; 0xA501; 0x65C0; 0x6480; 0xA441;
   0x6C00; 0xACC1; 0xAD81; 0x6D40; 0xAF01; 0x6FC0; 0x6E80; 0xAE41;
   0xAA01; 0x6AC0; 0x6B80; 0xAB41; 0x6900; 0xA9C1; 0xA881; 0x6840;
   0x7800; 0xB8C1; 0xB981; 0x7940; 0xBB01; 0x7BC0; 0x7A80; 0xBA41;
   0xBE01; 0x7EC0; 0x7F80; 0xBF41; 0x7D00; 0xBDC1; 0xBC81; 0x7C40;
   0xB401; 0x74C0; 0x7580; 0xB541; 0x7700; 0xB7C1; 0xB681; 0x7640;
   0x7200; 0xB2C1; 0xB381; 0x7340; 0xB101; 0x71C0; 0x7080; 0xB041;
   0x5000; 0x90C1; 0x9181; 0x5140; 0x9301; 0x53C0; 0x5280; 0x9241;
   0x9601; 0x56C0; 0x5780; 0x9741; 0x5500; 0x95C1; 0x9481; 0x5440;
   0x9C01; 0x5CC0; 0x5D80; 0x9D41; 0x5F00; 0x9FC1; 0x9E81; 0x5E40;
   0x5A00; 0x9AC1; 0x9B81; 0x5B40; 0x9901; 0x59C0; 0x5880; 0x9841;
   0x8801; 0x48C0; 0x4980; 0x8941; 0x4B00; 0x8BC1; 0x8A81; 0x4A40;
   0x4E00; 0x8EC1; 0x8F81; 0x4F40; 0x8D01; 0x4DC0; 0x4C80; 0x8C41;
   0x4400; 0x84C1; 0x8581; 0x4540; 0x8701; 0x47C0; 0x4680; 0x8641;
   0x8201; 0x42C0; 0x4380; 0x8341; 0x4100; 0x81C1; 0x8081; 0x4040].

Definition tab_at (tab : list Z) (i : Z) : Z := nth (Z.to_nat i) tab 0.

(** One step of [crc32]: [crc = tab[(crc ^ *p++) & 0xFF] ^ (crc >> 8)]. *)
Definition crc32_step (tab : list Z) (crc b : Z) : Z :=
  Z.lxor (tab_at tab (Z.land (Z.lxor crc (u8 b)) 0xFF)) (Z.shiftr crc 8).

(** [crc32(crc, buf, size, tab)] over the bytes [buf]. *)
Definition crc32 (tab : list Z) (crc : Z) (buf : list Z) : Z :=
  fold_left (crc32_step tab) buf crc.
Definition ext4_crc32 (crc : Z) (buf : list Z) : Z := crc32 crc32_tab (u32 crc) buf.
Definition ext4_crc32c (crc : Z) (buf : list Z) : Z := crc32 crc32c_tab (u32 crc) buf.

Definition crc16_step (crc b : Z) : Z :=
  Z.land (Z.lxor (Z.land (Z.shiftr crc 8) 0xFF)
                 (tab_at crc16_tab (Z.land (Z.lxor crc (u8 b)) 0xFF)))
         0x0000FFFF.
Definition ext4_bg_crc16 (crc : Z) (buffer : list Z) : Z :=
  fold_left crc16_step buffer (u16 crc).

Example crc32_check : (* "123456789" *)
  Z.lxor (ext4_crc32 0xFFFFFFFF [49;50;51;52;53;54;55;56;57]) 0xFFFFFFFF = 0xCBF43926.
Proof. reflexivity. Qed.
Example crc32c_check :
  Z.lxor (ext4_crc32c 0xFFFFFFFF [49;50;51;52;53;54;55;56;57]) 0xFFFFFFFF = 0xE3069283.
Proof. reflexivity. Qed.
Example crc16_check : ext4_bg_crc16 0xFFFF [49;50;51;52;53;54;55;56;57] = 0x4B37.
Proof. reflexivity. Qed.

(** ** The bit-serial reference

    A reflected CRC of width [n] shifts one bit out at a time and adds the
    polynomial when the bit was 1. *)

Definition bit_step (poly r : Z) : Z :=
  if Z.testbit r 0 then Z.lxor (Z.shiftr r 1) poly else Z.shiftr r 1.
Definition byte_step (poly r b : Z) : Z :=
  Nat.iter 8 (bit_step poly) (Z.lxor r (u8 b)).
Definition crc_ref (poly crc : Z) (buf : list Z) : Z :=
  fold_left (byte_step poly) buf crc.

Definition CRC32_POLY := 0xEDB88320.
Definition CRC32C_POLY := 0x82F63B78.
Definition CRC16_POLY := 0xA001.

Lemma testbit_u8_high b m : 8 <= m -> Z.testbit (u8 b) m = false.
Proof. intros. unfold u8. change 256 with (2 ^ 8). apply Z.mod_pow2_bits_high. lia. Qed.

Lemma bit_step_lxor poly a b :
  bit_step poly (Z.lxor a b) = Z.lxor (bit_step poly a) (bit_step poly b).
Proof.
  unfold bit_step. rewrite Z.lxor_spec, Z.shiftr_lxor.
  destruct (Z.testbit a 0), (Z.testbit b 0); cbn [xorb];
    apply Z.bits_inj'; intros m _; rewrite !Z.lxor_spec; btauto.
Qed.

Lemma iter_bit_step_lxor poly k a b :
  Nat.iter k (bit_step poly) (Z.lxor a b) =
  Z.lxor (Nat.iter k (bit_step poly) a) (Nat.iter k (bit_step poly) b).
Proof. induction k as [|k IH]; [done|]. simpl. by rewrite IH, bit_step_lxor. Qed.

(** A value whose [k] low bits are 0 is only shifted. *)
Lemma iter_bit_step_high poly k : forall x,
  (forall m, 0 <= m < Z.of_nat k -> Z.testbit x m = false) ->
  Nat.iter k (bit_step poly) x = Z.shiftr x (Z.of_nat k).
Proof.
  induction k as [|k IH]; intros x Hx; [by rewrite Z.shiftr_0_r|].
  rewrite Nat.iter_succ_r. unfold bit_step at 2. rewrite Hx by lia.
  rewrite IH.
  - rewrite Z.shiftr_shiftr by lia. f_equal. lia.
  - intros m Hm. rewrite Z.shiftr_spec by lia. apply Hx. lia.
Qed.

Section Width.
Context (n poly : Z) (Hn : 8 <= n) (Hp : 0 <= poly < 2 ^ n).
Context (Htop : Z.testbit poly (n - 1) = true).
Context (tab : list Z).
Context (Htab : Forall (fun i => tab_at tab i = Nat.iter 8 (bit_step poly) i) (seqZ 0 256)).

Lemma tab_at_ref i : 0 <= i < 256 -> tab_at tab i = Nat.iter 8 (bit_step poly) i.
Proof.
  intros Hi. rewrite Forall_forall in Htab. apply Htab.
  apply elem_of_seqZ. lia.
Qed.

(** The table look-up and the shift are eight steps of the reference. *)
Lemma table_step crc b :
  Z.lxor (tab_at tab (Z.land (Z.lxor crc (u8 b)) 0xFF)) (Z.shiftr crc 8) =
  byte_step poly crc b.
Proof.
  unfold byte_step. set (x := Z.lxor crc (u8 b)).
  assert (Hsplit : x = Z.lxor (Z.land x 0xFF) (Z.ldiff x 0xFF)).
  { apply Z.bits_inj'. intros m Hm. rewrite Z.lxor_spec, Z.land_spec, Z.ldiff_spec.
    btauto. }
  rewrite Hsplit at 2. rewrite iter_bit_step_lxor. f_equal.
  - apply tab_at_ref. change 0xFF with (Z.ones 8). rewrite Z.land_ones by lia.
    apply Z.mod_pos_bound. lia.
  - rewrite iter_bit_step_high.
    + apply Z.bits_inj'. intros m Hm. rewrite !Z.shiftr_spec by lia.
      unfold x. rewrite Z.ldiff_spec, Z.lxor_spec, testbit_u8_high, xorb_false_r by lia.
      change 0xFF with (Z.ones 8). rewrite Z.ones_spec_high by lia. by rewrite andb_true_r.
    + intros m Hm. rewrite Z.ldiff_spec. change 0xFF with (Z.ones 8).
      rewrite Z.ones_spec_low by lia. apply andb_false_r.
Qed.

Lemma bit_step_range r : 0 <= r < 2 ^ n -> 0 <= bit_step poly r < 2 ^ n.
Proof.
  intros Hr. unfold bit_step.
  destruct (Z.testbit r 0); [apply lxor_range; [lia| |done]|]; apply shiftr_range; lia.
Qed.

(** The top bit tells whether the polynomial was added: the step loses nothing. *)
Lemma bit_step_inj r r' :
  0 <= r < 2 ^ n -> 0 <= r' < 2 ^ n -> bit_step poly r = bit_step poly r' -> r = r'.
Proof.
  intros Hr Hr' E.
  assert (Hbit : forall x, 0 <= x < 2 ^ n -> Z.testbit (bit_step poly x) (n - 1) = Z.testbit x 0).
  { intros x Hx. unfold bit_step.
    assert (Hs : Z.testbit (Z.shiftr x 1) (n - 1) = false).
    { rewrite Z.shiftr_spec by lia. apply (testbit_above n); lia. }
    destruct (Z.testbit x 0); [|done]. by rewrite Z.lxor_spec, Hs, Htop. }
  pose proof (Hbit r Hr) as H0. rewrite E, (Hbit r' Hr') in H0.
  assert (Hsh : Z.shiftr r 1 = Z.shiftr r' 1).
  { unfold bit_step in E. rewrite H0 in E. destruct (Z.testbit r 0); [|done].
    apply (f_equal (fun z => Z.lxor z poly)) in E.
    by rewrite !Z.lxor_assoc, Z.lxor_nilpotent, !Z.lxor_0_r in E. }
  apply Z.bits_inj'. intros m Hm. destruct (Z.eq_dec m 0) as [->|Hm0]; [done|].
  apply (f_equal (fun z => Z.testbit z (m - 1))) in Hsh.
  rewrite !Z.shiftr_spec in Hsh by lia. by replace (m - 1 + 1) with m in Hsh by lia.
Qed.

Lemma iter_bit_step_range k r : 0 <= r < 2 ^ n -> 0 <= Nat.iter k (bit_step poly) r < 2 ^ n.
Proof. induction k as [|k IH]; intros Hr; [done|]. simpl. auto using bit_step_range. Qed.
Lemma iter_bit_step_inj k r r' :
  0 <= r < 2 ^ n -> 0 <= r' < 2 ^ n ->
  Nat.iter k (bit_step poly) r = Nat.iter k (bit_step poly) r' -> r = r'.
Proof.
  induction k as [|k IH]; intros Hr Hr' E; [done|]. simpl in E.
  apply bit_step_inj in E; auto using iter_bit_step_range.
Qed.

Lemma u8_range_n b : 0 <= u8 b < 2 ^ n.
Proof. pose proof (u8_range b). assert (2 ^ 8 <= 2 ^ n) by (apply Z.pow_le_mono_r; lia). lia. Qed.

Lemma byte_step_range r b : 0 <= r < 2 ^ n -> 0 <= byte_step poly r b < 2 ^ n.
Proof. intros. apply iter_bit_step_range, lxor_range; auto using u8_range_n; lia. Qed.
Lemma byte_step_inj_state r r' b :
  0 <= r < 2 ^ n -> 0 <= r' < 2 ^ n -> byte_step poly r b = byte_step poly r' b -> r = r'.
Proof.
  intros Hr Hr' E. apply iter_bit_step_inj in E;
    [|apply lxor_range; auto using u8_range_n; lia..].
  apply (f_equal (fun z => Z.lxor z (u8 b))) in E.
  by rewrite !Z.lxor_assoc, Z.lxor_nilpotent, !Z.lxor_0_r in E.
Qed.
Lemma byte_step_inj_byte r b b' :
  0 <= r < 2 ^ n -> byte_step poly r b = byte_step poly r b' -> u8 b = u8 b'.
Proof.
  intros Hr E. apply iter_bit_step_inj in E;
    [|apply lxor_range; auto using u8_range_n; lia..].
  apply (f_equal (fun z => Z.lxor r z)) in E.
  by rewrite <- !Z.lxor_assoc, Z.lxor_nilpotent, !Z.lxor_0_l in E.
Qed.

Lemma crc_ref_range buf : forall r, 0 <= r < 2 ^ n -> 0 <= crc_ref poly r buf < 2 ^ n.
Proof. induction buf as [|b buf IH]; intros r Hr; [done|]. apply IH, byte_step_range, Hr. Qed.
Lemma crc_ref_inj_state buf : forall r r',
  0 <= r < 2 ^ n -> 0 <= r' < 2 ^ n -> crc_ref poly r buf = crc_ref poly r' buf -> r = r'.
Proof.
  induction buf as [|b buf IH]; intros r r' Hr Hr' E; [done|]. simpl in E.
  apply IH in E; auto using byte_step_range. by apply byte_step_inj_state in E.
Qed.
(** Changing one byte changes the CRC. *)
Lemma crc_ref_one_byte pre post b b' r :
  0 <= r < 2 ^ n ->
  crc_ref poly r (pre ++ b :: post) = crc_ref poly r (pre ++ b' :: post) -> u8 b = u8 b'.
Proof.
  intros Hr E. unfold crc_ref in E. rewrite !fold_left_app in E. cbn [fold_left] in E.
  pose proof (crc_ref_range pre r Hr) as Hpre. unfold crc_ref in Hpre.
  apply crc_ref_inj_state in E; [|by apply byte_step_range..].
  by apply byte_step_inj_byte in E.
Qed.
End Width.

Lemma crc32_tab_ref :
  Forall (fun i => tab_at crc32_tab i = Nat.iter 8 (bit_step CRC32_POLY) i) (seqZ 0 256).
Proof. apply (bool_decide_unpack _). vm_compute. exact I. Qed.
Lemma crc32c_tab_ref :
  Forall (fun i => tab_at crc32c_tab i = Nat.iter 8 (bit_step CRC32C_POLY) i) (seqZ 0 256).
Proof. apply (bool_decide_unpack _). vm_compute. exact I. Qed.
Lemma crc16_tab_ref :
  Forall (fun i => tab_at crc16_tab i = Nat.iter 8 (bit_step CRC16_POLY) i) (seqZ 0 256).
Proof. apply (bool_decide_unpack _). vm_compute. exact I. Qed.

Lemma ext4_crc32_ref crc buf : ext4_crc32 crc buf = crc_ref CRC32_POLY (u32 crc) buf.
Proof.
  unfold ext4_crc32, crc32, crc_ref. generalize (u32 crc). induction buf as [|b buf IH]; intros c; [done|].
  cbn [fold_left]. rewrite IH. f_equal.
  apply (table_step 32), crc32_tab_ref.
Qed.
Lemma ext4_crc32c_ref crc buf : ext4_crc32c crc buf = crc_ref CRC32C_POLY (u32 crc) buf.
Proof.
  unfold ext4_crc32c, crc32, crc_ref. generalize (u32 crc). induction buf as [|b buf IH]; intros c; [done|].
  cbn [fold_left]. rewrite IH. f_equal.
  apply (table_step 32), crc32c_tab_ref.
Qed.
Lemma ext4_crc32c_range crc buf : 0 <= ext4_crc32c crc buf < 4294967296.
Proof.
  rewrite ext4_crc32c_ref. apply (crc_ref_range 32); [lia|unfold CRC32C_POLY; lia|].
  apply u32_range.
Qed.

Lemma crc16_step_ref crc b :
  0 <= crc < 2 ^ 16 -> crc16_step crc b = byte_step CRC16_POLY crc b.
Proof.
  intros Hc. unfold crc16_step.
  assert (Hs : Z.land (Z.shiftr crc 8) 0xFF = Z.shiftr crc 8).
  { change 0xFF with (Z.ones 8). rewrite Z.land_ones, Z.shiftr_div_pow2 by lia.
    apply Z.mod_small. change (2 ^ 8) with 256. dlia. }
  rewrite Hs, Z.lxor_comm, (table_step 16 _ _ crc16_tab_ref).
  change 0x0000FFFF with (Z.ones 16). rewrite Z.land_ones by lia. apply Z.mod_small.
  apply (byte_step_range 16); [lia|unfold CRC16_POLY; lia|done].
Qed.
Lemma ext4_bg_crc16_ref crc buf : ext4_bg_crc16 crc buf = crc_ref CRC16_POLY (u16 crc) buf.
Proof.
  unfold ext4_bg_crc16, crc_ref. pose proof (u16_range crc) as Hr. revert Hr.
  generalize (u16 crc). induction buf as [|b buf IH]; intros c Hr; [done|].
  cbn [fold_left]. rewrite crc16_step_ref by done. apply IH.
  apply (byte_step_range 16); [lia|unfold CRC16_POLY; lia|done].
Qed.
Lemma ext4_bg_crc16_range crc buf : 0 <= ext4_bg_crc16 crc buf < 65536.
Proof.
  rewrite ext4_bg_crc16_ref. apply (crc_ref_range 16); [lia|unfold CRC16_POLY; lia|].
  apply u16_range.
Qed.
Lemma ext4_crc32c_app crc a b : ext4_crc32c crc (a ++ b) = ext4_crc32c (ext4_crc32c crc a) b.
Proof.
  pose proof (ext4_crc32c_range crc a). unfold ext4_crc32c, crc32 in *.
  rewrite fold_left_app. f_equal. symmetry. by apply u32_id.
Qed.

(** ** Properties *)

(** C35: the three table-driven checksums of the driver ([ext4_crc32],
    [ext4_crc32c] and [ext4_bg_crc16]) compute, on every buffer and from every
    starting value, the bit-serial reflected CRC of their polynomial: the 768
    constants of the tables and the byte loops are right. *)
Theorem crc_tables_implement_reference (crc : Z) (buf : list Z) :
  ext4_crc32 crc buf = crc_ref CRC32_POLY (u32 crc) buf /\
  ext4_crc32c crc buf = crc_ref CRC32C_POLY (u32 crc) buf /\
  ext4_bg_crc16 crc buf = crc_ref CRC16_POLY (u16 crc) buf.
Proof. by rewrite ext4_crc32_ref, ext4_crc32c_ref, ext4_bg_crc16_ref. Qed.

(** C36: the metadata checksum detects every corruption of a single byte: two
    buffers that differ in one byte only never have the same [ext4_crc32c], and
    never the same [ext4_bg_crc16], whatever the seed and whatever surrounds the
    byte. *)
Theorem crc_detects_one_byte (crc : Z) (pre post : list Z) (x y : Z)
    (Hx : 0 <= x < 256) (Hy : 0 <= y < 256) (Hxy : x <> y) :
  ext4_crc32c crc (pre ++ x :: post) <> ext4_crc32c crc (pre ++ y :: post) /\
  ext4_bg_crc16 crc (pre ++ x :: post) <> ext4_bg_crc16 crc (pre ++ y :: post).
Proof.
  rewrite !ext4_crc32c_ref, !ext4_bg_crc16_ref. split; intros E.
  - apply (crc_ref_one_byte 32) in E; [|lia|unfold CRC32C_POLY; lia|done|apply u32_range].
    rewrite !u8_id in E by done. done.
  - apply (crc_ref_one_byte 16) in E; [|lia|unfold CRC16_POLY; lia|done|apply u16_range].
    rewrite !u8_id in E by done. done.
Qed.

Lemma crc_detects_one_byte_witness :
  ext4_crc32c 0 [1; 2; 3] <> ext4_crc32c 0 [1; 7; 3] /\
  ext4_bg_crc16 0 [1; 2; 3] <> ext4_bg_crc16 0 [1; 7; 3].
Proof. apply (crc_detects_one_byte 0 [1] [3] 2 7); lia. Defined.
