(* ===== verification/Hash.v ===== *)
(** * Directory index hashes

    Core/lwext4/src/ext4_hash.c: the half-MD4, TEA and legacy hashes of file
    names and [ext2_htree_hash], which chooses between them.  A name is a buffer
    read through [byte_at]; the [uint32_t] values of the C code are [Z] with the
    wrap-around of every addition and shift written out. *)

From S2P Require Import Prelude Types.

Local Infix "+w" := (fun a b => u32 (a + b)) (at level 50, left associativity).
Local Infix "<<w" := (fun a n => u32 (Z.shiftl a n)) (at level 35, no associativity).

Definition md4_F (x y z : Z) : Z := Z.lor (Z.land x y) (Z.land (u32 (Z.lnot x)) z).
Definition md4_G (x y z : Z) : Z :=
  Z.lor (Z.lor (Z.land x y) (Z.land x z)) (Z.land y z).
Definition md4_H (x y z : Z) : Z := Z.lxor (Z.lxor x y) z.

Definition ROTATE_LEFT (x n : Z) : Z := Z.lor (x <<w n) (Z.shiftr x (32 - n)).

Definition FF (a b c d x s : Z) : Z := ROTATE_LEFT (a +w (md4_F b c d +w x)) s.
Definition GG (a b c d x s : Z) : Z :=
  ROTATE_LEFT (a +w ((md4_G b c d +w x) +w 0x5A827999)) s.
Definition HH (a b c d x s : Z) : Z :=
  ROTATE_LEFT (a +w ((md4_H b c d +w x) +w 0x6ED9EBA1)) s.

(** The four words [uint32_t hash[4]]. *)
Record hash4 := mk_hash4 { h_0 : Z; h_1 : Z; h_2 : Z; h_3 : Z }.

(** Four steps of one round: each updates one of [a], [d], [c], [b] in turn. *)
Definition md4_quad (op : Z -> Z -> Z -> Z -> Z -> Z -> Z) (h : hash4)
    (x0 s0 x1 s1 x2 s2 x3 s3 : Z) : hash4 :=
  let 'mk_hash4 a b c d := h in
  let a := op a b c d x0 s0 in
  let d := op d a b c x1 s1 in
  let c := op c d a b x2 s2 in
  let b := op b c d a x3 s3 in
  mk_hash4 a b c d.

Definition word_at (data : list Z) (i : nat) : Z := u32 (nth i data 0).

Definition ext2_half_md4 (hash : hash4) (data : list Z) : hash4 :=
  let d := word_at data in
  let r := hash in
  (* Round 1 *)
  let r := md4_quad FF r (d 0%nat) 3 (d 1%nat) 7 (d 2%nat) 11 (d 3%nat) 19 in
  let r := md4_quad FF r (d 4%nat) 3 (d 5%nat) 7 (d 6%nat) 11 (d 7%nat) 19 in
  (* Round 2 *)
  let r := md4_quad GG r (d 1%nat) 3 (d 3%nat) 5 (d 5%nat) 9 (d 7%nat) 13 in
  let r := md4_quad GG r (d 0%nat) 3 (d 2%nat) 5 (d 4%nat) 9 (d 6%nat) 13 in
  (* Round 3 *)
  let r := md4_quad HH r (d 3%nat) 3 (d 7%nat) 9 (d 2%nat) 11 (d 6%nat) 15 in
  let r := md4_quad HH r (d 1%nat) 3 (d 5%nat) 9 (d 0%nat) 11 (d 4%nat) 15 in
  mk_hash4 (h_0 hash +w h_0 r) (h_1 hash +w h_1 r)
           (h_2 hash +w h_2 r) (h_3 hash +w h_3 r).

(** The body of the TEA loop with [n] rounds left; [i] counts from 1. *)
Fixpoint tea_rounds (n : nat) (i x y : Z) (data : list Z) : Z * Z :=
  match n with
  | O => (x, y)
  | S n =>
      let sum := u32 (i * 0x9E3779B9) in
      let x := x +w Z.lxor (Z.lxor ((y <<w 4) +w word_at data 0) (y +w sum))
                           (Z.shiftr y 5 +w word_at data 1) in
      let y := y +w Z.lxor (Z.lxor ((x <<w 4) +w word_at data 2) (x +w sum))
                           (Z.shiftr x 5 +w word_at data 3) in
      tea_rounds n (i + 1) x y data
  end.

Definition ext2_tea (hash : hash4) (data : list Z) : hash4 :=
  let '(x, y) := tea_rounds 16 1 (h_0 hash) (h_1 hash) data in
  mk_hash4 (h_0 hash +w x) (h_1 hash +w y) (h_2 hash) (h_3 hash).

(** A character of the name as an [int], by the [unsigned_char] switch. *)
Definition char_at (name : list Z) (i : Z) (unsigned_char : bool) : Z :=
  if unsigned_char then byte_at name i else i8 (byte_at name i).

Fixpoint legacy_loop (n : nat) (i : Z) (name : list Z) (uns : bool) (h1 h2 : Z) : Z :=
  match n with
  | O => h1
  | S n =>
      let val := char_at name i uns in
      let h0 := h2 +w Z.lxor h1 (u32 (val * 0x6D22F5)) in
      let h0 := if has_bits h0 0x80000000 then u32 (h0 - 0x7FFFFFFF) else h0 in
      legacy_loop n (i + 1) name uns h0 h1
  end.

Definition ext2_legacy_hash (name : list Z) (len : Z) (uns : bool) : Z :=
  legacy_loop (Z.to_nat len) 0 name uns 0x12A3FE2D 0x37ABE8F9 <<w 1.

(** The loop over the bytes: [n] bytes left at [i]; the words stored so far
    (last first), [dlen] and [buf_val]. *)
Fixpoint prep_loop (n : nat) (i : Z) (src : list Z) (uns : bool) (padding : Z)
    (dst : list Z) (dlen buf_val : Z) : list Z * Z * Z :=
  match n with
  | O => (dst, dlen, buf_val)
  | S n =>
      let buf_byte := char_at src i uns in
      let buf_val := if i mod 4 =? 0 then padding else buf_val in
      let buf_val := u32 ((buf_val <<w 8) + buf_byte) in
      if i mod 4 =? 3
      then prep_loop n (i + 1) src uns padding (buf_val :: dst) (dlen - 4) padding
      else prep_loop n (i + 1) src uns padding dst dlen buf_val
  end.

(** [while (dlen >= 0) { *dst++ = padding; dlen -= sizeof(uint32_t); }] *)
Fixpoint prep_pad (fuel : nat) (padding : Z) (dst : list Z) (dlen : Z) : list Z :=
  match fuel with
  | O => dst
  | S fuel =>
      if 0 <=? dlen then prep_pad fuel padding (padding :: dst) (dlen - 4) else dst
  end.

(** The words [ext2_prep_hashbuf] stores through [dst], in order; [dlen] is at
    most 32, so eight rounds of padding are enough. *)
Definition prep_words (src : list Z) (slen dlen : Z) (uns : bool) : list Z :=
  let padding :=
    Z.lor (Z.lor (Z.lor slen (slen <<w 8)) (slen <<w 16)) (slen <<w 24) in
  let len := if dlen <? slen then dlen else slen in
  let '(dst, dlen, buf_val) := prep_loop (Z.to_nat len) 0 src uns padding [] dlen padding in
  let dlen := dlen - 4 in
  let dst := if 0 <=? dlen then buf_val :: dst else dst in
  rev (prep_pad 8 padding dst (dlen - 4)).

Definition ext2_prep_hashbuf (src : list Z) (slen : Z) (dst : list Z) (dlen : Z)
    (uns : bool) : list Z :=
  let w := prep_words src slen dlen uns in w ++ drop (length w) dst.

(** [while (len > 0) { prep(name, len, data, step); mix(hash, data); ... }] *)
Fixpoint hash_blocks (fuel : nat) (mix : hash4 -> list Z -> hash4) (step : Z)
    (name : list Z) (len : Z) (uns : bool) (data : list Z) (hash : hash4) : hash4 :=
  match fuel with
  | O => hash
  | S fuel =>
      if 0 <? len then
        let data := ext2_prep_hashbuf name len data step uns in
        hash_blocks fuel mix step (drop (Z.to_nat step) name) (len - step) uns data
          (mix hash data)
      else hash
  end.

(** What [ext2_htree_hash] returns and stores through [hash_major] and
    [hash_minor]; [None] when it stores nothing. *)
Record hash_out := mk_hash_out { ho_rc : Z; ho_stored : option (Z * Z) }.

(** [major] and [minor] by the hash version, or [None] for an unknown one.  A
    name has at most 255 bytes: 16 blocks of 16 bytes, 8 of 32.  [data0] is what
    the uninitialised array [data] holds on entry. *)
Definition htree_majmin (name : list Z) (len : Z) (hash : hash4) (data0 : list Z)
    (hash_version : Z) : option (Z * Z) :=
  let tea uns :=
    let h := hash_blocks 17 ext2_tea 16 name len uns data0 hash in
    Some (h_0 h, h_1 h) in
  let legacy uns := Some (ext2_legacy_hash name len uns, 0) in
  let md4 uns :=
    let h := hash_blocks 17 ext2_half_md4 32 name len uns data0 hash in
    Some (h_1 h, h_2 h) in
  if hash_version =? EXT2_HTREE_TEA_UNSIGNED then tea true
  else if hash_version =? EXT2_HTREE_TEA then tea false
  else if hash_version =? EXT2_HTREE_LEGACY_UNSIGNED then legacy true
  else if hash_version =? EXT2_HTREE_LEGACY then legacy false
  else if hash_version =? EXT2_HTREE_HALF_MD4_UNSIGNED then md4 true
  else if hash_version =? EXT2_HTREE_HALF_MD4 then md4 false
  else None.

(** [name] and [hash_seed] are [None] for a null pointer; [has_major] says that
    [hash_major] is not null. *)
Definition ext2_htree_hash (name : option (list Z)) (len : Z) (hash_seed : option hash4)
    (data0 : list Z) (hash_version : Z) (has_major : bool) : hash_out :=
  match name with
  | None => mk_hash_out (-1) None
  | Some name =>
      if negb has_major then mk_hash_out (-1) None
      else if (len <? 1) || (255 <? len) then mk_hash_out ENOTSUP (Some (0, 0))
      else
        let hash := match hash_seed with
                    | Some s => s
                    | None => mk_hash4 0x67452301 0xEFCDAB89 0x98BADCFE 0x10325476
                    end in
        match htree_majmin name len hash data0 hash_version with
        | None => mk_hash_out ENOTSUP (Some (0, 0))
        | Some (major, minor) =>
            let major := Z.land major (u32 (Z.lnot 1)) in
            let major := if major =? Z.shiftl EXT2_HTREE_EOF 1
                         then Z.shiftl (EXT2_HTREE_EOF - 1) 1 else major in
            mk_hash_out EOK (Some (major, minor))
        end
  end.

(** ** Where the words come from and how many there are *)

Lemma prep_loop_count n : forall i src uns pad dst dlen bv,
  0 <= i ->
  let '(dst', dlen', _) := prep_loop n i src uns pad dst dlen bv in
  Z.of_nat (length dst') = Z.of_nat (length dst) + ((i + Z.of_nat n) / 4 - i / 4) /\
  dlen' + 4 * Z.of_nat (length dst') = dlen + 4 * Z.of_nat (length dst).
Proof.
  induction n as [|n IH]; intros i src uns pad dst dlen bv Hi; cbn [prep_loop].
  { split; [|lia]. rewrite Z.add_0_r. lia. }
  set (bv' := u32 _). destruct (Z.eqb_spec (i mod 4) 3) as [E|E].
  - specialize (IH (i + 1) src uns pad (bv' :: dst) (dlen - 4) pad ltac:(lia)).
    destruct (prep_loop _ _ _ _ _ _ _ _) as [[d' l'] b']. cbn [length] in IH. dlia.
  - specialize (IH (i + 1) src uns pad dst dlen bv' ltac:(lia)).
    destruct (prep_loop _ _ _ _ _ _ _ _) as [[d' l'] b']. dlia.
Qed.

Lemma prep_pad_count fuel : forall pad dst dlen,
  dlen < 4 * Z.of_nat fuel ->
  Z.of_nat (length (prep_pad fuel pad dst dlen)) =
  Z.of_nat (length dst) + Z.max 0 ((dlen + 4) / 4).
Proof.
  induction fuel as [|fuel IH]; intros pad dst dlen Hd; cbn [prep_pad]; [dlia|].
  destruct (Z.leb_spec 0 dlen) as [H|H]; [|dlia].
  rewrite IH by lia. cbn [length]. dlia.
Qed.

Lemma length_prep_words src slen k uns :
  1 <= slen -> 1 <= k <= 8 -> Z.of_nat (length (prep_words src slen (4 * k) uns)) = k.
Proof.
  intros Hs Hk. unfold prep_words.
  set (len := if 4 * k <? slen then 4 * k else slen).
  assert (Hlen : 1 <= len <= 4 * k) by (unfold len; destruct (Z.ltb_spec (4 * k) slen); lia).
  match goal with |- context [prep_loop ?n ?i ?src ?u ?p ?d ?dl ?bv] =>
    pose proof (prep_loop_count n i src u p d dl bv ltac:(lia)) as Hc;
    destruct (prep_loop n i src u p d dl bv) as [[dst dlen] bv'] end.
  cbn [length] in Hc. rewrite length_rev, prep_pad_count by dlia.
  destruct (Z.leb_spec 0 (dlen - 4)); cbn [length]; dlia.
Qed.

(** [ext2_prep_hashbuf] fills the words the mixing function reads, whatever they
    held before, and no others. *)
Lemma prep_hashbuf_words src slen k uns dst :
  1 <= slen -> 1 <= k <= 8 ->
  ext2_prep_hashbuf src slen dst (4 * k) uns =
  prep_words src slen (4 * k) uns ++ drop (Z.to_nat k) dst.
Proof.
  intros Hs Hk. unfold ext2_prep_hashbuf.
  pose proof (length_prep_words src slen k uns Hs Hk). do 2 f_equal. lia.
Qed.

(** [a] and [b] have the same first [n] bytes. *)
Definition same_bytes (n : Z) (a b : list Z) : Prop :=
  forall i, 0 <= i < n -> byte_at a i = byte_at b i.

Lemma char_at_ext n a b i uns :
  same_bytes n a b -> 0 <= i < n -> char_at a i uns = char_at b i uns.
Proof. intros H Hi. unfold char_at. by rewrite (H i Hi). Qed.

Lemma prep_loop_ext n : forall m i a b uns pad dst dlen bv,
  same_bytes m a b -> 0 <= i -> i + Z.of_nat n <= m ->
  prep_loop n i a uns pad dst dlen bv = prep_loop n i b uns pad dst dlen bv.
Proof.
  induction n as [|n IH]; intros m i a b uns pad dst dlen bv H Hi Hm; [done|].
  cbn [prep_loop]. rewrite (char_at_ext m a b i uns H) by lia.
  by rewrite !(IH m (i + 1) a b) by (done || lia).
Qed.

Lemma prep_words_ext a b slen dlen uns :
  same_bytes slen a b -> 1 <= slen -> prep_words a slen dlen uns = prep_words b slen dlen uns.
Proof.
  intros H Hs. unfold prep_words.
  destruct (Z.ltb_spec dlen slen); by rewrite (prep_loop_ext _ slen 0 a b) by (done || lia).
Qed.

Lemma legacy_loop_ext n : forall m i a b uns h1 h2,
  same_bytes m a b -> 0 <= i -> i + Z.of_nat n <= m ->
  legacy_loop n i a uns h1 h2 = legacy_loop n i b uns h1 h2.
Proof.
  induction n as [|n IH]; intros m i a b uns h1 h2 H Hi Hm; [done|].
  cbn [legacy_loop]. rewrite (char_at_ext m a b i uns H) by lia.
  apply (IH m); [done|lia..].
Qed.

Lemma same_bytes_drop n k a b :
  0 <= k -> same_bytes n a b -> same_bytes (n - k) (drop (Z.to_nat k) a) (drop (Z.to_nat k) b).
Proof.
  intros Hk H i Hi. unfold same_bytes, byte_at in *. specialize (H (k + i) ltac:(lia)).
  rewrite !nth_lookup, !lookup_drop. rewrite !nth_lookup in H.
  by replace (Z.to_nat k + Z.to_nat i)%nat with (Z.to_nat (k + i)) by lia.
Qed.

(** A mixing function that looks at the first [k] words only. *)
Definition reads_words (k : nat) (mix : hash4 -> list Z -> hash4) : Prop :=
  forall h d d', (forall i, (i < k)%nat -> word_at d i = word_at d' i) -> mix h d = mix h d'.

Lemma tea_rounds_ext n : forall i x y d d',
  (forall i, (i < 4)%nat -> word_at d i = word_at d' i) ->
  tea_rounds n i x y d = tea_rounds n i x y d'.
Proof.
  induction n as [|n IH]; intros i x y d d' H; [done|]. cbn [tea_rounds].
  rewrite !(H _) by lia. by apply IH.
Qed.
Lemma tea_reads : reads_words 4 ext2_tea.
Proof. intros h d d' H. unfold ext2_tea. by rewrite (tea_rounds_ext _ _ _ _ d d'). Qed.
Lemma half_md4_reads : reads_words 8 ext2_half_md4.
Proof. intros h d d' H. unfold ext2_half_md4. by rewrite !(H _) by lia. Qed.

Lemma hash_blocks_ext fuel mix k (uns : bool) :
  1 <= k <= 8 -> reads_words (Z.to_nat k) mix -> forall a b len d d' h,
  same_bytes len a b ->
  hash_blocks fuel mix (4 * k) a len uns d h = hash_blocks fuel mix (4 * k) b len uns d' h.
Proof.
  intros Hk Hmix. induction fuel as [|fuel IH]; intros a b len d d' h H; [done|].
  cbn [hash_blocks]. destruct (Z.ltb_spec 0 len) as [Hl|]; [|done].
  rewrite !prep_hashbuf_words by lia. rewrite (prep_words_ext a b) by (done || lia).
  pose proof (length_prep_words b len k uns ltac:(lia) Hk) as Hw.
  rewrite (Hmix h _ (prep_words b len (4 * k) uns ++ drop (Z.to_nat k) d')).
  - apply IH. apply same_bytes_drop; [lia|done].
  - intros i Hi. unfold word_at. rewrite !app_nth1 by lia. done.
Qed.

Lemma htree_majmin_ext a b len h d d' v :
  1 <= len -> same_bytes len a b -> htree_majmin a len h d v = htree_majmin b len h d' v.
Proof.
  intros Hl H. unfold htree_majmin.
  change 16 with (4 * 4). change 32 with (4 * 8).
  rewrite !(hash_blocks_ext 17 ext2_tea 4 _ ltac:(lia) tea_reads a b len d d') by done.
  rewrite !(hash_blocks_ext 17 ext2_half_md4 8 _ ltac:(lia) half_md4_reads a b len d d') by done.
  unfold ext2_legacy_hash. by rewrite !(legacy_loop_ext _ len 0 a b) by (done || lia).
Qed.

(** ** Properties *)

(** [ext2_htree_hash] reads nothing but the first [len] bytes of the name:
    two buffers that agree there hash alike whatever follows the name, and the
    uninitialised stack array [data] never reaches the result, for every length
    the code accepts or refuses, every seed and every hash version. *)
Theorem htree_hash_reads_name_only (a b : list Z) (len : Z) (seed : option hash4)
    (data data' : list Z) (version : Z)
    (H : forall i, 0 <= i < len -> byte_at a i = byte_at b i) :
  ext2_htree_hash (Some a) len seed data version true =
  ext2_htree_hash (Some b) len seed data' version true.
Proof.
  unfold ext2_htree_hash. cbn [negb].
  destruct ((len <? 1) || (255 <? len)) eqn:E; [done|].
  by rewrite (htree_majmin_ext a b len _ data data') by (done || lia).
Qed.

Lemma htree_hash_reads_name_only_witness :
  ext2_htree_hash (Some [97; 98; 1; 2]) 2 None [] 1 true =
  ext2_htree_hash (Some [97; 98; 9]) 2 None [7; 7; 7] 1 true.
Proof.
  apply htree_hash_reads_name_only. intros i Hi.
  assert (i = 0 \/ i = 1) as [-> | ->] by lia; reflexivity.
Defined.

(** what [ext2_htree_hash] stores: a length outside 1..255 or an unknown
    version gives [ENOTSUP] and two zeros; otherwise it succeeds with a major
    hash that is even and below the end-of-directory mark 0xFFFFFFFE, the value
    the index code reserves (the clamp at the end of the function). *)
Theorem htree_hash_result (name : list Z) (len : Z) (seed : option hash4)
    (data : list Z) (version : Z) :
  let bad := (len <? 1) || (255 <? len) || negb ((0 <=? version) && (version <=? 5)) in
  match ext2_htree_hash (Some name) len seed data version true with
  | mk_hash_out rc (Some (major, minor)) =>
      if bad then rc = ENOTSUP /\ major = 0 /\ minor = 0
      else rc = EOK /\ 0 <= major < 0xFFFFFFFE /\ major mod 2 = 0
  | mk_hash_out _ None => False
  end.
Proof.
  cbv zeta. unfold ext2_htree_hash. cbn [negb].
  destruct ((len <? 1) || (255 <? len)) eqn:E; [done|]. cbn [orb].
  set (h := match seed with Some s => s | None => _ end).
  destruct (htree_majmin name len h data version) as [[major minor]|] eqn:Hm.
  - assert (Hv : (0 <=? version) && (version <=? 5) = true).
    { unfold htree_majmin, EXT2_HTREE_TEA_UNSIGNED, EXT2_HTREE_TEA, EXT2_HTREE_LEGACY_UNSIGNED,
        EXT2_HTREE_LEGACY, EXT2_HTREE_HALF_MD4_UNSIGNED, EXT2_HTREE_HALF_MD4 in Hm.
      repeat (destruct (_ =? _) eqn:? in Hm; [lia|]). done. }
    rewrite Hv. cbn [negb]. split; [done|].
    change (u32 (Z.lnot 1)) with (Z.shiftl (Z.ones 31) 1).
    set (m := Z.land major _).
    assert (Hm0 : 0 <= m < 2 ^ 32 /\ m mod 2 = 0).
    { split.
      - unfold m. rewrite Z.land_comm. apply land_range; done.
      - rewrite <- Z.bit0_mod. unfold m. rewrite Z.land_spec. cbn. by rewrite andb_false_r. }
    change (Z.shiftl EXT2_HTREE_EOF 1) with 0xFFFFFFFE.
    change (Z.shiftl (EXT2_HTREE_EOF - 1) 1) with 0xFFFFFFFC.
    destruct (Z.eqb_spec m 0xFFFFFFFE); [done|]. split; [dlia|tauto].
  - assert (Hv : (0 <=? version) && (version <=? 5) = false).
    { apply not_true_iff_false. intros Hv.
      assert (Hc : version = 0 \/ version = 1 \/ version = 2 \/ version = 3 \/ version = 4 \/
        version = 5) by lia.
      destruct Hc as [-> | [-> | [-> | [-> | [-> | ->]]]]]; discriminate Hm. }
    by rewrite Hv.
Qed.
