(* ===== verification/Super.v ===== *)
(** * The superblock

    Core/lwext4/include/ext4_super.h and src/ext4_super.c: accessors, feature
    tests, group arithmetic, the superblock checksum and the simple validation
    of [ext4_sb_check].  A superblock is the 1024 bytes of
    [struct ext4_sblock].  The transfers to and from the device are in
    Trans.v. *)

From S2P Require Import Prelude Layout Types Crc.

Definition sb_get (f : field) (s : list Z) : Z := rd f 0 s.
Definition sb_set (f : field) (v : Z) (s : list Z) : list Z := wr f 0 v s.

Definition ext4_sb_get_blocks_cnt (s : list Z) : Z :=
  Z.lor (u64 (Z.shiftl (sb_get sb_blocks_count_hi s) 32)) (sb_get sb_blocks_count_lo s).

Definition ext4_sb_get_free_blocks_cnt (s : list Z) : Z :=
  Z.lor (u64 (Z.shiftl (sb_get sb_free_blocks_count_hi s) 32))
        (sb_get sb_free_blocks_count_lo s).

Definition ext4_sb_set_blocks_cnt (cnt : Z) (s : list Z) : list Z :=
  sb_set sb_blocks_count_hi (Z.shiftr cnt 32)
    (sb_set sb_blocks_count_lo (Z.shiftr (u64 (Z.shiftl cnt 32)) 32) s).

Definition ext4_sb_set_free_blocks_cnt (cnt : Z) (s : list Z) : list Z :=
  sb_set sb_free_blocks_count_hi (Z.shiftr cnt 32)
    (sb_set sb_free_blocks_count_lo (Z.shiftr (u64 (Z.shiftl cnt 32)) 32) s).

Definition ext4_sb_get_block_size (s : list Z) : Z :=
  let log := sb_get sb_log_block_size s in
  let log := if 6 <? log then 6 else log in
  Z.shiftl 1024 log.

Definition ext4_sb_get_desc_size (s : list Z) : Z :=
  let size := sb_get sb_desc_size s in
  if size <? EXT4_MIN_BLOCK_GROUP_DESCRIPTOR_SIZE
  then EXT4_MIN_BLOCK_GROUP_DESCRIPTOR_SIZE else size.

Definition ext4_sb_check_flag (s : list Z) (v : Z) : bool := has_bits (sb_get sb_flags s) v.
Definition ext4_sb_feature_com (s : list Z) (v : Z) : bool :=
  has_bits (sb_get sb_features_compatible s) v.
Definition ext4_sb_feature_incom (s : list Z) (v : Z) : bool :=
  has_bits (sb_get sb_features_incompatible s) v.
Definition ext4_sb_feature_ro_com (s : list Z) (v : Z) : bool :=
  has_bits (sb_get sb_features_read_only s) v.

Definition ext4_sb_bg_to_flex (s : list Z) (block_group : Z) : Z :=
  Z.shiftr block_group (sb_get sb_log_groups_per_flex s).
Definition ext4_sb_flex_bg_size (s : list Z) : Z :=
  u32 (Z.shiftl 1 (sb_get sb_log_groups_per_flex s)).
Definition ext4_sb_first_meta_bg (s : list Z) : Z := sb_get sb_first_meta_bg s.

(** ** Groups *)

Definition ext4_block_group_cnt (s : list Z) : Z :=
  let blocks_count := ext4_sb_get_blocks_cnt s in
  let blocks_per_group := sb_get sb_blocks_per_group s in
  let block_groups_count := u32 (blocks_count / blocks_per_group) in
  if negb (blocks_count mod blocks_per_group =? 0)
  then u32 (block_groups_count + 1) else block_groups_count.

Definition ext4_blocks_in_group_cnt (s : list Z) (bgid : Z) : Z :=
  let block_group_count := ext4_block_group_cnt s in
  let blocks_per_group := sb_get sb_blocks_per_group s in
  let total_blocks := ext4_sb_get_blocks_cnt s in
  if bgid <? u32 (block_group_count - 1) then blocks_per_group
  else u32 (total_blocks - u32 (u32 (block_group_count - 1) * blocks_per_group)).

Definition ext4_inodes_in_group_cnt (s : list Z) (bgid : Z) : Z :=
  let block_group_count := ext4_block_group_cnt s in
  let inodes_per_group := sb_get sb_inodes_per_group s in
  let total_inodes := sb_get sb_inodes_count s in
  if bgid <? u32 (block_group_count - 1) then inodes_per_group
  else u32 (total_inodes - u32 (u32 (block_group_count - 1) * inodes_per_group)).

(** ** Checksums *)

Definition ext4_sb_uuid (s : list Z) : list Z := slice (f_off sb_uuid) (f_size sb_uuid) s.

Definition ext4_sb_csum_seed (s : list Z) : Z :=
  if ext4_sb_feature_incom s EXT4_FINCOM_BG_USE_META_CSUM
  then sb_get sb_checksum_seed s
  else ext4_crc32c EXT4_CRC32_INIT (ext4_sb_uuid s).

Definition ext4_sb_csum (s : list Z) : Z :=
  ext4_crc32c EXT4_CRC32_INIT (slice 0 (f_off sb_checksum) s).

Definition ext4_sb_verify_csum (s : list Z) : bool :=
  if negb (ext4_sb_feature_ro_com s EXT4_FRO_COM_METADATA_CSUM) then true
  else if negb (sb_get sb_checksum_type s =? EXT4_CHECKSUM_CRC32C) then false
  else sb_get sb_checksum s =? ext4_sb_csum s.

Definition ext4_sb_set_csum (s : list Z) : list Z :=
  if negb (ext4_sb_feature_ro_com s EXT4_FRO_COM_METADATA_CSUM) then s
  else sb_set sb_checksum (ext4_sb_csum s) s.

Definition ext4_sb_check (s : list Z) : bool :=
  if negb (sb_get sb_magic s =? EXT4_SUPERBLOCK_MAGIC) then false
  else if sb_get sb_inodes_count s =? 0 then false
  else if ext4_sb_get_blocks_cnt s =? 0 then false
  else if sb_get sb_blocks_per_group s =? 0 then false
  else if sb_get sb_inodes_per_group s =? 0 then false
  else if sb_get sb_inode_size s <? 128 then false
  else if sb_get sb_first_inode s <? 11 then false
  else if ext4_sb_get_desc_size s <? EXT4_MIN_BLOCK_GROUP_DESCRIPTOR_SIZE then false
  else if EXT4_MAX_BLOCK_GROUP_DESCRIPTOR_SIZE <? ext4_sb_get_desc_size s then false
  else if negb (ext4_sb_verify_csum s) then false
  else true.

(** ** Where superblock copies and descriptor blocks are *)

(** [while (1)]: [a] shrinks by a factor of [b] in every turn, so 32 turns are
    enough for a [uint32_t]. *)
Fixpoint is_power_of_loop (fuel : nat) (a b : Z) : bool :=
  match fuel with
  | O => false
  | S fuel =>
      if a <? b then false
      else if a =? b then true
      else if negb (a mod b =? 0) then false
      else is_power_of_loop fuel (a / b) b
  end.
Definition is_power_of (a b : Z) : bool := is_power_of_loop 33 a b.

Definition ext4_sb_sparse (group : Z) : bool :=
  if group <=? 1 then true
  else if Z.land group 1 =? 0 then false
  else is_power_of group 7 || is_power_of group 5 || is_power_of group 3.

Definition ext4_sb_is_super_in_bg (s : list Z) (group : Z) : bool :=
  if ext4_sb_feature_ro_com s EXT4_FRO_COM_SPARSE_SUPER && negb (ext4_sb_sparse group)
  then false else true.

Definition dsc_per_block (s : list Z) : Z :=
  ext4_sb_get_block_size s / ext4_sb_get_desc_size s.

Definition ext4_bg_num_gdb_meta (s : list Z) (group : Z) : Z :=
  let metagroup := group / dsc_per_block s in
  let first := u32 (metagroup * dsc_per_block s) in
  let last := u32 (first + dsc_per_block s - 1) in
  if (group =? first) || (group =? u32 (first + 1)) || (group =? last) then 1 else 0.

Definition ext4_bg_num_gdb_nometa (s : list Z) (group : Z) : Z :=
  if negb (ext4_sb_is_super_in_bg s group) then 0
  else
    let db_count := u32 (ext4_block_group_cnt s + dsc_per_block s - 1) / dsc_per_block s in
    if ext4_sb_feature_incom s EXT4_FINCOM_META_BG then ext4_sb_first_meta_bg s
    else db_count.

Definition ext4_bg_num_gdb (s : list Z) (group : Z) : Z :=
  let first_meta_bg := ext4_sb_first_meta_bg s in
  let metagroup := group / dsc_per_block s in
  if negb (ext4_sb_feature_incom s EXT4_FINCOM_META_BG) || (metagroup <? first_meta_bg)
  then ext4_bg_num_gdb_nometa s group
  else ext4_bg_num_gdb_meta s group.

Definition ext4_num_base_meta_clusters (s : list Z) (block_group : Z) : Z :=
  let num := Z.b2z (ext4_sb_is_super_in_bg s block_group) in
  let num :=
    if negb (ext4_sb_feature_incom s EXT4_FINCOM_META_BG)
       || (block_group <? u32 (ext4_sb_first_meta_bg s * dsc_per_block s))
    then
      if negb (num =? 0)
      then u32 (num + ext4_bg_num_gdb s block_group + sb_get sb_reserved_gdt_blocks s)
      else num
    else u32 (num + ext4_bg_num_gdb s block_group) in
  let clustersize := u32 (Z.shiftl 1024 (sb_get sb_log_cluster_size s)) in
  let cluster_ratio := clustersize / ext4_sb_get_block_size s in
  Z.shiftr (u32 (num + cluster_ratio - 1)) (sb_get sb_log_cluster_size s).

(** ** Lemmas *)

Definition sb_wf (s : list Z) : Prop := blen s = EXT4_SUPERBLOCK_SIZE /\ bytes_ok s.
#[export] Instance sb_wf_dec s : Decision (sb_wf s).
Proof. unfold sb_wf. apply _. Defined.

Lemma sb_get_range f s : 0 <= f_size f -> 0 <= sb_get f s < 2 ^ (8 * f_size f).
Proof. apply rd_range. Qed.
Lemma blen_sb_set f v s : blen (sb_set f v s) = blen s.
Proof. apply blen_wr. Qed.
Lemma sb_wf_set f v s : sb_wf s -> sb_wf (sb_set f v s).
Proof. intros [Hl Hb]. split; [by rewrite blen_sb_set|by apply bytes_ok_wr]. Qed.
Lemma sb_get_set_eq f v s :
  f_within 1024 f = true -> blen s = 1024 -> sb_get f (sb_set f v s) = v mod 2 ^ (8 * f_size f).
Proof. intros Hf Hs. apply (rd_wr_eq _ _ _ _ 1024); [done|lia..]. Qed.
Lemma sb_get_set_ne f g v s : f_disj f g = true -> sb_get g (sb_set f v s) = sb_get g s.
Proof. intros Hd. by apply rd_wr_ne. Qed.

#[export] Hint Rewrite blen_sb_set : struct.
#[export] Hint Rewrite sb_get_set_ne using reflexivity : struct.

(** Puts the range of the superblock field [f] in the context. *)
Ltac sb_range f s := let H := fresh "Hr" in
  pose proof (sb_get_range f s ltac:(done)) as H; cbn [f_size f] in H;
  match type of H with context [2 ^ ?e] =>
    let v := eval vm_compute in (2 ^ e) in change (2 ^ e) with v in H end.

Lemma free_blocks_get_set cnt s :
  0 <= cnt < 2 ^ 64 -> blen s = 1024 ->
  ext4_sb_get_free_blocks_cnt (ext4_sb_set_free_blocks_cnt cnt s) = cnt.
Proof.
  intros Hc Hs. unfold ext4_sb_get_free_blocks_cnt, ext4_sb_set_free_blocks_cnt.
  rewrite sb_get_set_eq by (done || by rewrite blen_sb_set).
  rewrite sb_get_set_ne, sb_get_set_eq by done. by apply u64_join32.
Qed.

Lemma blocks_get_set cnt s :
  0 <= cnt < 2 ^ 64 -> blen s = 1024 ->
  ext4_sb_get_blocks_cnt (ext4_sb_set_blocks_cnt cnt s) = cnt.
Proof.
  intros Hc Hs. unfold ext4_sb_get_blocks_cnt, ext4_sb_set_blocks_cnt.
  rewrite sb_get_set_eq by (done || by rewrite blen_sb_set).
  rewrite sb_get_set_ne, sb_get_set_eq by done. by apply u64_join32.
Qed.

(** Setting the free-block counter leaves every other field alone. *)
Lemma sb_get_set_free_ne f cnt s :
  f_disj sb_free_blocks_count_lo f = true -> f_disj sb_free_blocks_count_hi f = true ->
  sb_get f (ext4_sb_set_free_blocks_cnt cnt s) = sb_get f s.
Proof. intros. unfold ext4_sb_set_free_blocks_cnt. by rewrite !sb_get_set_ne. Qed.
#[export] Hint Rewrite sb_get_set_free_ne using reflexivity : struct.
Lemma blen_sb_set_free cnt s : blen (ext4_sb_set_free_blocks_cnt cnt s) = blen s.
Proof. unfold ext4_sb_set_free_blocks_cnt. by rewrite !blen_sb_set. Qed.
#[export] Hint Rewrite blen_sb_set_free : struct.

Lemma blocks_cnt_range s : 0 <= ext4_sb_get_blocks_cnt s < 2 ^ 64.
Proof.
  unfold ext4_sb_get_blocks_cnt. sb_range sb_blocks_count_lo s.
  pose proof (u64_range (Z.shiftl (sb_get sb_blocks_count_hi s) 32)).
  apply lor_range; lia.
Qed.
Lemma free_blocks_range s : 0 <= ext4_sb_get_free_blocks_cnt s < 2 ^ 64.
Proof.
  unfold ext4_sb_get_free_blocks_cnt. sb_range sb_free_blocks_count_lo s.
  pose proof (u64_range (Z.shiftl (sb_get sb_free_blocks_count_hi s) 32)).
  apply lor_range; lia.
Qed.
Lemma block_size_cases s :
  exists k, 0 <= k <= 6 /\ ext4_sb_get_block_size s = 1024 * 2 ^ k.
Proof.
  unfold ext4_sb_get_block_size. sb_range sb_log_block_size s.
  set (l := if 6 <? sb_get sb_log_block_size s then 6 else sb_get sb_log_block_size s).
  assert (Hl : 0 <= l <= 6) by (unfold l; destruct (Z.ltb_spec 6 (sb_get sb_log_block_size s)); lia).
  exists l. split; [done|]. apply Z.shiftl_mul_pow2. lia.
Qed.
Lemma desc_size_range s : 32 <= ext4_sb_get_desc_size s < 65536.
Proof.
  unfold ext4_sb_get_desc_size, EXT4_MIN_BLOCK_GROUP_DESCRIPTOR_SIZE.
  sb_range sb_desc_size s. destruct (Z.ltb_spec (sb_get sb_desc_size s) 32); lia.
Qed.

(** The number of groups, without the machine arithmetic: blocks over blocks per
    group, rounded up.  Holds as soon as the count fits the 32 bits of the
    result. *)
Lemma block_group_cnt_ceil s :
  let n := ext4_sb_get_blocks_cnt s in
  let bpg := sb_get sb_blocks_per_group s in
  0 < bpg -> (n + bpg - 1) / bpg < 2 ^ 32 ->
  ext4_block_group_cnt s = (n + bpg - 1) / bpg.
Proof.
  cbv zeta. intros Hb Hf. unfold ext4_block_group_cnt.
  pose proof (blocks_cnt_range s) as Hn.
  set (n := ext4_sb_get_blocks_cnt s) in *. set (b := sb_get sb_blocks_per_group s) in *.
  assert (E : (n + b - 1) / b = n / b + (if n mod b =? 0 then 0 else 1)).
  { symmetry. apply Z.div_unique with ((n mod b) + (if n mod b =? 0 then b - 1 else -1));
      destruct (Z.eqb_spec (n mod b) 0); Z.div_mod_to_equations; nia. }
  pose proof (Z.div_pos n b ltac:(lia) ltac:(lia)).
  rewrite E in *. destruct (Z.eqb_spec (n mod b) 0); cbn [negb];
    rewrite (u32_id (n / b)) by lia; rewrite ?u32_id by lia; lia.
Qed.

Lemma blocks_in_group_value s g :
  let n := ext4_sb_get_blocks_cnt s in
  let bpg := sb_get sb_blocks_per_group s in
  let cnt := (n + bpg - 1) / bpg in
  0 < bpg -> 0 < n -> cnt < 2 ^ 32 -> 0 <= g < cnt ->
  ext4_blocks_in_group_cnt s g = Z.min bpg (n - g * bpg).
Proof.
  cbv zeta. intros Hb Hn Hc Hg. pose proof (block_group_cnt_ceil s Hb Hc) as E.
  unfold ext4_blocks_in_group_cnt. rewrite E. clear E.
  sb_range sb_blocks_per_group s.
  set (n := ext4_sb_get_blocks_cnt s) in *. set (b := sb_get sb_blocks_per_group s) in *.
  set (c := (n + b - 1) / b) in *.
  assert (Hcb : (c - 1) * b < n <= c * b) by (unfold c; clearbody n b; nia || (Z.div_mod_to_equations; nia)).
  rewrite (u32_id (c - 1)) by lia.
  destruct (Z.ltb_spec g (c - 1)) as [Hlt|Hge].
  - assert ((g + 1) * b <= (c - 1) * b) by (apply Z.mul_le_mono_nonneg_r; lia). lia.
  - assert (g = c - 1) as -> by lia. unfold u32 at 1 2.
    rewrite Zminus_mod_idemp_r. rewrite Z.mod_small by lia. lia.
Qed.

Lemma is_power_of_loop_spec fuel : forall a b,
  2 <= b -> 0 <= a < 2 ^ Z.of_nat fuel ->
  is_power_of_loop fuel a b = true <-> exists k, 1 <= k /\ a = b ^ k.
Proof.
  induction fuel as [|fuel IH]; intros a b Hb Ha.
  { split; [done|]. intros (k & Hk & ->). pose proof (Z.pow_pos_nonneg b k). lia. }
  cbn [is_power_of_loop].
  destruct (Z.ltb_spec a b) as [Hlt|Hge].
  { split; [done|]. intros (k & Hk & ->).
    pose proof (Z.pow_le_mono_r b 1 k). lia. }
  destruct (Z.eqb_spec a b) as [->|Hne].
  { split; [|done]. intros _. exists 1. lia. }
  destruct (Z.eqb_spec (a mod b) 0) as [Hm|Hm]; cbn [negb].
  - rewrite IH; [|lia|].
    + assert (Hab : a = b * (a / b)) by (rewrite (Z.div_mod a b) at 1 by lia; lia). split.
      * intros (k & Hk & E). exists (k + 1). split; [lia|].
        rewrite Hab, E, Z.pow_add_r, Z.pow_1_r by lia. lia.
      * intros (k & Hk & E). destruct (Z.eq_dec k 1) as [->|Hk1]; [lia|].
        exists (k - 1). split; [lia|]. subst a. replace k with (1 + (k - 1)) at 1 by lia.
        rewrite Z.pow_add_r, Z.pow_1_r by lia. rewrite Z.mul_comm. apply Z.div_mul. lia.
    + rewrite Nat2Z.inj_succ, Z.pow_succ_r in Ha by lia. split; [apply Z.div_pos; lia|].
      apply Z.div_lt_upper_bound; nia.
  - split; [done|]. intros (k & Hk & ->). destruct Hm.
    replace k with (1 + (k - 1)) by lia. rewrite Z.pow_add_r, Z.pow_1_r, Z.mul_comm by lia.
    apply Z.mod_mul. lia.
Qed.

Lemma odd_pow b k : Z.odd b = true -> 0 <= k -> Z.odd (b ^ k) = true.
Proof.
  intros Hb Hk. pattern k. apply natlike_ind; [done| |done].
  intros x Hx IH. rewrite Z.pow_succ_r by done. by rewrite Z.odd_mul, Hb, IH.
Qed.

(** ** The superblock checksum *)

Lemma slice_set_byte_out off n s j v :
  0 <= off -> 0 <= n -> 0 <= j -> j < off \/ off + n <= j ->
  slice off n (set_byte s j v) = slice off n s.
Proof.
  intros. unfold slice, set_byte. apply list_eq. intros i.
  destruct (decide (i < Z.to_nat n)%nat).
  - rewrite !lookup_take_lt, !lookup_drop by done. apply list_lookup_insert_ne. lia.
  - by rewrite !lookup_take_ge by lia.
Qed.

Lemma slice_sb_set_out off n f v s :
  0 <= off -> 0 <= n -> 0 <= f_off f -> 0 <= f_size f ->
  f_off f + f_size f <= off \/ off + n <= f_off f ->
  slice off n (sb_set f v s) = slice off n s.
Proof.
  intros Ho Hn Hf Hs Hd. unfold sb_set, wr. rewrite Z.add_0_l.
  assert (G : forall k o v s, 0 <= o -> o + Z.of_nat k <= off \/ off + n <= o ->
    slice off n (set_le k o v s) = slice off n s).
  { induction k as [|k IH]; intros o w t Hk Hd'; [done|]. cbn [set_le].
    rewrite IH by lia. apply slice_set_byte_out; lia. }
  apply G; lia.
Qed.

Lemma sb_csum_range s : 0 <= ext4_sb_csum s < 2 ^ 32.
Proof. apply ext4_crc32c_range. Qed.

Lemma sb_verify_set_csum s :
  blen s = 1024 -> sb_get sb_checksum_type s = EXT4_CHECKSUM_CRC32C ->
  ext4_sb_verify_csum (ext4_sb_set_csum s) = true.
Proof.
  intros Hs Ht. unfold ext4_sb_set_csum, ext4_sb_verify_csum, ext4_sb_feature_ro_com.
  destruct (has_bits (sb_get sb_features_read_only s) _) eqn:E; cbn [negb]; [|by rewrite E].
  rewrite !sb_get_set_ne, E, Ht by done. cbn [negb Z.eqb EXT4_CHECKSUM_CRC32C Pos.eqb].
  rewrite sb_get_set_eq by done. unfold ext4_sb_csum at 2. rewrite slice_sb_set_out by (done || right; done).
  apply Z.eqb_eq. apply Z.mod_small, sb_csum_range.
Qed.

(** A byte of the covered part changed: the sum of the rest is another one. *)
Lemma sb_csum_one_byte s j v :
  sb_wf s -> 0 <= j < 1020 -> 0 <= v < 256 -> v <> byte_at s j ->
  ext4_sb_csum (set_byte s j v) <> ext4_sb_csum s.
Proof.
  intros [Hl Hb] Hj Hv Hne. unfold ext4_sb_csum, slice, set_byte, blen, EXT4_SUPERBLOCK_SIZE in *.
  change (Z.to_nat 0) with 0%nat. rewrite !drop_0.
  destruct (lookup_lt_is_Some_2 s (Z.to_nat j)) as [x Hx]; [lia|].
  pose proof (byte_at_lookup _ _ _ Hb Hx) as Hxv. rewrite Z2Nat.id in Hxv by lia.
  change (f_off sb_checksum) with 1020. set (m := Z.to_nat 1020).
  assert (Hm : (Z.to_nat j < m)%nat) by (unfold m; lia).
  assert (Htk : take m s !! Z.to_nat j = Some x) by (by rewrite lookup_take_lt).
  rewrite take_insert_lt by done. rewrite insert_take_drop by (rewrite length_take; unfold m in *; lia).
  rewrite <- (take_drop_middle _ _ _ Htk) at 3.
  rewrite !ext4_crc32c_ref. intros E.
  apply (crc_ref_one_byte 32) in E; [|lia|unfold CRC32C_POLY; lia|done|apply u32_range].
  rewrite u8_u8, !u8_id in E; [congruence| |lia].
  rewrite <- Hxv. apply byte_at_range.
Qed.

Lemma sum_min_chunks b n k :
  0 < b -> 0 <= n ->
  foldr Z.add 0 (map (fun g => Z.min b (n - Z.of_nat g * b)) (seq 0 k)) =
  Z.min (Z.of_nat k * b) n \/ n <= (Z.of_nat k - 1) * b.
Proof.
  intros Hb Hn. induction k as [|k IH]; [left; simpl; lia|].
  destruct (Z.le_gt_cases n (Z.of_nat k * b)) as [Hle|Hgt]; [right; lia|left].
  destruct IH as [IH|IH]; [|lia].
  rewrite seq_S, map_app, foldr_app. cbn [map foldr Nat.add].
  assert (F : forall l a, foldr Z.add a l = foldr Z.add 0 l + a).
  { induction l as [|x l IHl]; intros a; [done|]. simpl. rewrite IHl. lia. }
  rewrite F, IH. lia.
Qed.

(** ** Properties *)

(** C33: the block groups partition the volume.  For a superblock with blocks,
    groups of positive size and a group count that fits its 32-bit type, the
    sizes [ext4_blocks_in_group_cnt] gives to the [ext4_block_group_cnt] groups
    are all between 1 and [blocks_per_group] and add up to the block count; the
    32-bit product inside the function, which wraps on volumes above 2^32
    blocks, does no harm. *)
Theorem groups_partition_volume (s : list Z)
    (Hb : 0 < sb_get sb_blocks_per_group s)
    (Hn : 0 < ext4_sb_get_blocks_cnt s)
    (Hc : (ext4_sb_get_blocks_cnt s + sb_get sb_blocks_per_group s - 1) /
          sb_get sb_blocks_per_group s < 2 ^ 32) :
  (forall g, 0 <= g < ext4_block_group_cnt s ->
     1 <= ext4_blocks_in_group_cnt s g <= sb_get sb_blocks_per_group s) /\
  foldr Z.add 0 (map (fun g => ext4_blocks_in_group_cnt s (Z.of_nat g))
                     (seq 0 (Z.to_nat (ext4_block_group_cnt s)))) =
  ext4_sb_get_blocks_cnt s.
Proof.
  pose proof (blocks_in_group_value s) as V. cbv zeta in V.
  rewrite (block_group_cnt_ceil s Hb Hc).
  set (n := ext4_sb_get_blocks_cnt s) in *. set (b := sb_get sb_blocks_per_group s) in *.
  set (c := (n + b - 1) / b) in *.
  assert (Hcb : (c - 1) * b < n <= c * b) by (unfold c; Z.div_mod_to_equations; nia).
  split.
  - intros g Hg. rewrite V by done.
    assert (g * b <= (c - 1) * b) by (apply Z.mul_le_mono_nonneg_r; lia). lia.
  - rewrite (map_ext_in _ (fun g => Z.min b (n - Z.of_nat g * b))).
    + destruct (sum_min_chunks b n (Z.to_nat c) Hb ltac:(lia)) as [-> | ?]; [lia|nia].
    + intros g Hg%in_seq. apply V; lia.
Qed.

(** A 4 KiB-block volume of [n] blocks in groups of 32768. *)
Definition sb_example (n : Z) : list Z :=
  sb_set sb_log_block_size 2 (sb_set sb_blocks_per_group 32768
    (ext4_sb_set_blocks_cnt n (replicate 1024 0))).

Lemma groups_partition_volume_witness :
  let s := sb_example 100000 in
  0 < sb_get sb_blocks_per_group s /\
  foldr Z.add 0 (map (fun g => ext4_blocks_in_group_cnt s (Z.of_nat g))
                     (seq 0 (Z.to_nat (ext4_block_group_cnt s)))) = 100000.
Proof.
  split; [vm_compute; reflexivity|].
  refine (proj2 (groups_partition_volume (sb_example 100000) _ _ _)); vm_compute; reflexivity.
Defined.

(** Superblock backups are where ext4's sparse_super rule puts them:
    [ext4_sb_sparse] answers true exactly for groups 0 and 1 and the powers of
    3, 5 and 7, for every 32-bit group number; in particular the [while (1)] of
    [is_power_of] terminates. *)
Theorem sb_sparse_powers (group : Z) (Hg : 0 <= group < 2 ^ 32) :
  ext4_sb_sparse group = true <->
  group <= 1 \/
  exists b k, (b = 3 \/ b = 5 \/ b = 7) /\ 1 <= k /\ group = b ^ k.
Proof.
  unfold ext4_sb_sparse, is_power_of.
  assert (S : forall b, 2 <= b -> is_power_of_loop 33 group b = true <->
                        exists k, 1 <= k /\ group = b ^ k).
  { intros b Hb. apply is_power_of_loop_spec; [done|].
    change (2 ^ Z.of_nat 33) with (2 * 2 ^ 32). lia. }
  destruct (Z.leb_spec group 1) as [H1|H1]; [by split; [left|]|].
  change 1 with (Z.ones 1) at 1. rewrite Z.land_ones by lia. change (2 ^ 1) with 2.
  destruct (Z.eqb_spec (group mod 2) 0) as [He|Ho].
  - split; [done|]. intros [?|(b & k & Hb & Hk & ->)]; [lia|].
    rewrite <- Z.bit0_mod, Z.bit0_odd, odd_pow in He by (destruct_or! Hb; subst; done || lia). done.
  - rewrite !orb_true_iff, !S by lia. split.
    + intros [[(k & ? & ?)|(k & ? & ?)]|(k & ? & ?)]; right; eexists _, k; eauto.
    + intros [?|(b & k & Hb & Hk & E)]; [lia|]. destruct_or! Hb; subst b; eauto.
Qed.

Lemma sb_sparse_powers_witness : ext4_sb_sparse 343 = true /\ (343 <= 1 \/
  exists b k, (b = 3 \/ b = 5 \/ b = 7) /\ 1 <= k /\ 343 = b ^ k).
Proof.
  split; [reflexivity|]. apply (proj1 (sb_sparse_powers 343 ltac:(lia))). reflexivity.
Defined.

(** C34: the superblock checksum does its job.  After [ext4_sb_set_csum] a
    crc32c superblock verifies, with every covered field unchanged; and once a
    superblock verifies, changing any one of its bytes makes
    [ext4_sb_verify_csum] fail as long as the changed copy still claims the
    metadata_csum feature (without it the function accepts everything). *)
Theorem sb_csum_protects (s : list Z) (Hs : sb_wf s)
    (Hfeat : ext4_sb_feature_ro_com s EXT4_FRO_COM_METADATA_CSUM = true)
    (Htype : sb_get sb_checksum_type s = EXT4_CHECKSUM_CRC32C) :
  ext4_sb_verify_csum (ext4_sb_set_csum s) = true /\
  slice 0 1020 (ext4_sb_set_csum s) = slice 0 1020 s /\
  (ext4_sb_verify_csum s = true ->
   forall j v, 0 <= j < 1024 -> 0 <= v < 256 -> v <> byte_at s j ->
     ext4_sb_feature_ro_com (set_byte s j v) EXT4_FRO_COM_METADATA_CSUM = true ->
     ext4_sb_verify_csum (set_byte s j v) = false).
Proof.
  split; [|split].
  - apply sb_verify_set_csum; [apply Hs|done].
  - unfold ext4_sb_set_csum. rewrite Hfeat. cbn [negb].
    by rewrite slice_sb_set_out by (done || right; done).
  - unfold ext4_sb_verify_csum. rewrite Hfeat. cbn [negb]. intros Hv j v Hj Hvr Hne ->.
    cbn [negb]. destruct (sb_get sb_checksum_type (set_byte s j v) =? _); [|done].
    cbn [negb]. rewrite Htype in Hv. cbn [negb Z.eqb EXT4_CHECKSUM_CRC32C Pos.eqb] in Hv.
    apply Z.eqb_eq in Hv. apply Z.eqb_neq. destruct (Z.lt_ge_cases j 1020) as [Hlt|Hge].
    + pose proof (sb_csum_one_byte s j v Hs ltac:(lia) Hvr Hne) as Hc.
      unfold sb_get, rd in *. rewrite (get_le_ext _ _ _ s), Hv; [congruence|].
      intros i Hi. cbn [f_off f_size sb_checksum] in Hi. apply byte_at_set_byte_ne; lia.
    + unfold ext4_sb_csum. rewrite slice_set_byte_out by (cbn; lia).
      fold (ext4_sb_csum s). rewrite <- Hv. unfold sb_get, rd.
      change (Z.to_nat (f_size sb_checksum)) with 4%nat. change (0 + f_off sb_checksum) with 1020.
      destruct Hs as [Hl _]. unfold EXT4_SUPERBLOCK_SIZE in Hl.
      cbn [get_le]. rewrite !byte_at_set_byte by lia.
      rewrite u8_id by done.
      pose proof (byte_at_range s 1020). pose proof (byte_at_range s (1020 + 1)).
      pose proof (byte_at_range s (1020 + 1 + 1)).
      pose proof (byte_at_range s (1020 + 1 + 1 + 1)).
      repeat match goal with
             | |- context [?a =? ?b] => destruct (Z.eqb_spec a b); [try subst j|]
             end; lia.
Qed.

Definition sb_csum_example : list Z :=
  ext4_sb_set_csum (sb_set sb_features_read_only 0x400 (sb_set sb_checksum_type 1
    (sb_example 100000))).
Lemma sb_csum_protects_witness :
  ext4_sb_verify_csum (set_byte sb_csum_example 4 17) = false.
Proof.
  refine (proj2 (proj2 (sb_csum_protects sb_csum_example _ _ _)) _ 4 17 _ _ _ _);
    try (vm_compute; reflexivity); try lia.
  - apply (bool_decide_unpack _). vm_compute. exact I.
  - vm_compute. discriminate.
Defined.
