(* ===== verification/BlockGroup.v ===== *)
(** * Block group descriptors

    Core/lwext4/include/ext4_block_group.h (accessors) and
    [ext4_fs_bg_checksum], [ext4_fs_verify_bg_csum] of Core/lwext4/src/ext4_fs.c.
    A descriptor is a pointer into a descriptor block: the buffer [b] and the
    byte [p] it starts at.  The C accessors come in two shapes, 32-bit and
    16-bit halves, the high half used only by descriptors longer than 32 bytes;
    each shape is written once here. *)

From S2P Require Import Prelude Layout Types Crc Super.

Definition bg_wide (s : list Z) : bool :=
  EXT4_MIN_BLOCK_GROUP_DESCRIPTOR_SIZE <? ext4_sb_get_desc_size s.

Definition bg_get32 (lo hi : field) (p : Z) (b s : list Z) : Z :=
  let v := rd lo p b in
  if bg_wide s then Z.lor v (u64 (Z.shiftl (rd hi p b) 32)) else v.
Definition bg_set32 (lo hi : field) (p : Z) (s : list Z) (v : Z) (b : list Z) : list Z :=
  let b := wr lo p (u32 v) b in
  if bg_wide s then wr hi p (Z.shiftr v 32) b else b.
Definition bg_get16 (lo hi : field) (p : Z) (b s : list Z) : Z :=
  let v := rd lo p b in
  if bg_wide s then Z.lor v (u32 (Z.shiftl (rd hi p b) 16)) else v.
Definition bg_set16 (lo hi : field) (p : Z) (s : list Z) (v : Z) (b : list Z) : list Z :=
  let b := wr lo p (Z.shiftr (u32 (Z.shiftl v 16)) 16) b in
  if bg_wide s then wr hi p (Z.shiftr v 16) b else b.

Definition ext4_bg_get_block_bitmap := bg_get32 bg_block_bitmap_lo bg_block_bitmap_hi.
Definition ext4_bg_set_block_bitmap := bg_set32 bg_block_bitmap_lo bg_block_bitmap_hi.
Definition ext4_bg_get_inode_bitmap := bg_get32 bg_inode_bitmap_lo bg_inode_bitmap_hi.
Definition ext4_bg_set_inode_bitmap := bg_set32 bg_inode_bitmap_lo bg_inode_bitmap_hi.
Definition ext4_bg_get_inode_table_first_block :=
  bg_get32 bg_inode_table_first_block_lo bg_inode_table_first_block_hi.
Definition ext4_bg_set_inode_table_first_block :=
  bg_set32 bg_inode_table_first_block_lo bg_inode_table_first_block_hi.
Definition ext4_bg_get_free_blocks_count :=
  bg_get16 bg_free_blocks_count_lo bg_free_blocks_count_hi.
Definition ext4_bg_set_free_blocks_count :=
  bg_set16 bg_free_blocks_count_lo bg_free_blocks_count_hi.
Definition ext4_bg_get_free_inodes_count :=
  bg_get16 bg_free_inodes_count_lo bg_free_inodes_count_hi.
Definition ext4_bg_set_free_inodes_count :=
  bg_set16 bg_free_inodes_count_lo bg_free_inodes_count_hi.
Definition ext4_bg_get_used_dirs_count := bg_get16 bg_used_dirs_count_lo bg_used_dirs_count_hi.
Definition ext4_bg_set_used_dirs_count := bg_set16 bg_used_dirs_count_lo bg_used_dirs_count_hi.
Definition ext4_bg_get_itable_unused := bg_get16 bg_itable_unused_lo bg_itable_unused_hi.
Definition ext4_bg_set_itable_unused := bg_set16 bg_itable_unused_lo bg_itable_unused_hi.

Definition ext4_bg_set_checksum (p crc : Z) (b : list Z) : list Z := wr bg_checksum p crc b.
Definition ext4_bg_has_flag (p : Z) (b : list Z) (f : Z) : bool := has_bits (rd bg_flags p b) f.
Definition ext4_bg_set_flag (p f : Z) (b : list Z) : list Z :=
  wr bg_flags p (u16 (Z.lor (rd bg_flags p b) f)) b.
Definition ext4_bg_clear_flag (p f : Z) (b : list Z) : list Z :=
  wr bg_flags p (u16 (Z.land (rd bg_flags p b) (u32 (Z.lnot f)))) b.

(** The bytes of a little-endian 32-bit integer in memory. *)
Definition le32_bytes (v : Z) : list Z := set_le 4 0 v [0; 0; 0; 0].

(** The stored checksum is zeroed for the crc32c sum and put back afterwards, so
    the buffer itself does not change. *)
Definition ext4_fs_bg_checksum (sb : list Z) (bgid p : Z) (b : list Z) : Z :=
  if ext4_sb_feature_ro_com sb EXT4_FRO_COM_METADATA_CSUM then
    let checksum := ext4_sb_csum_seed sb in
    let checksum := ext4_crc32c checksum (le32_bytes bgid) in
    let checksum :=
      ext4_crc32c checksum (slice p (ext4_sb_get_desc_size sb) (wr bg_checksum p 0 b)) in
    Z.land checksum 0xFFFF
  else if ext4_sb_feature_ro_com sb EXT4_FRO_COM_GDT_CSUM then
    let offset := f_off bg_checksum in
    let crc := ext4_bg_crc16 (Z.lnot 0) (ext4_sb_uuid sb) in
    let crc := ext4_bg_crc16 crc (le32_bytes bgid) in
    let crc := ext4_bg_crc16 crc (slice p offset b) in
    let offset := offset + f_size bg_checksum in
    if ext4_sb_feature_incom sb EXT4_FINCOM_64BIT && (offset <? ext4_sb_get_desc_size sb)
    then ext4_bg_crc16 crc (slice (p + offset) (ext4_sb_get_desc_size sb - offset) b)
    else crc
  else 0.

Definition ext4_fs_verify_bg_csum (sb : list Z) (bgid p : Z) (b : list Z) : bool :=
  if negb (ext4_sb_feature_ro_com sb EXT4_FRO_COM_METADATA_CSUM) then true
  else ext4_fs_bg_checksum sb bgid p b =? rd bg_checksum p b.

(** ** The descriptor as the rest of the driver sees it *)

(** The bytes a descriptor owns. *)
Definition bg_size (s : list Z) : Z := if bg_wide s then 64 else 32.

Record bgdesc := mk_bgdesc {
  d_block_bitmap : Z;
  d_inode_bitmap : Z;
  d_inode_table : Z;
  d_free_blocks : Z;
  d_free_inodes : Z;
  d_used_dirs : Z;
  d_itable_unused : Z;
  d_flags : Z;
}.

Definition bg_abs (s : list Z) (p : Z) (b : list Z) : bgdesc :=
  mk_bgdesc (ext4_bg_get_block_bitmap p b s) (ext4_bg_get_inode_bitmap p b s)
    (ext4_bg_get_inode_table_first_block p b s) (ext4_bg_get_free_blocks_count p b s)
    (ext4_bg_get_free_inodes_count p b s) (ext4_bg_get_used_dirs_count p b s)
    (ext4_bg_get_itable_unused p b s) (rd bg_flags p b).

Lemma blen_bg_set16 lo hi p s v b : blen (bg_set16 lo hi p s v b) = blen b.
Proof. unfold bg_set16. destruct (bg_wide s); by rewrite !blen_wr. Qed.
Lemma blen_bg_set32 lo hi p s v b : blen (bg_set32 lo hi p s v b) = blen b.
Proof. unfold bg_set32. destruct (bg_wide s); by rewrite !blen_wr. Qed.
#[export] Hint Rewrite blen_bg_set16 blen_bg_set32 : struct.

(** A counter of 16-bit halves holds 16 bits in a short descriptor, 32 in a long
    one. *)
Definition bg_cnt_width (s : list Z) : Z := if bg_wide s then 32 else 16.
Definition bg_addr_width (s : list Z) : Z := if bg_wide s then 64 else 32.

Section Halves.
Context (lo hi : field) (s : list Z) (p : Z) (b : list Z).
Context (Hp : 0 <= p) (Hb : p + bg_size s <= blen b).
Context (Hlo : f_within 32 lo = true) (Hhi : f_within 64 hi = true) (Hd : f_disj lo hi = true).

Lemma bg_get_set16 v :
  f_size lo = 2 -> f_size hi = 2 -> 0 <= v < 2 ^ 32 ->
  bg_get16 lo hi p (bg_set16 lo hi p s v b) s = v mod 2 ^ bg_cnt_width s.
Proof.
  intros Sl Sh Hv. unfold bg_get16, bg_set16, bg_cnt_width, bg_size in *.
  assert (Hw : f_within 64 lo = true) by (unfold f_within in *; lia).
  assert (Hd' : f_disj hi lo = true) by (unfold f_disj in *; lia).
  destruct (bg_wide s).
  - rewrite (rd_wr_eq hi _ _ _ 64), Sh by (done || (rewrite blen_wr; lia)).
    rewrite (rd_wr_ne hi), (rd_wr_eq lo _ _ _ 64), Sl by done.
    rewrite (Z.mod_small v) by lia. by apply u32_join16.
  - rewrite (rd_wr_eq lo _ _ _ 32), Sl by done. unfold u32.
    change 4294967296 with (2 ^ (16 + 16)).
    destruct (mod_shiftl_shiftr 16 16 v) as [-> |]; [lia..| |lia].
    by rewrite Z.mod_mod by lia.
Qed.

Lemma bg_get_set32 v :
  f_size lo = 4 -> f_size hi = 4 -> 0 <= v < 2 ^ 64 ->
  bg_get32 lo hi p (bg_set32 lo hi p s v b) s = v mod 2 ^ bg_addr_width s.
Proof.
  intros Sl Sh Hv. unfold bg_get32, bg_set32, bg_addr_width, bg_size in *.
  assert (Hw : f_within 64 lo = true) by (unfold f_within in *; lia).
  assert (Hd' : f_disj hi lo = true) by (unfold f_disj in *; lia).
  destruct (bg_wide s).
  - rewrite (rd_wr_eq hi _ _ _ 64), Sh by (done || (rewrite blen_wr; lia)).
    rewrite (rd_wr_ne hi), (rd_wr_eq lo _ _ _ 64), Sl by done.
    rewrite (Z.mod_small v) by lia. unfold u32. change 4294967296 with (2 ^ 32).
    change (2 ^ (8 * 4)) with (2 ^ 32). rewrite Z.mod_mod by lia.
    rewrite (Z.mod_small (Z.shiftr v 32)).
    2: { rewrite Z.shiftr_div_pow2 by lia. split; [apply Z.div_pos; lia|].
         apply Z.div_lt_upper_bound; lia. }
    unfold u64. rewrite (Z.mod_small (Z.shiftl _ 32)).
    + rewrite Z.lor_comm. apply (join_split 32); lia.
    + rewrite Z.shiftl_mul_pow2, Z.shiftr_div_pow2 by lia. dlia.
  - rewrite (rd_wr_eq lo _ _ _ 32), Sl by done. unfold u32.
    change 4294967296 with (2 ^ 32). change (2 ^ (8 * 4)) with (2 ^ 32).
    by rewrite Z.mod_mod by lia.
Qed.

(** Nothing outside the descriptor changes. *)
Lemma bg_set16_out v j :
  0 <= j -> j < p \/ p + bg_size s <= j -> byte_at (bg_set16 lo hi p s v b) j = byte_at b j.
Proof.
  intros Hj Ho. unfold bg_set16, bg_size in *. destruct (bg_wide s).
  - rewrite (byte_at_wr_out _ _ _ _ _ 64), (byte_at_wr_out _ _ _ _ _ 32) by (done || lia). done.
  - by rewrite (byte_at_wr_out _ _ _ _ _ 32) by (done || lia).
Qed.
Lemma bg_set32_out v j :
  0 <= j -> j < p \/ p + bg_size s <= j -> byte_at (bg_set32 lo hi p s v b) j = byte_at b j.
Proof.
  intros Hj Ho. unfold bg_set32, bg_size in *. destruct (bg_wide s).
  - rewrite (byte_at_wr_out _ _ _ _ _ 64), (byte_at_wr_out _ _ _ _ _ 32) by (done || lia). done.
  - by rewrite (byte_at_wr_out _ _ _ _ _ 32) by (done || lia).
Qed.

(** A field that is neither half keeps its value. *)
Lemma rd_bg_set16_ne f v :
  f_disj lo f = true -> f_disj hi f = true -> rd f p (bg_set16 lo hi p s v b) = rd f p b.
Proof. intros. unfold bg_set16. destruct (bg_wide s); by rewrite !rd_wr_ne. Qed.
Lemma rd_bg_set32_ne f v :
  f_disj lo f = true -> f_disj hi f = true -> rd f p (bg_set32 lo hi p s v b) = rd f p b.
Proof. intros. unfold bg_set32. destruct (bg_wide s); by rewrite !rd_wr_ne. Qed.
End Halves.
#[export] Hint Rewrite rd_bg_set16_ne rd_bg_set32_ne using (first [reflexivity | lia]) : struct.

(** A call of a setter.  Flags are [uint32_t] arguments. *)
Inductive bg_op : Type :=
| BgBlockBitmap (v : Z) | BgInodeBitmap (v : Z) | BgInodeTable (v : Z)
| BgFreeBlocks (v : Z) | BgFreeInodes (v : Z) | BgUsedDirs (v : Z) | BgItableUnused (v : Z)
| BgSetFlag (f : Z) | BgClearFlag (f : Z) | BgChecksum (c : Z).

Definition run_bg_op (s : list Z) (p : Z) (o : bg_op) (b : list Z) : list Z :=
  match o with
  | BgBlockBitmap v => ext4_bg_set_block_bitmap p s v b
  | BgInodeBitmap v => ext4_bg_set_inode_bitmap p s v b
  | BgInodeTable v => ext4_bg_set_inode_table_first_block p s v b
  | BgFreeBlocks v => ext4_bg_set_free_blocks_count p s v b
  | BgFreeInodes v => ext4_bg_set_free_inodes_count p s v b
  | BgUsedDirs v => ext4_bg_set_used_dirs_count p s v b
  | BgItableUnused v => ext4_bg_set_itable_unused p s v b
  | BgSetFlag f => ext4_bg_set_flag p f b
  | BgClearFlag f => ext4_bg_clear_flag p f b
  | BgChecksum c => ext4_bg_set_checksum p c b
  end.
Definition bg_op_ok (o : bg_op) : bool :=
  let w n v := (0 <=? v) && (v <? 2 ^ n) in
  match o with
  | BgBlockBitmap v | BgInodeBitmap v | BgInodeTable v => w 64 v
  | BgFreeBlocks v | BgFreeInodes v | BgUsedDirs v | BgItableUnused v => w 32 v
  | BgSetFlag f | BgClearFlag f => w 32 f
  | BgChecksum c => w 16 c
  end.

(** What it does to the abstract descriptor: a short descriptor keeps the low
    half of a value, the flags keep 16 bits.  The checksum is not part of it. *)
Definition step_bg (s : list Z) (o : bg_op) (d : bgdesc) : bgdesc :=
  let '(mk_bgdesc bb ib it fb fi ud iu fl) := d in
  let addr v := v mod 2 ^ bg_addr_width s in
  let cnt v := v mod 2 ^ bg_cnt_width s in
  match o with
  | BgBlockBitmap v => mk_bgdesc (addr v) ib it fb fi ud iu fl
  | BgInodeBitmap v => mk_bgdesc bb (addr v) it fb fi ud iu fl
  | BgInodeTable v => mk_bgdesc bb ib (addr v) fb fi ud iu fl
  | BgFreeBlocks v => mk_bgdesc bb ib it (cnt v) fi ud iu fl
  | BgFreeInodes v => mk_bgdesc bb ib it fb (cnt v) ud iu fl
  | BgUsedDirs v => mk_bgdesc bb ib it fb fi (cnt v) iu fl
  | BgItableUnused v => mk_bgdesc bb ib it fb fi ud (cnt v) fl
  | BgSetFlag f => mk_bgdesc bb ib it fb fi ud iu (u16 (Z.lor fl f))
  | BgClearFlag f => mk_bgdesc bb ib it fb fi ud iu (Z.ldiff fl f)
  | BgChecksum c => d
  end.

Ltac unfold_bg :=
  unfold ext4_bg_set_block_bitmap, ext4_bg_set_inode_bitmap,
    ext4_bg_set_inode_table_first_block, ext4_bg_set_free_blocks_count,
    ext4_bg_set_free_inodes_count, ext4_bg_set_used_dirs_count, ext4_bg_set_itable_unused,
    ext4_bg_set_flag, ext4_bg_clear_flag, ext4_bg_set_checksum,
    ext4_bg_get_block_bitmap, ext4_bg_get_inode_bitmap, ext4_bg_get_inode_table_first_block,
    ext4_bg_get_free_blocks_count, ext4_bg_get_free_inodes_count, ext4_bg_get_used_dirs_count,
    ext4_bg_get_itable_unused.

(** A half that is neither of the two written. *)
Definition halves_disj (lo hi lo' hi' : field) : bool :=
  f_disj lo lo' && f_disj lo hi' && f_disj hi lo' && f_disj hi hi'.

Lemma mk_bgdesc_eq a1 a2 a3 a4 a5 a6 a7 a8 b1 b2 b3 b4 b5 b6 b7 b8 :
  a1 = b1 -> a2 = b2 -> a3 = b3 -> a4 = b4 -> a5 = b5 -> a6 = b6 -> a7 = b7 -> a8 = b8 ->
  mk_bgdesc a1 a2 a3 a4 a5 a6 a7 a8 = mk_bgdesc b1 b2 b3 b4 b5 b6 b7 b8.
Proof. by intros -> -> -> -> -> -> -> ->. Qed.

Section BgOps.
Context (s : list Z) (p : Z) (b : list Z) (Hp : 0 <= p) (Hb : p + bg_size s <= blen b).

(** Reading the other fields after a store of [lo] and [hi], or of one field. *)
Lemma bg_get_ne lo' hi' lo hi b' :
  (forall f, f_disj lo f = true -> f_disj hi f = true -> rd f p b' = rd f p b) ->
  halves_disj lo hi lo' hi' = true ->
  bg_get16 lo' hi' p b' s = bg_get16 lo' hi' p b s /\
  bg_get32 lo' hi' p b' s = bg_get32 lo' hi' p b s.
Proof.
  intros H Hd. unfold halves_disj in Hd. rewrite !andb_true_iff in Hd.
  destruct Hd as [[[H1 H2] H3] H4]. unfold bg_get16, bg_get32. by rewrite !H by done.
Qed.

Lemma bg_get_set16_ne lo' hi' lo hi v :
  halves_disj lo hi lo' hi' = true ->
  bg_get16 lo' hi' p (bg_set16 lo hi p s v b) s = bg_get16 lo' hi' p b s /\
  bg_get32 lo' hi' p (bg_set16 lo hi p s v b) s = bg_get32 lo' hi' p b s.
Proof. apply bg_get_ne. intros. by apply rd_bg_set16_ne. Qed.
Lemma bg_get_set32_ne lo' hi' lo hi v :
  halves_disj lo hi lo' hi' = true ->
  bg_get16 lo' hi' p (bg_set32 lo hi p s v b) s = bg_get16 lo' hi' p b s /\
  bg_get32 lo' hi' p (bg_set32 lo hi p s v b) s = bg_get32 lo' hi' p b s.
Proof. apply bg_get_ne. intros. by apply rd_bg_set32_ne. Qed.
Lemma bg_get_wr_ne lo' hi' f v :
  halves_disj f f lo' hi' = true ->
  bg_get16 lo' hi' p (wr f p v b) s = bg_get16 lo' hi' p b s /\
  bg_get32 lo' hi' p (wr f p v b) s = bg_get32 lo' hi' p b s.
Proof. apply bg_get_ne. intros. by apply rd_wr_ne. Qed.

Ltac bg_side :=
  lazymatch goal with
  | |- 0 <= p => exact Hp
  | |- p + _ <= _ => exact Hb
  | |- _ = _ => reflexivity
  | |- _ => lia
  end.
(** One component of the abstract descriptor after a store. *)
Ltac bg_field :=
  lazymatch goal with
  | |- bg_get16 ?lo ?hi _ (bg_set16 ?lo ?hi _ _ _ _) _ = _ =>
      apply bg_get_set16; bg_side
  | |- bg_get32 ?lo ?hi _ (bg_set32 ?lo ?hi _ _ _ _) _ = _ =>
      apply bg_get_set32; bg_side
  | |- bg_get16 _ _ _ (bg_set16 _ _ _ _ _ _) _ = _ => refine (proj1 (bg_get_set16_ne _ _ _ _ _ _)); reflexivity
  | |- bg_get32 _ _ _ (bg_set16 _ _ _ _ _ _) _ = _ => refine (proj2 (bg_get_set16_ne _ _ _ _ _ _)); reflexivity
  | |- bg_get16 _ _ _ (bg_set32 _ _ _ _ _ _) _ = _ => refine (proj1 (bg_get_set32_ne _ _ _ _ _ _)); reflexivity
  | |- bg_get32 _ _ _ (bg_set32 _ _ _ _ _ _) _ = _ => refine (proj2 (bg_get_set32_ne _ _ _ _ _ _)); reflexivity
  | |- bg_get16 _ _ _ (wr _ _ _ _) _ = _ => refine (proj1 (bg_get_wr_ne _ _ _ _ _)); reflexivity
  | |- bg_get32 _ _ _ (wr _ _ _ _) _ = _ => refine (proj2 (bg_get_wr_ne _ _ _ _ _)); reflexivity
  | |- rd _ _ (bg_set16 _ _ _ _ _ _) = _ => apply rd_bg_set16_ne; bg_side
  | |- rd _ _ (bg_set32 _ _ _ _ _ _) = _ => apply rd_bg_set32_ne; bg_side
  | |- _ => idtac
  end.

Lemma bg_op_len o : blen (run_bg_op s p o b) = blen b.
Proof. destruct o; cbn [run_bg_op]; unfold_bg; by autorewrite with struct. Qed.

Lemma bg_op_out o j :
  0 <= j -> j < p \/ p + bg_size s <= j -> byte_at (run_bg_op s p o b) j = byte_at b j.
Proof.
  intros Hj Ho. assert (32 <= bg_size s) by (unfold bg_size; case_match; lia).
  destruct o; cbn [run_bg_op]; unfold_bg; first
    [ apply bg_set16_out; done | apply bg_set32_out; done
    | apply (byte_at_wr_out _ _ _ _ _ 32); done || lia ].
Qed.

Lemma bg_op_abs o :
  bg_op_ok o = true -> bg_abs s p (run_bg_op s p o b) = step_bg s o (bg_abs s p b).
Proof.
  intros Hok. assert (Hsz : 32 <= bg_size s) by (unfold bg_size; case_match; lia).
  destruct o as [v|v|v|v|v|v|v|f|f|c]; cbn [run_bg_op bg_op_ok] in Hok |- *;
    unfold bg_abs, step_bg; unfold_bg; apply mk_bgdesc_eq; bg_field.
  - pose proof (rd_range bg_flags p b ltac:(done)) as Hr. change (8 * _) with 16 in Hr.
    rewrite (rd_wr_eq _ _ _ _ 32) by (reflexivity || lia). change (8 * _) with 16.
    apply Z.mod_mod. lia.
  - pose proof (rd_range bg_flags p b ltac:(done)) as Hr. change (8 * _) with 16 in Hr.
    rewrite (rd_wr_eq _ _ _ _ 32) by (reflexivity || lia). change (8 * _) with 16.
    rewrite land_lnot_u32 by lia.
    assert (Hl : 0 <= Z.ldiff (rd bg_flags p b) f < 2 ^ 16) by (by apply (ldiff_range 16)).
    rewrite u16_id by lia. by apply Z.mod_small.
  - apply rd_wr_ne; [reflexivity|done].
Qed.
End BgOps.

(** ** Properties *)

(** C31: the descriptor setters implement the updates of the abstract
    descriptor.  Any sequence of setter calls with arguments of their C types, on
    a descriptor inside the buffer, takes the abstract descriptor to the result
    of the corresponding abstract updates (a 32-byte descriptor keeps the low
    half of a value, a longer one all of it; flags come as 32 bits and the field
    keeps 16; the checksum is no part of the abstract descriptor), and changes no byte outside the descriptor: the setters
    of a 32-byte descriptor never reach the next one. *)
Theorem bg_setters_refine (s : list Z) (p : Z) (b : list Z) (l : list bg_op)
    (Hp : 0 <= p) (Hb : p + bg_size s <= blen b) (Hl : forallb bg_op_ok l = true) :
  let b' := fold_left (fun b o => run_bg_op s p o b) l b in
  bg_abs s p b' = fold_left (fun d o => step_bg s o d) l (bg_abs s p b) /\
  blen b' = blen b /\
  forall j, 0 <= j -> j < p \/ p + bg_size s <= j -> byte_at b' j = byte_at b j.
Proof.
  cbv zeta. revert b Hb. induction l as [|o l IH]; intros b Hb; [done|].
  cbn [forallb fold_left] in *. apply andb_true_iff in Hl as [Ho Hl].
  pose proof (bg_op_len s p b o) as Hlen.
  destruct (IH Hl (run_bg_op s p o b) ltac:(lia)) as (I1 & I2 & I3).
  split_and!; [by rewrite I1, bg_op_abs|lia|].
  intros j Hj Hr. by rewrite I3, bg_op_out.
Qed.

Lemma bg_setters_refine_witness :
  let s := sb_example 100000 in
  let l := [BgFreeBlocks 0x12345; BgClearFlag 0x1FFFB; BgSetFlag 0x30001] in
  let b' := fold_left (fun b o => run_bg_op s 32 o b) l (replicate 96 0xFF) in
  d_free_blocks (bg_abs s 32 b') = 0x2345 /\ d_flags (bg_abs s 32 b') = 5 /\ byte_at b' 64 = 0xFF.
Proof.
  cbv zeta. destruct (bg_setters_refine (sb_example 100000) 32 (replicate 96 0xFF)
    [BgFreeBlocks 0x12345; BgClearFlag 0x1FFFB; BgSetFlag 0x30001]
    ltac:(lia) ltac:(vm_compute; discriminate) ltac:(reflexivity)) as (E & _ & O).
  rewrite E, O; [|lia|vm_compute; right; discriminate].
  split_and!; vm_compute; reflexivity.
Defined.
