(* ===== verification/Inode.v ===== *)
(** * On-disk inodes

    Core/lwext4/src/ext4_inode.c.  An inode is a pointer into an inode table
    block: the buffer [b] and the byte [p] at which the inode starts; [s] is the
    superblock.  The accessors are followed by an abstract inode record and the
    updates of it that the setters implement. *)

From S2P Require Import Prelude Layout Types Super.

(** [do { bits++; size >>= 1; } while (size > 256)]: a turn halves [size]. *)
Fixpoint inode_block_bits_loop (fuel : nat) (bits size : Z) : Z :=
  match fuel with
  | O => bits
  | S fuel =>
      let bits := u32 (bits + 1) in
      let size := Z.shiftr size 1 in
      if 256 <? size then inode_block_bits_loop fuel bits size else bits
  end.
Definition ext4_inode_block_bits_count (block_size : Z) : Z :=
  inode_block_bits_loop 32 8 block_size.

(** [osd2.hurd2.mode_high], the second 16-bit word of the union. *)
Definition ino_hurd_mode_high : field := Eval vm_compute in mk_field (f_off ino_blocks_high + 2) 2.
(** [inode->blocks[idx]]. *)
Definition ino_block (idx : Z) : field := mk_field (f_off ino_blocks + 4 * idx) 4.

Definition ext4_inode_get_mode (s : list Z) (p : Z) (b : list Z) : Z :=
  let v := rd ino_mode p b in
  if sb_get sb_creator_os s =? EXT4_SUPERBLOCK_OS_HURD
  then Z.lor v (u32 (Z.shiftl (rd ino_hurd_mode_high p b) 16)) else v.

Definition ext4_inode_set_mode (s : list Z) (p mode : Z) (b : list Z) : list Z :=
  let b := wr ino_mode p (Z.shiftr (u32 (Z.shiftl mode 16)) 16) b in
  if sb_get sb_creator_os s =? EXT4_SUPERBLOCK_OS_HURD
  then wr ino_hurd_mode_high p (Z.shiftr mode 16) b else b.

Definition ext4_inode_get_uid (p : Z) (b : list Z) : Z := rd ino_uid p b.
Definition ext4_inode_set_uid (p uid : Z) (b : list Z) : list Z := wr ino_uid p uid b.

Definition ext4_inode_type (s : list Z) (p : Z) (b : list Z) : Z :=
  Z.land (ext4_inode_get_mode s p b) EXT4_INODE_MODE_TYPE_MASK.
Definition ext4_inode_is_type (s : list Z) (p : Z) (b : list Z) (type : Z) : bool :=
  ext4_inode_type s p b =? type.

Definition ext4_inode_get_size (s : list Z) (p : Z) (b : list Z) : Z :=
  let v := rd ino_size_lo p b in
  if (0 <? sb_get sb_rev_level s) && ext4_inode_is_type s p b EXT4_INODE_MODE_FILE
  then Z.lor v (u64 (Z.shiftl (rd ino_size_hi p b) 32)) else v.
Definition ext4_inode_set_size (p size : Z) (b : list Z) : list Z :=
  let b := wr ino_size_lo p (Z.shiftr (u64 (Z.shiftl size 32)) 32) b in
  wr ino_size_hi p (Z.shiftr size 32) b.

Definition ext4_inode_get_csum (s : list Z) (p : Z) (b : list Z) : Z :=
  let inode_size := sb_get sb_inode_size s in
  let v := rd ino_checksum_lo p b in
  if EXT4_GOOD_OLD_INODE_SIZE <? inode_size
  then Z.lor v (u32 (Z.shiftl (rd ino_checksum_hi p b) 16)) else v.
Definition ext4_inode_set_csum (s : list Z) (p checksum : Z) (b : list Z) : list Z :=
  let inode_size := sb_get sb_inode_size s in
  let b := wr ino_checksum_lo p (Z.shiftr (u32 (Z.shiftl checksum 16)) 16) b in
  if EXT4_GOOD_OLD_INODE_SIZE <? inode_size
  then wr ino_checksum_hi p (Z.shiftr checksum 16) b else b.

Definition ext4_inode_get_access_time (p : Z) (b : list Z) : Z := rd ino_access_time p b.
Definition ext4_inode_set_access_time (p time : Z) (b : list Z) : list Z :=
  wr ino_access_time p time b.
Definition ext4_inode_get_change_inode_time (p : Z) (b : list Z) : Z :=
  rd ino_change_inode_time p b.
Definition ext4_inode_set_change_inode_time (p time : Z) (b : list Z) : list Z :=
  wr ino_change_inode_time p time b.
Definition ext4_inode_get_modif_time (p : Z) (b : list Z) : Z := rd ino_modification_time p b.
Definition ext4_inode_set_modif_time (p time : Z) (b : list Z) : list Z :=
  wr ino_modification_time p time b.
Definition ext4_inode_get_del_time (p : Z) (b : list Z) : Z := rd ino_deletion_time p b.
Definition ext4_inode_set_del_time (p time : Z) (b : list Z) : list Z :=
  wr ino_deletion_time p time b.

Definition ext4_inode_get_gid (p : Z) (b : list Z) : Z := rd ino_gid p b.
Definition ext4_inode_set_gid (p gid : Z) (b : list Z) : list Z := wr ino_gid p gid b.
Definition ext4_inode_get_links_cnt (p : Z) (b : list Z) : Z := rd ino_links_count p b.
Definition ext4_inode_set_links_cnt (p cnt : Z) (b : list Z) : list Z :=
  wr ino_links_count p cnt b.

Definition ext4_inode_get_flags (p : Z) (b : list Z) : Z := rd ino_flags p b.
Definition ext4_inode_set_flags (p flags : Z) (b : list Z) : list Z := wr ino_flags p flags b.
Definition ext4_inode_has_flag (p : Z) (b : list Z) (f : Z) : bool :=
  has_bits (ext4_inode_get_flags p b) f.
Definition ext4_inode_clear_flag (p f : Z) (b : list Z) : list Z :=
  let flags := ext4_inode_get_flags p b in
  let flags := Z.land flags (u32 (Z.lnot f)) in
  ext4_inode_set_flags p flags b.
Definition ext4_inode_set_flag (p f : Z) (b : list Z) : list Z :=
  let flags := ext4_inode_get_flags p b in
  let flags := Z.lor flags f in
  ext4_inode_set_flags p flags b.

Definition ext4_inode_get_blocks_count (s : list Z) (p : Z) (b : list Z) : Z :=
  let cnt := rd ino_blocks_count_lo p b in
  if ext4_sb_feature_ro_com s EXT4_FRO_COM_HUGE_FILE then
    let cnt := Z.lor cnt (u64 (Z.shiftl (rd ino_blocks_high p b) 32)) in
    if ext4_inode_has_flag p b EXT4_INODE_FLAG_HUGE_FILE then
      let block_count := ext4_sb_get_block_size s in
      let bits := ext4_inode_block_bits_count block_count in
      u64 (Z.shiftl cnt (u32 (bits - 9)))
    else cnt
  else cnt.

(** The store into the inode, or the error code. *)
Definition ext4_inode_set_blocks_count (s : list Z) (p count : Z) (b : list Z)
  : result (list Z) :=
  let max := Z.shiftr (u64 (Z.lnot 0)) 32 in
  if count <=? max then
    let b := wr ino_blocks_count_lo p (u32 count) b in
    let b := wr ino_blocks_high p 0 b in
    Ok (ext4_inode_clear_flag p EXT4_INODE_FLAG_HUGE_FILE b)
  else if negb (ext4_sb_feature_ro_com s EXT4_FRO_COM_HUGE_FILE) then Err EINVAL
  else
    let max := Z.shiftr (u64 (Z.lnot 0)) 16 in
    if count <=? max then
      let b := wr ino_blocks_count_lo p (u32 count) b in
      let b := wr ino_blocks_high p (u16 (Z.shiftr count 32)) b in
      Ok (ext4_inode_clear_flag p EXT4_INODE_FLAG_HUGE_FILE b)
    else
      let block_count := ext4_sb_get_block_size s in
      let block_bits := ext4_inode_block_bits_count block_count in
      let b := ext4_inode_set_flag p EXT4_INODE_FLAG_HUGE_FILE b in
      let count := Z.shiftr count (u32 (block_bits - 9)) in
      let b := wr ino_blocks_count_lo p (u32 count) b in
      Ok (wr ino_blocks_high p (u16 (Z.shiftr count 32)) b).

Definition ext4_inode_get_generation (p : Z) (b : list Z) : Z := rd ino_generation p b.
Definition ext4_inode_set_generation (p gen : Z) (b : list Z) : list Z :=
  wr ino_generation p gen b.

Definition ext4_inode_get_extra_isize (s : list Z) (p : Z) (b : list Z) : Z :=
  let inode_size := sb_get sb_inode_size s in
  if EXT4_GOOD_OLD_INODE_SIZE <? inode_size then rd ino_extra_isize p b else 0.
Definition ext4_inode_set_extra_isize (s : list Z) (p size : Z) (b : list Z) : list Z :=
  let inode_size := sb_get sb_inode_size s in
  if EXT4_GOOD_OLD_INODE_SIZE <? inode_size then wr ino_extra_isize p size b else b.

(** The reader shifts the high half by 16, the writer stores [acl >> 32]. *)
Definition ext4_inode_get_file_acl (p : Z) (b s : list Z) : Z :=
  let v := rd ino_file_acl_lo p b in
  if sb_get sb_creator_os s =? EXT4_SUPERBLOCK_OS_LINUX
  then Z.lor v (u32 (Z.shiftl (rd ino_file_acl_high p b) 16)) else v.
Definition ext4_inode_set_file_acl (p : Z) (s : list Z) (acl : Z) (b : list Z) : list Z :=
  let b := wr ino_file_acl_lo p (Z.shiftr (u64 (Z.shiftl acl 32)) 32) b in
  if sb_get sb_creator_os s =? EXT4_SUPERBLOCK_OS_LINUX
  then wr ino_file_acl_high p (u16 (Z.shiftr acl 32)) b else b.

Definition ext4_inode_get_direct_block (p idx : Z) (b : list Z) : Z := rd (ino_block idx) p b.
Definition ext4_inode_set_direct_block (p idx block : Z) (b : list Z) : list Z :=
  wr (ino_block idx) p block b.
Definition ext4_inode_get_indirect_block (p idx : Z) (b : list Z) : Z :=
  rd (ino_block (idx + EXT4_INODE_INDIRECT_BLOCK)) p b.
Definition ext4_inode_set_indirect_block (p idx block : Z) (b : list Z) : list Z :=
  wr (ino_block (idx + EXT4_INODE_INDIRECT_BLOCK)) p block b.

Definition ext4_inode_get_dev (p : Z) (b : list Z) : Z :=
  let dev_0 := ext4_inode_get_direct_block p 0 b in
  let dev_1 := ext4_inode_get_direct_block p 1 b in
  if negb (dev_0 =? 0) then dev_0 else dev_1.
Definition ext4_inode_set_dev (p dev : Z) (b : list Z) : list Z :=
  if has_bits dev (u32 (Z.lnot 0xFFFF))
  then ext4_inode_set_direct_block p 1 dev b
  else ext4_inode_set_direct_block p 0 dev b.

Definition ext4_inode_can_truncate (s : list Z) (p : Z) (b : list Z) : bool :=
  if ext4_inode_has_flag p b EXT4_INODE_FLAG_APPEND
     || ext4_inode_has_flag p b EXT4_INODE_FLAG_IMMUTABLE then false
  else if ext4_inode_is_type s p b EXT4_INODE_MODE_FILE
       || ext4_inode_is_type s p b EXT4_INODE_MODE_DIRECTORY
       || ext4_inode_is_type s p b EXT4_INODE_MODE_SOFTLINK then true
  else false.

(** The extent header is the start of [inode->blocks]: the byte it points at. *)
Definition ext4_inode_get_extent_header (p : Z) : Z := p + f_off ino_blocks.

(** ** The inode as the rest of the driver sees it *)

Definition inode_blocks_idx : list Z := Eval vm_compute in map Z.of_nat (seq 0 15).

(** The bytes an inode's fields occupy: the extra fields lie past the first 128
    and exist only in larger inodes. *)
Definition ino_span (s : list Z) : Z :=
  if EXT4_GOOD_OLD_INODE_SIZE <? sb_get sb_inode_size s then 132 else 128.

Record inode_view := mk_inode_view {
  iv_mode : Z; iv_uid : Z; iv_gid : Z; iv_size : Z; iv_csum : Z;
  iv_atime : Z; iv_ctime : Z; iv_mtime : Z; iv_dtime : Z;
  iv_links : Z; iv_flags : Z; iv_generation : Z; iv_extra_isize : Z;
  iv_blocks : list Z;
}.

(** Both halves of the size, whatever the type of the inode is;
    [ext4_inode_get_size] looks at the high half only for regular files. *)
Definition inode_raw_size (p : Z) (b : list Z) : Z :=
  rd ino_size_lo p b + 2 ^ 32 * rd ino_size_hi p b.

Definition inode_abs (s : list Z) (p : Z) (b : list Z) : inode_view :=
  mk_inode_view (ext4_inode_get_mode s p b) (ext4_inode_get_uid p b) (ext4_inode_get_gid p b)
    (inode_raw_size p b) (ext4_inode_get_csum s p b) (ext4_inode_get_access_time p b)
    (ext4_inode_get_change_inode_time p b) (ext4_inode_get_modif_time p b)
    (ext4_inode_get_del_time p b) (ext4_inode_get_links_cnt p b) (ext4_inode_get_flags p b)
    (ext4_inode_get_generation p b) (ext4_inode_get_extra_isize s p b)
    (map (fun i => ext4_inode_get_direct_block p i b) inode_blocks_idx).

(** A call of a setter, with the value it is given. *)
Inductive inode_op : Type :=
| SetMode (v : Z) | SetUid (v : Z) | SetGid (v : Z) | SetSize (v : Z) | SetCsum (v : Z)
| SetAtime (v : Z) | SetCtime (v : Z) | SetMtime (v : Z) | SetDtime (v : Z)
| SetLinks (v : Z) | SetFlags (v : Z) | SetFlag (f : Z) | ClearFlag (f : Z)
| SetGeneration (v : Z) | SetExtraIsize (v : Z)
| SetDirect (i : Z) (v : Z) | SetIndirect (i : Z) (v : Z).

Definition run_inode_op (s : list Z) (p : Z) (o : inode_op) (b : list Z) : list Z :=
  match o with
  | SetMode v => ext4_inode_set_mode s p v b
  | SetUid v => ext4_inode_set_uid p v b
  | SetGid v => ext4_inode_set_gid p v b
  | SetSize v => ext4_inode_set_size p v b
  | SetCsum v => ext4_inode_set_csum s p v b
  | SetAtime v => ext4_inode_set_access_time p v b
  | SetCtime v => ext4_inode_set_change_inode_time p v b
  | SetMtime v => ext4_inode_set_modif_time p v b
  | SetDtime v => ext4_inode_set_del_time p v b
  | SetLinks v => ext4_inode_set_links_cnt p v b
  | SetFlags v => ext4_inode_set_flags p v b
  | SetFlag f => ext4_inode_set_flag p f b
  | ClearFlag f => ext4_inode_clear_flag p f b
  | SetGeneration v => ext4_inode_set_generation p v b
  | SetExtraIsize v => ext4_inode_set_extra_isize s p v b
  | SetDirect i v => ext4_inode_set_direct_block p i v b
  | SetIndirect i v => ext4_inode_set_indirect_block p i v b
  end.

(** Arguments of the C types, and indices inside the block array. *)
Definition inode_op_ok (o : inode_op) : bool :=
  let w n v := (0 <=? v) && (v <? 2 ^ n) in
  match o with
  | SetLinks v | SetExtraIsize v => w 16 v
  | SetSize v => w 64 v
  | SetMode v | SetUid v | SetGid v | SetCsum v | SetAtime v | SetCtime v | SetMtime v
  | SetDtime v | SetFlags v | SetFlag v | ClearFlag v | SetGeneration v => w 32 v
  | SetDirect i v => (0 <=? i) && (i <? 15) && w 32 v
  | SetIndirect i v => (0 <=? i) && (i <? 3) && w 32 v
  end.

(** What the call does to the abstract inode.  Owner and group keep 16 bits. *)
Definition step_inode (s : list Z) (o : inode_op) (i : inode_view) : inode_view :=
  let '(mk_inode_view mo ui gi si cs at_ ct mt dt li fl ge ex bl) := i in
  let old := sb_get sb_inode_size s <=? EXT4_GOOD_OLD_INODE_SIZE in
  match o with
  | SetMode v =>
      let v := if sb_get sb_creator_os s =? EXT4_SUPERBLOCK_OS_HURD then v else u16 v in
      mk_inode_view v ui gi si cs at_ ct mt dt li fl ge ex bl
  | SetUid v => mk_inode_view mo (u16 v) gi si cs at_ ct mt dt li fl ge ex bl
  | SetGid v => mk_inode_view mo ui (u16 v) si cs at_ ct mt dt li fl ge ex bl
  | SetSize v => mk_inode_view mo ui gi v cs at_ ct mt dt li fl ge ex bl
  | SetCsum v =>
      let v := if old then u16 v else v in
      mk_inode_view mo ui gi si v at_ ct mt dt li fl ge ex bl
  | SetAtime v => mk_inode_view mo ui gi si cs v ct mt dt li fl ge ex bl
  | SetCtime v => mk_inode_view mo ui gi si cs at_ v mt dt li fl ge ex bl
  | SetMtime v => mk_inode_view mo ui gi si cs at_ ct v dt li fl ge ex bl
  | SetDtime v => mk_inode_view mo ui gi si cs at_ ct mt v li fl ge ex bl
  | SetLinks v => mk_inode_view mo ui gi si cs at_ ct mt dt v fl ge ex bl
  | SetFlags v => mk_inode_view mo ui gi si cs at_ ct mt dt li v ge ex bl
  | SetFlag f => mk_inode_view mo ui gi si cs at_ ct mt dt li (Z.lor fl f) ge ex bl
  | ClearFlag f => mk_inode_view mo ui gi si cs at_ ct mt dt li (Z.ldiff fl f) ge ex bl
  | SetGeneration v => mk_inode_view mo ui gi si cs at_ ct mt dt li fl v ex bl
  | SetExtraIsize v =>
      mk_inode_view mo ui gi si cs at_ ct mt dt li fl ge (if old then ex else v) bl
  | SetDirect k v => mk_inode_view mo ui gi si cs at_ ct mt dt li fl ge ex (<[Z.to_nat k := v]> bl)
  | SetIndirect k v =>
      mk_inode_view mo ui gi si cs at_ ct mt dt li fl ge ex (<[Z.to_nat (k + 12) := v]> bl)
  end.

(** ** Lemmas *)

Lemma half16 v : 0 <= v -> Z.shiftr (u32 (Z.shiftl v 16)) 16 mod 2 ^ 16 = u16 v.
Proof.
  intros Hv. unfold u32, u16. change 4294967296 with (2 ^ (16 + 16)).
  destruct (mod_shiftl_shiftr 16 16 v) as [-> |]; [lia..| |lia]. by rewrite Z.mod_mod.
Qed.
Lemma half32 v : 0 <= v -> Z.shiftr (u64 (Z.shiftl v 32)) 32 mod 2 ^ 32 = u32 v.
Proof.
  intros Hv. unfold u64, u32. change 18446744073709551616 with (2 ^ (32 + 32)).
  destruct (mod_shiftl_shiftr 32 32 v) as [-> |]; [lia..| |lia]. by rewrite Z.mod_mod.
Qed.

(** A write to a block pointer and a read outside the pointer array. *)
Lemma rd_wr_block k f p v b :
  f_disj ino_blocks f = true -> 0 <= k < 15 -> 0 <= p ->
  rd f p (wr (ino_block k) p v b) = rd f p b.
Proof.
  intros Hd Hk Hp. apply rd_wr_ne; [|done]. unfold f_disj, ino_block in *. cbn in *. lia.
Qed.

Lemma rd_blocks_set k p v b :
  0 <= k < 15 -> 0 <= p -> p + 128 <= blen b -> 0 <= v < 2 ^ 32 ->
  map (fun i => rd (ino_block i) p (wr (ino_block k) p v b)) inode_blocks_idx =
  <[Z.to_nat k := v]> (map (fun i => rd (ino_block i) p b) inode_blocks_idx).
Proof.
  intros Hk Hp Hb Hv.
  assert (E : forall i, 0 <= i < 15 -> rd (ino_block i) p (wr (ino_block k) p v b) =
                if k =? i then v else rd (ino_block i) p b).
  { intros i Hi. destruct (Z.eqb_spec k i) as [->|Hne].
    - rewrite (rd_wr_eq _ _ _ _ 128); [by apply Z.mod_small| |lia..].
      unfold f_within, ino_block. cbn. lia.
    - apply rd_wr_ne; [|done]. unfold f_disj, ino_block. cbn. lia. }
  rewrite (map_ext_in _ (fun i => if k =? i then v else rd (ino_block i) p b)).
  - assert (Hc : In k inode_blocks_idx) by (cbn; lia).
    cbn in Hc. repeat (destruct Hc as [<-|Hc]; [reflexivity|]). done.
  - intros i Hi. apply E. cbn in Hi. lia.
Qed.

Lemma rd_mod_id f p b : 0 <= f_size f -> rd f p b mod 2 ^ (8 * f_size f) = rd f p b.
Proof. intros. by apply Z.mod_small, rd_range. Qed.

#[export] Hint Rewrite rd_wr_block using (first [reflexivity | lia]) : struct.
Create Rewrite HintDb half.
#[export] Hint Rewrite half16 half32 u32_join16 using lia : half.

(** Opens the accessors. *)
Ltac unfold_inode :=
  unfold ext4_inode_set_mode, ext4_inode_set_uid, ext4_inode_set_gid, ext4_inode_set_size,
    ext4_inode_set_csum, ext4_inode_set_access_time, ext4_inode_set_change_inode_time,
    ext4_inode_set_modif_time, ext4_inode_set_del_time, ext4_inode_set_links_cnt,
    ext4_inode_set_flag, ext4_inode_clear_flag, ext4_inode_set_flags,
    ext4_inode_set_generation, ext4_inode_set_extra_isize, ext4_inode_set_direct_block,
    ext4_inode_set_indirect_block, ext4_inode_get_mode, ext4_inode_get_uid, ext4_inode_get_gid,
    inode_raw_size, ext4_inode_get_csum, ext4_inode_get_access_time,
    ext4_inode_get_change_inode_time, ext4_inode_get_modif_time, ext4_inode_get_del_time,
    ext4_inode_get_links_cnt, ext4_inode_get_flags, ext4_inode_get_generation,
    ext4_inode_get_extra_isize, ext4_inode_get_direct_block, EXT4_INODE_INDIRECT_BLOCK in *.

Section InodeOps.
Context (s : list Z) (p : Z) (b : list Z).
Context (Hp : 0 <= p) (Hb : p + 132 <= blen b).

Lemma inode_op_len o : blen (run_inode_op s p o b) = blen b.
Proof.
  destruct o; cbn [run_inode_op]; unfold_inode; repeat case_match; by rewrite ?blen_wr.
Qed.

(** A store of one field that keeps to the inode. *)
Lemma wr_span f v b' j :
  f_within 128 f || (f_within 132 f && (EXT4_GOOD_OLD_INODE_SIZE <? sb_get sb_inode_size s)) = true ->
  0 <= j -> j < p \/ p + ino_span s <= j ->
  byte_at (wr f p v b') j = byte_at b' j.
Proof.
  intros Hf Hj Ho. apply (byte_at_wr_out _ _ _ _ _ (ino_span s)); [|lia..].
  unfold ino_span, f_within in *. case_match; lia.
Qed.

Lemma inode_op_out o j :
  inode_op_ok o = true -> 0 <= j -> j < p \/ p + ino_span s <= j ->
  byte_at (run_inode_op s p o b) j = byte_at b j.
Proof.
  intros Hok Hj Ho. destruct o; cbn [run_inode_op inode_op_ok] in *; unfold_inode;
    repeat case_match; rewrite ?wr_span; try done;
    unfold f_within, ino_block; cbn [f_off f_size]; cbn; lia.
Qed.

Lemma inode_op_abs o :
  inode_op_ok o = true ->
  inode_abs s p (run_inode_op s p o b) = step_inode s o (inode_abs s p b).
Proof.
  intros Hok. destruct o; cbn [run_inode_op inode_op_ok] in Hok |- *;
    unfold inode_abs, step_inode; unfold_inode.
  all: f_equal.
  all: repeat case_match; try lia.
  all: try by autorewrite with struct.
  all: try by cbn [map inode_blocks_idx]; autorewrite with struct.
  all: rewrite ?rd_blocks_set by lia; try done.
  all: repeat (rewrite (rd_wr_ne ino_size_hi), (rd_wr_ne ino_size_lo) by done).
  all: autorewrite with struct.
  all: repeat match goal with |- context [rd ?f p (wr ?f p ?v ?b')] =>
         rewrite (rd_wr_eq f p v b' 132) by (first [reflexivity | rewrite ?blen_wr; lia]) end.
  all: repeat match goal with |- context [8 * f_size ?f] =>
         let n := eval vm_compute in (8 * f_size f) in change (8 * f_size f) with n end.
  all: rewrite ?u32_join16, ?half16, ?half32 by lia; try done.
  all: try (apply Z.mod_small; lia).
  - rewrite Z.shiftr_div_pow2 by lia. unfold u32. change 4294967296 with (2 ^ 32).
    rewrite (Z.mod_small (v / 2 ^ 32)); [|split; [apply Z.div_pos|apply Z.div_lt_upper_bound]; lia].
    pose proof (Z.div_mod v (2 ^ 32) ltac:(lia)). lia.
  - apply Z.mod_small, (lor_range 32); [lia| |lia]. apply (rd_range ino_flags). done.
  - pose proof (rd_range ino_flags p b ltac:(done)) as Hr. change (8 * _) with 32 in Hr.
    rewrite land_lnot_u32 by lia. apply Z.mod_small, (ldiff_range 32); lia.
Qed.
End InodeOps.

(** The inode setters implement the updates of the abstract inode.  Any
    sequence of setter calls with arguments of their C types, on an inode inside
    the buffer, takes the abstract inode to the result of the corresponding
    sequence of abstract updates (owner and group are cut to 16 bits, the mode
    to 16 bits outside Hurd, the checksum to 16 bits and no extra_isize on
    128-byte inodes), keeps the buffer's length and leaves every byte outside
    the inode as it was: a 128-byte inode's setters never reach the next
    inode. *)
Theorem inode_setters_refine (s : list Z) (p : Z) (b : list Z) (l : list inode_op)
    (Hp : 0 <= p) (Hb : p + 132 <= blen b) (Hl : forallb inode_op_ok l = true) :
  let b' := fold_left (fun b o => run_inode_op s p o b) l b in
  inode_abs s p b' = fold_left (fun i o => step_inode s o i) l (inode_abs s p b) /\
  blen b' = blen b /\
  forall j, 0 <= j -> j < p \/ p + ino_span s <= j -> byte_at b' j = byte_at b j.
Proof.
  cbv zeta. revert b Hb. induction l as [|o l IH]; intros b Hb; [done|].
  cbn [forallb fold_left] in *. apply andb_true_iff in Hl as [Ho Hl].
  pose proof (inode_op_len s p b o) as Hlen.
  destruct (IH Hl (run_inode_op s p o b) ltac:(lia)) as (I1 & I2 & I3).
  split_and!; [by rewrite I1, inode_op_abs|lia|].
  intros j Hj Hr. by rewrite I3, inode_op_out.
Qed.

Definition inode_table_example : list Z := replicate 512 0.
Lemma inode_setters_refine_witness :
  let b' := run_inode_op (sb_example 100000) 128 (SetSize 0x123456789)
              (run_inode_op (sb_example 100000) 128 (SetMode 0x81A4) inode_table_example) in
  iv_mode (inode_abs (sb_example 100000) 128 b') = 0x81A4 /\
  iv_size (inode_abs (sb_example 100000) 128 b') = 0x123456789 /\
  byte_at b' 256 = 0.
Proof.
  destruct (inode_setters_refine (sb_example 100000) 128 inode_table_example
    [SetMode 0x81A4; SetSize 0x123456789] ltac:(lia) ltac:(vm_compute; discriminate)
    ltac:(reflexivity)) as (E & _ & O).
  cbn [fold_left] in E, O. cbv zeta. rewrite E, O; [|lia|vm_compute; right; discriminate].
  repeat split; vm_compute; reflexivity.
Defined.

(** ** Block counts *)

Lemma block_bits_count_log s k :
  0 <= k <= 6 -> ext4_sb_get_block_size s = 1024 * 2 ^ k ->
  ext4_inode_block_bits_count (ext4_sb_get_block_size s) = 10 + k.
Proof.
  intros Hk ->. assert (Hc : In k (map Z.of_nat (seq 0 7))) by (cbn; lia).
  cbn in Hc. repeat (destruct Hc as [<-|Hc]; [reflexivity|]). done.
Qed.

(** Reading back the three fields [ext4_inode_set_blocks_count] stores. *)
Definition blocks_fields (p : Z) (b : list Z) : Z * Z * bool :=
  (rd ino_blocks_count_lo p b, rd ino_blocks_high p b,
   ext4_inode_has_flag p b EXT4_INODE_FLAG_HUGE_FILE).

Lemma get_blocks_count_fields s p b lo hi huge :
  blocks_fields p b = (lo, hi, huge) -> 0 <= lo < 2 ^ 32 -> 0 <= hi < 2 ^ 16 ->
  ext4_inode_get_blocks_count s p b =
  if ext4_sb_feature_ro_com s EXT4_FRO_COM_HUGE_FILE
  then (lo + 2 ^ 32 * hi) * (if huge then ext4_sb_get_block_size s / 512 else 1) else lo.
Proof.
  intros E Hlo Hhi. unfold ext4_inode_get_blocks_count, blocks_fields in *. injection E as -> -> ->.
  case_match; [|done]. rewrite Z.lor_comm. unfold u64.
  rewrite (Z.mod_small (Z.shiftl hi 32)) by (rewrite Z.shiftl_mul_pow2 by lia; lia).
  rewrite (lor_shiftl_add 32) by lia. destruct huge; [|lia].
  destruct (block_size_cases s) as (k & Hk & Ek).
  rewrite (block_bits_count_log s k), Ek by done. rewrite u32_id by lia.
  rewrite Z.shiftl_mul_pow2 by lia. replace (10 + k - 9) with (k + 1) by lia.
  replace (1024 * 2 ^ k / 512) with (2 ^ (k + 1)).
  - pose proof (Z.pow_le_mono_r 2 (k + 1) 7 ltac:(lia) ltac:(lia)).
    pose proof (Z.pow_pos_nonneg 2 (k + 1) ltac:(lia) ltac:(lia)). rewrite Z.mod_small; [lia|nia].
  - rewrite Z.pow_add_r by lia. replace (1024 * 2 ^ k) with (2 * 2 ^ k * 512) by lia.
    rewrite Z.div_mul by lia. lia.
Qed.

Section SetBlocksCount.
Context (p : Z) (b : list Z) (Hp : 0 <= p) (Hb : p + 128 <= blen b).

Lemma has_flag_wr f v :
  f_disj f ino_flags = true ->
  ext4_inode_has_flag p (wr f p v b) EXT4_INODE_FLAG_HUGE_FILE =
  ext4_inode_has_flag p b EXT4_INODE_FLAG_HUGE_FILE.
Proof. intros. unfold ext4_inode_has_flag, ext4_inode_get_flags. by rewrite rd_wr_ne. Qed.

Lemma has_flag_clear f :
  0 <= f < 2 ^ 32 -> ext4_inode_has_flag p (ext4_inode_clear_flag p f b) f = false.
Proof.
  intros Hf. unfold ext4_inode_has_flag, ext4_inode_clear_flag, ext4_inode_set_flags,
    ext4_inode_get_flags.
  pose proof (rd_range ino_flags p b ltac:(done)) as Hr. change (8 * _) with 32 in Hr.
  rewrite (rd_wr_eq _ _ _ _ 128) by (done || lia). change (8 * _) with 32.
  rewrite land_lnot_u32, Z.mod_small by (done || by apply (ldiff_range 32)).
  unfold has_bits. by rewrite Z.ldiff_land, <- Z.land_assoc, (Z.land_comm (Z.lnot f)),
    Z.land_lnot_diag, Z.land_0_r.
Qed.

Lemma has_flag_set f :
  0 < f < 2 ^ 32 -> ext4_inode_has_flag p (ext4_inode_set_flag p f b) f = true.
Proof.
  intros Hf. unfold ext4_inode_has_flag, ext4_inode_set_flag, ext4_inode_set_flags,
    ext4_inode_get_flags.
  pose proof (rd_range ino_flags p b ltac:(done)) as Hr. change (8 * _) with 32 in Hr.
  rewrite (rd_wr_eq _ _ _ _ 128) by (done || lia). change (8 * _) with 32.
  rewrite Z.mod_small by (apply (lor_range 32); lia).
  unfold has_bits. replace (Z.land _ f) with f; [lia|]. apply Z.bits_inj'. intros m Hm.
  rewrite Z.land_spec, Z.lor_spec. by destruct (Z.testbit f m), (Z.testbit _ m).
Qed.
End SetBlocksCount.

(** The two shapes of the store. *)
Definition store_blocks (p lo hi : Z) (huge : bool) (b : list Z) : list Z :=
  if huge
  then wr ino_blocks_high p hi (wr ino_blocks_count_lo p lo
         (ext4_inode_set_flag p EXT4_INODE_FLAG_HUGE_FILE b))
  else ext4_inode_clear_flag p EXT4_INODE_FLAG_HUGE_FILE
         (wr ino_blocks_high p hi (wr ino_blocks_count_lo p lo b)).

Lemma store_blocks_fields p lo hi huge b :
  0 <= p -> p + 128 <= blen b -> 0 <= lo < 2 ^ 32 -> 0 <= hi < 2 ^ 16 ->
  let b' := store_blocks p lo hi huge b in
  blocks_fields p b' = (lo, hi, huge) /\
  Z.ldiff (rd ino_flags p b') EXT4_INODE_FLAG_HUGE_FILE =
    Z.ldiff (rd ino_flags p b) EXT4_INODE_FLAG_HUGE_FILE /\
  forall f, f_disj ino_blocks_count_lo f = true -> f_disj ino_blocks_high f = true ->
    f_disj ino_flags f = true -> rd f p b' = rd f p b.
Proof.
  intros Hp Hb Hlo Hhi. cbv zeta.
  pose proof (rd_range ino_flags p b ltac:(done)) as Hr. change (8 * _) with 32 in Hr.
  unfold store_blocks, blocks_fields. destruct huge.
  - rewrite !has_flag_wr by done. rewrite has_flag_set by (done || split; done).
    unfold ext4_inode_set_flag, ext4_inode_set_flags, ext4_inode_get_flags. split_and!.
    + f_equal. f_equal.
      * rewrite rd_wr_ne by done. rd_same 128. by apply Z.mod_small.
      * rd_same 128. by apply Z.mod_small.
    + autorewrite with struct. rd_same 128. change (8 * _) with 32.
      rewrite Z.mod_small by (by apply (lor_range 32)). apply Z.bits_inj'. intros m Hm.
      rewrite !Z.ldiff_spec, Z.lor_spec. by destruct (Z.testbit (rd _ _ _) m), (Z.testbit _ m).
    + intros f H1 H2 H3. by rewrite !rd_wr_ne.
  - rewrite has_flag_clear by (rewrite ?blen_wr; done).
    unfold ext4_inode_clear_flag, ext4_inode_set_flags, ext4_inode_get_flags. split_and!.
    + f_equal. f_equal; rewrite (rd_wr_ne ino_flags) by done.
      * rewrite rd_wr_ne by done. rd_same 128. by apply Z.mod_small.
      * rd_same 128. by apply Z.mod_small.
    + rd_same 128. autorewrite with struct. change (8 * _) with 32.
      rewrite land_lnot_u32, Z.mod_small by (done || by apply (ldiff_range 32)).
      apply Z.bits_inj'. intros m Hm. rewrite !Z.ldiff_spec.
      by destruct (Z.testbit (rd _ _ _) m), (Z.testbit _ m).
    + intros f H1 H2 H3. by rewrite !rd_wr_ne.
Qed.

(** The low 32 and the next 16 bits of a count. *)
Lemma count_split c :
  0 <= c -> let lo := u32 c in let hi := u16 (Z.shiftr c 32) in
  0 <= lo < 2 ^ 32 /\ 0 <= hi < 2 ^ 16 /\ lo + 2 ^ 32 * hi = c mod 2 ^ 48.
Proof.
  intros Hc. cbv zeta. split_and!; try apply u32_range; try apply u16_range.
  rewrite Z.shiftr_div_pow2 by lia. change (2 ^ 48) with (2 ^ 32 * 2 ^ 16).
  apply (mod_pow_step c (2 ^ 32) (2 ^ 16)); lia.
Qed.

Lemma set_blocks_count_store s p n b :
  0 <= p -> p + 128 <= blen b -> 0 <= n < 2 ^ 64 ->
  let huge := 2 ^ 48 <=? n in
  let c := if huge then n / (ext4_sb_get_block_size s / 512) else n in
  ext4_inode_set_blocks_count s p n b =
  if (2 ^ 32 <=? n) && negb (ext4_sb_feature_ro_com s EXT4_FRO_COM_HUGE_FILE)
  then Err EINVAL else Ok (store_blocks p (u32 c) (u16 (Z.shiftr c 32)) huge b).
Proof.
  intros Hp Hb Hn. cbv zeta. unfold ext4_inode_set_blocks_count, store_blocks.
  change (Z.shiftr (u64 (Z.lnot 0)) 32) with (2 ^ 32 - 1).
  change (Z.shiftr (u64 (Z.lnot 0)) 16) with (2 ^ 48 - 1).
  destruct (Z.leb_spec n (2 ^ 32 - 1)).
  - replace (2 ^ 48 <=? n) with false by lia. replace (2 ^ 32 <=? n) with false by lia.
    cbn [andb]. do 2 f_equal. rewrite Z.shiftr_div_pow2, Z.div_small by lia. done.
  - replace (2 ^ 32 <=? n) with true by lia. cbn [andb].
    destruct (ext4_sb_feature_ro_com s _); [cbn [negb]|done].
    destruct (Z.leb_spec n (2 ^ 48 - 1)).
    + by replace (2 ^ 48 <=? n) with false by lia.
    + replace (2 ^ 48 <=? n) with true by lia.
      destruct (block_size_cases s) as (k & Hk & Ek).
      rewrite (block_bits_count_log s k), Ek by done. rewrite (u32_id (10 + k - 9)) by lia.
      replace (Z.shiftr n (10 + k - 9)) with (n / (1024 * 2 ^ k / 512)); [done|].
      rewrite Z.shiftr_div_pow2 by lia. f_equal. replace (10 + k - 9) with (k + 1) by lia.
      rewrite Z.pow_add_r by lia. replace (1024 * 2 ^ k) with (2 * 2 ^ k * 512) by lia.
      rewrite Z.div_mul by lia. lia.
Qed.

(** C32: the block count of an inode survives the store.  With [u] sectors per
    block, [ext4_inode_set_blocks_count] fails with EINVAL exactly for a count
    of 2^32 or more on a volume without huge_file; otherwise
    [ext4_inode_get_blocks_count] reads back the count itself below 2^48, and
    above it the count rounded down to whole blocks (of which 48 bits are
    kept).  Only the count, its high half and the flags of the inode are
    written, and of the flags only HUGE_FILE. *)
Theorem inode_blocks_count_roundtrip (s : list Z) (p : Z) (b : list Z) (n : Z)
    (Hp : 0 <= p) (Hb : p + 128 <= blen b) (Hn : 0 <= n < 2 ^ 64) :
  let u := ext4_sb_get_block_size s / 512 in
  match ext4_inode_set_blocks_count s p n b with
  | Err rc =>
      rc = EINVAL /\ 2 ^ 32 <= n /\ ext4_sb_feature_ro_com s EXT4_FRO_COM_HUGE_FILE = false
  | Ok b' =>
      (n < 2 ^ 32 \/ ext4_sb_feature_ro_com s EXT4_FRO_COM_HUGE_FILE = true) /\
      ext4_inode_get_blocks_count s p b' =
        (if n <? 2 ^ 48 then n else u * ((n / u) mod 2 ^ 48)) /\
      Z.ldiff (rd ino_flags p b') EXT4_INODE_FLAG_HUGE_FILE =
        Z.ldiff (rd ino_flags p b) EXT4_INODE_FLAG_HUGE_FILE /\
      forall f, f_disj ino_blocks_count_lo f = true -> f_disj ino_blocks_high f = true ->
        f_disj ino_flags f = true -> rd f p b' = rd f p b
  end.
Proof.
  cbv zeta. rewrite set_blocks_count_store by done. cbv zeta.
  destruct ((2 ^ 32 <=? n) && _) eqn:Eh.
  { apply andb_true_iff in Eh as [? ?%negb_true_iff]. split_and!; [done|lia|done]. }
  set (u := ext4_sb_get_block_size s / 512) in *.
  assert (Hu : 2 <= u).
  { unfold u. destruct (block_size_cases s) as (k & Hk & ->).
    pose proof (Z.pow_pos_nonneg 2 k). dlia. }
  set (c := if 2 ^ 48 <=? n then n / u else n).
  assert (Hc : 0 <= c) by (unfold c; case_match; [apply Z.div_pos|]; lia).
  destruct (count_split c Hc) as (Hlo & Hhi & E).
  destruct (store_blocks_fields p (u32 c) (u16 (Z.shiftr c 32)) (2 ^ 48 <=? n) b
    Hp Hb Hlo Hhi) as (F1 & F2 & F3).
  split_and!; [|rewrite (get_blocks_count_fields s _ _ _ _ _ F1) by done|done|done].
  - apply andb_false_iff in Eh as [?|?%negb_false_iff]; [left; lia|by right].
  - fold u. rewrite E. unfold c in *. destruct (Z.leb_spec (2 ^ 48) n) as [Hge|Hlt].
    + replace (n <? 2 ^ 48) with false by lia.
      assert (ext4_sb_feature_ro_com s EXT4_FRO_COM_HUGE_FILE = true) as ->.
      { apply andb_false_iff in Eh as [?|?%negb_false_iff]; [lia|done]. }
      lia.
    + replace (n <? 2 ^ 48) with true by lia. rewrite Z.mod_small by lia.
      case_match eqn:Ef; [lia|]. apply u32_id.
      apply andb_false_iff in Eh as [?|?]; [lia|done].
Qed.

Lemma inode_blocks_count_roundtrip_witness :
  match ext4_inode_set_blocks_count (sb_example 100000) 128 0xFEDCBA98 inode_table_example with
  | Ok b' => ext4_inode_get_blocks_count (sb_example 100000) 128 b' = 0xFEDCBA98
  | Err _ => False
  end.
Proof.
  pose proof (inode_blocks_count_roundtrip (sb_example 100000) 128 inode_table_example
    0xFEDCBA98 ltac:(lia) ltac:(vm_compute; discriminate) ltac:(lia)) as H.
  cbv zeta in H. destruct (ext4_inode_set_blocks_count _ _ _ _) eqn:E.
  - exact (proj1 (proj2 H)).
  - vm_compute in E. discriminate.
Defined.

(** The extended attribute block number is where the two halves disagree: the
    writer stores [acl >> 32], the reader shifts that half by 16. *)
Lemma inode_file_acl_value (s : list Z) (p acl : Z) (b : list Z) :
  0 <= p -> p + 128 <= blen b -> 0 <= acl < 2 ^ 48 ->
  ext4_inode_get_file_acl p (ext4_inode_set_file_acl p s acl b) s =
  if sb_get sb_creator_os s =? EXT4_SUPERBLOCK_OS_LINUX
  then Z.lor (u32 acl) (Z.shiftl (Z.shiftr acl 32) 16) else u32 acl.
Proof.
  intros Hp Hb Ha. unfold ext4_inode_get_file_acl, ext4_inode_set_file_acl.
  destruct (sb_get sb_creator_os s =? _).
  - rewrite (rd_wr_ne ino_file_acl_high ino_file_acl_lo) by done. rd_same 128. rd_same 128.
    change (8 * f_size ino_file_acl_lo) with 32. change (8 * f_size ino_file_acl_high) with 16.
    rewrite half32 by lia. f_equal. rewrite Z.shiftr_div_pow2 by lia.
    assert (0 <= acl / 2 ^ 32 < 2 ^ 16) by (split; [apply Z.div_pos|apply Z.div_lt_upper_bound]; lia).
    rewrite u16_id, Z.mod_small by lia. apply u32_id. rewrite Z.shiftl_mul_pow2 by lia. lia.
  - rd_same 128. apply half32; lia.
Qed.
