(* ===== verification/ExtNode.v ===== *)
(** * Extent nodes

    The part of Core/lwext4/src/ext4_extent.c that works on one node of an extent
    tree: accessors, the checks a node passes before it is used, the binary
    searches, merging, and entering an extent into a leaf.

    A node is a header at byte [p] of a buffer, followed by its entries, 12 bytes
    each.  A pointer to an entry is the entry's number; [EXT_LAST_EXTENT] is the
    number of entries minus one, as the pointer arithmetic has it. *)

From stdpp Require Import strings.
From S2P Require Import Prelude Layout Types Crc Super BlockGroup Inode.
Local Open Scope string_scope.

Definition ext4_extent_layout : list (string * Z) :=
  [("first_block", 4); ("block_count", 2); ("start_hi", 2); ("start_lo", 4)].
Definition ext4_extent_index_layout : list (string * Z) :=
  [("first_block", 4); ("leaf_lo", 4); ("leaf_hi", 2); ("padding", 2)].
Definition ext4_extent_header_layout : list (string * Z) :=
  [("magic", 2); ("entries_count", 2); ("max_entries_count", 2); ("depth", 2); ("generation", 4)].
Definition ext4_extent_tail_layout : list (string * Z) := [("et_checksum", 4)].

Definition ex_first_block : field := Eval vm_compute in field_of ext4_extent_layout "first_block".
Definition ex_block_count : field := Eval vm_compute in field_of ext4_extent_layout "block_count".
Definition ex_start_hi : field := Eval vm_compute in field_of ext4_extent_layout "start_hi".
Definition ex_start_lo : field := Eval vm_compute in field_of ext4_extent_layout "start_lo".
Definition ix_first_block : field := Eval vm_compute in field_of ext4_extent_index_layout "first_block".
Definition ix_leaf_lo : field := Eval vm_compute in field_of ext4_extent_index_layout "leaf_lo".
Definition ix_leaf_hi : field := Eval vm_compute in field_of ext4_extent_index_layout "leaf_hi".
Definition eh_magic : field := Eval vm_compute in field_of ext4_extent_header_layout "magic".
Definition eh_entries_count : field := Eval vm_compute in field_of ext4_extent_header_layout "entries_count".
Definition eh_max_entries_count : field := Eval vm_compute in field_of ext4_extent_header_layout "max_entries_count".
Definition eh_depth : field := Eval vm_compute in field_of ext4_extent_header_layout "depth".
Definition eh_generation : field := Eval vm_compute in field_of ext4_extent_header_layout "generation".
Definition et_checksum : field := Eval vm_compute in field_of ext4_extent_tail_layout "et_checksum".

Local Close Scope string_scope.

(** The sizes of [struct ext4_extent_header] and of an entry; both kinds of
    entry have one size. *)
Definition EXT_HEADER_SIZE : Z := Eval vm_compute in layout_size ext4_extent_header_layout.
Definition EXT_EXTENT_SIZE : Z := Eval vm_compute in layout_size ext4_extent_layout.

Definition EXT4_EXTENT_MAGIC : Z := 0xF30A.
Definition EXT_INIT_MAX_LEN : Z := 32768.
Definition EXT_UNWRITTEN_MAX_LEN : Z := EXT_INIT_MAX_LEN - 1.
Definition EXT4_EXT_UNWRITTEN_MASK : Z := 32768.
Definition EXT4_MAX_EXTENT_DEPTH : Z := 5.
Definition EXT_MAX_BLOCKS : Z := 4294967295.

(** ** Accessors *)

(** [e]: the byte an extent starts at. *)
Definition ext4_extent_get_first_block (e : Z) (b : list Z) : Z := rd ex_first_block e b.
Definition ext4_extent_set_first_block (e iblock : Z) (b : list Z) : list Z := wr ex_first_block e iblock b.
Definition EXT4_EXT_IS_UNWRITTEN (e : Z) (b : list Z) : bool := EXT_INIT_MAX_LEN <? rd ex_block_count e b.
Definition ext4_extent_get_block_count (e : Z) (b : list Z) : Z :=
  let len := rd ex_block_count e b in
  if EXT4_EXT_IS_UNWRITTEN e b then Z.ldiff len EXT4_EXT_UNWRITTEN_MASK else len.
Definition ext4_extent_set_block_count (e count : Z) (unwritten : bool) (b : list Z) : list Z :=
  let b := wr ex_block_count e count b in
  if unwritten then wr ex_block_count e (Z.lor (rd ex_block_count e b) EXT4_EXT_UNWRITTEN_MASK) b else b.
Definition ext4_extent_get_start (e : Z) (b : list Z) : Z :=
  Z.lor (Z.shiftl (rd ex_start_hi e b) 32) (rd ex_start_lo e b).
Definition ext4_extent_set_start (e fblock : Z) (b : list Z) : list Z :=
  let b := wr ex_start_lo e (Z.shiftr (u64 (Z.shiftl fblock 32)) 32) b in
  wr ex_start_hi e (u16 (Z.shiftr fblock 32)) b.

(** [x]: the byte an index starts at. *)
Definition ext4_extent_index_get_first_block (x : Z) (b : list Z) : Z := rd ix_first_block x b.
Definition ext4_extent_index_set_first_block (x iblock : Z) (b : list Z) : list Z := wr ix_first_block x iblock b.
Definition ext4_extent_index_get_leaf (x : Z) (b : list Z) : Z :=
  Z.lor (Z.shiftl (rd ix_leaf_hi x b) 32) (rd ix_leaf_lo x b).
Definition ext4_extent_index_set_leaf (x fblock : Z) (b : list Z) : list Z :=
  let b := wr ix_leaf_lo x (Z.shiftr (u64 (Z.shiftl fblock 32)) 32) b in
  wr ix_leaf_hi x (u16 (Z.shiftr fblock 32)) b.

(** [p]: the byte the header starts at. *)
Definition ext4_extent_header_get_magic (p : Z) (b : list Z) : Z := rd eh_magic p b.
Definition ext4_extent_header_set_magic (p magic : Z) (b : list Z) : list Z := wr eh_magic p magic b.
Definition ext4_extent_header_get_entries_count (p : Z) (b : list Z) : Z := rd eh_entries_count p b.
Definition ext4_extent_header_set_entries_count (p count : Z) (b : list Z) : list Z := wr eh_entries_count p count b.
Definition ext4_extent_header_get_max_entries_count (p : Z) (b : list Z) : Z := rd eh_max_entries_count p b.
Definition ext4_extent_header_set_max_entries_count (p count : Z) (b : list Z) : list Z :=
  wr eh_max_entries_count p count b.
Definition ext4_extent_header_get_depth (p : Z) (b : list Z) : Z := rd eh_depth p b.
Definition ext4_extent_header_set_depth (p depth : Z) (b : list Z) : list Z := wr eh_depth p depth b.
Definition ext4_extent_header_get_generation (p : Z) (b : list Z) : Z := rd eh_generation p b.
Definition ext4_extent_header_set_generation (p generation : Z) (b : list Z) : list Z :=
  wr eh_generation p generation b.

Definition ext4_ext_get_actual_len (e : Z) (b : list Z) : Z :=
  let len := rd ex_block_count e b in
  if len <=? EXT_INIT_MAX_LEN then len else len - EXT_INIT_MAX_LEN.
Definition ext4_ext_mark_initialized (e : Z) (b : list Z) : list Z :=
  wr ex_block_count e (ext4_ext_get_actual_len e b) b.
Definition ext4_ext_mark_unwritten (e : Z) (b : list Z) : list Z :=
  wr ex_block_count e (Z.lor (rd ex_block_count e b) EXT_INIT_MAX_LEN) b.
Definition ext4_ext_is_unwritten (e : Z) (b : list Z) : bool := EXT_INIT_MAX_LEN <? rd ex_block_count e b.
Definition ext4_ext_pblock (e : Z) (b : list Z) : Z :=
  Z.lor (rd ex_start_lo e b) (u64 (Z.shiftl (u64 (Z.shiftl (rd ex_start_hi e b) 31)) 1)).
Definition ext4_idx_pblock (x : Z) (b : list Z) : Z :=
  Z.lor (rd ix_leaf_lo x b) (u64 (Z.shiftl (u64 (Z.shiftl (rd ix_leaf_hi x b) 31)) 1)).
Definition ext4_ext_store_pblock (e pb : Z) (b : list Z) : list Z :=
  let b := wr ex_start_lo e (u32 (Z.land pb 0xffffffff)) b in
  wr ex_start_hi e (Z.land (u16 (Z.shiftr pb 32)) 0xffff) b.
Definition ext4_idx_store_pblock (x pb : Z) (b : list Z) : list Z :=
  let b := wr ix_leaf_lo x (u32 (Z.land pb 0xffffffff)) b in
  wr ix_leaf_hi x (Z.land (u16 (Z.shiftr pb 32)) 0xffff) b.

(** [EXT_FIRST_EXTENT(header) + k], [EXT_FIRST_INDEX(header) + k]. *)
Definition ext_entry (p k : Z) : Z := p + EXT_HEADER_SIZE + EXT_EXTENT_SIZE * k.
Definition EXT_LAST_EXTENT (p : Z) (b : list Z) : Z := ext4_extent_header_get_entries_count p b - 1.
Definition EXT_MAX_EXTENT (p : Z) (b : list Z) : Z := ext4_extent_header_get_max_entries_count p b - 1.
Definition EXT4_EXTENT_TAIL_OFFSET (p : Z) (b : list Z) : Z :=
  EXT_HEADER_SIZE + EXT_EXTENT_SIZE * ext4_extent_header_get_max_entries_count p b.
Definition IN_RANGE (b first len : Z) : bool := (first <=? b) && (b <=? u32 (first + len - 1)).

(** [memmove(first + to, first + from, n * 12)]. *)
Definition entries_move (p to from n : Z) (b : list Z) : list Z :=
  memcpy_at (ext_entry p to) (slice (ext_entry p from) (EXT_EXTENT_SIZE * n) b) b.

(** ** How many entries fit *)

Definition ext4_ext_space_block (sb : list Z) : Z :=
  u16 (u32 (ext4_sb_get_block_size sb - EXT_HEADER_SIZE) / EXT_EXTENT_SIZE).
Definition ext4_ext_space_block_idx (sb : list Z) : Z :=
  u16 (u32 (ext4_sb_get_block_size sb - EXT_HEADER_SIZE) / EXT_EXTENT_SIZE).
(** [sizeof(inode_ref->inode->blocks)] is 60. *)
Definition ext4_ext_space_root : Z := (f_size ino_blocks - EXT_HEADER_SIZE) / EXT_EXTENT_SIZE.
Definition ext4_ext_space_root_idx : Z := (f_size ino_blocks - EXT_HEADER_SIZE) / EXT_EXTENT_SIZE.
(** [root_depth]: [ext_depth] of the inode. *)
Definition ext4_ext_max_entries (sb : list Z) (root_depth depth : Z) : Z :=
  if depth =? root_depth then
    if depth =? 0 then ext4_ext_space_root else ext4_ext_space_root_idx
  else
    if depth =? 0 then ext4_ext_space_block sb else ext4_ext_space_block_idx sb.

Definition ext4_extent_tree_init (p : Z) (b : list Z) : list Z :=
  let header := ext4_inode_get_extent_header p in
  let b := ext4_extent_header_set_depth header 0 b in
  let b := ext4_extent_header_set_entries_count header 0 b in
  let b := ext4_extent_header_set_generation header 0 b in
  let b := ext4_extent_header_set_magic header EXT4_EXTENT_MAGIC b in
  ext4_extent_header_set_max_entries_count header ((15 * 4 - EXT_HEADER_SIZE) / EXT_EXTENT_SIZE) b.

Definition ext4_ext_init_header (sb : list Z) (root_depth p depth : Z) (b : list Z) : list Z :=
  let b := wr eh_entries_count p 0 b in
  let b := wr eh_max_entries_count p (ext4_ext_max_entries sb root_depth (u32 depth)) b in
  let b := wr eh_magic p EXT4_EXTENT_MAGIC b in
  wr eh_depth p depth b.

(** ** Checksum and checks *)

(** [ino], [gen]: the inode's number and generation. *)
Definition ext4_ext_block_csum (sb : list Z) (ino gen p : Z) (b : list Z) : Z :=
  if ext4_sb_feature_ro_com sb EXT4_FRO_COM_METADATA_CSUM then
    let checksum := ext4_sb_csum_seed sb in
    let checksum := ext4_crc32c checksum (le32_bytes ino) in
    let checksum := ext4_crc32c checksum (le32_bytes gen) in
    ext4_crc32c checksum (slice p (EXT4_EXTENT_TAIL_OFFSET p b) b)
  else 0.
Definition ext4_extent_block_csum_set (sb : list Z) (ino gen p : Z) (b : list Z) : list Z :=
  wr et_checksum (p + EXT4_EXTENT_TAIL_OFFSET p b) (ext4_ext_block_csum sb ino gen p b) b.

(** A block's checksum that does not match is only reported. *)
Definition ext4_ext_check (sb : list Z) (root_depth p depth : Z) (b : list Z) : result unit :=
  if negb (rd eh_magic p b =? EXT4_EXTENT_MAGIC) then Err EIO
  else if negb (rd eh_depth p b =? depth) then Err EIO
  else if rd eh_max_entries_count p b =? 0 then Err EIO
  else if ext4_ext_max_entries sb root_depth depth <? rd eh_max_entries_count p b then Err EIO
  else if rd eh_max_entries_count p b <? rd eh_entries_count p b then Err EIO
  else Ok tt.

(** ** Searching *)

(** [while (l <= r)]: a turn halves [r - l]. *)
Fixpoint binsearch_loop (fuel : nat) (p : Z) (b : list Z) (block l r : Z) : Z :=
  match fuel with
  | O => l
  | S fuel =>
      if l <=? r then
        let m := l + (r - l) / 2 in
        if block <? rd ex_first_block (ext_entry p m) b
        then binsearch_loop fuel p b block l (m - 1)
        else binsearch_loop fuel p b block (m + 1) r
      else l
  end.
(** Both kinds of entry begin with [first_block]. *)
Definition ext4_ext_binsearch_idx (p block : Z) (b : list Z) : Z :=
  binsearch_loop 17 p b block 1 (EXT_LAST_EXTENT p b) - 1.
(** [None]: an empty leaf. *)
Definition ext4_ext_binsearch (p block : Z) (b : list Z) : option Z :=
  if rd eh_entries_count p b =? 0 then None
  else Some (binsearch_loop 17 p b block 1 (EXT_LAST_EXTENT p b) - 1).

(** ** Merging *)

(** [struct ext4_extent newex]: an extent that is not in a node yet. *)
Record extent := mk_extent { x_first : Z; x_count : Z; x_start : Z }.
Definition x_unwritten (x : extent) : bool := EXT_INIT_MAX_LEN <? x_count x.
Definition x_len (x : extent) : Z :=
  if x_count x <=? EXT_INIT_MAX_LEN then x_count x else x_count x - EXT_INIT_MAX_LEN.
Definition extent_at (e : Z) (b : list Z) : extent :=
  mk_extent (rd ex_first_block e b) (rd ex_block_count e b) (ext4_ext_pblock e b).

(** The run of [ex1] and [ex2] is no longer than an extent of its state. *)
Definition len_fits (ex1 ex2 : extent) : bool :=
  if x_unwritten ex1 then x_len ex1 + x_len ex2 <=? EXT_UNWRITTEN_MAX_LEN
  else x_len ex1 + x_len ex2 <=? EXT_INIT_MAX_LEN.
Definition ext4_ext_can_prepend (ex1 ex2 : extent) : bool :=
  Bool.eqb (x_unwritten ex1) (x_unwritten ex2) &&
  (u64 (x_start ex2 + x_len ex2) =? x_start ex1) && len_fits ex1 ex2 &&
  (u32 (x_first ex2 + x_len ex2) =? x_first ex1).
Definition ext4_ext_can_append (ex1 ex2 : extent) : bool :=
  Bool.eqb (x_unwritten ex1) (x_unwritten ex2) &&
  (u64 (x_start ex1 + x_len ex1) =? x_start ex2) && len_fits ex1 ex2 &&
  (u32 (x_first ex1 + x_len ex1) =? x_first ex2).

(** Storing the count of a merged extent, in the state it had. *)
Definition set_merged_count (e count : Z) (unwritten : bool) (b : list Z) : list Z :=
  let b := wr ex_block_count e count b in
  if unwritten then ext4_ext_mark_unwritten e b else b.

(** Entry [k + 1] folded into entry [k]: the node, if the two are one run. *)
Definition ext4_ext_merge_next (p k : Z) (b : list Z) : option (list Z) :=
  let last := EXT_LAST_EXTENT p b in
  let ex := ext_entry p k in
  let ex1 := extent_at ex b in
  let ex2 := extent_at (ext_entry p (k + 1)) b in
  if (last <=? k) || negb (ext4_ext_can_append ex1 ex2) then None
  else
    let b := set_merged_count ex (u16 (x_len ex1 + x_len ex2)) (x_unwritten ex1) b in
    let b := if k + 1 <? last then entries_move p (k + 1) (k + 2) (last - (k + 1)) b else b in
    Some (wr eh_entries_count p (rd eh_entries_count p b - 1) b).

(** ** Entering an extent into a leaf *)

(** What [ext4_ext_insert_leaf] does to its leaf: the extent is merged with entry
    [k] ([LeafMerged]), or becomes entry [k] ([LeafInserted]), or neither; the new
    node is in [b]. *)
Inductive leaf_insert :=
| LeafMerged (k : Z) (b : list Z)
| LeafInserted (k : Z) (b : list Z)
| LeafFull
| LeafRefused (b : list Z).

Definition leaf_slot (p : Z) (cur : option Z) (newext : extent) (b : list Z) : Z :=
  match cur with
  | None => 0
  | Some k => if rd ex_first_block (ext_entry p k) b <? x_first newext then k + 1 else k
  end.

Definition extent_store (e : Z) (x : extent) (b : list Z) : list Z :=
  let b := wr ex_first_block e (x_first x) b in
  let b := wr ex_block_count e (x_count x) b in
  ext4_ext_store_pblock e (x_start x) b.

(** From the test of the header's count on. *)
Definition leaf_enter (p : Z) (cur : option Z) (newext : extent) (b : list Z) : leaf_insert :=
  if rd eh_entries_count p b =? rd eh_max_entries_count p b then LeafFull
  else
    let ex := leaf_slot p cur newext b in
    let len := EXT_LAST_EXTENT p b - ex + 1 in
    let b := if 0 <? len then entries_move p (ex + 1) ex len b else b in
    if EXT_MAX_EXTENT p b <? ex then LeafRefused b
    else
      let b := extent_store (ext_entry p ex) newext b in
      let b := wr eh_entries_count p (rd eh_entries_count p b + 1) b in
      if EXT_LAST_EXTENT p b <? ex then LeafRefused b else LeafInserted ex b.

(** [cur]: the path's extent.  Merging in front changes the first block and the
    count of the entry, and leaves its start as it is. *)
Definition leaf_insert_node (p : Z) (cur : option Z) (newext : extent) (no_combine : bool)
    (b : list Z) : leaf_insert :=
  match cur with
  | None => leaf_enter p cur newext b
  | Some k =>
      let e := ext_entry p k in
      let ex := extent_at e b in
      if x_first newext =? x_first ex then LeafRefused b
      else if negb no_combine && ext4_ext_can_append ex newext then
        LeafMerged k (set_merged_count e (x_len ex + x_len newext) (x_unwritten ex) b)
      else if negb no_combine && ext4_ext_can_prepend ex newext then
        LeafMerged k (set_merged_count e (x_len ex + x_len newext) (x_unwritten ex)
                        (wr ex_first_block e (x_first newext) b))
      else leaf_enter p cur newext b
  end.
