(* ===== verification/ExtLaws.v ===== *)
(** * Extent nodes as lists of extents

    The entries of a node as a list, and what reading, storing and moving entries
    do to it; the leaf as a map from file blocks to physical blocks. *)

From Stdlib Require Import Sorted.
From S2P Require Import Prelude Layout Types Crc Super BlockGroup Inode ExtNode.

Lemma get_le_shift n : forall o o' b b',
  (forall i, 0 <= i < Z.of_nat n -> byte_at b' (o' + i) = byte_at b (o + i)) ->
  get_le n o' b' = get_le n o b.
Proof.
  induction n as [|n IH]; intros o o' b b' H; [done|]. cbn [get_le].
  pose proof (H 0 ltac:(lia)) as H0. rewrite !Z.add_0_r in H0. rewrite H0.
  rewrite (IH (o + 1) (o' + 1) b b'); [done|]. intros i Hi.
  replace (o' + 1 + i) with (o' + (1 + i)) by lia. replace (o + 1 + i) with (o + (1 + i)) by lia.
  apply H. lia.
Qed.
Lemma rd_shift f e e' b b' n :
  f_within n f = true ->
  (forall i, 0 <= i < n -> byte_at b' (e' + i) = byte_at b (e + i)) -> rd f e' b' = rd f e b.
Proof.
  intros Hf H. unfold f_within in Hf. unfold rd. apply get_le_shift. intros i Hi.
  rewrite <- !Z.add_assoc. apply H. lia.
Qed.

(** ** One entry *)

Record extent_fits (x : extent) : Prop := {
  xf_first : 0 <= x_first x < 2 ^ 32;
  xf_count : 0 <= x_count x < 2 ^ 16;
  xf_start : 0 <= x_start x < 2 ^ 48;
}.

Lemma extent_at_shift e e' b b' :
  (forall i, 0 <= i < 12 -> byte_at b' (e' + i) = byte_at b (e + i)) -> extent_at e' b' = extent_at e b.
Proof.
  intros H. unfold extent_at, ext4_ext_pblock.
  by rewrite !(fun f Hf => rd_shift f e e' b b' 12 Hf H) by done.
Qed.
Lemma extent_at_ext e b b' :
  (forall j, e <= j < e + 12 -> byte_at b' j = byte_at b j) -> extent_at e b' = extent_at e b.
Proof. intros H. apply extent_at_shift. intros. apply H. lia. Qed.

Lemma pblock_join lo hi :
  0 <= lo < 2 ^ 32 -> 0 <= hi < 2 ^ 16 ->
  Z.lor lo (u64 (Z.shiftl (u64 (Z.shiftl hi 31)) 1)) = lo + 2 ^ 32 * hi.
Proof.
  intros Hlo Hhi. rewrite !Z.shiftl_mul_pow2 by lia. rewrite (u64_id (hi * 2 ^ 31)) by lia.
  rewrite u64_id by lia. replace (hi * 2 ^ 31 * 2 ^ 1) with (Z.shiftl hi 32) by (rewrite Z.shiftl_mul_pow2; lia).
  rewrite <- Z.add_nocarry_lor; [rewrite Z.shiftl_mul_pow2 by lia; lia|].
  apply Z.bits_inj'. intros n Hn. rewrite Z.land_spec, Z.bits_0.
  destruct (Z.ltb_spec n 32).
  - rewrite Z.shiftl_spec_low by lia. apply andb_false_r.
  - rewrite (Z.bits_above_log2 lo n); [done|lia|]. destruct (Z.eq_dec lo 0) as [->|]; [cbn; lia|].
    apply Z.log2_lt_pow2; [lia|]. apply Z.lt_le_trans with (2 ^ 32); [lia|]. apply Z.pow_le_mono_r; lia.
Qed.

Lemma extent_at_fits e b : extent_fits (extent_at e b).
Proof.
  split; cbn [x_first x_count x_start extent_at].
  - by apply (rd_range ex_first_block).
  - by apply (rd_range ex_block_count).
  - pose proof (rd_range ex_start_lo e b ltac:(done)) as H1. pose proof (rd_range ex_start_hi e b ltac:(done)) as H2.
    cbn in H1, H2. unfold ext4_ext_pblock. rewrite pblock_join by lia. lia.
Qed.

Lemma rd_store_lo e pb b :
  0 <= e -> e + 12 <= blen b -> 0 <= pb < 2 ^ 48 -> ext4_ext_pblock e (ext4_ext_store_pblock e pb b) = pb.
Proof.
  intros He Hb Hp. unfold ext4_ext_pblock, ext4_ext_store_pblock.
  rewrite (rd_wr_ne ex_start_hi ex_start_lo) by (done || lia). rd_same 12.
  rewrite (rd_wr_eq ex_start_hi _ _ _ 12) by (done || rewrite ?blen_wr; lia).
  change 0xffffffff with (Z.ones 32). change 0xffff with (Z.ones 16). rewrite !Z.land_ones by lia.
  cbn [f_size ex_start_lo ex_start_hi]. change (2 ^ (8 * 4)) with (2 ^ 32). change (2 ^ (8 * 2)) with (2 ^ 16).
  unfold u32, u16. rewrite !Z.shiftr_div_pow2 by lia. rewrite !Z.mod_mod by lia.
  rewrite pblock_join; [|apply Z.mod_pos_bound; lia..].
  rewrite (Z.mod_small (pb / 2 ^ 32)) by dlia. dlia.
Qed.

Lemma extent_at_store e x b :
  0 <= e -> e + 12 <= blen b -> extent_fits x -> extent_at e (extent_store e x b) = x.
Proof.
  intros He Hb [H1 H2 H3]. unfold extent_at, extent_store.
  rewrite rd_store_lo by (rewrite ?blen_wr; lia). unfold ext4_ext_store_pblock.
  struct_reads 12.
  destruct x as [xf xc xs]. cbn [x_first x_count x_start f_size ex_first_block ex_block_count] in *. f_equal; apply Z.mod_small; lia.
Qed.

(** ** Nodes *)

Definition entries_count (p : Z) (b : list Z) : Z := rd eh_entries_count p b.
Definition max_entries (p : Z) (b : list Z) : Z := rd eh_max_entries_count p b.

(** A node of a buffer: what [ext4_ext_check] and the geometry give. *)
Record node_in (p : Z) (b : list Z) : Prop := {
  ni_off : 0 <= p;
  ni_bytes : bytes_ok b;
  ni_count : entries_count p b <= max_entries p b;
  ni_room : ext_entry p (max_entries p b) <= blen b;
}.

Definition node_extents (p : Z) (b : list Z) : list extent :=
  map (fun k => extent_at (ext_entry p (Z.of_nat k)) b) (seq 0 (Z.to_nat (entries_count p b))).

Lemma count_range p b : 0 <= entries_count p b < 2 ^ 16.
Proof. by apply (rd_range eh_entries_count). Qed.
Lemma max_range p b : 0 <= max_entries p b < 2 ^ 16.
Proof. by apply (rd_range eh_max_entries_count). Qed.

Lemma length_node_extents p b : Z.of_nat (length (node_extents p b)) = entries_count p b.
Proof. unfold node_extents. rewrite length_map, length_seq. pose proof (count_range p b). lia. Qed.

Lemma node_lookup p b k :
  0 <= k < entries_count p b -> node_extents p b !! Z.to_nat k = Some (extent_at (ext_entry p k) b).
Proof.
  intros Hk. unfold node_extents. rewrite list_lookup_fmap, lookup_seq_lt by lia. cbn.
  by rewrite Z2Nat.id by lia.
Qed.

(** The entries of a node, one by one. *)
Lemma node_extents_eq p b (l : list extent) :
  Z.of_nat (length l) = entries_count p b ->
  (forall k x, l !! k = Some x -> extent_at (ext_entry p (Z.of_nat k)) b = x) -> node_extents p b = l.
Proof.
  intros Hlen H. pose proof (length_node_extents p b).
  apply list_eq_same_length with (length l); [done|lia|]. intros i x y Hi Hx Hy.
  apply H in Hy as <-. replace i with (Z.to_nat (Z.of_nat i)) in Hx by lia.
  rewrite node_lookup in Hx by lia. congruence.
Qed.

(** ** Leaves as maps *)

(** The last block of the address space is no block of a file. *)
Record ext_ok (x : extent) : Prop := {
  xo_fits : extent_fits x;
  xo_len : 0 < x_len x;
  xo_end : x_first x + x_len x <= EXT_MAX_BLOCKS;
}.
Definition before (x y : extent) : Prop := x_first x + x_len x <= x_first y.
(** The entries are in order and do not overlap. *)
Definition leaf_ok (es : list extent) : Prop := Forall ext_ok es /\ StronglySorted before es.

(** Where block [blk] of the file is, and whether it is unwritten. *)
Fixpoint leaf_lookup (es : list extent) (blk : Z) : option (Z * bool) :=
  match es with
  | [] => None
  | x :: es =>
      if (x_first x <=? blk) && (blk <? x_first x + x_len x)
      then Some (x_start x + (blk - x_first x), x_unwritten x)
      else leaf_lookup es blk
  end.

Definition covers (x : extent) (blk : Z) : Prop := x_first x <= blk < x_first x + x_len x.
Definition ext_map (x : extent) (blk : Z) : option (Z * bool) := leaf_lookup [x] blk.

Lemma x_len_range x : extent_fits x -> 0 <= x_len x <= 32768.
Proof. intros [_ H _]. unfold x_len, EXT_INIT_MAX_LEN. case_match; lia. Qed.

Lemma leaf_ok_app l1 l2 :
  leaf_ok (l1 ++ l2) <->
  leaf_ok l1 /\ leaf_ok l2 /\ (forall x y, x ∈ l1 -> y ∈ l2 -> before x y).
Proof.
  unfold leaf_ok. rewrite Forall_app. induction l1 as [|x l1 IH]; cbn [app].
  - split; [|tauto]. intros [[? ?] ?]. split_and!; try done; [constructor|]. set_solver.
  - rewrite !Forall_cons in *. split.
    + intros [[[Hx H1] H2] HS]. inversion HS as [|? ? HS' HF]; subst.
      destruct IH as [IH _]. destruct IH as ((_ & S1) & (_ & S2) & H12); [tauto|].
      rewrite Forall_app in HF. destruct HF as [HF1 HF2]. split_and!; try done.
      * by constructor.
      * intros a c [->|Ha]%elem_of_cons Hc; [|by apply H12]. rewrite Forall_forall in HF2. by apply HF2.
    + intros (([Hx H1] & HS1) & (H2 & HS2) & H12). inversion HS1 as [|? ? HS' HF]; subst.
      split; [done|]. constructor.
      * apply IH. split_and!; try done. intros a c Ha Hc. apply H12; [by right|done].
      * apply Forall_app. split; [done|]. apply Forall_forall. intros y Hy. apply H12; [by left|done].
Qed.

Lemma leaf_lookup_app l1 l2 blk :
  leaf_lookup (l1 ++ l2) blk =
  match leaf_lookup l1 blk with Some v => Some v | None => leaf_lookup l2 blk end.
Proof. induction l1 as [|x l1 IH]; cbn [leaf_lookup app]; [done|]. rewrite IH. by destruct (_ && _). Qed.

Lemma leaf_lookup_None es blk : leaf_lookup es blk = None <-> Forall (fun x => ~ covers x blk) es.
Proof.
  induction es as [|x es IH]; cbn [leaf_lookup]; [done|]. rewrite Forall_cons, <- IH. unfold covers.
  destruct ((x_first x <=? blk) && (blk <? x_first x + x_len x)) eqn:E; [|split; [split; [lia|done]|tauto]].
  split; [done|]. intros [H _]. lia.
Qed.

(** At most one entry covers a block. *)
Lemma leaf_lookup_at l1 x l2 blk :
  leaf_ok (l1 ++ x :: l2) -> covers x blk ->
  leaf_lookup (l1 ++ x :: l2) blk = Some (x_start x + (blk - x_first x), x_unwritten x).
Proof.
  intros H Hc. apply leaf_ok_app in H as (_ & _ & Hb). rewrite leaf_lookup_app.
  assert (E : leaf_lookup l1 blk = None).
  { apply leaf_lookup_None, Forall_forall. intros y Hy Hcy. specialize (Hb y x Hy (list_elem_of_here _ _)).
    unfold before, covers in *. lia. }
  rewrite E. cbn [leaf_lookup]. unfold covers in Hc.
  by replace ((x_first x <=? blk) && (blk <? x_first x + x_len x)) with true by lia.
Qed.

Lemma ext_map_covers x blk :
  covers x blk -> ext_map x blk = Some (x_start x + (blk - x_first x), x_unwritten x).
Proof.
  unfold covers, ext_map. cbn [leaf_lookup]. intros H.
  by replace ((x_first x <=? blk) && (blk <? x_first x + x_len x)) with true by lia.
Qed.

Lemma leaf_ok_lookup es i j x y :
  leaf_ok es -> es !! i = Some x -> es !! j = Some y -> (i < j)%nat -> before x y.
Proof.
  intros [_ HS]. revert i j. induction HS as [|z es HS IH HF]; intros i j Hx Hy Hij; [done|].
  destruct j as [|j]; [lia|]. destruct i as [|i].
  - cbn in Hx, Hy. simplify_eq. rewrite Forall_forall in HF. apply HF. by eapply list_elem_of_lookup_2.
  - cbn in Hx, Hy. eapply IH; [done..|lia].
Qed.

(** ** The binary search *)

Definition first_at (p : Z) (b : list Z) (k : Z) : Z := rd ex_first_block (ext_entry p k) b.

(** Whatever the entries are, the search ends inside the node. *)
Lemma binsearch_bounds p b block : forall fuel l r,
  l <= r + 1 -> r - l + 1 < 2 ^ Z.of_nat fuel ->
  l <= binsearch_loop fuel p b block l r <= r + 1.
Proof.
  induction fuel as [|fuel IH]; intros l r Hlr Hf; cbn [binsearch_loop]; [lia|].
  rewrite Nat2Z.inj_succ, Z.pow_succ_r in Hf by lia.
  destruct (Z.leb_spec l r); [|lia]. set (m := l + (r - l) / 2).
  assert (Hm : l <= m <= r) by (subst m; split; dlia). case_match.
  - specialize (IH l (m - 1)). assert (m - 1 - l + 1 < 2 ^ Z.of_nat fuel) by (subst m; dlia). lia.
  - specialize (IH (m + 1) r). assert (r - (m + 1) + 1 < 2 ^ Z.of_nat fuel) by (subst m; dlia). lia.
Qed.

(** With the entries in order it ends at the first one beyond the block. *)
Lemma binsearch_sorted p b block : forall fuel l r,
  1 <= l -> l <= r + 1 -> r - l + 1 < 2 ^ Z.of_nat fuel ->
  (forall i j, l <= i < j -> j <= r -> first_at p b i < first_at p b j) ->
  let q := binsearch_loop fuel p b block l r in
  (forall j, l <= j < q -> first_at p b j <= block) /\ (forall j, q <= j <= r -> block < first_at p b j).
Proof.
  induction fuel as [|fuel IH]; intros l r Hl Hlr Hf Hs; cbn [binsearch_loop]; [cbn in Hf; split; lia|].
  rewrite Nat2Z.inj_succ, Z.pow_succ_r in Hf by lia.
  destruct (Z.leb_spec l r); [|split; lia]. set (m := l + (r - l) / 2).
  assert (Hm : l <= m <= r) by (subst m; split; dlia). fold (first_at p b m).
  destruct (Z.ltb_spec block (first_at p b m)) as [Hb|Hb].
  - assert (Hw : m - 1 - l + 1 < 2 ^ Z.of_nat fuel) by (subst m; dlia).
    destruct (IH l (m - 1) Hl ltac:(lia) Hw) as [I1 I2]; [intros; apply Hs; lia|].
    pose proof (binsearch_bounds p b block fuel l (m - 1) ltac:(lia) Hw). split; [done|].
    intros j Hj. destruct (Z.le_gt_cases j (m - 1)); [apply I2; lia|].
    destruct (Z.eq_dec j m) as [->|]; [done|]. specialize (Hs m j). lia.
  - assert (Hw : r - (m + 1) + 1 < 2 ^ Z.of_nat fuel) by (subst m; dlia).
    destruct (IH (m + 1) r ltac:(lia) ltac:(lia) Hw) as [I1 I2]; [intros; apply Hs; lia|]. split; [|done].
    intros j Hj. destruct (Z.le_gt_cases (m + 1) j); [apply I1; lia|].
    destruct (Z.eq_dec j m) as [->|]; [done|]. specialize (Hs j m). lia.
Qed.

(** What the two searches share: entry 0, or the last entry that begins at or
    before the block. *)
Lemma binsearch_spec p b block k :
  1 <= entries_count p b -> k = binsearch_loop 17 p b block 1 (EXT_LAST_EXTENT p b) - 1 ->
  0 <= k < entries_count p b /\
  ((forall i j, 0 <= i < j -> j < entries_count p b -> first_at p b i < first_at p b j) ->
   (forall j, 1 <= j <= k -> first_at p b j <= block) /\
   (forall j, k < j < entries_count p b -> block < first_at p b j)).
Proof.
  intros Hc ->. pose proof (count_range p b) as Hr. unfold EXT_LAST_EXTENT.
  change (ext4_extent_header_get_entries_count p b) with (entries_count p b).
  pose proof (binsearch_bounds p b block 17 1 (entries_count p b - 1) ltac:(lia) ltac:(cbn; lia)).
  split; [lia|]. intros Hs.
  destruct (binsearch_sorted p b block 17 1 (entries_count p b - 1)) as [B1 B2]; [lia|lia|cbn; lia| |].
  - intros i j Hij Hj. apply Hs; lia.
  - split; intros j Hj; [apply B1|apply B2]; lia.
Qed.

(** Looking a block up through the search is looking it up in the leaf. *)
Lemma search_finds p b block es :
  node_in p b -> node_extents p b = es -> leaf_ok es -> 0 <= block < 2 ^ 32 ->
  match ext4_ext_binsearch p block b with
  | None => es = []
  | Some k => exists l1 x l2, es = l1 ++ x :: l2 /\ k = Z.of_nat (length l1) /\
      extent_at (ext_entry p k) b = x /\
      Forall (fun y => x_first y <= block -> before y x) l1 /\ Forall (fun y => block < x_first y) l2 /\
      (x_first x <= block \/ l1 = []) /\
      leaf_lookup es block = ext_map x block
  end.
Proof.
  intros N <- Hok Hblk. unfold ext4_ext_binsearch. fold (entries_count p b).
  pose proof (count_range p b) as Hr. pose proof (length_node_extents p b) as Hlen.
  destruct (Z.eqb_spec (entries_count p b) 0) as [E|E].
  { destruct (node_extents p b); [done|]. cbn [length] in Hlen. lia. }
  set (k := binsearch_loop 17 p b block 1 (EXT_LAST_EXTENT p b) - 1).
  destruct (binsearch_spec p b block k ltac:(lia) eq_refl) as [Hk Hs].
  assert (Hfirst : forall i, 0 <= i < entries_count p b ->
    exists x, node_extents p b !! Z.to_nat i = Some x /\ first_at p b i = x_first x).
  { intros i Hi. eexists. split; [by apply node_lookup|done]. }
  assert (Hmono : forall i j, 0 <= i < j -> j < entries_count p b -> first_at p b i < first_at p b j).
  { intros i j Hi Hj. destruct (Hfirst i) as (x & Ex & ->); [lia|]. destruct (Hfirst j) as (y & Ey & ->); [lia|].
    pose proof (leaf_ok_lookup _ _ _ _ _ Hok Ex Ey ltac:(lia)) as Hb. unfold before in Hb.
    destruct Hok as [HF _]. pose proof (xo_len _ (Forall_lookup_1 _ _ _ _ HF Ex)). lia. }
  destruct (Hs Hmono) as [S1 S2]. pose proof (node_lookup p b k Hk) as Hx.
  set (x := extent_at (ext_entry p k) b) in *. apply list_elem_of_split_length in Hx as (l1 & l2 & El & Ek).
  exists l1, x, l2. rewrite El in *.
  assert (H1 : Forall (fun y => x_first y <= block -> before y x) l1).
  { apply Forall_forall. intros y Hy _. apply leaf_ok_app in Hok as (_ & _ & Hb). apply Hb; [done|apply list_elem_of_here]. }
  assert (H2 : Forall (fun y => block < x_first y) l2).
  { apply Forall_lookup_2. intros i y Hy.
    assert (Hi : (l1 ++ x :: l2) !! Z.to_nat (k + 1 + Z.of_nat i) = Some y).
    { rewrite lookup_app_r by lia. replace (Z.to_nat (k + 1 + Z.of_nat i) - length l1)%nat with (S i) by lia. done. }
    assert (Hlt : k + 1 + Z.of_nat i < entries_count p b).
    { apply lookup_lt_Some in Hi. lia. }
    destruct (Hfirst (k + 1 + Z.of_nat i)) as (y' & Ey & Ef); [lia|]. rewrite Hi in Ey. simplify_eq.
    rewrite <- Ef. apply S2. lia. }
  assert (H3 : x_first x <= block \/ l1 = []).
  { destruct (Z.eq_dec k 0) as [Hk0|]; [right; destruct l1; [done|cbn in Ek; lia]|]. left. apply S1. lia. }
  split_and!; try done; [lia|].
  rewrite leaf_lookup_app. unfold ext_map. cbn [leaf_lookup].
  assert (E2 : leaf_lookup l2 block = None).
  { apply leaf_lookup_None. eapply Forall_impl; [exact H2|]. unfold covers. intros y Hy. cbn in Hy. lia. }
  assert (E1 : leaf_lookup l1 block = None \/ (x_first x <=? block) = false).
  { destruct (Z.leb_spec (x_first x) block) as [Hle|]; [left|by right]. apply leaf_lookup_None.
    apply leaf_ok_app in Hok as (_ & _ & Hb). apply Forall_forall. intros y Hy Hc.
    specialize (Hb y x Hy (list_elem_of_here _ _)). unfold before, covers in *. lia. }
  destruct E1 as [E1|E1].
  - rewrite E1, E2. by case_match.
  - destruct H3 as [H3|H3]; [lia|]. subst l1. cbn [leaf_lookup app]. by rewrite E1, E2.
Qed.

(** ** Storing and moving entries *)

Lemma ext_entry_eq p k : ext_entry p k = p + 12 + 12 * k.
Proof. done. Qed.

Lemma extent_store_frame e x b :
  0 <= e -> bytes_ok b ->
  bytes_ok (extent_store e x b) /\ blen (extent_store e x b) = blen b /\
  changed_in e (e + 12) b (extent_store e x b).
Proof.
  intros He Hb. unfold extent_store, ext4_ext_store_pblock. split_and!.
  - by repeat apply bytes_ok_wr.
  - by rewrite !blen_wr.
  - repeat (eapply changed_in_trans; [|apply (changed_in_wr _ _ _ _ 12); [done|lia]]). apply changed_in_refl.
Qed.

Lemma entries_move_spec p to from n b :
  bytes_ok b -> 0 <= p -> 0 <= to -> 0 <= from -> 0 <= n ->
  ext_entry p (to + n) <= blen b -> ext_entry p (from + n) <= blen b ->
  let b' := entries_move p to from n b in
  bytes_ok b' /\ blen b' = blen b /\ changed_in (ext_entry p to) (ext_entry p (to + n)) b b' /\
  forall i, 0 <= i < n -> extent_at (ext_entry p (to + i)) b' = extent_at (ext_entry p (from + i)) b.
Proof.
  intros Hb Hp Ht Hf Hn Hr Hr'. cbv zeta. rewrite !ext_entry_eq in *. unfold entries_move.
  change EXT_EXTENT_SIZE with 12. rewrite !ext_entry_eq.
  assert (Hl : blen (slice (p + 12 + 12 * from) (12 * n) b) = 12 * n) by (apply blen_slice; lia).
  split_and!.
  - apply bytes_ok_memcpy_at; [by apply bytes_ok_slice|done].
  - rewrite blen_memcpy_at; lia.
  - intros j Hj Hd. rewrite byte_at_memcpy_at by lia. rewrite Hl.
    by replace ((p + 12 + 12 * to <=? j) && (j <? p + 12 + 12 * to + 12 * n)) with false by lia.
  - intros i Hi. apply extent_at_shift. intros j Hj. rewrite !ext_entry_eq. rewrite byte_at_memcpy_at by lia.
    rewrite Hl. replace (_ && _) with true by lia. rewrite byte_at_slice by lia. f_equal. lia.
Qed.

(** The header does not change with the entries, nor entries with the header. *)
Lemma header_after f p to b b' :
  f_within 12 f = true -> 0 <= p -> changed_in (p + 12) to b b' -> rd f p b' = rd f p b.
Proof. intros Hf Hp H. apply (rd_ext _ _ _ _ 12); [done|]. intros j Hj. apply H; lia. Qed.
Lemma extent_after_count p k v b :
  0 <= p -> 0 <= k -> extent_at (ext_entry p k) (wr eh_entries_count p v b) = extent_at (ext_entry p k) b.
Proof.
  intros Hp Hk. apply extent_at_ext. rewrite ext_entry_eq. intros j Hj.
  apply (byte_at_wr_out _ _ _ _ _ 12); [done|lia|lia|lia].
Qed.
Lemma count_after p v b :
  0 <= p -> p + 12 <= blen b -> 0 <= v < 2 ^ 16 -> entries_count p (wr eh_entries_count p v b) = v.
Proof. intros. unfold entries_count. rd_same 12. cbn [f_size eh_entries_count]. by apply Z.mod_small. Qed.
Lemma max_after p v b : 0 <= p -> max_entries p (wr eh_entries_count p v b) = max_entries p b.
Proof. intros. by apply rd_wr_ne. Qed.

(** An extent becomes entry [k], the entries from there on move up. *)
Lemma enter_at p b k x :
  node_in p b -> entries_count p b < max_entries p b -> 0 <= k <= entries_count p b -> extent_fits x ->
  let len := EXT_LAST_EXTENT p b - k + 1 in
  let b1 := if 0 <? len then entries_move p (k + 1) k len b else b in
  let b2 := extent_store (ext_entry p k) x b1 in
  let b3 := wr eh_entries_count p (rd eh_entries_count p b2 + 1) b2 in
  rd eh_max_entries_count p b1 = max_entries p b /\
  node_in p b3 /\ blen b3 = blen b /\ max_entries p b3 = max_entries p b /\
  entries_count p b3 = entries_count p b + 1 /\
  changed_in p (ext_entry p (max_entries p b)) b b3 /\
  node_extents p b3 = take (Z.to_nat k) (node_extents p b) ++ x :: drop (Z.to_nat k) (node_extents p b).
Proof.
  intros [Hp Hb Hc Hroom] Hmax Hk Hx. pose proof (count_range p b) as Hcr. pose proof (max_range p b) as Hmr.
  intros len. unfold EXT_LAST_EXTENT in len. change (ext4_extent_header_get_entries_count p b) with (entries_count p b) in len.
  assert (Elen : len = entries_count p b - k) by (subst len; lia). clearbody len.
  rewrite ext_entry_eq in Hroom. intros b1.
  assert (H1 : bytes_ok b1 /\ blen b1 = blen b /\ changed_in (ext_entry p k) (ext_entry p (max_entries p b)) b b1 /\
    (forall i, 0 <= i < k -> extent_at (ext_entry p i) b1 = extent_at (ext_entry p i) b) /\
    (forall i, k <= i < entries_count p b -> extent_at (ext_entry p (i + 1)) b1 = extent_at (ext_entry p i) b)).
  { subst b1. destruct (Z.ltb_spec 0 len); [|split_and!; try done; lia].
    destruct (entries_move_spec p (k + 1) k len b) as (M1 & M2 & M3 & M4); rewrite ?ext_entry_eq; try done; try lia.
    split_and!; try done.
    - eapply changed_in_weaken; [exact M3|rewrite !ext_entry_eq; lia..].
    - intros i Hi. apply extent_at_ext. rewrite ext_entry_eq. intros j Hj. apply M3; rewrite ?ext_entry_eq; lia.
    - intros i Hi. specialize (M4 (i - k) ltac:(lia)).
      replace (k + 1 + (i - k)) with (i + 1) in M4 by lia. by replace (k + (i - k)) with i in M4 by lia. }
  destruct H1 as (B1 & L1 & C1 & E1 & E1'). clearbody b1. intros b2.
  destruct (extent_store_frame (ext_entry p k) x b1) as (B2 & L2 & C2); [rewrite ext_entry_eq; lia|done|].
  fold b2 in B2, L2, C2. pose proof (extent_at_store (ext_entry p k) x b1) as Ex. fold b2 in Ex.
  rewrite (ext_entry_eq p k) in C1, C2, Ex. rewrite (ext_entry_eq p (max_entries p b)) in *.
  assert (Hc2 : rd eh_entries_count p b2 = entries_count p b).
  { rewrite (header_after _ p (p + 12 + 12 * k + 12) b1) by (done || (eapply changed_in_weaken; [exact C2|lia..])).
    by apply (header_after _ p (p + 12 + 12 * max_entries p b) b); [|lia|eapply changed_in_weaken; [exact C1|lia..]]. }
  assert (Hm1 : rd eh_max_entries_count p b1 = max_entries p b).
  { by apply (header_after _ p (p + 12 + 12 * max_entries p b) b); [|lia|eapply changed_in_weaken; [exact C1|lia..]]. }
  assert (Hm2 : max_entries p b2 = max_entries p b).
  { rewrite <- Hm1. by apply (header_after _ p (p + 12 + 12 * k + 12) b1); [|lia|eapply changed_in_weaken; [exact C2|lia..]]. }
  intros b3. assert (Hc3 : entries_count p b3 = entries_count p b + 1).
  { subst b3. rewrite count_after; lia. }
  assert (Hm3 : max_entries p b3 = max_entries p b) by (subst b3; rewrite max_after; lia).
  split_and!; try done.
  - split; [done|by apply bytes_ok_wr|lia|]. rewrite Hm3, ext_entry_eq. subst b3. rewrite blen_wr. lia.
  - subst b3. rewrite blen_wr. lia.
  - eapply changed_in_trans; [|eapply changed_in_weaken; [apply (changed_in_wr _ p _ _ 12); [done|lia]|lia..]].
    eapply changed_in_trans; [eapply changed_in_weaken; [exact C1|lia..]|eapply changed_in_weaken; [exact C2|lia..]].
  - pose proof (length_node_extents p b) as Hlen. apply node_extents_eq.
    { rewrite length_app, length_take. cbn [length]. rewrite length_drop, Hc3. lia. }
    intros i y Hi. unfold b3. rewrite extent_after_count by lia.
    assert (Hlt : (Z.of_nat i < entries_count p b + 1)).
    { apply lookup_lt_Some in Hi. rewrite length_app, length_take in Hi. cbn [length] in Hi. rewrite length_drop in Hi. lia. }
    destruct (Z.lt_trichotomy (Z.of_nat i) k) as [Hik|[Hik|Hik]].
    + rewrite lookup_app_l, lookup_take_lt in Hi by (rewrite ?length_take; lia).
      replace i with (Z.to_nat (Z.of_nat i)) in Hi by lia. rewrite node_lookup in Hi by lia. simplify_eq.
      rewrite <- E1 by lia. apply extent_at_ext. rewrite ext_entry_eq. intros j Hj. apply C2; lia.
    + rewrite lookup_app_r in Hi by (rewrite length_take; lia). rewrite length_take in Hi.
      replace (i - _)%nat with 0%nat in Hi by lia. cbn in Hi. simplify_eq. rewrite ext_entry_eq.
      apply Ex; [lia|lia|done].
    + rewrite lookup_app_r in Hi by (rewrite length_take; lia). rewrite length_take in Hi.
      replace (i - _)%nat with (S (i - 1 - Z.to_nat k)) in Hi by lia.
      change (drop (Z.to_nat k) (node_extents p b) !! (i - 1 - Z.to_nat k)%nat = Some y) in Hi.
      rewrite lookup_drop in Hi. replace (Z.to_nat k + _)%nat with (Z.to_nat (Z.of_nat i - 1)) in Hi by lia.
      rewrite node_lookup in Hi by lia. simplify_eq. rewrite <- E1' by lia.
      replace (Z.of_nat i - 1 + 1) with (Z.of_nat i) by lia.
      apply extent_at_ext. rewrite ext_entry_eq. intros j Hj. apply C2; lia.
Qed.

(** Entry [k] is taken out, the entries after it move down. *)
Lemma remove_at p b k :
  node_in p b -> 0 <= k < entries_count p b ->
  let last := EXT_LAST_EXTENT p b in
  let b1 := if k <? last then entries_move p k (k + 1) (last - k) b else b in
  let b2 := wr eh_entries_count p (rd eh_entries_count p b1 - 1) b1 in
  node_in p b2 /\ blen b2 = blen b /\ max_entries p b2 = max_entries p b /\
  entries_count p b2 = entries_count p b - 1 /\
  changed_in p (ext_entry p (max_entries p b)) b b2 /\
  node_extents p b2 = take (Z.to_nat k) (node_extents p b) ++ drop (Z.to_nat (k + 1)) (node_extents p b).
Proof.
  intros [Hp Hb Hc Hroom] Hk last. pose proof (count_range p b) as Hcr. pose proof (max_range p b) as Hmr.
  assert (El : last = entries_count p b - 1) by done. clearbody last. rewrite ext_entry_eq in Hroom. intros b1.
  assert (H1 : bytes_ok b1 /\ blen b1 = blen b /\ changed_in (p + 12) (ext_entry p (max_entries p b)) b b1 /\
    (forall i, 0 <= i < k -> extent_at (ext_entry p i) b1 = extent_at (ext_entry p i) b) /\
    (forall i, k <= i < entries_count p b - 1 -> extent_at (ext_entry p i) b1 = extent_at (ext_entry p (i + 1)) b)).
  { subst b1. destruct (Z.ltb_spec k last); [|split_and!; try done; lia].
    destruct (entries_move_spec p k (k + 1) (last - k) b) as (M1 & M2 & M3 & M4); rewrite ?ext_entry_eq; try done; try lia.
    rewrite !ext_entry_eq in *. split_and!; try done.
    - eapply changed_in_weaken; [exact M3|lia..].
    - intros i Hi. apply extent_at_ext. rewrite ext_entry_eq. intros j Hj. apply M3; lia.
    - intros i Hi. specialize (M4 (i - k) ltac:(lia)).
      replace (k + (i - k)) with i in M4 by lia. by replace (k + 1 + (i - k)) with (i + 1) in M4 by lia. }
  destruct H1 as (B1 & L1 & C1 & E1 & E1'). clearbody b1. intros b2.
  assert (Hc1 : rd eh_entries_count p b1 = entries_count p b).
  { by apply (header_after _ p (ext_entry p (max_entries p b)) b); [|lia|]. }
  assert (Hm1 : max_entries p b1 = max_entries p b).
  { by apply (header_after _ p (ext_entry p (max_entries p b)) b); [|lia|]. }
  assert (Hc2 : entries_count p b2 = entries_count p b - 1) by (subst b2; rewrite count_after; lia).
  assert (Hm2 : max_entries p b2 = max_entries p b) by (subst b2; rewrite max_after; lia).
  assert (L2 : blen b2 = blen b) by (subst b2; rewrite blen_wr; lia).
  pose proof (length_node_extents p b) as Hlen. split_and!; try done.
  - split; [done|by apply bytes_ok_wr|lia|]. rewrite Hm2, ext_entry_eq. lia.
  - eapply changed_in_trans; [eapply changed_in_weaken; [exact C1|lia..]|].
    eapply changed_in_weaken; [apply (changed_in_wr _ p _ _ 12); [done|lia]|lia|rewrite ext_entry_eq; lia].
  - apply node_extents_eq.
    { rewrite length_app, length_take, length_drop, Hc2. lia. }
    intros i y Hi. unfold b2. rewrite extent_after_count by lia.
    assert (Hlt : Z.of_nat i < entries_count p b - 1).
    { apply lookup_lt_Some in Hi. rewrite length_app, length_take, length_drop in Hi. lia. }
    destruct (Z.lt_ge_cases (Z.of_nat i) k) as [Hik|Hik].
    + rewrite lookup_app_l, lookup_take_lt in Hi by (rewrite ?length_take; lia).
      replace i with (Z.to_nat (Z.of_nat i)) in Hi by lia. rewrite node_lookup in Hi by lia. simplify_eq. apply E1. lia.
    + rewrite lookup_app_r in Hi by (rewrite length_take; lia). rewrite length_take, lookup_drop in Hi.
      replace (Z.to_nat (k + 1) + _)%nat with (Z.to_nat (Z.of_nat i + 1)) in Hi by lia.
      rewrite node_lookup in Hi by lia. simplify_eq. apply E1'. lia.
Qed.
