(* ===== verification/ExtProps.v ===== *)
(** * Properties of extent nodes

    The searches and the checks stay inside a node whatever it holds; a leaf is a
    map from file blocks to physical blocks, looked up by the search and changed by
    inserting and merging. *)

From Stdlib Require Import Sorted.
From S2P Require Import Prelude Layout Types Crc Super BlockGroup Inode ExtNode ExtLaws.

(** ** A merged extent *)

Definition merged_count (x y : extent) : Z :=
  if x_unwritten x then Z.lor (x_len x + x_len y) EXT_INIT_MAX_LEN else x_len x + x_len y.

Section Merge.
Context (x y : extent) (Hx : ext_ok x) (Hy : ext_ok y).
Context (Hs : x_unwritten x = x_unwritten y) (Hf : len_fits x y = true).

Lemma merged_count_ok :
  0 <= x_len x + x_len y < 2 ^ 16 /\ 0 <= merged_count x y < 2 ^ 16 /\
  forall f s, x_len (mk_extent f (merged_count x y) s) = x_len x + x_len y /\
              x_unwritten (mk_extent f (merged_count x y) s) = x_unwritten x.
Proof.
  pose proof (xo_len _ Hx). pose proof (xo_len _ Hy). unfold len_fits in Hf.
  unfold merged_count, x_unwritten, x_len in *. cbn [x_count].
  unfold EXT_UNWRITTEN_MAX_LEN, EXT_INIT_MAX_LEN in *.
  set (n := _ + _) in *. destruct (32768 <? x_count x) eqn:E.
  - assert (Hlor : Z.lor n 32768 = n + 32768).
    { rewrite <- Z.add_nocarry_lor; [done|]. change 32768 with (2 ^ 15). apply Z.bits_inj'. intros i Hi.
      rewrite Z.land_spec, Z.pow2_bits_eqb, Z.bits_0 by lia. destruct (Z.eqb_spec 15 i) as [<-|]; [|by rewrite andb_false_r].
      rewrite (Z.bits_above_log2 n 15); [done|lia|]. apply Z.log2_lt_pow2; lia. }
    rewrite Hlor. split_and!; [lia..|]. intros _ _.
    replace (n + 32768 <=? 32768) with false by lia. replace (32768 <? n + 32768) with true by lia. split; [lia|done].
  - split_and!; [lia..|]. intros _ _. replace (n <=? 32768) with true by lia. replace (32768 <? n) with false by lia. done.
Qed.
End Merge.

Lemma extent_at_merged e c u b :
  0 <= e -> e + 12 <= blen b -> 0 <= c < 2 ^ 16 ->
  extent_at e (set_merged_count e c u b) =
  mk_extent (rd ex_first_block e b) (if u then Z.lor c EXT_INIT_MAX_LEN else c) (ext4_ext_pblock e b).
Proof.
  intros He Hb Hc. unfold extent_at, set_merged_count, ext4_ext_mark_unwritten, ext4_ext_pblock.
  destruct u; struct_reads 12; cbn [f_size ex_block_count]; change (2 ^ (8 * 2)) with (2 ^ 16);
    f_equal; [|by apply Z.mod_small]. rewrite (Z.mod_small c) by lia. apply Z.mod_small.
  split; [apply Z.lor_nonneg; unfold EXT_INIT_MAX_LEN; lia|].
  assert (Hl : Z.log2 (Z.lor c EXT_INIT_MAX_LEN) < 16).
  { rewrite Z.log2_lor by (unfold EXT_INIT_MAX_LEN; lia). change (Z.log2 EXT_INIT_MAX_LEN) with 15.
    destruct (Z.eq_dec c 0) as [->|]; [cbn; lia|]. assert (Z.log2 c < 16) by (apply Z.log2_lt_pow2; lia). lia. }
  assert (0 < Z.lor c EXT_INIT_MAX_LEN).
  { assert (H : Z.lor c EXT_INIT_MAX_LEN <> 0) by (rewrite Z.lor_eq_0_iff; unfold EXT_INIT_MAX_LEN; lia).
    assert (0 <= Z.lor c EXT_INIT_MAX_LEN) by (apply Z.lor_nonneg; unfold EXT_INIT_MAX_LEN; lia). lia. }
  by apply Z.log2_lt_pow2.
Qed.

Lemma merged_frame e c u b :
  0 <= e -> bytes_ok b ->
  bytes_ok (set_merged_count e c u b) /\ blen (set_merged_count e c u b) = blen b /\
  changed_in e (e + 12) b (set_merged_count e c u b).
Proof.
  intros He Hb. unfold set_merged_count, ext4_ext_mark_unwritten. destruct u; (split_and!;
    [by repeat apply bytes_ok_wr|by rewrite !blen_wr|];
    repeat (eapply changed_in_trans; [|apply (changed_in_wr _ _ _ _ 12); [done|lia]]); apply changed_in_refl).
Qed.

(** Changing entry [k] changes that entry of the list. *)
Lemma node_entry_changed p b b' k :
  node_in p b -> 0 <= k < entries_count p b -> bytes_ok b' -> blen b' = blen b ->
  changed_in (ext_entry p k) (ext_entry p k + 12) b b' ->
  node_in p b' /\ entries_count p b' = entries_count p b /\ max_entries p b' = max_entries p b /\
  node_extents p b' = <[Z.to_nat k := extent_at (ext_entry p k) b']> (node_extents p b).
Proof.
  intros [Hp Hb Hc Hr] Hk Hb' Hl Hch. rewrite ext_entry_eq in Hch.
  assert (E : forall f, f_within 12 f = true -> rd f p b' = rd f p b).
  { intros f Hf. apply (header_after f p (p + 12 + 12 * k + 12)); [done|done|]. eapply changed_in_weaken; [exact Hch|lia..]. }
  assert (Ec : entries_count p b' = entries_count p b) by by apply E.
  assert (Em : max_entries p b' = max_entries p b) by by apply E.
  split_and!; try done.
  - split; try done; [lia|]. by rewrite Em, Hl.
  - pose proof (length_node_extents p b). apply node_extents_eq; [rewrite length_insert; lia|].
    intros i y Hi. assert (Hlt := lookup_lt_Some _ _ _ Hi). rewrite length_insert in Hlt.
    destruct (decide (i = Z.to_nat k)) as [->|Hne].
    + rewrite list_lookup_insert_eq in Hi by lia. simplify_eq. by rewrite Z2Nat.id by lia.
    + rewrite list_lookup_insert_ne in Hi by done. replace i with (Z.to_nat (Z.of_nat i)) in Hi by lia.
      rewrite node_lookup in Hi by lia. simplify_eq. apply extent_at_ext. rewrite ext_entry_eq.
      intros j Hj. apply Hch; lia.
Qed.

Lemma insert_middle {A} (l1 : list A) x y l2 : <[length l1 := y]> (l1 ++ x :: l2) = l1 ++ y :: l2.
Proof. by rewrite insert_app_r_alt, Nat.sub_diag by lia. Qed.

(** ** Lists of extents *)

Lemma leaf_ok_cons x l : leaf_ok (x :: l) <-> ext_ok x /\ leaf_ok l /\ (forall y, y ∈ l -> before x y).
Proof.
  change (x :: l) with ([x] ++ l). rewrite leaf_ok_app. split.
  - intros ([H _] & Hl & Hb). inversion H; subst. split_and!; try done. intros y. apply Hb. apply list_elem_of_here.
  - intros (H & Hl & Hb). split; [split; [by apply Forall_singleton|repeat constructor]|split; [done|]].
    intros z y ->%list_elem_of_singleton. apply Hb.
Qed.
Lemma leaf_ok_middle l1 x l2 :
  leaf_ok (l1 ++ x :: l2) <->
  leaf_ok (l1 ++ l2) /\ ext_ok x /\ (forall y, y ∈ l1 -> before y x) /\ (forall y, y ∈ l2 -> before x y).
Proof.
  rewrite !leaf_ok_app, leaf_ok_cons. split.
  - intros (H1 & (Hx & H2 & Hx2) & H12). split_and!; try done.
    + intros y z Hy Hz. apply H12; [done|]. by apply list_elem_of_further.
    + intros y Hy. apply H12; [done|apply list_elem_of_here].
  - intros ((H1 & H2 & H12) & Hx & Hx1 & Hx2). split_and!; try done.
    intros y z Hy [->|Hz]%elem_of_cons; [by apply Hx1|by apply H12].
Qed.

(** The map of a list with [x] in the middle. *)
Lemma lookup_middle l1 x l2 blk :
  leaf_ok (l1 ++ x :: l2) ->
  leaf_lookup (l1 ++ x :: l2) blk =
  match ext_map x blk with Some v => Some v | None => leaf_lookup (l1 ++ l2) blk end.
Proof.
  intros H. destruct (ext_map x blk) as [v|] eqn:E.
  - assert (Hc : covers x blk).
    { unfold ext_map in E. cbn [leaf_lookup] in E. unfold covers.
      destruct ((x_first x <=? blk) && (blk <? x_first x + x_len x)) eqn:Eb; [lia|done]. }
    rewrite (leaf_lookup_at _ _ _ _ H Hc). rewrite <- E. symmetry. by apply ext_map_covers.
  - rewrite !leaf_lookup_app. cbn [leaf_lookup]. unfold ext_map in E. cbn [leaf_lookup] in E.
    destruct (_ && _); [done|]. done.
Qed.

(** The new extent and the entries have no block in common. *)
Definition apart_from (es : list extent) (x : extent) : Prop :=
  forall y, y ∈ es -> before y x \/ before x y.

(** The map with [x] added. *)
Definition maps_with (es : list extent) (x : extent) (es' : list extent) : Prop :=
  forall blk, leaf_lookup es' blk =
    match ext_map x blk with Some v => Some v | None => leaf_lookup es blk end.

Lemma append_map l1 x y l2 x' :
  leaf_ok (l1 ++ x :: l2) -> ext_ok y -> apart_from (l1 ++ x :: l2) y ->
  Forall (fun z => x_first y < x_first z) l2 ->
  x_first x + x_len x = x_first y -> x_start x + x_len x = x_start y -> x_unwritten x = x_unwritten y ->
  x_first x' = x_first x -> x_start x' = x_start x -> x_len x' = x_len x + x_len y ->
  x_unwritten x' = x_unwritten x -> extent_fits x' ->
  leaf_ok (l1 ++ x' :: l2) /\ maps_with (l1 ++ x :: l2) y (l1 ++ x' :: l2).
Proof.
  intros H Hy Ha Hl2 Hf Hst Hu F1 F2 F3 F4 F5. apply leaf_ok_middle in H as H'. destruct H' as (H0 & Hx & Hx1 & Hx2).
  pose proof (xo_len _ Hx). pose proof (xo_len _ Hy). pose proof (xo_end _ Hy).
  assert (Hok : leaf_ok (l1 ++ x' :: l2)).
  { apply leaf_ok_middle. split_and!; try done.
    - split; [done|lia|lia].
    - intros z Hz. specialize (Hx1 z Hz). unfold before in *. lia.
    - intros z Hz. rewrite Forall_forall in Hl2. specialize (Hl2 z Hz).
      destruct (Ha z) as [Hb|Hb]; [set_solver| |unfold before in *; lia].
      unfold before in Hb. assert (Hzok : ext_ok z).
      { destruct H0 as [HF _]. rewrite Forall_forall in HF. apply HF. set_solver. }
      pose proof (xo_len _ Hzok). lia. }
  split; [done|]. intros blk. rewrite !lookup_middle by done.
  unfold ext_map. cbn [leaf_lookup]. rewrite F1, F2, F3, F4.
  destruct (Z.leb_spec (x_first x) blk), (Z.ltb_spec blk (x_first x + x_len x)),
    (Z.ltb_spec blk (x_first x + (x_len x + x_len y))), (Z.leb_spec (x_first y) blk),
    (Z.ltb_spec blk (x_first y + x_len y)); cbn [andb]; try lia; try done.
  rewrite Hu. all: do 2 f_equal; lia.
Qed.

(** What merging in front does: the run of both keeps the start of the old
    extent. *)
Lemma prepend_map x y l2 x' :
  leaf_ok (x :: l2) -> ext_ok y -> x_first y + x_len y = x_first x ->
  x_first x' = x_first y -> x_start x' = x_start x -> x_len x' = x_len x + x_len y ->
  x_unwritten x' = x_unwritten x -> extent_fits x' ->
  leaf_ok (x' :: l2) /\
  forall blk, leaf_lookup (x' :: l2) blk =
    if (x_first y <=? blk) && (blk <? x_first x + x_len x)
    then Some (x_start x + (blk - x_first y), x_unwritten x) else leaf_lookup (x :: l2) blk.
Proof.
  intros H Hy Hf F1 F2 F3 F4 F5. apply leaf_ok_cons in H as (Hx & H2 & Hx2).
  pose proof (xo_len _ Hx). pose proof (xo_len _ Hy). pose proof (xo_end _ Hx). split.
  - apply leaf_ok_cons. split_and!; [split; [done|lia|lia]|done|].
    intros z Hz. specialize (Hx2 z Hz). unfold before in *. lia.
  - intros blk. cbn [leaf_lookup]. rewrite F1, F2, F3, F4.
    destruct (Z.leb_spec (x_first x) blk), (Z.ltb_spec blk (x_first x + x_len x)),
      (Z.ltb_spec blk (x_first y + (x_len x + x_len y))), (Z.leb_spec (x_first y) blk); cbn [andb]; try lia; done.
Qed.

Lemma insert_map l1 l2 y :
  leaf_ok (l1 ++ l2) -> ext_ok y -> apart_from (l1 ++ l2) y ->
  Forall (fun z => x_first z <= x_first y) l1 -> Forall (fun z => x_first y < x_first z) l2 ->
  leaf_ok (l1 ++ y :: l2) /\ maps_with (l1 ++ l2) y (l1 ++ y :: l2).
Proof.
  intros H Hy Ha H1 H2. rewrite Forall_forall in H1, H2.
  assert (Hz : forall z, z ∈ l1 ++ l2 -> 0 < x_len z).
  { destruct H as [HF _]. rewrite Forall_forall in HF. intros z Hz. by apply xo_len, HF. }
  pose proof (xo_len _ Hy).
  assert (Hok : leaf_ok (l1 ++ y :: l2)).
  { apply leaf_ok_middle. split_and!; try done; intros z Hz'; (destruct (Ha z) as [Hb|Hb]; [set_solver| |]); try done;
      exfalso; unfold before in *; specialize (Hz z ltac:(set_solver)).
    - specialize (H1 z Hz'). lia.
    - specialize (H2 z Hz'). lia. }
  split; [done|]. intros blk. by apply lookup_middle.
Qed.

(** ** Inserting *)

(** A leaf at byte [p] of [b] whose entries are [es]. *)
Record leaf_in (p : Z) (b : list Z) (es : list extent) : Prop := {
  li_node : node_in p b;
  li_entries : node_extents p b = es;
  li_ok : leaf_ok es;
}.

(** Every part of the file the buffer is for, but the leaf, is as it was. *)
Definition same_around (p : Z) (b b' : list Z) : Prop :=
  blen b' = blen b /\ max_entries p b' = max_entries p b /\
  changed_in p (ext_entry p (max_entries p b)) b b'.

Lemma changed_entry p b b' k :
  node_in p b -> 0 <= k < entries_count p b ->
  changed_in (ext_entry p k) (ext_entry p k + 12) b b' -> changed_in p (ext_entry p (max_entries p b)) b b'.
Proof.
  intros [Hp _ Hc _] Hk H. rewrite !ext_entry_eq in *. eapply changed_in_weaken; [exact H|lia..].
Qed.

Section Insert.
Context (p : Z) (b : list Z) (es : list extent) (new : extent).
Context (L : leaf_in p b es) (Hnew : ext_ok new).

(** Folding [new] into entry [k], at its end or in front. *)
Lemma merge_leaf l1 x l2 b0 :
  es = l1 ++ x :: l2 -> x_unwritten x = x_unwritten new -> len_fits x new = true ->
  let e := ext_entry p (Z.of_nat (length l1)) in
  bytes_ok b0 -> blen b0 = blen b -> changed_in e (e + 12) b b0 ->
  rd ex_block_count e b0 = x_count x -> ext4_ext_pblock e b0 = x_start x ->
  let b' := set_merged_count e (x_len x + x_len new) (x_unwritten x) b0 in
  let x' := mk_extent (rd ex_first_block e b0) (merged_count x new) (x_start x) in
  node_in p b' /\ node_extents p b' = l1 ++ x' :: l2 /\ same_around p b b' /\
  x_len x' = x_len x + x_len new /\ x_unwritten x' = x_unwritten x /\ extent_fits x'.
Proof.
  destruct L as [N HE Hok]. intros -> Hu Hf e Hb0 Hl0 Hc0 _ Hst b' x'.
  apply leaf_ok_middle in Hok as (_ & Hx & _). pose proof N as [Hp _ Hc Hr].
  pose proof (length_node_extents p b) as Hlen. rewrite HE, length_app in Hlen. cbn [length] in Hlen.
  destruct (merged_count_ok x new Hx Hnew Hu Hf) as (M1 & M2 & M3).
  assert (He : 0 <= e /\ e + 12 <= blen b) by (subst e; rewrite ext_entry_eq in *; lia).
  destruct (merged_frame e (x_len x + x_len new) (x_unwritten x) b0) as (B1 & B2 & B3); [lia|done|]. fold b' in B1, B2, B3.
  assert (Hch : changed_in e (e + 12) b b') by (eapply changed_in_trans; [exact Hc0|exact B3]).
  destruct (node_entry_changed p b b' (Z.of_nat (length l1)) N) as (N1 & N2 & N3 & N4); [lia|done|lia|done|].
  assert (Ex : extent_at e b' = x').
  { unfold b'. rewrite extent_at_merged by lia. unfold x', merged_count. by rewrite Hst. }
  destruct (M3 (rd ex_first_block e b0) (x_start x)) as [F1 F2]. split_and!; try done.
  - rewrite N4, HE, Nat2Z.id, insert_middle. fold e. by rewrite Ex.
  - split; [lia|split; [done|]]. by apply (changed_entry p b b' (Z.of_nat (length l1))); [|lia|].
  - split; cbn [x' x_first x_count x_start]; [by apply (rd_range ex_first_block)|done|apply Hx].
Qed.

Context (Ha : apart_from es new).

Lemma enter_leaf cur l1 l2 :
  es = l1 ++ l2 -> leaf_slot p cur new b = Z.of_nat (length l1) ->
  Forall (fun z => x_first z <= x_first new) l1 -> Forall (fun z => x_first new < x_first z) l2 ->
  match leaf_enter p cur new b with
  | LeafInserted k b' =>
      leaf_in p b' (l1 ++ new :: l2) /\ k = Z.of_nat (length l1) /\ same_around p b b' /\
      maps_with es new (l1 ++ new :: l2)
  | LeafFull => entries_count p b = max_entries p b
  | LeafMerged _ _ | LeafRefused _ => False
  end.
Proof.
  destruct L as [N HE Hok]. intros -> Hslot H1 H2. pose proof (ni_count _ _ N) as Hcm.
  pose proof (length_node_extents p b) as Hlen. rewrite HE, length_app in Hlen.
  unfold leaf_enter. fold (entries_count p b) (max_entries p b).
  destruct (Z.eqb_spec (entries_count p b) (max_entries p b)) as [|Hfull]; [done|].
  rewrite Hslot. set (k := Z.of_nat (length l1)).
  destruct (enter_at p b k new N ltac:(lia) ltac:(lia) (xo_fits _ Hnew)) as (E1 & E2 & E3 & E4 & E5 & E6 & E7).
  set (b1 := if 0 <? EXT_LAST_EXTENT p b - k + 1 then _ else b) in *. cbv zeta. 
  unfold EXT_MAX_EXTENT. change (ext4_extent_header_get_max_entries_count p b1) with (rd eh_max_entries_count p b1).
  rewrite E1. replace (max_entries p b - 1 <? k) with false by lia.
  set (b2 := extent_store (ext_entry p k) new b1) in *.
  set (b3 := wr eh_entries_count p (rd eh_entries_count p b2 + 1) b2) in *.
  unfold EXT_LAST_EXTENT. change (ext4_extent_header_get_entries_count p b3) with (entries_count p b3).
  rewrite E5. replace (entries_count p b + 1 - 1 <? k) with false by lia.
  destruct (insert_map l1 l2 new Hok Hnew Ha H1 H2) as [Hok' Hm]. split_and!; try done. split; try done.
  rewrite E7, HE. subst k. rewrite Nat2Z.id. by rewrite take_app_length, drop_app_length.
Qed.

(** The three branches, at the entry [x] the search found. *)
Context (l1 l2 : list extent) (x : extent).
Context (El : es = l1 ++ x :: l2) (Ex : extent_at (ext_entry p (Z.of_nat (length l1))) b = x).
Local Abbreviation k := (Z.of_nat (length l1)).
Local Abbreviation e := (ext_entry p k).

Lemma found_ok : ext_ok x /\ leaf_ok (l1 ++ x :: l2) /\ (before x new \/ before new x) /\ x_first new <> x_first x.
Proof.
  destruct L as [_ _ Hok]. rewrite El in Hok. apply leaf_ok_middle in Hok as Hok'.
  destruct Hok' as (_ & Hx & _). split_and!; try done; [apply Ha; rewrite El; set_solver|].
  pose proof (xo_len _ Hx). pose proof (xo_len _ Hnew). intros E.
  destruct (Ha x) as [Hb|Hb]; [rewrite El; set_solver|unfold before in Hb; lia..].
Qed.

Lemma found_room : 0 <= e /\ e + 12 <= blen b.
Proof.
  destruct L as [[Hp _ Hc Hr] HE _]. pose proof (length_node_extents p b) as Hl.
  rewrite HE, El, length_app in Hl. cbn [length] in Hl. rewrite ext_entry_eq in *. lia.
Qed.

Context (H2 : Forall (fun z => x_first new < x_first z) l2).

Lemma append_case :
  ext4_ext_can_append x new = true ->
  let b' := set_merged_count e (x_len x + x_len new) (x_unwritten x) b in
  same_around p b b' /\ x_first x < x_first new /\
  exists es', leaf_in p b' es' /\ maps_with es new es'.
Proof.
  intros Hcan b'. destruct found_ok as (Hx & Hok & _). 
  pose proof (xo_len _ Hx). pose proof (xo_end _ Hx). pose proof (xf_first _ (xo_fits _ Hx)).
  pose proof (xf_start _ (xo_fits _ Hx)). pose proof (x_len_range _ (xo_fits _ Hx)). unfold EXT_MAX_BLOCKS in *.
  unfold ext4_ext_can_append in Hcan. rewrite u64_id, u32_id in Hcan by lia.
  apply andb_prop in Hcan as [Hcan Hc4]. apply andb_prop in Hcan as [Hcan Hc3]. apply andb_prop in Hcan as [Hc1 Hc2].
  apply Bool.eqb_prop in Hc1.
  destruct (merge_leaf l1 x l2 b El Hc1 Hc3) as (M1 & M2 & M3 & M4 & M5 & M6); try done;
    [apply L|by rewrite <- Ex|by rewrite <- Ex|].
  split; [done|]. split; [lia|]. 
  destruct (append_map l1 x new l2 (mk_extent (rd ex_first_block e b) (merged_count x new) (x_start x)) Hok Hnew)
    as [A1 A2]; try done; try lia; [by rewrite <- El|by rewrite <- Ex|].
  eexists. split; [by split|]. by rewrite El.
Qed.

Context (H3 : x_first x <= x_first new \/ l1 = []).

Lemma prepend_case :
  ext4_ext_can_prepend x new = true ->
  let b' := set_merged_count e (x_len x + x_len new) (x_unwritten x) (wr ex_first_block e (x_first new) b) in
  same_around p b b' /\ x_first new < x_first x /\
  exists es', leaf_in p b' es' /\
    forall blk, leaf_lookup es' blk =
      if (x_first new <=? blk) && (blk <? x_first x + x_len x)
      then Some (x_start x + (blk - x_first new), x_unwritten x) else leaf_lookup es blk.
Proof.
  intros Hcan b'. destruct found_ok as (Hx & Hok & _). pose proof found_room as Hroom.
  pose proof (xo_len _ Hnew). pose proof (xo_end _ Hnew). pose proof (xf_first _ (xo_fits _ Hnew)). unfold EXT_MAX_BLOCKS in *.
  unfold ext4_ext_can_prepend in Hcan. rewrite u32_id in Hcan by lia.
  apply andb_prop in Hcan as [Hcan Hc4]. apply andb_prop in Hcan as [Hcan Hc3]. apply andb_prop in Hcan as [Hc1 Hc2].
  apply Bool.eqb_prop in Hc1.
  destruct (merge_leaf l1 x l2 (wr ex_first_block e (x_first new) b) El Hc1 Hc3) as (M1 & M2 & M3 & M4 & M5 & M6).
  { apply bytes_ok_wr, L. }
  { apply blen_wr. }
  { apply (changed_in_wr _ _ _ _ 12); [done|lia]. }
  { rewrite rd_wr_ne by (done || lia). by rewrite <- Ex. }
  { unfold ext4_ext_pblock. rewrite !rd_wr_ne by (done || lia). by rewrite <- Ex. }
  split; [done|]. split; [lia|]. rewrite (rd_wr_eq _ _ _ _ 12) in * by (done || lia).
  change (2 ^ (8 * f_size ex_first_block)) with (2 ^ 32) in *. rewrite Z.mod_small in * by lia.
  destruct H3 as [?|E1]; [lia|]. set (x' := mk_extent (x_first new) (merged_count x new) (x_start x)) in *.
  assert (El' : es = x :: l2) by by rewrite El, E1.
  replace (l1 ++ x' :: l2) with (x' :: l2) in M2 by by rewrite E1.
  destruct (prepend_map x new l2 x') as [A1 A2]; try done; try lia; [by rewrite E1 in Hok|].
  exists (x' :: l2). split; [by split|]. by rewrite El'.
Qed.

Lemma enter_case :
  match leaf_enter p (Some k) new b with
  | LeafInserted _ b' => same_around p b b' /\ exists es', leaf_in p b' es' /\ maps_with es new es'
  | LeafFull => entries_count p b = max_entries p b
  | LeafMerged _ _ | LeafRefused _ => False
  end.
Proof.
  destruct found_ok as (Hx & Hok & _ & Hne). apply leaf_ok_middle in Hok as (H0 & _ & Hx1 & _).
  pose proof (xo_len _ Hx).
  assert (Hent : exists l1' l2', es = l1' ++ l2' /\ leaf_slot p (Some k) new b = Z.of_nat (length l1') /\
    Forall (fun z => x_first z <= x_first new) l1' /\ Forall (fun z => x_first new < x_first z) l2').
  { unfold leaf_slot. change (rd ex_first_block e b) with (x_first (extent_at e b)). rewrite Ex.
    destruct (Z.ltb_spec (x_first x) (x_first new)).
    - exists (l1 ++ [x]), l2. rewrite <- app_assoc, length_app. cbn [length]. split_and!; [done|lia| |done].
      apply Forall_app. split; [|apply Forall_singleton; lia]. apply Forall_forall. intros z Hz.
      specialize (Hx1 z Hz). unfold before in Hx1.
      assert (Hzok : ext_ok z). { destruct H0 as [HF _]. rewrite Forall_forall in HF. apply HF. set_solver. }
      pose proof (xo_len z Hzok). lia.
    - destruct H3 as [?|E1]; [lia|]. exists [], (x :: l2). rewrite El, E1.
      split_and!; [done|done|constructor|]. constructor; [lia|done]. }
  destruct Hent as (l1' & l2' & El' & Hslot & HF1 & HF2).
  pose proof (enter_leaf (Some k) l1' l2' El' Hslot HF1 HF2) as HE.
  destruct (leaf_enter p (Some k) new b); try done. destruct HE as (E1 & _ & E2 & E3). eauto.
Qed.
End Insert.

(** C17: what entering an extent does to the map of a leaf.  The path points at
    the entry the search found for it, and the extent has no block in common with
    the leaf.  If it becomes an entry of its own, or is appended to the entry before
    it, the new leaf maps what the old one maps and the blocks of the extent, and
    nothing else; it is refused only when the leaf is full, never as a duplicate.
    If it is merged in front of the entry after it, the run of the two is mapped
    from the old entry's first physical block on. *)
Theorem leaf_insert_maps (p : Z) (b : list Z) (es : list extent) (new : extent) (no_combine : bool)
    (L : leaf_in p b es) (Hnew : ext_ok new) (Ha : apart_from es new) :
  match leaf_insert_node p (ext4_ext_binsearch p (x_first new) b) new no_combine b with
  | LeafInserted _ b' => same_around p b b' /\ exists es', leaf_in p b' es' /\ maps_with es new es'
  | LeafMerged k b' => same_around p b b' /\
      exists es' old, leaf_in p b' es' /\ es !! Z.to_nat k = Some old /\
        if x_first old <? x_first new then maps_with es new es'
        else forall blk, leaf_lookup es' blk =
               if (x_first new <=? blk) && (blk <? x_first old + x_len old)
               then Some (x_start old + (blk - x_first new), x_unwritten old) else leaf_lookup es blk
  | LeafFull => entries_count p b = max_entries p b
  | LeafRefused _ => False
  end.
Proof.
  pose proof (search_finds p b (x_first new) es (li_node _ _ _ L) (li_entries _ _ _ L) (li_ok _ _ _ L)
    (xf_first _ (xo_fits _ Hnew))) as HS.
  destruct (ext4_ext_binsearch p (x_first new) b) as [k|]; cbn [leaf_insert_node].
  2: { pose proof (enter_leaf p b es new L Hnew Ha None [] [] HS eq_refl (Forall_nil_2 _) (Forall_nil_2 _)) as HE.
       destruct (leaf_enter p None new b); try done. destruct HE as (H1 & _ & H2 & H3). eauto. }
  destruct HS as (l1 & x & l2 & El & -> & Ex & _ & H2 & H3 & _). rewrite Ex.
  destruct (found_ok p b es new L Hnew Ha l1 l2 x El Ex) as (_ & _ & _ & Hne).
  destruct (Z.eqb_spec (x_first new) (x_first x)); [done|].
  assert (Hlook : es !! Z.to_nat (Z.of_nat (length l1)) = Some x).
  { rewrite El, Nat2Z.id. by apply list_lookup_middle. }
  destruct (negb no_combine && ext4_ext_can_append x new) eqn:Eapp.
  { apply andb_prop in Eapp as [_ Hcan].
    destruct (append_case p b es new L Hnew Ha l1 l2 x El Ex H2 Hcan) as (A1 & A2 & es' & A3 & A4).
    split; [done|]. exists es', x. split_and!; try done. by replace (x_first x <? x_first new) with true by lia. }
  destruct (negb no_combine && ext4_ext_can_prepend x new) eqn:Epre.
  { apply andb_prop in Epre as [_ Hcan].
    destruct (prepend_case p b es new L Hnew Ha l1 l2 x El Ex H3 Hcan) as (A1 & A2 & es' & A3 & A4).
    split; [done|]. exists es', x. split_and!; try done. by replace (x_first x <? x_first new) with false by lia. }
  pose proof (enter_case p b es new L Hnew Ha l1 l2 x El Ex H2 H3) as HE.
  by destruct (leaf_enter p (Some (Z.of_nat (length l1))) new b).
Qed.

(** A leaf with one extent: file block 1 at block 101. *)
Definition leaf_sample : list Z :=
  extent_store 12 (mk_extent 1 1 101)
    (wr eh_max_entries_count 0 4 (wr eh_entries_count 0 1 (wr eh_magic 0 EXT4_EXTENT_MAGIC (replicate 60 0)))).
Lemma leaf_sample_ok : leaf_in 0 leaf_sample [mk_extent 1 1 101].
Proof.
  split.
  - split; [done|apply (bool_decide_unpack _); by vm_compute|by vm_compute|by vm_compute].
  - by vm_compute.
  - split; [|repeat constructor]. apply Forall_singleton. split; [split; done|done|done].
Qed.
Lemma ext_ok_small f n s : 0 <= f < 1000 -> 0 < n < 1000 -> 0 <= s < 1000 -> ext_ok (mk_extent f n s).
Proof.
  intros. assert (x_len (mk_extent f n s) = n).
  { unfold x_len, EXT_INIT_MAX_LEN. cbn. by replace (n <=? 32768) with true by lia. }
  split; [split; cbn; lia|lia|unfold EXT_MAX_BLOCKS; cbn; lia].
Qed.
Lemma apart_small f n s : f + n <= 1 \/ 2 <= f -> 0 < n < 1000 -> apart_from [mk_extent 1 1 101] (mk_extent f n s).
Proof.
  intros H Hn y ->%list_elem_of_singleton. assert (x_len (mk_extent f n s) = n).
  { unfold x_len, EXT_INIT_MAX_LEN. cbn. by replace (n <=? 32768) with true by lia. }
  unfold before. change (x_len (mk_extent 1 1 101)) with 1. cbn [x_first]. lia.
Qed.

Lemma leaf_insert_maps_witness :
  exists b' es', leaf_insert_node 0 (ext4_ext_binsearch 0 2 leaf_sample) (mk_extent 2 3 102) false leaf_sample
      = LeafMerged 0 b' /\
    leaf_in 0 b' es' /\ leaf_lookup es' 4 = Some (104, false) /\ leaf_lookup es' 1 = Some (101, false).
Proof.
  pose proof (leaf_insert_maps 0 leaf_sample _ (mk_extent 2 3 102) false leaf_sample_ok
    (ext_ok_small 2 3 102 ltac:(lia) ltac:(lia) ltac:(lia)) (apart_small 2 3 102 ltac:(lia) ltac:(lia))) as H.
  change (x_first (mk_extent 2 3 102)) with 2 in H.
  destruct (leaf_insert_node 0 (ext4_ext_binsearch 0 2 leaf_sample) (mk_extent 2 3 102) false leaf_sample)
    as [k b'| | |] eqn:E; [|exfalso; revert E; by vm_compute..].
  assert (Hk : k = 0) by (revert E; vm_compute; by intros [= <- _]). subst k.
  destruct H as (_ & es' & old & HL & Hold & Hm). cbn in Hold. injection Hold as <-.
  exists b', es'. split; [reflexivity|]. split; [exact HL|]. split; rewrite Hm; by vm_compute.
Defined.

(** C37: merging an extent in front of the entry after it moves the blocks the
    entry had.  Whenever the test for merging in front succeeds, the extent is
    merged with the entry the search found, and afterwards every block of that
    entry is mapped [x_len new] blocks after the block that holds its data, while
    the blocks of the new extent are mapped where the entry's data is.  The entry's
    start is the one thing the code does not store. *)
Theorem prepend_moves_blocks (p : Z) (b : list Z) (es : list extent) (new old : extent) (k : Z)
    (L : leaf_in p b es) (Hnew : ext_ok new) (Ha : apart_from es new)
    (Hk : ext4_ext_binsearch p (x_first new) b = Some k) (Hold : es !! Z.to_nat k = Some old)
    (Hpre : ext4_ext_can_prepend old new = true) :
  exists b' es', leaf_insert_node p (Some k) new false b = LeafMerged k b' /\ leaf_in p b' es' /\
    (forall blk pb u, covers old blk -> leaf_lookup es blk = Some (pb, u) ->
       leaf_lookup es' blk = Some (pb + x_len new, u)) /\
    (forall blk, covers new blk ->
       leaf_lookup es' blk = Some (x_start old + (blk - x_first new), x_unwritten new)) /\
    x_start old = u64 (x_start new + x_len new).
Proof.
  pose proof (search_finds p b (x_first new) es (li_node _ _ _ L) (li_entries _ _ _ L) (li_ok _ _ _ L)
    (xf_first _ (xo_fits _ Hnew))) as HS. rewrite Hk in HS.
  destruct HS as (l1 & x & l2 & El & -> & Ex & _ & H2 & H3 & _).
  assert (x = old) as ->.
  { rewrite El, Nat2Z.id in Hold. rewrite list_lookup_middle in Hold by done. congruence. }
  destruct (found_ok p b es new L Hnew Ha l1 l2 old El Ex) as (Hx & Hok & _ & Hne).
  destruct (prepend_case p b es new L Hnew Ha l1 l2 old El Ex H3 Hpre) as (_ & A2 & es' & A3 & A4).
  pose proof Hpre as Hp. unfold ext4_ext_can_prepend in Hp.
  apply andb_prop in Hp as [Hp Hc4]. apply andb_prop in Hp as [Hp _]. apply andb_prop in Hp as [Hc1 Hc2].
  apply Bool.eqb_prop in Hc1. pose proof (xo_end _ Hnew) as Hend. pose proof (xo_len _ Hnew). pose proof (xo_len _ Hx).
  pose proof (xf_first _ (xo_fits _ Hnew)). unfold EXT_MAX_BLOCKS in Hend. rewrite u32_id in Hc4 by lia.
  eexists _, es'. split; [|split; [exact A3|split_and!]].
  - cbn [leaf_insert_node]. rewrite Ex. destruct (Z.eqb_spec (x_first new) (x_first old)); [done|].
    assert (Hnot : ext4_ext_can_append old new = false).
    { unfold ext4_ext_can_append. apply not_true_is_false. intros H'. apply andb_prop in H' as [_ H'].
      pose proof (xo_end _ Hx) as He. unfold EXT_MAX_BLOCKS in He. pose proof (xf_first _ (xo_fits _ Hx)).
      rewrite u32_id in H' by lia. lia. }
    rewrite Hnot, Hpre. done.
  - intros blk pb u Hc Hl. rewrite El in Hl. rewrite (leaf_lookup_at l1 old l2 blk Hok Hc) in Hl. injection Hl as <- <-.
    rewrite A4. unfold covers in Hc. replace (_ && _) with true by lia. do 2 f_equal. lia.
  - intros blk Hc. rewrite A4. unfold covers in Hc. replace (_ && _) with true by lia. by rewrite Hc1.
  - lia.
Qed.
Lemma prepend_moves_blocks_witness :
  exists b' es', leaf_insert_node 0 (Some 0) (mk_extent 0 1 100) false leaf_sample = LeafMerged 0 b' /\
    leaf_in 0 b' es' /\ leaf_lookup es' 1 = Some (102, false) /\ leaf_lookup es' 0 = Some (101, false).
Proof.
  destruct (prepend_moves_blocks 0 leaf_sample _ (mk_extent 0 1 100) (mk_extent 1 1 101) 0 leaf_sample_ok
    (ext_ok_small 0 1 100 ltac:(lia) ltac:(lia) ltac:(lia)) (apart_small 0 1 100 ltac:(lia) ltac:(lia)))
    as (b' & es' & H1 & H2 & H3 & H4 & _); [by vm_compute|reflexivity|by vm_compute|].
  exists b', es'. split; [exact H1|]. split; [exact H2|]. split.
  - apply (H3 1 101 false); [by vm_compute|by vm_compute].
  - by apply (H4 0).
Defined.

(** ** Merging neighbours *)

(** Two entries that are one run, as lists. *)
Lemma merge_next_run x y l1 l2 :
  leaf_ok (l1 ++ x :: y :: l2) -> ext4_ext_can_append x y = true ->
  ext_ok y /\ x_unwritten x = x_unwritten y /\ len_fits x y = true /\
  forall x', x_first x' = x_first x -> x_len x' = x_len x + x_len y -> x_unwritten x' = x_unwritten x ->
    extent_fits x' -> x_start x' = x_start x ->
    leaf_ok (l1 ++ x' :: l2) /\ forall blk, leaf_lookup (l1 ++ x' :: l2) blk = leaf_lookup (l1 ++ x :: y :: l2) blk.
Proof.
  intros Hok Hcan. assert (Hx : ext_ok x) by by apply leaf_ok_middle in Hok as (_ & ? & _).
  assert (Hok2 := Hok). replace (l1 ++ x :: y :: l2) with ((l1 ++ [x]) ++ y :: l2) in Hok2 by by rewrite <- app_assoc.
  apply leaf_ok_middle in Hok2 as (Hok2 & Hy & Hy1 & Hy2). rewrite <- app_assoc in Hok2. cbn [app] in Hok2.
  pose proof (xo_len _ Hx). pose proof (xo_end _ Hx). pose proof (xf_first _ (xo_fits _ Hx)).
  pose proof (xf_start _ (xo_fits _ Hx)). pose proof (x_len_range _ (xo_fits _ Hx)). unfold EXT_MAX_BLOCKS in *.
  unfold ext4_ext_can_append in Hcan. rewrite u64_id, u32_id in Hcan by lia.
  apply andb_prop in Hcan as [Hcan Hc4]. apply andb_prop in Hcan as [Hcan Hc3]. apply andb_prop in Hcan as [Hc1 Hc2].
  apply Bool.eqb_prop in Hc1. split_and!; try done. intros x' F1 F2 F3 F4 F5.
  destruct (append_map l1 x y l2 x') as [A1 A2]; try done; try lia.
  - intros z [Hz|[->|Hz]%elem_of_cons]%elem_of_app; [left; apply Hy1; set_solver|left; apply Hy1; set_solver|right; by apply Hy2].
  - apply Forall_forall. intros z Hz. specialize (Hy2 z Hz). unfold before in Hy2. pose proof (xo_len _ Hy). lia.
  - split; [done|]. intros blk. rewrite A2. symmetry. 
    replace (l1 ++ x :: y :: l2) with ((l1 ++ [x]) ++ y :: l2) by by rewrite <- app_assoc.
    rewrite lookup_middle by by rewrite <- app_assoc. by rewrite <- app_assoc.
Qed.

(** C27: folding the next entry into one keeps the map of the leaf.  If two
    neighbouring entries are one run, [ext4_ext_merge_next] leaves a leaf with one
    entry less that maps every block of the file to the block it was mapped to
    before, in the state it was in; otherwise it changes nothing. *)
Theorem merge_next_keeps_map (p : Z) (b : list Z) (es : list extent) (k : Z)
    (L : leaf_in p b es) (Hk : 0 <= k < entries_count p b) :
  match ext4_ext_merge_next p k b with
  | None => k = entries_count p b - 1 \/
            exists x y, es !! Z.to_nat k = Some x /\ es !! Z.to_nat (k + 1) = Some y /\
              ext4_ext_can_append x y = false
  | Some b' => same_around p b b' /\
      exists es', leaf_in p b' es' /\ S (length es') = length es /\
        forall blk, leaf_lookup es' blk = leaf_lookup es blk
  end.
Proof.
  unfold ext4_ext_merge_next, EXT_LAST_EXTENT.
  change (ext4_extent_header_get_entries_count p b) with (entries_count p b).
  destruct (Z.leb_spec (entries_count p b - 1) k) as [|Hlt]; [left; lia|]. cbn [orb].
  destruct L as [N <- Hok]. pose proof (node_lookup p b k Hk) as Hx.
  pose proof (node_lookup p b (k + 1) ltac:(lia)) as Hy.
  set (x := extent_at (ext_entry p k) b) in *. set (y := extent_at (ext_entry p (k + 1)) b) in *.
  destruct (ext4_ext_can_append x y) eqn:Hcan; cbn [negb]; [|right; by exists x, y].
  destruct (list_elem_of_split_length _ _ _ Hx) as (l1 & l2' & El & Ek).
  assert (Hl2 : exists l2, l2' = y :: l2).
  { rewrite El, lookup_app_r in Hy by lia. replace (Z.to_nat (k + 1) - length l1)%nat with 1%nat in Hy by lia.
    destruct l2' as [|z l2]; [done|]. cbn in Hy. simplify_eq. by exists l2. }
  destruct Hl2 as (l2 & ->). rewrite El in Hok.
  destruct (merge_next_run x y l1 l2 Hok Hcan) as (Hy' & Hu & Hf & Hmap).
  pose proof (length_node_extents p b) as Hlen. rewrite El, length_app in Hlen. cbn [length] in Hlen.
  assert (Ek' : k = Z.of_nat (length l1)) by lia. clear Ek. subst k.
  destruct (merge_leaf p b _ y (Build_leaf_in _ _ _ N El Hok) Hy' l1 x (y :: l2) b eq_refl Hu Hf)
    as (M1 & M2 & M3 & M4 & M5 & M6); try done.
  { apply N. }
  set (e := ext_entry p (Z.of_nat (length l1))) in *.
  assert (Hxok : ext_ok x) by by apply leaf_ok_middle in Hok as (_ & ? & _).
  destruct (merged_count_ok x y Hxok Hy' Hu Hf) as (Hsum & _ & _). rewrite u16_id by lia.
  set (b1 := set_merged_count e (x_len x + x_len y) (x_unwritten x) b) in *.
  pose proof (length_node_extents p b1) as Hlen1. rewrite M2, length_app in Hlen1. cbn [length] in Hlen1.
  destruct (remove_at p b1 (Z.of_nat (length l1) + 1) M1 ltac:(lia)) as (R1 & R2 & R3 & R4 & R5 & R6).
  unfold EXT_LAST_EXTENT in R1, R2, R3, R4, R5, R6. change (ext4_extent_header_get_entries_count p b1) with (entries_count p b1) in *.
  replace (entries_count p b1) with (entries_count p b) in * by lia.
  replace (Z.of_nat (length l1) + 1 + 1) with (Z.of_nat (length l1) + 2) in * by lia.
  set (b2 := wr eh_entries_count p _ _) in *. destruct M3 as (A1 & A2 & A3). split.
  { split; [lia|split; [lia|]]. rewrite A2 in R5. eapply changed_in_trans; [exact A3|exact R5]. }
  destruct (Hmap (mk_extent (rd ex_first_block e b) (merged_count x y) (x_start x)) eq_refl M4 M5 M6 eq_refl)
    as [Hok' Hm]. exists (l1 ++ mk_extent (rd ex_first_block e b) (merged_count x y) (x_start x) :: l2).
  split; [split; try done|split; [rewrite El, !length_app; cbn [length]; lia|intros blk; by rewrite Hm, El]].
  rewrite R6, M2. rewrite take_app_ge, drop_app_ge by lia.
  replace (Z.to_nat (Z.of_nat (length l1) + 1) - length l1)%nat with 1%nat by lia.
  replace (Z.to_nat (Z.of_nat (length l1) + 2) - length l1)%nat with 2%nat by lia. by rewrite <- app_assoc.
Qed.

(** Two entries that are one run: blocks 1 to 2 at 101, 3 at 103. *)
Definition leaf_pair : list Z :=
  extent_store 24 (mk_extent 3 1 103) (wr eh_entries_count 0 2 (extent_store 12 (mk_extent 1 2 101) leaf_sample)).
Lemma leaf_pair_ok : leaf_in 0 leaf_pair [mk_extent 1 2 101; mk_extent 3 1 103].
Proof.
  split.
  - split; [done|apply (bool_decide_unpack _); by vm_compute|by vm_compute|by vm_compute].
  - by vm_compute.
  - assert (H : before (mk_extent 1 2 101) (mk_extent 3 1 103)) by by vm_compute.
    split; [|by repeat constructor]. apply Forall_cons. split; [apply ext_ok_small; lia|].
    apply Forall_singleton. apply ext_ok_small; lia.
Qed.
Lemma merge_next_keeps_map_witness :
  exists b' es', ext4_ext_merge_next 0 0 leaf_pair = Some b' /\ leaf_in 0 b' es' /\ length es' = 1%nat /\
    leaf_lookup es' 3 = Some (103, false).
Proof.
  pose proof (merge_next_keeps_map 0 leaf_pair _ 0 leaf_pair_ok ltac:(vm_compute; split; congruence)) as H.
  destruct (ext4_ext_merge_next 0 0 leaf_pair) as [b'|] eqn:E; [|exfalso; revert E; by vm_compute].
  destruct H as (_ & es' & HL & Hlen & Hm). exists b', es'. split; [reflexivity|]. split; [exact HL|].
  split; [by injection Hlen|]. rewrite Hm. by vm_compute.
Defined.

(** ** What the check guarantees *)

(** The bytes a node may use: the 60 bytes of the inode for the root, the block
    for any other node. *)
Definition node_space (sb : list Z) (root_depth depth : Z) : Z :=
  if depth =? root_depth then f_size ino_blocks else ext4_sb_get_block_size sb.

(** C28: a node that passes [ext4_ext_check] can be searched safely, whatever its
    entries hold.  All its entries, and the checksum tail of a node in a block, lie
    in the bytes the node has; the search of a leaf and the search of an index that
    has entries end on an entry of the node. *)
Theorem checked_node_is_safe (sb : list Z) (root_depth p depth blk : Z) (b : list Z)
    (Hc : ext4_ext_check sb root_depth p depth b = Ok tt) :
  entries_count p b <= max_entries p b /\
  EXT_HEADER_SIZE + EXT_EXTENT_SIZE * max_entries p b <= node_space sb root_depth depth /\
  (depth <> root_depth -> EXT4_EXTENT_TAIL_OFFSET p b + f_size et_checksum <= node_space sb root_depth depth) /\
  (forall k, ext4_ext_binsearch p blk b = Some k -> 0 <= k < entries_count p b) /\
  (0 < entries_count p b -> 0 <= ext4_ext_binsearch_idx p blk b < entries_count p b).
Proof.
  unfold ext4_ext_check in Hc. repeat (case_match; try done).
  fold (entries_count p b) (max_entries p b) in *.
  assert (Hspace : EXT_HEADER_SIZE + EXT_EXTENT_SIZE * ext4_ext_max_entries sb root_depth depth
      + (if depth =? root_depth then 0 else 4) <= node_space sb root_depth depth).
  { unfold ext4_ext_max_entries, node_space, ext4_ext_space_block, ext4_ext_space_block_idx.
    destruct (block_size_cases sb) as (j & Hj & ->). change EXT_HEADER_SIZE with 12. change EXT_EXTENT_SIZE with 12.
    destruct (depth =? root_depth); [destruct (depth =? 0); by vm_compute|].
    assert (j = 0 \/ j = 1 \/ j = 2 \/ j = 3 \/ j = 4 \/ j = 5 \/ j = 6) as Hcases by lia.
    destruct (depth =? 0); destruct Hcases as [-> | [-> | [-> | [-> | [-> | [-> | ->]]]]]]; by vm_compute. }
  change (12 + 12 * ext4_ext_max_entries sb root_depth depth + (if depth =? root_depth then 0 else 4)
    <= node_space sb root_depth depth) in Hspace.
  unfold EXT4_EXTENT_TAIL_OFFSET. change EXT_HEADER_SIZE with 12. change EXT_EXTENT_SIZE with 12.
  change (ext4_extent_header_get_max_entries_count p b) with (max_entries p b). change (f_size et_checksum) with 4.
  split_and!; [lia| | | |].
  - destruct (depth =? root_depth); lia.
  - intros Hne. replace (depth =? root_depth) with false in Hspace by lia. lia.
  - intros k. unfold ext4_ext_binsearch. fold (entries_count p b). pose proof (count_range p b).
    destruct (Z.eqb_spec (entries_count p b) 0); [done|].
    destruct (binsearch_spec p b blk _ ltac:(lia) eq_refl) as [Hq _].
    revert Hq. generalize (binsearch_loop 17 p b blk 1 (EXT_LAST_EXTENT p b) - 1). by intros q Hq [= ->].
  - intros Hpos. unfold ext4_ext_binsearch_idx.
    by destruct (binsearch_spec p b blk _ ltac:(lia) eq_refl) as [? _].
Qed.
Lemma checked_node_is_safe_witness :
  ext4_ext_check (replicate 1024 0) 0 0 0 leaf_pair = Ok tt /\
  0 <= ext4_ext_binsearch_idx 0 77 leaf_pair < entries_count 0 leaf_pair.
Proof.
  assert (Hc : ext4_ext_check (replicate 1024 0) 0 0 0 leaf_pair = Ok tt) by by vm_compute.
  split; [exact Hc|].
  destruct (checked_node_is_safe (replicate 1024 0) 0 0 0 77 leaf_pair Hc) as (_ & _ & _ & _ & H).
  apply H. by vm_compute.
Defined.
