(* ===== verification/DirBlock.v ===== *)
(** * Directory blocks

    The operations of Core/lwext4/src/ext4_dir.c and include/ext4_dir.h on one
    block of entries: accessors, the checksum tail, searching, inserting and
    removing.  A pointer to an entry is the entry's offset in the block's buffer;
    [stop] and [addr_limit] are the block size. *)

From S2P Require Import Prelude Layout Types Crc Super BlockGroup Inode.

(** [sizeof(struct ext4_fake_dir_entry)], [sizeof(struct ext4_dir_entry_tail)]. *)
Definition DE_HEADER : Z := Eval vm_compute in layout_size ext4_dir_en_layout.
Definition DE_TAIL : Z := Eval vm_compute in layout_size ext4_dir_entry_tail_layout.

(** ** Accessors *)

(** Before revision 0.5 the byte after the name's length is its high half; since
    then it is the type of the inode. *)
Definition de_old (sb : list Z) : bool :=
  (sb_get sb_rev_level sb =? 0) && (sb_get sb_minor_rev_level sb <? 5).
Definition de_typed (sb : list Z) : bool :=
  (0 <? sb_get sb_rev_level sb) || (5 <=? sb_get sb_minor_rev_level sb).

Definition ext4_dir_en_get_inode (de : Z) (b : list Z) : Z := rd de_inode de b.
Definition ext4_dir_en_set_inode (de inode : Z) (b : list Z) : list Z := wr de_inode de inode b.
Definition ext4_dir_en_get_entry_len (de : Z) (b : list Z) : Z := rd de_entry_len de b.
Definition ext4_dir_en_set_entry_len (de l : Z) (b : list Z) : list Z := wr de_entry_len de l b.
Definition ext4_dir_en_get_name_len (sb : list Z) (de : Z) (b : list Z) : Z :=
  let v := rd de_name_len de b in
  if de_old sb then Z.lor v (u16 (Z.shiftl (rd de_in de b) 8)) else v.
Definition ext4_dir_en_set_name_len (sb : list Z) (de len : Z) (b : list Z) : list Z :=
  let b := wr de_name_len de (Z.shiftr (Z.shiftl len 8) 8) b in
  if de_old sb then wr de_in de (Z.shiftr len 8) b else b.
Definition ext4_dir_en_get_inode_type (sb : list Z) (de : Z) (b : list Z) : Z :=
  if de_typed sb then rd de_in de b else EXT4_DE_UNKNOWN.
Definition ext4_dir_en_set_inode_type (sb : list Z) (de t : Z) (b : list Z) : list Z :=
  if de_typed sb then wr de_in de t b else b.

(** ** The checksum at the end of a block *)

(** [inode_ref]: the directory's number and generation. *)
Record dir_ref := mk_dir_ref { dr_index : Z; dr_generation : Z }.

(** The tail's offset, if the block has one. *)
Definition ext4_dir_get_tail (sb b : list Z) : option Z :=
  let t := ext4_sb_get_block_size sb - DE_TAIL in
  if negb (rd det_reserved_zero1 t b =? 0) || negb (rd det_reserved_zero2 t b =? 0) then None
  else if negb (rd det_rec_len t b =? DE_TAIL) then None
  else if negb (rd det_reserved_ft t b =? EXT4_DIRENTRY_DIR_CSUM) then None
  else Some t.

Definition ext4_dir_csum (sb : list Z) (dir : dir_ref) (b : list Z) (size : Z) : Z :=
  let csum := ext4_sb_csum_seed sb in
  let csum := ext4_crc32c csum (le32_bytes (dr_index dir)) in
  let csum := ext4_crc32c csum (le32_bytes (dr_generation dir)) in
  ext4_crc32c csum (slice 0 size b).

Definition ext4_dir_csum_verify (sb : list Z) (dir : dir_ref) (b : list Z) : bool :=
  if ext4_sb_feature_ro_com sb EXT4_FRO_COM_METADATA_CSUM then
    match ext4_dir_get_tail sb b with
    | None => false
    | Some t => rd det_checksum t b =? ext4_dir_csum sb dir b t
    end
  else true.

Definition ext4_dir_init_entry_tail (t : Z) (b : list Z) : list Z :=
  let b := memset_at t 0 DE_TAIL b in
  let b := wr det_rec_len t DE_TAIL b in
  wr det_reserved_ft t EXT4_DIRENTRY_DIR_CSUM b.

Definition ext4_dir_set_csum (sb : list Z) (dir : dir_ref) (b : list Z) : list Z :=
  if ext4_sb_feature_ro_com sb EXT4_FRO_COM_METADATA_CSUM then
    match ext4_dir_get_tail sb b with
    | None => b
    | Some t => wr det_checksum t (ext4_dir_csum sb dir b t) b
    end
  else b.

(** ** Writing an entry *)

(** [child]: its number and [ext4_inode_type]. *)
Record child_ref := mk_child_ref { ch_index : Z; ch_type : Z }.

Definition de_type_of (inode_type : Z) : Z :=
  if inode_type =? EXT4_INODE_MODE_DIRECTORY then EXT4_DE_DIR
  else if inode_type =? EXT4_INODE_MODE_FILE then EXT4_DE_REG_FILE
  else if inode_type =? EXT4_INODE_MODE_SOFTLINK then EXT4_DE_SYMLINK
  else if inode_type =? EXT4_INODE_MODE_CHARDEV then EXT4_DE_CHRDEV
  else if inode_type =? EXT4_INODE_MODE_BLOCKDEV then EXT4_DE_BLKDEV
  else if inode_type =? EXT4_INODE_MODE_FIFO then EXT4_DE_FIFO
  else if inode_type =? EXT4_INODE_MODE_SOCKET then EXT4_DE_SOCK
  else EXT4_DE_UNKNOWN.

(** [name] is the name without its terminator.  The assertion
    [entry_len <= block_size] at the start of the function is a fact about its
    callers, proved of them. *)
Definition ext4_dir_write_entry (sb : list Z) (en entry_len : Z) (child : child_ref) (name b : list Z)
  : list Z :=
  let b := ext4_dir_en_set_inode_type sb en (de_type_of (ch_type child)) b in
  let b := ext4_dir_en_set_inode en (ch_index child) b in
  let b := ext4_dir_en_set_entry_len en entry_len b in
  let b := ext4_dir_en_set_name_len sb en (u16 (blen name)) b in
  memcpy_at (en + DE_HEADER) name b.

(** ** Searching *)

(** [while (de < addr_limit)]; every turn that does not end the search moves [de]
    by 8 bytes or more. *)
Fixpoint find_in_block_loop (fuel : nat) (sb name b : list Z) (de : Z) : result Z :=
  match fuel with
  | O => Err ENOENT
  | S fuel =>
      let addr_limit := ext4_sb_get_block_size sb in
      if negb (de <? addr_limit) then Err ENOENT
      else if addr_limit <? de + DE_HEADER then Err EIO
      else
        let live := negb (ext4_dir_en_get_inode de b =? 0) in
        let el := ext4_dir_en_get_name_len sb de b in
        if live && (addr_limit <? de + DE_HEADER + el) then Err EIO
        else if live && (el =? blen name) && bool_decide (slice (de + DE_HEADER) el b = name)
        then Ok de
        else
          let de_len := ext4_dir_en_get_entry_len de b in
          if (de_len <? DE_HEADER) || negb (de_len mod 4 =? 0) || (addr_limit <? de + de_len)
          then Err EIO
          else find_in_block_loop fuel sb name b (de + de_len)
  end.
Definition ext4_dir_find_in_block (sb name b : list Z) : result Z :=
  find_in_block_loop (S (Z.to_nat (ext4_sb_get_block_size sb))) sb name b 0.

(** ** Inserting *)

(** The room an entry needs: header and name, rounded up to 4 bytes; [uint16_t]
    arithmetic. *)
Definition de_required_len (name_len : Z) : Z :=
  let required_len := u16 (DE_HEADER + name_len) in
  if negb (required_len mod 4 =? 0) then u16 (required_len + (4 - required_len mod 4)) else required_len.
Definition de_used_len (used_len : Z) : Z :=
  let sz := u16 (DE_HEADER + used_len) in
  if negb (used_len mod 4 =? 0) then u16 (sz + (4 - used_len mod 4)) else sz.

(** [while (start + 8 <= stop)]: the buffer with the entry in it. *)
Fixpoint try_insert_loop (fuel : nat) (sb : list Z) (dir : dir_ref) (child : child_ref)
    (name : list Z) (required_len start : Z) (b : list Z) : result (list Z) :=
  match fuel with
  | O => Err ENOSPC
  | S fuel =>
      let stop := ext4_sb_get_block_size sb in
      if start + DE_HEADER <=? stop then
        let inode := ext4_dir_en_get_inode start b in
        let rec_len := ext4_dir_en_get_entry_len start b in
        let itype := ext4_dir_en_get_inode_type sb start b in
        if (rec_len <? DE_HEADER) || negb (rec_len mod 4 =? 0) || (stop <? start + rec_len)
        then Err EIO
        else if (inode =? 0) && negb (itype =? EXT4_DIRENTRY_DIR_CSUM) && (required_len <=? rec_len)
        then Ok (ext4_dir_set_csum sb dir (ext4_dir_write_entry sb start rec_len child name b))
        else if negb (inode =? 0) then
          let used_len := ext4_dir_en_get_name_len sb start b in
          let sz := de_used_len used_len in
          if rec_len <? sz then Err EIO
          else
            let free_space := u16 (rec_len - sz) in
            if required_len <=? free_space then
              let b := ext4_dir_en_set_entry_len start sz b in
              let b := ext4_dir_write_entry sb (start + sz) free_space child name b in
              Ok (ext4_dir_set_csum sb dir b)
            else try_insert_loop fuel sb dir child name required_len (start + rec_len) b
        else try_insert_loop fuel sb dir child name required_len (start + rec_len) b
      else if negb (start =? stop) then Err EIO
      else Err ENOSPC
  end.
Definition ext4_dir_try_insert_entry (sb : list Z) (dir : dir_ref) (child : child_ref)
    (name b : list Z) : result (list Z) :=
  try_insert_loop (S (Z.to_nat (ext4_sb_get_block_size sb))) sb dir child name
    (de_required_len (blen name)) 0 b.

(** ** Removing *)

(** [while ((offset + de_len) < pos)]: the entry before the one at [pos]. *)
Fixpoint find_pred_loop (fuel : nat) (pos offset : Z) (b : list Z) : result Z :=
  match fuel with
  | O => Err EIO
  | S fuel =>
      let de_len := ext4_dir_en_get_entry_len offset b in
      if offset + de_len <? pos then
        if de_len =? 0 then Err EIO else find_pred_loop fuel pos (u32 (offset + de_len)) b
      else if negb (de_len + offset =? pos) then Err EIO
      else Ok offset
  end.

(** [ext4_dir_remove_entry] from the entry found on: the entry at [pos] loses its
    inode, and its room goes to the entry before it.  The buffer is changed by
    the first step even when the second fails; the block is not marked dirty
    then. *)
Definition dir_remove_in_block (sb : list Z) (dir : dir_ref) (pos : Z) (b : list Z)
  : result unit * list Z :=
  let b := ext4_dir_en_set_inode pos 0 b in
  if negb (pos =? 0) then
    match find_pred_loop (S (Z.to_nat pos)) pos 0 b with
    | Err rc => (Err rc, b)
    | Ok offset =>
        let de_len := ext4_dir_en_get_entry_len offset b in
        let del_len := ext4_dir_en_get_entry_len pos b in
        let b := ext4_dir_en_set_entry_len offset (u16 (de_len + del_len)) b in
        (Ok tt, ext4_dir_set_csum sb dir b)
    end
  else (Ok tt, ext4_dir_set_csum sb dir b).

(** A fresh block of the directory: one entry, and the tail. *)
Definition dir_new_block (sb : list Z) (dir : dir_ref) (child : child_ref) (name b : list Z) : list Z :=
  let block_size := ext4_sb_get_block_size sb in
  let b := memset_at 0 0 block_size b in
  let b :=
    if ext4_sb_feature_ro_com sb EXT4_FRO_COM_METADATA_CSUM then
      let el := u16 (block_size - DE_TAIL) in
      ext4_dir_init_entry_tail (block_size - DE_TAIL) (ext4_dir_write_entry sb 0 el child name b)
    else ext4_dir_write_entry sb 0 (u16 block_size) child name b in
  ext4_dir_set_csum sb dir b.
