(* ===== verification/DirLaws.v ===== *)
(** * Directory blocks as lists of entries

    What the bytes of a block stand for: a list of entries that tile it.  The
    lemmas say what reading, writing and cutting an entry do to that list. *)

From S2P Require Import Prelude Layout Types Crc Super BlockGroup Inode DirBlock.

(** ** Entries *)

(** An entry; the name of a free one ([d_ino = 0]) is of no consequence. *)
Record dent := mk_dent { d_ino : Z; d_type : Z; d_name : list Z; d_len : Z }.
#[export] Instance dent_eq_dec : EqDecision dent.
Proof. solve_decision. Defined.

Definition d_live (d : dent) : bool := negb (d_ino d =? 0).

Definition dent_at (sb : list Z) (off : Z) (b : list Z) : dent :=
  let ino := ext4_dir_en_get_inode off b in
  mk_dent ino (ext4_dir_en_get_inode_type sb off b)
    (if ino =? 0 then [] else slice (off + DE_HEADER) (ext4_dir_en_get_name_len sb off b) b)
    (ext4_dir_en_get_entry_len off b).

(** The space an entry needs, rounded up to 4 bytes. *)
Definition dent_room (name_len : Z) : Z := DE_HEADER + (name_len + 3) / 4 * 4.

(** The entry at [off] is one the code accepts. *)
Definition entry_ok (sb : list Z) (off : Z) (b : list Z) : bool :=
  let len := ext4_dir_en_get_entry_len off b in
  (DE_HEADER <=? len) && (len mod 4 =? 0) &&
  ((ext4_dir_en_get_inode off b =? 0) || (dent_room (ext4_dir_en_get_name_len sb off b) <=? len)).

(** The entries [l] tile the bytes [off .. stop) of [b]. *)
Fixpoint chain (sb b : list Z) (off stop : Z) (l : list dent) : Prop :=
  match l with
  | [] => off = stop
  | d :: l =>
      (dent_at sb off b = d /\ entry_ok sb off b = true) /\ off + d_len d <= stop /\
      chain sb b (off + d_len d) stop l
  end.
#[export] Instance chain_dec sb b off stop l : Decision (chain sb b off stop l).
Proof. revert off. induction l; simpl; apply _. Defined.

Definition span (l : list dent) : Z := fold_right (fun d a => d_len d + a) 0 l.

(** ** What a block of a directory is *)

Definition dir_csum_on (sb : list Z) : bool := ext4_sb_feature_ro_com sb EXT4_FRO_COM_METADATA_CSUM.
(** The entries end where the tail begins. *)
Definition dir_limit (sb : list Z) : Z :=
  ext4_sb_get_block_size sb - if dir_csum_on sb then DE_TAIL else 0.

(** The volumes the block operations are for: entry lengths fit 16 bits, and a
    volume with checksums has typed entries (the tail is told from a free entry
    by its type). *)
Record dir_geom (sb : list Z) : Prop := {
  dg_limit : dir_limit sb < 65536;
  dg_typed : dir_csum_on sb = true -> de_typed sb = true;
}.

Record dir_block (sb b : list Z) (l : list dent) : Prop := {
  db_bytes : bytes_ok b;
  db_len : blen b = ext4_sb_get_block_size sb;
  db_chain : chain sb b 0 (dir_limit sb) l;
  db_tail : dir_csum_on sb = true ->
            ext4_dir_get_tail sb b = Some (ext4_sb_get_block_size sb - DE_TAIL);
}.

(** The entry the tail reads as. *)
Definition tail_dent : dent := mk_dent 0 EXT4_DIRENTRY_DIR_CSUM [] DE_TAIL.

Definition live (l : list dent) : list dent := filter (fun d => d_live d = true) l.
(** Name, inode number and type of every entry in use. *)
Definition listing (l : list dent) : list (list Z * Z * Z) :=
  map (fun d => (d_name d, d_ino d, d_type d)) (live l).

Section Entries.
Context (sb : list Z).

Lemma dent_room_le n : 0 <= n -> n + 8 <= dent_room n <= n + 11 /\ dent_room n mod 4 = 0.
Proof. unfold dent_room. change DE_HEADER with 8. intros. split; dlia. Qed.

Lemma name_len_ext off b b' :
  (forall j, off <= j < off + 8 -> byte_at b j = byte_at b' j) ->
  ext4_dir_en_get_name_len sb off b = ext4_dir_en_get_name_len sb off b'.
Proof.
  intros H. unfold ext4_dir_en_get_name_len.
  rewrite (rd_ext de_name_len off b b' 8), (rd_ext de_in off b b' 8) by done. done.
Qed.

Lemma name_len_range off b : 0 <= ext4_dir_en_get_name_len sb off b < 65536.
Proof.
  unfold ext4_dir_en_get_name_len. pose proof (rd_range de_name_len off b ltac:(done)) as H.
  change (2 ^ (8 * f_size de_name_len)) with 256 in H.
  case_match; [|lia]. split.
  - apply Z.lor_nonneg. split; [lia|apply u16_range].
  - destruct (Z.eq_dec (Z.lor (rd de_name_len off b) (u16 (Z.shiftl (rd de_in off b) 8))) 0) as [->|Hn];
      [lia|].
    change 65536 with (2 ^ 16). apply Z.log2_lt_pow2.
    + assert (0 <= Z.lor (rd de_name_len off b) (u16 (Z.shiftl (rd de_in off b) 8)));
        [apply Z.lor_nonneg; split; [lia|apply u16_range]|lia].
    + rewrite Z.log2_lor by (lia || apply u16_range).
      pose proof (u16_range (Z.shiftl (rd de_in off b) 8)).
      assert (E : forall x, 0 <= x < 65536 -> Z.log2 x < 16).
      { intros x Hx. destruct (Z.eq_dec x 0) as [->|]; [done|]. apply Z.log2_lt_pow2; lia. }
      pose proof (E (rd de_name_len off b)). pose proof (E (u16 (Z.shiftl (rd de_in off b) 8))). lia.
Qed.

(** An entry is what its bytes say. *)
Lemma dent_at_ext off b b' :
  bytes_ok b -> bytes_ok b' -> blen b = blen b' -> 0 <= off ->
  entry_ok sb off b = true -> off + ext4_dir_en_get_entry_len off b <= blen b ->
  (forall j, off <= j < off + ext4_dir_en_get_entry_len off b -> byte_at b j = byte_at b' j) ->
  dent_at sb off b' = dent_at sb off b /\ entry_ok sb off b' = true.
Proof.
  intros Hb Hb' Hl Ho Hok Hin H.
  assert (Hlen : 8 <= ext4_dir_en_get_entry_len off b).
  { unfold entry_ok in Hok. change DE_HEADER with 8 in Hok. lia. }
  assert (H8 : forall j, off <= j < off + 8 -> byte_at b j = byte_at b' j) by (intros; apply H; lia).
  assert (Ei : ext4_dir_en_get_inode off b' = ext4_dir_en_get_inode off b).
  { symmetry. by apply (rd_ext _ _ _ _ 8). }
  assert (El : ext4_dir_en_get_entry_len off b' = ext4_dir_en_get_entry_len off b).
  { symmetry. by apply (rd_ext _ _ _ _ 8). }
  assert (En : ext4_dir_en_get_name_len sb off b' = ext4_dir_en_get_name_len sb off b).
  { symmetry. by apply name_len_ext. }
  assert (Et : ext4_dir_en_get_inode_type sb off b' = ext4_dir_en_get_inode_type sb off b).
  { unfold ext4_dir_en_get_inode_type. rewrite (rd_ext de_in off b' b 8); [done|done|].
    intros. symmetry. by apply H8. }
  split; [|unfold entry_ok; by rewrite Ei, El, En].
  unfold dent_at. rewrite Ei, El, En, Et. f_equal. case_match eqn:Hi; [done|].
  unfold entry_ok in Hok. rewrite Hi in Hok.
  pose proof (name_len_range off b). pose proof (dent_room_le (ext4_dir_en_get_name_len sb off b) ltac:(lia)).
  change DE_HEADER with 8 in *. apply slice_ext; try done; try lia.
  intros. symmetry. apply H. lia.
Qed.

Lemma entry_ok_len off b :
  entry_ok sb off b = true ->
  8 <= d_len (dent_at sb off b) < 65536 /\ d_len (dent_at sb off b) mod 4 = 0.
Proof.
  unfold entry_ok, dent_at. cbn [d_len]. change DE_HEADER with 8.
  pose proof (rd_range de_entry_len off b ltac:(done)) as H.
  change (2 ^ (8 * f_size de_entry_len)) with 65536 in H.
  unfold ext4_dir_en_get_entry_len. lia.
Qed.

(** The name of an entry in use, in a block that holds the entry. *)
Lemma dent_name off b :
  0 <= off -> entry_ok sb off b = true -> off + d_len (dent_at sb off b) <= blen b ->
  d_live (dent_at sb off b) = true ->
  d_name (dent_at sb off b) = slice (off + 8) (ext4_dir_en_get_name_len sb off b) b /\
  blen (d_name (dent_at sb off b)) = ext4_dir_en_get_name_len sb off b /\
  dent_room (ext4_dir_en_get_name_len sb off b) <= d_len (dent_at sb off b).
Proof.
  unfold entry_ok, dent_at, d_live. cbn [d_ino d_name d_len]. change DE_HEADER with 8. intros Ho Hok Hin Hl.
  pose proof (name_len_range off b). pose proof (dent_room_le (ext4_dir_en_get_name_len sb off b) ltac:(lia)).
  destruct (ext4_dir_en_get_inode off b =? 0); [done|]. split_and!; [done| |lia].
  apply blen_slice; lia.
Qed.

Lemma dent_fits off b :
  0 <= off -> entry_ok sb off b = true -> off + d_len (dent_at sb off b) <= blen b ->
  dent_room (blen (d_name (dent_at sb off b))) <= d_len (dent_at sb off b).
Proof.
  intros Ho Hok Hin. pose proof (dent_name off b Ho Hok Hin) as Hn.
  destruct (d_live (dent_at sb off b)) eqn:Hl; [destruct (Hn eq_refl) as (_ & -> & ?); done|].
  pose proof (entry_ok_len _ _ Hok). unfold d_live, dent_at in Hl. cbn [d_ino] in Hl.
  unfold dent_at at 1. cbn [d_name]. destruct (ext4_dir_en_get_inode off b =? 0); [|done].
  change (dent_room (blen [])) with 8. lia.
Qed.

(** ** Chains *)

Lemma chain_span b l : forall off stop, chain sb b off stop l -> stop = off + span l.
Proof.
  induction l as [|d l IH]; intros off stop; cbn [chain span fold_right].
  - lia.
  - intros (_ & _ & H). rewrite (IH _ _ H). fold (span l). lia.
Qed.
Lemma chain_le b l off stop : chain sb b off stop l -> off <= stop.
Proof.
  revert off. induction l as [|d l IH]; intros off; cbn [chain]; [lia|].
  intros ((<- & Hok) & _ & H). apply entry_ok_len in Hok. specialize (IH _ H). lia.
Qed.

Lemma chain_app b l1 l2 : forall off stop,
  chain sb b off stop (l1 ++ l2) <->
  chain sb b off (off + span l1) l1 /\ chain sb b (off + span l1) stop l2 /\ off + span l1 <= stop.
Proof.
  induction l1 as [|d l1 IH]; intros off stop; cbn [chain app span fold_right].
  - rewrite Z.add_0_r. split.
    + intros H. pose proof (chain_le _ _ _ _ H). tauto.
    + by intros (_ & H & _).
  - fold (span l1). rewrite IH, !Z.add_assoc. split.
    + intros (Hd & Hle & H1 & H2 & H3). split_and!; try tauto. pose proof (chain_le _ _ _ _ H1). lia.
    + intros ((Hd & Hle & H1) & H2 & H3). split_and!; try tauto. lia.
Qed.

(** Entries do not depend on the bytes outside them. *)
Lemma chain_ext b b' l : forall off stop,
  bytes_ok b -> bytes_ok b' -> blen b = blen b' -> 0 <= off -> stop <= blen b ->
  (forall j, off <= j < stop -> byte_at b j = byte_at b' j) ->
  chain sb b off stop l -> chain sb b' off stop l.
Proof.
  induction l as [|d l IH]; intros off stop Hb Hb' Hl Ho Hs H; cbn [chain]; [done|].
  intros ((<- & Hok) & Hle & Hc). pose proof (entry_ok_len _ _ Hok).
  change (d_len (dent_at sb off b)) with (ext4_dir_en_get_entry_len off b) in *.
  destruct (dent_at_ext off b b') as [E Hok']; try done; try lia.
  - intros. apply H. lia.
  - split_and!; [done|done|done|]. apply IH; try done; try lia. intros. apply H. lia.
Qed.

(** An offset the walk stands on splits the chain. *)
Lemma chain_split b l1 d l2 off stop :
  chain sb b off stop (l1 ++ d :: l2) ->
  let pos := off + span l1 in
  chain sb b off pos l1 /\ dent_at sb pos b = d /\ entry_ok sb pos b = true /\
  pos + d_len d <= stop /\ chain sb b (pos + d_len d) stop l2.
Proof. intros H. cbv zeta. apply chain_app in H. cbn [chain] in H. naive_solver. Qed.
End Entries.

Lemma span_app l1 l2 : span (l1 ++ l2) = span l1 + span l2.
Proof. unfold span. induction l1 as [|d l1 IH]; cbn [app fold_right]; lia. Qed.
Lemma span_nonneg sb b off stop l : chain sb b off stop l -> 0 <= span l.
Proof. intros H. pose proof (chain_le _ _ _ _ _ H). apply chain_span in H. lia. Qed.

(** Every entry takes 8 bytes or more: the number of turns a walk makes. *)
Lemma chain_length sb b l : forall off stop,
  chain sb b off stop l -> 8 * Z.of_nat (length l) <= stop - off.
Proof.
  induction l as [|d l IH]; intros off stop; cbn [chain length]; [lia|].
  intros ((<- & Hok) & _ & Hc). apply entry_ok_len in Hok. specialize (IH _ _ Hc). lia.
Qed.

(** ** Whole blocks *)

Definition tail_of (sb : list Z) : list dent := if dir_csum_on sb then [tail_dent] else [].

Section Blocks.
Context (sb : list Z) (G : dir_geom sb).
Local Abbreviation bsize := (ext4_sb_get_block_size sb).

Lemma block_size_ge : 1024 <= bsize.
Proof. destruct (block_size_cases sb) as (k & Hk & ->). pose proof (Z.pow_pos_nonneg 2 k). lia. Qed.

Lemma dir_limit_range : 1012 <= dir_limit sb <= bsize /\ dir_limit sb + span (tail_of sb) = bsize.
Proof.
  pose proof block_size_ge. unfold dir_limit, tail_of. change DE_TAIL with 12.
  destruct (dir_csum_on sb); cbn [span fold_right tail_dent d_len]; change DE_TAIL with 12; lia.
Qed.

Lemma tail_fields b t :
  ext4_dir_get_tail sb b = Some t ->
  t = bsize - 12 /\ rd de_inode t b = 0 /\ rd de_entry_len t b = 12 /\ rd de_name_len t b = 0 /\
  rd de_in t b = EXT4_DIRENTRY_DIR_CSUM.
Proof.
  unfold ext4_dir_get_tail. change DE_TAIL with 12.
  change det_reserved_zero1 with de_inode. change det_rec_len with de_entry_len.
  change det_reserved_zero2 with de_name_len. change det_reserved_ft with de_in.
  intros H. repeat case_match; try done. simplify_eq. split_and!; lia.
Qed.

Lemma get_tail_ext b b' :
  (forall j, bsize - DE_TAIL <= j < bsize -> byte_at b' j = byte_at b j) ->
  ext4_dir_get_tail sb b' = ext4_dir_get_tail sb b.
Proof.
  intros H. unfold ext4_dir_get_tail. change DE_TAIL with 12 in *.
  by rewrite !(fun f => rd_ext f (bsize - 12) b' b 12) by (first [done|intros; apply H; lia]).
Qed.

Lemma tail_chain b :
  (dir_csum_on sb = true -> ext4_dir_get_tail sb b = Some (bsize - DE_TAIL)) ->
  chain sb b (dir_limit sb) bsize (tail_of sb).
Proof.
  pose proof (dg_typed _ G) as Hty. unfold dir_limit, tail_of. destruct (dir_csum_on sb); cbn [chain]; [|lia].
  intros H. specialize (H eq_refl). specialize (Hty eq_refl).
  apply tail_fields in H as (_ & Hi & Hl & Hn & Ht). change DE_TAIL with 12 in *.
  cbn [tail_dent d_len]. change DE_TAIL with 12. split; [split|lia].
  - unfold dent_at, tail_dent, ext4_dir_en_get_inode, ext4_dir_en_get_inode_type,
      ext4_dir_en_get_entry_len. by rewrite Hi, Hl, Ht, Hty.
  - unfold entry_ok, ext4_dir_en_get_entry_len, ext4_dir_en_get_inode. by rewrite Hi, Hl.
Qed.

Lemma block_chain b l : dir_block sb b l -> chain sb b 0 bsize (l ++ tail_of sb).
Proof.
  intros [_ _ Hc Ht]. apply chain_app. destruct dir_limit_range as [Hr _].
  rewrite <- (chain_span _ _ _ _ _ Hc). split_and!; [done|by apply tail_chain|lia].
Qed.

Lemma live_tail : live (tail_of sb) = [].
Proof. unfold tail_of. by destruct (dir_csum_on sb). Qed.

Lemma live_app l1 l2 : live (l1 ++ l2) = live l1 ++ live l2.
Proof. apply filter_app. Qed.
Lemma listing_app l1 l2 : listing (l1 ++ l2) = listing l1 ++ listing l2.
Proof. unfold listing. by rewrite live_app, map_app. Qed.
Lemma listing_cons d l :
  listing (d :: l) = (if d_live d then [(d_name d, d_ino d, d_type d)] else []) ++ listing l.
Proof.
  unfold listing, live. rewrite filter_cons. destruct (d_live d).
  - by rewrite decide_True.
  - by rewrite decide_False.
Qed.
End Blocks.

(** ** Searching *)

(** The offset of the first entry in use with the name. *)
Fixpoint find_live (name : list Z) (off : Z) (l : list dent) : option Z :=
  match l with
  | [] => None
  | d :: l =>
      if d_live d && bool_decide (d_name d = name) then Some off
      else find_live name (off + d_len d) l
  end.

Lemma find_live_app name l1 : forall off l2,
  find_live name off (l1 ++ l2) =
  match find_live name off l1 with
  | Some p => Some p
  | None => find_live name (off + span l1) l2
  end.
Proof.
  induction l1 as [|d l1 IH]; intros off l2; cbn [find_live app span fold_right].
  - by rewrite Z.add_0_r.
  - case_match; [done|]. fold (span l1). by rewrite IH, Z.add_assoc.
Qed.

Lemma find_live_None name l : forall off,
  find_live name off l = None <-> Forall (fun d => d_live d = true -> d_name d <> name) l.
Proof.
  induction l as [|d l IH]; intros off; cbn [find_live]; [by split|].
  rewrite Forall_cons, <- (IH (off + d_len d)).
  destruct (d_live d) eqn:Hd; cbn [andb]; [|naive_solver].
  case_bool_decide; naive_solver.
Qed.

Lemma find_live_Some name l : forall off pos,
  find_live name off l = Some pos ->
  exists l1 d l2, l = l1 ++ d :: l2 /\ pos = off + span l1 /\ d_live d = true /\ d_name d = name /\
    Forall (fun d => d_live d = true -> d_name d <> name) l1.
Proof.
  induction l as [|d l IH]; intros off pos; cbn [find_live]; [done|].
  destruct (d_live d && bool_decide (d_name d = name)) eqn:H.
  - intros [= <-]. apply andb_prop in H as [? H%bool_decide_eq_true].
    exists [], d, l. split_and!; try done. cbn. lia.
  - intros (l1 & d' & l2 & -> & -> & ? & ? & ?)%IH.
    exists (d :: l1), d', l2. split_and!; try done.
    + cbn [span fold_right]. fold (span l1). lia.
    + constructor; [|done]. intros Hd E. rewrite Hd, bool_decide_eq_true_2 in H; done.
Qed.

Section Find.
Context (sb : list Z).
Local Abbreviation bsize := (ext4_sb_get_block_size sb).

Lemma find_loop_chain name b : blen b = bsize -> forall l fuel de,
  0 <= de -> chain sb b de bsize l -> (length l < fuel)%nat ->
  find_in_block_loop fuel sb name b de =
  match find_live name de l with Some p => Ok p | None => Err ENOENT end.
Proof.
  intros Hb. induction l as [|d l IH]; intros [|fuel] de Hde Hc Hf; cbn [length] in Hf; try lia.
  { cbn [find_in_block_loop find_live]. cbn [chain] in Hc. by replace (de <? bsize) with false by lia. }
  cbn [find_in_block_loop find_live]. destruct Hc as ((<- & Hok) & Hle & Hc).
  pose proof (entry_ok_len _ _ _ Hok) as [Hl Hm].
  pose proof (dent_name sb de b Hde Hok ltac:(lia)) as Hname.
  change DE_HEADER with 8 in *.
  replace (de <? bsize) with true by lia. replace (bsize <? de + 8) with false by lia. cbn [negb].
  change (negb (ext4_dir_en_get_inode de b =? 0)) with (d_live (dent_at sb de b)).
  set (d := dent_at sb de b) in *. change (ext4_dir_en_get_entry_len de b) with (d_len d).
  replace ((d_len d <? 8) || negb (d_len d mod 4 =? 0) || (bsize <? de + d_len d)) with false by lia.
  rewrite IH by (done || lia). destruct (d_live d) eqn:Hlive; cbn [andb]; [|done].
  destruct (Hname eq_refl) as (En & El & Hr). rewrite <- El in *.
  pose proof (dent_room_le _ (blen_nonneg (d_name d))). rewrite <- En.
  replace (bsize <? de + 8 + blen (d_name d)) with false by lia.
  destruct (decide (d_name d = name)) as [->|Hne].
  - by rewrite Z.eqb_refl, bool_decide_eq_true_2.
  - rewrite bool_decide_eq_false_2 by done. by rewrite andb_false_r.
Qed.
End Find.

Lemma find_block sb b l name :
  dir_geom sb -> dir_block sb b l ->
  ext4_dir_find_in_block sb name b =
  match find_live name 0 l with Some p => Ok p | None => Err ENOENT end.
Proof.
  intros G B. pose proof (block_chain sb G b l B) as Hc. unfold ext4_dir_find_in_block.
  rewrite (find_loop_chain sb name b (db_len _ _ _ B) (l ++ tail_of sb)).
  - rewrite find_live_app. destruct (find_live name 0 l) as [p|]; [done|].
    assert (E : find_live name (0 + span l) (tail_of sb) = None); [|by rewrite E].
    unfold tail_of. by destruct (dir_csum_on sb).
  - lia.
  - done.
  - pose proof (chain_length _ _ _ _ _ Hc). lia.
Qed.

(** ** Writing entries *)

Lemma de_old_typed sb : de_old sb = negb (de_typed sb).
Proof.
  unfold de_old, de_typed. sb_range sb_rev_level sb. sb_range sb_minor_rev_level sb. lia.
Qed.

(** The entry [ext4_dir_write_entry] makes. *)
Definition new_dent (sb : list Z) (child : child_ref) (name : list Z) (len : Z) : dent :=
  mk_dent (ch_index child) (if de_typed sb then de_type_of (ch_type child) else EXT4_DE_UNKNOWN) name len.

(** A name and a number that can be entered: the file layer bounds names by 255
    bytes and gives out inode numbers from 1 on. *)
Record entry_arg (child : child_ref) (name : list Z) : Prop := {
  ea_name : bytes_ok name;
  ea_len : blen name <= 255;
  ea_ino : 0 < ch_index child < 2 ^ 32;
}.

Section Write.
Context (sb : list Z) (child : child_ref) (name : list Z) (A : entry_arg child name).

Lemma type_range t : 0 <= de_type_of t < 256.
Proof. unfold de_type_of. repeat case_match; done. Qed.

(** The eight bytes before the name. *)
Definition de_head (en el : Z) (b : list Z) : list Z :=
  ext4_dir_en_set_name_len sb en (u16 (blen name))
    (ext4_dir_en_set_entry_len en el
      (ext4_dir_en_set_inode en (ch_index child)
        (ext4_dir_en_set_inode_type sb en (de_type_of (ch_type child)) b))).

Lemma de_head_frame en el b :
  0 <= en -> bytes_ok b ->
  bytes_ok (de_head en el b) /\ blen (de_head en el b) = blen b /\
  changed_in en (en + 8) b (de_head en el b).
Proof.
  intros He Hb. unfold de_head, ext4_dir_en_set_name_len, ext4_dir_en_set_entry_len,
    ext4_dir_en_set_inode, ext4_dir_en_set_inode_type.
  destruct (de_old sb), (de_typed sb); (split_and!;
    [by repeat apply bytes_ok_wr|by rewrite !blen_wr|];
    repeat (eapply changed_in_trans; [|apply (changed_in_wr _ _ _ _ 8); [done|lia]]);
    by intros j).
Qed.

Lemma de_head_fields en el b :
  0 <= en -> en + 8 <= blen b -> 0 <= el < 65536 ->
  let b' := de_head en el b in
  ext4_dir_en_get_inode en b' = ch_index child /\
  ext4_dir_en_get_entry_len en b' = el /\
  ext4_dir_en_get_name_len sb en b' = blen name /\
  ext4_dir_en_get_inode_type sb en b' = if de_typed sb then de_type_of (ch_type child) else EXT4_DE_UNKNOWN.
Proof.
  intros He Hb Hel. cbv zeta. destruct A as [_ Hn Hi]. pose proof (blen_nonneg name).
  pose proof (type_range (ch_type child)).
  assert (E1 : Z.shiftr (Z.shiftl (blen name) 8) 8 mod 2 ^ 8 = blen name).
  { rewrite Z.shiftr_shiftl_l by lia. change (8 - 8) with 0. rewrite Z.shiftl_0_r. apply Z.mod_small. lia. }
  assert (E2 : Z.shiftr (blen name) 8 = 0) by (rewrite Z.shiftr_div_pow2 by lia; apply Z.div_small; lia).
  unfold ext4_dir_en_get_inode, ext4_dir_en_get_entry_len, ext4_dir_en_get_name_len,
    ext4_dir_en_get_inode_type, de_head, ext4_dir_en_set_name_len, ext4_dir_en_set_entry_len,
    ext4_dir_en_set_inode, ext4_dir_en_set_inode_type.
  rewrite de_old_typed, u16_id, E2 by lia.
  destruct (de_typed sb); cbn [negb]; split_and!; struct_reads 8;
    change (8 * f_size de_inode) with 32; change (8 * f_size de_entry_len) with 16;
    change (8 * f_size de_name_len) with 8; change (8 * f_size de_in) with 8;
    rewrite ?E1; try (apply Z.mod_small; lia); try reflexivity.
  apply Z.lor_0_r.
Qed.

Lemma write_entry_split en el b :
  ext4_dir_write_entry sb en el child name b = memcpy_at (en + 8) name (de_head en el b).
Proof. done. Qed.

Lemma write_entry_spec en el b :
  bytes_ok b -> 0 <= en -> dent_room (blen name) <= el < 65536 -> el mod 4 = 0 -> en + el <= blen b ->
  let b' := ext4_dir_write_entry sb en el child name b in
  bytes_ok b' /\ blen b' = blen b /\ dent_at sb en b' = new_dent sb child name el /\
  entry_ok sb en b' = true /\ changed_in en (en + el) b b'.
Proof.
  intros Hb He Hel Hm Hin. cbv zeta. rewrite write_entry_split. pose proof A as [Hn Hnl Hi].
  pose proof (blen_nonneg name). pose proof (dent_room_le (blen name) ltac:(lia)).
  destruct (de_head_frame en el b He Hb) as (Hok & Hl & Hch).
  destruct (de_head_fields en el b) as (F1 & F2 & F3 & F4); [lia..|].
  set (h := de_head en el b) in *. set (b' := memcpy_at (en + 8) name h).
  assert (Hl' : blen b' = blen b) by (unfold b'; rewrite blen_memcpy_at; lia).
  assert (Hok' : bytes_ok b') by by apply bytes_ok_memcpy_at.
  assert (Hh : forall j, en <= j < en + 8 -> byte_at b' j = byte_at h j).
  { intros j Hj. unfold b'. rewrite byte_at_memcpy_at by lia. by replace (en + 8 <=? j) with false by lia. }
  assert (Ei : ext4_dir_en_get_inode en b' = ch_index child) by (rewrite <- F1; by apply (rd_ext _ _ _ _ 8)).
  assert (El : ext4_dir_en_get_entry_len en b' = el) by (rewrite <- F2; by apply (rd_ext _ _ _ _ 8)).
  assert (En : ext4_dir_en_get_name_len sb en b' = blen name) by (rewrite <- F3; by apply name_len_ext).
  assert (Et : ext4_dir_en_get_inode_type sb en b' =
    if de_typed sb then de_type_of (ch_type child) else EXT4_DE_UNKNOWN).
  { rewrite <- F4. unfold ext4_dir_en_get_inode_type. by rewrite (rd_ext de_in en b' h 8). }
  split_and!; try done.
  - unfold dent_at, new_dent. rewrite Ei, El, En, Et.
    replace (ch_index child =? 0) with false by lia. f_equal. change DE_HEADER with 8.
    apply bytes_ext; [by apply bytes_ok_slice|done|rewrite blen_slice; lia|].
    intros j. rewrite blen_slice by lia. intros Hj. rewrite byte_at_slice by lia. unfold b'.
    rewrite byte_at_memcpy_at by lia. replace (en + 8 <=? en + 8 + j) with true by lia.
    replace (en + 8 + j <? en + 8 + blen name) with true by lia. cbn [andb]. f_equal. lia.
  - unfold entry_ok. rewrite Ei, El, En. change DE_HEADER with 8. lia.
  - intros j Hj Hd. unfold b'. rewrite byte_at_memcpy_at by lia.
    replace ((en + 8 <=? j) && (j <? en + 8 + blen name)) with false by lia. apply Hch; lia.
Qed.
End Write.

Section Cut.
Context (sb : list Z).

(** Changing the length of an entry changes nothing else of it. *)
Lemma set_len_spec off v b :
  bytes_ok b -> 0 <= off -> entry_ok sb off b = true -> 0 <= v < 65536 -> v mod 4 = 0 ->
  off + d_len (dent_at sb off b) <= blen b ->
  dent_room (blen (d_name (dent_at sb off b))) <= v ->
  let b' := ext4_dir_en_set_entry_len off v b in
  let d := dent_at sb off b in
  bytes_ok b' /\ blen b' = blen b /\ dent_at sb off b' = mk_dent (d_ino d) (d_type d) (d_name d) v /\
  entry_ok sb off b' = true /\ changed_in off (off + 8) b b'.
Proof.
  intros Hb Ho Hok Hv Hm Hin Hr. cbv zeta. pose proof (entry_ok_len _ _ _ Hok) as [Hl _].
  pose proof (dent_name sb off b Ho Hok Hin) as Hn.
  change (d_live (dent_at sb off b)) with (negb (ext4_dir_en_get_inode off b =? 0)) in Hn.
  pose proof (dent_room_le (blen (d_name (dent_at sb off b))) (blen_nonneg _)) as Hrr.
  pose proof (blen_nonneg (d_name (dent_at sb off b))) as Hnn.
  assert (El : ext4_dir_en_get_entry_len off (ext4_dir_en_set_entry_len off v b) = v).
  { unfold ext4_dir_en_get_entry_len, ext4_dir_en_set_entry_len. rd_same 8. by apply Z.mod_small. }
  assert (Ei : ext4_dir_en_get_inode off (ext4_dir_en_set_entry_len off v b) = ext4_dir_en_get_inode off b).
  { apply rd_wr_ne; [done|lia]. }
  assert (En : ext4_dir_en_get_name_len sb off (ext4_dir_en_set_entry_len off v b)
    = ext4_dir_en_get_name_len sb off b).
  { unfold ext4_dir_en_get_name_len, ext4_dir_en_set_entry_len. by rewrite !rd_wr_ne. }
  assert (Et : ext4_dir_en_get_inode_type sb off (ext4_dir_en_set_entry_len off v b)
    = ext4_dir_en_get_inode_type sb off b).
  { unfold ext4_dir_en_get_inode_type, ext4_dir_en_set_entry_len. by rewrite !rd_wr_ne. }
  assert (Hch : changed_in off (off + 8) b (ext4_dir_en_set_entry_len off v b)).
  { by apply changed_in_wr. }
  split_and!; try done.
  - by apply bytes_ok_wr.
  - apply blen_wr.
  - unfold dent_at. rewrite El, Ei, En, Et. cbn [d_ino d_type d_name]. f_equal.
    case_match eqn:Hi; [done|].
    destruct (Hn eq_refl) as (_ & Hnl & Hnr). change DE_HEADER with 8.
    pose proof (dent_room_le (ext4_dir_en_get_name_len sb off b)). pose proof (name_len_range sb off b).
    unfold ext4_dir_en_set_entry_len in *.
    apply slice_ext; rewrite ?blen_wr; try done; try lia; [by apply bytes_ok_wr|].
    intros. apply Hch; lia.
  - unfold entry_ok. rewrite El, Ei, En. change DE_HEADER with 8.
    destruct (ext4_dir_en_get_inode off b =? 0) eqn:Hi; [lia|].
    destruct (Hn eq_refl) as (_ & Hnl & Hnr). rewrite Hnl in Hr, Hrr, Hnn. lia.
Qed.
End Cut.

(** ** The checksum *)

Section Seal.
Context (sb : list Z) (dir : dir_ref).
Local Abbreviation bsize := (ext4_sb_get_block_size sb).

(** Every block a modification leaves behind went through [ext4_dir_set_csum]. *)
Lemma dir_seal b l :
  bytes_ok b -> blen b = bsize -> chain sb b 0 (dir_limit sb) l ->
  (dir_csum_on sb = true -> ext4_dir_get_tail sb b = Some (bsize - DE_TAIL)) ->
  dir_block sb (ext4_dir_set_csum sb dir b) l /\
  ext4_dir_csum_verify sb dir (ext4_dir_set_csum sb dir b) = true.
Proof.
  intros Hb Hl Hc Ht. destruct (dir_limit_range sb) as [Hr _].
  unfold ext4_dir_set_csum, ext4_dir_csum_verify. fold (dir_csum_on sb).
  destruct (dir_csum_on sb) eqn:Hon; [|by split; [split; [..|rewrite Hon]|]].
  rewrite Ht by done. set (t := bsize - DE_TAIL). change DE_TAIL with 12 in *.
  set (v := ext4_dir_csum sb dir b t). set (b' := wr det_checksum t v b).
  assert (Hb' : bytes_ok b') by by apply bytes_ok_wr.
  assert (Hl' : blen b' = blen b) by apply blen_wr.
  assert (Hch : changed_in (t + 8) (t + 12) b b').
  { intros j Hj Hd. apply byte_at_set_le_ne; cbn; lia. }
  assert (Et : ext4_dir_get_tail sb b' = Some t).
  { transitivity (ext4_dir_get_tail sb b); [|by apply Ht]. unfold ext4_dir_get_tail. change DE_TAIL with 12. fold t. unfold b'.
    by rewrite !rd_wr_ne by (done || lia). }
  assert (Hlim : dir_limit sb = t) by (unfold dir_limit; rewrite Hon; done).
  assert (Es : slice 0 t b' = slice 0 t b).
  { apply slice_ext; try done; try lia. intros. apply Hch; lia. }
  rewrite Et. split.
  - split; try done; try lia. apply (chain_ext sb b); try done; try lia. intros. symmetry. apply Hch; lia.
  - unfold b'. rewrite (rd_wr_eq _ _ _ _ 12) by (done || lia). fold b'.
    unfold ext4_dir_csum. rewrite Es. fold (ext4_dir_csum sb dir b t). fold v.
    apply Z.eqb_eq, Z.mod_small, ext4_crc32c_range.
Qed.
End Seal.
