(* ===== verification/DirSpec.v ===== *)
(** * What the operations on a directory block do to its entries

    Inserting and removing as functions on the list of entries, and the proofs
    that the operations on the bytes do just that. *)

From S2P Require Import Prelude Layout Types Crc Super BlockGroup Inode DirBlock DirLaws.

(** ** Inserting *)

(** A free entry with enough room is taken whole, whatever its length. *)
Definition takes (rl : Z) (d : dent) : bool :=
  negb (d_live d) && negb (d_type d =? EXT4_DIRENTRY_DIR_CSUM) && (rl <=? d_len d).
(** An entry in use is cut to the room it needs. *)
Definition cuts (rl : Z) (d : dent) : bool :=
  d_live d && (rl <=? d_len d - dent_room (blen (d_name d))).
Definition cut (d : dent) : dent :=
  mk_dent (d_ino d) (d_type d) (d_name d) (dent_room (blen (d_name d))).

Fixpoint insert_dent (sb : list Z) (child : child_ref) (name : list Z) (l : list dent)
  : option (list dent) :=
  let rl := dent_room (blen name) in
  match l with
  | [] => None
  | d :: l =>
      if takes rl d then Some (new_dent sb child name (d_len d) :: l)
      else if cuts rl d then
        Some (cut d :: new_dent sb child name (d_len d - dent_room (blen (d_name d))) :: l)
      else option_map (cons d) (insert_dent sb child name l)
  end.

Lemma room_mod n : 0 <= n -> (n + 3) / 4 * 4 = if n mod 4 =? 0 then n else n + (4 - n mod 4).
Proof. intros. destruct (Z.eqb_spec (n mod 4) 0); dlia. Qed.

Lemma de_required_len_room n : 0 <= n <= 255 -> de_required_len n = dent_room n.
Proof.
  intros. unfold de_required_len, dent_room. change DE_HEADER with 8. rewrite room_mod by lia.
  rewrite (u16_id (8 + n)) by lia. replace ((8 + n) mod 4) with (n mod 4) by dlia.
  pose proof (Z.mod_pos_bound n 4). destruct (n mod 4 =? 0); cbn [negb]; [done|].
  rewrite u16_id by lia. lia.
Qed.
Lemma de_used_len_room n : 0 <= n -> dent_room n < 65536 -> de_used_len n = dent_room n.
Proof.
  intros Hn. unfold de_used_len, dent_room. change DE_HEADER with 8. rewrite room_mod by lia.
  pose proof (Z.mod_pos_bound n 4). destruct (n mod 4 =? 0); cbn [negb]; intros; rewrite (u16_id (8 + n)) by lia; [done|].
  rewrite u16_id; lia.
Qed.

Section Insert.
Context (sb : list Z) (G : dir_geom sb) (dir : dir_ref).
Context (child : child_ref) (name : list Z) (A : entry_arg child name).
Local Abbreviation bsize := (ext4_sb_get_block_size sb).
Local Abbreviation rl := (dent_room (blen name)).

(** The block before its checksum is set. *)
Definition inserted (b : list Z) (off stop : Z) (l : list dent) (raw : list Z) : Prop :=
  bytes_ok raw /\ blen raw = blen b /\ changed_in off stop b raw /\ chain sb raw off stop l.

Lemma inserted_cons b off d stop l raw :
  bytes_ok b -> 0 <= off -> stop <= blen b ->
  dent_at sb off b = d -> entry_ok sb off b = true -> off + d_len d <= stop ->
  inserted b (off + d_len d) stop l raw -> inserted b off stop (d :: l) raw.
Proof.
  intros Hb Ho Hs <- Hok Hle (Hr & Hl & Hch & Hc). pose proof (entry_ok_len _ _ _ Hok).
  destruct (dent_at_ext sb off b raw) as [E Hok']; try done.
  { change (ext4_dir_en_get_entry_len off b) with (d_len (dent_at sb off b)). lia. }
  { intros j Hj. symmetry. apply Hch; [lia|]. left. apply Hj. }
  split_and!; [done|done|eapply changed_in_weaken; [done|lia..]|].
  cbn [chain]. by split_and!.
Qed.

(** A free entry is overwritten. *)
Lemma take_step b off d stop l :
  bytes_ok b -> 0 <= off -> stop <= blen b ->
  dent_at sb off b = d -> entry_ok sb off b = true -> off + d_len d <= stop ->
  chain sb b (off + d_len d) stop l -> rl <= d_len d ->
  inserted b off stop (new_dent sb child name (d_len d) :: l)
    (ext4_dir_write_entry sb off (d_len d) child name b).
Proof.
  intros Hb Ho Hs <- Hok Hle Hc Hr. pose proof (entry_ok_len _ _ _ Hok) as [Hl Hm].
  destruct (write_entry_spec sb child name A off (d_len (dent_at sb off b)) b) as (H1 & H2 & H3 & H4 & H5);
    try done; try lia.
  split_and!; [done|done|eapply changed_in_weaken; [done|lia..]|].
  cbn [chain new_dent d_len]. split_and!; [done|done|done|].
  apply (chain_ext sb b); try done; try lia. intros j Hj. symmetry. apply H5; lia.
Qed.

(** An entry in use is cut, and the rest of its room overwritten. *)
Lemma cut_step b off d stop l :
  bytes_ok b -> 0 <= off -> stop <= blen b ->
  dent_at sb off b = d -> entry_ok sb off b = true -> off + d_len d <= stop ->
  chain sb b (off + d_len d) stop l -> d_live d = true ->
  let sz := dent_room (blen (d_name d)) in
  rl <= d_len d - sz ->
  inserted b off stop (cut d :: new_dent sb child name (d_len d - sz) :: l)
    (ext4_dir_write_entry sb (off + sz) (d_len d - sz) child name (ext4_dir_en_set_entry_len off sz b)).
Proof.
  intros Hb Ho Hs <- Hok Hle Hc Hlv sz Hr. pose proof (entry_ok_len _ _ _ Hok) as [Hl Hm].
  set (d := dent_at sb off b) in *.
  pose proof (dent_room_le (blen (d_name d)) (blen_nonneg _)) as [Hz1 Hz2].
  pose proof (dent_room_le _ (blen_nonneg name)) as [Hn1 Hn2].
  pose proof (blen_nonneg (d_name d)). pose proof (blen_nonneg name). fold sz in Hz1, Hz2.
  destruct (set_len_spec sb off sz b) as (S1 & S2 & S3 & S4 & S5); try done; fold d; try lia.
  set (b1 := ext4_dir_en_set_entry_len off sz b) in *.
  destruct (write_entry_spec sb child name A (off + sz) (d_len d - sz) b1) as (W1 & W2 & W3 & W4 & W5);
    try done; try lia; [dlia|].
  set (b2 := ext4_dir_write_entry sb (off + sz) (d_len d - sz) child name b1) in *.
  destruct (dent_at_ext sb off b1 b2) as [E Hok']; try done; try lia;
    change (ext4_dir_en_get_entry_len off b1) with (d_len (dent_at sb off b1)); rewrite ?S3; cbn [d_len]; try lia.
  { intros j Hj. symmetry. apply W5; lia. }
  split_and!; [done|lia| |].
  - eapply changed_in_trans; (eapply changed_in_weaken; [done|lia..]).
  - cbn [chain cut new_dent d_len]. fold sz. rewrite E, S3. split_and!; try done; try lia.
    replace (off + sz + (d_len d - sz)) with (off + d_len d) by lia.
    apply (chain_ext sb b); try done; try lia.
    intros j Hj. symmetry. rewrite W5 by lia. apply S5; lia.
Qed.

Lemma insert_loop_tail fuel b start :
  chain sb b start bsize (tail_of sb) -> (length (tail_of sb) < fuel)%nat ->
  try_insert_loop fuel sb dir child name rl start b = Err ENOSPC.
Proof.
  unfold tail_of. destruct fuel as [|fuel]; [lia|]. destruct (dir_csum_on sb); cbn [chain length].
  - intros ((E & Hok) & Hle & Hend) Hf. destruct fuel as [|fuel]; [lia|].
    change (d_len tail_dent) with 12 in *. cbn [try_insert_loop]. change DE_HEADER with 8.
    assert (Ei : ext4_dir_en_get_inode start b = 0) by by injection E.
    assert (Et : ext4_dir_en_get_inode_type sb start b = EXT4_DIRENTRY_DIR_CSUM) by by injection E.
    assert (El : ext4_dir_en_get_entry_len start b = 12) by by injection E.
    rewrite Ei, Et, El. cbn [andb orb negb Z.eqb Z.ltb Z.compare].
    replace (start + 8 <=? bsize) with true by lia.
    change (negb (12 mod 4 =? 0)) with false. change (EXT4_DIRENTRY_DIR_CSUM =? EXT4_DIRENTRY_DIR_CSUM) with true.
    cbn [andb orb negb]. replace (bsize <? start + 12) with false by lia.
    replace (start + 12 + 8 <=? bsize) with false by lia.
    by replace (start + 12 =? bsize) with true by lia.
  - intros E _. cbn [try_insert_loop]. change DE_HEADER with 8. rewrite E.
    replace (bsize + 8 <=? bsize) with false by lia. by rewrite Z.eqb_refl.
Qed.

Lemma insert_loop_chain b (Hb : bytes_ok b) (Hl : blen b = bsize)
  (Ht : chain sb b (dir_limit sb) bsize (tail_of sb)) : forall l fuel start,
  0 <= start -> chain sb b start (dir_limit sb) l ->
  (length l + length (tail_of sb) < fuel)%nat ->
  match insert_dent sb child name l with
  | None => try_insert_loop fuel sb dir child name rl start b = Err ENOSPC
  | Some l' => exists raw,
      try_insert_loop fuel sb dir child name rl start b = Ok (ext4_dir_set_csum sb dir raw) /\
      inserted b start (dir_limit sb) l' raw
  end.
Proof.
  destruct (dir_limit_range sb) as [Hlim _].
  induction l as [|d l IH]; intros [|fuel] start Ho Hc Hf; cbn [length] in Hf; try lia.
  { cbn [insert_dent]. cbn [chain] in Hc. subst start. by apply insert_loop_tail. }
  destruct Hc as ((Hd & Hok) & Hle & Hc). pose proof (entry_ok_len _ _ _ Hok) as [Hel Hem]. rewrite Hd in Hel, Hem.
  pose proof (dent_name sb start b Ho Hok) as Hn. rewrite Hd in Hn.
  specialize (IH fuel (start + d_len d) ltac:(lia) Hc ltac:(lia)).
  assert (Hnext : insert_dent sb child name (d :: l) = option_map (cons d) (insert_dent sb child name l) ->
    try_insert_loop (S fuel) sb dir child name rl start b =
    try_insert_loop fuel sb dir child name rl (start + d_len d) b ->
    match insert_dent sb child name (d :: l) with
    | None => try_insert_loop (S fuel) sb dir child name rl start b = Err ENOSPC
    | Some l' => exists raw,
        try_insert_loop (S fuel) sb dir child name rl start b = Ok (ext4_dir_set_csum sb dir raw) /\
        inserted b start (dir_limit sb) l' raw
    end).
  { intros -> ->. destruct (insert_dent sb child name l) as [l'|]; cbn [option_map]; [|done].
    destruct IH as (raw & -> & HI). exists raw. split; [done|]. eapply inserted_cons; try done; lia. }
  cbn [insert_dent] in *. unfold takes, cuts in *. cbn [try_insert_loop] in *. change DE_HEADER with 8 in *.
  assert (Ei : ext4_dir_en_get_inode start b = d_ino d) by by rewrite <- Hd.
  assert (Et : ext4_dir_en_get_inode_type sb start b = d_type d) by by rewrite <- Hd.
  assert (El : ext4_dir_en_get_entry_len start b = d_len d) by by rewrite <- Hd.
  rewrite Ei, Et, El in *. replace (start + 8 <=? bsize) with true in * by lia.
  replace ((d_len d <? 8) || negb (d_len d mod 4 =? 0) || (bsize <? start + d_len d)) with false in * by lia.
  fold (d_live d) in *. replace (d_ino d =? 0) with (negb (d_live d)) in * by (unfold d_live; by destruct (d_ino d =? 0)).
  destruct (negb (d_live d) && negb (d_type d =? EXT4_DIRENTRY_DIR_CSUM) && (rl <=? d_len d)) eqn:Htake.
  { eexists. split; [done|]. apply take_step; try done; lia. }
  destruct (d_live d) eqn:Hlive; cbn [negb andb] in *; [|by apply Hnext].
  destruct (Hn ltac:(lia) eq_refl) as (_ & Enl & Hroom). rewrite <- Enl in *.
  pose proof (blen_nonneg (d_name d)). pose proof (dent_room_le (blen (d_name d)) ltac:(lia)).
  rewrite de_used_len_room in * by lia.
  replace (d_len d <? dent_room (blen (d_name d))) with false in * by lia.
  rewrite u16_id in * by lia. destruct (rl <=? d_len d - dent_room (blen (d_name d))) eqn:Hcut.
  { eexists. split; [done|]. apply cut_step; try done; lia. }
  by apply Hnext.
Qed.

(** The operation on a whole block. *)
Lemma insert_block b l :
  dir_block sb b l ->
  match insert_dent sb child name l with
  | None => ext4_dir_try_insert_entry sb dir child name b = Err ENOSPC
  | Some l' => exists b',
      ext4_dir_try_insert_entry sb dir child name b = Ok b' /\ dir_block sb b' l' /\
      ext4_dir_csum_verify sb dir b' = true
  end.
Proof.
  intros B. pose proof B as [Hb Hl Hc Htl]. destruct A as [_ Hn _]. pose proof (blen_nonneg name).
  destruct (dir_limit_range sb) as [Hlim Hspan]. pose proof (tail_chain sb G b Htl) as Ht.
  pose proof (chain_length _ _ _ _ _ (block_chain sb G b l B)) as Hlen. rewrite length_app in Hlen.
  unfold ext4_dir_try_insert_entry. rewrite de_required_len_room by lia.
  pose proof (insert_loop_chain b Hb Hl Ht l (S (Z.to_nat bsize)) 0 ltac:(lia) Hc ltac:(lia)) as HI.
  destruct (insert_dent sb child name l) as [l'|]; [|done].
  destruct HI as (raw & -> & Hr & Hrl & Hch & Hrc). exists (ext4_dir_set_csum sb dir raw). split; [done|].
  apply dir_seal; [done|lia|done|]. intros Hon. specialize (Htl Hon). rewrite <- Htl.
  apply get_tail_ext. unfold dir_limit in *. rewrite Hon in *. change DE_TAIL with 12 in *.
  intros j Hj. apply Hch; lia.
Qed.
End Insert.

(** What the new list is. *)
Lemma insert_dent_listing sb child name l l' :
  0 < ch_index child -> insert_dent sb child name l = Some l' ->
  listing l' ≡ₚ (name, ch_index child, d_type (new_dent sb child name 0)) :: listing l.
Proof.
  intros Hi. revert l'. induction l as [|d l IH]; intros l'; cbn [insert_dent]; [done|].
  assert (Hnew : forall n, d_live (new_dent sb child name n) = true).
  { intros n. unfold d_live, new_dent. cbn [d_ino]. lia. }
  destruct (takes _ d) eqn:Ht; [|destruct (cuts _ d) eqn:Hc].
  - intros [= <-]. rewrite !listing_cons, Hnew. unfold takes in Ht. by destruct (d_live d).
  - intros [= <-]. rewrite !listing_cons, Hnew. unfold cuts in Hc.
    change (d_live (cut d)) with (d_live d). destruct (d_live d); [|done]. cbn [app]. apply Permutation_swap.
  - destruct (insert_dent sb child name l) as [l2|]; [|done]. intros [= <-].
    rewrite !listing_cons, (IH _ eq_refl). by rewrite Permutation_middle.
Qed.

Lemma insert_dent_full sb child name l :
  insert_dent sb child name l = None ->
  Forall (fun d => takes (dent_room (blen name)) d = false /\ cuts (dent_room (blen name)) d = false) l.
Proof.
  induction l as [|d l IH]; cbn [insert_dent]; [constructor|].
  repeat case_match; try done. constructor; [done|]. apply IH. by destruct (insert_dent sb child name l).
Qed.

(** ** Removing *)

Definition freed (d : dent) : dent := mk_dent 0 (d_type d) [] (d_len d).
Definition grow (d : dent) (n : Z) : dent := mk_dent (d_ino d) (d_type d) (d_name d) (d_len d + n).

(** [d] taken out of [l1 ++ d :: l2]. *)
Fixpoint remove_dent (l1 : list dent) (d : dent) (l2 : list dent) : list dent :=
  match l1 with
  | [] => freed d :: l2
  | [p] => grow p (d_len d) :: l2
  | p :: l1 => p :: remove_dent l1 d l2
  end.

Lemma remove_dent_snoc l0 p d l2 : remove_dent (l0 ++ [p]) d l2 = l0 ++ grow p (d_len d) :: l2.
Proof.
  induction l0 as [|q l0 IH]; [done|]. cbn [app remove_dent].
  destruct (l0 ++ [p]) eqn:E; [by destruct l0|]. by rewrite IH.
Qed.

Lemma remove_dent_listing l1 d l2 : listing (remove_dent l1 d l2) = listing l1 ++ listing l2.
Proof.
  destruct l1 as [|p l0 _] using rev_ind; [done|].
  rewrite remove_dent_snoc, !listing_app, !listing_cons, <- app_assoc.
  change (d_live (grow p (d_len d))) with (d_live p). by destruct (d_live p).
Qed.

Section Remove.
Context (sb : list Z) (G : dir_geom sb) (dir : dir_ref).
Local Abbreviation bsize := (ext4_sb_get_block_size sb).

Lemma find_pred_chain b pos p : forall l0 fuel off,
  0 <= off -> pos < 2 ^ 32 -> chain sb b off pos (l0 ++ [p]) -> (length l0 < fuel)%nat ->
  find_pred_loop fuel pos off b = Ok (off + span l0).
Proof.
  induction l0 as [|q l0 IH]; intros [|fuel] off Ho Hp Hc Hf; cbn [length] in Hf; try lia.
  - destruct Hc as ((E & Hok) & Hle & Hend). cbn [find_pred_loop].
    change (ext4_dir_en_get_entry_len off b) with (d_len (dent_at sb off b)). rewrite E.
    cbn [chain] in Hend. replace (off + d_len p <? pos) with false by lia.
    replace (d_len p + off =? pos) with true by lia. cbn. f_equal. lia.
  - destruct Hc as ((E & Hok) & Hle & Hc). cbn [find_pred_loop].
    pose proof (entry_ok_len _ _ _ Hok) as [Hl _].
    change (ext4_dir_en_get_entry_len off b) with (d_len (dent_at sb off b)). rewrite E in *.
    assert (Hlt : off + d_len q < pos).
    { pose proof (chain_length _ _ _ _ _ Hc) as Hlt. rewrite length_app in Hlt. cbn [length] in Hlt. lia. }
    replace (off + d_len q <? pos) with true by lia. replace (d_len q =? 0) with false by lia.
    rewrite u32_id by lia. rewrite IH by (done || lia). cbn [span fold_right]. fold (span l0). f_equal. lia.
Qed.

Lemma freed_step b pos d :
  bytes_ok b -> 0 <= pos -> dent_at sb pos b = d -> entry_ok sb pos b = true ->
  pos + d_len d <= blen b ->
  let b1 := ext4_dir_en_set_inode pos 0 b in
  bytes_ok b1 /\ blen b1 = blen b /\ dent_at sb pos b1 = freed d /\ entry_ok sb pos b1 = true /\
  changed_in pos (pos + 8) b b1.
Proof.
  intros Hb Ho <- Hok Hin. cbv zeta. pose proof (entry_ok_len _ _ _ Hok) as [Hl _].
  assert (Ei : ext4_dir_en_get_inode pos (ext4_dir_en_set_inode pos 0 b) = 0).
  { unfold ext4_dir_en_get_inode, ext4_dir_en_set_inode. by rd_same 8. }
  assert (El : ext4_dir_en_get_entry_len pos (ext4_dir_en_set_inode pos 0 b) = ext4_dir_en_get_entry_len pos b).
  { by apply rd_wr_ne. }
  split_and!; [by apply bytes_ok_wr|apply blen_wr| | |by apply changed_in_wr].
  - unfold dent_at, freed. rewrite Ei, El. cbn [d_type d_len]. f_equal.
    unfold ext4_dir_en_get_inode_type, ext4_dir_en_set_inode. by rewrite rd_wr_ne.
  - unfold entry_ok in *. rewrite Ei, El. lia.
Qed.

(** The operation on a whole block. *)
Lemma remove_block b l1 d l2 :
  dir_block sb b (l1 ++ d :: l2) -> d_live d = true ->
  exists b', dir_remove_in_block sb dir (span l1) b = (Ok tt, b') /\
    dir_block sb b' (remove_dent l1 d l2) /\ ext4_dir_csum_verify sb dir b' = true.
Proof.
  intros [Hb Hl Hc Htl] _. destruct (dir_limit_range sb) as [Hlim _]. pose proof (dg_limit _ G) as Hmax.
  apply chain_split in Hc as (Hc1 & E & Hok & Hle & Hc2). rewrite Z.add_0_l in *.
  pose proof (chain_le _ _ _ _ _ Hc1) as Hpos. pose proof (entry_ok_len _ _ _ Hok) as [Hel Hem]. rewrite E in Hel, Hem.
  set (pos := span l1) in *.
  destruct (freed_step b pos d) as (F1 & F2 & F3 & F4 & F5); try done; try lia.
  set (b1 := ext4_dir_en_set_inode pos 0 b) in *.
  assert (Hc1' : chain sb b1 0 pos l1).
  { apply (chain_ext sb b); try done; try lia. intros j Hj. symmetry. apply F5; lia. }
  assert (Hc2' : chain sb b1 (pos + d_len d) (dir_limit sb) l2).
  { apply (chain_ext sb b); try done; try lia. intros j Hj. symmetry. apply F5; lia. }
  assert (Htl' : dir_csum_on sb = true -> ext4_dir_get_tail sb b1 = Some (bsize - DE_TAIL)).
  { intros Hon. rewrite <- (Htl Hon). unfold dir_limit in *. rewrite Hon in *. change DE_TAIL with 12 in *.
    apply get_tail_ext. change DE_TAIL with 12. intros j Hj. apply F5; lia. }
  unfold dir_remove_in_block. fold b1. destruct l1 as [|p l0 _] using rev_ind.
  { subst pos. cbn [span fold_right Z.eqb negb remove_dent] in *. eexists. split; [done|]. apply dir_seal; [done|lia| |done].
    cbn [chain freed d_len]. by split_and!. }
  rewrite remove_dent_snoc. apply chain_split in Hc1' as (H0 & Ep & Hokp & Hlep & Hend). rewrite Z.add_0_l in *.
  cbn [chain] in Hend. pose proof (entry_ok_len _ _ _ Hokp) as [Hpl Hpm]. rewrite Ep in Hpl, Hpm.
  pose proof (chain_le _ _ _ _ _ H0). pose proof (chain_length _ _ _ _ _ H0).
  replace (pos =? 0) with false by lia. cbn [negb].
  assert (Hpred : find_pred_loop (S (Z.to_nat pos)) pos 0 b1 = Ok (span l0)).
  { rewrite (find_pred_chain b1 pos p l0); [done|lia|lia| |lia].
    apply chain_app. rewrite Z.add_0_l. cbn [chain]. split_and!; try done; lia. }
  rewrite Hpred. eexists. split; [done|].
  change (ext4_dir_en_get_entry_len (span l0) b1) with (d_len (dent_at sb (span l0) b1)). rewrite Ep.
  change (ext4_dir_en_get_entry_len pos b1) with (d_len (dent_at sb pos b1)). rewrite F3. cbn [freed d_len].
  rewrite u16_id by lia.
  assert (Hroom : dent_room (blen (d_name p)) <= d_len p) by (rewrite <- Ep; apply dent_fits; [lia|done|rewrite Ep; lia]).
  destruct (set_len_spec sb (span l0) (d_len p + d_len d) b1) as (S1 & S2 & S3 & S4 & S5); rewrite ?Ep; try done; try lia.
  { dlia. }
  set (b2 := ext4_dir_en_set_entry_len (span l0) (d_len p + d_len d) b1) in *.
  apply dir_seal; [done|lia| |].
  - apply chain_app. rewrite Z.add_0_l. cbn [chain grow d_len]. rewrite S3, Ep.
    split_and!; try done; try lia.
    + apply (chain_ext sb b1); try done; try lia. intros j Hj. symmetry. apply S5; lia.
    + replace (span l0 + (d_len p + d_len d)) with (pos + d_len d) by lia.
      apply (chain_ext sb b1); try done; try lia. intros j Hj. symmetry. apply S5; lia.
  - intros Hon. rewrite <- (Htl' Hon). unfold dir_limit in *. rewrite Hon in *. change DE_TAIL with 12 in *.
    apply get_tail_ext. change DE_TAIL with 12. intros j Hj. apply S5; lia.
Qed.
End Remove.

(** ** A fresh block *)

Section New.
Context (sb : list Z) (G : dir_geom sb) (dir : dir_ref).
Context (child : child_ref) (name : list Z) (A : entry_arg child name).
Local Abbreviation bsize := (ext4_sb_get_block_size sb).

Lemma init_tail_spec t b :
  bytes_ok b -> t = bsize - DE_TAIL -> blen b = bsize ->
  let b' := ext4_dir_init_entry_tail t b in
  bytes_ok b' /\ blen b' = blen b /\ changed_in t bsize b b' /\ ext4_dir_get_tail sb b' = Some t.
Proof.
  intros Hb Et Hl. cbv zeta. pose proof (block_size_ge sb). pose proof Et as Et'. change DE_TAIL with 12 in Et.
  destruct (memset_spec t 0 DE_TAIL b) as (M1 & M2 & M3); [done|lia|done|change DE_TAIL with 12; lia|].
  change DE_TAIL with 12 in M3. unfold ext4_dir_init_entry_tail. set (z := memset_at t 0 DE_TAIL b) in *.
  assert (H0 : forall f, f_within 12 f = true -> rd f t z = 0).
  { intros f Hf. apply (rd_zeros f t z 12 Hf). intros j Hj. subst z. unfold memset_at.
    change (replicate (Z.to_nat DE_TAIL) (u8 0)) with (replicate 12 0).
    rewrite byte_at_memcpy_at by (change (blen (replicate 12 0)) with 12; lia).
    case_match eqn:E; [apply byte_at_zeros|]. change (blen (replicate 12 0)) with 12 in E. lia. }
  split_and!.
  - by repeat apply bytes_ok_wr.
  - by rewrite !blen_wr.
  - replace bsize with (t + 12) by lia.
    repeat (eapply changed_in_trans; [|apply (changed_in_wr _ _ _ _ 12); [done|lia]]). done.
  - unfold ext4_dir_get_tail. rewrite <- Et'.
    assert (L : t + 12 <= blen z) by lia.
    struct_reads 12.
    rewrite !H0 by done. done.
Qed.

Lemma new_block b :
  bytes_ok b -> blen b = bsize ->
  dir_block sb (dir_new_block sb dir child name b) [new_dent sb child name (dir_limit sb)] /\
  ext4_dir_csum_verify sb dir (dir_new_block sb dir child name b) = true.
Proof.
  intros Hb Hl. pose proof (dg_limit _ G) as Hmax. destruct (dir_limit_range sb) as [Hlim _].
  pose proof (block_size_ge sb) as Hbs. pose proof A as [_ Hn _]. pose proof (blen_nonneg name).
  pose proof (dent_room_le (blen name) ltac:(lia)) as [Hr1 Hr2].
  destruct (memset_spec 0 0 bsize b) as (M1 & M2 & _); [done|lia|lia|lia|].
  assert (Hm4 : dir_limit sb mod 4 = 0).
  { unfold dir_limit. destruct (block_size_cases sb) as (k & Hk & ->).
    change 1024 with (4 * 256). destruct (dir_csum_on sb); change DE_TAIL with (4 * 3);
      rewrite <- ?Z.mul_assoc, ?Z.sub_0_r, <- ?Z.mul_sub_distr_l, Z.mul_comm; apply Z.mod_mul; lia. }
  unfold dir_new_block. fold (dir_csum_on sb). set (z := memset_at 0 0 bsize b) in *.
  destruct (write_entry_spec sb child name A 0 (dir_limit sb) z) as (W1 & W2 & W3 & W4 & W5); try done; try lia.
  assert (Hc : forall b', bytes_ok b' -> blen b' = bsize ->
    changed_in (dir_limit sb) bsize (ext4_dir_write_entry sb 0 (dir_limit sb) child name z) b' ->
    chain sb b' 0 (dir_limit sb) [new_dent sb child name (dir_limit sb)]).
  { intros b' B1 B2 B3. apply (chain_ext sb (ext4_dir_write_entry sb 0 (dir_limit sb) child name z)); try lia; try done.
    intros j Hj. symmetry. apply B3; lia. }
  destruct (dir_csum_on sb) eqn:Hon.
  - assert (El : dir_limit sb = bsize - DE_TAIL) by (unfold dir_limit; by rewrite Hon).
    rewrite u16_id by lia. rewrite <- El.
    destruct (init_tail_spec (dir_limit sb) (ext4_dir_write_entry sb 0 (dir_limit sb) child name z))
      as (I1 & I2 & I3 & I4); [done|done|lia|].
    apply dir_seal; [done|lia|apply Hc; [done|lia|done]|]. intros _. by rewrite I4, El.
  - assert (El : dir_limit sb = bsize) by (unfold dir_limit; rewrite Hon; lia).
    rewrite u16_id by lia. rewrite <- El.
    apply dir_seal; [done|lia|apply Hc; [done|lia|by intros j]|]. by rewrite Hon.
Qed.
End New.
