(* ===== verification/DirProps.v ===== *)
(** * Properties of the directory block operations

    A block reads as a finite map from names to inodes, and the operations are
    the operations of that map; every block that can come about is well formed;
    and on any bytes whatsoever the walks end, and stay inside the block. *)

From S2P Require Import Prelude Layout Types Crc Super BlockGroup Inode DirBlock DirLaws DirSpec.

(** ** The map a block stands for *)

(** Name to inode number and type. *)
Definition names (l : list dent) : list (list Z) := map (fun p => p.1.1) (listing l).
Definition dir_map (l : list dent) : gmap (list Z) (Z * Z) :=
  list_to_map (map (fun p => (p.1.1, (p.1.2, p.2))) (listing l)).

(** [b] is a well-formed block of [dir], sealed, without duplicates, that stands
    for [m]. *)
Definition dir_holds (sb : list Z) (dir : dir_ref) (b : list Z) (m : gmap (list Z) (Z * Z)) : Prop :=
  exists l, dir_block sb b l /\ ext4_dir_csum_verify sb dir b = true /\ NoDup (names l) /\ dir_map l = m.

Lemma map_keys (L : list (list Z * Z * Z)) :
  (map (fun p => (p.1.1, (p.1.2, p.2))) L).*1 = map (fun p => p.1.1) L.
Proof. rewrite <- list_fmap_compose. done. Qed.

Lemma names_None l name : dir_map l !! name = None <-> name ∉ names l.
Proof. unfold dir_map. by rewrite <- not_elem_of_list_to_map, map_keys. Qed.

Lemma dir_map_Some l name v :
  NoDup (names l) -> dir_map l !! name = Some v <-> (name, v.1, v.2) ∈ listing l.
Proof.
  intros Hnd. unfold dir_map. rewrite <- elem_of_list_to_map by by rewrite map_keys.
  rewrite list_elem_of_fmap. destruct v as [i t]. split.
  - intros (((n & i') & t') & E & H). cbn in *. by simplify_eq.
  - intros H. by exists (name, i, t).
Qed.

Lemma in_listing l name i t :
  (name, i, t) ∈ listing l <-> exists d, d ∈ l /\ d_live d = true /\ d_name d = name /\ d_ino d = i /\ d_type d = t.
Proof.
  unfold listing, live. rewrite list_elem_of_fmap. split.
  - intros (d & E & (H & ?)%list_elem_of_filter). simplify_eq. by exists d.
  - intros (d & ? & ? & <- & <- & <-). exists d. split; [done|]. by apply list_elem_of_filter.
Qed.

Lemma find_live_names l name off : find_live name off l = None <-> name ∉ names l.
Proof.
  rewrite find_live_None, Forall_forall. unfold names. rewrite list_elem_of_fmap. split.
  - intros H (((n & i) & t) & -> & (d & Hd & Hl & En & _)%in_listing). by apply (H d).
  - intros H d Hd Hl E. apply H. exists (d_name d, d_ino d, d_type d). split; [done|]. apply in_listing. by exists d.
Qed.

(** ** The operations are those of the map *)

Section Refine.
Context (sb : list Z) (G : dir_geom sb) (dir : dir_ref).

Lemma lookup_map b m name :
  dir_holds sb dir b m ->
  match m !! name with
  | Some (ino, type) => exists pos,
      ext4_dir_find_in_block sb name b = Ok pos /\
      ext4_dir_en_get_inode pos b = ino /\ ext4_dir_en_get_inode_type sb pos b = type
  | None => ext4_dir_find_in_block sb name b = Err ENOENT
  end.
Proof.
  intros (l & B & _ & Hnd & <-). rewrite (find_block sb b l name G B).
  destruct (find_live name 0 l) as [pos|] eqn:Hf.
  - apply find_live_Some in Hf as (l1 & d & l2 & -> & -> & Hl & <- & _).
    assert (Hm : dir_map (l1 ++ d :: l2) !! d_name d = Some (d_ino d, d_type d)).
    { apply dir_map_Some; [done|]. apply in_listing. exists d. split; [|done]. set_solver. }
    rewrite Hm. destruct (chain_split _ _ _ _ _ _ _ (db_chain _ _ _ B)) as (_ & E & _).
    exists (0 + span l1). split; [done|]. by rewrite <- E.
  - apply find_live_names, names_None in Hf. by rewrite Hf.
Qed.

Lemma names_insert_map b m child name :
  dir_holds sb dir b m -> entry_arg child name -> m !! name = None ->
  (exists b', ext4_dir_try_insert_entry sb dir child name b = Ok b' /\
     dir_holds sb dir b' (<[name := (ch_index child, d_type (new_dent sb child name 0))]> m)) \/
  ext4_dir_try_insert_entry sb dir child name b = Err ENOSPC.
Proof.
  intros (l & B & _ & Hnd & <-) A Hm. pose proof (insert_block sb G dir child name A b l B) as HI.
  destruct (insert_dent sb child name l) as [l'|] eqn:Hi; [left|by right].
  destruct HI as (b' & -> & B' & Hv). exists b'. split; [done|]. apply names_None in Hm.
  pose proof (insert_dent_listing _ _ _ _ _ (proj1 (ea_ino _ _ A)) Hi) as HP.
  assert (Hnd' : NoDup (names l')).
  { unfold names. rewrite HP. cbn [map fst]. constructor; done. }
  exists l'. split_and!; try done. unfold dir_map.
  erewrite list_to_map_proper; [|by rewrite map_keys|by rewrite HP]. done.
Qed.

Lemma remove_map b m name v :
  dir_holds sb dir b m -> m !! name = Some v ->
  exists pos b', ext4_dir_find_in_block sb name b = Ok pos /\
    dir_remove_in_block sb dir pos b = (Ok tt, b') /\ dir_holds sb dir b' (delete name m).
Proof.
  intros (l & B & _ & Hnd & <-) Hm. rewrite (find_block sb b l name G B).
  destruct (find_live name 0 l) as [pos|] eqn:Hf; [|by apply find_live_names, names_None in Hf; rewrite Hm in Hf].
  apply find_live_Some in Hf as (l1 & d & l2 & -> & -> & Hl & <- & _). rewrite Z.add_0_l.
  destruct (remove_block sb G dir b l1 d l2 B Hl) as (b' & Hr & B' & Hv).
  exists (span l1), b'. split_and!; [done|done|]. exists (remove_dent l1 d l2).
  pose proof (remove_dent_listing l1 d l2) as HL.
  assert (HP : listing (l1 ++ d :: l2) ≡ₚ (d_name d, d_ino d, d_type d) :: (listing l1 ++ listing l2)).
  { rewrite listing_app, listing_cons, Hl. cbn [app]. by rewrite <- Permutation_middle. }
  assert (Hnd' : NoDup (names (remove_dent l1 d l2)) /\ d_name d ∉ names (remove_dent l1 d l2)).
  { unfold names in *. rewrite HL. rewrite HP in Hnd. cbn [map fst] in Hnd. by apply NoDup_cons in Hnd as [? ?]. }
  destruct Hnd' as [Hnd' Hni]. split_and!; try done.
  assert (Hm2 : dir_map (l1 ++ d :: l2) = <[d_name d := (d_ino d, d_type d)]> (dir_map (remove_dent l1 d l2))).
  { unfold dir_map. erewrite list_to_map_proper; [|by rewrite map_keys|by rewrite HP, <- HL]. done. }
  rewrite Hm2, delete_insert_id; [done|]. by apply names_None.
Qed.
End Refine.

(** ** Every block that comes about *)

(** The blocks of a directory: a fresh one, and what inserting a name that is not
    there and removing one that is make of it. *)
Inductive dir_reach (sb : list Z) (dir : dir_ref) : list Z -> Prop :=
| reach_new child name b :
    entry_arg child name -> bytes_ok b -> blen b = ext4_sb_get_block_size sb ->
    dir_reach sb dir (dir_new_block sb dir child name b)
| reach_insert b child name b' :
    dir_reach sb dir b -> entry_arg child name -> ext4_dir_find_in_block sb name b = Err ENOENT ->
    ext4_dir_try_insert_entry sb dir child name b = Ok b' -> dir_reach sb dir b'
| reach_remove b name pos b' :
    dir_reach sb dir b -> ext4_dir_find_in_block sb name b = Ok pos ->
    dir_remove_in_block sb dir pos b = (Ok tt, b') -> dir_reach sb dir b'.

Lemma new_map sb dir child name b :
  dir_geom sb -> entry_arg child name -> bytes_ok b -> blen b = ext4_sb_get_block_size sb ->
  dir_holds sb dir (dir_new_block sb dir child name b)
    {[name := (ch_index child, d_type (new_dent sb child name 0))]}.
Proof.
  intros G A Hb Hl. destruct (new_block sb G dir child name A b Hb Hl) as [B Hv].
  assert (L : listing [new_dent sb child name (dir_limit sb)] =
    [(name, ch_index child, d_type (new_dent sb child name 0))]).
  { rewrite listing_cons. unfold d_live, new_dent. cbn [d_ino d_name d_type].
    destruct A as [_ _ [Hi _]]. by replace (ch_index child =? 0) with false by lia. }
  exists [new_dent sb child name (dir_limit sb)]. split_and!; try done.
  - unfold names. rewrite L. apply NoDup_singleton.
  - unfold dir_map. by rewrite L.
Qed.

(** A sample: 1 KiB blocks, checksums, typed entries. *)
Definition dir_sb : list Z :=
  wr sb_features_read_only 0 EXT4_FRO_COM_METADATA_CSUM (wr sb_rev_level 0 1 (replicate 1024 0)).
Definition dir_sample : dir_ref := mk_dir_ref 12 99.
Definition dir_child (n : Z) : child_ref := mk_child_ref n EXT4_INODE_MODE_FILE.
Definition name_a : list Z := [97; 46; 99].
Definition name_b : list Z := [98].
Definition dir_block_a : list Z := dir_new_block dir_sb dir_sample (dir_child 13) name_a (replicate 1024 0).

Lemma dir_sb_geom : dir_geom dir_sb.
Proof. split; [by vm_compute|done]. Qed.
Lemma entry_arg_a : entry_arg (dir_child 13) name_a.
Proof. split; [by vm_compute; repeat constructor|by vm_compute|done]. Qed.
Lemma entry_arg_b : entry_arg (dir_child 14) name_b.
Proof. split; [by vm_compute; repeat constructor|by vm_compute|done]. Qed.
Lemma dir_block_a_holds :
  dir_holds dir_sb dir_sample dir_block_a {[name_a := (13, EXT4_DE_REG_FILE)]}.
Proof.
  pose proof (new_map dir_sb dir_sample (dir_child 13) name_a (replicate 1024 0) dir_sb_geom entry_arg_a) as H.
  apply H; [by apply (bool_decide_unpack _); vm_compute|done].
Qed.

(** C11: a directory block is a finite map from names to inodes, and the three
    operations on its bytes are the operations of the map.  In a well-formed block
    that stands for [m], looking a name up finds the entry with the map's inode
    number and type, or [ENOENT] exactly when the map has no such name; inserting a
    new name gives a well-formed, sealed block that stands for the map with the
    binding added, or [ENOSPC] and nothing; removing a name gives a well-formed,
    sealed block that stands for the map without it.  No operation reports
    corruption.  (Condition [dir_geom]: not 64 KiB blocks without checksums.) *)
Theorem dir_block_is_a_map (sb : list Z) (dir : dir_ref) (b : list Z) (m : gmap (list Z) (Z * Z))
    (name : list Z) (G : dir_geom sb) (H : dir_holds sb dir b m) :
  match m !! name with
  | Some (ino, type) =>
      exists pos b', ext4_dir_find_in_block sb name b = Ok pos /\
        ext4_dir_en_get_inode pos b = ino /\ ext4_dir_en_get_inode_type sb pos b = type /\
        dir_remove_in_block sb dir pos b = (Ok tt, b') /\ dir_holds sb dir b' (delete name m)
  | None =>
      ext4_dir_find_in_block sb name b = Err ENOENT /\
      forall child, entry_arg child name ->
        (exists b', ext4_dir_try_insert_entry sb dir child name b = Ok b' /\
           dir_holds sb dir b' (<[name := (ch_index child, d_type (new_dent sb child name 0))]> m)) \/
        ext4_dir_try_insert_entry sb dir child name b = Err ENOSPC
  end.
Proof.
  pose proof (lookup_map sb G dir b m name H) as HL. destruct (m !! name) as [[ino type]|] eqn:Hm.
  - destruct HL as (pos & Hf & Hi & Ht).
    destruct (remove_map sb G dir b m name _ H Hm) as (pos' & b' & Hf' & Hr & Hd).
    rewrite Hf in Hf'. simplify_eq. exists pos', b'. by split_and!.
  - split; [done|]. intros child A. by apply names_insert_map.
Qed.
Lemma dir_block_is_a_map_witness :
  exists b', ext4_dir_try_insert_entry dir_sb dir_sample (dir_child 14) name_b dir_block_a = Ok b' /\
    dir_holds dir_sb dir_sample b'
      (<[name_b := (14, EXT4_DE_REG_FILE)]> {[name_a := (13, EXT4_DE_REG_FILE)]}).
Proof.
  destruct (dir_block_is_a_map dir_sb dir_sample dir_block_a _ name_b dir_sb_geom dir_block_a_holds)
    as [_ H].
  destruct (H (dir_child 14) entry_arg_b) as [(b' & E & Hd)|E].
  - exists b'. split; [exact E|exact Hd].
  - exfalso. revert E. by vm_compute.
Defined.

(** C16: every block a directory goes through is well formed.  Condition [dir_geom]:
    the entries' area is smaller than 65536 bytes, which excludes 64 KiB blocks without
    checksums, where the length 65536 of a fresh block's only entry is stored as 0; and
    a volume with checksums has typed entries.  From a fresh block on, after any
    sequence of inserting names that are not there and removing names that are, the
    entries tile the block exactly up to its checksum tail, the
    checksum verifies, no name occurs twice, and so the block stands for a map. *)
Theorem dir_blocks_stay_well_formed (sb : list Z) (dir : dir_ref) (b : list Z)
    (G : dir_geom sb) (R : dir_reach sb dir b) :
  exists l, dir_block sb b l /\ ext4_dir_csum_verify sb dir b = true /\ NoDup (names l).
Proof.
  assert (H : exists m, dir_holds sb dir b m).
  { induction R as [child name b A Hb Hl|b child name b' _ [m H] A Hf Hi|b name pos b' _ [m H] Hf Hr].
    - eexists. by apply new_map.
    - pose proof (lookup_map sb G dir b m name H) as HL. destruct (m !! name) as [[ino type]|] eqn:Hm.
      { destruct HL as (pos & Hf' & _). by rewrite Hf in Hf'. }
      destruct (names_insert_map sb G dir b m child name H A Hm) as [(b2 & E & H2)|E]; rewrite Hi in E; [|done].
      injection E as <-. by eexists.
    - pose proof (lookup_map sb G dir b m name H) as HL. destruct (m !! name) as [v|] eqn:Hm; [|by rewrite Hf in HL].
      destruct (remove_map sb G dir b m name v H Hm) as (pos2 & b2 & Hf2 & Hr2 & H2).
      rewrite Hf in Hf2. injection Hf2 as <-. rewrite Hr in Hr2. injection Hr2 as <-. by eexists. }
  destruct H as (m & l & ? & ? & ? & _). by exists l.
Qed.
Lemma dir_blocks_stay_well_formed_witness :
  exists b' l, ext4_dir_try_insert_entry dir_sb dir_sample (dir_child 14) name_b dir_block_a = Ok b' /\
    dir_block dir_sb b' l /\ ext4_dir_csum_verify dir_sb dir_sample b' = true /\ NoDup (names l).
Proof.
  destruct (ext4_dir_try_insert_entry dir_sb dir_sample (dir_child 14) name_b dir_block_a) as [b'|rc] eqn:E.
  - destruct (dir_blocks_stay_well_formed dir_sb dir_sample b' dir_sb_geom) as (l & H).
    + apply (reach_insert _ _ dir_block_a (dir_child 14) name_b); [|exact entry_arg_b|by vm_compute|exact E].
      apply (reach_new _ _ (dir_child 13) name_a); [exact entry_arg_a| |by vm_compute].
      by apply (bool_decide_unpack _); vm_compute.
    + exists b', l. split; [done|exact H].
  - exfalso. revert E. by vm_compute.
Defined.

(** C29: inserting refuses a name only when there is no room for it.  In a
    well-formed block [ext4_dir_try_insert_entry] answers [ENOSPC] exactly when no
    entry is free (and not the checksum tail) with a length of [dent_room] of the
    name, and none in use has that much room beyond what it needs itself. *)
Theorem insert_refuses_only_when_full (sb : list Z) (dir : dir_ref) (b : list Z) (l : list dent)
    (child : child_ref) (name : list Z)
    (G : dir_geom sb) (B : dir_block sb b l) (A : entry_arg child name) :
  ext4_dir_try_insert_entry sb dir child name b = Err ENOSPC <->
  Forall (fun d => if d_live d
                   then d_len d < dent_room (blen (d_name d)) + dent_room (blen name)
                   else d_type d = EXT4_DIRENTRY_DIR_CSUM \/ d_len d < dent_room (blen name)) l.
Proof.
  assert (Heq : forall d, (takes (dent_room (blen name)) d = false /\ cuts (dent_room (blen name)) d = false) <->
    if d_live d then d_len d < dent_room (blen (d_name d)) + dent_room (blen name)
    else d_type d = EXT4_DIRENTRY_DIR_CSUM \/ d_len d < dent_room (blen name)).
  { intros d. unfold takes, cuts. destruct (d_live d); lia. }
  pose proof (insert_block sb G dir child name A b l B) as HI.
  destruct (insert_dent sb child name l) as [l'|] eqn:Hi; split.
  - destruct HI as (b' & -> & _). done.
  - intros HF. exfalso. clear HI B. revert l' Hi. induction HF as [|d l Hd HF IH]; intros l'; [done|].
    apply Heq in Hd as [H1 H2]. cbn [insert_dent]. rewrite H1, H2.
    destruct (insert_dent sb child name l) as [l2|]; [|done]. intros _. by apply (IH l2).
  - intros _. apply insert_dent_full in Hi. eapply Forall_impl; [exact Hi|]. intros d. apply Heq.
  - done.
Qed.
Lemma insert_refuses_only_when_full_witness :
  exists l, dir_block dir_sb dir_block_a l /\
    ~ Forall (fun d => if d_live d
                   then d_len d < dent_room (blen (d_name d)) + dent_room (blen name_b)
                   else d_type d = EXT4_DIRENTRY_DIR_CSUM \/ d_len d < dent_room (blen name_b)) l.
Proof.
  destruct dir_block_a_holds as (l & B & _). exists l. split; [exact B|]. intros HF.
  apply (insert_refuses_only_when_full dir_sb dir_sample dir_block_a l (dir_child 14) name_b
    dir_sb_geom B entry_arg_b) in HF.
  revert HF. by vm_compute.
Defined.

(** ** Any bytes whatsoever *)

Section Corrupt.
Context (sb : list Z).
Local Abbreviation bsize := (ext4_sb_get_block_size sb).

Lemma find_loop_fuel name b : forall fuel fuel' de,
  0 <= de <= bsize -> bsize - de < Z.of_nat fuel -> bsize - de < Z.of_nat fuel' ->
  find_in_block_loop fuel sb name b de = find_in_block_loop fuel' sb name b de.
Proof.
  induction fuel as [|fuel IH]; intros [|fuel'] de Hd Hf Hf'; try lia.
  cbn [find_in_block_loop]. change DE_HEADER with 8. repeat (case_match; [done|]). apply IH; lia.
Qed.

Lemma insert_loop_fuel dir child name rl b : forall fuel fuel' start,
  0 <= start <= bsize -> bsize - start < Z.of_nat fuel -> bsize - start < Z.of_nat fuel' ->
  try_insert_loop fuel sb dir child name rl start b = try_insert_loop fuel' sb dir child name rl start b.
Proof.
  induction fuel as [|fuel IH]; intros [|fuel'] start Hd Hf Hf'; try lia.
  cbn [try_insert_loop]. change DE_HEADER with 8. repeat (case_match; try done); apply IH; lia.
Qed.

Lemma entry_len_range de b : 0 <= ext4_dir_en_get_entry_len de b < 65536.
Proof. by apply (rd_range de_entry_len). Qed.

Lemma find_pred_fuel pos b : forall fuel fuel' off,
  0 <= off <= pos -> pos < 65536 * 65536 -> pos - off < Z.of_nat fuel -> pos - off < Z.of_nat fuel' ->
  find_pred_loop fuel pos off b = find_pred_loop fuel' pos off b /\
  (forall p, find_pred_loop fuel pos off b = Ok p -> 0 <= p <= pos).
Proof.
  induction fuel as [|fuel IH]; intros [|fuel'] off Ho Hp Hf Hf'; try lia.
  cbn [find_pred_loop]. pose proof (entry_len_range off b). destruct (Z.ltb_spec (off + ext4_dir_en_get_entry_len off b) pos).
  - destruct (Z.eqb_spec (ext4_dir_en_get_entry_len off b) 0); [done|]. rewrite u32_id by lia. apply IH; lia.
  - case_match; split; try done. intros p [= <-]. done.
Qed.

(** What a search finds, in any block. *)
Lemma find_loop_inside name b : forall fuel de p,
  0 <= de -> find_in_block_loop fuel sb name b de = Ok p ->
  de <= p /\ p + DE_HEADER + blen name <= bsize /\ ext4_dir_en_get_inode p b <> 0 /\
  ext4_dir_en_get_name_len sb p b = blen name /\ slice (p + DE_HEADER) (blen name) b = name.
Proof.
  induction fuel as [|fuel IH]; intros de p Hd; cbn [find_in_block_loop]; [done|]. change DE_HEADER with 8.
  repeat (case_match; try done).
  - intros [= <-]. pose proof (name_len_range sb de b).
    match goal with
    | H : _ && bool_decide _ = true |- _ => apply andb_prop in H as [Hle Hn%bool_decide_eq_true]
    end.
    assert (ext4_dir_en_get_name_len sb de b = blen name) as El by lia. rewrite El in *. split_and!; done || lia.
  - intros Hr. apply IH in Hr; [|lia]. destruct Hr as (? & Hr2). split; [lia|exact Hr2].
Qed.

(** Writing an entry of [el] bytes that holds the name stays inside them, whatever
    was there. *)
Lemma write_entry_frame child name en el b :
  bytes_ok b -> bytes_ok name -> 0 <= en -> 8 + blen name <= el -> en + el <= blen b ->
  let b' := ext4_dir_write_entry sb en el child name b in
  bytes_ok b' /\ blen b' = blen b /\ changed_in en (en + el) b b'.
Proof.
  intros Hb Hn He Hel Hin. cbv zeta. rewrite write_entry_split. pose proof (blen_nonneg name).
  destruct (de_head_frame sb child name en el b He Hb) as (Hok & Hl & Hch). split_and!.
  - by apply bytes_ok_memcpy_at.
  - rewrite blen_memcpy_at; lia.
  - intros j Hj Hd. rewrite byte_at_memcpy_at by lia.
    replace ((en + 8 <=? j) && (j <? en + 8 + blen name)) with false by lia. apply Hch; lia.
Qed.

Lemma set_csum_frame dir b :
  bytes_ok b ->
  bytes_ok (ext4_dir_set_csum sb dir b) /\ blen (ext4_dir_set_csum sb dir b) = blen b /\
  changed_in 0 bsize b (ext4_dir_set_csum sb dir b).
Proof.
  intros Hb. unfold ext4_dir_set_csum. case_match; [|by split_and!]. case_match eqn:Ht; [|by split_and!].
  apply tail_fields in Ht as [-> _]. pose proof (block_size_ge sb). split_and!.
  - by apply bytes_ok_wr.
  - apply blen_wr.
  - intros j Hj Hd. apply byte_at_set_le_ne; cbn; lia.
Qed.

Lemma insert_loop_inside dir child name b : forall fuel start b',
  bytes_ok b -> bytes_ok name -> blen name <= 255 -> 0 <= start -> bsize <= blen b ->
  try_insert_loop fuel sb dir child name (dent_room (blen name)) start b = Ok b' ->
  bytes_ok b' /\ blen b' = blen b /\ changed_in 0 bsize b b'.
Proof.
  induction fuel as [|fuel IH]; intros start b' Hb Hn Hnl Hs Hl; cbn [try_insert_loop]; [done|].
  pose proof (blen_nonneg name). pose proof (dent_room_le (blen name) ltac:(lia)) as [Hr _].
  pose proof (entry_len_range start b) as Hel. change DE_HEADER with 8.
  set (nl := ext4_dir_en_get_name_len sb start b). set (el := ext4_dir_en_get_entry_len start b) in *.
  pose proof (u16_range (8 + nl)) as Hu. 
  assert (Hsz : 0 <= de_used_len nl < 65536) by (unfold de_used_len; case_match; apply u16_range).
  repeat (case_match; try done).
  all: try (apply IH; done || lia).
  - intros [= <-]. destruct (write_entry_frame child name start el b) as (W1 & W2 & W3); [done|done|lia..|].
    destruct (set_csum_frame dir _ W1) as (C1 & C2 & C3). split_and!; [done|lia|].
    eapply changed_in_trans; [eapply changed_in_weaken; [exact W3|lia..]|exact C3].
  - intros [= <-]. rewrite u16_id in * by lia. set (sz := de_used_len nl) in *.
    assert (Hb1 : bytes_ok (ext4_dir_en_set_entry_len start sz b)) by by apply bytes_ok_wr.
    assert (Hl1 : blen (ext4_dir_en_set_entry_len start sz b) = blen b) by apply blen_wr.
    assert (Hc1 : changed_in start (start + 8) b (ext4_dir_en_set_entry_len start sz b)) by by apply changed_in_wr.
    destruct (write_entry_frame child name (start + sz) (el - sz) _ Hb1 Hn) as (W1 & W2 & W3); [lia..|].
    destruct (set_csum_frame dir _ W1) as (C1 & C2 & C3). split_and!; [done|lia|].
    eapply changed_in_trans; [eapply changed_in_weaken; [exact Hc1|lia..]|].
    eapply changed_in_trans; [eapply changed_in_weaken; [exact W3|lia..]|exact C3].
Qed.
End Corrupt.

(** C30: the walks over a directory block end, whatever the block holds.  No loop
    of the three operations needs more turns than the block has bytes: with any
    larger amount of fuel the search, the insertion and the walk for the
    predecessor of a removed entry give the same answer as with the fuel of the
    definitions, so the answer is never the one of an exhausted fuel. *)
Theorem dir_walks_end (sb : list Z) (dir : dir_ref) (child : child_ref) (name b : list Z) (pos : Z)
    (fuel : nat) (Hf : ext4_sb_get_block_size sb < Z.of_nat fuel) (Hp : 0 <= pos <= ext4_sb_get_block_size sb) :
  find_in_block_loop fuel sb name b 0 = ext4_dir_find_in_block sb name b /\
  try_insert_loop fuel sb dir child name (de_required_len (blen name)) 0 b =
    ext4_dir_try_insert_entry sb dir child name b /\
  find_pred_loop fuel pos 0 b = find_pred_loop (S (Z.to_nat pos)) pos 0 b.
Proof.
  assert (Hbs : ext4_sb_get_block_size sb <= 65536).
  { destruct (block_size_cases sb) as (k & Hk & ->). pose proof (Z.pow_le_mono_r 2 k 6). lia. }
  split_and!.
  - apply find_loop_fuel; lia.
  - apply insert_loop_fuel; lia.
  - apply find_pred_fuel; lia.
Qed.
Lemma dir_walks_end_witness :
  find_in_block_loop 5000 dir_sb name_a (replicate 1024 0) 0 = Err EIO /\
  try_insert_loop 5000 dir_sb dir_sample (dir_child 13) name_a 12 0 (replicate 1024 0) = Err EIO /\
  find_pred_loop 5000 100 0 (replicate 1024 0) = Err EIO.
Proof.
  destruct (dir_walks_end dir_sb dir_sample (dir_child 13) name_a (replicate 1024 0) 100 5000)
    as (E1 & E2 & E3); [by vm_compute|done|].
  split; [rewrite E1; by vm_compute|split; [|rewrite E3; by vm_compute]].
  change 12 with (de_required_len (blen name_a)). rewrite E2. by vm_compute.
Defined.

(** On a block of arbitrary bytes the operations stay inside it.  What a search
    returns is an entry in use whose header and name lie in the block and whose
    name is the one looked for; what an insertion returns differs from what it was
    given, in a buffer of any length that holds the block, only in bytes of the
    block. *)
Theorem dir_ops_stay_inside (sb : list Z) (dir : dir_ref) (child : child_ref) (name b : list Z)
    (Hb : bytes_ok b) (Hl : ext4_sb_get_block_size sb <= blen b)
    (Hn : bytes_ok name) (Hnl : blen name <= 255) :
  match ext4_dir_find_in_block sb name b with
  | Ok pos =>
      0 <= pos /\ pos + DE_HEADER + blen name <= ext4_sb_get_block_size sb /\
      ext4_dir_en_get_inode pos b <> 0 /\ slice (pos + DE_HEADER) (blen name) b = name
  | Err rc => rc = ENOENT \/ rc = EIO
  end /\
  match ext4_dir_try_insert_entry sb dir child name b with
  | Ok b' => bytes_ok b' /\ blen b' = blen b /\
      forall j, ext4_sb_get_block_size sb <= j -> byte_at b' j = byte_at b j
  | Err rc => rc = ENOSPC \/ rc = EIO
  end.
Proof.
  split.
  - destruct (ext4_dir_find_in_block sb name b) as [pos|rc] eqn:E.
    + apply find_loop_inside in E as (H1 & H2 & H3 & _ & H5); [by split_and!|lia].
    + revert E. unfold ext4_dir_find_in_block. generalize 0. induction (S _) as [|f IH]; intros de;
        cbn [find_in_block_loop]; [intros [= <-]; by left|].
      repeat (case_match; [intros [= <-]; auto|]). apply IH.
  - pose proof (block_size_ge sb). pose proof (blen_nonneg name).
    destruct (ext4_dir_try_insert_entry sb dir child name b) as [b'|rc] eqn:E;
      unfold ext4_dir_try_insert_entry in E; rewrite de_required_len_room in E by lia.
    + apply insert_loop_inside in E as (H1 & H2 & H3); try done; try lia.
      split_and!; try done. intros j Hj. apply H3; lia.
    + revert E. generalize 0. induction (S _) as [|f IH]; intros de;
        cbn [try_insert_loop]; [intros [= <-]; by left|].
      repeat (case_match; try apply IH; try (intros [= <-]; auto; fail)); intros [=]; auto.
Qed.
Lemma dir_ops_stay_inside_witness :
  exists b', ext4_dir_try_insert_entry dir_sb dir_sample (dir_child 14) name_b (dir_block_a ++ [7; 7; 7; 7]) = Ok b' /\
    blen b' = 1028 /\ byte_at b' 1024 = 7.
Proof.
  assert (Hb : bytes_ok (dir_block_a ++ [7; 7; 7; 7])) by (apply (bool_decide_unpack _); by vm_compute).
  assert (Hl : ext4_sb_get_block_size dir_sb <= blen (dir_block_a ++ [7; 7; 7; 7])) by by vm_compute.
  pose proof (dir_ops_stay_inside dir_sb dir_sample (dir_child 14) name_b _ Hb Hl
    (ea_name _ _ entry_arg_b) (ea_len _ _ entry_arg_b)) as [_ H].
  destruct (ext4_dir_try_insert_entry dir_sb dir_sample (dir_child 14) name_b _) as [b'|rc] eqn:E.
  - exists b'. destruct H as (_ & H2 & H3). split; [reflexivity|]. split; [rewrite H2; by vm_compute|].
    rewrite H3 by by vm_compute. by vm_compute.
  - exfalso. revert E. by vm_compute.
Defined.
