(* ===== verification/Device.v ===== *)
(** * The block device below the cache

    Core/lwext4/src/ext4_blockdev.c, the part that does not touch the block
    cache: opening and closing, whole-block transfers and the byte-granular
    [ext4_block_readbytes] and [ext4_block_writebytes].

    The device itself is not under src/: it is the set of callbacks of
    [struct ext4_blockdev_iface], given to the model as the class [Host] over a
    type [D] of device states.  [HostLaws] is their documented contract: a read
    returns what the medium holds, a write changes the blocks it names and, when
    it fails, no others. *)

From S2P Require Import Prelude Types.

Class Host (D : Type) := {
  h_open : M D unit;
  h_close : M D unit;
  h_flush : option (M D unit);
  h_bread : Z -> Z -> M D (list Z);           (* blk_id, blk_cnt *)
  h_bwrite : list Z -> Z -> Z -> M D unit;    (* data, blk_id, blk_cnt *)
  h_malloc : Z -> M D (list Z);               (* size; the contents are whatever they are *)
}.

(** The fields of [struct ext4_blockdev] and its interface that this layer uses.
    [ph_bbuf] is a scratch buffer: each use fills it first, so it is a local
    value of the operations below. *)
Record dev (D : Type) := mk_dev {
  d_host : D;
  d_ph_bsize : Z;
  d_ph_refctr : Z;
  d_bread_ctr : Z;
  d_bwrite_ctr : Z;
  d_part_offset : Z;
  d_part_size : Z;
  d_lg_bsize : Z;
  d_lg_bcnt : Z;
}.
Arguments mk_dev {D}. Arguments d_host {D}. Arguments d_ph_bsize {D}.
Arguments d_ph_refctr {D}. Arguments d_bread_ctr {D}. Arguments d_bwrite_ctr {D}.
Arguments d_part_offset {D}. Arguments d_part_size {D}. Arguments d_lg_bsize {D}.
Arguments d_lg_bcnt {D}.

Section Dev.
Context {D : Type} `{HD : Host D}.
Local Abbreviation dev := (dev D).
Implicit Types (d : dev).

Definition set_host (h : D) (d : dev) : dev :=
  mk_dev h (d_ph_bsize d) (d_ph_refctr d) (d_bread_ctr d) (d_bwrite_ctr d)
    (d_part_offset d) (d_part_size d) (d_lg_bsize d) (d_lg_bcnt d).
Definition set_refctr (r : Z) (d : dev) : dev :=
  mk_dev (d_host d) (d_ph_bsize d) r (d_bread_ctr d) (d_bwrite_ctr d)
    (d_part_offset d) (d_part_size d) (d_lg_bsize d) (d_lg_bcnt d).
Definition count_bread (d : dev) : dev :=
  mk_dev (d_host d) (d_ph_bsize d) (d_ph_refctr d) (u32 (d_bread_ctr d + 1)) (d_bwrite_ctr d)
    (d_part_offset d) (d_part_size d) (d_lg_bsize d) (d_lg_bcnt d).
Definition count_bwrite (d : dev) : dev :=
  mk_dev (d_host d) (d_ph_bsize d) (d_ph_refctr d) (d_bread_ctr d) (u32 (d_bwrite_ctr d + 1))
    (d_part_offset d) (d_part_size d) (d_lg_bsize d) (d_lg_bcnt d).

(** A call of a device callback. *)
Definition on_host {A} (m : M D A) : M dev A := fun d =>
  let '(r, h) := m (d_host d) in (r, set_host h d).

Definition ext4_bdif_bread (blk_id blk_cnt : Z) : M dev (list Z) :=
  r <- mtry (on_host (h_bread blk_id blk_cnt));;
  mmod count_bread;;;
  match r with Ok bs => mok bs | Err rc => mfail rc end.

Definition ext4_bdif_bwrite (bs : list Z) (blk_id blk_cnt : Z) : M dev unit :=
  r <- mtry (on_host (h_bwrite bs blk_id blk_cnt));;
  mmod count_bwrite;;;
  match r with Ok _ => mok tt | Err rc => mfail rc end.

Definition ext4_block_init : M dev unit :=
  refctr <- mget d_ph_refctr;;
  if negb (refctr =? 0) then mmod (set_refctr (u32 (refctr + 1)))
  else
    on_host h_open;;;
    mmod (set_refctr 1).

Definition ext4_block_fini : M dev unit :=
  refctr <- mget d_ph_refctr;;
  if refctr =? 0 then mok tt
  else
    let refctr := u32 (refctr - 1) in
    mmod (set_refctr refctr);;;
    if negb (refctr =? 0) then mok tt
    else on_host h_close.

Definition ext4_block_barrier : M dev unit :=
  match h_flush with None => mok tt | Some flush => on_host flush end.

Definition ext4_block_set_lb_size (lb_bsize : Z) (d : dev) : dev :=
  mk_dev (d_host d) (d_ph_bsize d) (d_ph_refctr d) (d_bread_ctr d) (d_bwrite_ctr d)
    (d_part_offset d) (d_part_size d) lb_bsize (d_part_size d / lb_bsize).

(** The physical block where logical block [lba] starts. *)
Definition lba_pba (d : dev) (lba : Z) : Z :=
  u64 (u64 (lba * d_lg_bsize d) + d_part_offset d) / d_ph_bsize d.

Definition ext4_blocks_get_direct (lba cnt : Z) : M dev (list Z) :=
  pba <- mget (fun d => lba_pba d lba);;
  pb_cnt <- mget (fun d => d_lg_bsize d / d_ph_bsize d);;
  ext4_bdif_bread pba (u32 (pb_cnt * cnt)).

Definition ext4_blocks_set_direct (bs : list Z) (lba cnt : Z) : M dev unit :=
  pba <- mget (fun d => lba_pba d lba);;
  pb_cnt <- mget (fun d => d_lg_bsize d / d_ph_bsize d);;
  ext4_bdif_bwrite bs pba (u32 (pb_cnt * cnt)).

(** The first block of a transfer that starts [unalg] bytes into it: what is
    left of the data, how much, and the block after. *)
Definition writebytes_head (unalg ph block_idx : Z) (p : list Z) (len : Z)
  : M dev (list Z * Z * Z) :=
  if negb (unalg =? 0) then
    let wlen := if len <? ph - unalg then len else ph - unalg in
    (bbuf <- ext4_bdif_bread block_idx 1;;
     ext4_bdif_bwrite (memcpy_at unalg (slice 0 wlen p) bbuf) block_idx 1);;;
    mok (drop (Z.to_nat wlen) p, len - wlen, u64 (block_idx + 1))
  else mok (p, len, block_idx).
(** The whole blocks. *)
Definition writebytes_body (ph block_idx : Z) (p : list Z) (len : Z)
  : M dev (list Z * Z * Z) :=
  let blks := len / ph in
  if negb (blks =? 0) then
    ext4_bdif_bwrite (slice 0 (ph * blks) p) block_idx blks;;;
    mok (drop (Z.to_nat (ph * blks)) p, len - ph * blks, u64 (block_idx + blks))
  else mok (p, len, block_idx).

Definition ext4_block_writebytes (off : Z) (p : list Z) : M dev unit :=
  let len := blen p in
  refctr <- mget d_ph_refctr;;
  if refctr =? 0 then mfail EIO else
  part_size <- mget d_part_size;;
  if part_size <? u64 (off + len) then mfail EINVAL else
  ph <- mget d_ph_bsize;;
  part_offset <- mget d_part_offset;;
  let block_idx := u64 (off + part_offset) / ph in
  let unalg := u32 (Z.land off (u32 (ph - 1))) in
  let* (p, len, block_idx) := writebytes_head unalg ph block_idx p len in
  let* (p, len, block_idx) := writebytes_body ph block_idx p len in
  if negb (len =? 0) then
    bbuf <- ext4_bdif_bread block_idx 1;;
    ext4_bdif_bwrite (memcpy_at 0 p bbuf) block_idx 1
  else mok tt.

(** The same two steps of a read: the bytes copied so far, what is left, and
    the next block. *)
Definition readbytes_head (unalg ph block_idx len : Z) : M dev (list Z * Z * Z) :=
  if negb (unalg =? 0) then
    let rlen := if len <? ph - unalg then len else ph - unalg in
    bbuf <- ext4_bdif_bread block_idx 1;;
    mok (slice unalg rlen bbuf, len - rlen, u64 (block_idx + 1))
  else mok ([], len, block_idx).
Definition readbytes_body (ph block_idx : Z) (p : list Z) (len : Z) : M dev (list Z * Z * Z) :=
  let blks := len / ph in
  if negb (blks =? 0) then
    bs <- ext4_bdif_bread block_idx blks;;
    mok (p ++ bs, len - ph * blks, u64 (block_idx + blks))
  else mok (p, len, block_idx).

(** The bytes copied to the caller's buffer. *)
Definition ext4_block_readbytes (off len : Z) : M dev (list Z) :=
  refctr <- mget d_ph_refctr;;
  if refctr =? 0 then mfail EIO else
  part_size <- mget d_part_size;;
  if part_size <? u64 (off + len) then mfail EINVAL else
  ph <- mget d_ph_bsize;;
  part_offset <- mget d_part_offset;;
  let block_idx := u64 (off + part_offset) / ph in
  let unalg := u32 (Z.land off (u32 (ph - 1))) in
  let* (p, len, block_idx) := readbytes_head unalg ph block_idx len in
  let* (p, len, block_idx) := readbytes_body ph block_idx p len in
  if negb (len =? 0) then
    bbuf <- ext4_bdif_bread block_idx 1;;
    mok (p ++ slice 0 len bbuf)
  else mok p.
End Dev.

(** ** The contract of the callbacks *)

(** The [n] bytes at [off] of a medium. *)
Definition medium (f : Z -> Z) (off n : Z) : list Z :=
  map (fun i => f (off + Z.of_nat i)) (seq 0 (Z.to_nat n)).

Class HostLaws (D : Type) `{Host D} (ph : Z) := {
  h_byte : D -> Z -> Z;
  h_byte_range d x : 0 <= h_byte d x < 256;
  h_bread_spec blk n d :
    let '(r, d') := h_bread blk n d in
    (forall x, h_byte d' x = h_byte d x) /\
    match r with
    | Ok bs => bs = medium (h_byte d) (blk * ph) (n * ph)
    | Err rc => rc <> EOK
    end;
  h_bwrite_spec bs blk n d :
    blen bs = n * ph ->
    let '(r, d') := h_bwrite bs blk n d in
    (forall x, x < blk * ph \/ (blk + n) * ph <= x -> h_byte d' x = h_byte d x) /\
    match r with
    | Ok _ => forall x, blk * ph <= x < (blk + n) * ph -> h_byte d' x = byte_at bs (x - blk * ph)
    | Err rc => rc <> EOK
    end;
  h_malloc_spec n d :
    0 <= n ->
    let '(r, d') := h_malloc n d in
    (forall x, h_byte d' x = h_byte d x) /\
    match r with Ok bs => blen bs = n /\ bytes_ok bs | Err rc => rc <> EOK end;
}.

(** ** Lemmas *)

Lemma blen_medium f off n : 0 <= n -> blen (medium f off n) = n.
Proof. intros. unfold blen, medium. rewrite length_map, length_seq. lia. Qed.

Lemma byte_at_medium f off n i :
  (forall x, 0 <= f x < 256) -> 0 <= i < n -> byte_at (medium f off n) i = f (off + i).
Proof.
  intros Hf Hi. unfold byte_at, medium.
  rewrite nth_lookup, list_lookup_fmap, lookup_seq_lt by lia. cbn.
  rewrite u8_id by apply Hf. f_equal. lia.
Qed.

Lemma bytes_ok_medium f off n : (forall x, 0 <= f x < 256) -> bytes_ok (medium f off n).
Proof. intros Hf. apply Forall_forall. intros z (i & -> & _)%list_elem_of_fmap. apply Hf. Qed.

Lemma medium_ext f g off n :
  (forall x, off <= x < off + n -> f x = g x) -> medium f off n = medium g off n.
Proof.
  intros H. apply map_ext_in. intros i Hi%in_seq. apply H. lia.
Qed.

Lemma lookup_medium f off n i :
  medium f off n !! i = if (i <? Z.to_nat n)%nat then Some (f (off + Z.of_nat i)) else None.
Proof.
  unfold medium. rewrite list_lookup_fmap. destruct (Nat.ltb_spec i (Z.to_nat n)).
  - by rewrite lookup_seq_lt by lia.
  - by rewrite lookup_seq_ge by lia.
Qed.

Lemma slice_medium f off n a m :
  0 <= a -> 0 <= m -> a + m <= n -> slice a m (medium f off n) = medium f (off + a) m.
Proof.
  intros Ha Hm Hn. apply list_eq. intros i. unfold slice. rewrite lookup_medium.
  destruct (Nat.ltb_spec i (Z.to_nat m)).
  - rewrite lookup_take_lt, lookup_drop, lookup_medium by lia.
    destruct (Nat.ltb_spec (Z.to_nat a + i) (Z.to_nat n)); [|lia]. do 2 f_equal. lia.
  - by rewrite lookup_take_ge by lia.
Qed.

Lemma medium_app f off n m :
  0 <= n -> 0 <= m -> medium f off n ++ medium f (off + n) m = medium f off (n + m).
Proof.
  intros Hn Hm. apply list_eq. intros i.
  pose proof (blen_medium f off n Hn) as Hl. unfold blen in Hl.
  destruct (Nat.ltb_spec i (Z.to_nat n)).
  - rewrite lookup_app_l, !lookup_medium by lia.
    destruct (Nat.ltb_spec i (Z.to_nat n)), (Nat.ltb_spec i (Z.to_nat (n + m))); done || lia.
  - rewrite lookup_app_r, !lookup_medium by lia.
    destruct (Nat.ltb_spec (i - length (medium f off n)) (Z.to_nat m)),
      (Nat.ltb_spec i (Z.to_nat (n + m))); try done; try lia. do 2 f_equal. lia.
Qed.

(** The medium before and after a write of [p] at [off], and after a transfer
    that may have failed half way in [lo, hi). *)
Definition patched (f f' : Z -> Z) (off : Z) (p : list Z) : Prop :=
  forall x, f' x = if (off <=? x) && (x <? off + blen p) then byte_at p (x - off) else f x.
Definition torn (f f' : Z -> Z) (lo hi : Z) : Prop :=
  forall x, x < lo \/ hi <= x -> f' x = f x.

Lemma patched_app f f1 f2 off p q :
  patched f f1 off p -> patched f1 f2 (off + blen p) q -> patched f f2 off (p ++ q).
Proof.
  intros H1 H2 x. rewrite H2, H1, blen_app. pose proof (blen_nonneg p). pose proof (blen_nonneg q).
  destruct ((off + blen p <=? x) && (x <? off + blen p + blen q)) eqn:E1.
  - replace ((off <=? x) && (x <? off + (blen p + blen q))) with true by lia.
    rewrite byte_at_app_r by lia. f_equal. lia.
  - destruct ((off <=? x) && (x <? off + blen p)) eqn:E2.
    + replace ((off <=? x) && (x <? off + (blen p + blen q))) with true by lia.
      by rewrite byte_at_app_l by lia.
    + by replace ((off <=? x) && (x <? off + (blen p + blen q))) with false by lia.
Qed.

Lemma patched_nil f off p : blen p = 0 -> patched f f off p.
Proof. intros E x. rewrite E. by replace ((off <=? x) && (x <? off + 0)) with false by lia. Qed.

Lemma torn_trans f f1 f2 lo hi lo' hi' a b :
  torn f f1 lo hi -> torn f1 f2 lo' hi' -> a <= lo -> hi <= b -> a <= lo' -> hi' <= b ->
  torn f f2 a b.
Proof. intros H1 H2 ???? x Hx. rewrite H2, H1; lia. Qed.
Lemma torn_refl f lo hi : torn f f lo hi.
Proof. done. Qed.
Lemma patched_torn f f' off p : patched f f' off p -> torn f f' off (off + blen p).
Proof. intros H x Hx. rewrite H. by replace ((off <=? x) && (x <? off + blen p)) with false by lia. Qed.

Lemma div_le x y : 0 <= x -> 0 < y -> 0 <= x / y <= x.
Proof.
  intros Hx Hy. split; [apply Z.div_pos; lia|]. apply Z.div_le_upper_bound; nia.
Qed.

Section DevLaws.
Context {D : Type} {HD : Host D} {ph : Z} {HL : HostLaws D ph}.
Implicit Types (d : dev D).

(** What the medium holds under a device, absolutely and from the start of the
    partition; the configuration, which no transfer changes. *)
Definition dbyte (d : dev D) (x : Z) : Z := h_byte (d_host d) x.
Definition dcfg (d : dev D) : Z * Z * Z * Z * Z * Z :=
  (d_ph_bsize d, d_ph_refctr d, d_part_offset d, d_part_size d, d_lg_bsize d, d_lg_bcnt d).

(** A device that is open, with a power-of-two physical block, a partition that
    starts on a physical block and a size that keeps byte addresses in 64 bits. *)
Definition dev_ok (d : dev D) : Prop :=
  d_ph_bsize d = ph /\ (exists k, 0 <= k <= 31 /\ ph = 2 ^ k) /\
  0 < d_ph_refctr d /\ 0 <= d_part_offset d /\ d_part_offset d mod ph = 0 /\
  0 <= d_part_size d /\ d_part_offset d + d_part_size d + ph < 2 ^ 64.

Lemma dev_ok_cfg d d' : dcfg d' = dcfg d -> dev_ok d -> dev_ok d'.
Proof. unfold dcfg, dev_ok. intros E. injection E as -> -> -> -> _ _. done. Qed.

Lemma bread_wp blk n d :
  wp (ext4_bdif_bread blk n) d (fun r d' =>
    dcfg d' = dcfg d /\ (forall x, dbyte d' x = dbyte d x) /\
    match r with
    | Ok bs => bs = medium (dbyte d) (blk * ph) (n * ph)
    | Err rc => rc <> EOK
    end).
Proof.
  unfold ext4_bdif_bread. wp_step. wp_step. unfold wp, on_host.
  pose proof (h_bread_spec blk n (d_host d)) as Hs. destruct (h_bread blk n (d_host d)) as [r h].
  destruct Hs as [Hx Hr]. by destruct r as [bs|rc].
Qed.

Lemma bwrite_wp bs blk n d :
  blen bs = n * ph ->
  wp (ext4_bdif_bwrite bs blk n) d (fun r d' =>
    dcfg d' = dcfg d /\ torn (dbyte d) (dbyte d') (blk * ph) ((blk + n) * ph) /\
    match r with
    | Ok _ => patched (dbyte d) (dbyte d') (blk * ph) bs
    | Err rc => rc <> EOK
    end).
Proof.
  intros Hl. unfold ext4_bdif_bwrite. wp_step. wp_step. unfold wp, on_host.
  pose proof (h_bwrite_spec bs blk n (d_host d) Hl) as Hs.
  destruct (h_bwrite bs blk n (d_host d)) as [r h]. destruct Hs as [Hx Hr].
  destruct r as [[]|rc]; cbn; split_and!; try done.
  intros x. rewrite Hl. replace (blk * ph + n * ph) with ((blk + n) * ph) by lia.
  destruct ((blk * ph <=? x) && (x <? (blk + n) * ph)) eqn:E; [apply Hr|apply Hx]; lia.
Qed.

(** Read a block, overwrite [src] at [o] in it, write it back. *)
Lemma rmw_wp blk o src d :
  0 <= ph -> 0 <= o -> o + blen src <= ph ->
  wp (bbuf <- ext4_bdif_bread blk 1;; ext4_bdif_bwrite (memcpy_at o src bbuf) blk 1) d
    (fun r d' =>
       dcfg d' = dcfg d /\ torn (dbyte d) (dbyte d') (blk * ph) ((blk + 1) * ph) /\
       match r with
       | Ok _ => patched (dbyte d) (dbyte d') (blk * ph + o) src
       | Err rc => rc <> EOK
       end).
Proof.
  intros Hph Ho Hs. wp_call bread_wp. intros r d1 (C1 & B1 & R1).
  destruct r as [bbuf|rc]; [|by split_and!; [|intros x _; apply B1|]].
  assert (Hb : blen bbuf = 1 * ph) by (subst bbuf; apply blen_medium; lia).
  wp_call bwrite_wp; [rewrite blen_memcpy_at; lia|].
  intros r2 d2 (C2 & T2 & R2). split_and!; [congruence|intros x Hx; by rewrite T2, B1|].
  destruct r2 as [[]|]; [|done]. intros x. rewrite R2, B1.
  rewrite blen_memcpy_at by lia.
  destruct ((blk * ph <=? x) && (x <? blk * ph + blen bbuf)) eqn:E.
  - rewrite byte_at_memcpy_at by lia. pose proof (blen_nonneg src).
    replace ((o <=? x - blk * ph) && (x - blk * ph <? o + blen src)) with
      ((blk * ph + o <=? x) && (x <? blk * ph + o + blen src)) by lia.
    case_match; [f_equal; lia|].
    subst bbuf. rewrite byte_at_medium by (apply h_byte_range || lia). f_equal. lia.
  - pose proof (blen_nonneg src).
    by replace ((blk * ph + o <=? x) && (x <? blk * ph + o + blen src)) with false by lia.
Qed.

Lemma unalg_mod off k :
  0 <= k <= 31 -> 0 <= off -> u32 (Z.land off (u32 (2 ^ k - 1))) = off mod 2 ^ k.
Proof.
  intros Hk Ho. pose proof (Z.pow_le_mono_r 2 k 31 ltac:(lia) ltac:(lia)).
  pose proof (Z.pow_pos_nonneg 2 k ltac:(lia) ltac:(lia)).
  rewrite (u32_id (2 ^ k - 1)) by lia. rewrite Z.sub_1_r, <- Z.ones_equiv, Z.land_ones by lia.
  apply u32_id. pose proof (Z.mod_pos_bound off (2 ^ k)). lia.
Qed.

(** The offset into a physical block is that of the absolute address, since the
    partition starts on a physical block. *)
Lemma start_unalg po off k :
  0 <= k <= 31 -> 0 <= off -> ph = 2 ^ k -> po mod ph = 0 ->
  (po + off) mod ph = u32 (Z.land off (u32 (ph - 1))).
Proof.
  intros Hk Hoff Ek Hm. rewrite Ek at 2. rewrite unalg_mod by lia. rewrite <- Ek.
  assert (0 < ph) by (rewrite Ek; lia).
  by rewrite Z.add_mod, Hm, Z.add_0_l, Z.mod_mod by lia.
Qed.

(** A transfer of [len] bytes that starts at byte [a] of the medium, with
    [rest] of them to go from block [idx]. *)
Definition progress (a len rest idx : Z) : Prop :=
  0 <= rest <= len /\ (rest <> 0 -> idx * ph = a + (len - rest)).
Definition addr_ok (a len : Z) : Prop := 0 <= a /\ 0 <= len < 2 ^ 32 /\ a + len + ph < 2 ^ 64.

(** [m] leaves the medium alone and ends in [Q] or with an error. *)
Definition reads {A} (d : dev D) (Q : A -> Prop) (r : result A) (d' : dev D) : Prop :=
  dcfg d' = dcfg d /\ (forall x, dbyte d' x = dbyte d x) /\
  match r with Ok a => Q a | Err rc => rc <> EOK end.

Lemma reads_bind {A B} (m : M (dev D) A) (k : A -> M (dev D) B) d (P : A -> Prop) Q :
  wp m d (reads d P) ->
  (forall a d1, dcfg d1 = dcfg d -> (forall x, dbyte d1 x = dbyte d x) -> P a ->
                wp (k a) d1 (reads d1 Q)) ->
  wp (mbnd m k) d (reads d Q).
Proof.
  intros Hm Hk. apply wp_bind. eapply wp_mono; [exact Hm|]. intros r d1 (C1 & B1 & R1).
  destruct r as [a|rc]; [|by split_and!].
  eapply wp_mono; [by apply (Hk a)|]. intros r d2 (C2 & B2 & R2).
  split_and!; [congruence| |done]. intros. by rewrite B2.
Qed.

Lemma readbytes_head_wp d a len :
  0 < ph -> addr_ok a len ->
  wp (readbytes_head (a mod ph) ph (a / ph) len) d (reads d (fun '(p, rest, idx) =>
    p = medium (dbyte d) a (len - rest) /\ progress a len rest idx)).
Proof.
  intros Hph (Ha & Hlen & Hmax). unfold readbytes_head.
  destruct (Z.eqb_spec (a mod ph) 0) as [E|E]; cbn [negb].
  { wp_step. split_and!; try done. { by rewrite Z.sub_diag. } split; [lia|]. intros. dlia. }
  wp_call bread_wp. intros r d1 (C & B & R). destruct r as [bbuf|]; [|by split_and!].
  set (rlen := if len <? ph - a mod ph then len else ph - a mod ph).
  assert (Hrl : 0 <= rlen <= len /\ a mod ph + rlen <= ph /\
                (rlen <> len -> a mod ph + rlen = ph)).
  { unfold rlen. pose proof (Z.mod_pos_bound a ph Hph). case_match; lia. }
  wp_step. split_and!; [done..| |].
  - replace (len - (len - rlen)) with rlen by lia. subst bbuf.
    pose proof (Z.mod_pos_bound a ph Hph). rewrite slice_medium by lia. f_equal. dlia.
  - split; [lia|]. intros. pose proof (div_le a ph Ha Hph). rewrite u64_id by lia. dlia.
Qed.

Lemma readbytes_body_wp d a len p rest idx :
  0 < ph -> addr_ok a len -> progress a len rest idx -> p = medium (dbyte d) a (len - rest) ->
  wp (readbytes_body ph idx p rest) d (reads d (fun '(p, rest, idx) =>
    p = medium (dbyte d) a (len - rest) /\ progress a len rest idx /\ rest < ph)).
Proof.
  intros Hph (Ha & Hlen & Hmax) (Hl & Hi) Hp. unfold readbytes_body.
  destruct (Z.eqb_spec (rest / ph) 0) as [E|E]; cbn [negb].
  { wp_step. split_and!; try done. dlia. }
  wp_call bread_wp. intros r d2 (C2 & B2 & R2). destruct r as [bs|]; [|by split_and!].
  assert (Hr : rest <> 0) by (intros E0; apply E; rewrite E0; apply Z.div_0_l; lia).
  specialize (Hi Hr).
  pose proof (div_le rest ph ltac:(lia) Hph). assert (0 <= rest / ph * ph) by nia.
  wp_step. split_and!; [done..| |split|dlia].
  - subst. rewrite Hi, medium_app by dlia. f_equal. dlia.
  - dlia.
  - intros. assert (0 <= idx <= idx * ph) by nia. rewrite u64_id by dlia. dlia.
Qed.

Lemma readbytes_wp d off len :
  dev_ok d -> 0 <= off -> 0 <= len < 2 ^ 32 -> off + len <= d_part_size d ->
  wp (ext4_block_readbytes off len) d
    (reads d (fun bs => bs = medium (dbyte d) (d_part_offset d + off) len)).
Proof.
  intros (Ep & (k & Hk & Ek) & Hr & Ho & Hm & Hs & Hmax) Hoff Hlen Hin.
  assert (Hph : 0 < ph) by (rewrite Ek; lia).
  unfold ext4_block_readbytes. wp_step. wp_step.
  replace (d_ph_refctr d =? 0) with false by lia. wp_step. wp_step.
  rewrite u64_id by lia. replace (d_part_size d <? off + len) with false by lia.
  wp_step. wp_step. wp_step. wp_step. rewrite Ep, (u64_id (off + d_part_offset d)) by lia.
  set (a := d_part_offset d + off) in *. replace (off + d_part_offset d) with a by lia.
  replace (u32 (Z.land off (u32 (ph - 1)))) with (a mod ph) by (apply (start_unalg _ _ k); done).
  assert (Hok : addr_ok a len) by (unfold addr_ok; lia).
  eapply reads_bind; [by apply readbytes_head_wp|].
  intros [[p rest] idx] d1 _ B1 [Hp Hpr].
  eapply reads_bind.
  { apply (readbytes_body_wp d1 a len p rest idx); try done.
    subst. by apply medium_ext; intros; rewrite B1. }
  intros [[p' rest'] idx'] d2 _ B2 (Hp' & [Hl Hi] & Hlt).
  rewrite (medium_ext _ (dbyte d2)) in Hp' by (intros; by rewrite B2).
  rewrite (medium_ext _ (dbyte d2)) by (intros; by rewrite B2, B1).
  destruct (Z.eqb_spec rest' 0) as [E|E]; cbn [negb].
  { wp_step. split_and!; [done..|]. rewrite Hp'. f_equal. lia. }
  wp_call bread_wp. intros r d3 (C3 & B3 & R3). destruct r as [bbuf|]; [|by split_and!].
  wp_step. split_and!; [done..|]. subst bbuf. rewrite slice_medium by lia.
  rewrite Hp', Z.add_0_r, Hi, medium_app by lia. f_equal. lia.
Qed.

(** The physical blocks that the [len] bytes at [a] touch. *)
Definition blk_lo (a : Z) : Z := a / ph * ph.
Definition blk_hi (a len : Z) : Z := (a + len + ph - 1) / ph * ph.

(** A step of a write that stores [q] at [off] and stays inside the blocks [lo, hi). *)
Definition writes {A} (lo hi off : Z) (d : dev D) (Q : list Z -> A -> Prop)
    (r : result A) (d' : dev D) : Prop :=
  dcfg d' = dcfg d /\ torn (dbyte d) (dbyte d') lo hi /\
  match r with
  | Ok x => exists q, patched (dbyte d) (dbyte d') off q /\ Q q x
  | Err rc => rc <> EOK
  end.

Lemma writes_nothing {A} lo hi off d Q (x : A) : Q [] x -> writes lo hi off d Q (Ok x) d.
Proof. intros HQ. split_and!; try done. exists []. split; [by apply patched_nil|done]. Qed.

Lemma writes_bind {A B} lo hi off (m : M (dev D) A) (k : A -> M (dev D) B) d P Q :
  wp m d (writes lo hi off d P) ->
  (forall q x d1, dcfg d1 = dcfg d -> P q x ->
     wp (k x) d1 (writes lo hi (off + blen q) d1 (fun q' y => Q (q ++ q') y))) ->
  wp (mbnd m k) d (writes lo hi off d Q).
Proof.
  intros Hm Hk. apply wp_bind. eapply wp_mono; [exact Hm|]. intros r d1 (C1 & T1 & R1).
  destruct r as [x|rc]; [|by split_and!]. destruct R1 as (q & P1 & HP).
  eapply wp_mono; [by apply (Hk q x d1)|]. intros r d2 (C2 & T2 & R2).
  split_and!; [congruence|by eapply torn_trans|]. destruct r as [y|]; [|done].
  destruct R2 as (q' & P2 & HQ). exists (q ++ q'). split; [by eapply patched_app|done].
Qed.

(** What is left after a step of the write of [p] at [a]. *)
Definition left_over (a : Z) (p : list Z) (total : Z) (q : list Z) (x : list Z * Z * Z) : Prop :=
  let '(p', rest, idx) := x in p = q ++ p' /\ blen p' = rest /\ progress a total rest idx.

Lemma blk_bounds a len :
  0 < ph -> 0 <= len -> blk_lo a <= a < blk_lo a + ph /\
  a + len <= blk_hi a len < a + len + ph /\
  (forall i, a < i * ph + ph -> blk_lo a <= i * ph) /\
  (forall i, i * ph < a + len -> (i + 1) * ph <= blk_hi a len).
Proof.
  intros Hph Hl. unfold blk_lo, blk_hi.
  pose proof (Z.div_mod a ph ltac:(lia)). pose proof (Z.mod_pos_bound a ph Hph).
  pose proof (Z.div_mod (a + len + ph - 1) ph ltac:(lia)).
  pose proof (Z.mod_pos_bound (a + len + ph - 1) ph Hph).
  split_and!; try lia; intros i Hi; apply Z.mul_le_mono_nonneg_r; try lia.
  - apply Z.lt_succ_r. apply (Z.mul_lt_mono_pos_r ph); lia.
  - apply Z.lt_succ_r. apply (Z.mul_lt_mono_pos_r ph); lia.
Qed.

Lemma writebytes_head_wp d a p :
  0 < ph -> addr_ok a (blen p) ->
  wp (writebytes_head (a mod ph) ph (a / ph) p (blen p)) d
    (writes (blk_lo a) (blk_hi a (blen p)) a d (left_over a p (blen p))).
Proof.
  intros Hph (Ha & Hlen & Hmax). unfold writebytes_head.
  destruct (Z.eqb_spec (a mod ph) 0) as [E|E]; cbn [negb].
  { wp_step. apply writes_nothing. split_and!; try done. split; [lia|]. intros. dlia. }
  set (wlen := if blen p <? ph - a mod ph then blen p else ph - a mod ph).
  assert (Hrl : 0 <= wlen <= blen p /\ a mod ph + wlen <= ph /\
                (wlen <> blen p -> a mod ph + wlen = ph)).
  { unfold wlen. pose proof (Z.mod_pos_bound a ph Hph). case_match; lia. }
  pose proof (Z.mod_pos_bound a ph Hph). pose proof (Z.div_mod a ph ltac:(lia)).
  destruct (blk_bounds a (blen p) Hph ltac:(lia)) as (L1 & L2 & _ & L4).
  apply wp_bind. eapply wp_mono; [apply rmw_wp; rewrite ?blen_slice; lia|].
  intros r d1 (C & T & R).
  assert (T' : torn (dbyte d) (dbyte d1) (blk_lo a) (blk_hi a (blen p))).
  { intros x Hx. apply T. specialize (L4 (a / ph)). unfold blk_lo in *. lia. }
  destruct r as [[]|]; [|by split_and!]. wp_step. split_and!; [done..|].
  exists (slice 0 wlen p). split.
  - by replace (a / ph * ph + a mod ph) with a in R by lia.
  - split_and!; [by rewrite slice_drop| |split; [lia|]].
    + by rewrite blen_drop by lia.
    + intros. pose proof (div_le a ph Ha Hph). rewrite u64_id by lia. dlia.
Qed.

Lemma writebytes_body_wp d a total p rest idx :
  0 < ph -> addr_ok a total -> blen p = rest -> progress a total rest idx ->
  wp (writebytes_body ph idx p rest) d
    (writes (blk_lo a) (blk_hi a total) (a + (total - rest)) d (fun q x =>
       left_over a p total q x /\ x.1.2 < ph)).
Proof.
  intros Hph (Ha & Hlen & Hmax) Hp (Hl & Hi). unfold writebytes_body.
  destruct (Z.eqb_spec (rest / ph) 0) as [E|E]; cbn [negb].
  { wp_step. apply writes_nothing. split_and!; try done. cbn. dlia. }
  assert (Hr : rest <> 0) by (intros E0; apply E; rewrite E0; apply Z.div_0_l; lia).
  specialize (Hi Hr). pose proof (div_le rest ph ltac:(lia) Hph).
  pose proof (Z.div_mod rest ph ltac:(lia)). pose proof (Z.mod_pos_bound rest ph Hph).
  destruct (blk_bounds a total Hph ltac:(lia)) as (L1 & L2 & L3 & L4).
  wp_call bwrite_wp; [rewrite blen_slice; lia|]. intros r d1 (C & T & R).
  assert (T' : torn (dbyte d) (dbyte d1) (blk_lo a) (blk_hi a total)).
  { intros x Hx. apply T. specialize (L3 idx ltac:(lia)). lia. }
  destruct r as [[]|]; [|by split_and!]. wp_step. split_and!; [done..|].
  exists (slice 0 (ph * (rest / ph)) p). split; [by rewrite <- Hi|].
  split; [split_and!; [by rewrite slice_drop|by rewrite blen_drop; lia|split; [lia|]]|cbn; lia].
  intros. assert (0 <= idx <= idx * ph) by nia. rewrite u64_id by lia. lia.
Qed.

Lemma writebytes_wp d off p :
  dev_ok d -> 0 <= off -> blen p < 2 ^ 32 -> off + blen p <= d_part_size d ->
  let a := d_part_offset d + off in
  wp (ext4_block_writebytes off p) d
    (writes (blk_lo a) (blk_hi a (blen p)) a d (fun q _ => q = p)).
Proof.
  intros (Ep & (k & Hk & Ek) & Hr & Ho & Hm & Hs & Hmax) Hoff Hlen Hin a.
  assert (Hph : 0 < ph) by (rewrite Ek; lia). pose proof (blen_nonneg p).
  unfold ext4_block_writebytes. wp_step. wp_step.
  replace (d_ph_refctr d =? 0) with false by lia. wp_step. wp_step.
  rewrite u64_id by lia. replace (d_part_size d <? off + blen p) with false by lia.
  wp_step. wp_step. wp_step. wp_step. rewrite Ep, (u64_id (off + d_part_offset d)) by lia.
  replace (off + d_part_offset d) with a by (unfold a; lia).
  replace (u32 (Z.land off (u32 (ph - 1)))) with (a mod ph) by (apply (start_unalg _ _ k); done).
  assert (Hok : addr_ok a (blen p)) by (unfold addr_ok, a; lia).
  eapply writes_bind; [by apply writebytes_head_wp|].
  intros q [[p1 rest] idx] d1 C1 (Eq & Hq & Hl & Hi).
  assert (Hlq : blen q = blen p - rest) by (rewrite Eq, blen_app; lia).
  rewrite Hlq. eapply writes_bind; [by apply writebytes_body_wp|].
  intros q' [[p2 rest'] idx'] d2 C2 [(Eq' & Hq' & Hl' & Hi') Hlt]. cbn in Hlt.
  assert (Hlq' : blen q' = rest - rest') by (rewrite <- Hq, Eq', blen_app; lia).
  destruct (Z.eqb_spec rest' 0) as [E|E]; cbn [negb].
  { wp_step. apply writes_nothing. assert (p2 = []) as ->.
    { apply nil_length_inv. unfold blen in Hq'. lia. }
    by rewrite Eq, Eq', !app_nil_r. }
  specialize (Hi' E). destruct (blk_bounds a (blen p) Hph ltac:(lia)) as (L1 & L2 & L3 & L4).
  eapply wp_mono; [apply rmw_wp; lia|]. intros r d3 (C3 & T3 & R3).
  split_and!; [done| |].
  - intros x Hx. apply T3. specialize (L3 idx'). specialize (L4 idx'). lia.
  - destruct r as [[]|]; [|done]. exists p2.
    replace (a + (blen p - rest) + blen q') with (idx' * ph + 0) by lia.
    split; [done|]. by rewrite Eq, Eq'.
Qed.

(** ** Whole logical blocks *)

(** Logical blocks are whole physical blocks and lie inside the partition. *)
Definition geom_ok (d : dev D) : Prop :=
  0 < d_lg_bsize d < 2 ^ 32 /\ d_lg_bsize d mod ph = 0 /\ 0 <= d_lg_bcnt d /\
  d_lg_bcnt d * d_lg_bsize d <= d_part_size d.

(** What the medium holds of logical block [a]. *)
Definition dblk (d : dev D) (a : Z) : list Z :=
  medium (dbyte d) (d_part_offset d + a * d_lg_bsize d) (d_lg_bsize d).

Lemma geom_ok_cfg d d' : dcfg d' = dcfg d -> geom_ok d -> geom_ok d'.
Proof. unfold dcfg, geom_ok. intros E. injection E as _ _ _ -> -> ->. done. Qed.

Lemma dblk_ext d d' a :
  dcfg d' = dcfg d -> (forall x, dbyte d' x = dbyte d x) -> dblk d' a = dblk d a.
Proof.
  unfold dcfg, dblk. intros E B. injection E as _ _ -> _ -> _. apply medium_ext. intros. apply B.
Qed.
Lemma blen_dblk d a : geom_ok d -> blen (dblk d a) = d_lg_bsize d.
Proof. intros (? & _). apply blen_medium. lia. Qed.
Lemma bytes_ok_dblk d a : bytes_ok (dblk d a).
Proof. apply bytes_ok_medium. intros. apply h_byte_range. Qed.

Lemma lba_pba_addr d a :
  dev_ok d -> geom_ok d -> 0 <= a < d_lg_bcnt d ->
  lba_pba d a * ph = d_part_offset d + a * d_lg_bsize d /\
  u32 (d_lg_bsize d / d_ph_bsize d * 1) * ph = d_lg_bsize d /\
  (a + 1) * d_lg_bsize d <= d_part_size d.
Proof.
  intros (Ep & (k & Hk & Ek) & Hr & Ho & Hm & Hs & Hmax) (Hg & Hgm & Hc & Hcs) Ha.
  assert (Hph : 0 < ph) by (rewrite Ek; lia).
  assert (Hle : (a + 1) * d_lg_bsize d <= d_lg_bcnt d * d_lg_bsize d)
    by (apply Z.mul_le_mono_nonneg_r; lia).
  assert (Ha0 : 0 <= a * d_lg_bsize d) by (apply Z.mul_nonneg_nonneg; lia).
  unfold lba_pba. rewrite Ep, (u64_id (a * _)), u64_id by lia. split_and!; [| |lia].
  - rewrite Z.mul_comm. rewrite <- Z_div_exact_full_2; [lia|lia|].
    rewrite Z.add_mod, Z.mul_mod, Hgm, Z.mul_0_r, Z.mod_0_l, Hm by lia. by rewrite Z.mod_0_l by lia.
  - rewrite Z.mul_1_r. pose proof (div_le (d_lg_bsize d) ph ltac:(lia) Hph).
    rewrite u32_id by lia. rewrite Z.mul_comm. symmetry. apply Z_div_exact_full_2; lia.
Qed.

Lemma get_direct_wp d a :
  dev_ok d -> geom_ok d -> 0 <= a < d_lg_bcnt d ->
  wp (ext4_blocks_get_direct a 1) d (reads d (fun bs => bs = dblk d a)).
Proof.
  intros Hd Hg Ha. destruct (lba_pba_addr d a Hd Hg Ha) as (E1 & E2 & _).
  unfold ext4_blocks_get_direct. wp_step. wp_step. wp_step. wp_step.
  wp_call bread_wp. intros r d' (C & B & R). split_and!; [done..|].
  destruct r; [|done]. by rewrite R, E1, E2.
Qed.

Lemma set_direct_wp d a bs :
  dev_ok d -> geom_ok d -> 0 <= a < d_lg_bcnt d -> blen bs = d_lg_bsize d -> bytes_ok bs ->
  wp (ext4_blocks_set_direct bs a 1) d (fun r d' =>
    dcfg d' = dcfg d /\ (forall a', a' <> a -> dblk d' a' = dblk d a') /\
    match r with Ok _ => dblk d' a = bs | Err rc => rc <> EOK end).
Proof.
  intros Hd Hg Ha Hl Hok. destruct (lba_pba_addr d a Hd Hg Ha) as (E1 & E2 & _).
  unfold ext4_blocks_set_direct. wp_step. wp_step. wp_step. wp_step.
  wp_call bwrite_wp; [lia|]. intros r d' (C & T & R).
  assert (Hpos : 0 < d_lg_bsize d) by apply Hg.
  pose proof C as C'. unfold dcfg in C'. injection C' as _ _ C3 _ C5 _.
  split_and!; [done| |].
  - intros a' Ha'. unfold dblk. rewrite C3, C5. apply medium_ext. intros x Hx. apply T.
    rewrite Z.mul_add_distr_r, E1, E2. nia.
  - destruct r as [[]|]; [|done]. apply bytes_ext; [apply bytes_ok_dblk|done| |].
    + rewrite blen_dblk; [lia|]. by apply (geom_ok_cfg d).
    + intros j Hj. rewrite blen_dblk in Hj by (by apply (geom_ok_cfg d)).
      unfold dblk. rewrite byte_at_medium by (apply h_byte_range || lia). fold (dbyte d').
      rewrite C3, C5, R, E1, Hl.
      replace ((_ <=? _) && (_ <? _)) with true by lia. f_equal. lia.
Qed.
End DevLaws.

(** ** A concrete device *)

(** A medium without end, a number of writes after which every further write
    fails (never, if negative), and memory that always is there. *)
Record ramdisk := mk_ramdisk { rd_mem : Z -> Z; rd_writes_left : Z }.

(** [medium], one address after the other. *)
Fixpoint medium_from (f : Z -> Z) (off : Z) (n : nat) : list Z :=
  match n with
  | O => []
  | S n => f off :: medium_from f (off + 1) n
  end.
Lemma medium_from_eq f off n : medium_from f off (Z.to_nat n) = medium f off n.
Proof.
  unfold medium. generalize (Z.to_nat n) as m. intros m. revert off.
  induction m as [|m IH]; intros off; [done|]. cbn [medium_from seq map]. rewrite IH, <-(seq_shift m 0), map_map.
  f_equal; [f_equal; lia|]. apply map_ext. intros i. f_equal. lia.
Qed.

#[export] Instance ramdisk_host : Host ramdisk := {|
  h_open := mok tt;
  h_close := mok tt;
  h_flush := None;
  h_bread blk n := mget (fun d => medium_from (fun x => u8 (rd_mem d x)) (blk * 512) (Z.to_nat (n * 512)));
  h_bwrite bs blk n := fun d =>
    if rd_writes_left d =? 0 then (Err EIO, d)
    else (Ok tt, mk_ramdisk
            (fun x => if (blk * 512 <=? x) && (x <? (blk + n) * 512)
                      then byte_at bs (x - blk * 512) else rd_mem d x)
            (rd_writes_left d - 1));
  h_malloc n := mok (replicate (Z.to_nat n) 0xA5);
|}.

#[export] Instance ramdisk_laws : HostLaws ramdisk 512.
Proof.
  refine {| h_byte d x := u8 (rd_mem d x) |}.
  - intros. apply u8_range.
  - intros. cbn. rewrite medium_from_eq. by split.
  - intros bs blk n d Hl. cbn. destruct (rd_writes_left d =? 0); cbn; [by split|]. split.
    + intros x Hx. by replace ((blk * 512 <=? x) && (x <? (blk + n) * 512)) with false by lia.
    + intros x Hx. replace ((blk * 512 <=? x) && (x <? (blk + n) * 512)) with true by lia.
      apply u8_u8.
  - intros n d Hn. cbn. split_and!; [done| |by apply Forall_replicate].
    unfold blen. rewrite length_replicate. lia.
Defined.

(** A 1 MiB partition at byte 4096 of the disk whose byte [x] is [x]. *)
Definition ramdev (writes : Z) : dev ramdisk :=
  mk_dev (mk_ramdisk (fun x => x) writes) 512 1 0 0 4096 1048576 0 0.

Lemma ramdev_ok writes : dev_ok (ph := 512) (ramdev writes).
Proof. split_and!; try done. exists 9. split; [lia|done]. Qed.

(** ** Properties *)

(** [ext4_block_readbytes] returns exactly the bytes asked for.  On an open
    device whose partition starts on a physical block, for any offset and length
    inside the partition (aligned or not), the call either fails with the
    device's error or returns the [len] bytes of the medium at [part_offset +
    off]; the medium and the configuration do not change.  A range that ends
    past the partition is refused with EINVAL before any device call. *)
Theorem readbytes_exact {D : Type} {HD : Host D} {ph : Z} {HL : HostLaws D ph}
    (d : dev D) (off len : Z)
    (Hd : dev_ok (ph := ph) d) (Hoff : 0 <= off) (Hlen : 0 <= len < 2 ^ 32) (Hw : off + len < 2 ^ 64) :
  let '(r, d') := ext4_block_readbytes off len d in
  if d_part_size d <? off + len then r = Err EINVAL /\ d' = d
  else
    dcfg d' = dcfg d /\ (forall x, dbyte d' x = dbyte d x) /\
    match r with
    | Ok bs => bs = medium (dbyte d) (d_part_offset d + off) len
    | Err rc => rc <> EOK
    end.
Proof.
  destruct (Z.ltb_spec (d_part_size d) (off + len)) as [Hlt|Hle].
  - destruct Hd as (_ & _ & Hr & _). unfold ext4_block_readbytes, mbnd, mget.
    replace (d_ph_refctr d =? 0) with false by lia. rewrite u64_id by lia.
    by replace (d_part_size d <? off + len) with true by lia.
  - pose proof (readbytes_wp d off len Hd Hoff Hlen Hle) as Hwp. unfold wp in Hwp.
    by destruct (ext4_block_readbytes off len d).
Qed.

Lemma readbytes_exact_witness :
  fst (ext4_block_readbytes 510 3 (ramdev 0)) = Ok [0xFE; 0xFF; 0].
Proof.
  pose proof (readbytes_exact (ramdev 0) 510 3 (ramdev_ok 0) ltac:(lia) ltac:(lia) ltac:(lia)) as H.
  destruct (ext4_block_readbytes 510 3 (ramdev 0)) as [[bs|rc] d'] eqn:E.
  - cbn [fst]. rewrite (proj2 (proj2 H)). vm_compute. reflexivity.
  - vm_compute in E. discriminate.
Defined.

(** [ext4_block_writebytes] writes exactly the bytes given, and a failure
    damages only the physical blocks it was working on.  For any offset and
    buffer inside the partition, if the call succeeds the medium is the old one
    with the buffer's bytes at [part_offset + off] and nothing else changed, the
    unaligned first and last blocks included; if the device fails half way, every
    byte outside the physical blocks the range touches is as it was.  A range
    that ends past the partition is refused with EINVAL before any device
    call. *)
Theorem writebytes_exact {D : Type} {HD : Host D} {ph : Z} {HL : HostLaws D ph}
    (d : dev D) (off : Z) (p : list Z)
    (Hd : dev_ok (ph := ph) d) (Hoff : 0 <= off) (Hlen : blen p < 2 ^ 32) (Hw : off + blen p < 2 ^ 64) :
  let a := d_part_offset d + off in
  let '(r, d') := ext4_block_writebytes off p d in
  if d_part_size d <? off + blen p then r = Err EINVAL /\ d' = d
  else
    dcfg d' = dcfg d /\
    (forall x, x < a / ph * ph \/ (a + blen p + ph - 1) / ph * ph <= x -> dbyte d' x = dbyte d x) /\
    match r with
    | Ok _ => forall x, dbyte d' x =
        if (a <=? x) && (x <? a + blen p) then byte_at p (x - a) else dbyte d x
    | Err rc => rc <> EOK
    end.
Proof.
  cbv zeta. destruct (Z.ltb_spec (d_part_size d) (off + blen p)) as [Hlt|Hle].
  - destruct Hd as (_ & _ & Hr & _). unfold ext4_block_writebytes, mbnd, mget.
    pose proof (blen_nonneg p).
    replace (d_ph_refctr d =? 0) with false by lia. rewrite u64_id by lia.
    by replace (d_part_size d <? off + blen p) with true by lia.
  - pose proof (writebytes_wp d off p Hd Hoff Hlen Hle) as Hwp. unfold wp in Hwp.
    destruct (ext4_block_writebytes off p d) as [r d']. destruct Hwp as (C & T & R).
    split_and!; [done|exact T|]. destruct r as [[]|]; [|done]. by destruct R as (q & P & ->).
Qed.

Lemma writebytes_exact_witness :
  let d' := snd (ext4_block_writebytes 510 [1; 2; 3] (ramdev (-1))) in
  map (dbyte d') [4605; 4606; 4607; 4608; 4609] = [253; 1; 2; 3; 1].
Proof.
  pose proof (writebytes_exact (ramdev (-1)) 510 [1; 2; 3] (ramdev_ok _) ltac:(lia)
    ltac:(vm_compute; reflexivity) ltac:(vm_compute; reflexivity)) as H.
  cbv zeta in *. destruct (ext4_block_writebytes 510 [1; 2; 3] (ramdev (-1))) as [[[]|rc] d'] eqn:E.
  - cbn [snd map]. rewrite !(proj2 (proj2 H)). vm_compute. reflexivity.
  - vm_compute in E. discriminate.
Defined.
