(* ===== verification/Bcache.v ===== *)
(** * The block cache

    Core/lwext4/src/ext4_bcache.c, include/ext4_bcache.h and the cached half of
    src/ext4_blockdev.c.  The state of a mounted device is the device of
    Device.v, its write-back counter and the cache.  A pointer to a buffer is the
    number of the block it caches; a block handle ([struct ext4_block]) is the
    same number.  [lba_root] is the map of buffers, [lru_root] a map from lru ids
    to blocks (a red-black tree keeps one node per key, so inserting a key that
    is there does nothing), [dirty_list] a list with the head first.

    [end_write] is the callback a journal hangs on a buffer; it is a parameter. *)

From stdpp Require Import sorting.
From S2P Require Import Prelude Types Device.

Definition BC_UPTODATE := 0.
Definition BC_DIRTY := 1.
Definition BC_FLUSH := 2.
Definition BC_TMP := 3.

Record buf := mk_buf {
  b_flags : Z;
  b_data : list Z;
  b_lru_id : Z;
  b_refctr : Z;
  b_on_dirty_list : bool;
  b_end_write : option Z;
}.

Definition ext4_bcache_set_flag (k : Z) (b : buf) : buf :=
  mk_buf (Z.lor (b_flags b) (Z.shiftl 1 k)) (b_data b) (b_lru_id b) (b_refctr b)
    (b_on_dirty_list b) (b_end_write b).
Definition ext4_bcache_clear_flag (k : Z) (b : buf) : buf :=
  mk_buf (Z.ldiff (b_flags b) (Z.shiftl 1 k)) (b_data b) (b_lru_id b) (b_refctr b)
    (b_on_dirty_list b) (b_end_write b).
(** [(flags & (1 << b)) >> b]. *)
Definition ext4_bcache_test_flag (b : buf) (k : Z) : bool := Z.testbit (b_flags b) k.
Definition ext4_bcache_set_dirty (b : buf) : buf :=
  ext4_bcache_set_flag BC_DIRTY (ext4_bcache_set_flag BC_UPTODATE b).
Definition ext4_bcache_clear_dirty (b : buf) : buf :=
  ext4_bcache_clear_flag BC_DIRTY (ext4_bcache_clear_flag BC_UPTODATE b).

Definition buf_set_data (d : list Z) (b : buf) : buf :=
  mk_buf (b_flags b) d (b_lru_id b) (b_refctr b) (b_on_dirty_list b) (b_end_write b).
Definition buf_set_lru (i : Z) (b : buf) : buf :=
  mk_buf (b_flags b) (b_data b) i (b_refctr b) (b_on_dirty_list b) (b_end_write b).
Definition buf_set_refctr (r : Z) (b : buf) : buf :=
  mk_buf (b_flags b) (b_data b) (b_lru_id b) r (b_on_dirty_list b) (b_end_write b).
Definition buf_set_on_dirty (o : bool) (b : buf) : buf :=
  mk_buf (b_flags b) (b_data b) (b_lru_id b) (b_refctr b) o (b_end_write b).
Definition buf_no_end_write (b : buf) : buf :=
  mk_buf (b_flags b) (b_data b) (b_lru_id b) (b_refctr b) (b_on_dirty_list b) None.
Definition ext4_bcache_inc_ref (b : buf) : buf := buf_set_refctr (u32 (b_refctr b + 1)) b.
Definition ext4_bcache_dec_ref (b : buf) : buf := buf_set_refctr (u32 (b_refctr b - 1)) b.

Record bcache := mk_bcache {
  c_cnt : Z;
  c_itemsize : Z;
  c_lru_ctr : Z;
  c_ref_blocks : Z;
  c_max_ref_blocks : Z;
  c_dont_shake : bool;
  c_io_err : Z;
  c_lba_root : gmap Z buf;
  c_lru_root : gmap Z Z;
  c_dirty_list : list Z;
}.

Definition c_set_lru_ctr (v : Z) (c : bcache) : bcache :=
  mk_bcache (c_cnt c) (c_itemsize c) v (c_ref_blocks c) (c_max_ref_blocks c) (c_dont_shake c)
    (c_io_err c) (c_lba_root c) (c_lru_root c) (c_dirty_list c).
Definition c_set_ref_blocks (v m : Z) (c : bcache) : bcache :=
  mk_bcache (c_cnt c) (c_itemsize c) (c_lru_ctr c) v m (c_dont_shake c)
    (c_io_err c) (c_lba_root c) (c_lru_root c) (c_dirty_list c).
Definition c_set_dont_shake (v : bool) (c : bcache) : bcache :=
  mk_bcache (c_cnt c) (c_itemsize c) (c_lru_ctr c) (c_ref_blocks c) (c_max_ref_blocks c) v
    (c_io_err c) (c_lba_root c) (c_lru_root c) (c_dirty_list c).
Definition c_set_io_err (v : Z) (c : bcache) : bcache :=
  mk_bcache (c_cnt c) (c_itemsize c) (c_lru_ctr c) (c_ref_blocks c) (c_max_ref_blocks c)
    (c_dont_shake c) v (c_lba_root c) (c_lru_root c) (c_dirty_list c).
Definition c_on_lba (f : gmap Z buf -> gmap Z buf) (c : bcache) : bcache :=
  mk_bcache (c_cnt c) (c_itemsize c) (c_lru_ctr c) (c_ref_blocks c) (c_max_ref_blocks c)
    (c_dont_shake c) (c_io_err c) (f (c_lba_root c)) (c_lru_root c) (c_dirty_list c).
Definition c_on_lru (f : gmap Z Z -> gmap Z Z) (c : bcache) : bcache :=
  mk_bcache (c_cnt c) (c_itemsize c) (c_lru_ctr c) (c_ref_blocks c) (c_max_ref_blocks c)
    (c_dont_shake c) (c_io_err c) (c_lba_root c) (f (c_lru_root c)) (c_dirty_list c).
Definition c_on_dirty (f : list Z -> list Z) (c : bcache) : bcache :=
  mk_bcache (c_cnt c) (c_itemsize c) (c_lru_ctr c) (c_ref_blocks c) (c_max_ref_blocks c)
    (c_dont_shake c) (c_io_err c) (c_lba_root c) (c_lru_root c) (f (c_dirty_list c)).

(** ** The cache alone *)

(** A store through a pointer to the buffer of [lba]. *)
Definition on_buf (lba : Z) (f : buf -> buf) (c : bcache) : bcache := c_on_lba (alter f lba) c.

Definition ext4_bcache_init_dynamic (cnt itemsize : Z) : bcache :=
  mk_bcache cnt itemsize 0 0 0 false 0 ∅ ∅ [].

Definition ext4_buf_lookup (c : bcache) (lba : Z) : option buf := c_lba_root c !! lba.

(** [RB_MIN]: the entry with the smallest key. *)
Definition rb_min (m : gmap Z Z) : option (Z * Z) :=
  foldr (fun p acc => match acc with
                      | Some q => if p.1 <? q.1 then Some p else Some q
                      | None => Some p
                      end) None (map_to_list m).
Definition ext4_buf_lowest_lru (c : bcache) : option Z := snd <$> rb_min (c_lru_root c).

(** [RB_INSERT] into the lru tree. *)
Definition lru_insert (id lba : Z) (c : bcache) : bcache :=
  c_on_lru (fun m => match m !! id with Some _ => m | None => <[id := lba]> m end) c.

Definition ext4_bcache_insert_dirty_node (lba : Z) (c : bcache) : bcache :=
  match ext4_buf_lookup c lba with
  | Some b =>
      if negb (b_on_dirty_list b)
      then on_buf lba (buf_set_on_dirty true) (c_on_dirty (cons lba) c) else c
  | None => c
  end.
Definition ext4_bcache_remove_dirty_node (lba : Z) (c : bcache) : bcache :=
  match ext4_buf_lookup c lba with
  | Some b =>
      if b_on_dirty_list b
      then on_buf lba (buf_set_on_dirty false) (c_on_dirty (filter (fun x => x <> lba)) c) else c
  | None => c
  end.

Definition ext4_bcache_drop_buf (lba : Z) (c : bcache) : bcache :=
  match ext4_buf_lookup c lba with
  | Some b =>
      let c := if negb (b_refctr b =? 0) then c else c_on_lru (delete (b_lru_id b)) c in
      let c := if ext4_bcache_test_flag b BC_DIRTY
               then ext4_bcache_remove_dirty_node lba c else c in
      let c := c_on_lba (delete lba) c in
      c_set_ref_blocks (u32 (c_ref_blocks c - 1)) (c_max_ref_blocks c) c
  | None => c
  end.

Definition ext4_bcache_invalidate_buf (lba : Z) (c : bcache) : bcache :=
  match ext4_buf_lookup c lba with
  | Some b =>
      let c := on_buf lba buf_no_end_write c in
      let c := if ext4_bcache_test_flag b BC_DIRTY
               then ext4_bcache_remove_dirty_node lba c else c in
      on_buf lba ext4_bcache_clear_dirty c
  | None => c
  end.

(** The cached blocks, in the order of the tree. *)
Definition lba_order (c : bcache) : list Z := merge_sort Z.le (map fst (map_to_list (c_lba_root c))).

(** [RB_FOREACH_FROM] starts at the node of [from]; without one it does nothing. *)
Definition ext4_bcache_invalidate_lba (from cnt : Z) (c : bcache) : bcache :=
  let end_ := u64 (from + cnt - 1) in
  match ext4_buf_lookup c from with
  | None => c
  | Some _ =>
      foldl (fun c lba => ext4_bcache_invalidate_buf lba c) c
        (filter (fun lba => from <= lba /\ lba <= end_) (lba_order c))
  end.

Definition ext4_bcache_update_if_cached (lba offset : Z) (src : list Z) (c : bcache) : bcache :=
  match ext4_buf_lookup c lba with
  | None => c
  | Some b =>
      if c_itemsize c <? u32 (offset + blen src) then c
      else on_buf lba (fun b => buf_set_data (memcpy_at offset src (b_data b)) b) c
  end.

(** The buffer of [lba], referenced once more, if it is cached. *)
Definition ext4_bcache_find_get (lba : Z) (c : bcache) : bool * bcache :=
  match ext4_buf_lookup c lba with
  | None => (false, c)
  | Some b =>
      let c :=
        if b_refctr b =? 0 then
          let c := c_set_lru_ctr (u32 (c_lru_ctr c + 1)) c in
          let c := on_buf lba (buf_set_lru (c_lru_ctr c)) c in
          let c := c_on_lru (delete (b_lru_id b)) c in
          if ext4_bcache_test_flag b BC_DIRTY
          then ext4_bcache_remove_dirty_node lba c else c
        else c in
      (true, on_buf lba ext4_bcache_inc_ref c)
  end.

Definition ext4_bcache_is_full (c : bcache) : bool := c_cnt c <=? c_ref_blocks c.

(** ** The cache on its device *)

Record bdev (D : Type) := mk_bdev {
  v_dev : dev D;
  v_cache_write_back : Z;
  v_bc : bcache;
}.
Arguments mk_bdev {D}. Arguments v_dev {D}. Arguments v_cache_write_back {D}. Arguments v_bc {D}.

Section Bdev.
Context {D : Type} {HD : Host D}.
(** [end_write arg lba res]: what the callback [arg] of the buffer of [lba] does. *)
Context (end_write : Z -> Z -> Z -> bdev D -> bdev D).
Local Abbreviation bdev := (bdev D).

Definition v_on_bc (f : bcache -> bcache) (v : bdev) : bdev :=
  mk_bdev (v_dev v) (v_cache_write_back v) (f (v_bc v)).
Definition on_dev {A} (m : M (dev D) A) : M bdev A := fun v =>
  let '(r, d) := m (v_dev v) in (r, mk_bdev d (v_cache_write_back v) (v_bc v)).
Definition bc_mod (f : bcache -> bcache) : M bdev unit := mmod (v_on_bc f).
Definition bc_get {A} (f : bcache -> A) : M bdev A := mget (fun v => f (v_bc v)).
Definition buf_flag (lba k : Z) : M bdev bool :=
  bc_get (fun c => match ext4_buf_lookup c lba with
                   | Some b => ext4_bcache_test_flag b k
                   | None => false
                   end).

(** [if (buf->end_write) { dont_shake = true; end_write(...); dont_shake = false; }] *)
Definition call_end_write (lba rc : Z) : M bdev unit :=
  b <- bc_get (fun c => ext4_buf_lookup c lba);;
  match b with
  | Some (mk_buf _ _ _ _ _ (Some arg)) =>
      bc_mod (c_set_dont_shake true);;;
      mmod (end_write arg lba rc);;;
      bc_mod (c_set_dont_shake false)
  | _ => mok tt
  end.

Definition ext4_block_flush_buf (lba : Z) : M bdev unit :=
  b <- bc_get (fun c => ext4_buf_lookup c lba);;
  match b with
  | None => mok tt
  | Some b =>
      if ext4_bcache_test_flag b BC_DIRTY && ext4_bcache_test_flag b BC_UPTODATE then
        r <- mtry (on_dev (ext4_blocks_set_direct (b_data b) lba 1));;
        match r with
        | Err rc => call_end_write lba rc;;; mfail rc
        | Ok _ =>
            bc_mod (ext4_bcache_remove_dirty_node lba);;;
            bc_mod (on_buf lba (ext4_bcache_clear_flag BC_DIRTY));;;
            call_end_write lba EOK
        end
      else mok tt
  end.

(** [if (r != EOK && bc->io_err == EOK) bc->io_err = r] *)
Definition latch_io_err (r : result unit) : M bdev unit :=
  match r with
  | Ok _ => mok tt
  | Err rc => bc_mod (fun c => if c_io_err c =? EOK then c_set_io_err rc c else c)
  end.

Definition ext4_bcache_cleanup : M bdev unit :=
  lbas <- bc_get lba_order;;
  foldr (fun lba k =>
    r <- mtry (ext4_block_flush_buf lba);;
    latch_io_err r;;;
    bc_mod (ext4_bcache_drop_buf lba);;;
    k) (mok tt) lbas.

(** True when a new buffer had to be made. *)
Definition ext4_bcache_alloc (lba : Z) : M bdev bool :=
  found <- bc_get (fun c => ext4_bcache_find_get lba c);;
  if (fst found : bool) then bc_mod (fun _ => snd found);;; mok false
  else
    itemsize <- bc_get c_itemsize;;
    data <- on_dev (on_host (h_malloc itemsize));;
    bc_mod (fun c => c_on_lba (insert lba (mk_buf 0 data 0 0 false None)) c);;;
    bc_mod (fun c =>
      let r := u32 (c_ref_blocks c + 1) in
      c_set_ref_blocks r (if c_max_ref_blocks c <? r then r else c_max_ref_blocks c) c);;;
    bc_mod (on_buf lba ext4_bcache_inc_ref);;;
    bc_mod (fun c =>
      let c := c_set_lru_ctr (u32 (c_lru_ctr c + 1)) c in
      on_buf lba (buf_set_lru (c_lru_ctr c)) c);;;
    mok true.

(** The last reference of [lba] is gone: [b] is its buffer. *)
Definition bcache_free_last (lba : Z) (b : buf) : M bdev unit :=
  bc_mod (lru_insert (b_lru_id b) lba);;;
  (* ready to be flushed *)
  (if ext4_bcache_test_flag b BC_DIRTY && ext4_bcache_test_flag b BC_UPTODATE then
     wb <- mget v_cache_write_back;;
     if negb (wb =? 0) && negb (ext4_bcache_test_flag b BC_FLUSH)
        && negb (ext4_bcache_test_flag b BC_TMP)
     then bc_mod (ext4_bcache_insert_dirty_node lba)
     else
       r <- mtry (ext4_block_flush_buf lba);;
       latch_io_err r;;;
       bc_mod (on_buf lba (ext4_bcache_clear_flag BC_FLUSH))
   else mok tt);;;
  (* invalidated: drop it *)
  uptodate <- buf_flag lba BC_UPTODATE;;
  tmp <- buf_flag lba BC_TMP;;
  if negb uptodate || tmp then bc_mod (ext4_bcache_drop_buf lba) else mok tt.

Definition ext4_bcache_free (lba : Z) : M bdev unit :=
  bc_mod (on_buf lba ext4_bcache_dec_ref);;;
  b <- bc_get (fun c => ext4_buf_lookup c lba);;
  match b with
  | None => mok tt
  | Some b => if negb (b_refctr b =? 0) then mok tt else bcache_free_last lba b
  end.

Definition ext4_block_flush_lba (lba : Z) : M bdev unit :=
  found <- bc_get (fun c => ext4_bcache_find_get lba c);;
  if (fst found : bool) then
    bc_mod (fun _ => snd found);;;
    r <- mtry (ext4_block_flush_buf lba);;
    ext4_bcache_free lba;;;
    match r with Ok _ => mok tt | Err rc => mfail rc end
  else mok tt.

(** Every turn drops a buffer, so the number of unreferenced buffers bounds the
    turns. *)
Fixpoint cache_shake_loop (fuel : nat) : M bdev unit :=
  match fuel with
  | O => mok tt
  | S fuel =>
      lowest <- bc_get ext4_buf_lowest_lru;;
      full <- bc_get ext4_bcache_is_full;;
      match lowest with
      | Some lba =>
          if (full : bool) then
            dirty <- buf_flag lba BC_DIRTY;;
            (if (dirty : bool) then ext4_block_flush_buf lba else mok tt);;;
            bc_mod (ext4_bcache_drop_buf lba);;;
            cache_shake_loop fuel
          else mok tt
      | None => mok tt
      end
  end.
Definition ext4_block_cache_shake : M bdev unit :=
  dont <- bc_get c_dont_shake;;
  if (dont : bool) then mok tt
  else
    bc_mod (c_set_dont_shake true);;;
    n <- bc_get (fun c => size (c_lru_root c));;
    r <- mtry (cache_shake_loop (S n));;
    bc_mod (c_set_dont_shake false);;;
    match r with Ok _ => mok tt | Err rc => mfail rc end.

Definition ext4_block_get_noread (lba : Z) : M bdev unit :=
  refctr <- mget (fun v => d_ph_refctr (v_dev v));;
  if refctr =? 0 then mfail EIO else
  lg_bcnt <- mget (fun v => d_lg_bcnt (v_dev v));;
  if negb (lba <? lg_bcnt) then mfail ENXIO else
  if lba =? 0 then mfail ENXIO else
  ext4_block_cache_shake;;;
  ext4_bcache_alloc lba;;;
  mok tt.

(** The read of a buffer that is not up to date.  A transfer that fails may have
    written some of the buffer's bytes; here it leaves them all.  The buffer is not up
    to date after it, so they are read again before anyone sees them. *)
Definition block_fill (lba : Z) : M bdev unit :=
  uptodate <- buf_flag lba BC_UPTODATE;;
  if (uptodate : bool) then mok tt
  else
    r <- mtry (on_dev (ext4_blocks_get_direct lba 1));;
    match r with
    | Err rc => ext4_bcache_free lba;;; mfail rc
    | Ok data =>
        bc_mod (on_buf lba (buf_set_data data));;;
        bc_mod (on_buf lba (ext4_bcache_set_flag BC_UPTODATE))
    end.

Definition ext4_block_get (lba : Z) : M bdev unit :=
  ext4_block_get_noread lba;;;
  block_fill lba.

(** The block the superblock is in; it is the handle the call returns. *)
Definition sb_lba (v : bdev) : Z :=
  if EXT4_SUPERBLOCK_OFFSET <? d_lg_bsize (v_dev v) then 0 else 1.
Definition ext4_block_get_sb : M bdev Z :=
  lba <- mget sb_lba;;
  refctr <- mget (fun v => d_ph_refctr (v_dev v));;
  if refctr =? 0 then mfail EIO else
  lg_bcnt <- mget (fun v => d_lg_bcnt (v_dev v));;
  if negb (lba <? lg_bcnt) then mfail ENXIO else
  ext4_block_cache_shake;;;
  ext4_bcache_alloc lba;;;
  block_fill lba;;;
  mok lba.

Definition ext4_block_set (lba : Z) : M bdev unit :=
  refctr <- mget (fun v => d_ph_refctr (v_dev v));;
  if refctr =? 0 then mfail EIO else ext4_bcache_free lba.

Definition ext4_bcache_take_error : M bdev Z :=
  r <- bc_get c_io_err;;
  bc_mod (c_set_io_err 0);;;
  mok r.

(** Every turn that does not end the loop takes a block off the dirty list. *)
Fixpoint cache_flush_loop (fuel : nat) : M bdev unit :=
  match fuel with
  | O => mok tt
  | S fuel =>
      dirty <- bc_get c_dirty_list;;
      match dirty with
      | [] => mok tt
      | lba :: _ => ext4_block_flush_buf lba;;; cache_flush_loop fuel
      end
  end.
Definition ext4_block_cache_flush : M bdev unit :=
  n <- bc_get (fun c => length (c_dirty_list c));;
  cache_flush_loop (S n);;;
  r <- ext4_bcache_take_error;;
  if r =? EOK then mok tt else mfail r.

Definition ext4_block_cache_write_back (on_off : bool) : M bdev unit :=
  mmod (fun v =>
    let wb := v_cache_write_back v in
    mk_bdev (v_dev v)
      (if on_off then u32 (wb + 1) else if wb =? 0 then wb else u32 (wb - 1)) (v_bc v));;;
  wb <- mget v_cache_write_back;;
  if negb (wb =? 0) then mok tt else ext4_block_cache_flush.
End Bdev.
