(* ===== verification/BcacheLaws.v ===== *)
(** * The invariant of the block cache

    What holds of the cache of Bcache.v between operations, and what every
    operation does to the contents of the volume as its clients see them. *)

From stdpp Require Import sorting.
From S2P Require Import Prelude Types Device Bcache.

(** ** Flags *)

Lemma test_set_flag k j b :
  0 <= k -> 0 <= j ->
  ext4_bcache_test_flag (ext4_bcache_set_flag k b) j = (k =? j) || ext4_bcache_test_flag b j.
Proof.
  intros Hk Hj. unfold ext4_bcache_test_flag, ext4_bcache_set_flag. cbn [b_flags].
  rewrite Z.lor_spec, Z.shiftl_1_l, Z.pow2_bits_eqb by done. apply orb_comm.
Qed.
Lemma test_clear_flag k j b :
  0 <= k -> 0 <= j ->
  ext4_bcache_test_flag (ext4_bcache_clear_flag k b) j =
  ext4_bcache_test_flag b j && negb (k =? j).
Proof.
  intros Hk Hj. unfold ext4_bcache_test_flag, ext4_bcache_clear_flag. cbn [b_flags].
  by rewrite Z.ldiff_spec, Z.shiftl_1_l, Z.pow2_bits_eqb.
Qed.

Definition utd (b : buf) : bool := ext4_bcache_test_flag b BC_UPTODATE.
Definition drt (b : buf) : bool := ext4_bcache_test_flag b BC_DIRTY.

(** ** The invariant of the cache alone

    [n] is a budget: no counter of the cache (lru ids, references, buffers) is
    above it, so none wraps while it is below 2^32.  [item] is the block size and
    [lim] the number of blocks. *)

Record buf_ok (n item lim : Z) (c : bcache) (lba : Z) (b : buf) : Prop := {
  bo_lba : 0 <= lba < lim;
  bo_len : blen (b_data b) = item;
  bo_bytes : bytes_ok (b_data b);
  bo_ref : 0 <= b_refctr b <= n;
  bo_id : 1 <= b_lru_id b <= c_lru_ctr c;
  bo_end : b_end_write b = None;
  bo_tmp : ext4_bcache_test_flag b BC_TMP = false;
  bo_free : b_refctr b = 0 -> c_lru_root c !! b_lru_id b = Some lba;
  bo_dirty : b_on_dirty_list b = true ->
    lba ∈ c_dirty_list c /\ drt b = true /\ b_refctr b = 0;
  bo_utd : drt b = true -> utd b = true;
}.

Record cwf (n item lim : Z) (c : bcache) : Prop := {
  cw_budget : 0 <= c_lru_ctr c <= n /\ n < 2 ^ 32 /\ Z.of_nat (size (c_lba_root c)) <= n;
  cw_item : c_itemsize c = item;
  cw_count : c_ref_blocks c = Z.of_nat (size (c_lba_root c));
  cw_buf lba b : c_lba_root c !! lba = Some b -> buf_ok n item lim c lba b;
  cw_lru k lba : c_lru_root c !! k = Some lba ->
    exists b, c_lba_root c !! lba = Some b /\ b_lru_id b = k /\ b_refctr b = 0;
  cw_ids a a' b b' : c_lba_root c !! a = Some b -> c_lba_root c !! a' = Some b' ->
    b_lru_id b = b_lru_id b' -> a = a';
  cw_dirty : NoDup (c_dirty_list c);
  cw_dirty_in lba : lba ∈ c_dirty_list c ->
    exists b, c_lba_root c !! lba = Some b /\ b_on_dirty_list b = true;
}.

(** The entry of [lba] in the lru tree and on the dirty list is as [b] says. *)
Record links_ok (c c' : bcache) (lba : Z) (ob : option buf) : Prop := {
  lk_lru_other k a : a <> lba -> (c_lru_root c' !! k = Some a <-> c_lru_root c !! k = Some a);
  lk_lru k : c_lru_root c' !! k = Some lba ->
    exists b, ob = Some b /\ b_lru_id b = k /\ b_refctr b = 0;
  lk_dirty_other a : a <> lba -> (a ∈ c_dirty_list c' <-> a ∈ c_dirty_list c);
  lk_dirty : lba ∈ c_dirty_list c' -> exists b, ob = Some b /\ b_on_dirty_list b = true;
  lk_nodup : NoDup (c_dirty_list c');
}.

(** The invariant after the buffer of [lba] became [ob] (dropped, if [None]). *)
Lemma cwf_update n n' item lim c c' lba ob :
  cwf n item lim c -> n <= n' < 2 ^ 32 ->
  c_lba_root c' = partial_alter (fun _ => ob) lba (c_lba_root c) ->
  c_itemsize c' = item -> c_ref_blocks c' = Z.of_nat (size (c_lba_root c')) ->
  c_lru_ctr c <= c_lru_ctr c' <= n' -> Z.of_nat (size (c_lba_root c')) <= n' ->
  (forall b, ob = Some b ->
     buf_ok n' item lim c' lba b /\
     forall a b0, a <> lba -> c_lba_root c !! a = Some b0 -> b_lru_id b0 <> b_lru_id b) ->
  links_ok c c' lba ob -> cwf n' item lim c'.
Proof.
  intros W Hn Er Ei Ec Hctr Hsz Hob L.
  assert (Hat : forall a, c_lba_root c' !! a = if decide (a = lba) then ob else c_lba_root c !! a).
  { intros a. rewrite Er. case_decide; subst; [apply lookup_partial_alter_eq|].
    by apply lookup_partial_alter_ne. }
  pose proof (cw_budget _ _ _ _ W). split; try done; try lia.
  - intros a b Ha. rewrite Hat in Ha. case_decide as Ea; [subst; by apply Hob|].
    destruct (cw_buf _ _ _ _ W a b Ha) as [B1 B2 B3 B4 B5 B6 B7 B8 B9 B10].
    split; try done; try lia.
    + intros H0. apply (lk_lru_other _ _ _ _ L); auto.
    + intros H0. destruct (B9 H0) as (? & ? & ?). split_and!; try done.
      by apply (lk_dirty_other _ _ _ _ L).
  - intros k a Ha. destruct (decide (a = lba)) as [->|Ea].
    + destruct (lk_lru _ _ _ _ L k Ha) as (b & -> & ? & ?). exists b.
      rewrite Hat, decide_True by done. done.
    + apply (lk_lru_other _ _ _ _ L) in Ha; [|done].
      destruct (cw_lru _ _ _ _ W k a Ha) as (b & ? & ? & ?). exists b.
      rewrite Hat, decide_False by done. done.
  - intros a a' b b' Ha Ha' E. rewrite Hat in Ha, Ha'.
    destruct (decide (a = lba)) as [E1|E1], (decide (a' = lba)) as [E2|E2]; [congruence|..].
    + destruct (Hob b Ha) as [_ Hid]. by destruct (Hid a' b' E2 Ha').
    + destruct (Hob b' Ha') as [_ Hid]. by destruct (Hid a b E1 Ha).
    + by apply (cw_ids _ _ _ _ W a a' b b').
  - apply (lk_nodup _ _ _ _ L).
  - intros a Ha. destruct (decide (a = lba)) as [->|Ea].
    + destruct (lk_dirty _ _ _ _ L Ha) as (b & -> & ?). exists b.
      rewrite Hat, decide_True by done. done.
    + apply (lk_dirty_other _ _ _ _ L) in Ha; [|done].
      destruct (cw_dirty_in _ _ _ _ W a Ha) as (b & ? & ?). exists b.
      rewrite Hat, decide_False by done. done.
Qed.

Lemma cwf_mono n n' item lim c : cwf n item lim c -> n <= n' < 2 ^ 32 -> cwf n' item lim c.
Proof.
  intros [W1 W2 W3 W4 W5 W6 W7 W8] Hn. split; try done; try lia.
  intros a b Hb. destruct (W4 a b Hb). split; try done; lia.
Qed.

(** ** Maps with one entry changed *)

Definition put {A} (a : Z) (x : option A) (m : gmap Z A) : gmap Z A :=
  partial_alter (fun _ => x) a m.

Lemma lookup_put {A} a x (m : gmap Z A) a' : put a x m !! a' = if decide (a' = a) then x else m !! a'.
Proof.
  unfold put. case_decide; subst; [apply lookup_partial_alter_eq|by apply lookup_partial_alter_ne].
Qed.
Lemma alter_as_put {A} (f : A -> A) a x m : m !! a = Some x -> alter f a m = put a (Some (f x)) m.
Proof.
  intros Hx. apply map_eq. intros a'. rewrite lookup_put. case_decide; subst.
  - by rewrite lookup_alter_eq, Hx.
  - by rewrite lookup_alter_ne.
Qed.
Lemma put_put {A} a (x y : option A) m : put a x (put a y m) = put a x m.
Proof. apply map_eq. intros. rewrite !lookup_put. by case_decide. Qed.
Lemma alter_put {A} (f : A -> A) a x m : alter f a (put a (Some x) m) = put a (Some (f x)) m.
Proof.
  rewrite (alter_as_put f a x); [|by rewrite lookup_put, decide_True].
  apply put_put.
Qed.
Lemma put_same {A} a (x : A) m : m !! a = Some x -> put a (Some x) m = m.
Proof. intros. apply map_eq. intros. rewrite lookup_put. by case_decide; subst. Qed.
Lemma size_put {A} a (x y : A) m : m !! a = Some x -> size (put a (Some y) m) = size m.
Proof.
  intros Hx. change (size (<[a := y]> m) = size m). apply map_size_insert_Some. by rewrite Hx.
Qed.
Lemma size_put_new {A} a (y : A) m : m !! a = None -> size (put a (Some y) m) = S (size m).
Proof. intros Hx. change (size (<[a := y]> m) = S (size m)). by apply map_size_insert_None. Qed.
Lemma size_put_none {A} a (x : A) m : m !! a = Some x -> size m = S (size (put a None m)).
Proof.
  intros Hx. change (put a None m) with (delete a m).
  rewrite map_size_delete, Hx. cbn.
  assert (size m <> 0%nat); [|lia]. rewrite map_size_ne_0_lookup. eauto.
Qed.

Lemma on_buf_on_buf lba f g c : on_buf lba f (on_buf lba g c) = on_buf lba (fun b => f (g b)) c.
Proof.
  unfold on_buf, c_on_lba. cbn. f_equal. apply map_eq. intros a.
  destruct (decide (a = lba)) as [->|Ha].
  - rewrite !lookup_alter_eq. by destruct (c_lba_root c !! lba).
  - by rewrite !lookup_alter_ne.
Qed.

(** Off the dirty list. *)
Lemma remove_dirty_shape c lba b :
  c_lba_root c !! lba = Some b -> (b_on_dirty_list b = false -> lba ∉ c_dirty_list c) ->
  NoDup (c_dirty_list c) ->
  let c' := ext4_bcache_remove_dirty_node lba c in
  c' = c_on_dirty (fun _ => c_dirty_list c')
         (c_on_lba (put lba (Some (buf_set_on_dirty false b))) c) /\
  (forall a, a ∈ c_dirty_list c' <-> a ∈ c_dirty_list c /\ a <> lba) /\
  NoDup (c_dirty_list c').
Proof.
  intros Hb Ho Hn. cbv zeta. unfold ext4_bcache_remove_dirty_node, ext4_buf_lookup. rewrite Hb.
  destruct (b_on_dirty_list b) eqn:Eo.
  - cbn. split_and!; [|intros a; rewrite list_elem_of_filter; tauto|by apply NoDup_filter].
    unfold on_buf, c_on_lba, c_on_dirty. cbn. by rewrite (alter_as_put _ _ b).
  - split_and!; [|intros a; split; [|tauto]; intros Ha; split; [done|]; intros ->; by apply Ho|done].
    unfold c_on_dirty, c_on_lba. cbn. rewrite put_same; [by destruct c|].
    rewrite Hb. f_equal. destruct b. cbn in *. by subst.
Qed.

Section CacheOps.
Context (n item lim : Z) (c : bcache) (lba : Z) (b : buf).
Context (W : cwf n item lim c) (Hb : c_lba_root c !! lba = Some b).

Lemma buf_of : buf_ok n item lim c lba b.
Proof. by apply (cw_buf _ _ _ _ W). Qed.

(** The links of [lba] do not change. *)
Lemma links_same b' :
  b_lru_id b' = b_lru_id b -> b_refctr b' = b_refctr b ->
  b_on_dirty_list b' = b_on_dirty_list b -> links_ok c c lba (Some b').
Proof.
  intros E1 E2 E3. split; try done.
  - intros k Hk. destruct (cw_lru _ _ _ _ W k lba Hk) as (b0 & ? & ? & ?).
    exists b'. split; [done|]. split; congruence.
  - intros Hd. destruct (cw_dirty_in _ _ _ _ W lba Hd) as (b0 & ? & ?). exists b'.
    split; congruence.
  - apply (cw_dirty _ _ _ _ W).
Qed.

(** A store into the buffer that is not about its links. *)
Lemma cwf_on_buf f :
  b_lru_id (f b) = b_lru_id b -> b_refctr (f b) = b_refctr b ->
  b_on_dirty_list (f b) = b_on_dirty_list b -> b_end_write (f b) = None ->
  ext4_bcache_test_flag (f b) BC_TMP = false -> blen (b_data (f b)) = item ->
  bytes_ok (b_data (f b)) -> (drt (f b) = true -> utd (f b) = true) ->
  (b_on_dirty_list b = true -> drt (f b) = true) ->
  cwf n item lim (on_buf lba f c).
Proof.
  intros E1 E2 E3 E4 E5 E6 E7 E8 E9. pose proof buf_of as [B1 B2 B3 B4 B5 B6 B7 B8 B9 B10].
  destruct (cw_budget _ _ _ _ W) as (Bu1 & Bu2 & Bu3).
  eapply (cwf_update _ _ _ _ _ _ lba (Some (f b)) W); try (cbn; lia).
  - cbn. by apply alter_as_put.
  - cbn. apply (cw_item _ _ _ _ W).
  - cbn. rewrite (alter_as_put _ _ b), (size_put _ b) by done. apply (cw_count _ _ _ _ W).
  - cbn. rewrite (alter_as_put _ _ b), (size_put _ b) by done. lia.
  - intros b' [= <-]. split.
    + split; rewrite ?E1, ?E2, ?E3; try done. intros Hd. destruct (B9 Hd) as (? & ? & ?).
      split_and!; try done. by apply E9.
    + intros a b0 Ha Hb0 Ei. rewrite E1 in Ei. by destruct (Ha (cw_ids _ _ _ _ W a lba b0 b Hb0 Hb Ei)).
  - destruct (links_same (f b)) as [L1 L2 L3 L4 L5]; try done.
Qed.

Lemma off_list_dirty : b_on_dirty_list b = false -> lba ∉ c_dirty_list c.
Proof.
  intros Eo Hd. destruct (cw_dirty_in _ _ _ _ W lba Hd) as (b0 & ? & ?). congruence.
Qed.

Lemma fresh_id_other b' a b0 :
  b_lru_id b' = b_lru_id b -> a <> lba -> c_lba_root c !! a = Some b0 ->
  b_lru_id b0 <> b_lru_id b'.
Proof. intros E Ha Hb0 Ei. apply Ha. apply (cw_ids _ _ _ _ W a lba b0 b); congruence. Qed.

(** The buffer reached the device: off the dirty list, no longer dirty. *)
Definition cleaned (b : buf) : buf :=
  ext4_bcache_clear_flag BC_DIRTY (buf_set_on_dirty false b).
Definition bc_clean (c : bcache) : bcache :=
  on_buf lba (ext4_bcache_clear_flag BC_DIRTY) (ext4_bcache_remove_dirty_node lba c).

Lemma drt_cleaned : drt (cleaned b) = false.
Proof. unfold drt, cleaned. rewrite test_clear_flag by done. apply andb_false_r. Qed.
Lemma utd_cleaned : utd (cleaned b) = utd b.
Proof. unfold utd, cleaned. rewrite test_clear_flag by done. apply andb_true_r. Qed.

Lemma clean_shape :
  c_lba_root (bc_clean c) = put lba (Some (cleaned b)) (c_lba_root c) /\
  c_io_err (bc_clean c) = c_io_err c /\ c_dont_shake (bc_clean c) = c_dont_shake c /\
  (forall a, a ∈ c_dirty_list (bc_clean c) <-> a ∈ c_dirty_list c /\ a <> lba) /\
  c_lru_root (bc_clean c) = c_lru_root c /\ cwf n item lim (bc_clean c).
Proof.
  destruct (remove_dirty_shape c lba b Hb off_list_dirty (cw_dirty _ _ _ _ W)) as (E & H1 & H2).
  unfold bc_clean. set (c1 := ext4_bcache_remove_dirty_node lba c) in *.
  assert (Er : c_lba_root (on_buf lba (ext4_bcache_clear_flag BC_DIRTY) c1) =
               put lba (Some (cleaned b)) (c_lba_root c)).
  { rewrite E. cbn. by rewrite alter_put. }
  split_and!; [done|by rewrite E|by rewrite E|done|by rewrite E|].
  pose proof buf_of as [B1 B2 B3 B4 B5 B6 B7 B8 B9 B10].
  destruct (cw_budget _ _ _ _ W) as (Bu1 & Bu2 & Bu3).
  eapply (cwf_update _ _ _ _ _ _ lba (Some (cleaned b)) W); try lia; try done.
  - rewrite E. apply (cw_item _ _ _ _ W).
  - rewrite Er, (size_put _ b) by done. rewrite E. apply (cw_count _ _ _ _ W).
  - rewrite E. cbn. lia.
  - rewrite Er, (size_put _ b) by done. lia.
  - intros b' [= <-]. split; [|intros a b0; by apply fresh_id_other]. split; try done.
    + rewrite E. done.
    + unfold cleaned. rewrite test_clear_flag by done. by apply andb_false_intro1.
    + rewrite E. done.
    + by rewrite drt_cleaned.
  - split; [by rewrite E| | | |done].
    + intros k. rewrite E. cbn. intros Hk. destruct (cw_lru _ _ _ _ W k lba Hk) as (b0 & ? & ? & ?).
      exists (cleaned b). split; [done|]. cbn. split; congruence.
    + intros a Ha. cbn. rewrite H1. tauto.
    + cbn. rewrite H1. tauto.
Qed.

Lemma drop_shape :
  let c' := ext4_bcache_drop_buf lba c in
  c_lba_root c' = put lba None (c_lba_root c) /\
  c_io_err c' = c_io_err c /\ c_dont_shake c' = c_dont_shake c /\
  (forall a, a ∈ c_dirty_list c' <-> a ∈ c_dirty_list c /\ a <> lba) /\
  (forall k a, c_lru_root c' !! k = Some a <-> c_lru_root c !! k = Some a /\ a <> lba) /\
  cwf n item lim c'.
Proof.
  cbv zeta. pose proof buf_of as [B1 B2 B3 B4 B5 B6 B7 B8 B9 B10].
  destruct (cw_budget _ _ _ _ W) as (Bu1 & Bu2 & Bu3).
  unfold ext4_bcache_drop_buf, ext4_buf_lookup. rewrite Hb.
  set (c1 := if negb (b_refctr b =? 0) then c else c_on_lru (delete (b_lru_id b)) c).
  assert (E1 : c1 = c_on_lru (fun _ => c_lru_root c1) c /\
    forall k a, c_lru_root c1 !! k = Some a <-> c_lru_root c !! k = Some a /\ a <> lba).
  { unfold c1. destruct (Z.eqb_spec (b_refctr b) 0) as [E0|E0]; cbn.
    - split; [by destruct c|]. intros k a. rewrite lookup_delete_Some. split.
      + intros [Hk Ha]. split; [done|]. intros ->. apply Hk.
        destruct (cw_lru _ _ _ _ W k lba Ha) as (b0 & ? & ? & ?). congruence.
      + intros [Hk Ha]. split; [|done]. intros <-. rewrite B8 in Hk by done. congruence.
    - split; [by destruct c|]. intros k a. split; [|tauto]. intros Hk. split; [done|]. intros ->.
      destruct (cw_lru _ _ _ _ W k lba Hk) as (b0 & ? & ? & ?). congruence. }
  destruct E1 as [E1 L1].
  assert (Hb1 : c_lba_root c1 !! lba = Some b) by (by rewrite E1).
  set (c2 := if ext4_bcache_test_flag b BC_DIRTY then ext4_bcache_remove_dirty_node lba c1 else c1).
  assert (E2 : exists x, c2 = c_on_dirty (fun _ => c_dirty_list c2)
                          (c_on_lba (fun m => put lba x m) c1) /\
    (forall a, a ∈ c_dirty_list c2 <-> a ∈ c_dirty_list c /\ a <> lba) /\ NoDup (c_dirty_list c2)).
  { unfold c2. fold (drt b). destruct (drt b) eqn:Ed.
    - destruct (remove_dirty_shape c1 lba b Hb1) as (E & ? & ?).
      + rewrite E1. apply off_list_dirty.
      + rewrite E1. apply (cw_dirty _ _ _ _ W).
      + exists (Some (buf_set_on_dirty false b)). rewrite E1 in *. done.
    - exists (Some b). split_and!.
      + unfold c_on_lba. rewrite put_same by done. by destruct c1.
      + rewrite E1. cbn. intros a. split; [|tauto]. intros Ha. split; [done|]. intros ->.
        destruct (b_on_dirty_list b) eqn:Eo; [|by apply off_list_dirty in Eo].
        destruct B9 as (_ & ? & _); [done|congruence].
      + rewrite E1. apply (cw_dirty _ _ _ _ W). }
  destruct E2 as (x & E2 & D2 & N2). cbn.
  assert (Er : delete lba (c_lba_root c2) = put lba None (c_lba_root c)).
  { rewrite E2, E1. cbn. change (put lba None (put lba x (c_lba_root c)) = put lba None (c_lba_root c)).
    apply put_put. }
  pose proof (size_put_none lba b (c_lba_root c) Hb) as Hsz.
  assert (Ec : c_ref_blocks c2 = Z.of_nat (size (c_lba_root c))).
  { rewrite E2, E1. apply (cw_count _ _ _ _ W). }
  assert (El : c_lru_root c2 = c_lru_root c1) by (by rewrite E2).
  split_and!; [done|by rewrite E2, E1|by rewrite E2, E1|done|by rewrite El|].
  eapply (cwf_update _ _ _ _ _ _ lba None W); try lia; try done; cbn; rewrite ?Er.
  - rewrite E2, E1. apply (cw_item _ _ _ _ W).
  - rewrite Ec, u32_id; lia.
  - rewrite E2, E1. cbn. lia.
  - lia.
  - split; cbn; try done.
    + intros k a Ha. rewrite El, L1. tauto.
    + intros k Hk. rewrite El in Hk. apply L1 in Hk. tauto.
    + intros a Ha. rewrite D2. tauto.
    + intros Hd. apply D2 in Hd. tauto.
Qed.

Lemma insert_dirty_shape :
  b_refctr b = 0 -> drt b = true ->
  let c' := ext4_bcache_insert_dirty_node lba c in
  c_lba_root c' = put lba (Some (buf_set_on_dirty true b)) (c_lba_root c) /\
  c_io_err c' = c_io_err c /\ c_dont_shake c' = c_dont_shake c /\
  (forall a, a ∈ c_dirty_list c' <-> a = lba \/ a ∈ c_dirty_list c) /\
  cwf n item lim c'.
Proof.
  intros H0 Hd. cbv zeta. pose proof buf_of as [B1 B2 B3 B4 B5 B6 B7 B8 B9 B10].
  destruct (cw_budget _ _ _ _ W) as (Bu1 & Bu2 & Bu3).
  unfold ext4_bcache_insert_dirty_node, ext4_buf_lookup. rewrite Hb.
  destruct (b_on_dirty_list b) eqn:Eo; cbn [negb].
  { destruct B9 as (Hin & _); [done|]. split_and!; try done.
    - rewrite put_same; [done|]. rewrite Hb. f_equal. destruct b. cbn in *. by subst.
    - intros a. split; [by right|]. by intros [->|?]. }
  assert (Er : c_lba_root (on_buf lba (buf_set_on_dirty true) (c_on_dirty (cons lba) c)) =
               put lba (Some (buf_set_on_dirty true b)) (c_lba_root c)) by (by apply alter_as_put).
  split_and!; [done..|intros a; apply elem_of_cons|].
  eapply (cwf_update _ _ _ _ _ _ lba (Some (buf_set_on_dirty true b)) W); try lia; try done.
  - apply (cw_item _ _ _ _ W).
  - rewrite Er, (size_put _ b) by done. apply (cw_count _ _ _ _ W).
  - cbn. lia.
  - rewrite Er, (size_put _ b) by done. lia.
  - intros b' [= <-]. split; [|intros a b0; by apply fresh_id_other]. split; try done.
    intros _. split_and!; [left|done|done].
  - split; cbn; try done.
    + intros k Hk. destruct (cw_lru _ _ _ _ W k lba Hk) as (b0 & ? & ? & ?).
      exists (buf_set_on_dirty true b). split; [done|]. cbn. split; congruence.
    + intros a Ha. rewrite elem_of_cons. split; [by intros [?|?]|by right].
    + intros _. by eexists.
    + apply NoDup_cons. split; [by apply off_list_dirty|apply (cw_dirty _ _ _ _ W)].
Qed.

Lemma find_get_shape :
  n + 1 < 2 ^ 32 ->
  let c' := snd (ext4_bcache_find_get lba c) in
  fst (ext4_bcache_find_get lba c) = true /\
  c_io_err c' = c_io_err c /\ c_dont_shake c' = c_dont_shake c /\
  (forall a, a <> lba -> (a ∈ c_dirty_list c' <-> a ∈ c_dirty_list c)) /\
  cwf (n + 1) item lim c' /\
  exists b', c_lba_root c' = put lba (Some b') (c_lba_root c) /\
    b_flags b' = b_flags b /\ b_data b' = b_data b /\ b_refctr b' = b_refctr b + 1.
Proof.
  intros Hn. cbv zeta. pose proof buf_of as [B1 B2 B3 B4 B5 B6 B7 B8 B9 B10].
  destruct (cw_budget _ _ _ _ W) as (Bu1 & Bu2 & Bu3).
  unfold ext4_bcache_find_get, ext4_buf_lookup. rewrite Hb. cbn [fst snd].
  destruct (Z.eqb_spec (b_refctr b) 0) as [H0|H0].
  - set (i := u32 (c_lru_ctr c + 1)). assert (Ei : i = c_lru_ctr c + 1) by (apply u32_id; lia).
    set (c1 := c_on_lru _ _).
    assert (Hb1 : c_lba_root c1 !! lba = Some (buf_set_lru i b)).
    { unfold c1. cbn. by rewrite lookup_alter_eq, Hb. }
    set (c2 := if ext4_bcache_test_flag b BC_DIRTY then _ else c1).
    assert (E2 : exists o, c2 = c_on_dirty (fun _ => c_dirty_list c2)
        (c_on_lba (put lba (Some (buf_set_on_dirty o (buf_set_lru i b)))) c1) /\ o = false /\
        (forall a, a ∈ c_dirty_list c2 <-> a ∈ c_dirty_list c /\ a <> lba) /\
        NoDup (c_dirty_list c2)).
    { exists false. unfold c2. fold (drt b). destruct (drt b) eqn:Ed.
      - destruct (remove_dirty_shape c1 lba _ Hb1) as (E & ? & ?); [apply off_list_dirty| |done].
        apply (cw_dirty _ _ _ _ W).
      - assert (Eo : b_on_dirty_list b = false).
        { destruct (b_on_dirty_list b); [|done]. by destruct B9 as (_ & ? & _). }
        split_and!; [|done| |apply (cw_dirty _ _ _ _ W)].
        + unfold c_on_lba. rewrite put_same; [by destruct c1|]. rewrite Hb1. f_equal.
          destruct b. cbn in *. by subst.
        + intros a. cbn. split; [|tauto]. intros Ha. split; [done|]. intros ->.
          by apply off_list_dirty in Eo. }
    destruct E2 as (o & E2 & -> & D2 & N2).
    set (b' := buf_set_refctr 1 (buf_set_on_dirty false (buf_set_lru i b))).
    assert (Er : c_lba_root (on_buf lba ext4_bcache_inc_ref c2) = put lba (Some b') (c_lba_root c)).
    { rewrite E2. cbn. rewrite alter_put, (alter_as_put _ _ b), put_put by done. do 2 f_equal.
      unfold ext4_bcache_inc_ref. cbn. by rewrite H0. }
    split_and!; [done|by rewrite E2|by rewrite E2|intros a Ha; cbn; rewrite D2; tauto| |].
    + eapply (cwf_update _ _ _ _ _ _ lba (Some b') W); try lia; try done.
      * rewrite E2. apply (cw_item _ _ _ _ W).
      * rewrite Er, (size_put _ b) by done. rewrite E2. apply (cw_count _ _ _ _ W).
      * rewrite E2. cbn. fold i. lia.
      * rewrite Er, (size_put _ b) by done. lia.
      * intros b0 [= <-]. split.
        { split; try done; cbn; try lia. rewrite E2. cbn. fold i. lia. }
        intros a b0 Ha Hb0. cbn. pose proof (bo_id _ _ _ _ _ _ (cw_buf _ _ _ _ W a b0 Hb0)). lia.
      * split; cbn.
        { intros k a Ha. rewrite E2. cbn. rewrite lookup_delete_Some. split; [tauto|].
          intros Hk. split; [|done]. intros <-. destruct (cw_lru _ _ _ _ W _ _ Hk) as (b0 & ? & ? & ?).
          apply Ha. by apply (cw_ids _ _ _ _ W a lba b0 b). }
        { intros k. rewrite E2. cbn. rewrite lookup_delete_Some. intros [Hk1 Hk].
          destruct (cw_lru _ _ _ _ W _ _ Hk) as (b0 & ? & ? & ?). congruence. }
        { intros a Ha. rewrite D2. tauto. }
        { rewrite D2. tauto. }
        { done. }
    + exists b'. split_and!; try done. cbn. lia.
  - assert (Er : c_lba_root (on_buf lba ext4_bcache_inc_ref c) =
                 put lba (Some (buf_set_refctr (b_refctr b + 1) b)) (c_lba_root c)).
    { cbn. rewrite (alter_as_put _ _ b) by done. unfold ext4_bcache_inc_ref. by rewrite u32_id by lia. }
    split_and!; try done; [|by eexists].
    eapply (cwf_update _ _ _ _ _ _ lba (Some _) W); try lia; try done.
    + apply (cw_item _ _ _ _ W).
    + rewrite Er, (size_put _ b) by done. apply (cw_count _ _ _ _ W).
    + cbn. lia.
    + rewrite Er, (size_put _ b) by done. lia.
    + intros b0 [= <-]. split; [|intros a b1; by apply fresh_id_other]. split; try done; cbn; try lia.
      intros Ho. destruct (B9 Ho) as (_ & _ & ?). lia.
    + split; cbn; try done.
      * intros k Hk. destruct (cw_lru _ _ _ _ W k lba Hk) as (b0 & ? & ? & ?). congruence.
      * intros Hd. by destruct (cw_dirty_in _ _ _ _ W lba Hd) as (b0 & ? & ?);
          assert (b0 = b) as -> by congruence; eexists.
      * apply (cw_dirty _ _ _ _ W).
Qed.

(** One reference less: the last one puts the buffer back in the lru tree. *)
Definition released (c : bcache) : bcache :=
  let c1 := on_buf lba ext4_bcache_dec_ref c in
  if b_refctr b =? 1 then lru_insert (b_lru_id b) lba c1 else c1.

Lemma lru_absent : b_refctr b <> 0 -> c_lru_root c !! b_lru_id b = None.
Proof.
  intros H0. destruct (c_lru_root c !! b_lru_id b) as [a|] eqn:E; [|done].
  destruct (cw_lru _ _ _ _ W _ _ E) as (b0 & ? & Ei & ?).
  assert (a = lba) as -> by (by apply (cw_ids _ _ _ _ W a lba b0 b)). congruence.
Qed.

Lemma release_shape :
  0 < b_refctr b ->
  let c' := released c in
  c_lba_root c' = put lba (Some (buf_set_refctr (b_refctr b - 1) b)) (c_lba_root c) /\
  c_io_err c' = c_io_err c /\ c_dont_shake c' = c_dont_shake c /\
  c_dirty_list c' = c_dirty_list c /\ cwf n item lim c'.
Proof.
  intros H0. cbv zeta. pose proof buf_of as [B1 B2 B3 B4 B5 B6 B7 B8 B9 B10].
  destruct (cw_budget _ _ _ _ W) as (Bu1 & Bu2 & Bu3).
  pose proof (lru_absent ltac:(lia)) as Habs.
  assert (Eb : ext4_bcache_dec_ref b = buf_set_refctr (b_refctr b - 1) b).
  { unfold ext4_bcache_dec_ref. by rewrite u32_id by lia. }
  assert (Er : c_lba_root (released c) =
               put lba (Some (buf_set_refctr (b_refctr b - 1) b)) (c_lba_root c)).
  { unfold released. case_match; cbn; by rewrite (alter_as_put _ _ b), Eb. }
  assert (El : c_lru_root (released c) = if b_refctr b =? 1
               then <[b_lru_id b := lba]> (c_lru_root c) else c_lru_root c).
  { unfold released. case_match; [|done]. cbn. by rewrite Habs. }
  assert (Eo : forall A (f : bcache -> A),
    (forall g x, f (c_on_lru g x) = f x) -> (forall g x, f (c_on_lba g x) = f x) ->
    f (released c) = f c).
  { intros A f F1 F2. unfold released, lru_insert, on_buf. case_match; by rewrite ?F1, ?F2. }
  split_and!; [done|by apply (Eo _ c_io_err)|by apply (Eo _ c_dont_shake)|
               by apply (Eo _ c_dirty_list)|].
  assert (Ed : c_dirty_list (released c) = c_dirty_list c) by (by apply (Eo _ c_dirty_list)).
  assert (Ei : c_lru_ctr (released c) = c_lru_ctr c) by (by apply (Eo _ c_lru_ctr)).
  eapply (cwf_update _ _ _ _ _ _ lba (Some _) W); try lia; try done.
  - rewrite (Eo _ c_itemsize) by done. apply (cw_item _ _ _ _ W).
  - rewrite (Eo _ c_ref_blocks), Er, (size_put _ b) by done. apply (cw_count _ _ _ _ W).
  - rewrite Er, (size_put _ b) by done. lia.
  - intros b0 [= <-]. split; [|intros a b1; by apply fresh_id_other].
    split; rewrite ?El, ?Ed, ?Ei; try done; cbn; try lia.
    + intros. replace (b_refctr b =? 1) with true by lia. apply lookup_insert_eq.
    + intros Ho. destruct (B9 Ho) as (_ & _ & ?). lia.
  - split; rewrite ?El, ?Ed; try done.
    + intros k a Ha. case_match; [|done]. rewrite lookup_insert_Some. split.
      * by intros [[? ?]|[? ?]]; [subst|].
      * intros Hk. right. split; [|done]. intros <-. congruence.
    + intros k Hk. exists (buf_set_refctr (b_refctr b - 1) b). split; [done|].
      destruct (Z.eqb_spec (b_refctr b) 1) as [E1|E1].
      * apply lookup_insert_Some in Hk as [[? ?]|[? Hk]]; [cbn; split; [done|lia]|].
        destruct (cw_lru _ _ _ _ W _ _ Hk) as (b0 & ? & ? & ?). congruence.
      * destruct (cw_lru _ _ _ _ W _ _ Hk) as (b0 & ? & ? & ?).
        assert (b0 = b) as -> by congruence. lia.
    + intros Hd. destruct (cw_dirty_in _ _ _ _ W lba Hd) as (b0 & ? & ?).
      assert (b0 = b) as -> by congruence. by eexists.
    + apply (cw_dirty _ _ _ _ W).
Qed.
End CacheOps.

(** Dropping an unreferenced buffer takes its entry out of the lru tree. *)
Lemma drop_lru_size n item lim c lba b :
  cwf n item lim c -> c_lba_root c !! lba = Some b -> b_refctr b = 0 ->
  S (size (c_lru_root (ext4_bcache_drop_buf lba c))) = size (c_lru_root c).
Proof.
  intros W Hb H0. destruct (drop_shape n item lim c lba b W Hb) as (_ & _ & _ & _ & E & _).
  pose proof (bo_free _ _ _ _ _ _ (cw_buf _ _ _ _ W lba b Hb) H0) as Hk.
  rewrite (size_put_none (b_lru_id b) lba (c_lru_root c) Hk). do 2 f_equal.
  apply map_eq. intros k. apply option_eq. intros a. rewrite E, lookup_put. case_decide as Ek.
  - subst. rewrite Hk. split; [|done]. intros [[= <-] ?]. done.
  - split; [tauto|]. intros Ha. split; [done|]. intros ->.
    destruct (cw_lru _ _ _ _ W k lba Ha) as (b0 & ? & ? & ?). congruence.
Qed.

(** A new buffer, as [ext4_bcache_alloc] leaves it. *)
Definition new_buf (c : bcache) (data : list Z) : buf :=
  mk_buf 0 data (u32 (c_lru_ctr c + 1)) 1 false None.
Definition allocated (lba : Z) (data : list Z) (c : bcache) : bcache :=
  let c := c_on_lba (insert lba (mk_buf 0 data 0 0 false None)) c in
  let r := u32 (c_ref_blocks c + 1) in
  let c := c_set_ref_blocks r (if c_max_ref_blocks c <? r then r else c_max_ref_blocks c) c in
  let c := on_buf lba ext4_bcache_inc_ref c in
  let c := c_set_lru_ctr (u32 (c_lru_ctr c + 1)) c in
  on_buf lba (buf_set_lru (c_lru_ctr c)) c.

Lemma alloc_shape n item lim c lba data :
  cwf n item lim c -> c_lba_root c !! lba = None -> n + 1 < 2 ^ 32 -> 0 <= lba < lim ->
  blen data = item -> bytes_ok data ->
  let c' := allocated lba data c in
  c_lba_root c' = put lba (Some (new_buf c data)) (c_lba_root c) /\
  c_io_err c' = c_io_err c /\ c_dont_shake c' = c_dont_shake c /\
  c_dirty_list c' = c_dirty_list c /\ cwf (n + 1) item lim c'.
Proof.
  intros W Hb Hn Hlba Hlen Hok. cbv zeta. destruct (cw_budget _ _ _ _ W) as (Bu1 & Bu2 & Bu3).
  assert (Er : c_lba_root (allocated lba data c) = put lba (Some (new_buf c data)) (c_lba_root c)).
  { assert (Hi : forall (x : buf) m, <[lba := x]> m = put lba (Some x) m) by done.
    unfold allocated. cbn. by rewrite Hi, !alter_put. }
  split_and!; try done.
  eapply (cwf_update _ _ _ _ _ _ lba (Some _) W); try lia; try done.
  - apply (cw_item _ _ _ _ W).
  - rewrite Er, size_put_new by done. cbn. rewrite (cw_count _ _ _ _ W), u32_id by lia. lia.
  - cbn. rewrite u32_id; lia.
  - rewrite Er, size_put_new by done. lia.
  - intros b0 [= <-]. split; [split; try done; cbn; try lia|].
    + rewrite u32_id; lia.
    + intros a b0 Ha Hb0. cbn. rewrite u32_id by lia.
      pose proof (bo_id _ _ _ _ _ _ (cw_buf _ _ _ _ W a b0 Hb0)). lia.
  - split; cbn; try done.
    + intros k Hk. destruct (cw_lru _ _ _ _ W _ _ Hk) as (b0 & ? & ? & ?). congruence.
    + intros Hd. destruct (cw_dirty_in _ _ _ _ W lba Hd) as (b0 & ? & ?). congruence.
    + apply (cw_dirty _ _ _ _ W).
Qed.

(** ** The least recently used buffer *)

Lemma rb_min_foldr (l : list (Z * Z)) :
  let r := foldr (fun p acc => match acc with
                      | Some q => if p.1 <? q.1 then Some p else Some q
                      | None => Some p
                      end) None l in
  match r with
  | Some p => p ∈ l /\ forall q, q ∈ l -> p.1 <= q.1
  | None => l = []
  end.
Proof.
  cbv zeta. induction l as [|p l IH]; [done|]. cbn [foldr].
  destruct (foldr _ None l) as [q|] eqn:E.
  - destruct IH as [Hq Hmin]. destruct (Z.ltb_spec p.1 q.1).
    + split; [left|]. intros r [->|Hr]%elem_of_cons; [lia|]. specialize (Hmin r Hr). lia.
    + split; [by right|]. intros r [->|Hr]%elem_of_cons; [lia|]. by apply Hmin.
  - subst. split; [left|]. intros r [->|Hr]%elem_of_cons; [lia|]. by apply not_elem_of_nil in Hr.
Qed.

Lemma rb_min_spec (m : gmap Z Z) :
  match rb_min m with
  | Some p => m !! p.1 = Some p.2 /\ forall k a, m !! k = Some a -> p.1 <= k
  | None => m = ∅
  end.
Proof.
  unfold rb_min. pose proof (rb_min_foldr (map_to_list m)) as H. cbv zeta in H.
  destruct (foldr _ None _) as [p|].
  - destruct H as [Hin Hmin]. split.
    + apply elem_of_map_to_list. by destruct p.
    + intros k a Hk. by apply (Hmin (k, a)), elem_of_map_to_list.
  - by apply map_to_list_empty_iff.
Qed.

(** The lru tree of a cache that holds unreferenced buffers only. *)
Lemma lowest_lru_spec n item lim c :
  cwf n item lim c ->
  match ext4_buf_lowest_lru c with
  | Some lba => exists b, c_lba_root c !! lba = Some b /\ b_refctr b = 0 /\
      forall a b', c_lba_root c !! a = Some b' -> b_refctr b' = 0 -> b_lru_id b <= b_lru_id b'
  | None => c_lru_root c = ∅
  end.
Proof.
  intros W. unfold ext4_buf_lowest_lru. pose proof (rb_min_spec (c_lru_root c)) as H.
  destruct (rb_min _) as [[k lba]|]; [|done]. cbn in *. destruct H as [Hk Hmin].
  destruct (cw_lru _ _ _ _ W k lba Hk) as (b & Hb & Ei & H0). exists b. split_and!; [done..|].
  intros a b' Hb' H0'. rewrite Ei. apply (Hmin _ a). by apply (bo_free _ _ _ _ _ _ (cw_buf _ _ _ _ W a b' Hb')).
Qed.
