(* ===== verification/CacheSpec.v ===== *)
(** * What the cached block operations do

    The contents of the volume as its clients see them ([view]), the buffers they
    hold ([held], [rdata]) and the specification of every operation of Bcache.v in
    these terms: no operation other than marking a buffer dirty changes the
    contents of any block, whatever the device does, and a write-back that fails
    is remembered. *)

From S2P Require Import Prelude Types Device Bcache BcacheLaws.

(** What a block holds, given its buffer and the medium: a dirty buffer is ahead of
    the medium. *)
Definition bview (ob : option buf) (dev : list Z) : list Z :=
  match ob with
  | Some b => if utd b && drt b then b_data b else dev
  | None => dev
  end.
(** A clean buffer has what the medium has. *)
Definition bsync (ob : option buf) (dev : list Z) : Prop :=
  match ob with
  | Some b => utd b = true -> drt b = false -> b_data b = dev
  | None => True
  end.
(** A buffer nobody holds that is ahead of the medium is on the dirty list, or the
    error that kept it from the medium is latched. *)
Definition bdurable (ob : option buf) (io_err : Z) : Prop :=
  match ob with
  | Some b => b_refctr b = 0 -> drt b = true -> b_on_dirty_list b = true \/ io_err <> EOK
  | None => True
  end.

Section Spec.
Context {D : Type} {HD : Host D} {ph : Z} {HL : HostLaws D ph}.
Context (end_write : Z -> Z -> Z -> bdev D -> bdev D).
Implicit Types (s : bdev D).

Definition bufs s (a : Z) : option buf := c_lba_root (v_bc s) !! a.
Definition view s (a : Z) : list Z := bview (bufs s a) (dblk (v_dev s) a).
Definition sync s (a : Z) : Prop := bsync (bufs s a) (dblk (v_dev s) a).
Definition held s (a : Z) : Z := match bufs s a with Some b => b_refctr b | None => 0 end.
Definition rdata s (a : Z) : list Z := match bufs s a with Some b => b_data b | None => [] end.
Definition durable s (a : Z) : Prop := bdurable (bufs s a) (c_io_err (v_bc s)).

Definition swf (n : Z) s : Prop :=
  dev_ok (ph := ph) (v_dev s) /\ geom_ok (ph := ph) (v_dev s) /\
  cwf n (d_lg_bsize (v_dev s)) (d_lg_bcnt (v_dev s)) (v_bc s).

(** Nothing a client can see changes. *)
Record quiet s s' : Prop := {
  q_cfg : dcfg (v_dev s') = dcfg (v_dev s);
  q_wb : v_cache_write_back s' = v_cache_write_back s;
  q_shake : c_dont_shake (v_bc s') = c_dont_shake (v_bc s);
  q_err : c_io_err (v_bc s) <> EOK -> c_io_err (v_bc s') = c_io_err (v_bc s);
  q_view a : view s' a = view s a;
  q_sync a : sync s a -> sync s' a;
}.

(** ... and no write-back is forgotten either. *)
Definition calm s s' : Prop := quiet s s' /\ forall a, durable s a -> durable s' a.

Lemma quiet_refl s : quiet s s.
Proof. by split. Qed.
Lemma calm_refl s : calm s s.
Proof. split; [apply quiet_refl|done]. Qed.
Lemma quiet_trans s1 s2 s3 : quiet s1 s2 -> quiet s2 s3 -> quiet s1 s3.
Proof.
  intros [A1 A2 A3 A4 A5 A6] [B1 B2 B3 B4 B5 B6]. split; try congruence; auto.
  intros He. rewrite B4; rewrite A4; done.
Qed.
Lemma calm_trans s1 s2 s3 : calm s1 s2 -> calm s2 s3 -> calm s1 s3.
Proof. intros [Q1 K1] [Q2 K2]. split; [by eapply quiet_trans|auto]. Qed.

Lemma swf_cfg s s' n n' :
  dcfg (v_dev s') = dcfg (v_dev s) -> swf n s ->
  cwf n' (d_lg_bsize (v_dev s)) (d_lg_bcnt (v_dev s)) (v_bc s') -> swf n' s'.
Proof.
  intros C (W1 & W2 & W3) W'. pose proof C as C'. unfold dcfg in C'.
  injection C' as _ _ _ _ C5 C6. split_and!.
  - by apply (dev_ok_cfg (v_dev s)).
  - by apply (geom_ok_cfg (v_dev s)).
  - by rewrite C5, C6.
Qed.

(** A step that changes one buffer and its block. *)
Lemma quiet_put s s' lba ob :
  dcfg (v_dev s') = dcfg (v_dev s) -> v_cache_write_back s' = v_cache_write_back s ->
  c_dont_shake (v_bc s') = c_dont_shake (v_bc s) ->
  (c_io_err (v_bc s) <> EOK -> c_io_err (v_bc s') = c_io_err (v_bc s)) ->
  c_lba_root (v_bc s') = put lba ob (c_lba_root (v_bc s)) ->
  (forall a, a <> lba -> dblk (v_dev s') a = dblk (v_dev s) a) ->
  bview ob (dblk (v_dev s') lba) = view s lba ->
  (sync s lba -> bsync ob (dblk (v_dev s') lba)) ->
  quiet s s' /\
  (forall a, a <> lba -> durable s a -> durable s' a) /\
  ((durable s lba -> bdurable ob (c_io_err (v_bc s'))) -> calm s s').
Proof.
  intros C Ew Es Ee Er Hd Hv Hs.
  assert (Hb : forall a, bufs s' a = if decide (a = lba) then ob else bufs s a).
  { intros a. unfold bufs. rewrite Er. apply lookup_put. }
  assert (Hq : quiet s s').
  { split; try done.
    - intros a. unfold view at 1. rewrite Hb. case_decide as Ea; [by subst|]. by rewrite Hd.
    - intros a Ha. unfold sync. rewrite Hb. case_decide as Ea; [subst; by apply Hs|].
      rewrite Hd by done. exact Ha. }
  assert (Hk : forall a, a <> lba -> durable s a -> durable s' a).
  { intros a Ea Hds. unfold durable in *. rewrite Hb, decide_False by done.
    destruct (bufs s a) as [b|]; [|done]. cbn in *. intros H0 H1.
    destruct (Hds H0 H1) as [?|He]; [by left|right]. by rewrite Ee. }
  split_and!; [done..|]. intros Hdur. split; [done|]. intros a Ha.
  destruct (decide (a = lba)) as [->|Ea]; [|by apply Hk].
  unfold durable. rewrite Hb, decide_True by done. by apply Hdur.
Qed.

Lemma wp_on_dev {A} (m : M (dev D) A) s Q :
  wp m (v_dev s) (fun r d => Q r (mk_bdev d (v_cache_write_back s) (v_bc s))) ->
  wp (on_dev m) s Q.
Proof. unfold wp, on_dev. by destruct (m (v_dev s)). Qed.

Lemma wp_bc_get {A} (f : bcache -> A) s (Q : result A -> bdev D -> Prop) :
  Q (Ok (f (v_bc s))) s -> wp (bc_get f) s Q.
Proof. done. Qed.
Lemma wp_bc_mod (f : bcache -> bcache) s (Q : result unit -> bdev D -> Prop) :
  Q (Ok tt) (v_on_bc f s) -> wp (bc_mod f) s Q.
Proof. done. Qed.

Lemma swf_buf n s a b :
  swf n s -> bufs s a = Some b ->
  buf_ok n (d_lg_bsize (v_dev s)) (d_lg_bcnt (v_dev s)) (v_bc s) a b.
Proof. intros (_ & _ & W) Hb. by apply (cw_buf _ _ _ _ W). Qed.

Lemma call_end_write_none lba rc s n :
  swf n s -> call_end_write end_write lba rc s = (Ok tt, s).
Proof.
  intros W. unfold call_end_write, mbnd, bc_get, mget, ext4_buf_lookup.
  destruct (c_lba_root (v_bc s) !! lba) as [b|] eqn:Eb; [|done].
  pose proof (bo_end _ _ _ _ _ _ (swf_buf n s lba b W Eb)) as He. destruct b. cbn in He. by subst.
Qed.

(** The references and the data of every buffer stay. *)
Definition same_hold s s' : Prop :=
  forall a, held s' a = held s a /\ rdata s' a = rdata s a.

(** [ext4_block_flush_buf]: nothing visible changes; on success the buffer is
    clean, on failure the cache is exactly as it was. *)
Lemma flush_buf_wp n s lba b :
  swf n s -> bufs s lba = Some b ->
  wp (ext4_block_flush_buf end_write lba) s (fun r s' =>
    swf n s' /\ calm s s' /\
    match r with
    | Ok _ => exists b', bufs s' lba = Some b' /\ drt b' = false /\ utd b' = utd b /\
                b_refctr b' = b_refctr b /\ b_data b' = b_data b /\
                c_lba_root (v_bc s') = put lba (Some b') (c_lba_root (v_bc s)) /\
                c_io_err (v_bc s') = c_io_err (v_bc s) /\
                c_lru_root (v_bc s') = c_lru_root (v_bc s) /\
                (forall a, a ∈ c_dirty_list (v_bc s') <-> a ∈ c_dirty_list (v_bc s) /\ a <> lba)
    | Err rc => rc <> EOK /\ v_bc s' = v_bc s
    end).
Proof.
  intros W Hb. pose proof (swf_buf n s lba b W Hb) as [B1 B2 B3 B4 B5 B6 B7 B8 B9 B10].
  pose proof W as (W1 & W2 & W3).
  unfold ext4_block_flush_buf. wp_step. apply wp_bc_get. unfold ext4_buf_lookup.
  fold (bufs s lba). rewrite Hb. fold (drt b) (utd b). destruct (drt b) eqn:Ed; cbn [andb].
  2: { wp_step. split_and!; [done|apply calm_refl|]. exists b. split_and!; try done.
       - by rewrite put_same.
       - intros a. split; [|tauto]. intros Ha. split; [done|]. intros ->.
         destruct (cw_dirty_in _ _ _ _ W3 lba Ha) as (b0 & Hb0 & Ho).
         assert (b0 = b) as -> by (unfold bufs in Hb; congruence). by destruct (B9 Ho) as (_ & ? & _). }
  rewrite (B10 eq_refl). wp_step. wp_step. apply wp_on_dev.
  eapply wp_mono; [by apply (set_direct_wp _ lba (b_data b))|]. cbv beta. intros r d' (C & O & R).
  set (s1 := mk_bdev d' (v_cache_write_back s) (v_bc s)).
  assert (Wn : swf n s1) by (by apply (swf_cfg s s1 n n)).
  destruct r as [[]|rc].
  - wp_step. apply wp_bc_mod. wp_step. apply wp_bc_mod.
    destruct (clean_shape n _ _ (v_bc s) lba b W3 Hb) as (E1 & E2 & E3 & E4 & E5 & E6).
    set (s2 := v_on_bc _ (v_on_bc _ s1)).
    assert (W2' : swf n s2) by (by apply (swf_cfg s s2 n n)).
    unfold wp. rewrite (call_end_write_none lba EOK s2 n W2'). split_and!; [done| |].
    + apply (quiet_put s s2 lba (Some (cleaned b))); try done.
      * cbn [bview]. rewrite utd_cleaned, drt_cleaned, (B10 eq_refl). cbn [andb].
        unfold view. rewrite Hb. cbn [bview]. by rewrite Ed, (B10 eq_refl).
      * intros _ _ _. by symmetry.
      * intros _ _ Hf. by rewrite drt_cleaned in Hf.
    + exists (cleaned b). split_and!; try done.
      * unfold bufs. change (v_bc s2) with (bc_clean lba (v_bc s)).
        by rewrite E1, lookup_put, decide_True.
      * apply drt_cleaned.
      * rewrite utd_cleaned. by apply B10.
  - apply wp_bind. unfold wp at 1. rewrite (call_end_write_none lba rc s1 n Wn). wp_step.
    split_and!; try done. apply (quiet_put s s1 lba (Some b)); try done.
    + by rewrite put_same.
    + unfold view. rewrite Hb. cbn [bview]. by rewrite Ed, (B10 eq_refl).
    + intros _ _ Hf. congruence.
    + intros Hdur. unfold durable in Hdur. by rewrite Hb in Hdur.
Qed.

(** A change of the cache that leaves the device alone. *)
Lemma bc_put n n' s f lba ob :
  swf n s -> cwf n' (d_lg_bsize (v_dev s)) (d_lg_bcnt (v_dev s)) (f (v_bc s)) ->
  c_lba_root (f (v_bc s)) = put lba ob (c_lba_root (v_bc s)) ->
  c_io_err (f (v_bc s)) = c_io_err (v_bc s) ->
  c_dont_shake (f (v_bc s)) = c_dont_shake (v_bc s) ->
  bview ob (dblk (v_dev s) lba) = view s lba ->
  (sync s lba -> bsync ob (dblk (v_dev s) lba)) ->
  let s' := v_on_bc f s in
  swf n' s' /\ quiet s s' /\ bufs s' lba = ob /\ (forall a, a <> lba -> bufs s' a = bufs s a) /\
  (forall a, a <> lba -> durable s a -> durable s' a) /\
  ((durable s lba -> bdurable ob (c_io_err (v_bc s))) -> calm s s').
Proof.
  intros W W' Er Ei Es Hv Hs. cbv zeta.
  destruct (quiet_put s (v_on_bc f s) lba ob) as (Q & K & C); try done.
  split_and!; try done.
  - by apply (swf_cfg s _ n n').
  - unfold bufs. cbn. by rewrite Er, lookup_put, decide_True.
  - intros a Ha. unfold bufs. cbn. by rewrite Er, lookup_put, decide_False.
  - intros Hd. apply C. cbn. by rewrite Ei.
Qed.

Lemma held_bufs s s' a : bufs s' a = bufs s a -> held s' a = held s a /\ rdata s' a = rdata s a.
Proof. unfold held, rdata. by intros ->. Qed.

(** Dropping a buffer that is not ahead of the medium. *)
Lemma drop_spec n s lba b :
  swf n s -> bufs s lba = Some b -> utd b && drt b = false ->
  let s' := v_on_bc (ext4_bcache_drop_buf lba) s in
  swf n s' /\ calm s s' /\ bufs s' lba = None /\ (forall a, a <> lba -> bufs s' a = bufs s a).
Proof.
  intros W Hb Hc. pose proof W as (_ & _ & W3).
  destruct (drop_shape n _ _ (v_bc s) lba b W3 Hb) as (E1 & E2 & E3 & _ & _ & E6).
  destruct (bc_put n n s (ext4_bcache_drop_buf lba) lba None W E6 E1 E2 E3)
    as (P1 & P2 & P3 & P4 & P5 & P6); [|done|split_and!; try done; by apply P6].
  unfold view. rewrite Hb. cbn [bview]. by rewrite Hc.
Qed.

Lemma wp_buf_flag lba k s b (Q : result bool -> bdev D -> Prop) :
  bufs s lba = Some b -> Q (Ok (ext4_bcache_test_flag b k)) s -> wp (buf_flag lba k) s Q.
Proof. intros Hb HQ. apply wp_bc_get. unfold ext4_buf_lookup. fold (bufs s lba). by rewrite Hb. Qed.

Lemma cwf_io_err n item lim e c : cwf n item lim c -> cwf n item lim (c_set_io_err e c).
Proof.
  intros [W1 W2 W3 W4 W5 W6 W7 W8]. split; try done.
  intros a b Hb. by destruct (W4 a b Hb).
Qed.
Lemma cwf_dont_shake n item lim e c : cwf n item lim c -> cwf n item lim (c_set_dont_shake e c).
Proof.
  intros [W1 W2 W3 W4 W5 W6 W7 W8]. split; try done.
  intros a b Hb. by destruct (W4 a b Hb).
Qed.

(** The latch keeps the first error. *)
Lemma latch_wp n s (r : result unit) :
  swf n s -> (forall rc, r = Err rc -> rc <> EOK) ->
  wp (latch_io_err r) s (fun r' s' =>
    r' = Ok tt /\ swf n s' /\ calm s s' /\ (forall a, bufs s' a = bufs s a) /\
    v_dev s' = v_dev s /\
    match r with Ok _ => s' = s | Err _ => c_io_err (v_bc s') <> EOK end).
Proof.
  intros W Hr. destruct r as [[]|rc]; cbn [latch_io_err].
  - wp_step. split_and!; try done; apply calm_refl.
  - apply wp_bc_mod. destruct (Z.eqb_spec (c_io_err (v_bc s)) EOK) as [E|E].
    + set (s' := v_on_bc _ s). assert (Es : v_bc s' = c_set_io_err rc (v_bc s)).
      { unfold s'. cbn. by rewrite E. }
      assert (Hb : forall a, bufs s' a = bufs s a) by (intros a; unfold bufs; by rewrite Es).
      split_and!; try done.
      * apply (swf_cfg s s' n n); try done. rewrite Es. apply cwf_io_err, W.
      * split; [split|]; try done.
        -- by rewrite Es.
        -- intros a. unfold view. by rewrite Hb.
        -- intros a. unfold sync. by rewrite Hb.
        -- intros a Ha. unfold durable in *. rewrite Hb. destruct (bufs s a); [|done].
           intros ??. right. rewrite Es. cbn. by apply Hr.
      * rewrite Es. cbn. by apply Hr.
    + assert (Es : v_on_bc (fun c => if c_io_err c =? EOK then c_set_io_err rc c else c) s = s).
      { unfold v_on_bc. replace (c_io_err (v_bc s) =? EOK) with false by lia. by destruct s. }
      rewrite Es. split_and!; try done; apply calm_refl.
Qed.

(** A flag that is neither up-to-date nor dirty. *)
Lemma clear_flush_spec n s lba b :
  swf n s -> bufs s lba = Some b ->
  let s' := v_on_bc (on_buf lba (ext4_bcache_clear_flag BC_FLUSH)) s in
  swf n s' /\ calm s s' /\ bufs s' lba = Some (ext4_bcache_clear_flag BC_FLUSH b) /\
  (forall a, a <> lba -> bufs s' a = bufs s a).
Proof.
  intros W Hb. pose proof (swf_buf n s lba b W Hb) as [B1 B2 B3 B4 B5 B6 B7 B8 B9 B10].
  pose proof W as (_ & _ & W3). set (f := ext4_bcache_clear_flag BC_FLUSH).
  assert (Hu : utd (f b) = utd b) by (unfold utd, f; rewrite test_clear_flag by done; apply andb_true_r).
  assert (Hd : drt (f b) = drt b) by (unfold drt, f; rewrite test_clear_flag by done; apply andb_true_r).
  destruct (bc_put n n s (on_buf lba f) lba (Some (f b)) W) as (P1 & P2 & P3 & P4 & P5 & P6); try done.
  - apply (cwf_on_buf n _ _ (v_bc s) lba b W3 Hb f); try done.
    + unfold f. rewrite test_clear_flag by done. by apply andb_false_intro1.
    + by rewrite Hu, Hd.
    + rewrite Hd. intros Ho. by destruct (B9 Ho) as (_ & ? & _).
  - by apply alter_as_put.
  - unfold view. rewrite Hb. cbn [bview]. by rewrite Hu, Hd.
  - unfold sync. rewrite Hb. cbn [bsync]. by rewrite Hu, Hd.
  - split_and!; try done. apply P6. unfold durable. rewrite Hb. cbn [bdurable]. by rewrite Hd.
Qed.

(** The buffer of [lba], which nobody holds, after the last release: written,
    or queued, or its error latched; and gone if it was not up to date. *)
Record settled s s' (lba : Z) : Prop := {
  st_quiet : quiet s s';
  st_other a : a <> lba -> bufs s' a = bufs s a /\ (durable s a -> durable s' a);
  st_durable : durable s' lba;
  st_held : held s' lba = 0;
  st_now : v_cache_write_back s = 0 -> c_io_err (v_bc s') = EOK ->
           dblk (v_dev s') lba = view s' lba;
}.

(** The flush of a release, for a buffer that is ahead of the medium. *)
Lemma free_flush_wp n s lba b :
  swf n s -> bufs s lba = Some b -> b_refctr b = 0 -> utd b = true -> drt b = true ->
  wp (r <- mtry (ext4_block_flush_buf end_write lba);;
      latch_io_err r;;;
      bc_mod (on_buf lba (ext4_bcache_clear_flag BC_FLUSH))) s (fun r s' =>
    r = Ok tt /\ swf n s' /\ settled s s' lba /\
    exists b', bufs s' lba = Some b' /\ utd b' = true).
Proof.
  intros W Hb H0 Hu Hd. wp_step. wp_step.
  eapply wp_mono; [by apply (flush_buf_wp n s lba b)|]. cbv beta. intros r s1 (W1 & C1 & R).
  assert (Hb1 : exists b1, bufs s1 lba = Some b1 /\ utd b1 = true /\ b_refctr b1 = 0 /\
    (forall a, a <> lba -> bufs s1 a = bufs s a) /\
    match r with Ok _ => drt b1 = false | Err rc => rc <> EOK end).
  { destruct r as [[]|rc].
    - destruct R as (b1 & E1 & E2 & E3 & E4 & _ & E6 & _). exists b1. split_and!; try done; try congruence.
      intros a Ha. unfold bufs. by rewrite E6, lookup_put, decide_False.
    - destruct R as (E1 & E2). exists b. unfold bufs. by rewrite E2. }
  destruct Hb1 as (b1 & Hb1 & Hu1 & H01 & Ho1 & Hr1).
  wp_step. eapply wp_mono; [apply (latch_wp n s1); [done|by intros rc ->]|]. cbv beta.
  intros r2 s2 (-> & W2 & C2 & Hb2 & Hdev & R2). apply wp_bc_mod.
  destruct (clear_flush_spec n s2 lba b1 W2 ltac:(by rewrite Hb2)) as (W3 & C3 & Hb3 & Ho3).
  set (s3 := v_on_bc _ s2) in *.
  pose proof (calm_trans _ _ _ C1 (calm_trans _ _ _ C2 C3)) as [Q K].
  assert (Hd3 : drt (ext4_bcache_clear_flag BC_FLUSH b1) = drt b1).
  { unfold drt. rewrite test_clear_flag by done. apply andb_true_r. }
  assert (Hu3 : utd (ext4_bcache_clear_flag BC_FLUSH b1) = true).
  { unfold utd. rewrite test_clear_flag by done. fold (utd b1). by rewrite Hu1. }
  assert (He3 : r = Ok tt \/ c_io_err (v_bc s3) <> EOK).
  { destruct r as [[]|rc]; [by left|right]. exact R2. }
  split_and!; [done..| |by eexists]. split; [done| | | |].
  - intros a Ha. rewrite Ho3, Hb2, Ho1 by done. split; [done|apply K].
  - unfold durable. rewrite Hb3. intros _. rewrite Hd3. intros Hd1. right.
    destruct He3 as [->|He3]; [congruence|done].
  - unfold held. by rewrite Hb3.
  - intros _ He. destruct He3 as [->|He3]; [|done]. unfold view. rewrite Hb3. cbn [bview].
    by rewrite Hd3, Hr1, andb_false_r.
Qed.

Lemma insert_dirty_spec n s lba b :
  swf n s -> bufs s lba = Some b -> b_refctr b = 0 -> drt b = true ->
  let s' := v_on_bc (ext4_bcache_insert_dirty_node lba) s in
  swf n s' /\ calm s s' /\ bufs s' lba = Some (buf_set_on_dirty true b) /\
  (forall a, a <> lba -> bufs s' a = bufs s a).
Proof.
  intros W Hb H0 Hd. pose proof W as (_ & _ & W3).
  destruct (insert_dirty_shape n _ _ (v_bc s) lba b W3 Hb H0 Hd) as (E1 & E2 & E3 & _ & E5).
  destruct (bc_put n n s (ext4_bcache_insert_dirty_node lba) lba (Some (buf_set_on_dirty true b)) W E5 E1 E2 E3)
    as (P1 & P2 & P3 & P4 & P5 & P6).
  - unfold view. by rewrite Hb.
  - unfold sync. by rewrite Hb.
  - split_and!; try done. apply P6. intros _ _ _. by left.
Qed.

Lemma free_last_wp n s0 lba b :
  let s := v_on_bc (lru_insert (b_lru_id b) lba) s0 in
  swf n s -> bufs s lba = Some b -> b_refctr b = 0 ->
  wp (bcache_free_last end_write lba b) s0 (fun r s' =>
    r = Ok tt /\ swf n s' /\ settled s s' lba /\ (utd b = false -> bufs s' lba = None)).
Proof.
  cbv zeta. intros W Hb H0. pose proof (swf_buf n _ lba b W Hb) as [B1 B2 B3 B4 B5 B6 B7 B8 B9 B10].
  unfold bcache_free_last. wp_step. apply wp_bc_mod. set (s := v_on_bc _ s0) in *. wp_step.
  fold (drt b) (utd b).
  eapply (wp_mono _ _ (fun r s' => r = Ok tt /\ swf n s' /\
    (utd b = true -> settled s s' lba /\ exists b', bufs s' lba = Some b' /\ utd b' = true) /\
    (utd b = false -> s' = s))).
  - destruct (drt b) eqn:Ed; cbn [andb].
    + rewrite (B10 eq_refl). wp_step. wp_step. wp_step.
      * apply wp_bc_mod. destruct (insert_dirty_spec n s lba b W Hb H0 Ed) as (W2 & [Q K] & Hb2 & Ho2).
        split_and!; try done. intros _. split; [|exists (buf_set_on_dirty true b); auto]. split; try done.
        -- intros a Ha. rewrite Ho2 by done. auto.
        -- unfold durable. rewrite Hb2. intros _ _. by left.
        -- unfold held. by rewrite Hb2.
        -- intros Hwb. rewrite Hwb in *. done.
      * eapply wp_mono; [apply (free_flush_wp n s lba b); auto|]. cbv beta.
        intros r s2 (-> & W2 & S2 & Hb2). split_and!; try done.
    + wp_step. split_and!; try done. intros Hu. split; [|by exists b].
      split; try done.
      * unfold durable. rewrite Hb. intros _ Hf. congruence.
      * unfold held. by rewrite Hb.
      * intros _ _. unfold view. rewrite Hb. cbn [bview]. by rewrite Ed, andb_false_r.
  - cbv beta. intros r s2 (-> & W2 & Hyes & Hno). cbv iota. wp_step.
    destruct (utd b) eqn:Eu.
    + destruct (Hyes eq_refl) as (S2 & b2 & Hb2 & Hu2).
      apply (wp_buf_flag _ _ _ b2); [done|]. fold (utd b2). rewrite Hu2. wp_step.
      apply (wp_buf_flag _ _ _ b2); [done|].
      rewrite (bo_tmp _ _ _ _ _ _ (swf_buf n s2 lba b2 W2 Hb2)). cbn [negb orb].
      wp_step. by split_and!.
    + rewrite (Hno eq_refl) in *. apply (wp_buf_flag _ _ _ b); [done|]. fold (utd b). rewrite Eu.
      wp_step. apply (wp_buf_flag _ _ _ b); [done|]. cbn [negb orb]. apply wp_bc_mod.
      destruct (drop_spec n s lba b W Hb ltac:(by rewrite Eu)) as (W3 & [Q K] & Hb3 & Ho3).
      split_and!; try done. split; try done.
      * intros a Ha. rewrite Ho3 by done. auto.
      * unfold durable. by rewrite Hb3.
      * unfold held. by rewrite Hb3.
      * intros _ _. unfold view. by rewrite Hb3.
Qed.

(** [ext4_bcache_free]: one reference less; nothing visible changes, and a
    buffer nobody holds any more is on the medium, on its way there, or its
    error is latched. *)
Lemma bcache_free_wp n s lba b :
  swf n s -> bufs s lba = Some b -> 0 < b_refctr b ->
  wp (ext4_bcache_free end_write lba) s (fun r s' =>
    r = Ok tt /\ swf n s' /\ quiet s s' /\ held s' lba = held s lba - 1 /\
    (forall a, a <> lba -> bufs s' a = bufs s a) /\ (forall a, durable s a -> durable s' a) /\
    (1 < b_refctr b -> rdata s' lba = rdata s lba) /\
    (b_refctr b = 1 -> settled s s' lba /\ (utd b = false -> bufs s' lba = None))).
Proof.
  intros W Hb Hr. pose proof (swf_buf n s lba b W Hb) as [B1 B2 B3 B4 B5 B6 B7 B8 B9 B10].
  pose proof W as (_ & _ & W3).
  destruct (release_shape n _ _ (v_bc s) lba b W3 Hb Hr) as (E1 & E2 & E3 & E4 & E5).
  set (b1 := buf_set_refctr (b_refctr b - 1) b) in *.
  assert (Hdec : ext4_bcache_dec_ref b = b1).
  { unfold ext4_bcache_dec_ref. destruct (cw_budget _ _ _ _ W3) as (? & ? & ?).
    by rewrite u32_id by lia. }
  destruct (bc_put n n s (released lba b) lba (Some b1) W E5 E1 E2 E3) as (P1 & P2 & P3 & P4 & P5 & P6).
  { unfold view. by rewrite Hb. }
  { unfold sync. by rewrite Hb. }
  assert (Hh : held s lba = b_refctr b) by (unfold held; by rewrite Hb).
  unfold ext4_bcache_free. wp_step. apply wp_bc_mod. wp_step. apply wp_bc_get.
  set (s0 := v_on_bc _ s). assert (H0 : ext4_buf_lookup (v_bc s0) lba = Some b1).
  { unfold ext4_buf_lookup, s0. cbn.
    rewrite lookup_alter_eq. unfold bufs in Hb. rewrite Hb. cbn. by rewrite Hdec. }
  rewrite H0. cbn [b_refctr b1 buf_set_refctr]. destruct (Z.eqb_spec (b_refctr b - 1) 0) as [Hz|Hz]; cbn [negb].
  - set (s1 := v_on_bc (released lba b) s) in *.
    assert (Es : v_on_bc (lru_insert (b_lru_id b1) lba) s0 = s1).
    { unfold s1, s0, released. by replace (b_refctr b =? 1) with true by lia. }
    pose proof (free_last_wp n s0 lba b1) as Hl. cbv zeta in Hl. rewrite Es in Hl.
    eapply wp_mono; [by apply Hl|]. cbv beta.
    intros r s2 (-> & W2 & [Q2 O2 D2 H2 N2] & Hn).
    assert (Q : quiet s s2) by (by eapply quiet_trans).
    assert (O : forall a, a <> lba -> bufs s2 a = bufs s a /\ (durable s a -> durable s2 a)).
    { intros a Ha. destruct (O2 a Ha) as [-> K2]. rewrite P4 by done. auto. }
    split_and!; try done; try lia.
    + intros a Ha. by apply O.
    + intros a Ha. destruct (decide (a = lba)) as [->|Hne]; [done|by apply O].
  - wp_step. assert (Es : s0 = v_on_bc (released lba b) s).
    { unfold s0, released. by replace (b_refctr b =? 1) with false by lia. }
    rewrite Es. destruct P6 as [_ K]; [intros _ Hf; cbn in Hf; lia|].
    split_and!; try done; try lia.
    + unfold held. rewrite P3, Hb. done.
    + intros _. unfold rdata. by rewrite P3, Hb.
Qed.

(** What another client's buffers and references become: nothing. *)
Definition others s s' : Prop :=
  forall a, held s' a = held s a /\ (0 < held s a -> bufs s' a = bufs s a).

Lemma others_refl s : others s s.
Proof. done. Qed.
Lemma others_trans s1 s2 s3 : others s1 s2 -> others s2 s3 -> others s1 s3.
Proof.
  intros H1 H2 a. destruct (H1 a) as [E1 F1], (H2 a) as [E2 F2]. split; [congruence|].
  intros Ha. rewrite F2, F1 by lia. done.
Qed.

Lemma shake_loop_wp fuel n s :
  swf n s ->
  wp (cache_shake_loop end_write fuel) s (fun r s' =>
    swf n s' /\ calm s s' /\ others s s' /\
    match r with
    | Ok _ => (size (c_lru_root (v_bc s)) < fuel)%nat ->
              c_lru_root (v_bc s') = ∅ \/ ext4_bcache_is_full (v_bc s') = false
    | Err rc => rc <> EOK
    end).
Proof.
  revert s. induction fuel as [|fuel IH]; intros s W; cbn [cache_shake_loop].
  { wp_step. split_and!; [done|apply calm_refl|done|lia]. }
  pose proof W as (_ & _ & W3). wp_step. apply wp_bc_get. wp_step. apply wp_bc_get.
  pose proof (lowest_lru_spec _ _ _ _ W3) as Hlow.
  destruct (ext4_buf_lowest_lru (v_bc s)) as [lba|].
  2: { wp_step. split_and!; [done|apply calm_refl|done|by left]. }
  destruct Hlow as (b & Hb & H0 & _). fold (bufs s lba) in Hb.
  destruct (ext4_bcache_is_full (v_bc s)) eqn:Ef.
  2: { wp_step. split_and!; [done|apply calm_refl|done|by right]. }
  wp_step. apply (wp_buf_flag _ _ _ b); [done|]. wp_step. fold (drt b).
  eapply (wp_mono _ _ (fun r s' => swf n s' /\ calm s s' /\ others s s' /\
    match r with
    | Ok _ => (exists b', bufs s' lba = Some b' /\ drt b' = false /\ b_refctr b' = 0) /\
              c_lru_root (v_bc s') = c_lru_root (v_bc s)
    | Err rc => rc <> EOK
    end)).
  { destruct (drt b) eqn:Ed; [|wp_step; split_and!; [done|apply calm_refl|done|by exists b|done]].
    eapply wp_mono; [by apply (flush_buf_wp n s lba b)|]. cbv beta. intros r s1 (W1 & C1 & R).
    split_and!; [done..| |].
    - intros a. destruct r as [[]|rc].
      + destruct R as (b1 & E1 & _ & _ & E4 & E5 & E6 & _). destruct (decide (a = lba)) as [->|Ha].
        * unfold held. rewrite E1, Hb, E4. split; [done|lia].
        * assert (Ea : bufs s1 a = bufs s a) by (unfold bufs; by rewrite E6, lookup_put, decide_False).
          unfold held. by rewrite Ea.
      + destruct R as (_ & E). unfold held, bufs. by rewrite E.
    - destruct r as [[]|rc]; [|by destruct R].
      destruct R as (b1 & E1 & E2 & _ & E4 & _ & _ & _ & E8 & _). split; [|done].
      exists b1. split_and!; congruence. }
  cbv beta. intros r s1 (W1 & C1 & O1 & R). destruct r as [[]|rc]; [|by split_and!].
  destruct R as [(b1 & Hb1 & Hd1 & H01) El]. wp_step. apply wp_bc_mod.
  destruct (drop_spec n s1 lba b1 W1 Hb1) as (W2 & C2 & Hb2 & Ho2); [by rewrite Hd1, andb_false_r|].
  set (s2 := v_on_bc _ s1) in *.
  assert (O2 : others s1 s2).
  { intros a. destruct (decide (a = lba)) as [->|Ha].
    - unfold held. rewrite Hb2, Hb1. split; [done|lia].
    - unfold held. by rewrite Ho2. }
  pose proof (drop_lru_size _ _ _ _ lba b1 (proj2 (proj2 W1)) Hb1 H01) as Hsz.
  eapply wp_mono; [by apply IH|]. cbv beta. intros r s3 (W3' & C3 & O3 & R3).
  split_and!; [done|by eapply calm_trans, calm_trans| by eapply others_trans, others_trans|].
  destruct r as [[]|rc]; [|done]. intros Hf. apply R3. unfold s2. cbn. rewrite El in Hsz. lia.
Qed.

(** [ext4_block_cache_shake] ends, with room in the cache or nothing left to
    evict, unless a write-back failed. *)
Lemma shake_wp n s :
  swf n s -> c_dont_shake (v_bc s) = false ->
  wp (ext4_block_cache_shake end_write) s (fun r s' =>
    swf n s' /\ calm s s' /\ others s s' /\
    match r with
    | Ok _ => c_lru_root (v_bc s') = ∅ \/ ext4_bcache_is_full (v_bc s') = false
    | Err rc => rc <> EOK
    end).
Proof.
  intros W Hs. unfold ext4_block_cache_shake. wp_step. apply wp_bc_get. rewrite Hs.
  wp_step. apply wp_bc_mod. set (s1 := v_on_bc _ s). wp_step. apply wp_bc_get. wp_step. wp_step.
  assert (W1 : swf n s1) by (apply (swf_cfg s s1 n n); [done..|]; apply cwf_dont_shake, W).
  eapply wp_mono; [by apply (shake_loop_wp _ n s1)|]. cbv beta. intros r s2 (W2 & [Q2 K2] & O2 & R2).
  wp_step. apply wp_bc_mod. set (s3 := v_on_bc _ s2).
  assert (W3 : swf n s3) by (apply (swf_cfg s2 s3 n n); [done..|]; apply cwf_dont_shake, W2).
  destruct Q2 as [A1 A2 A3 A4 A5 A6].
  assert (C : calm s s3) by (split; [split; try done|done]).
  destruct r as [[]|rc]; wp_step; split_and!; try done. apply R2. cbn. lia.
Qed.

Definition in_range s (lba : Z) : Prop := 0 <= lba < d_lg_bcnt (v_dev s).

Lemma wp_malloc s k :
  0 <= k ->
  wp (on_dev (on_host (h_malloc k))) s (fun r s' =>
    v_bc s' = v_bc s /\ v_cache_write_back s' = v_cache_write_back s /\
    dcfg (v_dev s') = dcfg (v_dev s) /\ (forall a, dblk (v_dev s') a = dblk (v_dev s) a) /\
    match r with Ok bs => blen bs = k /\ bytes_ok bs | Err rc => rc <> EOK end).
Proof.
  intros Hk. apply wp_on_dev. unfold wp, on_host.
  pose proof (h_malloc_spec k (d_host (v_dev s)) Hk) as Hm.
  destruct (h_malloc k (d_host (v_dev s))) as [r h]. destruct Hm as [Hx Hr].
  split_and!; try done. intros a. by apply dblk_ext.
Qed.

(** A state with the same cache and the same blocks. *)
Lemma same_bc n s s' :
  swf n s -> v_bc s' = v_bc s -> v_cache_write_back s' = v_cache_write_back s ->
  dcfg (v_dev s') = dcfg (v_dev s) -> (forall a, dblk (v_dev s') a = dblk (v_dev s) a) ->
  swf n s' /\ calm s s' /\ forall a, bufs s' a = bufs s a.
Proof.
  intros W Eb Ew Ec Ed. assert (Hb : forall a, bufs s' a = bufs s a) by (intros; unfold bufs; by rewrite Eb).
  split_and!; [|split; [split|]|done]; try done; try (by rewrite Eb).
  - apply (swf_cfg s s' n n); try done. rewrite Eb. apply W.
  - intros a. unfold view. by rewrite Hb, Ed.
  - intros a. unfold sync. by rewrite Hb, Ed.
  - intros a. unfold durable. by rewrite Hb, Eb.
Qed.

(** [ext4_bcache_alloc]: one reference more to the buffer of [lba], which is new,
    and not up to date, unless it was cached. *)
Lemma alloc_wp n s lba :
  swf n s -> n + 1 < 2 ^ 32 -> in_range s lba ->
  wp (ext4_bcache_alloc lba) s (fun r s' =>
    calm s s' /\ (forall a, a <> lba -> bufs s' a = bufs s a) /\
    match r with
    | Ok is_new =>
        swf (n + 1) s' /\ exists b', bufs s' lba = Some b' /\ b_refctr b' = held s lba + 1 /\
        match bufs s lba with
        | Some b => is_new = false /\ b_flags b' = b_flags b /\ b_data b' = b_data b
        | None => is_new = true /\ utd b' = false
        end
    | Err rc => rc <> EOK /\ swf n s' /\ bufs s' lba = bufs s lba
    end).
Proof.
  intros W Hn Hr. pose proof W as (W1 & W2 & W3).
  unfold ext4_bcache_alloc. wp_step. apply wp_bc_get. cbv beta iota.
  destruct (bufs s lba) as [b|] eqn:Hb.
  - destruct (find_get_shape n _ _ (v_bc s) lba b W3 Hb Hn)
      as (E1 & E2 & E3 & _ & E5 & b' & E6 & E7 & E8 & E9).
    rewrite E1. wp_step. apply wp_bc_mod. wp_step.
    set (f := fun _ : bcache => snd (ext4_bcache_find_get lba (v_bc s))).
    assert (Hu : utd b' = utd b) by (unfold utd, ext4_bcache_test_flag; by rewrite E7).
    assert (Hd : drt b' = drt b) by (unfold drt, ext4_bcache_test_flag; by rewrite E7).
    destruct (bc_put n (n + 1) s f lba (Some b') W) as (P1 & P2 & P3 & P4 & P5 & P6); try done.
    { unfold view. rewrite Hb. cbn [bview]. by rewrite Hu, Hd, E8. }
    { unfold sync. rewrite Hb. cbn [bsync]. by rewrite Hu, Hd, E8. }
    split_and!; [|done|done|].
    + apply P6. intros _ Hz. pose proof (bo_ref _ _ _ _ _ _ (swf_buf n s lba b W Hb)). lia.
    + exists b'. unfold held. by rewrite Hb.
  - assert (Ef : ext4_bcache_find_get lba (v_bc s) = (false, v_bc s)).
    { unfold ext4_bcache_find_get, ext4_buf_lookup. unfold bufs in Hb. by rewrite Hb. }
    rewrite Ef. cbn [fst]. wp_step. apply wp_bc_get. rewrite (cw_item _ _ _ _ W3).
    wp_call wp_malloc; [destruct W2 as ((? & ?) & _); lia|]. intros r s1 (M1 & M2 & M3 & M4 & M5).
    destruct (same_bc n s s1 W M1 M2 M3 M4) as (Wn & C1 & B1).
    destruct r as [data|rc]; [|by rewrite B1].
    destruct M5 as [Hl Hok]. wp_step. apply wp_bc_mod. wp_step. apply wp_bc_mod.
    wp_step. apply wp_bc_mod. wp_step. apply wp_bc_mod. wp_step.
    pose proof M3 as M3'. unfold dcfg in M3'. injection M3' as _ _ _ _ G5 G6.
    destruct (alloc_shape n (d_lg_bsize (v_dev s1)) (d_lg_bcnt (v_dev s1)) (v_bc s1) lba data)
      as (E1 & E2 & E3 & _ & E5); try done.
    { apply Wn. } { by rewrite M1. } { by rewrite G6. } { by rewrite G5. }
    destruct (bc_put n (n + 1) s1 (allocated lba data) lba (Some (new_buf (v_bc s1) data)) Wn)
      as (P1 & P2 & P3 & P4 & P5 & P6); try done.
    { unfold view. by rewrite B1, Hb. }
    change (v_on_bc _ (v_on_bc _ (v_on_bc _ (v_on_bc _ s1)))) with (v_on_bc (allocated lba data) s1).
    split_and!; [|intros a Ha; by rewrite P4, B1|done|].
    + eapply calm_trans; [exact C1|]. by apply P6.
    + eexists. split; [exact P3|]. unfold held. by rewrite Hb.
Qed.

Lemma dcfg_lg (d d' : dev D) :
  dcfg d' = dcfg d -> d_lg_bsize d' = d_lg_bsize d /\ d_lg_bcnt d' = d_lg_bcnt d.
Proof. unfold dcfg. intros E. by injection E. Qed.

Lemma swf_mono n n' s : swf n s -> n <= n' < 2 ^ 32 -> swf n' s.
Proof. intros (W1 & W2 & W3) Hn. split_and!; try done. by apply (cwf_mono n). Qed.

(** Only the buffer of [lba] may be taken, given back or filled. *)
Definition others_but (lba : Z) s s' : Prop :=
  forall a, a <> lba -> held s' a = held s a /\ (0 < held s a -> bufs s' a = bufs s a).

(** One reference more to [lba]; a buffer that was held keeps its contents. *)
Definition grabbed (lba : Z) s s' : Prop :=
  exists b', bufs s' lba = Some b' /\ b_refctr b' = held s lba + 1 /\
    forall b, 0 < held s lba -> bufs s lba = Some b ->
      b_flags b' = b_flags b /\ b_data b' = b_data b.

Lemma grab_wp {A} n s lba (k : M (bdev D) A) Q :
  swf n s -> c_dont_shake (v_bc s) = false -> n + 1 < 2 ^ 32 -> in_range s lba ->
  (forall s', calm s s' -> swf (n + 1) s' -> others_but lba s s' -> grabbed lba s s' -> wp k s' Q) ->
  (forall rc s', rc <> EOK -> calm s s' -> swf (n + 1) s' -> others s s' -> Q (Err rc) s') ->
  wp (ext4_block_cache_shake end_write;;; ext4_bcache_alloc lba;;; k) s Q.
Proof.
  intros W Hs Hn Hr Hok Herr. wp_step.
  eapply wp_mono; [by apply (shake_wp n s)|]. cbv beta. intros r s1 (W1 & C1 & O1 & R1).
  destruct r as [[]|rc].
  2: { apply Herr; try done. by apply (swf_mono n); [|lia]. }
  assert (Hr1 : in_range s1 lba).
  { unfold in_range in *. destruct C1 as [[C _ _ _ _ _] _]. unfold dcfg in C. by injection C as _ _ _ _ _ ->. }
  wp_step. eapply wp_mono; [by apply (alloc_wp n s1)|]. cbv beta. intros r s2 (C2 & B2 & R2).
  pose proof (calm_trans _ _ _ C1 C2) as C.
  assert (OB : forall a, a <> lba -> held s2 a = held s a /\ (0 < held s a -> bufs s2 a = bufs s a)).
  { intros a Ha. destruct (O1 a) as [E F]. unfold held at 1. rewrite B2 by done. by split. }
  destruct (O1 lba) as [E F]. destruct r as [is_new|rc].
  - destruct R2 as (W2 & b' & Hb' & Hr' & R2). apply Hok; try done.
    exists b'. split_and!; [done|by rewrite Hr', E|]. intros b Hh Hb. rewrite F, Hb in R2 by done.
    by destruct R2 as (_ & ? & ?).
  - destruct R2 as (Hrc & W2 & B3). apply Herr; try done.
    + by apply (swf_mono n); [|lia].
    + intros a. destruct (decide (a = lba)) as [->|Ha]; [|by apply OB].
      unfold held at 1. rewrite B3. by split.
Qed.

Lemma block_fill_wp n s lba b :
  swf n s -> bufs s lba = Some b -> 0 < b_refctr b -> in_range s lba ->
  wp (block_fill end_write lba) s (fun r s' =>
    swf n s' /\ calm s s' /\ (forall a, a <> lba -> bufs s' a = bufs s a) /\
    match r with
    | Ok _ => exists b', bufs s' lba = Some b' /\ utd b' = true /\ b_refctr b' = b_refctr b /\
                (utd b = true -> b' = b) /\ (sync s lba -> b_data b' = view s lba)
    | Err rc => rc <> EOK /\ held s' lba = b_refctr b - 1 /\ utd b = false /\
                (1 < b_refctr b -> rdata s' lba = rdata s lba)
    end).
Proof.
  intros W Hb Hr Hin. pose proof W as (W1 & W2 & W3).
  pose proof (swf_buf n s lba b W Hb) as [B1 B2 B3 B4 B5 B6 B7 B8 B9 B10].
  unfold block_fill. wp_step. apply (wp_buf_flag _ _ _ b); [done|]. fold (utd b).
  destruct (utd b) eqn:Eu.
  { wp_step. split_and!; [done|apply calm_refl|done|]. exists b. split_and!; try done.
    unfold sync, view. rewrite Hb. cbn [bsync bview]. rewrite Eu. cbn [andb].
    destruct (drt b); [done|]. by intros ->. }
  wp_step. wp_step. apply wp_on_dev. eapply wp_mono; [by apply get_direct_wp|]. cbv beta.
  intros r d' (C & Bx & R).
  set (s1 := mk_bdev d' (v_cache_write_back s) (v_bc s)).
  destruct (same_bc n s s1 W) as (Wn & C1 & B1'); try done.
  { intros a. by apply dblk_ext. }
  assert (Hd : drt b = false) by (destruct (drt b); [by specialize (B10 eq_refl)|done]).
  destruct r as [data|rc].
  - subst data. wp_step. apply wp_bc_mod. apply wp_bc_mod.
    change (v_on_bc _ (v_on_bc _ s1)) with
      (v_on_bc (fun c => on_buf lba (ext4_bcache_set_flag BC_UPTODATE)
                  (on_buf lba (buf_set_data (dblk (v_dev s) lba)) c)) s1).
    set (b' := ext4_bcache_set_flag BC_UPTODATE (buf_set_data (dblk (v_dev s) lba) b)).
    set (f := fun b => ext4_bcache_set_flag BC_UPTODATE (buf_set_data (dblk (v_dev s) lba) b)).
    assert (Hu' : utd b' = true) by (unfold utd, b'; by rewrite test_set_flag).
    assert (Hd' : drt b' = false).
    { unfold drt, b'. rewrite test_set_flag by done. cbn [Z.eqb BC_UPTODATE BC_DIRTY orb]. exact Hd. }
    assert (Hdb : dblk (v_dev s1) lba = dblk (v_dev s) lba) by (by apply dblk_ext).
    destruct (bc_put n n s1 (fun c => on_buf lba (ext4_bcache_set_flag BC_UPTODATE)
                  (on_buf lba (buf_set_data (dblk (v_dev s) lba)) c)) lba (Some b') Wn)
      as (P1 & P2 & P3 & P4 & P5 & P6); try done.
    + change (v_bc s1) with (v_bc s). rewrite on_buf_on_buf.
      destruct (dcfg_lg (v_dev s) (v_dev s1) C) as [-> ->].
      apply (cwf_on_buf n _ _ (v_bc s) lba b W3 Hb f); try done.
      * unfold f. rewrite test_set_flag by done. exact B7.
      * apply blen_dblk, W2.
      * apply bytes_ok_dblk.
      * intros Ho. destruct (B9 Ho) as (_ & ? & _). congruence.
    + rewrite on_buf_on_buf. exact (alter_as_put f lba b _ Hb).
    + unfold view. rewrite B1', Hb. cbn [bview]. by rewrite Hd, Hd', !andb_false_r.
    + intros _ _ _. by rewrite Hdb.
    + split_and!; [done| |intros a Ha; by rewrite P4, B1'|].
      * eapply calm_trans; [exact C1|]. apply P6. intros _ _. congruence.
      * exists b'. split; [exact P3|]. split_and!; try done. intros _.
        unfold view. rewrite Hb. cbn [bview]. by rewrite Hd, andb_false_r.
  - wp_step. eapply wp_mono; [by apply (bcache_free_wp n s1 lba b)|]. cbv beta.
    intros r s2 (-> & W2' & Q2 & H2 & B2' & K2 & Rd & St). wp_step.
    split_and!; [done|eapply calm_trans; [exact C1|by split]|intros a Ha; by rewrite B2'|done| |done|].
    + rewrite H2. unfold held. by rewrite B1', Hb.
    + intros Hlt. rewrite Rd by done. unfold rdata. by rewrite B1'.
Qed.

(** The state between operations: the invariant, outside of a callback. *)
Definition ready (n : Z) s : Prop := swf n s /\ c_dont_shake (v_bc s) = false.

Lemma ready_open n s : ready n s -> (d_ph_refctr (v_dev s) =? 0) = false.
Proof. intros [((_ & _ & Hr & _) & _ & _) _]. lia. Qed.

(** What a fetch of block [lba] leaves behind. *)
Definition fetched (n lba : Z) s (r : result unit) s' : Prop :=
  calm s s' /\ ready (n + 1) s' /\ others_but lba s s' /\
  match r with
  | Ok _ => in_range s lba /\ held s' lba = held s lba + 1 /\ is_Some (bufs s' lba)
  | Err rc => rc <> EOK /\ held s' lba = held s lba /\
              (0 < held s lba -> rdata s' lba = rdata s lba)
  end.

Lemma ready_calm n s s' n' : ready n s -> calm s s' -> swf n' s' -> ready n' s'.
Proof. intros [_ H] [[_ _ E _ _ _] _] W. split; [done|congruence]. Qed.

Lemma others_held lba s s' : others s s' -> others_but lba s s' /\ held s' lba = held s lba /\
    (0 < held s lba -> rdata s' lba = rdata s lba).
Proof.
  intros O. split_and!; [intros a _; apply O|apply O|]. intros Hh. unfold rdata.
  by rewrite (proj2 (O lba) Hh).
Qed.

(** [ext4_block_get_noread]: block 0, the mark of a hole, is never handed out,
    nor a block past the end. *)
Lemma get_noread_wp n s lba :
  ready n s -> n + 1 < 2 ^ 32 -> 0 <= lba ->
  wp (ext4_block_get_noread end_write lba) s (fun r s' =>
    fetched n lba s r s' /\
    (r = Ok tt -> lba <> 0 /\ (0 < held s lba -> rdata s' lba = rdata s lba)) /\
    ((lba = 0 \/ d_lg_bcnt (v_dev s) <= lba) -> r = Err ENXIO /\ s' = s)).
Proof.
  intros R Hn Hl. pose proof R as [W Hs].
  unfold ext4_block_get_noread. wp_step. wp_step. rewrite (ready_open n s R).
  wp_step. wp_step.
  assert (Hbad : fetched n lba s (Err ENXIO) s).
  { split; [apply calm_refl|]. split_and!; try done. split; [apply (swf_mono n); [done|lia]|done]. }
  destruct (Z.ltb_spec lba (d_lg_bcnt (v_dev s))) as [Hlt|Hge]; cbn [negb].
  2: { wp_step. split_and!; try done. }
  destruct (Z.eqb_spec lba 0) as [->|H0].
  { wp_step. split_and!; try done. }
  apply (grab_wp n s lba); try done.
  - intros s' C W' O G. wp_step. split; [|split].
    + refine (conj C (conj (ready_calm _ _ _ _ R C W') (conj O _))). destruct G as (b' & Hb & Hr & _).
      split; [unfold in_range; lia|]. split; [unfold held at 1; by rewrite Hb|by eexists].
    + intros _. split; [done|]. intros Hh. destruct G as (b' & Hb & Hr & Hd).
      unfold rdata. unfold held in Hd, Hh. rewrite Hb. destruct (bufs s lba) as [b|]; [|lia].
      by destruct (Hd b Hh eq_refl).
    + lia.
  - intros rc s' Hrc C W' O. destruct (others_held lba s s' O) as (O' & Hh & Hk).
    split; [|split; [done|lia]].
    by refine (conj C (conj (ready_calm _ _ _ _ R C W') (conj O' (conj Hrc (conj Hh Hk))))).
Qed.

Lemma held_nonneg n s a : swf n s -> 0 <= held s a.
Proof.
  intros W. unfold held. destruct (bufs s a) as [b|] eqn:Hb; [|lia].
  apply (bo_ref _ _ _ _ _ _ (swf_buf n s a b W Hb)).
Qed.

(** The read that completes a fetch. *)
Lemma fill_fetched_wp {A} n s0 s lba (x : A) :
  n + 1 < 2 ^ 32 -> 0 <= held s0 lba -> fetched n lba s0 (Ok tt) s ->
  (0 < held s0 lba -> rdata s lba = rdata s0 lba) ->
  wp (block_fill end_write lba;;; mok x) s (fun r s' =>
    fetched n lba s0 (match r with Ok _ => Ok tt | Err rc => Err rc end) s' /\
    match r with
    | Ok y => y = x /\ (sync s0 lba -> rdata s' lba = view s0 lba)
    | Err _ => True
    end).
Proof.
  intros Hn H0 (C & R & O & Hin & Hh & [b Hb]) Hrd. pose proof R as [W Hs].
  assert (Hr : b_refctr b = held s0 lba + 1) by (unfold held in Hh; rewrite Hb in Hh; exact Hh).
  wp_step. eapply wp_mono; [apply (block_fill_wp (n + 1) s lba b); try done; [lia|]|].
  { apply (bo_lba _ _ _ _ _ _ (swf_buf _ _ _ _ W Hb)). }
  cbv beta. intros r s' (W' & C' & O' & P). pose proof (calm_trans _ _ _ C C') as C2.
  assert (O2 : others_but lba s0 s').
  { intros a Ha. destruct (O a Ha) as [E F]. unfold held at 1. rewrite O' by done. by split. }
  assert (R2 : ready (n + 1) s') by (by apply (ready_calm (n + 1) s)).
  destruct r as [[]|rc].
  - destruct P as (b' & Hb' & Hu & Hr' & _ & Hd). wp_step. split.
    + refine (conj C2 (conj R2 (conj O2 _))). split; [done|].
      split; [unfold held at 1; rewrite Hb'; lia|by eexists].
    + split; [done|]. intros Hsy. unfold rdata. rewrite Hb', Hd by (by apply C).
      apply C.
  - destruct P as (Hrc & Hh' & _ & Hk). split; [|done].
    refine (conj C2 (conj R2 (conj O2 (conj Hrc (conj _ _))))); [lia|].
    intros Hlt. rewrite Hk by lia. by apply Hrd.
Qed.

Lemma mbnd_mok (m : M (bdev D) unit) s : (m;;; mok tt) s = m s.
Proof. unfold mbnd, mok. by destruct (m s) as [[[]|] ?]. Qed.

(** [ext4_block_get]: the handle reads what the block holds. *)
Lemma get_wp n s lba :
  ready n s -> n + 1 < 2 ^ 32 -> 0 <= lba ->
  wp (ext4_block_get end_write lba) s (fun r s' =>
    fetched n lba s r s' /\
    (r = Ok tt -> lba <> 0 /\ (sync s lba -> rdata s' lba = view s lba)) /\
    ((lba = 0 \/ d_lg_bcnt (v_dev s) <= lba) -> r = Err ENXIO /\ s' = s)).
Proof.
  intros R Hn Hl. unfold ext4_block_get. wp_step.
  eapply wp_mono; [by apply (get_noread_wp n s lba)|]. cbv beta. intros r s1 (F & Hok & Hbad).
  destruct r as [[]|rc]; [|by split].
  pose proof (fill_fetched_wp n s s1 lba tt Hn (held_nonneg n s lba (proj1 R)) F (proj2 (Hok eq_refl))) as Hf. unfold wp in *. rewrite mbnd_mok in Hf.
  destruct (block_fill end_write lba s1) as [r s2]. destruct Hf as [F2 Hd].
  split_and!.
  - by destruct r as [[]|].
  - intros ->. split; [by apply Hok|apply Hd].
  - intros Hx. by destruct (Hbad Hx).
Qed.

(** [ext4_block_get_sb]: the one way to the block of the superblock. *)
Lemma get_sb_wp n s :
  ready n s -> n + 1 < 2 ^ 32 ->
  wp (ext4_block_get_sb end_write) s (fun r s' =>
    fetched n (sb_lba s) s (match r with Ok _ => Ok tt | Err rc => Err rc end) s' /\
    match r with
    | Ok lba => lba = sb_lba s /\ (sync s lba -> rdata s' lba = view s lba)
    | Err rc => True
    end).
Proof.
  intros R Hn. pose proof R as [W Hs].
  unfold ext4_block_get_sb. wp_step. wp_step. wp_step. wp_step. rewrite (ready_open n s R).
  wp_step. wp_step. set (lba := sb_lba s).
  assert (Hl : 0 <= lba) by (unfold lba, sb_lba; case_match; lia).
  destruct (Z.ltb_spec lba (d_lg_bcnt (v_dev s))) as [Hlt|Hge]; cbn [negb].
  2: { wp_step. split; [|done]. split; [apply calm_refl|]. split_and!; try done.
       split; [apply (swf_mono n); [done|lia]|done]. }
  apply (grab_wp n s lba); try done.
  - intros s' C W' O G.
    assert (F : fetched n lba s (Ok tt) s').
    { refine (conj C (conj (ready_calm _ _ _ _ R C W') (conj O _))). destruct G as (b' & Hb & Hr & _).
      split; [unfold in_range; lia|]. split; [unfold held at 1; by rewrite Hb|by eexists]. }
    assert (Hrd : 0 < held s lba -> rdata s' lba = rdata s lba).
    { intros Hh. destruct G as (b' & Hb & _ & Hd). unfold rdata. unfold held in Hd, Hh. rewrite Hb.
      destruct (bufs s lba) as [b|]; [|lia]. by destruct (Hd b Hh eq_refl). }
    eapply wp_mono; [apply (fill_fetched_wp n s s' lba lba); try done; by apply (held_nonneg n)|]. cbv beta.
    intros r s2 [F2 Hd]. split; [done|]. by destruct r as [l|]; [destruct Hd as [-> ?]|].
  - intros rc s' Hrc C W' O. destruct (others_held lba s s' O) as (O' & Hh & Hk). split; [|done].
    by refine (conj C (conj (ready_calm _ _ _ _ R C W') (conj O' (conj Hrc (conj Hh Hk))))).
Qed.

(** [ext4_block_set] on a handle: it never fails, and tells of a failed
    write-back through the latch. *)
Lemma block_set_wp n s lba :
  ready n s -> 0 < held s lba ->
  wp (ext4_block_set end_write lba) s (fun r s' =>
    r = Ok tt /\ calm s s' /\ ready n s' /\ others_but lba s s' /\
    held s' lba = held s lba - 1 /\ (1 < held s lba -> rdata s' lba = rdata s lba) /\
    (held s lba = 1 -> v_cache_write_back s = 0 -> c_io_err (v_bc s') = EOK ->
     dblk (v_dev s') lba = view s' lba)).
Proof.
  intros R Hh. pose proof R as [W Hs]. unfold ext4_block_set. wp_step. wp_step.
  rewrite (ready_open n s R). assert (Hb : exists b, bufs s lba = Some b /\ b_refctr b = held s lba).
  { unfold held in *. destruct (bufs s lba) as [b|]; [by exists b|lia]. }
  destruct Hb as (b & Hb & Hr).
  eapply wp_mono; [apply (bcache_free_wp n s lba b); try done; lia|]. cbv beta.
  intros r s' (-> & W' & Q & Hh' & O & K & Hd & St).
  assert (C : calm s s') by done. split; [done|]. split; [done|].
  split; [by apply (ready_calm n s)|]. split.
  { intros a Ha. unfold held at 1. rewrite O by done. by split. }
  split; [done|]. split; [intros; apply Hd; lia|].
  intros H1. apply St. lia.
Qed.

(** ** Flushing *)

Lemma flush_loop_wp fuel n s :
  swf n s -> (length (c_dirty_list (v_bc s)) < fuel)%nat ->
  wp (cache_flush_loop end_write fuel) s (fun r s' =>
    swf n s' /\ calm s s' /\ (forall a, held s' a = held s a) /\
    match r with Ok _ => c_dirty_list (v_bc s') = [] | Err rc => rc <> EOK end).
Proof.
  revert s. induction fuel as [|fuel IH]; intros s W Hf; [lia|]. cbn [cache_flush_loop].
  pose proof W as (_ & _ & W3). wp_step. apply wp_bc_get.
  destruct (c_dirty_list (v_bc s)) as [|lba rest] eqn:El.
  { wp_step. split_and!; try done; apply calm_refl. }
  destruct (cw_dirty_in _ _ _ _ W3 lba) as (b & Hb & _); [rewrite El; left|]. fold (bufs s lba) in Hb.
  wp_step. eapply wp_mono; [by apply (flush_buf_wp n s lba b)|]. cbv beta. intros r s1 (W1 & C1 & R).
  destruct r as [[]|rc].
  - destruct R as (b1 & E1 & _ & _ & E4 & _ & E6 & _ & _ & E9).
    assert (Hp : c_dirty_list (v_bc s1) ≡ₚ rest).
    { pose proof (cw_dirty _ _ _ _ W3) as Hnd. rewrite El in Hnd. apply NoDup_cons in Hnd as [Hn1 Hn2].
      apply NoDup_Permutation; [apply (cw_dirty _ _ _ _ (proj2 (proj2 W1)))|done|].
      intros a. rewrite E9, El, elem_of_cons. split; [by intros [[?|?] ?]|].
      intros Ha. split; [by right|]. by intros ->. }
    eapply wp_mono; [apply (IH s1 W1)|].
    { apply Permutation_length in Hp. cbn in Hf. lia. }
    cbv beta. intros r s2 (W2 & C2 & H2 & R2). split_and!; [done|by eapply calm_trans| |done].
    intros a. rewrite H2. unfold held, bufs. rewrite E6, lookup_put. case_decide as Ea; [|done].
    subst. fold (bufs s lba). by rewrite Hb.
  - destruct R as (Hrc & E). split_and!; try done. intros a. unfold held, bufs. by rewrite E.
Qed.

(** Everything nobody holds is on the medium. *)
Definition on_medium s : Prop := forall a, held s a = 0 -> dblk (v_dev s) a = view s a.

Lemma cache_flush_wp n s :
  ready n s ->
  wp (ext4_block_cache_flush end_write) s (fun r s' =>
    ready n s' /\ dcfg (v_dev s') = dcfg (v_dev s) /\
    (forall a, view s' a = view s a /\ (sync s a -> sync s' a)) /\
    (forall a, held s' a = held s a) /\
    (c_io_err (v_bc s) <> EOK -> exists rc, r = Err rc) /\
    match r with
    | Ok _ => (forall a, durable s a) -> on_medium s'
    | Err rc => rc <> EOK
    end).
Proof.
  intros [W Hs]. unfold ext4_block_cache_flush. wp_step. apply wp_bc_get. wp_step.
  eapply wp_mono; [apply (flush_loop_wp _ n s W); lia|]. cbv beta. intros r s1 (W1 & [Q1 K1] & H1 & R1).
  assert (Hs1 : c_dont_shake (v_bc s1) = false) by (rewrite (q_shake _ _ Q1); done).
  assert (Hv : forall a, view s1 a = view s a /\ (sync s a -> sync s1 a)) by (split; apply Q1).
  pose proof (q_cfg _ _ Q1) as Hc.
  destruct r as [[]|rc].
  2: { do 4 (split; [done|]). split; [by eexists|done]. }
  wp_step. unfold ext4_bcache_take_error. wp_step. apply wp_bc_get. wp_step. apply wp_bc_mod. wp_step.
  set (s2 := v_on_bc _ s1).
  assert (R2 : ready n s2) by (split; [apply (swf_cfg s1 s2 n n); [done..|]; apply cwf_io_err, W1|done]).
  destruct (Z.eqb_spec (c_io_err (v_bc s1)) EOK) as [E|E]; wp_step.
  - do 4 (split; [done|]). split.
    { intros He. rewrite (q_err _ _ Q1) in E by done. done. }
    intros Hd a Ha. change (dblk (v_dev s1) a = view s1 a). change (held s1 a = 0) in Ha.
    unfold view. specialize (K1 a (Hd a)). unfold durable, held in *.
    destruct (bufs s1 a) as [b|] eqn:Hb; [|done]. cbn [bview bdurable] in *.
    destruct (drt b) eqn:Ed; [|by rewrite andb_false_r].
    destruct (K1 Ha eq_refl) as [Ho|He]; [|done].
    destruct (bo_dirty _ _ _ _ _ _ (swf_buf n s1 a b W1 Hb) Ho) as (Hin & _).
    rewrite R1 in Hin. by apply not_elem_of_nil in Hin.
  - do 4 (split; [done|]). split; [by eexists|done].
Qed.

(** ** What a client does with a handle *)

(** A store through [b.data]. *)
Definition data_write (lba : Z) (d : list Z) s : bdev D :=
  v_on_bc (on_buf lba (buf_set_data d)) s.
(** [ext4_bcache_set_dirty(b.buf)]. *)
Definition mark_dirty (lba : Z) s : bdev D := v_on_bc (on_buf lba ext4_bcache_set_dirty) s.

Lemma bufs_on_buf lba f s a :
  bufs (v_on_bc (on_buf lba f) s) a = if decide (a = lba) then f <$> bufs s a else bufs s a.
Proof.
  unfold bufs. cbn. case_decide; [subst; apply lookup_alter_eq|by apply lookup_alter_ne].
Qed.

Lemma data_write_spec n s lba d :
  ready n s -> 0 < held s lba -> blen d = d_lg_bsize (v_dev s) -> bytes_ok d ->
  let s' := data_write lba d s in
  ready n s' /\ rdata s' lba = d /\ (forall a, held s' a = held s a) /\
  (forall a, a <> lba -> bufs s' a = bufs s a /\ view s' a = view s a /\ (sync s a -> sync s' a)) /\
  (forall a, durable s a -> durable s' a) /\ c_io_err (v_bc s') = c_io_err (v_bc s).
Proof.
  intros [W Hs] Hh Hl Hok. unfold held in Hh. destruct (bufs s lba) as [b|] eqn:Hb; [|lia].
  pose proof (swf_buf n s lba b W Hb) as [B1 B2 B3 B4 B5 B6 B7 B8 B9 B10].
  assert (Hf : forall a, bufs (data_write lba d s) a =
    if decide (a = lba) then Some (buf_set_data d b) else bufs s a).
  { intros a. unfold data_write. rewrite bufs_on_buf. case_decide; [|done]. subst. by rewrite Hb. }
  split.
  { split; [|done]. apply (swf_cfg s _ n n); [done..|].
    apply (cwf_on_buf n _ _ (v_bc s) lba b (proj2 (proj2 W)) Hb); try done.
    intros Ho. by destruct (B9 Ho) as (_ & ? & _). }
  split_and!; try done.
  - unfold rdata. by rewrite Hf, decide_True.
  - intros a. unfold held. rewrite Hf. case_decide; [|done]. subst. by rewrite Hb.
  - intros a Ha. unfold view, sync. by rewrite Hf, decide_False.
  - intros a Hd. unfold durable in *. rewrite Hf. case_decide; [|done]. subst. by rewrite Hb in Hd.
Qed.

Lemma mark_dirty_spec n s lba :
  ready n s -> 0 < held s lba ->
  let s' := mark_dirty lba s in
  ready n s' /\ view s' lba = rdata s lba /\ sync s' lba /\ rdata s' lba = rdata s lba /\
  (forall a, held s' a = held s a) /\
  (forall a, a <> lba -> bufs s' a = bufs s a /\ view s' a = view s a /\ (sync s a -> sync s' a)) /\
  (forall a, durable s a -> durable s' a) /\ c_io_err (v_bc s') = c_io_err (v_bc s).
Proof.
  intros [W Hs] Hh. unfold held in Hh. destruct (bufs s lba) as [b|] eqn:Hb; [|lia].
  pose proof (swf_buf n s lba b W Hb) as [B1 B2 B3 B4 B5 B6 B7 B8 B9 B10].
  assert (Hu : utd (ext4_bcache_set_dirty b) = true).
  { unfold utd, ext4_bcache_set_dirty. by rewrite !test_set_flag. }
  assert (Hd : drt (ext4_bcache_set_dirty b) = true).
  { unfold drt, ext4_bcache_set_dirty. by rewrite !test_set_flag. }
  assert (Hf : forall a, bufs (mark_dirty lba s) a =
    if decide (a = lba) then Some (ext4_bcache_set_dirty b) else bufs s a).
  { intros a. unfold mark_dirty. rewrite bufs_on_buf. case_decide; [|done]. subst. by rewrite Hb. }
  split.
  { split; [|done]. apply (swf_cfg s _ n n); [done..|].
    apply (cwf_on_buf n _ _ (v_bc s) lba b (proj2 (proj2 W)) Hb); try done.
    unfold ext4_bcache_set_dirty. by rewrite !test_set_flag. }
  split_and!; try done.
  - unfold view, rdata. rewrite Hf, decide_True, Hb by done. cbn [bview]. by rewrite Hu, Hd.
  - unfold sync. rewrite Hf, decide_True by done. intros _. congruence.
  - unfold rdata. by rewrite Hf, decide_True, Hb.
  - intros a. unfold held. rewrite Hf. case_decide; [|done]. subst. by rewrite Hb.
  - intros a Ha. unfold view, sync. by rewrite Hf, decide_False.
  - intros a Hdur. unfold durable in *. rewrite Hf. case_decide; [|done]. subst.
    intros H0. cbn in H0. lia.
Qed.
End Spec.
