(* ===== verification/CacheProps.v ===== *)
(** * Properties of the block cache

    The cache is an array of blocks: a refinement theorem against a flat map from
    block numbers to contents, for any interleaving of fetches, releases, stores
    and flushes and whatever errors the device returns; and what a flush that
    succeeds guarantees. *)

From S2P Require Import Prelude Types Device Bcache BcacheLaws CacheSpec.

(** What a client of the cache does: fetch a block, give a handle back, store
    through a handle and mark the buffer dirty, flush. *)
Inductive cop : Type :=
| CGet (a : Z)
| CPut (a : Z)
| CWrite (a : Z) (d : list Z)
| CFlush.

Section Refinement.
Context {D : Type} {HD : Host D} {ph : Z} {HL : HostLaws D ph}.
Context (end_write : Z -> Z -> Z -> bdev D -> bdev D).

(** The operation, and what a fetch that succeeds lets the client read.  A
    release or a store needs a handle. *)
Definition run_cop (o : cop) (s : bdev D) : option (list Z) * bdev D :=
  match o with
  | CGet a =>
      match ext4_block_get end_write a s with
      | (Ok _, s') => (Some (rdata s' a), s')
      | (Err _, s') => (None, s')
      end
  | CPut a =>
      (None, if 0 <? held s a then snd (ext4_block_set end_write a s) else s)
  | CWrite a d =>
      (None, if (0 <? held s a) && bool_decide (blen d = d_lg_bsize (v_dev s) /\ bytes_ok d)
             then mark_dirty a (data_write a d s) else s)
  | CFlush => (None, snd (ext4_block_cache_flush end_write s))
  end.
Fixpoint run_cops (l : list cop) (s : bdev D) : list (option (list Z)) * bdev D :=
  match l with
  | [] => ([], s)
  | o :: l =>
      let '(x, s) := run_cop o s in
      let '(xs, s) := run_cops l s in (x :: xs, s)
  end.
End Refinement.

(** The abstract store: contents and handles.  [item] is the block size; [x] is
    what the fetch returned. *)
Record astate := mk_astate { a_blk : Z -> list Z; a_held : Z -> Z }.

Definition abs_cop (item : Z) (o : cop) (x : option (list Z)) (t : astate) : astate :=
  match o with
  | CGet a => match x with
              | Some _ => mk_astate (a_blk t) (fupd a (a_held t a + 1) (a_held t))
              | None => t
              end
  | CPut a => if 0 <? a_held t a
              then mk_astate (a_blk t) (fupd a (a_held t a - 1) (a_held t)) else t
  | CWrite a d => if (0 <? a_held t a) && bool_decide (blen d = item /\ bytes_ok d)
                  then mk_astate (fupd a d (a_blk t)) (a_held t) else t
  | CFlush => t
  end.
(** A run of the abstract store that is consistent with what the fetches returned. *)
Fixpoint abs_run (item : Z) (l : list cop) (xs : list (option (list Z))) (t : astate)
  : Prop * astate :=
  match l, xs with
  | o :: l, x :: xs =>
      let ok := match o, x with
                | CGet a, Some d => d = a_blk t a
                | _, _ => True
                end in
      let '(oks, t') := abs_run item l xs (abs_cop item o x t) in (ok /\ oks, t')
  | _, _ => (True, t)
  end.

Definition cop_ok (o : cop) : bool := match o with CGet a => 0 <=? a | _ => true end.

Section RefinementProof.
Context {D : Type} {HD : Host D} {ph : Z} {HL : HostLaws D ph}.
Context (end_write : Z -> Z -> Z -> bdev D -> bdev D).

(** The cache and its device implement the store [t]. *)
Definition implements (s : bdev D) (t : astate) : Prop :=
  (forall a, view s a = a_blk t a) /\ (forall a, held s a = a_held t a) /\ (forall a, sync s a).

Lemma run_cop_refines n s t o :
  ready (ph := ph) n s -> n + 1 < 2 ^ 32 -> cop_ok o = true -> implements s t ->
  let '(x, s') := run_cop end_write o s in
  ready (ph := ph) (n + 1) s' /\ d_lg_bsize (v_dev s') = d_lg_bsize (v_dev s) /\
  implements s' (abs_cop (d_lg_bsize (v_dev s)) o x t) /\
  match o, x with CGet a, Some d => d = a_blk t a | _, _ => True end.
Proof.
  intros R Hn Hok (Iv & Ih & Is).
  assert (Rm : forall s' : bdev D, ready (ph := ph) n s' -> ready (ph := ph) (n + 1) s').
  { intros s' [W' Hs']. split; [apply (swf_mono n); [done|lia]|done]. }
  destruct o as [a|a|a d|]; cbn [run_cop abs_cop].
  - cbn in Hok. pose proof (get_wp end_write n s a R Hn ltac:(lia)) as H. unfold wp in H.
    destruct (ext4_block_get end_write a s) as [r s']. destruct H as (([Q K] & R' & O & F) & Hd & _).
    assert (Hc : d_lg_bsize (v_dev s') = d_lg_bsize (v_dev s)) by apply (dcfg_lg _ _ (q_cfg _ _ Q)).
    assert (Hother : forall x, x <> a -> held s' x = a_held t x).
    { intros x Hx. rewrite <- Ih. by apply O. }
    destruct r as [[]|rc].
    + destruct F as (_ & Hh & _). split; [done|]. split; [done|].
      split; [split_and!; cbn|].
      * intros x. by rewrite (q_view _ _ Q), Iv.
      * intros x. unfold fupd. destruct (Z.eqb_spec x a) as [->|Hx]; [by rewrite Hh, Ih|by apply Hother].
      * intros x. by apply (q_sync _ _ Q).
      * rewrite <- Iv. apply Hd; done.
    + destruct F as (_ & Hh & _). split; [done|]. split; [done|]. split; [split_and!|done].
      * intros x. by rewrite (q_view _ _ Q), Iv.
      * intros x. destruct (Z.eq_dec x a) as [->|Hx]; [by rewrite Hh, Ih|by apply Hother].
      * intros x. by apply (q_sync _ _ Q).
  - rewrite <- Ih. destruct (Z.ltb_spec 0 (held s a)) as [Hh|Hh].
    2: { split; [by apply Rm|]. done. }
    pose proof (block_set_wp end_write n s a R Hh) as H. unfold wp in H.
    destruct (ext4_block_set end_write a s) as [r s']. cbn [snd].
    destruct H as (-> & [Q K] & R' & O & Hh' & _).
    split; [by apply Rm|]. split; [apply (dcfg_lg _ _ (q_cfg _ _ Q))|]. split; [|done]. split_and!; cbn.
    + intros x. by rewrite (q_view _ _ Q), Iv.
    + intros x. unfold fupd. destruct (Z.eqb_spec x a) as [->|Hx]; [by rewrite Hh'|].
      rewrite <- Ih. by apply O.
    + intros x. by apply (q_sync _ _ Q).
  - rewrite <- Ih. destruct ((0 <? held s a) && _) eqn:E.
    2: { split; [by apply Rm|]. done. }
    apply andb_true_iff in E as [Hh%Z.ltb_lt [Hl Hb]%bool_decide_eq_true].
    destruct (data_write_spec n s a d R Hh Hl Hb) as (R1 & Hr1 & Hh1 & O1 & _).
    destruct (mark_dirty_spec n (data_write a d s) a R1) as (R2 & Hv2 & Hs2 & _ & Hh2 & O2 & _).
    { by rewrite Hh1. }
    split; [by apply Rm|]. split; [done|]. split; [|done]. split_and!; cbn.
    + intros x. unfold fupd. destruct (Z.eqb_spec x a) as [->|Hx]; [by rewrite Hv2|].
      destruct (O1 x Hx) as (_ & E1 & _), (O2 x Hx) as (_ & E2 & _). by rewrite E2, E1.
    + intros x. by rewrite Hh2, Hh1.
    + intros x. destruct (Z.eq_dec x a) as [->|Hx]; [done|]. apply O2; [done|]. apply O1; auto.
  - pose proof (cache_flush_wp end_write n s R) as H. unfold wp in H.
    destruct (ext4_block_cache_flush end_write s) as [r s']. cbn [snd].
    destruct H as (R' & Hc & Hv & Hh & _).
    split; [by apply Rm|]. split; [apply (dcfg_lg _ _ Hc)|]. split; [|done]. split_and!.
    + intros x. by rewrite (proj1 (Hv x)), Iv.
    + intros x. by rewrite Hh, Ih.
    + intros x. by apply Hv.
Qed.

Lemma run_cops_refines l : forall n s t,
  ready (ph := ph) n s -> n + Z.of_nat (length l) < 2 ^ 32 -> forallb cop_ok l = true ->
  implements s t ->
  let '(xs, s') := run_cops end_write l s in
  let '(ok, t') := abs_run (d_lg_bsize (v_dev s)) l xs t in
  ok /\ implements s' t' /\ ready (ph := ph) (n + Z.of_nat (length l)) s'.
Proof.
  induction l as [|o l IH]; intros n s t R Hn Hok I; cbn [run_cops abs_run length].
  { split_and!; try done. by rewrite Z.add_0_r. }
  cbn [forallb length] in *. apply andb_true_iff in Hok as [Ho Hok].
  pose proof (run_cop_refines n s t o R ltac:(lia) Ho I) as H1.
  destruct (run_cop end_write o s) as [x s1]. destruct H1 as (R1 & Hc & I1 & Hx).
  pose proof (IH (n + 1) s1 _ R1 ltac:(lia) Hok I1) as H2.
  destruct (run_cops end_write l s1) as [xs s2]. cbn [abs_run]. rewrite Hc in H2.
  destruct (abs_run _ l xs _) as [oks t2]. destruct H2 as (H2 & I2 & R2).
  split_and!; try done.
  by replace (n + Z.of_nat (S (length l))) with (n + 1 + Z.of_nat (length l)) by lia.
Qed.
End RefinementProof.

(** ** A concrete cache *)

(** Eight buffers of 1 KiB over the partition of [ramdev], write-through. *)
Definition ram_end_write (arg lba res : Z) (s : bdev ramdisk) : bdev ramdisk := s.
Definition ram_bdev (writes wb : Z) : bdev ramdisk :=
  mk_bdev (ext4_block_set_lb_size 1024 (ramdev writes)) wb (ext4_bcache_init_dynamic 8 1024).

Lemma ram_bdev_ready writes wb : ready (ph := 512) 0 (ram_bdev writes wb).
Proof.
  split; [|done]. split; [|split].
  - split_and!; try done. exists 9. split; [lia|done].
  - split_and!; done.
  - split; try done; [apply NoDup_nil_2|]. intros a Ha. by apply not_elem_of_nil in Ha.
Qed.

Lemma ram_bdev_implements writes wb :
  implements (ram_bdev writes wb) (mk_astate (dblk (v_dev (ram_bdev writes wb))) (fun _ => 0)).
Proof. by split_and!. Qed.

Definition ones_1k : list Z := replicate 1024 1.

(** ** Properties *)

(** C13: the block cache is an array of blocks.  Start from a cache in its
    invariant, all of whose clean buffers agree with the medium, that stands for
    an abstract store (contents of every block, handles per block).  Then for any
    sequence of fetches, releases, dirtying stores and flushes, and whatever
    mixture of success and failure the device returns, the run is a run of the
    abstract store: every fetch that succeeds reads the store's contents of that
    block, the handle counts are the store's, the cache again stands for the
    resulting store (no eviction, flush or error loses or invents a byte), and
    the invariant holds, so no reference count or lru id wraps within 2^32
    operations. *)
Theorem cache_refines_block_array {D : Type} {HD : Host D} {ph : Z} {HL : HostLaws D ph}
    (end_write : Z -> Z -> Z -> bdev D -> bdev D) (l : list cop) (n : Z) (s : bdev D) (t : astate)
    (Hs : ready (ph := ph) n s) (Ht : implements s t)
    (Hn : n + Z.of_nat (length l) < 2 ^ 32) (Hl : forallb cop_ok l = true) :
  let '(xs, s') := run_cops end_write l s in
  let '(ok, t') := abs_run (d_lg_bsize (v_dev s)) l xs t in
  ok /\ implements s' t' /\ ready (ph := ph) (n + Z.of_nat (length l)) s'.
Proof. by apply run_cops_refines. Qed.

Lemma cache_refines_block_array_witness :
  let l := [CGet 5; CWrite 5 ones_1k; CPut 5; CFlush; CGet 5] in
  view (snd (run_cops ram_end_write l (ram_bdev (-1) 0))) 5 = ones_1k.
Proof.
  intros l.
  pose proof (cache_refines_block_array ram_end_write l 0 (ram_bdev (-1) 0) _
    (ram_bdev_ready (-1) 0) (ram_bdev_implements (-1) 0) ltac:(reflexivity) ltac:(reflexivity)) as H.
  destruct (run_cops ram_end_write l (ram_bdev (-1) 0)) as [xs s'] eqn:E. cbn [snd].
  destruct (abs_run _ l xs _) as [ok t'] eqn:Ea. destruct H as (_ & (Hv & _ & _) & _).
  rewrite Hv. apply (f_equal fst) in E. cbn [fst] in E. rewrite <- E in Ea.
  apply (f_equal (fun p => a_blk p.2 5)) in Ea. cbn [snd] in Ea. rewrite <- Ea.
  vm_compute. reflexivity.
Defined.

(** C15: a cache flush that reports success is the truth.  If every buffer nobody
    holds that is ahead of the medium is on the dirty list or has its error
    latched, [ext4_block_cache_flush] terminates, changes the contents of no
    block, fails when an error had been latched, and, when it returns EOK, leaves
    every block nobody holds on the medium exactly as its clients see it. *)
Theorem cache_flush_durable {D : Type} {HD : Host D} {ph : Z} {HL : HostLaws D ph}
    (end_write : Z -> Z -> Z -> bdev D -> bdev D) (n : Z) (s : bdev D)
    (Hs : ready (ph := ph) n s) (Hd : forall a, durable s a) :
  let '(r, s') := ext4_block_cache_flush end_write s in
  (forall a, view s' a = view s a /\ held s' a = held s a) /\
  (c_io_err (v_bc s) <> EOK -> exists rc, r = Err rc) /\
  match r with
  | Ok _ => forall a, held s' a = 0 -> dblk (v_dev s') a = view s a
  | Err rc => rc <> EOK
  end.
Proof.
  pose proof (cache_flush_wp end_write n s Hs) as H. unfold wp in H.
  destruct (ext4_block_cache_flush end_write s) as [r s'].
  destruct H as (_ & _ & Hv & Hh & He & Hr). split_and!; [|done|].
  - intros a. split; [apply Hv|apply Hh].
  - destruct r as [[]|rc]; [|done]. intros a Ha. rewrite (Hr Hd a Ha). apply Hv.
Qed.

(** Block 7 fetched, changed and given back in write-back mode: a dirty buffer that
    nobody holds, on the dirty list, ahead of the medium.  [w] is the number of writes
    the device has left, -1 for any number. *)
Definition ram_ahead (w : Z) : bdev ramdisk :=
  snd (run_cops ram_end_write [CGet 7; CWrite 7 ones_1k; CPut 7] (ram_bdev w 1)).
Definition ahead_buf (w : Z) : option buf := bufs (ram_ahead w) 7.

Lemma ram_ahead_state w : w = -1 \/ w = 0 ->
  c_dirty_list (v_bc (ram_ahead w)) = [7] /\ held (ram_ahead w) 7 = 0 /\
  view (ram_ahead w) 7 = ones_1k /\ dblk (v_dev (ram_ahead w)) 7 <> ones_1k.
Proof.
  assert (Hne : forall l : list Z, bool_decide (l = ones_1k) = false -> l <> ones_1k) by (intros l; apply bool_decide_eq_false).
  intros [-> | ->]; (split_and!; [vm_compute; reflexivity..|apply Hne; vm_compute; reflexivity]).
Qed.
Lemma ram_ahead_ready w : w = -1 \/ w = 0 -> ready (ph := 512) 3 (ram_ahead w).
Proof.
  intros _. pose proof (run_cops_refines ram_end_write [CGet 7; CWrite 7 ones_1k; CPut 7] 0 (ram_bdev w 1) _
    (ram_bdev_ready w 1) ltac:(reflexivity) ltac:(reflexivity) (ram_bdev_implements w 1)) as R.
  unfold ram_ahead. destruct (run_cops ram_end_write _ (ram_bdev w 1)) as [xs s0].
  destruct (abs_run _ _ xs _) as [ok t']. apply R.
Qed.
Lemma ram_ahead_durable w a : w = -1 \/ w = 0 -> durable (ram_ahead w) a.
Proof.
  intros Hw. assert (E : c_lba_root (v_bc (ram_ahead w)) = match ahead_buf w with Some b => {[7 := b]} | None => ∅ end /\
    from_option b_on_dirty_list false (ahead_buf w) = true).
  { destruct Hw as [-> | ->]; split; vm_compute; reflexivity. }
  destruct E as [E Hd]. unfold durable, bufs. rewrite E. destruct (ahead_buf w) as [b|] eqn:Eb; [|done].
  destruct (decide (a = 7)) as [->|Hne]; [|by rewrite lookup_singleton_ne].
  rewrite lookup_singleton_eq. cbn in Hd |- *. auto.
Qed.

(** The flush brings the bytes to the medium; on a device that takes no more writes
    it reports an error. *)
Lemma cache_flush_durable_witness :
  (fst (ext4_block_cache_flush ram_end_write (ram_ahead (-1))) = Ok tt /\
   dblk (v_dev (ram_ahead (-1))) 7 <> ones_1k /\
   dblk (v_dev (snd (ext4_block_cache_flush ram_end_write (ram_ahead (-1))))) 7 = ones_1k) /\
  match fst (ext4_block_cache_flush ram_end_write (ram_ahead 0)) with Ok _ => False | Err rc => rc <> EOK end.
Proof.
  pose proof (cache_flush_durable ram_end_write 3 (ram_ahead (-1)) (ram_ahead_ready (-1) (or_introl eq_refl))
    (fun a => ram_ahead_durable (-1) a (or_introl eq_refl))) as H.
  pose proof (cache_flush_durable ram_end_write 3 (ram_ahead 0) (ram_ahead_ready 0 (or_intror eq_refl))
    (fun a => ram_ahead_durable 0 a (or_intror eq_refl))) as H0.
  destruct (ram_ahead_state (-1) (or_introl eq_refl)) as (_ & Hh & Hv & Hne).
  assert (E : fst (ext4_block_cache_flush ram_end_write (ram_ahead (-1))) = Ok tt) by (vm_compute; reflexivity).
  assert (E0 : fst (ext4_block_cache_flush ram_end_write (ram_ahead 0)) = Err EIO) by (vm_compute; reflexivity).
  destruct (ext4_block_cache_flush ram_end_write (ram_ahead (-1))) as [r s'].
  destruct (ext4_block_cache_flush ram_end_write (ram_ahead 0)) as [r0 s0']. cbn [fst snd] in *. subst r r0.
  split; [|apply H0]. split_and!; [exact eq_refl|exact Hne|]. destruct H as (Hq & _ & Hd).
  rewrite <- Hv. apply Hd. rewrite (proj2 (Hq 7)). exact Hh.
Defined.

(** No write-back is lost on release.  Giving back a handle always succeeds
    and changes the contents of no block; if it was the last handle of a
    write-through cache, then either the medium now holds what the clients saw,
    or the error of the write is latched where the next flush reports it.  An
    error already latched is never overwritten. *)
Theorem release_writes_or_latches {D : Type} {HD : Host D} {ph : Z} {HL : HostLaws D ph}
    (end_write : Z -> Z -> Z -> bdev D -> bdev D) (n : Z) (s : bdev D) (lba : Z)
    (Hs : ready (ph := ph) n s) (Hh : 0 < held s lba) :
  let '(r, s') := ext4_block_set end_write lba s in
  r = Ok tt /\ ready (ph := ph) n s' /\ (forall a, view s' a = view s a) /\
  held s' lba = held s lba - 1 /\
  (held s lba = 1 -> v_cache_write_back s = 0 ->
     c_io_err (v_bc s') <> EOK \/ dblk (v_dev s') lba = view s lba) /\
  (c_io_err (v_bc s) <> EOK -> c_io_err (v_bc s') = c_io_err (v_bc s)).
Proof.
  pose proof (block_set_wp end_write n s lba Hs Hh) as H. unfold wp in H.
  destruct (ext4_block_set end_write lba s) as [r s'].
  destruct H as (-> & [Q K] & R & O & Hh' & _ & Hm).
  split; [done|]. split; [done|]. split; [apply Q|]. split; [done|]. split; [|apply Q].
  intros H1 Hw. destruct (Z.eq_dec (c_io_err (v_bc s')) EOK) as [E|E]; [right|by left].
  rewrite <- (q_view _ _ Q). by apply Hm.
Qed.

(** Block 7, fetched and dirtied, on a device whose next write fails. *)
Definition ram_dirty : bdev ramdisk := snd (run_cops ram_end_write [CGet 7; CWrite 7 ones_1k] (ram_bdev 0 0)).
Lemma release_writes_or_latches_witness :
  c_io_err (v_bc (snd (ext4_block_set ram_end_write 7 ram_dirty))) = EIO /\
  view (snd (ext4_block_set ram_end_write 7 ram_dirty)) 7 = ones_1k.
Proof.
  pose proof (run_cops_refines ram_end_write [CGet 7; CWrite 7 ones_1k] 0 (ram_bdev 0 0) _
    (ram_bdev_ready 0 0) ltac:(reflexivity) ltac:(reflexivity) (ram_bdev_implements 0 0)) as R.
  pose proof (release_writes_or_latches ram_end_write 2 ram_dirty 7) as H.
  split; [vm_compute; reflexivity|].
  destruct (ext4_block_set ram_end_write 7 ram_dirty) as [r s'] eqn:E. cbn [snd].
  destruct H as (_ & _ & Hv & _).
  - unfold ram_dirty. destruct (run_cops ram_end_write _ (ram_bdev 0 0)) as [xs s0].
    destruct (abs_run _ _ _ _) as [ok t']. apply R.
  - vm_compute. reflexivity.
  - rewrite Hv. vm_compute. reflexivity.
Defined.

(** A hole is never followed.  [ext4_block_get] and [ext4_block_get_noread]
    refuse block 0, the mark of a hole, and every block past the end, with ENXIO
    and without touching the cache or the device; [ext4_block_get_sb] is the one
    way to the block of the superblock: it hands out block 0 when blocks are
    larger than 1 KiB and block 1 otherwise, and nothing else. *)
Theorem hole_refused {D : Type} {HD : Host D} {ph : Z} {HL : HostLaws D ph}
    (end_write : Z -> Z -> Z -> bdev D -> bdev D) (n : Z) (s : bdev D) (lba : Z)
    (Hs : ready (ph := ph) n s) (Hn : n + 1 < 2 ^ 32)
    (Hl : lba = 0 \/ d_lg_bcnt (v_dev s) <= lba) :
  ext4_block_get_noread end_write lba s = (Err ENXIO, s) /\
  ext4_block_get end_write lba s = (Err ENXIO, s) /\
  (forall a, fst (ext4_block_get_sb end_write s) = Ok a ->
     a = if 1024 <? d_lg_bsize (v_dev s) then 0 else 1).
Proof.
  assert (H0 : 0 <= lba).
  { destruct Hs as [(_ & (_ & _ & ? & _) & _) _]. lia. }
  pose proof (get_noread_wp end_write n s lba Hs Hn H0) as H1.
  pose proof (get_wp end_write n s lba Hs Hn H0) as H2.
  pose proof (get_sb_wp end_write n s Hs Hn) as H3. unfold wp in *. split_and!.
  - destruct (ext4_block_get_noread end_write lba s) as [r s']. by destruct H1 as (_ & _ & [-> ->]).
  - destruct (ext4_block_get end_write lba s) as [r s']. by destruct H2 as (_ & _ & [-> ->]).
  - intros a Ha. destruct (ext4_block_get_sb end_write s) as [r s']. cbn in Ha. subst r.
    by destruct H3 as (_ & -> & _).
Qed.

Lemma hole_refused_witness :
  ext4_block_get ram_end_write 0 (ram_bdev 0 0) = (Err ENXIO, ram_bdev 0 0).
Proof.
  refine (proj1 (proj2 (hole_refused ram_end_write 0 (ram_bdev 0 0) 0 (ram_bdev_ready 0 0) _ _)));
    [reflexivity|left; reflexivity].
Defined.
