(* ===== verification/Trans.v ===== *)
(** * Transactions and superblock transfers

    Core/lwext4/src/ext4_trans.c, and [ext4_sb_write], [ext4_sb_write_trans] and
    [ext4_sb_read] of src/ext4_super.c: the entry points through which the rest of
    the driver reaches the cache.  Whether a journal is
    running is in [journaling]; the two entry points of the running journal
    (src/ext4_journal.c) used here are parameters. *)

From S2P Require Import Prelude Layout Types Crc Super Device Bcache BcacheLaws CacheSpec CacheProps.

(** [fs->jbd_journal] and [fs->curr_trans], as null tests. *)
Record journaling := mk_journaling { jbd_journal : bool; curr_trans : bool }.
Definition no_journal : journaling := mk_journaling false false.

Section Trans.
Context {D : Type} {HD : Host D}.
Context (end_write : Z -> Z -> Z -> bdev D -> bdev D).
Context (jbd_trans_set_block_dirty jbd_trans_try_revoke_block : Z -> M (bdev D) unit).
Context (fs : journaling).

Definition ext4_trans_set_block_dirty (lba : Z) : M (bdev D) unit :=
  if jbd_journal fs && curr_trans fs then jbd_trans_set_block_dirty lba
  else bc_mod (on_buf lba ext4_bcache_set_dirty).

Definition ext4_trans_block_get_noread (lba : Z) : M (bdev D) unit :=
  ext4_block_get_noread end_write lba.
Definition ext4_trans_block_get (lba : Z) : M (bdev D) unit := ext4_block_get end_write lba.

Definition ext4_trans_try_revoke_block (lba : Z) : M (bdev D) unit :=
  if jbd_journal fs && curr_trans fs then jbd_trans_try_revoke_block lba
  else if jbd_journal fs then ext4_block_flush_lba end_write lba
  else mok tt.

(** The superblock in memory afterwards is [ext4_sb_set_csum s]. *)
Definition ext4_sb_write (s : list Z) : M (bdev D) unit :=
  let s := ext4_sb_set_csum s in
  on_dev (ext4_block_writebytes EXT4_SUPERBLOCK_OFFSET (slice 0 EXT4_SUPERBLOCK_SIZE s));;;
  lg_bsize <- mget (fun v => d_lg_bsize (v_dev v));;
  if lg_bsize =? 0 then mok tt
  else
    lba <- mget sb_lba;;
    bc_mod (ext4_bcache_update_if_cached lba (EXT4_SUPERBLOCK_OFFSET mod lg_bsize)
              (slice 0 EXT4_SUPERBLOCK_SIZE s)).

Definition ext4_sb_write_trans (s : list Z) : M (bdev D) unit :=
  lg_bsize <- mget (fun v => d_lg_bsize (v_dev v));;
  let off := EXT4_SUPERBLOCK_OFFSET mod lg_bsize in
  let s := ext4_sb_set_csum s in
  b <- ext4_block_get_sb end_write;;
  bc_mod (on_buf b (fun f =>
    buf_set_data (memcpy_at off (slice 0 EXT4_SUPERBLOCK_SIZE s) (b_data f)) f));;;
  r <- mtry (ext4_trans_set_block_dirty b);;
  mtry (ext4_block_set end_write b);;;
  match r with Ok _ => mok tt | Err rc => mfail rc end.

Definition ext4_sb_read : M (bdev D) (list Z) :=
  on_dev (ext4_block_readbytes EXT4_SUPERBLOCK_OFFSET EXT4_SUPERBLOCK_SIZE).
End Trans.

(** ** The superblock and the cache *)

Section SbWrite.
Context {D : Type} {HD : Host D} {ph : Z} {HL : HostLaws D ph}.
Context (end_write : Z -> Z -> Z -> bdev D -> bdev D).

(** A write of [p] at byte [off] of the partition, inside logical block [lba],
    as a change of that block alone. *)
Lemma patched_dblk (d d' : dev D) lba o p :
  dcfg d' = dcfg d -> 0 < d_lg_bsize d -> 0 <= o -> o + blen p <= d_lg_bsize d -> bytes_ok p ->
  patched (dbyte d) (dbyte d') (d_part_offset d + lba * d_lg_bsize d + o) p ->
  dblk d' lba = memcpy_at o p (dblk d lba) /\ forall a, a <> lba -> dblk d' a = dblk d a.
Proof.
  intros C Hlg Ho Hp Hok P. pose proof C as C'. unfold dcfg in C'.
  injection C' as _ _ C3 _ C5 _. pose proof (blen_nonneg p).
  assert (Hl : blen (dblk d lba) = d_lg_bsize d) by (apply blen_medium; lia). split.
  - assert (Hl' : blen (dblk d' lba) = d_lg_bsize d) by (unfold dblk; rewrite blen_medium; lia).
    apply bytes_ext; [apply bytes_ok_dblk| | |].
    + apply bytes_ok_memcpy_at; [done|apply bytes_ok_dblk].
    + rewrite blen_memcpy_at; lia.
    + intros j Hj. rewrite Hl' in Hj. rewrite byte_at_memcpy_at by lia. unfold dblk.
      rewrite !byte_at_medium by (first [intros; apply h_byte_range | lia]).
      rewrite C3, C5, P.
      destruct ((o <=? j) && (j <? o + blen p)) eqn:E.
      * replace ((_ <=? _) && (_ <? _)) with true by lia. f_equal. lia.
      * by replace ((_ <=? _) && (_ <? _)) with false by lia.
  - intros a Ha. unfold dblk. rewrite C3, C5. apply medium_ext. intros x Hx. rewrite P.
    replace ((_ <=? _) && (_ <? _)) with false; [done|]. symmetry. apply andb_false_iff.
    destruct (Z.lt_ge_cases a lba).
    + left. apply Z.leb_gt. assert ((a + 1) * d_lg_bsize d <= lba * d_lg_bsize d) by (apply Z.mul_le_mono_nonneg_r; lia). lia.
    + right. apply Z.ltb_ge. assert ((lba + 1) * d_lg_bsize d <= a * d_lg_bsize d) by (apply Z.mul_le_mono_nonneg_r; lia). lia.
Qed.
End SbWrite.
