(* ===== verification/Jbd.v ===== *)
(** * The journal on disk

    The structures of the journal (Core/lwext4/include/ext4_types.h) and the part
    of Core/lwext4/src/ext4_journal.c that encodes and decodes them: features,
    checksums, the tags of a descriptor block, the entries of a revoke block.

    Journal integers are big-endian; the host is little-endian, so [jbd_get32] is
    a read and a [reorder32].  [sb] is the journal's superblock, a buffer. *)

From stdpp Require Import strings.
From S2P Require Import Prelude Layout Types Crc Super BlockGroup.
Local Open Scope string_scope.

(** ** Byte order (include/ext4_misc.h) *)

Definition reorder64 (n : Z) : Z :=
  Z.lor (Z.shiftl (Z.land n 0xff) 56) (Z.lor (Z.shiftl (Z.land n 0xff00) 40)
  (Z.lor (Z.shiftl (Z.land n 0xff0000) 24) (Z.lor (Z.shiftl (Z.land n 0xff000000) 8)
  (Z.lor (Z.shiftr (Z.land n 0xff00000000) 8) (Z.lor (Z.shiftr (Z.land n 0xff0000000000) 24)
  (Z.lor (Z.shiftr (Z.land n 0xff000000000000) 40) (Z.shiftr (Z.land n 0xff00000000000000) 56))))))).
Definition reorder32 (n : Z) : Z :=
  Z.lor (Z.shiftl (Z.land n 0xff) 24) (Z.lor (Z.shiftl (Z.land n 0xff00) 8)
  (Z.lor (Z.shiftr (Z.land n 0xff0000) 8) (Z.shiftr (Z.land n 0xff000000) 24))).
Definition reorder16 (n : Z) : Z :=
  Z.lor (Z.shiftl (Z.land n 0xff) 8) (Z.shiftr (Z.land n 0xff00) 8).

Definition jbd_get32 (f : field) (p : Z) (b : list Z) : Z := reorder32 (rd f p b).
Definition jbd_get16 (f : field) (p : Z) (b : list Z) : Z := reorder16 (rd f p b).
Definition jbd_set32 (f : field) (p v : Z) (b : list Z) : list Z := wr f p (reorder32 v) b.
Definition jbd_set16 (f : field) (p v : Z) (b : list Z) : list Z := wr f p (reorder16 v) b.

(** ** Structures *)

Definition jbd_bhdr_layout : list (string * Z) := [("magic", 4); ("blocktype", 4); ("sequence", 4)].
Definition jbd_commit_header_layout : list (string * Z) :=
  [("header", 12); ("chksum_type", 1); ("chksum_size", 1); ("padding", 2); ("chksum[0]", 4);
   ("chksum[1..7]", 28); ("commit_sec", 8); ("commit_nsec", 4)].
Definition jbd_block_tag3_layout : list (string * Z) :=
  [("blocknr", 4); ("flags", 4); ("blocknr_high", 4); ("checksum", 4)].
Definition jbd_block_tag_layout : list (string * Z) :=
  [("blocknr", 4); ("checksum", 2); ("flags", 2); ("blocknr_high", 4)].
Definition jbd_block_tail_layout : list (string * Z) := [("checksum", 4)].
Definition jbd_revoke_header_layout : list (string * Z) := [("header", 12); ("count", 4)].
Definition jbd_sb_layout : list (string * Z) :=
  [("header", 12); ("blocksize", 4); ("maxlen", 4); ("first", 4); ("sequence", 4); ("start", 4);
   ("error_val", 4); ("feature_compat", 4); ("feature_incompat", 4); ("feature_ro_compat", 4);
   ("uuid", 16); ("nr_users", 4); ("dynsuper", 4); ("max_transaction", 4); ("max_trandata", 4);
   ("checksum_type", 1); ("padding2", 3); ("padding", 168); ("checksum", 4); ("users", 768)].

Definition jh_magic : field := Eval vm_compute in field_of jbd_bhdr_layout "magic".
Definition jh_blocktype : field := Eval vm_compute in field_of jbd_bhdr_layout "blocktype".
Definition jh_sequence : field := Eval vm_compute in field_of jbd_bhdr_layout "sequence".
Definition jc_chksum_type : field := Eval vm_compute in field_of jbd_commit_header_layout "chksum_type".
Definition jc_chksum_size : field := Eval vm_compute in field_of jbd_commit_header_layout "chksum_size".
Definition jc_chksum0 : field := Eval vm_compute in field_of jbd_commit_header_layout "chksum[0]".
Definition jt3_blocknr : field := Eval vm_compute in field_of jbd_block_tag3_layout "blocknr".
Definition jt3_flags : field := Eval vm_compute in field_of jbd_block_tag3_layout "flags".
Definition jt3_blocknr_high : field := Eval vm_compute in field_of jbd_block_tag3_layout "blocknr_high".
Definition jt3_checksum : field := Eval vm_compute in field_of jbd_block_tag3_layout "checksum".
Definition jt_blocknr : field := Eval vm_compute in field_of jbd_block_tag_layout "blocknr".
Definition jt_checksum : field := Eval vm_compute in field_of jbd_block_tag_layout "checksum".
Definition jt_flags : field := Eval vm_compute in field_of jbd_block_tag_layout "flags".
Definition jt_blocknr_high : field := Eval vm_compute in field_of jbd_block_tag_layout "blocknr_high".
Definition jtail_checksum : field := Eval vm_compute in field_of jbd_block_tail_layout "checksum".
Definition jr_count : field := Eval vm_compute in field_of jbd_revoke_header_layout "count".
Definition js_blocksize : field := Eval vm_compute in field_of jbd_sb_layout "blocksize".
Definition js_maxlen : field := Eval vm_compute in field_of jbd_sb_layout "maxlen".
Definition js_first : field := Eval vm_compute in field_of jbd_sb_layout "first".
Definition js_sequence : field := Eval vm_compute in field_of jbd_sb_layout "sequence".
Definition js_start : field := Eval vm_compute in field_of jbd_sb_layout "start".
Definition js_feature_compat : field := Eval vm_compute in field_of jbd_sb_layout "feature_compat".
Definition js_feature_incompat : field := Eval vm_compute in field_of jbd_sb_layout "feature_incompat".
Definition js_uuid : field := Eval vm_compute in field_of jbd_sb_layout "uuid".
Definition js_checksum : field := Eval vm_compute in field_of jbd_sb_layout "checksum".

Definition JBD_BHDR : Z := Eval vm_compute in layout_size jbd_bhdr_layout.
Definition JBD_TAG3 : Z := Eval vm_compute in layout_size jbd_block_tag3_layout.
Definition JBD_TAG : Z := Eval vm_compute in layout_size jbd_block_tag_layout.
Definition JBD_TAIL : Z := Eval vm_compute in layout_size jbd_block_tail_layout.
Definition JBD_REVOKE_HEADER : Z := Eval vm_compute in layout_size jbd_revoke_header_layout.
Definition JBD_SUPERBLOCK_SIZE : Z := Eval vm_compute in layout_size jbd_sb_layout.
Definition UUID_SIZE : Z := 16.

Local Close Scope string_scope.

Definition JBD_MAGIC_NUMBER : Z := 0xc03b3998.
Definition JBD_DESCRIPTOR_BLOCK : Z := 1.
Definition JBD_COMMIT_BLOCK : Z := 2.
Definition JBD_SUPERBLOCK : Z := 3.
Definition JBD_SUPERBLOCK_V2 : Z := 4.
Definition JBD_REVOKE_BLOCK : Z := 5.
Definition JBD_FLAG_ESCAPE : Z := 1.
Definition JBD_FLAG_SAME_UUID : Z := 2.
Definition JBD_FLAG_LAST_TAG : Z := 8.
Definition JBD_FEATURE_COMPAT_CHECKSUM : Z := 1.
Definition JBD_FEATURE_INCOMPAT_64BIT : Z := 2.
Definition JBD_FEATURE_INCOMPAT_CSUM_V2 : Z := 8.
Definition JBD_FEATURE_INCOMPAT_CSUM_V3 : Z := 16.
Definition EXT4_CRC32_INIT : Z := 0xFFFFFFFF.

(** ** Features *)

(** The comparison is of the integers as they lie in memory. *)
Definition JBD_HAS_INCOMPAT_FEATURE (sb : list Z) (mask : Z) : bool :=
  (reorder32 2 <=? rd jh_blocktype 0 sb) &&
  negb (Z.land (rd js_feature_incompat 0 sb) (reorder32 mask) =? 0).
Definition jbd_has_csum (sb : list Z) : Z :=
  if JBD_HAS_INCOMPAT_FEATURE sb JBD_FEATURE_INCOMPAT_CSUM_V2 then 2
  else if JBD_HAS_INCOMPAT_FEATURE sb JBD_FEATURE_INCOMPAT_CSUM_V3 then 3
  else 0.

Definition jbd_blocksize (sb : list Z) : Z := jbd_get32 js_blocksize 0 sb.
Definition jbd_uuid (sb : list Z) : list Z := slice (f_off js_uuid) UUID_SIZE sb.

(** ** Checksums *)

(** The checksum's own field is 0 while it is computed. *)
Definition jbd_sb_csum (sb : list Z) : Z :=
  if negb (jbd_has_csum sb =? 0)
  then ext4_crc32c EXT4_CRC32_INIT (slice 0 JBD_SUPERBLOCK_SIZE (jbd_set32 js_checksum 0 0 sb))
  else 0.
Definition jbd_sb_csum_set (sb : list Z) : list Z :=
  if jbd_has_csum sb =? 0 then sb else jbd_set32 js_checksum 0 (jbd_sb_csum sb) sb.
Definition jbd_verify_sb_csum (sb : list Z) : bool :=
  if jbd_has_csum sb =? 0 then true else jbd_sb_csum sb =? jbd_get32 js_checksum 0 sb.
Definition jbd_verify_sb (sb : list Z) : bool :=
  if negb (jbd_get32 jh_magic 0 sb =? JBD_MAGIC_NUMBER) then false
  else if negb (jbd_get32 jh_blocktype 0 sb =? JBD_SUPERBLOCK) &&
          negb (jbd_get32 jh_blocktype 0 sb =? JBD_SUPERBLOCK_V2) then false
  else jbd_verify_sb_csum sb.

(** Byte of the tail of a descriptor or revoke block. *)
Definition jbd_tail (sb : list Z) : Z := jbd_blocksize sb - JBD_TAIL.
Definition jbd_meta_csum (sb b : list Z) : Z :=
  if negb (jbd_has_csum sb =? 0) then
    let b := wr jtail_checksum (jbd_tail sb) 0 b in
    ext4_crc32c (ext4_crc32c EXT4_CRC32_INIT (jbd_uuid sb)) (slice 0 (jbd_blocksize sb) b)
  else 0.
Definition jbd_meta_csum_set (sb b : list Z) : list Z :=
  if jbd_has_csum sb =? 0 then b
  else wr jtail_checksum (jbd_tail sb) (reorder32 (jbd_meta_csum sb b)) b.
Definition jbd_verify_meta_csum (sb b : list Z) : bool :=
  if jbd_has_csum sb =? 0 then true
  else jbd_meta_csum sb b =? reorder32 (rd jtail_checksum (jbd_tail sb) b).

Definition jbd_commit_csum (sb b : list Z) : Z :=
  if negb (jbd_has_csum sb =? 0) then
    let b := wr jc_chksum_type 0 0 b in
    let b := wr jc_chksum_size 0 0 b in
    let b := wr jc_chksum0 0 0 b in
    ext4_crc32c (ext4_crc32c EXT4_CRC32_INIT (jbd_uuid sb)) (slice 0 (jbd_blocksize sb) b)
  else 0.
Definition jbd_commit_csum_set (sb b : list Z) : list Z :=
  if jbd_has_csum sb =? 0 then b
  else
    let b := wr jc_chksum_type 0 0 b in
    let b := wr jc_chksum_size 0 0 b in
    wr jc_chksum0 0 (reorder32 (jbd_commit_csum sb b)) b.
Definition jbd_verify_commit_csum (sb b : list Z) : bool :=
  if jbd_has_csum sb =? 0 then true
  else rd jc_chksum0 0 b =? reorder32 (jbd_commit_csum sb b).

Definition jbd_block_csum (sb buf : list Z) (csum sequence : Z) : Z :=
  if negb (jbd_has_csum sb =? 0) then
    let checksum := ext4_crc32c EXT4_CRC32_INIT (jbd_uuid sb) in
    let checksum := ext4_crc32c checksum (le32_bytes (reorder32 sequence)) in
    ext4_crc32c checksum (slice 0 (jbd_blocksize sb) buf)
  else if JBD_HAS_INCOMPAT_FEATURE sb JBD_FEATURE_COMPAT_CHECKSUM
  then ext4_crc32 csum (slice 0 (jbd_blocksize sb) buf)
  else 0.

(** [t]: the byte a tag starts at. *)
Definition jbd_block_tag_csum_set (sb : list Z) (t checksum : Z) (b : list Z) : list Z :=
  let ver := jbd_has_csum sb in
  if ver =? 0 then b
  else if ver =? 2 then wr jt_checksum t (u16 (reorder32 checksum)) b
  else wr jt3_checksum t (reorder32 checksum) b.

(** ** Tags *)

Definition jbd_tag_bytes (sb : list Z) : Z :=
  if JBD_HAS_INCOMPAT_FEATURE sb JBD_FEATURE_INCOMPAT_CSUM_V3 then JBD_TAG3
  else
    let size := if JBD_HAS_INCOMPAT_FEATURE sb JBD_FEATURE_INCOMPAT_CSUM_V2 then JBD_TAG + 2 else JBD_TAG in
    if JBD_HAS_INCOMPAT_FEATURE sb JBD_FEATURE_INCOMPAT_64BIT then size else size - 4.

Record tag_info := mk_tag_info {
  ti_tag_bytes : Z;
  ti_block : Z;
  ti_is_escape : bool;
  ti_uuid_exist : bool;
  ti_uuid : list Z;
  ti_last_tag : bool;
  ti_checksum : Z;
}.

(** The two kinds of tag differ in the place and width of the flags. *)
Definition tag_flags (sb : list Z) (t : Z) (b : list Z) : Z :=
  if JBD_HAS_INCOMPAT_FEATURE sb JBD_FEATURE_INCOMPAT_CSUM_V3 then jbd_get32 jt3_flags t b
  else jbd_get16 jt_flags t b.
Definition tag_blocknr (sb : list Z) (t : Z) (b : list Z) : Z :=
  let v3 := JBD_HAS_INCOMPAT_FEATURE sb JBD_FEATURE_INCOMPAT_CSUM_V3 in
  let block := jbd_get32 (if v3 then jt3_blocknr else jt_blocknr) t b in
  if JBD_HAS_INCOMPAT_FEATURE sb JBD_FEATURE_INCOMPAT_64BIT
  then Z.lor block (Z.shiftl (jbd_get32 (if v3 then jt3_blocknr_high else jt_blocknr_high) t b) 32)
  else block.

(** The tag at byte [t].  The checksum is not read; where there is no UUID its
    bytes are not set. *)
Definition jbd_extract_block_tag (sb : list Z) (t tag_bytes remain_buf_size : Z) (b : list Z)
  : result tag_info :=
  if remain_buf_size - tag_bytes <? 0 then Err EINVAL
  else
    let flags := tag_flags sb t b in
    let uuid := Z.land flags JBD_FLAG_SAME_UUID =? 0 in
    if uuid && (remain_buf_size - tag_bytes <? UUID_SIZE) then Err EINVAL
    else Ok (mk_tag_info
      (if uuid then tag_bytes + UUID_SIZE else tag_bytes)
      (tag_blocknr sb t b)
      (negb (Z.land flags JBD_FLAG_ESCAPE =? 0))
      uuid (if uuid then slice (t + tag_bytes) UUID_SIZE b else [])
      (negb (Z.land flags JBD_FLAG_LAST_TAG =? 0)) 0).

Definition tag_or_flags (sb : list Z) (t flag : Z) (b : list Z) : list Z :=
  if JBD_HAS_INCOMPAT_FEATURE sb JBD_FEATURE_INCOMPAT_CSUM_V3
  then jbd_set32 jt3_flags t (Z.lor (jbd_get32 jt3_flags t b) flag) b
  else jbd_set16 jt_flags t (Z.lor (jbd_get16 jt_flags t b) flag) b.

(** The tag's size, and the buffer with the tag at byte [t]. *)
Definition jbd_write_block_tag (sb : list Z) (t remain_buf_size : Z) (ti : tag_info) (b : list Z)
  : result Z * list Z :=
  let tag_bytes := jbd_tag_bytes sb in
  if remain_buf_size - tag_bytes <? 0 then (Err EINVAL, b)
  else
    let v3 := JBD_HAS_INCOMPAT_FEATURE sb JBD_FEATURE_INCOMPAT_CSUM_V3 in
    let b := memset_at t 0 (if v3 then JBD_TAG3 else JBD_TAG) b in
    let b := jbd_set32 (if v3 then jt3_blocknr else jt_blocknr) t (u32 (ti_block ti)) b in
    let b := if JBD_HAS_INCOMPAT_FEATURE sb JBD_FEATURE_INCOMPAT_64BIT
             then jbd_set32 (if v3 then jt3_blocknr_high else jt_blocknr_high) t
                    (u32 (Z.shiftr (ti_block ti) 32)) b
             else b in
    if ti_uuid_exist ti && (remain_buf_size - tag_bytes <? UUID_SIZE) then (Err EINVAL, b)
    else
      let b := if ti_uuid_exist ti then memcpy_at (t + tag_bytes) (ti_uuid ti) b
               else tag_or_flags sb t JBD_FLAG_SAME_UUID b in
      let b := jbd_block_tag_csum_set sb t (ti_checksum ti) b in
      let b := if ti_last_tag ti then tag_or_flags sb t JBD_FLAG_LAST_TAG b else b in
      let b := if ti_is_escape ti then tag_or_flags sb t JBD_FLAG_ESCAPE b else b in
      (Ok (if ti_uuid_exist ti then tag_bytes + UUID_SIZE else tag_bytes), b).

(** [while (tag_tbl_size)]: the tags the callback is run on, from byte [t] on. *)
Fixpoint block_tags (fuel : nat) (sb : list Z) (t tag_tbl_size : Z) (b : list Z) : list tag_info :=
  match fuel with
  | O => []
  | S fuel =>
      if tag_tbl_size =? 0 then []
      else
        match jbd_extract_block_tag sb t (jbd_tag_bytes sb) tag_tbl_size b with
        | Err _ => []
        | Ok ti =>
            if ti_last_tag ti then [ti]
            else ti :: block_tags fuel sb (t + ti_tag_bytes ti) (tag_tbl_size - ti_tag_bytes ti) b
        end
  end.

(** The tags of a descriptor block.  [jbd_iterate_block_table] runs its callback
    on each, in order. *)
Definition table_size (sb : list Z) : Z :=
  let size := i32 (jbd_blocksize sb - JBD_BHDR) in
  if JBD_HAS_INCOMPAT_FEATURE sb JBD_FEATURE_INCOMPAT_CSUM_V2 ||
     JBD_HAS_INCOMPAT_FEATURE sb JBD_FEATURE_INCOMPAT_CSUM_V3
  then size - JBD_TAIL else size.
Definition descriptor_tags (sb b : list Z) : list tag_info :=
  block_tags (Z.to_nat (table_size sb)) sb JBD_BHDR (table_size sb) b.

(** ** Revoke blocks *)

Definition revoke_record_len (sb : list Z) : Z :=
  if JBD_HAS_INCOMPAT_FEATURE sb JBD_FEATURE_INCOMPAT_64BIT then 8 else 4.
Definition revoke_entry_at (sb : list Z) (i : Z) (b : list Z) : Z :=
  let len := revoke_record_len sb in
  let v := get_le (Z.to_nat len) (JBD_REVOKE_HEADER + len * i) b in
  if len =? 8 then reorder64 v else reorder32 v.
(** The blocks a revoke block names. *)
Definition revoke_block_entries (sb b : list Z) : list Z :=
  let count := jbd_get32 jr_count 0 b in
  if (count <? JBD_REVOKE_HEADER) || (jbd_blocksize sb <? count) then []
  else
    let nr_entries := (count - JBD_REVOKE_HEADER) / revoke_record_len sb in
    map (fun i => revoke_entry_at sb (Z.of_nat i) b) (seq 0 (Z.to_nat nr_entries)).
