(* ===== verification/JbdLaws.v ===== *)
(** * Laws of the journal's encoding

    Byte order, the checksums of journal blocks, and the tags of a descriptor
    block: what is written is read back. *)

From S2P Require Import Prelude Layout Types Crc Super BlockGroup Jbd.

(** ** Byte order *)

(** Byte [i] of an integer. *)
Lemma land_byte n i :
  0 <= i -> Z.land n (Z.shiftl 255 (8 * i)) = Z.shiftl (Z.shiftr n (8 * i) mod 256) (8 * i).
Proof.
  intros Hi. apply Z.bits_inj'. intros m Hm. rewrite Z.land_spec, !Z.shiftl_spec by lia.
  destruct (Z.lt_ge_cases m (8 * i)).
  - rewrite !(Z.testbit_neg_r _ (m - 8 * i)) by lia. apply andb_false_r.
  - change 256 with (2 ^ 8). change 255 with (Z.ones 8). rewrite Z.testbit_ones_nonneg by lia.
    destruct (Z.ltb_spec (m - 8 * i) 8).
    + rewrite Z.mod_pow2_bits_low, Z.shiftr_spec by lia. rewrite andb_true_r. f_equal. lia.
    + rewrite Z.mod_pow2_bits_high by lia. apply andb_false_r.
Qed.

Lemma shiftl_shiftr_byte x a b : 0 <= a <= b -> Z.shiftr (Z.shiftl x b) a = Z.shiftl x (b - a).
Proof. intros. rewrite Z.shiftr_shiftl_l by lia. done. Qed.

Lemma lor_high k lo hi : 0 <= k -> 0 <= lo < 2 ^ k -> Z.lor (Z.shiftl hi k) lo = lo + 2 ^ k * hi.
Proof. intros. rewrite lor_shiftl_add by done. lia. Qed.

Lemma reorder16_value n : reorder16 n = (n / 256) mod 256 + 256 * (n mod 256).
Proof.
  unfold reorder16. change 0xff with (Z.shiftl 255 (8 * 0)). change 0xff00 with (Z.shiftl 255 (8 * 1)).
  rewrite !land_byte by lia. cbn [Z.mul Pos.mul]. rewrite Z.shiftl_0_r, !Z.shiftr_0_r.
  rewrite shiftl_shiftr_byte by lia. rewrite Z.shiftl_0_r, Z.shiftr_div_pow2 by lia.
  change (2 ^ 8) with 256. pose proof (Z.mod_pos_bound (n / 256) 256 ltac:(lia)).
  change (2 ^ (8 * 1)) with 256. rewrite (lor_high 8) by lia. lia.
Qed.
Lemma reorder32_value n :
  reorder32 n = (n / 2 ^ 24) mod 256 + 256 * ((n / 2 ^ 16) mod 256) + 2 ^ 16 * ((n / 256) mod 256) + 2 ^ 24 * (n mod 256).
Proof.
  unfold reorder32. change 0xff with (Z.shiftl 255 (8 * 0)). change 0xff00 with (Z.shiftl 255 (8 * 1)).
  change 0xff0000 with (Z.shiftl 255 (8 * 2)). change 0xff000000 with (Z.shiftl 255 (8 * 3)).
  rewrite !land_byte by lia. cbn [Z.mul Pos.mul]. rewrite Z.shiftl_0_r, !Z.shiftr_0_r, Z.shiftl_shiftl by lia.
  rewrite !shiftl_shiftr_byte by lia. cbn [Z.add Pos.add Pos.succ Z.sub Z.opp Z.pos_sub Pos.pred_double Pos.sub Pos.sub_mask].
  rewrite !Z.shiftr_div_pow2 by lia. change (2 ^ 8) with 256.
  pose proof (Z.mod_pos_bound (n / 2 ^ 24) 256 ltac:(lia)). pose proof (Z.mod_pos_bound (n / 2 ^ 16) 256 ltac:(lia)).
  pose proof (Z.mod_pos_bound (n / 256) 256 ltac:(lia)). pose proof (Z.mod_pos_bound n 256 ltac:(lia)).
  change (2 ^ (8 * 1)) with 256. change (8 * 1 + 8) with 16. change (8 * 2 - 8) with 8.
  change (8 * 2) with 16. change (8 * 3) with 24. change (24 - 24) with 0. rewrite Z.shiftl_0_r.
  rewrite (lor_high 8) by lia. rewrite (lor_high 16) by lia. rewrite (lor_high 24) by lia. lia.
Qed.

(** Both swap the bytes of a number: they undo themselves. *)
Lemma reorder16_range n : 0 <= reorder16 n < 2 ^ 16.
Proof.
  rewrite reorder16_value. pose proof (Z.mod_pos_bound (n / 256) 256 ltac:(lia)).
  pose proof (Z.mod_pos_bound n 256 ltac:(lia)). lia.
Qed.
Lemma reorder32_range n : 0 <= reorder32 n < 2 ^ 32.
Proof.
  rewrite reorder32_value. pose proof (Z.mod_pos_bound (n / 2 ^ 24) 256 ltac:(lia)).
  pose proof (Z.mod_pos_bound (n / 2 ^ 16) 256 ltac:(lia)). pose proof (Z.mod_pos_bound (n / 256) 256 ltac:(lia)).
  pose proof (Z.mod_pos_bound n 256 ltac:(lia)). lia.
Qed.
Lemma reorder16_bytes a b : 0 <= a < 256 -> 0 <= b < 256 -> reorder16 (a + 256 * b) = b + 256 * a.
Proof. intros. rewrite reorder16_value. dlia. Qed.
Lemma reorder32_bytes a b c d :
  0 <= a < 256 -> 0 <= b < 256 -> 0 <= c < 256 -> 0 <= d < 256 ->
  reorder32 (a + 256 * b + 2 ^ 16 * c + 2 ^ 24 * d) = d + 256 * c + 2 ^ 16 * b + 2 ^ 24 * a.
Proof.
  intros. rewrite reorder32_value. change (2 ^ 24) with 16777216. change (2 ^ 16) with 65536. dlia.
Qed.
Lemma reorder16_reorder16 n : 0 <= n < 2 ^ 16 -> reorder16 (reorder16 n) = n.
Proof.
  intros. rewrite (reorder16_value n), reorder16_bytes by (apply Z.mod_pos_bound; lia). dlia.
Qed.
Lemma reorder32_reorder32 n : 0 <= n < 2 ^ 32 -> reorder32 (reorder32 n) = n.
Proof.
  intros. rewrite (reorder32_value n), reorder32_bytes by (apply Z.mod_pos_bound; lia).
  change (2 ^ 24) with 16777216. change (2 ^ 16) with 65536. dlia.
Qed.

(** The 64-bit swap, by halves. *)
Lemma byte_of n k j : 0 <= k -> 0 <= j -> j + 8 <= 32 -> ((n / 2 ^ k) mod 2 ^ 32 / 2 ^ j) mod 256 = (n / 2 ^ (k + j)) mod 256.
Proof.
  intros Hk Hj Hb. rewrite Z.pow_add_r, <- Z.div_div by lia. set (m := n / 2 ^ k).
  change 256 with (2 ^ 8). rewrite <- !Z.land_ones, <- !Z.shiftr_div_pow2 by lia.
  apply Z.bits_inj'. intros i Hi. rewrite !Z.land_spec, !Z.shiftr_spec, Z.land_spec, !Z.testbit_ones by lia.
  destruct (Z.ltb_spec i 8); [|by rewrite !andb_false_r].
  replace ((0 <=? i + j) && (i + j <? 32)) with true by lia. by rewrite andb_true_r.
Qed.
Lemma reorder64_value n : reorder64 n = reorder32 ((n / 2 ^ 32) mod 2 ^ 32) + 2 ^ 32 * reorder32 (n mod 2 ^ 32).
Proof.
  set (B := fun i => (n / 2 ^ (8 * i)) mod 256).
  assert (HB : forall i, 0 <= B i < 256) by (intros; apply Z.mod_pos_bound; lia).
  assert (E1 : reorder32 ((n / 2 ^ 32) mod 2 ^ 32) = B 7 + 256 * B 6 + 2 ^ 16 * B 5 + 2 ^ 24 * B 4).
  { rewrite reorder32_value. rewrite !byte_of by lia.
    pose proof (byte_of n 32 8 ltac:(lia) ltac:(lia) ltac:(lia)) as H8. change (2 ^ 8) with 256 in H8. rewrite H8.
    pose proof (byte_of n 32 0 ltac:(lia) ltac:(lia) ltac:(lia)) as H0. rewrite Z.pow_0_r, Z.div_1_r in H0. rewrite H0. done. }
  assert (E2 : reorder32 (n mod 2 ^ 32) = B 3 + 256 * B 2 + 2 ^ 16 * B 1 + 2 ^ 24 * B 0).
  { replace (n mod 2 ^ 32) with ((n / 2 ^ 0) mod 2 ^ 32) by (by rewrite Z.pow_0_r, Z.div_1_r).
    rewrite reorder32_value. rewrite !byte_of by lia.
    pose proof (byte_of n 0 8 ltac:(lia) ltac:(lia) ltac:(lia)) as H8. change (2 ^ 8) with 256 in H8. rewrite H8.
    pose proof (byte_of n 0 0 ltac:(lia) ltac:(lia) ltac:(lia)) as H0. rewrite !Z.pow_0_r, !Z.div_1_r in H0. rewrite Z.pow_0_r, Z.div_1_r, H0.
    unfold B. change (8 * 0) with 0. by rewrite Z.pow_0_r, Z.div_1_r. }
  rewrite E1, E2. unfold reorder64.
  change 0xff with (Z.shiftl 255 (8 * 0)). change 0xff00 with (Z.shiftl 255 (8 * 1)).
  change 0xff0000 with (Z.shiftl 255 (8 * 2)). change 0xff000000 with (Z.shiftl 255 (8 * 3)).
  change 0xff00000000 with (Z.shiftl 255 (8 * 4)). change 0xff0000000000 with (Z.shiftl 255 (8 * 5)).
  change 0xff000000000000 with (Z.shiftl 255 (8 * 6)). change 0xff00000000000000 with (Z.shiftl 255 (8 * 7)).
  assert (EB : forall i, 0 <= i -> Z.land n (Z.shiftl 255 (8 * i)) = Z.shiftl (B i) (8 * i)).
  { intros i Hi. rewrite land_byte by done. unfold B. by rewrite Z.shiftr_div_pow2 by lia. }
  rewrite !EB by lia. rewrite !Z.shiftl_shiftl by lia. rewrite !shiftl_shiftr_byte by lia.
  pose proof (HB 0). pose proof (HB 1). pose proof (HB 2). pose proof (HB 3). pose proof (HB 4).
  pose proof (HB 5). pose proof (HB 6). pose proof (HB 7). clearbody B.
  change (8 * 7 - 56) with 0. rewrite Z.shiftl_0_r.
  change (8 * 0 + 56) with 56. change (8 * 1 + 40) with 48. change (8 * 2 + 24) with 40. change (8 * 3 + 8) with 32.
  change (8 * 4 - 8) with 24. change (8 * 5 - 24) with 16. change (8 * 6 - 40) with 8.
  rewrite (lor_high 8), (lor_high 16), (lor_high 24), (lor_high 32), (lor_high 40), (lor_high 48), (lor_high 56) by lia. lia.
Qed.
Lemma reorder64_range n : 0 <= reorder64 n < 2 ^ 64.
Proof.
  rewrite reorder64_value. pose proof (reorder32_range ((n / 2 ^ 32) mod 2 ^ 32)). pose proof (reorder32_range (n mod 2 ^ 32)). lia.
Qed.
Lemma reorder64_reorder64 n : 0 <= n < 2 ^ 64 -> reorder64 (reorder64 n) = n.
Proof.
  intros Hn. rewrite (reorder64_value n). set (h := (n / 2 ^ 32) mod 2 ^ 32). set (l := n mod 2 ^ 32).
  pose proof (reorder32_range h). pose proof (reorder32_range l).
  assert (0 <= h < 2 ^ 32) by (apply Z.mod_pos_bound; lia). assert (0 <= l < 2 ^ 32) by (apply Z.mod_pos_bound; lia).
  assert (En : n = l + 2 ^ 32 * h).
  { unfold h, l. rewrite (Z.mod_small (n / 2 ^ 32)); [pose proof (Z.div_mod n (2 ^ 32)); lia|].
    split; [apply Z.div_pos; lia|apply Z.div_lt_upper_bound; lia]. }
  rewrite reorder64_value. set (a := reorder32 h) in *. set (b := reorder32 l) in *.
  replace ((a + 2 ^ 32 * b) / 2 ^ 32) with b by (rewrite Z.add_comm, Z.mul_comm, Z.div_add_l, Z.div_small by lia; lia).
  replace ((a + 2 ^ 32 * b) mod 2 ^ 32) with a by (rewrite Z.mul_comm, Z_mod_plus_full, Z.mod_small; lia).
  rewrite (Z.mod_small b) by lia. unfold a, b. rewrite !reorder32_reorder32 by done. lia.
Qed.

(** ** Fields *)

Lemma jbd_get32_range f p b : 0 <= jbd_get32 f p b < 2 ^ 32.
Proof. apply reorder32_range. Qed.
Lemma jbd_get16_range f p b : 0 <= jbd_get16 f p b < 2 ^ 16.
Proof. apply reorder16_range. Qed.
Lemma jbd_get_set32 f p v b n :
  f_within n f = true -> f_size f = 4 -> 0 <= p -> p + n <= blen b -> 0 <= v < 2 ^ 32 ->
  jbd_get32 f p (jbd_set32 f p v b) = v.
Proof.
  intros Hf Hs Hp Hb Hv. unfold jbd_get32, jbd_set32. rewrite (rd_wr_eq f p _ b n), Hs by done.
  rewrite Z.mod_small by apply reorder32_range. by apply reorder32_reorder32.
Qed.
Lemma jbd_get_set16 f p v b n :
  f_within n f = true -> f_size f = 2 -> 0 <= p -> p + n <= blen b -> 0 <= v < 2 ^ 16 ->
  jbd_get16 f p (jbd_set16 f p v b) = v.
Proof.
  intros Hf Hs Hp Hb Hv. unfold jbd_get16, jbd_set16. rewrite (rd_wr_eq f p _ b n), Hs by done.
  rewrite Z.mod_small by apply reorder16_range. by apply reorder16_reorder16.
Qed.

(** ** One tag *)

Section Tag.
Context (sb : list Z).
Local Abbreviation b64 := (JBD_HAS_INCOMPAT_FEATURE sb JBD_FEATURE_INCOMPAT_64BIT).
Local Abbreviation v2 := (JBD_HAS_INCOMPAT_FEATURE sb JBD_FEATURE_INCOMPAT_CSUM_V2).
Local Abbreviation v3 := (JBD_HAS_INCOMPAT_FEATURE sb JBD_FEATURE_INCOMPAT_CSUM_V3).
Context (Hv : v2 && v3 = false).

(** The bytes that clearing a tag touches. *)
Definition tag_room : Z := if v3 then JBD_TAG3 else JBD_TAG.

Lemma tag_bytes_cases :
  jbd_tag_bytes sb = if v3 then 16 else if v2 then (if b64 then 14 else 10) else (if b64 then 12 else 8).
Proof. unfold jbd_tag_bytes. by destruct v3, v2, b64. Qed.
Lemma tag_bytes_range : 8 <= jbd_tag_bytes sb <= 16.
Proof. rewrite tag_bytes_cases. by destruct v3, v2, b64. Qed.

Section At.
Context (t : Z) (Ht : 0 <= t).

Lemma blen_or_flags f b : blen (tag_or_flags sb t f b) = blen b.
Proof. unfold tag_or_flags, jbd_set32, jbd_set16. case_match; by rewrite blen_wr. Qed.
Lemma blen_tag_csum c b : blen (jbd_block_tag_csum_set sb t c b) = blen b.
Proof. unfold jbd_block_tag_csum_set. repeat case_match; by rewrite ?blen_wr. Qed.

(** A store into a tag touches the tag's bytes. *)
Lemma or_flags_out f b : changed_in t (t + jbd_tag_bytes sb) b (tag_or_flags sb t f b).
Proof.
  rewrite tag_bytes_cases. unfold tag_or_flags, jbd_set32, jbd_set16.
  destruct v3; [by apply (changed_in_wr _ _ _ _ 16)|].
  eapply changed_in_weaken; [by apply (changed_in_wr jt_flags _ _ _ 8)|lia|]. repeat case_match; lia.
Qed.
Lemma tag_csum_out c b : changed_in t (t + jbd_tag_bytes sb) b (jbd_block_tag_csum_set sb t c b).
Proof.
  rewrite tag_bytes_cases. unfold jbd_block_tag_csum_set, jbd_has_csum.
  generalize Hv. destruct v2, v3; cbn [negb Z.eqb Pos.eqb andb]; intros ?; try done.
  - eapply changed_in_weaken; [by apply (changed_in_wr jt_checksum _ _ _ 8)|lia|]. case_match; lia.
  - by apply (changed_in_wr _ _ _ _ 16).
Qed.

Lemma flags_or f b :
  0 <= f < 2 ^ 16 -> t + tag_room <= blen b ->
  tag_flags sb t (tag_or_flags sb t f b) = Z.lor (tag_flags sb t b) f.
Proof.
  unfold tag_flags, tag_or_flags, tag_room. intros Hf Hb. destruct v3.
  - apply (jbd_get_set32 _ _ _ _ 16); try done. apply lor_range; [lia|apply jbd_get32_range|lia].
  - apply (jbd_get_set16 _ _ _ _ 12); try done. apply lor_range; [lia|apply jbd_get16_range|lia].
Qed.
Lemma blocknr_or f b : tag_blocknr sb t (tag_or_flags sb t f b) = tag_blocknr sb t b.
Proof.
  unfold tag_blocknr, tag_or_flags, jbd_get32, jbd_set32, jbd_set16.
  destruct v3; by rewrite !rd_wr_ne.
Qed.
Lemma flags_csum c b : tag_flags sb t (jbd_block_tag_csum_set sb t c b) = tag_flags sb t b.
Proof.
  unfold tag_flags, jbd_block_tag_csum_set, jbd_has_csum, jbd_get32, jbd_get16.
  generalize Hv. destruct v2, v3; cbn [negb Z.eqb Pos.eqb andb]; intros ?; try done; by rewrite rd_wr_ne.
Qed.
Lemma blocknr_csum c b : tag_blocknr sb t (jbd_block_tag_csum_set sb t c b) = tag_blocknr sb t b.
Proof.
  unfold tag_blocknr, jbd_block_tag_csum_set, jbd_has_csum, jbd_get32.
  generalize Hv. destruct v2, v3; cbn [negb Z.eqb Pos.eqb andb]; intros ?; try done; by rewrite !rd_wr_ne.
Qed.

(** What a tag says depends on its own bytes. *)
Lemma blocknr_ext b b' :
  (forall j, t <= j < t + jbd_tag_bytes sb -> byte_at b j = byte_at b' j) ->
  tag_blocknr sb t b = tag_blocknr sb t b'.
Proof.
  rewrite tag_bytes_cases. intros H. unfold tag_blocknr, jbd_get32. destruct v3.
  - by rewrite (rd_ext jt3_blocknr t b b' 16), (rd_ext jt3_blocknr_high t b b' 16).
  - rewrite (rd_ext jt_blocknr t b b' 8) by (done || intros; apply H; repeat case_match; lia).
    destruct b64; [|done]. by rewrite (rd_ext jt_blocknr_high t b b' 12) by (done || intros; apply H; case_match; lia).
Qed.
Lemma flags_ext b b' :
  (forall j, t <= j < t + jbd_tag_bytes sb -> byte_at b j = byte_at b' j) ->
  tag_flags sb t b = tag_flags sb t b'.
Proof.
  rewrite tag_bytes_cases. intros H. unfold tag_flags, jbd_get32, jbd_get16. destruct v3.
  - by rewrite (rd_ext jt3_flags t b b' 16).
  - by rewrite (rd_ext jt_flags t b b' 8) by (done || intros; apply H; repeat case_match; lia).
Qed.

(** The tag as it is written, but for its flags. *)
Definition plain_tag (block : Z) (b : list Z) : list Z :=
  let b := memset_at t 0 tag_room b in
  let b := jbd_set32 (if v3 then jt3_blocknr else jt_blocknr) t (u32 block) b in
  if b64 then jbd_set32 (if v3 then jt3_blocknr_high else jt_blocknr_high) t (u32 (Z.shiftr block 32)) b else b.

Lemma tag_room_range : 12 <= tag_room <= 16.
Proof. unfold tag_room. by destruct v3. Qed.

Lemma plain_tag_spec block b :
  bytes_ok b -> t + tag_room <= blen b -> 0 <= block < (if b64 then 2 ^ 64 else 2 ^ 32) ->
  let b' := plain_tag block b in
  bytes_ok b' /\ blen b' = blen b /\ (forall j, 0 <= j < t -> byte_at b' j = byte_at b j) /\
  tag_flags sb t b' = 0 /\ tag_blocknr sb t b' = block.
Proof.
  intros Hb Hin Hblk. pose proof tag_room_range.
  destruct (memset_spec t 0 tag_room b) as (M1 & M2 & M3); [done|lia|lia|lia|].
  unfold plain_tag. set (z := memset_at t 0 tag_room b) in *.
  assert (H0 : forall f, f_within tag_room f = true -> rd f t z = 0).
  { intros f Hf. apply (rd_zeros f t z tag_room Hf). intros. subst z. by rewrite byte_at_memset by lia. }
  assert (Hlo : 0 <= u32 block < 2 ^ 32) by apply u32_range.
  assert (Hhi : 0 <= u32 (Z.shiftr block 32) < 2 ^ 32) by apply u32_range.
  assert (Ejoin : b64 = true -> Z.lor (u32 block) (Z.shiftl (u32 (Z.shiftr block 32)) 32) = block).
  { intros E. rewrite E in Hblk. rewrite Z.lor_comm, lor_shiftl_add by (lia || done).
    rewrite Z.shiftr_div_pow2 in * by lia. unfold u32. change 4294967296 with (2 ^ 32).
    rewrite (Z.mod_small (block / 2 ^ 32)) by dlia. dlia. }
  assert (Elow : b64 = false -> u32 block = block).
  { intros E. rewrite E in Hblk. apply u32_id. lia. }
  cbv zeta. unfold tag_room in *.
  split_and!; unfold tag_flags, tag_blocknr, jbd_get32, jbd_get16, jbd_set32 in *.
  - destruct b64; by repeat apply bytes_ok_wr.
  - destruct b64; by rewrite ?blen_wr.
  - intros j Hj. destruct v3, b64;
      repeat (rewrite (byte_at_wr_out _ _ _ _ _ 12); [|done|lia|lia|lia]); apply M3; lia.
  - destruct v3, b64; rewrite ?rd_wr_ne by (done || lia); by rewrite H0.
  - change JBD_TAG3 with 16 in *. change JBD_TAG with 12 in *.
    assert (R : forall x, 0 <= x < 2 ^ 32 -> reorder32 (reorder32 x mod 2 ^ 32) = x).
    { intros x Hx. rewrite Z.mod_small by apply reorder32_range. by apply reorder32_reorder32. }
    destruct v3, b64; cbv iota; (struct_reads 16 || struct_reads 12); struct_reads 12;
      cbn [f_size jt3_blocknr jt3_blocknr_high jt_blocknr jt_blocknr_high Z.mul Pos.mul];
      rewrite !R by done; auto.
Qed.

(** A tag the writer is asked for. *)
Record tag_arg (ti : tag_info) : Prop := {
  ta_block : 0 <= ti_block ti < (if b64 then 2 ^ 64 else 2 ^ 32);
  ta_uuid : ti_uuid_exist ti = true -> bytes_ok (ti_uuid ti) /\ blen (ti_uuid ti) = UUID_SIZE;
}.
(** What the reader makes of it. *)
Definition tag_len (ti : tag_info) : Z :=
  if ti_uuid_exist ti then jbd_tag_bytes sb + UUID_SIZE else jbd_tag_bytes sb.
Definition tag_read (ti : tag_info) : tag_info :=
  mk_tag_info (tag_len ti) (ti_block ti) (ti_is_escape ti) (ti_uuid_exist ti)
    (if ti_uuid_exist ti then ti_uuid ti else []) (ti_last_tag ti) 0.

Definition flag_word (ti : tag_info) : Z :=
  let x := if ti_uuid_exist ti then 0 else JBD_FLAG_SAME_UUID in
  let x := if ti_last_tag ti then Z.lor x JBD_FLAG_LAST_TAG else x in
  if ti_is_escape ti then Z.lor x JBD_FLAG_ESCAPE else x.
(** The flags and the checksum, once the tag and its UUID are in place. *)
Definition flagged_tag (ti : tag_info) (b : list Z) : list Z :=
  let b := jbd_block_tag_csum_set sb t (ti_checksum ti) b in
  let b := if ti_last_tag ti then tag_or_flags sb t JBD_FLAG_LAST_TAG b else b in
  if ti_is_escape ti then tag_or_flags sb t JBD_FLAG_ESCAPE b else b.

Lemma bytes_ok_or_flags f b : bytes_ok b -> bytes_ok (tag_or_flags sb t f b).
Proof. intros. unfold tag_or_flags. case_match; by apply bytes_ok_wr. Qed.
Lemma bytes_ok_tag_csum c b : bytes_ok b -> bytes_ok (jbd_block_tag_csum_set sb t c b).
Proof. intros. unfold jbd_block_tag_csum_set. repeat case_match; auto using bytes_ok_wr. Qed.

Lemma flagged_tag_spec ti b :
  bytes_ok b -> t + tag_room <= blen b ->
  let b' := flagged_tag ti b in
  bytes_ok b' /\ blen b' = blen b /\ changed_in t (t + jbd_tag_bytes sb) b b' /\
  tag_blocknr sb t b' = tag_blocknr sb t b /\
  tag_flags sb t b' =
    (let x := tag_flags sb t b in
     let x := if ti_last_tag ti then Z.lor x JBD_FLAG_LAST_TAG else x in
     if ti_is_escape ti then Z.lor x JBD_FLAG_ESCAPE else x).
Proof.
  intros Hb Hin. unfold flagged_tag. cbv zeta. split_and!.
  - repeat case_match; auto using bytes_ok_or_flags, bytes_ok_tag_csum.
  - repeat case_match; by rewrite ?blen_or_flags, ?blen_tag_csum.
  - repeat case_match; repeat (eapply changed_in_trans; [|by apply or_flags_out]); by apply tag_csum_out.
  - repeat case_match; by rewrite ?blocknr_or, ?blocknr_csum.
  - repeat case_match; by rewrite ?flags_or, ?flags_csum
      by (done || rewrite ?blen_or_flags, ?blen_tag_csum; done).
Qed.

Lemma write_tag_eq remain ti b :
  tag_len ti <= remain ->
  jbd_write_block_tag sb t remain ti b =
  (Ok (tag_len ti),
   flagged_tag ti (if ti_uuid_exist ti then memcpy_at (t + jbd_tag_bytes sb) (ti_uuid ti) (plain_tag (ti_block ti) b)
                   else tag_or_flags sb t JBD_FLAG_SAME_UUID (plain_tag (ti_block ti) b))).
Proof.
  unfold tag_len, jbd_write_block_tag. intros Hr. pose proof tag_bytes_range.
  replace (remain - jbd_tag_bytes sb <? 0) with false by (destruct (ti_uuid_exist ti); unfold UUID_SIZE in *; lia).
  destruct (ti_uuid_exist ti); cbn [andb]; [|done].
  by replace (remain - jbd_tag_bytes sb <? UUID_SIZE) with false by lia.
Qed.

Lemma flag_word_spec ti :
  (Z.land (flag_word ti) JBD_FLAG_SAME_UUID =? 0) = ti_uuid_exist ti /\
  negb (Z.land (flag_word ti) JBD_FLAG_ESCAPE =? 0) = ti_is_escape ti /\
  negb (Z.land (flag_word ti) JBD_FLAG_LAST_TAG =? 0) = ti_last_tag ti.
Proof. unfold flag_word. by destruct (ti_uuid_exist ti), (ti_is_escape ti), (ti_last_tag ti). Qed.

(** Reading a tag: its flags and its block decide. *)
Lemma extract_spec ti r b :
  tag_len ti <= r -> tag_blocknr sb t b = ti_block ti -> tag_flags sb t b = flag_word ti ->
  (ti_uuid_exist ti = true -> slice (t + jbd_tag_bytes sb) UUID_SIZE b = ti_uuid ti) ->
  jbd_extract_block_tag sb t (jbd_tag_bytes sb) r b = Ok (tag_read ti).
Proof.
  intros Hr Eb Ef Eu. unfold jbd_extract_block_tag. pose proof tag_bytes_range.
  destruct (flag_word_spec ti) as (F1 & F2 & F3). unfold tag_len, UUID_SIZE in Hr.
  replace (r - jbd_tag_bytes sb <? 0) with false by (destruct (ti_uuid_exist ti); lia).
  rewrite Ef, Eb, F1, F2, F3. unfold tag_read, tag_len. destruct (ti_uuid_exist ti); cbn [andb]; [|done].
  replace (r - jbd_tag_bytes sb <? UUID_SIZE) with false by (unfold UUID_SIZE; lia). by rewrite Eu.
Qed.

(** A tag that fits is written, nothing before it changes, and it is read back
    from any buffer that has its bytes. *)
Lemma write_tag_spec remain ti b :
  bytes_ok b -> tag_arg ti -> tag_len ti <= remain -> t + tag_len ti <= blen b -> t + tag_room <= blen b ->
  exists b', jbd_write_block_tag sb t remain ti b = (Ok (tag_len ti), b') /\
    bytes_ok b' /\ blen b' = blen b /\ (forall j, 0 <= j < t -> byte_at b' j = byte_at b j) /\
    forall b'' r, bytes_ok b'' -> blen b'' = blen b -> tag_len ti <= r ->
      (forall j, t <= j < t + tag_len ti -> byte_at b'' j = byte_at b' j) ->
      jbd_extract_block_tag sb t (jbd_tag_bytes sb) r b'' = Ok (tag_read ti).
Proof.
  intros Hb [A1 A2] Hr Hl Hroom. pose proof tag_bytes_range. pose proof tag_room_range.
  rewrite (write_tag_eq remain ti b Hr). eexists. split; [done|].
  destruct (plain_tag_spec (ti_block ti) b Hb Hroom A1) as (P1 & P2 & P3 & P4 & P5).
  set (b1 := plain_tag (ti_block ti) b) in *.
  set (b2 := if ti_uuid_exist ti then _ else _).
  assert (Hb2 : bytes_ok b2 /\ blen b2 = blen b /\ (forall j, 0 <= j < t -> byte_at b2 j = byte_at b j) /\
    tag_blocknr sb t b2 = ti_block ti /\
    tag_flags sb t b2 = (if ti_uuid_exist ti then 0 else JBD_FLAG_SAME_UUID) /\
    (ti_uuid_exist ti = true -> slice (t + jbd_tag_bytes sb) UUID_SIZE b2 = ti_uuid ti)).
  { unfold b2, tag_len in *. destruct (ti_uuid_exist ti).
    - destruct A2 as [U1 U2]; [done|]. rewrite <- U2 in *. pose proof (blen_nonneg (ti_uuid ti)).
      assert (E : forall j, 0 <= j < t + jbd_tag_bytes sb ->
        byte_at (memcpy_at (t + jbd_tag_bytes sb) (ti_uuid ti) b1) j = byte_at b1 j).
      { intros j Hj. rewrite byte_at_memcpy_at by lia. by replace (t + jbd_tag_bytes sb <=? j) with false by lia. }
      split_and!.
      + by apply bytes_ok_memcpy_at.
      + rewrite blen_memcpy_at; lia.
      + intros j Hj. rewrite E by lia. by apply P3.
      + rewrite <- P5. apply blocknr_ext. intros. apply E. lia.
      + rewrite <- P4. apply flags_ext. intros. apply E. lia.
      + intros _. apply slice_memcpy; (done || lia).
    - split_and!; [by apply bytes_ok_or_flags|by rewrite blen_or_flags| |by rewrite blocknr_or| |done].
      + intros j Hj. rewrite <- P3 by done. apply or_flags_out; lia.
      + rewrite flags_or, P4 by (done || lia). done. }
  destruct Hb2 as (B1 & B2 & B3 & B4 & B5 & B6).
  destruct (flagged_tag_spec ti b2 B1 ltac:(lia)) as (F1 & F2 & F3 & F4 & F5).
  split_and!; [done|lia|intros j Hj; rewrite F3 by lia; by apply B3|].
  intros b'' r Hb'' Hl'' Hr'' H''. assert (jbd_tag_bytes sb <= tag_len ti) by (unfold tag_len, UUID_SIZE; destruct (ti_uuid_exist ti); lia).
  apply extract_spec; [done|..].
  - rewrite (blocknr_ext b'' (flagged_tag ti b2)) by (intros; apply H''; lia). by rewrite F4.
  - rewrite (flags_ext b'' (flagged_tag ti b2)) by (intros; apply H''; lia). by rewrite F5, B5.
  - intros Eu. rewrite <- B6 by done. unfold tag_len in *. rewrite Eu in *. unfold UUID_SIZE in *.
    apply slice_ext; try (done || lia). intros j Hj. rewrite H'' by lia. apply F3; lia.
Qed.
End At.
End Tag.
