(* ===== verification/JbdWrite.v ===== *)
(** * What a transaction writes to the log

    The blocks [jbd_journal_prepare], [jbd_journal_prepare_revoke] and
    [jbd_trans_write_commit_block] of Core/lwext4/src/ext4_journal.c lay out, in the
    order they are allocated.  Where the blocks go (the ring, the batch, the cache)
    is left to the caller: a block that is allocated comes with the bytes its cache
    buffer happens to hold, [junk i] for the [i]-th. *)

From S2P Require Import Prelude Layout Types Crc Super Jbd.

(** A dirty buffer of the transaction: its home and its bytes. *)
Record jbuf := mk_jbuf { jb_lba : Z; jb_data : list Z }.

(** A block that begins with the journal's magic would be taken for a header. *)
Definition is_escape (data : list Z) : bool := rd jh_magic 0 data =? reorder32 JBD_MAGIC_NUMBER.
Definition escape (data : list Z) : list Z := if is_escape data then wr jh_magic 0 0 data else data.

Definition set_bhdr (blocktype trans_id : Z) (b : list Z) : list Z :=
  jbd_set32 jh_sequence 0 trans_id (jbd_set32 jh_blocktype 0 blocktype
    (jbd_set32 jh_magic 0 JBD_MAGIC_NUMBER b)).
Definition tail_size (sb : list Z) : Z := if negb (jbd_has_csum sb =? 0) then JBD_TAIL else 0.

(** The buffers with the running checksum at each. *)
Fixpoint with_csum (sb : list Z) (trans_id checksum : Z) (l : list jbuf) : list (jbuf * Z) :=
  match l with
  | [] => []
  | jb :: l =>
      let checksum := jbd_block_csum sb (jb_data jb) checksum trans_id in
      (jb, checksum) :: with_csum sb trans_id checksum l
  end.

Definition prepare_tag (sb : list Z) (uuid_exist last : bool) (jb : jbuf) (checksum : Z) : tag_info :=
  mk_tag_info 0 (jb_lba jb) (is_escape (jb_data jb)) uuid_exist (if uuid_exist then jbd_uuid sb else [])
    last checksum.

(** The buffers that go under one descriptor block, whose next tag is at [t]: the
    descriptor, the data blocks, and the buffers left for the next one. *)
Fixpoint prepare_tags (sb : list Z) (l : list (jbuf * Z)) (t tag_tbl_size : Z) (uuid_exist : bool) (b : list Z)
  : list Z * list (list Z) * list (jbuf * Z) :=
  match l with
  | [] => (b, [], [])
  | (jb, c) :: l' =>
      let last := match l' with [] => true | _ => false end in
      match jbd_write_block_tag sb t tag_tbl_size (prepare_tag sb uuid_exist last jb c) b with
      | (Err _, b) => (b, [], l)
      | (Ok n, b) =>
          let '(b, ds, rest) := prepare_tags sb l' (t + n) (tag_tbl_size - n) false b in
          (b, escape (jb_data jb) :: ds, rest)
      end
  end.
Definition prepare_desc (sb : list Z) (trans_id : Z) (l : list (jbuf * Z)) (b : list Z)
  : list Z * list (list Z) * list (jbuf * Z) :=
  let '(b, ds, rest) :=
    prepare_tags sb l JBD_BHDR (jbd_blocksize sb - JBD_BHDR - tail_size sb) true
      (set_bhdr JBD_DESCRIPTOR_BLOCK trans_id b) in
  (jbd_meta_csum_set sb b, ds, rest).

(** Descriptors until no buffer is left, each with its data; [None]: there is no
    end to them ([goto again] on an empty descriptor). *)
Fixpoint prepare_descs (fuel : nat) (sb : list Z) (trans_id : Z) (junk : nat -> list Z) (l : list (jbuf * Z))
  : option (list (list Z * list (list Z))) :=
  match l, fuel with
  | [], _ => Some []
  | _, O => None
  | _, S fuel =>
      let '(b, ds, rest) := prepare_desc sb trans_id l (junk O) in
      cons (b, ds) <$> prepare_descs fuel sb trans_id (fun i => junk (S i)) rest
  end.
Definition jbd_journal_prepare (sb : list Z) (trans_id : Z) (junk : nat -> list Z) (l : list jbuf)
  : option (list (list Z * list (list Z))) :=
  prepare_descs (length l) sb trans_id junk (with_csum sb trans_id EXT4_CRC32_INIT l).
(** [trans->data_csum]. *)
Definition data_csum (sb : list Z) (trans_id : Z) (l : list jbuf) : Z :=
  foldl (fun c jb => jbd_block_csum sb (jb_data jb) c trans_id) EXT4_CRC32_INIT l.

(** ** Revoke blocks *)

Definition set_be (len off v : Z) (b : list Z) : list Z :=
  set_le (Z.to_nat len) off (if len =? 8 then reorder64 v else reorder32 (u32 v)) b.
(** The entries that fit from byte [t] on, the room left, and the blocks left over. *)
Fixpoint revoke_entries (sb : list Z) (l : list Z) (t tag_tbl_size : Z) (b : list Z) : list Z * Z * list Z :=
  match l with
  | [] => (b, tag_tbl_size, [])
  | lba :: l' =>
      let record_len := revoke_record_len sb in
      if tag_tbl_size <? record_len then (b, tag_tbl_size, l)
      else revoke_entries sb l' (t + record_len) (tag_tbl_size - record_len) (set_be record_len t lba b)
  end.
Definition prepare_revoke_block (sb : list Z) (trans_id : Z) (l : list Z) (b : list Z) : list Z * list Z :=
  let '(b, tag_tbl_size, rest) :=
    revoke_entries sb l JBD_REVOKE_HEADER (jbd_blocksize sb - JBD_REVOKE_HEADER - tail_size sb)
      (set_bhdr JBD_REVOKE_BLOCK trans_id b) in
  (jbd_meta_csum_set sb (jbd_set32 jr_count 0 (u32 (jbd_blocksize sb - tag_tbl_size - tail_size sb)) b), rest).
Fixpoint prepare_revokes (fuel : nat) (sb : list Z) (trans_id : Z) (junk : nat -> list Z) (l : list Z)
  : option (list (list Z)) :=
  match l, fuel with
  | [], _ => Some []
  | _, O => None
  | _, S fuel =>
      let '(b, rest) := prepare_revoke_block sb trans_id l (junk O) in
      cons b <$> prepare_revokes fuel sb trans_id (fun i => junk (S i)) rest
  end.
Definition jbd_journal_prepare_revoke (sb : list Z) (trans_id : Z) (junk : nat -> list Z) (l : list Z)
  : option (list (list Z)) := prepare_revokes (length l) sb trans_id junk l.

(** ** The commit block *)

Definition JBD_CRC32_CHKSUM : Z := 1.
Definition JBD_CRC32_CHKSUM_SIZE : Z := 4.
Definition jbd_trans_write_commit_block (sb : list Z) (trans_id data_csum : Z) (b : list Z) : list Z :=
  let b := set_bhdr JBD_COMMIT_BLOCK trans_id b in
  let b := if JBD_HAS_INCOMPAT_FEATURE sb JBD_FEATURE_COMPAT_CHECKSUM
           then jbd_set32 jc_chksum0 0 data_csum
                  (wr jc_chksum_size 0 JBD_CRC32_CHKSUM_SIZE (wr jc_chksum_type 0 JBD_CRC32_CHKSUM b))
           else b in
  jbd_commit_csum_set sb b.

(** ** The whole transaction *)

(** The blocks of a transaction in the order of the log: descriptors with their
    data, revoke blocks, the commit block.  A transaction with neither buffers nor
    revoked blocks writes nothing. *)
Definition trans_blocks (sb : list Z) (trans_id : Z) (junk : nat -> list Z) (l : list jbuf) (revokes : list Z)
  : option (list (list Z)) :=
  match jbd_journal_prepare sb trans_id junk l,
        jbd_journal_prepare_revoke sb trans_id (fun i => junk (length l + i)%nat) revokes with
  | Some ds, Some rs =>
      match l, revokes with
      | [], [] => Some []
      | _, _ =>
          Some (concat (map (fun g => g.1 :: g.2) ds) ++ rs ++
                [jbd_trans_write_commit_block sb trans_id (data_csum sb trans_id l)
                   (junk (length l + length revokes)%nat)])
      end
  | _, _ => None
  end.
