(* ===== verification/JbdRecover.v ===== *)
(** * Recovery of the journal

    [jbd_iterate_log] and [jbd_recover] of Core/lwext4/src/ext4_journal.c, and
    what they call to replay a block.

    The log is read and blocks are written home through the operations of
    [ReplayIO]: the cache, the read-ahead window and the write-back batch of the
    same file are behind them. *)

From S2P Require Import Prelude Layout Types Crc Super Jbd.

(** - [rio_scan i]: block [i] of the journal through the cache: [jbd_block_get],
      its bytes, [jbd_block_set];
    - [rio_log i]: the same block as the recovery pass reads it, through the
      window if there is one;
    - [rio_open]: [jbd_replay_wnd_new] and [jbd_replay_wb_new];
    - [rio_home lba data escape]: the logged copy [data] written to block [lba], into
      the batch if there is one, the magic restored if [escape];
    - [rio_flush]: [jbd_replay_wb_flush], if there is a batch;
    - [rio_sb_write], [rio_sb_read]: [ext4_sb_write], [ext4_sb_read];
    - [rio_barrier]: [ext4_block_barrier]. *)
Class ReplayIO (St : Type) := {
  rio_scan : Z -> M St (list Z);
  rio_log : Z -> M St (list Z);
  rio_open : M St unit;
  rio_home : Z -> list Z -> bool -> M St unit;
  rio_flush : M St unit;
  rio_barrier : M St unit;
  rio_sb_write : list Z -> M St unit;
  rio_sb_read : M St (list Z);
}.

(** [struct recover_info]; the revoke tree is a map from blocks to transactions. *)
Record recover_info := mk_info {
  start_trans_id : Z;
  last_trans_id : Z;
  trans_cnt : Z;
  revoke_block_cnt : Z;
  blocks_replayed : Z;
  revoke_root : gmap Z Z;
  info_rc : Z;
}.
Definition i_set_scan (start last : Z) (i : recover_info) : recover_info :=
  mk_info start last (trans_cnt i) (revoke_block_cnt i) (blocks_replayed i) (revoke_root i) (info_rc i).
Definition i_set_cnt (trans revokes : Z) (i : recover_info) : recover_info :=
  mk_info (start_trans_id i) (last_trans_id i) trans revokes (blocks_replayed i) (revoke_root i) (info_rc i).
Definition i_add_trans (i : recover_info) : recover_info :=
  i_set_cnt (u32 (trans_cnt i + 1)) (revoke_block_cnt i) i.
Definition i_add_revoke_block (i : recover_info) : recover_info :=
  i_set_cnt (trans_cnt i) (u32 (revoke_block_cnt i + 1)) i.
Definition i_add_replayed (i : recover_info) : recover_info :=
  mk_info (start_trans_id i) (last_trans_id i) (trans_cnt i) (revoke_block_cnt i)
    (u32 (blocks_replayed i + 1)) (revoke_root i) (info_rc i).
Definition i_set_revokes (r : gmap Z Z) (i : recover_info) : recover_info :=
  mk_info (start_trans_id i) (last_trans_id i) (trans_cnt i) (revoke_block_cnt i) (blocks_replayed i) r (info_rc i).
Definition i_set_rc (rc : Z) (i : recover_info) : recover_info :=
  mk_info (start_trans_id i) (last_trans_id i) (trans_cnt i) (revoke_block_cnt i) (blocks_replayed i)
    (revoke_root i) rc.

(** [struct jbd_fs] and what it refers to: the journal's superblock and whether it
    waits to be written, the file system's superblock, [fs->last_recovery]
    (transactions, blocks, blocks of the log), and the store. *)
Record jfs (St : Type) := mk_jfs {
  j_sb : list Z;
  j_dirty : bool;
  j_fs_sb : list Z;
  j_last_recovery : option (Z * Z * Z);
  j_info : recover_info;
  j_st : St;
}.
Arguments mk_jfs {St}.
Arguments j_sb {St} j.
Arguments j_dirty {St} j.
Arguments j_fs_sb {St} j.
Arguments j_last_recovery {St} j.
Arguments j_info {St} j.
Arguments j_st {St} j.

(** Make sure we wrap around the log. *)
Definition wrap (sb : list Z) (var : Z) : Z :=
  if jbd_get32 js_maxlen 0 sb <=? var
  then u32 (var - u32 (jbd_get32 js_maxlen 0 sb - jbd_get32 js_first 0 sb))
  else var.
Definition trans_id_diff (x y : Z) : Z := i32 (x - y).

Inductive action := ACTION_SCAN | ACTION_REVOKE | ACTION_RECOVER.
#[export] Instance action_eq_dec : EqDecision action.
Proof. solve_decision. Defined.

Section Recover.
Context {St : Type} {RI : ReplayIO St}.
Local Abbreviation jfs := (jfs St).

Definition j_set_info (g : recover_info -> recover_info) (j : jfs) : jfs :=
  mk_jfs (j_sb j) (j_dirty j) (j_fs_sb j) (j_last_recovery j) (g (j_info j)) (j_st j).
Definition j_set_fs_sb (s : list Z) (j : jfs) : jfs :=
  mk_jfs (j_sb j) (j_dirty j) s (j_last_recovery j) (j_info j) (j_st j).
Definition j_set_sb (s : list Z) (d : bool) (j : jfs) : jfs :=
  mk_jfs s d (j_fs_sb j) (j_last_recovery j) (j_info j) (j_st j).
Definition j_set_recovery (r : option (Z * Z * Z)) (j : jfs) : jfs :=
  mk_jfs (j_sb j) (j_dirty j) (j_fs_sb j) r (j_info j) (j_st j).
Definition on_io {A} (m : M St A) : M jfs A := fun j =>
  let '(r, s) := m (j_st j) in
  (r, mk_jfs (j_sb j) (j_dirty j) (j_fs_sb j) (j_last_recovery j) (j_info j) s).
Definition info_mod (g : recover_info -> recover_info) : M jfs unit := mmod (j_set_info g).

(** [ext4_sb_write(bdev, &fs->sb)]: the superblock in memory gets its checksum. *)
Definition fs_sb_write : M jfs unit :=
  mmod (fun j => j_set_fs_sb (ext4_sb_set_csum (j_fs_sb j)) j);;;
  s <- mget j_fs_sb;;
  on_io (rio_sb_write s).

(** ** Replaying a block *)

(** The first word of a block that begins with the journal's magic is blanked in
    the log. *)
Definition unescape (escape : bool) (data : list Z) : list Z :=
  if escape then wr jh_magic 0 (reorder32 JBD_MAGIC_NUMBER) data else data.

(** Block 0 is the superblock's. *)
Definition replay_superblock (jdata : list Z) : M jfs unit :=
  sb <- mget j_fs_sb;;
  let mount_count := sb_get sb_mount_count sb in
  let state := sb_get sb_state sb in
  let sb := slice EXT4_SUPERBLOCK_OFFSET EXT4_SUPERBLOCK_SIZE jdata in
  mmod (j_set_fs_sb (sb_set sb_state state sb));;;
  r <- mtry fs_sb_write;;
  match r with
  | Err rc => info_mod (i_set_rc rc)
  | Ok _ => mmod (fun j => j_set_fs_sb (sb_set sb_mount_count mount_count (j_fs_sb j)) j)
  end.

(** [jbd_replay_block_tags]: the block of the log the tag is for. *)
Definition jbd_replay_block_tags (this_trans_id : Z) (ti : tag_info) (this_block : Z) : M jfs Z :=
  sb <- mget j_sb;;
  info <- mget j_info;;
  let this_block := wrap sb (u32 (this_block + 1)) in
  let revoked :=
    match revoke_root info !! ti_block ti with
    | Some t => trans_id_diff this_trans_id t <=? 0
    | None => false
    end in
  if revoked then mok this_block
  else
    r <- mtry (on_io (rio_log this_block));;
    match r with
    | Err rc => info_mod (i_set_rc rc);;; mok this_block
    | Ok jdata =>
        info_mod i_add_replayed;;;
        (if negb (ti_block ti =? 0) then
           r <- mtry (on_io (rio_home (ti_block ti) jdata (ti_is_escape ti)));;
           match r with
           | Err rc => info_mod (i_set_rc rc)
           | Ok _ => mok tt
           end
         else replay_superblock jdata);;;
        mok this_block
    end.

Fixpoint replay_tags (this_trans_id : Z) (l : list tag_info) (this_block : Z) : M jfs Z :=
  match l with
  | [] => mok this_block
  | ti :: l =>
      this_block <- jbd_replay_block_tags this_trans_id ti this_block;;
      replay_tags this_trans_id l this_block
  end.

(** [jbd_debug_descriptor_block]: the blocks of the tags are skipped. *)
Definition jbd_display_block_tags (sb : list Z) (this_block : Z) : Z := wrap sb (u32 (this_block + 1)).
Definition skip_tags (sb : list Z) (l : list tag_info) (this_block : Z) : Z :=
  foldl (fun b _ => jbd_display_block_tags sb b) this_block l.

(** [jbd_build_revoke_tree]; running out of memory is left out. *)
Definition jbd_add_revoke_block_tags (this_trans_id block : Z) (r : gmap Z Z) : gmap Z Z :=
  <[block := this_trans_id]> r.
Definition jbd_build_revoke_tree (sb : list Z) (this_trans_id : Z) (b : list Z) (r : gmap Z Z) : gmap Z Z :=
  foldl (fun r block => jbd_add_revoke_block_tags this_trans_id block r) r (revoke_block_entries sb b).

(** ** Walking the log *)

(** One block of the log: the transaction expected next, the next block, whether
    this was the end, and the error. *)
Definition log_block (act : action) (this_trans_id this_block : Z) (header : list Z)
  : M jfs (Z * Z * bool * Z) :=
  sb <- mget j_sb;;
  let type := jbd_get32 jh_blocktype 0 header in
  if type =? JBD_DESCRIPTOR_BLOCK then
    if negb (jbd_verify_meta_csum sb header) then mok (this_trans_id, this_block, true, EOK)
    else
      match act with
      | ACTION_RECOVER =>
          this_block <- replay_tags this_trans_id (descriptor_tags sb header) this_block;;
          info <- mget j_info;;
          if negb (info_rc info =? EOK) then mok (this_trans_id, this_block, true, info_rc info)
          else mok (this_trans_id, this_block, false, EOK)
      | _ => mok (this_trans_id, skip_tags sb (descriptor_tags sb header) this_block, false, EOK)
      end
  else if type =? JBD_COMMIT_BLOCK then
    if negb (jbd_verify_commit_csum sb header) then mok (this_trans_id, this_block, true, EOK)
    else
      (match act with ACTION_SCAN => info_mod i_add_trans | _ => mok tt end);;;
      mok (u32 (this_trans_id + 1), this_block, false, EOK)
  else if type =? JBD_REVOKE_BLOCK then
    if negb (jbd_verify_meta_csum sb header) then mok (this_trans_id, this_block, true, EOK)
    else
      match act with
      | ACTION_SCAN => info_mod i_add_revoke_block;;; mok (this_trans_id, this_block, false, EOK)
      | ACTION_REVOKE =>
          info_mod (fun i => i_set_revokes (jbd_build_revoke_tree sb this_trans_id header (revoke_root i)) i);;;
          info <- mget j_info;;
          if negb (info_rc info =? EOK) then mok (this_trans_id, this_block, true, info_rc info)
          else mok (this_trans_id, this_block, false, EOK)
      | ACTION_RECOVER => mok (this_trans_id, this_block, false, EOK)
      end
  else mok (this_trans_id, this_block, true, EOK).

(** [while (!log_end)].  The result is the transaction expected at the end and
    the error; [None]: the walk has not ended after [fuel] blocks. *)
Fixpoint iterate_log_loop (fuel : nat) (act : action) (start_block this_trans_id this_block : Z)
  : M jfs (option (Z * Z)) :=
  match fuel with
  | O => mok None
  | S fuel =>
      sb <- mget j_sb;;
      info <- mget j_info;;
      if negb (bool_decide (act = ACTION_SCAN)) && (0 <? trans_id_diff this_trans_id (last_trans_id info))
      then mok (Some (this_trans_id, EOK))
      else
        r <- mtry (on_io (match act with ACTION_RECOVER => rio_log this_block | _ => rio_scan this_block end));;
        match r with
        | Err rc => mok (Some (this_trans_id, rc))
        | Ok header =>
            if negb (jbd_get32 jh_magic 0 header =? JBD_MAGIC_NUMBER)
            then mok (Some (this_trans_id, EOK))
            else if negb (jbd_get32 jh_sequence 0 header =? this_trans_id)
            then mok (Some (this_trans_id, if bool_decide (act = ACTION_SCAN) then EOK else EIO))
            else
              r <- log_block act this_trans_id this_block header;;
              let '(this_trans_id, this_block, log_end, rc) := r in
              let this_block := wrap sb (u32 (this_block + 1)) in
              if log_end || (this_block =? start_block) then mok (Some (this_trans_id, rc))
              else iterate_log_loop fuel act start_block this_trans_id this_block
        end
  end.

Definition jbd_iterate_log (fuel : nat) (act : action) : M jfs (option Z) :=
  sb <- mget j_sb;;
  let start_trans := jbd_get32 js_sequence 0 sb in
  let start_block := jbd_get32 js_start 0 sb in
  (match act with ACTION_SCAN => info_mod (i_set_cnt 0 0) | _ => mok tt end);;;
  info <- mget j_info;;
  end_ <- (if negb (bool_decide (act = ACTION_SCAN)) && (trans_cnt info =? 0)
           then mok (Some (start_trans, EOK))
           else iterate_log_loop fuel act start_block start_trans start_block);;
  match end_ with
  | None => mok None
  | Some (this_trans_id, r) =>
      (if (r =? EOK) && bool_decide (act = ACTION_SCAN) then
         info_mod (i_set_scan start_trans
           (if 0 <? trans_id_diff this_trans_id start_trans then u32 (this_trans_id - 1) else this_trans_id))
       else mok tt);;;
      mok (Some r)
  end.

(** ** Recovering *)

Definition info_init : recover_info := mk_info 0 0 0 0 0 ∅ EOK.

(** The replay is done and on the medium: the superblock is read again, and the
    log is declared empty. *)
Definition recover_finish : M jfs Z :=
  r <- mtry (on_io rio_sb_read);;
  (match r with Ok s => mmod (j_set_fs_sb s) | Err _ => mok tt end);;;
  sb <- mget j_fs_sb;;
  if negb (sb_get sb_magic sb =? EXT4_SUPERBLOCK_MAGIC) || (6 <? sb_get sb_log_block_size sb)
  then mok EIO
  else
    info <- mget j_info;;
    jsb <- mget j_sb;;
    mmod (j_set_sb (jbd_set32 js_sequence 0 (last_trans_id info) (jbd_set32 js_start 0 0 jsb)) true);;;
    mmod (j_set_fs_sb (sb_set sb_features_incompatible
      (Z.land (sb_get sb_features_incompatible sb) (u32 (Z.lnot EXT4_FINCOM_RECOVER))) sb));;;
    r <- mtry fs_sb_write;;
    mok (match r with Ok _ => EOK | Err rc => rc end).

(** The error code; [None]: a walk did not end. *)
Definition jbd_recover (fuel : nat) : M jfs (option Z) :=
  jsb <- mget j_sb;;
  if rd js_start 0 jsb =? 0 then mok (Some EOK)
  else
    info_mod (fun _ => info_init);;;
    r <- jbd_iterate_log fuel ACTION_SCAN;;
    match r with
    | None => mok None
    | Some rc =>
    if negb (rc =? EOK) then mok (Some rc)
    else
      info <- mget j_info;;
      r <- (if negb (revoke_block_cnt info =? 0) then jbd_iterate_log fuel ACTION_REVOKE else mok (Some EOK));;
      match r with
      | None => mok None
      | Some rc =>
      if negb (rc =? EOK) then mok (Some rc)
      else
        on_io rio_open;;;
        r <- jbd_iterate_log fuel ACTION_RECOVER;;
        match r with
        | None => mok None
        | Some rc =>
        r <- (if rc =? EOK then mtry (on_io rio_flush) else mok (Err rc));;
        match r with
        | Err rc => mok (Some rc)
        | Ok _ =>
            mtry (on_io rio_barrier);;;
            rc <- recover_finish;;
            (if rc =? EOK then
               info <- mget j_info;;
               jsb <- mget j_sb;;
               mmod (j_set_recovery (Some (trans_cnt info, blocks_replayed info, jbd_get32 js_maxlen 0 jsb)))
             else mok tt);;;
            mok (Some rc)
        end
        end
      end
    end.
End Recover.
