(* ===== verification/RecoverSpec.v ===== *)
(** * What recovery is for

    A log read as a list of records, the transactions of it that were committed,
    and what replaying them leaves in each block: the copy logged last by a
    transaction that is not followed by a revoke of the block.

    [jc] is the log: the bytes of each block of the journal. *)

From stdpp Require Import sorting.
From S2P Require Import Prelude Layout Types Crc Super Jbd JbdLaws JbdRecover.

(** A record of the log, with the transaction it belongs to (0 for the one the
    journal's superblock names): a descriptor at [pos] with its tags, a revoke
    block, a commit block. *)
Inductive record :=
  | RDesc (k : nat) (pos : Z) (tags : list tag_info)
  | RRevoke (k : nat) (blocks : list Z)
  | RCommit (k : nat).
Definition rec_trans (r : record) : nat := match r with RDesc k _ _ | RRevoke k _ | RCommit k => k end.
Definition is_commit (r : record) : bool := match r with RCommit _ => true | _ => false end.
Definition is_revoke (r : record) : bool := match r with RRevoke _ _ => true | _ => false end.

Section Log.
Context (sb : list Z) (jc : Z -> list Z).

(** The id of transaction [k]: ids wrap. *)
Definition trans_id (k : nat) : Z := u32 (jbd_get32 js_sequence 0 sb + Z.of_nat k).
Definition next_pos (pos : Z) : Z := wrap sb (u32 (pos + 1)).

(** The record whose header is block [pos], if there is one and it is intact. *)
Definition record_at (k : nat) (pos : Z) : option record :=
  let h := jc pos in
  if negb (jbd_get32 jh_magic 0 h =? JBD_MAGIC_NUMBER) then None
  else if negb (jbd_get32 jh_sequence 0 h =? trans_id k) then None
  else
    let type := jbd_get32 jh_blocktype 0 h in
    if type =? JBD_DESCRIPTOR_BLOCK then
      if jbd_verify_meta_csum sb h then Some (RDesc k pos (descriptor_tags sb h)) else None
    else if type =? JBD_COMMIT_BLOCK then
      if jbd_verify_commit_csum sb h then Some (RCommit k) else None
    else if type =? JBD_REVOKE_BLOCK then
      if jbd_verify_meta_csum sb h then Some (RRevoke k (revoke_block_entries sb h)) else None
    else None.
(** A descriptor is followed by a block for each of its tags. *)
Definition after (r : record) (pos : Z) : Z :=
  match r with
  | RDesc _ _ tags => next_pos (Nat.iter (length tags) next_pos pos)
  | _ => next_pos pos
  end.
Definition next_trans (r : record) (k : nat) : nat := if is_commit r then S k else k.

(** The records from [pos] on, until one is missing or the walk is back at
    [start]; [None]: neither happens within [fuel] records. *)
Fixpoint parse_log (fuel : nat) (start : Z) (k : nat) (pos : Z) : option (list record) :=
  match fuel with
  | O => None
  | S fuel =>
      match record_at k pos with
      | None => Some []
      | Some r =>
          if after r pos =? start then Some [r]
          else cons r <$> parse_log fuel start (next_trans r k) (after r pos)
      end
  end.
Definition log_records (fuel : nat) : option (list record) :=
  parse_log fuel (jbd_get32 js_start 0 sb) 0 (jbd_get32 js_start 0 sb).

(** ** Committed transactions *)

Definition commits (l : list record) : nat := length (filter (fun r => is_commit r = true) l).
(** Records after the last commit block do not count. *)
Fixpoint committed (l : list record) : list record :=
  match l with
  | [] => []
  | r :: l => if (commits (r :: l) =? 0)%nat then [] else r :: committed l
  end.

(** ** Replaying *)

(** The copies a record logs: the transaction, the tag, and the block of the log
    the copy is in. *)
Fixpoint tag_copies (k : nat) (pos : Z) (tags : list tag_info) : list (nat * tag_info * Z) :=
  match tags with
  | [] => []
  | ti :: tags => (k, ti, next_pos pos) :: tag_copies k (next_pos pos) tags
  end.
Definition copies (l : list record) : list (nat * tag_info * Z) :=
  mjoin (map (fun r => match r with RDesc k pos tags => tag_copies k pos tags | _ => [] end) l).
(** A revoke by the same or a later transaction overrules a copy. *)
Definition overrules (k : nat) (b : Z) (r : record) : bool :=
  match r with
  | RRevoke k' blocks => (k <=? k')%nat && bool_decide (b ∈ blocks)
  | _ => false
  end.
Definition revoked (l : list record) (k : nat) (b : Z) : bool := existsb (overrules k b) l.
Definition live_copies (l : list record) : list (nat * tag_info * Z) :=
  filter (fun c => revoked l c.1.1 (ti_block c.1.2) = false) (copies l).
Definition copy_data (c : nat * tag_info * Z) : list Z := unescape (ti_is_escape c.1.2) (jc c.2).

(** What block [b] holds once the log is replayed over [h]. *)
Definition replayed (l : list record) (h : Z -> list Z) (b : Z) : list Z :=
  match last (filter (fun c => ti_block c.1.2 = b) (live_copies (committed l))) with
  | Some c => copy_data c
  | None => h b
  end.
End Log.

(** ** Laws of the specification *)

Lemma commits_cons r l : commits (r :: l) = ((if is_commit r then 1 else 0) + commits l)%nat.
Proof. unfold commits. rewrite filter_cons. destruct (is_commit r); by case_decide. Qed.
Lemma commits_app a b : commits (a ++ b) = (commits a + commits b)%nat.
Proof. unfold commits. by rewrite filter_app, length_app. Qed.
Lemma copies_app sb a b : copies sb (a ++ b) = copies sb a ++ copies sb b.
Proof. unfold copies. by rewrite map_app, join_app. Qed.
Lemma committed_nil l : commits l = 0%nat -> committed l = [].
Proof. destruct l as [|r l]; [done|]. cbn [committed]. intros ->. done. Qed.
Lemma committed_cons r l : commits (r :: l) <> 0%nat -> committed (r :: l) = r :: committed l.
Proof. intros H. cbn [committed]. by rewrite (proj2 (Nat.eqb_neq _ _) H). Qed.
Lemma committed_prefix l : exists l', l = committed l ++ l'.
Proof.
  induction l as [|r l [l' IH]]; [by exists []|]. cbn [committed]. case_match; [by exists (r :: l)|].
  exists l'. cbn [app]. by rewrite <- IH.
Qed.
Lemma elem_of_committed r l : r ∈ committed l -> r ∈ l.
Proof. destruct (committed_prefix l) as [l' E]. intros H. rewrite E. apply elem_of_app. by left. Qed.

(** Ids wrap, and are compared by the sign of their difference. *)
Lemma next_trans_id sb k : u32 (trans_id sb k + 1) = trans_id sb (S k).
Proof. unfold trans_id, u32. rewrite Z.add_mod_idemp_l by lia. f_equal. lia. Qed.
Lemma trans_diff sb a b :
  - 2 ^ 31 <= Z.of_nat a - Z.of_nat b < 2 ^ 31 ->
  trans_id_diff (trans_id sb a) (trans_id sb b) = Z.of_nat a - Z.of_nat b.
Proof.
  intros H. unfold trans_id_diff, trans_id, i32, u32. rewrite <- Zminus_mod.
  set (q := jbd_get32 js_sequence 0 sb). replace (q + Z.of_nat a - (q + Z.of_nat b)) with (Z.of_nat a - Z.of_nat b) by lia.
  set (d := Z.of_nat a - Z.of_nat b) in *. change (2 ^ 31) with 2147483648 in *. cbv zeta.
  destruct (Z.ltb_spec (d mod 4294967296) 2147483648); dlia.
Qed.

Section Order.
Context (sb : list Z) (jc : Z -> list Z).

(** The transactions of a log come in order. *)
Lemma record_at_trans k pos r : record_at sb jc k pos = Some r -> rec_trans r = k.
Proof. unfold record_at. repeat case_match; by intros [= <-]. Qed.
Lemma parse_trans fuel start : forall k pos l r,
  parse_log sb jc fuel start k pos = Some l -> r ∈ l -> (k <= rec_trans r)%nat.
Proof.
  induction fuel as [|fuel IH]; intros k pos l r; cbn [parse_log]; [done|].
  destruct (record_at sb jc k pos) as [r0|] eqn:E0; [|intros [= <-]; by intros ?%not_elem_of_nil].
  apply record_at_trans in E0. case_match.
  - intros [= <-]. rewrite list_elem_of_singleton. by intros ->; lia.
  - intros (l' & Hl & ->)%fmap_Some. rewrite elem_of_cons. intros [->|Hr]; [lia|].
    specialize (IH _ _ _ _ Hl Hr). unfold next_trans in IH. case_match; lia.
Qed.

Lemma parse_trans_lt fuel start : forall k pos l r,
  parse_log sb jc fuel start k pos = Some l -> r ∈ committed l -> (rec_trans r < k + commits l)%nat.
Proof.
  induction fuel as [|fuel IH]; intros k pos l r; cbn [parse_log]; [done|].
  destruct (record_at sb jc k pos) as [r0|] eqn:E0; [|intros [= <-]; by intros ?%not_elem_of_nil].
  apply record_at_trans in E0. case_match.
  - intros [= <-] Hr. destruct (Nat.eq_dec (commits [r0]) 0%nat) as [Ec|Ec].
    { rewrite committed_nil in Hr by done. by apply not_elem_of_nil in Hr. }
    rewrite committed_cons in Hr by done. cbn [committed] in Hr. apply list_elem_of_singleton in Hr as ->. lia.
  - intros (l' & Hl & ->)%fmap_Some Hr. destruct (Nat.eq_dec (commits (r0 :: l')) 0%nat) as [Ec|Ec].
    { rewrite committed_nil in Hr by done. by apply not_elem_of_nil in Hr. }
    rewrite committed_cons, elem_of_cons in Hr by done. destruct Hr as [->|Hr]; [lia|].
    specialize (IH _ _ _ _ Hl Hr). rewrite commits_cons. unfold next_trans in IH. destruct (is_commit r0); lia.
Qed.
Lemma parse_sorted fuel start : forall k pos l,
  parse_log sb jc fuel start k pos = Some l -> StronglySorted le (map rec_trans l).
Proof.
  induction fuel as [|fuel IH]; intros k pos l; cbn [parse_log]; [done|].
  destruct (record_at sb jc k pos) as [r0|] eqn:E0; [|intros [= <-]; constructor].
  apply record_at_trans in E0. case_match.
  - intros [= <-]. by repeat constructor.
  - intros (l' & Hl & ->)%fmap_Some. cbn [map]. constructor; [by eapply IH|].
    apply Forall_forall. intros x (r & -> & Hr)%list_elem_of_fmap.
    pose proof (parse_trans _ _ _ _ _ _ Hl Hr) as Hk. unfold next_trans in Hk. destruct (is_commit r0); lia.
Qed.
Lemma committed_sorted l : StronglySorted le (map rec_trans l) -> StronglySorted le (map rec_trans (committed l)).
Proof.
  destruct (committed_prefix l) as [l' E]. intros H. rewrite E, map_app in H.
  by apply StronglySorted_app in H as (_ & H & _).
Qed.

(** The last transaction of [l] that revokes [b]. *)
Definition last_revoke (l : list record) (b : Z) : option nat :=
  foldl (fun a r => match r with
    | RRevoke k blocks => if decide (b ∈ blocks) then Some k else a | _ => a end) None l.

Lemma revoked_app l r k b : revoked (l ++ [r]) k b = revoked l k b || overrules k b r.
Proof. unfold revoked. rewrite existsb_app. cbn [existsb]. by rewrite orb_false_r. Qed.
Lemma revoked_elem l k b :
  revoked l k b = true -> exists k' blocks, RRevoke k' blocks ∈ l /\ (k <= k')%nat.
Proof.
  unfold revoked. intros (r & Hin & Hr)%existsb_exists. apply list_elem_of_In in Hin.
  destruct r as [|k' bs|]; try done. apply andb_prop in Hr as [Hk _]. apply Nat.leb_le in Hk. eauto.
Qed.
Lemma revoked_last l k b :
  StronglySorted le (map rec_trans l) ->
  revoked l k b = match last_revoke l b with Some k' => (k <=? k')%nat | None => false end.
Proof.
  revert k. induction l as [|r l IH] using rev_ind; intros k Hs; [done|].
  rewrite map_app in Hs. cbn [map] in Hs. apply StronglySorted_app in Hs as (Hs1 & Hs & _).
  rewrite revoked_app, IH by done. unfold last_revoke. rewrite foldl_app. cbn [foldl]. fold (last_revoke l b).
  assert (Hle : forall k', last_revoke l b = Some k' -> (k' <= rec_trans r)%nat).
  { intros k' E. assert (R : revoked l k' b = true) by (rewrite IH, E by done; apply Nat.leb_refl).
    apply revoked_elem in R as (k'' & bs & Hin & Hk). apply Nat.le_trans with k''; [done|].
    apply Hs1; [apply list_elem_of_fmap; by exists (RRevoke k'' bs)|by apply list_elem_of_singleton]. }
  destruct r as [|k0 bs|]; cbn [overrules]; rewrite ?orb_false_r; try done.
  case_bool_decide as Hb; [rewrite decide_True by done|rewrite decide_False by done; by rewrite andb_false_r, orb_false_r].
  rewrite andb_true_r. destruct (last_revoke l b) as [k'|]; [|done]. specialize (Hle _ eq_refl). cbn in Hle.
  destruct (Nat.leb_spec k k'), (Nat.leb_spec k k0); (done || lia).
Qed.
End Order.
