(* ===== verification/RecoverLaws.v ===== *)
(** * Recovery, pass by pass

    What the operations under [jbd_recover] promise ([ReplayLaws]), and what its
    three walks over the log do under those promises: the scan counts the committed
    transactions, the second walk collects their revokes, the third replays their
    copies.  Every operation may fail. *)

From stdpp Require Import sorting.
From S2P Require Import Prelude Layout Types Crc Super Jbd JbdLaws JbdRecover RecoverSpec.

(** ** The promise of the store

    [rl_inlog]: the blocks of the journal's file that the log may use.  A state holds
    the log, what each block of the volume logically holds
    ([rl_home]: the cache or the batch in front of the medium), what the medium
    holds, and the blocks whose copy on the medium may still change ([rl_pend]).
    [rl_allowed]: the blocks of the volume outside the journal.  [rl_sblock]:
    the block of the superblock.  [rl_faulty]: operations can fail.  [rl_ready]: a
    write home that is lost is reported.  Opening decides that (the batch got its
    memory or did not), and no later operation changes it. *)
Class ReplayModel (St : Type) := {
  rl_inv : St -> Prop;
  rl_ready : St -> Prop;
  rl_bsize : Z;
  rl_inlog : Z -> Prop;
  rl_log : St -> Z -> list Z;
  rl_home : St -> Z -> list Z;
  rl_disk : St -> Z -> list Z;
  rl_pend : St -> Z -> Prop;
  rl_allowed : Z -> Prop;
  rl_sblock : Z;
  rl_faulty : Prop;
}.

Section Frame.
Context {St : Type} {RM : ReplayModel St}.
(** From [s] to [s'] nothing is lost: the log is the same, and the medium differs at
    most in blocks of [w] and blocks that were waiting. *)
Record frame (w : Z -> Prop) (s s' : St) : Prop := {
  fr_inv : rl_inv s';
  fr_log : forall i, rl_log s' i = rl_log s i;
  fr_pend : forall b, rl_pend s' b -> rl_pend s b \/ w b;
  fr_disk : forall b, rl_disk s' b = rl_disk s b \/ rl_pend s b \/ w b;
}.
Definition none (_ : Z) : Prop := False.
(** What every operation but opening keeps besides. *)
Definition stays (w : Z -> Prop) (s s' : St) : Prop := frame w s s' /\ (rl_ready s' <-> rl_ready s).
Definition same_home (s s' : St) : Prop := forall b, rl_home s' b = rl_home s b.

Lemma frame_refl w s : rl_inv s -> frame w s s.
Proof. intros. split; auto. Qed.
Lemma frame_trans w s1 s2 s3 : frame w s1 s2 -> frame w s2 s3 -> frame w s1 s3.
Proof.
  intros [A1 A2 A3 A4] [B1 B2 B3 B4]. split; [done|by intros; rewrite B2| |]; intros b.
  - intros [H|H]%B3; auto.
  - destruct (B4 b) as [->|[[H|H]%A3|H]]; auto.
Qed.
Lemma frame_mono (w w' : Z -> Prop) s s' : (forall b, w b -> w' b) -> frame w s s' -> frame w' s s'.
Proof. intros H [A1 A2 A3 A4]. split; [done|done| |]; intros b.
  - intros [?|?]%A3; auto.
  - destruct (A4 b) as [?|[?|?]]; auto. Qed.
Lemma frame_none w s s' : frame none s s' -> frame w s s'.
Proof. by apply frame_mono. Qed.
Lemma stays_refl w s : rl_inv s -> stays w s s.
Proof. intros. split; [by apply frame_refl|done]. Qed.
Lemma stays_trans w s1 s2 s3 : stays w s1 s2 -> stays w s2 s3 -> stays w s1 s3.
Proof. intros [A1 A2] [B1 B2]. split; [by eapply frame_trans|by rewrite B2]. Qed.
Lemma stays_mono (w w' : Z -> Prop) s s' : (forall b, w b -> w' b) -> stays w s s' -> stays w' s s'.
Proof. intros H [A1 A2]. split; [by eapply frame_mono|done]. Qed.
Lemma stays_none w s s' : stays none s s' -> stays w s s'.
Proof. by apply stays_mono. Qed.
End Frame.

(** The bytes of a block. *)
Definition block_ok {St : Type} {RM : ReplayModel St} (d : list Z) : Prop := blen d = rl_bsize /\ bytes_ok d.

Class ReplayLaws (St : Type) {RI : ReplayIO St} {RM : ReplayModel St} := {
  rl_scan_ok s i : rl_inv s -> rl_inlog i -> wp (rio_scan i) s (fun r s' => stays none s s' /\
    match r with
    | Ok d => d = rl_log s i /\ block_ok d /\ same_home s s'
    | Err rc => rc <> EOK /\ rl_faulty end);
  rl_log_ok s i : rl_inv s -> rl_inlog i -> wp (rio_log i) s (fun r s' => stays none s s' /\
    match r with
    | Ok d => d = rl_log s i /\ block_ok d /\ same_home s s'
    | Err rc => rc <> EOK /\ rl_faulty end);
  rl_open_ok s : rl_inv s -> (forall b, ~ rl_pend s b) -> wp rio_open s (fun r s' =>
    r = Ok tt /\ frame none s s' /\ same_home s s');
  rl_home_ok s lba data e : rl_inv s -> rl_allowed lba -> block_ok data ->
    wp (rio_home lba data e) s (fun r s' => stays (eq lba) s s' /\
    match r with
    | Ok _ => rl_ready s -> forall b, rl_home s' b = fupd lba (unescape e data) (rl_home s) b
    | Err rc => rc <> EOK /\ rl_faulty end);
  rl_flush_ok s : rl_inv s -> wp rio_flush s (fun r s' => stays none s s' /\
    match r with
    | Ok _ => same_home s s' /\ (forall b, rl_disk s' b = rl_home s b) /\ (forall b, ~ rl_pend s' b)
    | Err rc => rc <> EOK /\ rl_faulty end);
  rl_barrier_ok s : rl_inv s -> wp rio_barrier s (fun r s' => stays none s s' /\ same_home s s');
  rl_sb_write_ok s d : rl_inv s -> wp (rio_sb_write d) s (fun r s' => stays (eq rl_sblock) s s' /\
    match r with
    | Ok _ => forall b, b <> rl_sblock -> rl_home s' b = rl_home s b
    | Err rc => rc <> EOK /\ rl_faulty end);
  rl_sb_read_ok s : rl_inv s -> wp rio_sb_read s (fun r s' => stays none s s' /\ same_home s s');
}.

Lemma blen_unescape e d : blen (unescape e d) = blen d.
Proof. unfold unescape. destruct e; [apply blen_wr|done]. Qed.
Lemma bytes_ok_unescape e d : bytes_ok d -> bytes_ok (unescape e d).
Proof. intros. unfold unescape. destruct e; [by apply bytes_ok_wr|done]. Qed.

(** ** Overlaying copies *)

Section Overlay.
Context (jc : Z -> list Z).
(** What block [b] holds after the copies [cs] were written over [h]. *)
Definition overlay (cs : list (nat * tag_info * Z)) (h : Z -> list Z) (b : Z) : list Z :=
  match last (filter (fun c => ti_block c.1.2 = b) cs) with
  | Some c => copy_data jc c
  | None => h b
  end.
Lemma overlay_app cs cs' h b : overlay (cs ++ cs') h b = overlay cs' (overlay cs h) b.
Proof. unfold overlay. rewrite filter_app, last_app. by destruct (last (filter _ cs')). Qed.
Lemma overlay_ext cs h h' b : h b = h' b -> overlay cs h b = overlay cs h' b.
Proof. unfold overlay. intros ->. done. Qed.
Lemma overlay_one c h b : overlay [c] h b = fupd (ti_block c.1.2) (copy_data jc c) h b.
Proof.
  unfold overlay, fupd. rewrite filter_cons, filter_nil. case_decide as H.
  - by rewrite H, Z.eqb_refl.
  - by replace (b =? ti_block c.1.2) with false by lia.
Qed.
Lemma overlay_not_in cs h b : b ∉ map (fun c => ti_block c.1.2) cs -> overlay cs h b = h b.
Proof.
  revert h. induction cs as [|c cs IH]; intros h H; [done|]. cbn [map] in H.
  change (c :: cs) with ([c] ++ cs). rewrite overlay_app, IH, overlay_one by set_solver.
  apply fupd_ne. set_solver.
Qed.
End Overlay.

(** ** One record *)

Section Walk.
Context {St : Type} {RI : ReplayIO St} {RM : ReplayModel St} {RL : ReplayLaws St}.
Local Abbreviation jfs := (jfs St).
Context (sb : list Z) (jc : Z -> list Z).
(** The log does not leave the blocks it may use. *)
Context (next_ok : forall pos, rl_inlog pos -> rl_inlog (next_pos sb pos)).
Implicit Types (j : jfs) (l : list record).

Lemma iter_inlog m pos : rl_inlog pos -> rl_inlog (Nat.iter m (next_pos sb) pos).
Proof. induction m; cbn; auto. Qed.
Lemma after_inlog r pos : rl_inlog pos -> rl_inlog (after sb r pos).
Proof. destruct r; cbn [after]; auto using iter_inlog. Qed.

(** A state with the journal's superblock [sb] and the log [jc]. *)
Record on_log (j : jfs) : Prop := {
  ol_sb : j_sb j = sb;
  ol_inv : rl_inv (j_st j);
  ol_log : forall i, rl_log (j_st j) i = jc i;
}.
Lemma on_log_frame w j j' : on_log j -> j_sb j' = j_sb j -> frame w (j_st j) (j_st j') -> on_log j'.
Proof. intros [A1 A2 A3] Hs [B1 B2 _ _]. split; [congruence|done|]. intros i. by rewrite B2. Qed.

(** What a walk does with a record. *)
Definition record_step (act : action) (id pos : Z) (r : record) : M jfs (Z * Z * bool * Z) :=
  match r with
  | RDesc _ _ tags =>
      match act with
      | ACTION_RECOVER =>
          pos <- replay_tags id tags pos;;
          info <- mget j_info;;
          if negb (info_rc info =? EOK) then mok (id, pos, true, info_rc info) else mok (id, pos, false, EOK)
      | _ => mok (id, Nat.iter (length tags) (next_pos sb) pos, false, EOK)
      end
  | RCommit _ =>
      (match act with ACTION_SCAN => info_mod i_add_trans | _ => mok tt end);;;
      mok (u32 (id + 1), pos, false, EOK)
  | RRevoke _ blocks =>
      match act with
      | ACTION_SCAN => info_mod i_add_revoke_block;;; mok (id, pos, false, EOK)
      | ACTION_REVOKE =>
          info_mod (fun i => i_set_revokes (foldl (fun r b => <[b := id]> r) (revoke_root i) blocks) i);;;
          info <- mget j_info;;
          if negb (info_rc info =? EOK) then mok (id, pos, true, info_rc info) else mok (id, pos, false, EOK)
      | ACTION_RECOVER => mok (id, pos, false, EOK)
      end
  end.

Lemma skip_tags_iter tags pos : skip_tags sb tags pos = Nat.iter (length tags) (next_pos sb) pos.
Proof.
  unfold skip_tags. revert pos. induction tags as [|t tags IH]; intros pos; [done|]. cbn [foldl length].
  by rewrite IH, Nat.iter_succ_r.
Qed.

Lemma log_block_record act k pos j :
  j_sb j = sb ->
  jbd_get32 jh_magic 0 (jc pos) = JBD_MAGIC_NUMBER -> jbd_get32 jh_sequence 0 (jc pos) = trans_id sb k ->
  log_block act (trans_id sb k) pos (jc pos) j =
  match record_at sb jc k pos with
  | Some r => record_step act (trans_id sb k) pos r j
  | None => mok (trans_id sb k, pos, true, EOK) j
  end.
Proof.
  intros Hs Hm Hq. unfold log_block, record_at. rewrite Hm, Hq, !Z.eqb_refl. cbn [negb].
  unfold mbnd at 1, mget at 1. rewrite Hs.
  repeat case_match; try done; cbn [negb] in *; simplify_eq; cbn [record_step];
    unfold mok; by rewrite ?skip_tags_iter.
Qed.

(** ** One turn of the loop *)

(** [j'] is [j] with the store moved. *)
Definition with_st j (s : St) : jfs :=
  mk_jfs (j_sb j) (j_dirty j) (j_fs_sb j) (j_last_recovery j) (j_info j) s.
Lemma wp_io {A} (m : M St A) j Q :
  wp m (j_st j) (fun r s => Q r (with_st j s)) -> wp (on_io m) j Q.
Proof. unfold wp, on_io. by destruct (m (j_st j)). Qed.

Lemma loop_step fuel act start k pos j (Q : result (option (Z * Z)) -> jfs -> Prop) :
  on_log j -> rl_inlog pos ->
  (act <> ACTION_SCAN -> trans_id_diff (trans_id sb k) (last_trans_id (j_info j)) <= 0 /\ record_at sb jc k pos <> None) ->
  (forall rc s, rc <> EOK -> rl_faulty -> stays none (j_st j) s -> Q (Ok (Some (trans_id sb k, rc))) (with_st j s)) ->
  (forall s, stays none (j_st j) s -> same_home (j_st j) s -> on_log (with_st j s) -> block_ok (jc pos) ->
    match record_at sb jc k pos with
    | Some r => wp (record_step act (trans_id sb k) pos r) (with_st j s) (fun res j' =>
        match res with
        | Ok (id, pos, log_end, rc) =>
            if log_end || (next_pos sb pos =? start) then Q (Ok (Some (id, rc))) j'
            else wp (iterate_log_loop fuel act start id (next_pos sb pos)) j' Q
        | Err rc => Q (Err rc) j'
        end)
    | None => Q (Ok (Some (trans_id sb k, EOK))) (with_st j s)
    end) ->
  wp (iterate_log_loop (S fuel) act start (trans_id sb k) pos) j Q.
Proof.
  intros L Hpos Hact Herr Hok. cbn [iterate_log_loop]. do 2 (apply wp_bind, wp_get; cbv beta iota).
  destruct (negb (bool_decide (act = ACTION_SCAN)) && _) eqn:E0.
  { apply andb_prop in E0 as [E1 E2]. apply negb_true_iff, bool_decide_eq_false in E1.
    destruct (Hact E1). lia. }
  clear E0. apply wp_bind, wp_try, wp_io.
  assert (R : wp (match act with ACTION_RECOVER => rio_log pos | _ => rio_scan pos end) (j_st j)
    (fun r s' => stays none (j_st j) s' /\
    match r with
    | Ok d => d = rl_log (j_st j) pos /\ block_ok d /\ same_home (j_st j) s'
    | Err rc => rc <> EOK /\ rl_faulty end)).
  { destruct act; [apply rl_scan_ok|apply rl_scan_ok|apply rl_log_ok]; (done || apply L). }
  eapply wp_mono; [exact R|]. cbv beta. intros [d|rc] s [F H]; [|by destruct H; apply Herr].
  destruct H as (-> & Hlen & Hh). cbv beta iota. rewrite (ol_log _ L) in *.
  assert (L' : on_log (with_st j s)) by (eapply on_log_frame; [exact L|done|apply F]).
  specialize (Hok s F Hh L' Hlen).
  destruct (jbd_get32 jh_magic 0 (jc pos) =? JBD_MAGIC_NUMBER) eqn:Em; cbn [negb].
  2: { unfold record_at in *. rewrite Em in *. cbn [negb] in *. by apply wp_ok. }
  destruct (jbd_get32 jh_sequence 0 (jc pos) =? trans_id sb k) eqn:Eq; cbn [negb].
  2: { unfold record_at in *. rewrite Em, Eq in *. cbn [negb] in *. apply wp_ok.
       case_bool_decide as Ha; [done|]. by destruct (Hact Ha) as [_ []]. }
  apply Z.eqb_eq in Em, Eq. apply wp_bind. unfold wp at 1. rewrite (log_block_record act k pos) by (done || apply L').
  destruct (record_at sb jc k pos) as [r|].
  - unfold wp at 1, next_pos in Hok. rewrite (ol_sb _ L). destruct (record_step _ _ _ _ _) as [[[[[id pos'] e] rc]|rc] j']; [|done].
    destruct (e || _); [by apply wp_ok|done].
  - unfold mok. cbn [orb]. by apply wp_ok.
Qed.

(** ** The scan *)

(** Part of a recovery: the log is kept, the medium changes at most in [w]. *)
Record step (w : Z -> Prop) j j' : Prop := {
  sp_log : on_log j';
  sp_frame : frame w (j_st j) (j_st j');
  sp_dirty : j_dirty j' = j_dirty j;
  sp_rec : j_last_recovery j' = j_last_recovery j;
}.
Lemma step_refl w j : on_log j -> step w j j.
Proof. intros L. split; auto. apply frame_refl, L. Qed.
Lemma step_trans w j1 j2 j3 : step w j1 j2 -> step w j2 j3 -> step w j1 j3.
Proof. intros [A1 A2 A3 A4] [B1 B2 B3 B4]. split; [done|by eapply frame_trans|congruence..]. Qed.
Lemma step_with_st w j s : on_log j -> frame w (j_st j) s -> step w j (with_st j s).
Proof. intros L F. split; [by apply (on_log_frame w j)|done..]. Qed.
Lemma step_none w j j' : step none j j' -> step w j j'.
Proof. intros []. split; auto using frame_none. Qed.
(** Only what is remembered of the log changes. *)
Lemma step_info w j g : on_log j -> step w j (j_set_info g j).
Proof. intros [A1 A2 A3]. split; [by split|by apply frame_refl|done..]. Qed.

Definition revokes l : nat := length (filter (fun r => is_revoke r = true) l).
Lemma revokes_cons r l : revokes (r :: l) = ((if is_revoke r then 1 else 0) + revokes l)%nat.
Proof. unfold revokes. rewrite filter_cons. destruct (is_revoke r); by case_decide. Qed.
(** What the scan has learnt at its end. *)
Record scanned (n m : nat) (i i' : recover_info) : Prop := {
  sc_trans : trans_cnt i' = trans_cnt i + Z.of_nat n;
  sc_revokes : revoke_block_cnt i' = revoke_block_cnt i + Z.of_nat m;
  sc_root : revoke_root i' = revoke_root i;
  sc_rc : info_rc i' = info_rc i;
  sc_replayed : blocks_replayed i' = blocks_replayed i;
}.
Definition counts_fit n m (i : recover_info) : Prop :=
  0 <= trans_cnt i /\ trans_cnt i + Z.of_nat n < 2 ^ 32 /\
  0 <= revoke_block_cnt i /\ revoke_block_cnt i + Z.of_nat m < 2 ^ 32.

(** One record of the scan. *)
Lemma scan_record k pos r j l :
  on_log j -> record_at sb jc k pos = Some r -> counts_fit (commits (r :: l)) (revokes (r :: l)) (j_info j) ->
  exists g pos', record_step ACTION_SCAN (trans_id sb k) pos r j =
      (Ok (trans_id sb (next_trans r k), pos', false, EOK), j_set_info g j) /\
    next_pos sb pos' = after sb r pos /\
    scanned (if is_commit r then 1 else 0) (if is_revoke r then 1 else 0) (j_info j) (g (j_info j)) /\
    counts_fit (commits l) (revokes l) (g (j_info j)).
Proof.
  intros L Hr Hc. rewrite commits_cons, revokes_cons in Hc. unfold counts_fit in *.
  assert (E : j_set_info (fun i => i) j = j) by (destruct j; done).
  destruct r as [k0 p0 tags|k0 bs|k0]; cbn [is_commit is_revoke record_step next_trans after] in *.
  - exists (fun i => i), (Nat.iter (length tags) (next_pos sb) pos). rewrite E.
    split_and!; try done; try lia. split; (done || lia).
  - exists i_add_revoke_block, pos.
    assert (Er : revoke_block_cnt (i_add_revoke_block (j_info j)) = revoke_block_cnt (j_info j) + 1).
    { cbn. apply u32_id. lia. }
    rewrite Er. change (trans_cnt (i_add_revoke_block (j_info j))) with (trans_cnt (j_info j)).
    split_and!; try done; try lia. split; [cbn; lia|lia|done..].
  - exists i_add_trans, pos.
    assert (Er : trans_cnt (i_add_trans (j_info j)) = trans_cnt (j_info j) + 1).
    { cbn. apply u32_id. lia. }
    rewrite <- next_trans_id, Er.
    change (revoke_block_cnt (i_add_trans (j_info j))) with (revoke_block_cnt (j_info j)).
    split_and!; try done; try lia. split; [lia|cbn; lia|done..].
Qed.

Lemma scan_loop fuel start : forall k pos l j,
  on_log j -> rl_inlog pos -> parse_log sb jc fuel start k pos = Some l -> counts_fit (commits l) (revokes l) (j_info j) ->
  wp (iterate_log_loop fuel ACTION_SCAN start (trans_id sb k) pos) j (fun r j' =>
    exists id rc, r = Ok (Some (id, rc)) /\ step none j j' /\ (rc <> EOK -> rl_faulty) /\
      (rc = EOK -> id = trans_id sb (k + commits l) /\ same_home (j_st j) (j_st j') /\
        scanned (commits l) (revokes l) (j_info j) (j_info j'))).
Proof.
  induction fuel as [|fuel IH]; intros k pos l j L Hpos Hp Hc; [done|]. cbn [parse_log] in Hp.
  apply loop_step; [done|done|done|..].
  { intros rc s Hrc Hf F. eexists _, _. split; [done|]. split; [by apply step_with_st; [|apply F]|done]. }
  intros s [F _] Hh L' _. destruct (record_at sb jc k pos) as [r|] eqn:Er.
  2: { injection Hp as <-. eexists _, _. split; [done|]. split; [by apply step_with_st|]. split; [done|].
       intros _. split; [by rewrite Nat.add_0_r|]. split; [done|]. split; cbn; (done || lia). }
  assert (Hl : exists l', l = r :: l').
  { case_match; [injection Hp as <-; eauto|]. apply fmap_Some in Hp as (l' & _ & ->). eauto. }
  destruct Hl as [l' ->].
  destruct (scan_record k pos r (with_st j s) l' L' Er Hc) as (g & pos' & E & Ep & [G1 G2 G3 G4 G5] & Hc').
  set (j1 := j_set_info g (with_st j s)) in *. unfold wp at 1. rewrite E, Ep. cbn [orb].
  assert (S1 : step none j j1).
  { eapply step_trans; [by apply step_with_st|by apply step_info]. }
  destruct (after sb r pos =? start).
  - injection Hp as <-. eexists _, _. split; [done|]. split; [done|]. split; [done|]. intros _.
    assert (Et : next_trans r k = (k + commits [r])%nat) by (rewrite commits_cons; unfold next_trans; change (commits []) with 0%nat; destruct (is_commit r); lia).
    rewrite Et, commits_cons, revokes_cons. split; [done|]. split; [done|].
    split; unfold commits, revokes; cbn [filter list_filter length]; rewrite ?Nat.add_0_r; done.
  - apply fmap_Some in Hp as (l0 & Hp & [= <-]).
    eapply wp_mono; [apply (IH _ _ _ _ (sp_log _ _ _ S1) (after_inlog r _ Hpos) Hp Hc')|]. cbv beta.
    intros r' j' (id & rc & -> & S2 & Hf & H). eexists _, _. split; [done|]. split; [by eapply step_trans|].
    split; [done|].
    intros Hrc. destruct (H Hrc) as (-> & Hh2 & [K1 K2 K3 K4 K5]). rewrite commits_cons, revokes_cons.
    split; [f_equal; unfold next_trans; destruct (is_commit r); lia|].
    split; [intros b; rewrite Hh2; apply Hh|]. cbn [j1 j_set_info j_info with_st] in *. split; (congruence || lia).
Qed.

(** ** The later walks

    A walk that is not the scan goes over the committed records, and no others.  [n]
    is the number of committed transactions, [C] the committed records; [P pre]
    holds of the state once the records [pre] are done, [F] of a state in which the
    walk has failed. *)

Section Pass.
Context (act : action) (Hact : act <> ACTION_SCAN) (n : nat) (Hn : (0 < n)%nat) (Hn' : Z.of_nat n < 2 ^ 31).
Context (C : list record) (P : list record -> jfs -> Prop) (F : jfs -> Prop).
Context (P_log : forall pre j, P pre j -> on_log j)
  (P_last : forall pre j, P pre j -> last_trans_id (j_info j) = trans_id sb (n - 1))
  (P_read : forall pre j s, P pre j -> stays none (j_st j) s -> same_home (j_st j) s -> P pre (with_st j s))
  (P_fail : forall pre j s, P pre j -> rl_faulty -> stays none (j_st j) s -> F (with_st j s)).
Context (P_rec : forall pre r suf k pos j, P pre j -> C = pre ++ r :: suf -> (k < n)%nat -> rl_inlog pos ->
  record_at sb jc k pos = Some r -> block_ok (jc pos) ->
  wp (record_step act (trans_id sb k) pos r) j (fun res j' => exists pos' rc,
    (rc = EOK /\ res = Ok (trans_id sb (next_trans r k), pos', false, EOK) /\
     next_pos sb pos' = after sb r pos /\ P (pre ++ [r]) j') \/
    (rc <> EOK /\ res = Ok (trans_id sb k, pos', true, rc) /\ F j'))).

Definition pass_result (r : result (option (Z * Z))) j' : Prop :=
  exists id rc, r = Ok (Some (id, rc)) /\ ((rc = EOK /\ P C j') \/ (rc <> EOK /\ F j')).

Lemma loop_stop fuel start k pos pre j :
  P pre j -> k = n ->
  iterate_log_loop (S fuel) act start (trans_id sb k) pos j = (Ok (Some (trans_id sb k, EOK)), j).
Proof.
  intros HP ->. cbn [iterate_log_loop]. unfold mbnd, mget. rewrite (P_last _ _ HP), trans_diff by lia.
  rewrite bool_decide_eq_false_2 by done. assert (0 < Z.of_nat n - Z.of_nat (n - 1)) as H1 by lia. apply Z.ltb_lt in H1. by rewrite H1.
Qed.

Lemma pass_loop fuel start : forall k pos l pre j,
  rl_inlog pos -> parse_log sb jc fuel start k pos = Some l -> (k + commits l = n)%nat -> C = pre ++ committed l -> P pre j ->
  wp (iterate_log_loop fuel act start (trans_id sb k) pos) j pass_result.
Proof.
  induction fuel as [|fuel IH]; intros k pos l pre j Hpos Hp Hk HC HP; [done|].
  destruct (Nat.eq_dec (commits l) 0%nat) as [E0|E0].
  { unfold wp. rewrite (loop_stop _ _ _ _ pre) by (done || lia). eexists _, _. split; [done|]. left. split; [done|].
    by rewrite HC, committed_nil, app_nil_r. }
  cbn [parse_log] in Hp. destruct (record_at sb jc k pos) as [r|] eqn:Er; [|by injection Hp as <-].
  apply loop_step; [by eapply P_log|done|..].
  { intros _. rewrite (P_last _ _ HP), trans_diff by lia. split; [lia|congruence]. }
  { intros rc s Hrc Hfault Hf. eexists _, _. split; [done|]. right. split; [done|]. by eapply P_fail. }
  intros s Hf Hh _ Hlen. rewrite Er.
  assert (Hl : exists l', l = r :: l').
  { case_match; [injection Hp as <-; eauto|]. apply fmap_Some in Hp as (l' & _ & ->). eauto. }
  destruct Hl as [l' ->]. rewrite committed_cons in HC by done.
  eapply wp_mono; [eapply P_rec; [by eapply P_read|exact HC|lia|exact Hpos|exact Er|exact Hlen]|]. cbv beta.
  intros res j' (pos' & rc & [(-> & -> & Ep & HP')|(Hrc & -> & HF)]).
  2: { cbn [orb]. eexists _, _. split; [done|]. by right. }
  rewrite Ep. cbn [orb]. destruct (after sb r pos =? start) eqn:Ea.
  - injection Hp as <-. eexists _, _. split; [done|]. left. split; [done|]. by rewrite HC.
  - apply fmap_Some in Hp as (l0 & Hp & [= <-]). apply (IH _ _ l' (pre ++ [r])); [by apply after_inlog|done| |by rewrite <- app_assoc|done].
    rewrite commits_cons in Hk. unfold next_trans. destruct (is_commit r); lia.
Qed.
End Pass.

(** ** Collecting the revokes *)

(** The tree names, for each block, the last transaction that revokes it. *)
Definition tree_ok (pre : list record) (root : gmap Z Z) : Prop :=
  forall b, root !! b = trans_id sb <$> last_revoke pre b.

Lemma insert_all_lookup id bs : forall (m : gmap Z Z) x,
  foldl (fun r b => <[b := id]> r) m bs !! x = if decide (x ∈ bs) then Some id else m !! x.
Proof.
  induction bs as [|b bs IH]; intros m x; cbn [foldl].
  - rewrite decide_False; [done|apply not_elem_of_nil].
  - rewrite IH. destruct (decide (x ∈ bs)) as [H|H]; [rewrite decide_True by set_solver; done|].
    destruct (decide (x = b)) as [->|Hx].
    + rewrite lookup_insert_eq, decide_True by set_solver. done.
    + rewrite lookup_insert_ne, decide_False by set_solver. done.
Qed.
Lemma tree_ok_other pre r root : is_revoke r = false -> tree_ok pre root -> tree_ok (pre ++ [r]) root.
Proof. intros Hr H b. unfold last_revoke. rewrite foldl_app. cbn [foldl]. destruct r; (done || apply H). Qed.
Lemma tree_ok_revoke pre k bs root :
  tree_ok pre root -> tree_ok (pre ++ [RRevoke k bs]) (foldl (fun r b => <[b := trans_id sb k]> r) root bs).
Proof.
  intros H b. unfold last_revoke. rewrite insert_all_lookup, foldl_app. cbn [foldl]. fold (last_revoke pre b).
  case_decide; [done|apply H].
Qed.

Definition revoking (j0 : jfs) (pre : list record) (j : jfs) : Prop :=
  step none j0 j /\ same_home (j_st j0) (j_st j) /\
  j_info j = i_set_revokes (revoke_root (j_info j)) (j_info j0) /\ tree_ok pre (revoke_root (j_info j)).

Lemma revoke_pass fuel start l n j0 :
  rl_inlog start -> parse_log sb jc fuel start 0 start = Some l -> commits l = n -> (0 < n)%nat -> Z.of_nat n < 2 ^ 31 ->
  on_log j0 -> last_trans_id (j_info j0) = trans_id sb (n - 1) -> info_rc (j_info j0) = EOK ->
  revoke_root (j_info j0) = ∅ ->
  wp (iterate_log_loop fuel ACTION_REVOKE start (trans_id sb 0) start) j0
    (pass_result (committed l) (revoking j0) (fun j => step none j0 j /\ rl_faulty)).
Proof.
  intros Hpos Hp Hc Hn Hn' L Hlast Hrc Hroot.
  apply (pass_loop ACTION_REVOKE ltac:(done) n Hn Hn' _ (revoking j0) (fun j => step none j0 j /\ rl_faulty)) with (l := l) (pre := []); try done.
  - intros pre j (H & _). apply H.
  - intros pre j (_ & _ & -> & _). apply Hlast.
  - intros pre j s (H1 & H2 & H3 & H4) [Hf _] Hh. split_and!; [|intros b; rewrite Hh; apply H2|done|done].
    eapply step_trans; [done|by apply step_with_st; [apply H1|]].
  - intros pre j s (H1 & _) Hfault [Hf _]. split; [|done]. eapply step_trans; [done|by apply step_with_st; [apply H1|]].
  - intros pre r suf k pos j (H1 & H2 & H3 & H4) _ _ _ Hr _. pose proof (record_at_trans _ _ _ _ _ Hr) as Hk.
    destruct r as [k0 p0 tags|k0 bs|k0]; cbn [rec_trans] in Hk; subst k0; cbn [record_step next_trans is_commit after].
    + apply wp_ok. eexists _, _. left. split_and!; try done. split_and!; try done. by apply tree_ok_other.
    + apply wp_bind, wp_mod, wp_bind, wp_get. cbv beta iota.
      replace (info_rc _) with EOK by (cbn; by rewrite H3). apply wp_ok. eexists _, _. left.
      split; [done|]. split; [done|]. split; [done|].
      split; [eapply step_trans; [done|apply step_info, H1]|]. split; [done|].
      split; [cbn; by rewrite H3|by apply tree_ok_revoke].
    + apply wp_bind, wp_ok. cbv beta iota. apply wp_ok. rewrite next_trans_id. eexists _, _. left.
      split_and!; try done. split_and!; try done. by apply tree_ok_other.
  - split_and!; [by apply step_refl|done|by destruct (j_info j0)|]. intros b. by rewrite Hroot.
Qed.
End Walk.
