(* ===== verification/ReplayPass.v ===== *)
(** * The pass that replays

    Each tag of a committed descriptor whose copy is not revoked writes the copy
    home; the first operation that fails is remembered, and ends the walk at the end
    of its descriptor. *)

From stdpp Require Import sorting.
From S2P Require Import Prelude Layout Types Crc Super Jbd JbdLaws JbdRecover RecoverSpec RecoverLaws.

Section Replay.
Context {St : Type} {RI : ReplayIO St} {RM : ReplayModel St} {RL : ReplayLaws St}.
Local Abbreviation jfs := (jfs St).
Context (sb : list Z) (jc : Z -> list Z).
(** The log does not leave the blocks it may use. *)
Context (next_ok : forall pos, rl_inlog pos -> rl_inlog (next_pos sb pos)).
(** The committed records, of transactions [0 .. n), and the state the pass starts
    from. *)
Context (C : list record) (n : nat) (Hn : (0 < n)%nat) (Hn' : Z.of_nat n < 2 ^ 31).
Context (C_sorted : StronglySorted le (map rec_trans C)) (C_lt : forall r, r ∈ C -> (rec_trans r < n)%nat).
(** No copy goes to a block of the journal. *)
Context (C_home : forall c, c ∈ live_copies sb C -> ti_block c.1.2 <> 0 -> rl_allowed (ti_block c.1.2)).
Context (j0 : jfs) (root_ok : tree_ok sb C (revoke_root (j_info j0))).
Implicit Types (j : jfs) (cs : list (nat * tag_info * Z)).

(** The blocks the pass may write. *)
Definition target (b : Z) : Prop := b = rl_sblock \/ b ∈ map (fun c => ti_block c.1.2) (live_copies sb C).

(** The copies [cs] have been written, unless something failed, or was lost. *)
Record replaying cs j : Prop := {
  rp_step : step sb jc target j0 j;
  rp_ready : rl_ready (j_st j) <-> rl_ready (j_st j0);
  rp_root : revoke_root (j_info j) = revoke_root (j_info j0);
  rp_last : last_trans_id (j_info j) = last_trans_id (j_info j0);
  rp_cnt : trans_cnt (j_info j) = trans_cnt (j_info j0);
  rp_bad : info_rc (j_info j) <> EOK -> rl_faulty;
  rp_done : info_rc (j_info j) = EOK ->
    blocks_replayed (j_info j) = u32 (blocks_replayed (j_info j0) + Z.of_nat (length cs)) /\
    (rl_ready (j_st j0) -> forall b, b <> 0 -> b <> rl_sblock ->
      rl_home (j_st j) b = overlay jc cs (rl_home (j_st j0)) b);
}.
Definition live k ti pos : list (nat * tag_info * Z) := if revoked C k (ti_block ti) then [] else [(k, ti, pos)].

Lemma tree_revoked k b :
  (k < n)%nat ->
  match revoke_root (j_info j0) !! b with
  | Some t => trans_id_diff (trans_id sb k) t <=? 0
  | None => false
  end = revoked C k b.
Proof.
  intros Hk. rewrite (root_ok b), revoked_last by done. destruct (last_revoke C b) as [k'|] eqn:E; [|done].
  assert (Hk' : (k' < n)%nat).
  { assert (R : revoked C k' b = true) by (rewrite revoked_last, E by done; apply Nat.leb_refl).
    unfold last_revoke in E. clear R.
    assert (H : forall l a, (forall x, a = Some x -> (x < n)%nat) -> (forall r, r ∈ l -> (rec_trans r < n)%nat) ->
      foldl (fun a r => match r with RRevoke k bs => if decide (b ∈ bs) then Some k else a | _ => a end) a l = Some k' ->
      (k' < n)%nat).
    { induction l as [|r l IH]; intros a Ha Hl; cbn [foldl]; [apply Ha|].
      apply IH; [|intros; apply Hl; by apply elem_of_cons; right].
      intros x Hx. assert (Hr : (rec_trans r < n)%nat) by (apply Hl, elem_of_cons; by left).
      destruct r; auto. case_decide; [|auto]. injection Hx as <-. done. }
    by apply (H C None). }
  change (trans_id sb <$> Some k') with (Some (trans_id sb k')). cbv iota. rewrite (trans_diff sb k k') by lia.
  destruct (Nat.leb_spec k k'), (Z.leb_spec (Z.of_nat k - Z.of_nat k') 0); (done || lia).
Qed.

Lemma replaying_read cs j s :
  replaying cs j -> stays none (j_st j) s -> same_home (j_st j) s -> replaying cs (with_st j s).
Proof.
  intros [A1 AR A2 A3 A4 Af A5] [F M] H. split; [|by etransitivity|done..|].
  - eapply step_trans; [done|apply step_with_st; [apply A1|by apply frame_none]].
  - intros Hrc. destruct (A5 Hrc) as [B1 B2]. split; [done|]. intros HR b H1 H2. cbn. rewrite (H b). by apply B2.
Qed.
(** After a failure nothing more is claimed of the blocks. *)
Definition fails (g : recover_info -> recover_info) : Prop := forall i,
  revoke_root (g i) = revoke_root i /\ last_trans_id (g i) = last_trans_id i /\ trans_cnt (g i) = trans_cnt i /\
  info_rc (g i) <> EOK.
Lemma replaying_failed cs cs' j s g :
  replaying cs j -> stays target (j_st j) s -> fails g -> rl_faulty -> replaying cs' (j_set_info g (with_st j s)).
Proof.
  intros [A1 AR A2 A3 A4 Af A5] [F M] Hg Hfault. destruct (Hg (j_info j)) as (G1 & G2 & G3 & G4).
  split; cbn [j_info j_st j_set_info with_st]; [|by etransitivity|congruence..|done|done].
  eapply step_trans; [done|]. assert (S1 : step sb jc target j (with_st j s)) by (apply step_with_st; [apply A1|done]).
  eapply step_trans; [exact S1|]. apply step_info, S1.
Qed.
(** One more copy is counted, and written if its block is not the superblock's. *)
Lemma replaying_more cs c j s :
  replaying cs j -> stays target (j_st j) s ->
  (rl_ready (j_st j) -> forall b, b <> 0 -> b <> rl_sblock -> rl_home s b = overlay jc [c] (rl_home (j_st j)) b) ->
  replaying (cs ++ [c]) (j_set_info i_add_replayed (with_st j s)).
Proof.
  intros [A1 AR A2 A3 A4 Af A5] [F M] H. split; [|by etransitivity|done..|].
  - eapply step_trans; [done|]. assert (S1 : step sb jc target j (with_st j s)) by (apply step_with_st; [apply A1|done]).
    eapply step_trans; [exact S1|]. apply step_info, S1.
  - intros Hrc. destruct (A5 Hrc) as [B1 B2]. split.
    + cbn. rewrite B1. unfold u32. rewrite Z.add_mod_idemp_l by lia. f_equal. rewrite length_app. cbn. lia.
    + intros HR b H1 H2. cbn. rewrite H, overlay_app by (done || by apply AR). by apply overlay_ext, B2.
Qed.

Lemma replaying_fs_sb cs d j : replaying cs j -> replaying cs (j_set_fs_sb d j).
Proof. intros [[[B1 B2 B3] A2 A3 A4] ? ? ? ? ? ?]. split; [split; [by split|done..]|done..]. Qed.
(** [ext4_sb_write] touches the superblock's block alone. *)
Lemma wp_sb_write j (Q : result unit -> jfs -> Prop) :
  rl_inv (j_st j) ->
  (forall r d s, stays (eq rl_sblock) (j_st j) s ->
    match r with
    | Ok _ => forall b, b <> rl_sblock -> rl_home s b = rl_home (j_st j) b
    | Err rc => rc <> EOK /\ rl_faulty end -> Q r (j_set_fs_sb d (with_st j s))) ->
  wp fs_sb_write j Q.
Proof.
  intros Hi H. unfold fs_sb_write. apply wp_bind, wp_mod, wp_bind, wp_get, wp_io.
  eapply wp_mono; [apply rl_sb_write_ok, Hi|]. cbv beta. intros r s [F Hr]. by apply H.
Qed.

Lemma replay_sb d cs k ti pos j s :
  replaying cs j -> stays none (j_st j) s -> same_home (j_st j) s -> ti_block ti = 0 ->
  wp (replay_superblock d) (j_set_info i_add_replayed (with_st j s)) (fun r j' =>
    r = Ok tt /\ replaying (cs ++ [(k, ti, pos)]) j').
Proof.
  intros HR F Hh Eb. unfold replay_superblock. apply wp_bind, wp_get, wp_bind, wp_mod, wp_bind, wp_try.
  apply wp_sb_write; [apply F|]. intros r d' s2 F2 H2. cbn [j_st j_set_fs_sb j_set_info with_st] in *.
  assert (F3 : stays target (j_st j) s2).
  { eapply stays_trans; [by apply stays_none|]. eapply stays_mono; [|exact F2]. intros b <-. by left. }
  destruct r as [[]|rc]; cbv beta iota.
  - apply wp_mod. split; [done|]. do 3 apply (replaying_fs_sb _ _ (j_set_info i_add_replayed (with_st j s2))).
    apply replaying_more; [done..|]. intros _ b Hb Hs. rewrite H2, (Hh b) by done.
    symmetry. apply overlay_not_in. cbn. rewrite Eb, list_elem_of_singleton. done.
  - unfold info_mod. apply wp_mod. split; [done|].
    apply (replaying_fs_sb _ _ (j_set_info (i_set_rc rc) (j_set_info i_add_replayed (with_st j s2)))).
    change (replaying (cs ++ [(k, ti, pos)]) (j_set_info (fun i => i_set_rc rc (i_add_replayed i)) (with_st j s2))).
    destruct H2. by eapply replaying_failed.
Qed.

Lemma replay_tag k ti pos cs j :
  replaying cs j -> (k < n)%nat -> rl_inlog pos -> (forall c, c ∈ live k ti (next_pos sb pos) -> c ∈ live_copies sb C) ->
  wp (jbd_replay_block_tags (trans_id sb k) ti pos) j (fun r j' =>
    r = Ok (next_pos sb pos) /\ replaying (cs ++ live k ti (next_pos sb pos)) j').
Proof.
  intros HR Hk Hpos Hin. pose proof (rp_step _ _ HR) as HS. unfold jbd_replay_block_tags.
  do 2 (apply wp_bind, wp_get; cbv beta iota). rewrite (ol_sb _ _ _ (sp_log _ _ _ _ _ HS)).
  fold (next_pos sb pos). rewrite (rp_root _ _ HR), tree_revoked by done. unfold live in *.
  destruct (revoked C k (ti_block ti)); [apply wp_ok; by rewrite app_nil_r|].
  assert (Hc : (k, ti, next_pos sb pos) ∈ live_copies sb C) by (apply Hin; by apply list_elem_of_singleton).
  apply wp_bind, wp_try, wp_io. eapply wp_mono; [apply rl_log_ok; [apply HS|by apply next_ok]|]. cbv beta.
  intros [d|rc] s1 [F1 H1]; cbv beta iota.
  2: { destruct H1. apply wp_bind. unfold info_mod. apply wp_mod, wp_ok. split; [done|].
       eapply replaying_failed; [done|by apply stays_none|done|done]. }
  destruct H1 as (Ed & Hlen & Hh). rewrite (ol_log _ _ _ (sp_log _ _ _ _ _ HS)) in Ed.
  apply wp_bind. unfold info_mod at 1. apply wp_mod. cbv beta iota. apply wp_bind.
  destruct (Z.eqb_spec (ti_block ti) 0) as [E0|E0]; cbn [negb].
  { eapply wp_mono; [by apply (replay_sb d cs k ti (next_pos sb pos))|]. cbv beta.
    intros r j' [-> H]. by apply wp_ok. }
  apply wp_bind, wp_try, wp_io. cbn [j_st j_set_info with_st].
  eapply wp_mono; [apply rl_home_ok; [apply F1|by apply (C_home _ Hc)|done]|]. cbv beta.
  intros r s2 [F2 H2].
  assert (F3 : stays target (j_st j) s2).
  { eapply stays_trans; [by apply stays_none|]. eapply stays_mono; [|exact F2]. intros b <-. right.
    apply list_elem_of_fmap. by exists (k, ti, next_pos sb pos). }
  destruct r as [[]|rc]; cbv beta iota.
  - apply wp_ok, wp_ok. split; [done|]. apply (replaying_more cs (k, ti, next_pos sb pos) j s2); [done..|].
    intros Hr b Hb Hs. rewrite H2, overlay_one by by apply F1. cbn. subst d. unfold fupd. case_match; [done|]. apply Hh.
  - unfold info_mod. apply wp_mod, wp_ok. split; [done|].
    destruct H2. by apply (replaying_failed cs _ j s2 (fun i => i_set_rc rc (i_add_replayed i))).
Qed.

(** ** A descriptor, and the pass *)

Definition live_of (l : list (nat * tag_info * Z)) : list (nat * tag_info * Z) :=
  filter (fun c => revoked C c.1.1 (ti_block c.1.2) = false) l.
Lemma live_of_cons k ti pos l : live_of ((k, ti, pos) :: l) = live k ti pos ++ live_of l.
Proof. unfold live_of, live. rewrite filter_cons. cbn. destruct (revoked C k (ti_block ti)); by case_decide. Qed.
Lemma live_of_app l l' : live_of (l ++ l') = live_of l ++ live_of l'.
Proof. apply filter_app. Qed.

Lemma replay_tags_spec k tags : forall pos cs j,
  replaying cs j -> (k < n)%nat -> rl_inlog pos -> (forall c, c ∈ live_of (tag_copies sb k pos tags) -> c ∈ live_copies sb C) ->
  wp (replay_tags (trans_id sb k) tags pos) j (fun r j' =>
    r = Ok (Nat.iter (length tags) (next_pos sb) pos) /\ replaying (cs ++ live_of (tag_copies sb k pos tags)) j').
Proof.
  induction tags as [|ti tags IH]; intros pos cs j HR Hk Hpos Hin; cbn [replay_tags tag_copies length].
  { apply wp_ok. by rewrite app_nil_r. }
  cbn [tag_copies] in Hin. rewrite live_of_cons in Hin |- *. apply wp_bind.
  eapply wp_mono; [apply replay_tag; [done..|]|]; [intros c Hc; apply Hin, elem_of_app; by left|].
  cbv beta. intros r j1 [-> H1]. rewrite Nat.iter_succ_r, app_assoc.
  apply IH; [done|done|by apply next_ok|]. intros c Hc. apply Hin, elem_of_app. by right.
Qed.

Lemma recover_pass fuel start l :
  rl_inlog start -> parse_log sb jc fuel start 0 start = Some l -> commits l = n -> C = committed l ->
  on_log sb jc j0 -> last_trans_id (j_info j0) = trans_id sb (n - 1) -> info_rc (j_info j0) = EOK ->
  blocks_replayed (j_info j0) = 0 ->
  wp (iterate_log_loop fuel ACTION_RECOVER start (trans_id sb 0) start) j0
    (pass_result C (fun pre j => replaying (live_of (copies sb pre)) j /\ info_rc (j_info j) = EOK)
       (fun j => step sb jc target j0 j /\ rl_faulty)).
Proof.
  intros Hpos Hp Hc HC L Hlast Hrc Hb.
  apply (pass_loop sb jc next_ok ACTION_RECOVER ltac:(done) n Hn Hn' C
    (fun pre j => replaying (live_of (copies sb pre)) j /\ info_rc (j_info j) = EOK) (fun j => step sb jc target j0 j /\ rl_faulty))
    with (l := l) (pre := []); try done.
  - intros pre j [H _]. apply H.
  - intros pre j [H _]. rewrite <- Hlast. apply H.
  - intros pre j s [H1 H2] Hf Hh. split; [by apply replaying_read|done].
  - intros pre j s [H1 _] Hfault Hf. split; [|done]. eapply step_trans; [apply H1|]. apply step_with_st; [apply H1|apply frame_none, Hf].
  - intros pre r suf k pos j [H1 H2] EC Hk Hpos' Hr _. pose proof (record_at_trans _ _ _ _ _ Hr) as Ek.
    assert (Same : forall r', is_commit r' = true \/ is_revoke r' = true ->
      live_of (copies sb (pre ++ [r'])) = live_of (copies sb pre)).
    { intros r' Hr'. rewrite copies_app. destruct r'; cbn in *; [naive_solver|by rewrite app_nil_r..]. }
    destruct r as [k0 p0 tags|k0 bs|k0]; cbn [rec_trans] in Ek; subst k0; cbn [record_step next_trans is_commit after].
    + assert (Ep : p0 = pos) by (unfold record_at in Hr; repeat case_match; by simplify_eq). subst p0.
      assert (El : live_of (copies sb [RDesc k pos tags]) = live_of (tag_copies sb k pos tags)).
      { unfold copies. cbn. by rewrite app_nil_r. }
      apply wp_bind. eapply wp_mono; [apply replay_tags_spec; [exact H1|done|done|]|].
      { intros c Hin. unfold live_copies. change (c ∈ live_of (copies sb C)).
        rewrite EC. change (RDesc k pos tags :: suf) with ([RDesc k pos tags] ++ suf). rewrite !copies_app, !live_of_app, !elem_of_app.
        right. left. by rewrite El. }
      cbv beta. intros res j' [-> H']. apply wp_bind, wp_get. cbv beta iota.
      destruct (Z.eqb_spec (info_rc (j_info j')) EOK) as [E|E]; cbn [negb]; apply wp_ok.
      * exists (Nat.iter (length tags) (next_pos sb) pos), EOK. left. rewrite copies_app, live_of_app, El.
        by split_and!.
      * exists (Nat.iter (length tags) (next_pos sb) pos), (info_rc (j_info j')). right.
        split; [done|]. split; [done|]. split; [apply H'|by eapply rp_bad].
    + apply wp_ok. exists pos, EOK. left. rewrite Same by (by right). by split_and!.
    + apply wp_bind, wp_ok. cbv beta iota. apply wp_ok. rewrite next_trans_id.
      exists pos, EOK. left. rewrite Same by (by left). by split_and!.
  - split; [|done]. split; try done; [by apply step_refl|]. intros _. by rewrite Hb.
Qed.
End Replay.
