(* ===== verification/RecoverProps.v ===== *)
(** * Recovery replays the log

    The three walks put together: [jbd_recover] leaves on the medium what replaying
    the committed transactions leaves, keeps the log when it fails, and can be run
    again. *)

From stdpp Require Import sorting.
From S2P Require Import Prelude Layout Types Crc Super Jbd JbdLaws JbdRecover RecoverSpec RecoverLaws ReplayPass.

Section Recovery.
Context {St : Type} {RI : ReplayIO St} {RM : ReplayModel St} {RL : ReplayLaws St}.
Local Abbreviation jfs := (jfs St).
Context (sb : list Z) (jc : Z -> list Z).
Implicit Types (j : jfs).

(** A log that has an end, and whose copies go home outside the journal. *)
Record log_ok (fuel : nat) (l : list record) : Prop := {
  lo_parse : log_records sb jc fuel = Some l;
  lo_start : rl_inlog (jbd_get32 js_start 0 sb);
  lo_next pos : rl_inlog pos -> rl_inlog (next_pos sb pos);
  lo_len : Z.of_nat (length l) < 2 ^ 31;
  lo_home c : c ∈ live_copies sb (committed l) -> ti_block c.1.2 <> 0 -> rl_allowed (ti_block c.1.2);
}.

(** The ring of an intact superblock is closed. *)
Lemma next_pos_range pos :
  0 < jbd_get32 js_first 0 sb < jbd_get32 js_maxlen 0 sb -> 0 < pos < jbd_get32 js_maxlen 0 sb ->
  0 < next_pos sb pos < jbd_get32 js_maxlen 0 sb.
Proof.
  intros Hf Hp. pose proof (jbd_get32_range js_maxlen 0 sb). unfold next_pos, wrap.
  rewrite (u32_id (pos + 1)) by lia. destruct (Z.leb_spec (jbd_get32 js_maxlen 0 sb) (pos + 1)); [|lia].
  rewrite !u32_id by (rewrite ?u32_id; lia). lia.
Qed.

(** The id the journal's superblock is left with. *)
Definition last_id (l : list record) : Z := trans_id sb (commits l - 1).
Definition emptied (l : list record) : list Z :=
  jbd_set32 js_sequence 0 (last_id l) (jbd_set32 js_start 0 0 sb).

Lemma commits_le l : (commits l <= length l)%nat.
Proof. apply length_filter. Qed.
Lemma revokes_le l : (revokes l <= length l)%nat.
Proof. apply length_filter. Qed.
Lemma trans_id_0 : trans_id sb 0 = jbd_get32 js_sequence 0 sb.
Proof. unfold trans_id. rewrite Z.add_0_r. apply u32_id. apply jbd_get32_range. Qed.

(** [jbd_iterate_log], from what its loop does. *)
Lemma iterate_scan fuel l j :
  on_log sb jc j -> log_ok fuel l ->
  wp (jbd_iterate_log fuel ACTION_SCAN) j (fun r j' => exists rc, r = Ok (Some rc) /\ step sb jc none j j' /\
    (rc <> EOK -> rl_faulty) /\ (rc = EOK -> same_home (j_st j) (j_st j') /\
      trans_cnt (j_info j') = Z.of_nat (commits l) /\ revoke_block_cnt (j_info j') = Z.of_nat (revokes l) /\
      last_trans_id (j_info j') = last_id l /\
      revoke_root (j_info j') = revoke_root (j_info j) /\ info_rc (j_info j') = info_rc (j_info j) /\
      blocks_replayed (j_info j') = blocks_replayed (j_info j))).
Proof.
  intros L [Hp Hstart Hnext Hl _]. pose proof (commits_le l). pose proof (revokes_le l). change (2 ^ 31) with 2147483648 in Hl.
  unfold jbd_iterate_log. apply wp_bind, wp_get, wp_bind. unfold info_mod at 1. apply wp_mod. apply wp_bind, wp_get, wp_bind.
  cbv beta iota. rewrite bool_decide_eq_true_2 by done. cbn [negb andb].
  rewrite (ol_sb _ _ _ L), <- trans_id_0.
  set (j1 := j_set_info (i_set_cnt 0 0) j).
  assert (S1 : step sb jc none j j1) by (by apply step_info).
  eapply wp_mono; [apply (scan_loop sb jc Hnext fuel _ 0 _ l j1); [apply S1|exact Hstart|exact Hp|]|].
  { unfold counts_fit. cbn. lia. }
  cbv beta. intros r j2 (id & rc & -> & S2 & Hfault & H2). cbv beta iota. apply wp_bind.
  rewrite andb_true_r.
  destruct (Z.eqb_spec rc EOK) as [Erc|Erc].
  - destruct (H2 Erc) as (-> & Hh & [K1 K2 K3 K4 K5]). unfold info_mod. apply wp_mod. apply wp_ok.
    exists rc. split; [done|]. split; [eapply step_trans; [exact S1|eapply step_trans; [exact S2|apply step_info, S2]]|].
    split; [done|]. intros _. cbn in K1, K2, K3, K4, K5 |- *. split_and!; try done. cbn [Nat.add]. rewrite (trans_diff sb) by lia. unfold last_id.
    destruct (commits l) as [|m] eqn:Em; [done|]. rewrite (proj2 (Z.ltb_lt _ _)) by lia.
    replace (S m - 1)%nat with m by lia. rewrite <- next_trans_id. unfold trans_id, u32. dlia.
  - apply wp_ok. exists rc. split; [done|]. split; [by eapply step_trans|done].
Qed.

(** The other two walks, on a log with [n] committed transactions. *)
Lemma iterate_skip act fuel j :
  act <> ACTION_SCAN -> trans_cnt (j_info j) = 0 -> jbd_iterate_log fuel act j = (Ok (Some EOK), j).
Proof.
  intros Ha Hc. unfold jbd_iterate_log, mbnd, mget.
  destruct act; [done|..]; cbv beta iota delta [mok]; rewrite Hc, bool_decide_eq_false_2 by done; cbn [negb andb Z.eqb]; cbv iota; rewrite andb_false_r; done.
Qed.
Lemma iterate_later act fuel j (Q : result (option Z) -> jfs -> Prop) :
  act <> ACTION_SCAN -> on_log sb jc j -> trans_cnt (j_info j) <> 0 ->
  wp (iterate_log_loop fuel act (jbd_get32 js_start 0 sb) (trans_id sb 0) (jbd_get32 js_start 0 sb)) j
    (fun r j' => exists id rc, r = Ok (Some (id, rc)) /\ Q (Ok (Some rc)) j') ->
  wp (jbd_iterate_log fuel act) j Q.
Proof.
  intros Ha L Hc H. unfold jbd_iterate_log. apply wp_bind, wp_get, wp_bind.
  assert (E : (match act with ACTION_SCAN => info_mod (i_set_cnt 0 0) | _ => @mok jfs unit tt end) = mok tt) by (by destruct act).
  rewrite E. clear E. apply wp_ok. apply wp_bind, wp_get, wp_bind. cbv beta iota.
  rewrite bool_decide_eq_false_2 by done. cbn [negb andb]. rewrite (proj2 (Z.eqb_neq _ _)) by done.
  rewrite (ol_sb _ _ _ L), <- trans_id_0. eapply wp_mono; [exact H|]. cbv beta.
  intros r j' (id & rc & -> & HQ). apply wp_bind. rewrite andb_false_r. by apply wp_ok, wp_ok.
Qed.

Lemma iterate_revoke fuel l j :
  on_log sb jc j -> log_ok fuel l -> trans_cnt (j_info j) = Z.of_nat (commits l) ->
  last_trans_id (j_info j) = last_id l -> info_rc (j_info j) = EOK -> revoke_root (j_info j) = ∅ ->
  wp (jbd_iterate_log fuel ACTION_REVOKE) j (fun r j' => exists rc, r = Ok (Some rc) /\ step sb jc none j j' /\
    (rc <> EOK -> rl_faulty) /\ (rc = EOK -> same_home (j_st j) (j_st j') /\
      j_info j' = i_set_revokes (revoke_root (j_info j')) (j_info j) /\
      tree_ok sb (committed l) (revoke_root (j_info j')))).
Proof.
  intros L [Hp Hstart Hnext Hl _] Hc Hlast Hrc Hroot. pose proof (commits_le l). change (2 ^ 31) with 2147483648 in *.
  destruct (Nat.eq_dec (commits l) 0%nat) as [E0|E0].
  - unfold wp. rewrite iterate_skip by (done || lia). exists EOK. split; [done|]. split; [by apply step_refl|].
    split; [done|]. intros _. split; [done|]. rewrite committed_nil by done.
    split; [by destruct (j_info j)|]. intros b. by rewrite Hroot.
  - apply iterate_later; [done|done|lia|]. eapply wp_mono; [apply (revoke_pass sb jc Hnext fuel _ l (commits l) j); (done || lia)|].
    cbv beta. intros r j' (id & rc & -> & [(-> & H1 & H2 & H3 & H4)|(Hne & HF & Hfault)]); exists id; eexists; (split; [done|]); eexists; (split; [done|]).
    + split; [done|]. done.
    + split; [done|]. done.
Qed.
Lemma iterate_recover fuel l j :
  on_log sb jc j -> log_ok fuel l -> trans_cnt (j_info j) = Z.of_nat (commits l) ->
  last_trans_id (j_info j) = last_id l -> info_rc (j_info j) = EOK -> blocks_replayed (j_info j) = 0 ->
  tree_ok sb (committed l) (revoke_root (j_info j)) ->
  wp (jbd_iterate_log fuel ACTION_RECOVER) j (fun r j' => exists rc, r = Ok (Some rc) /\
    step sb jc (target sb (committed l)) j j' /\ (rc <> EOK -> rl_faulty) /\
    (rc = EOK -> (rl_ready (j_st j') <-> rl_ready (j_st j)) /\ last_trans_id (j_info j') = last_id l /\ trans_cnt (j_info j') = Z.of_nat (commits l) /\
      blocks_replayed (j_info j') = u32 (Z.of_nat (length (live_copies sb (committed l)))) /\
      (rl_ready (j_st j) -> forall b, b <> 0 -> b <> rl_sblock -> rl_home (j_st j') b = replayed sb jc l (rl_home (j_st j)) b))).
Proof.
  intros L [Hp Hstart Hnext Hl Hh] Hc Hlast Hrc Hb Ht. pose proof (commits_le l). change (2 ^ 31) with 2147483648 in *.
  destruct (Nat.eq_dec (commits l) 0%nat) as [E0|E0].
  - unfold wp. rewrite iterate_skip by (done || lia). exists EOK. split; [done|]. split; [by apply step_refl|].
    split; [done|]. intros _. unfold replayed. rewrite committed_nil by done. split_and!; done.
  - apply iterate_later; [done|done|lia|].
    eapply wp_mono; [apply (recover_pass sb jc Hnext (committed l) (commits l)) with (l := l); try (done || lia)|].
    + apply committed_sorted. by eapply parse_sorted.
    + intros r Hr. by eapply (parse_trans_lt sb jc _ _ 0).
    + cbv beta. intros r j' (id & rc & -> & [(-> & [H1 HM H2 H3 H4 _ H5] & H6)|(Hne & HF & Hfault)]); exists id; eexists; (split; [done|]); eexists; (split; [done|]).
      * split; [done|]. split; [done|]. intros _. destruct (H5 H6) as [H7 H8]. split; [done|]. split_and!; [congruence|congruence| |done].
        by rewrite H7, Hb.
      * split; [done|]. done.
Qed.

(** ** The end of a recovery *)

(** What a replay can leave in the superblock that no one can mount. *)
Definition unusable (s : list Z) : bool :=
  negb (sb_get sb_magic s =? EXT4_SUPERBLOCK_MAGIC) || (6 <? sb_get sb_log_block_size s).
Lemma finish_spec l j :
  on_log sb jc j -> last_trans_id (j_info j) = last_id l ->
  wp recover_finish j (fun r j' => exists rc, r = Ok rc /\ stays (eq rl_sblock) (j_st j) (j_st j') /\
    j_info j' = j_info j /\ j_last_recovery j' = j_last_recovery j /\
    ((rc <> EOK /\ j_sb j' = sb /\ j_dirty j' = j_dirty j) \/ (j_sb j' = emptied l /\ j_dirty j' = true)) /\
    (rc <> EOK -> rl_faulty \/ (rc = EIO /\ unusable (j_fs_sb j') = true)) /\
    (rc = EOK -> j_sb j' = emptied l /\ forall b, b <> rl_sblock -> rl_home (j_st j') b = rl_home (j_st j) b)).
Proof.
  intros [L1 L2 L3] Hlast. unfold recover_finish. apply wp_bind, wp_try, wp_io.
  eapply wp_mono; [apply rl_sb_read_ok, L2|]. cbv beta. intros r s [F Hh]. apply wp_bind.
  assert (Hk : exists d, (match r with Ok s => mmod (j_set_fs_sb s) | Err _ => @mok jfs unit tt end) (with_st j s) =
    (Ok tt, j_set_fs_sb d (with_st j s))).
  { destruct r as [d|rc]; [by exists d|]. exists (j_fs_sb j). by destruct j. }
  destruct Hk as [d Hk]. unfold wp at 1. rewrite Hk. clear Hk. apply wp_bind, wp_get. cbv beta iota.
  assert (Ff : stays (eq rl_sblock) (j_st j) s) by by apply stays_none.
  match goal with |- context [negb ?a || ?b] => destruct (negb a || b) eqn:Eu end.
  { apply wp_ok. exists EIO. split_and!; try done; [by left|]. intros _. right. split; [done|exact Eu]. }
  do 2 (apply wp_bind, wp_get). do 2 apply wp_bind, wp_mod. apply wp_bind, wp_try.
  cbn [j_info j_sb j_set_fs_sb j_set_sb with_st]. rewrite L1, Hlast. fold (emptied l).
  apply wp_sb_write; [apply F|]. cbn [j_st j_set_fs_sb j_set_sb with_st].
  intros r' d' s2 F2 H2. cbv beta iota. apply wp_ok. eexists. split; [done|].
  assert (F3 : stays (eq rl_sblock) (j_st j) s2) by by eapply stays_trans.
  cbn [j_info j_sb j_dirty j_st j_last_recovery j_set_fs_sb j_set_sb with_st].
  split; [done|]. split; [done|]. split; [done|]. split; [by right|].
  split; [intros Hrc; left; destruct r' as [u|rc]; [done|by destruct H2]|].
  intros Hrc. split; [done|]. destruct r' as [[]|rc]; [|by destruct H2]. intros b Hb. rewrite H2 by done. apply Hh.
Qed.

Definition on_disk (l : list record) (j j' : jfs) : Prop := rl_ready (j_st j') -> forall b, b <> 0 -> b <> rl_sblock ->
  rl_disk (j_st j') b = replayed sb jc l (rl_home (j_st j)) b.
(** What a recovery ends with: the error code [rc], and the state [j'].  The
    contents are claimed if no write home was lost unreported. *)
Record outcome j (l : list record) (rc : Z) j' : Prop := {
  oc_frame : frame (target sb (committed l)) (j_st j) (j_st j');
  oc_log : (rc <> EOK /\ j_sb j' = sb /\ j_dirty j' = j_dirty j) \/
           (j_sb j' = emptied l /\ j_dirty j' = true /\ on_disk l j j');
  oc_fault : rc <> EOK -> rl_faulty \/ (rc = EIO /\ unusable (j_fs_sb j') = true);
  oc_ok : rc = EOK -> j_sb j' = emptied l /\
    (rl_ready (j_st j') -> forall b, b <> 0 -> b <> rl_sblock -> rl_home (j_st j') b = replayed sb jc l (rl_home (j_st j)) b) /\
    j_last_recovery j' = Some (Z.of_nat (commits l), u32 (Z.of_nat (length (live_copies sb (committed l)))),
                               jbd_get32 js_maxlen 0 sb);
}.
Lemma outcome_failed j l rc j' :
  rc <> EOK -> rl_faulty -> step sb jc (target sb (committed l)) j j' -> on_log sb jc j -> outcome j l rc j'.
Proof. intros Hrc Hf [H1 H2 H3 H4] L. split; [done| |by left|done]. left. split; [done|]. split; [apply H1|done]. Qed.

Lemma emptied_maxlen l : jbd_get32 js_maxlen 0 (emptied l) = jbd_get32 js_maxlen 0 sb.
Proof. unfold emptied, jbd_set32, jbd_get32. by rewrite !rd_wr_ne. Qed.

(** The replay, from the walk that does it to the declaration that the log is
    empty. *)
Lemma replay_run fuel l j j1 :
  on_log sb jc j -> (forall b, ~ rl_pend (j_st j) b) -> log_ok fuel l -> step sb jc none j j1 -> same_home (j_st j) (j_st j1) ->
  trans_cnt (j_info j1) = Z.of_nat (commits l) -> last_trans_id (j_info j1) = last_id l ->
  info_rc (j_info j1) = EOK -> blocks_replayed (j_info j1) = 0 -> tree_ok sb (committed l) (revoke_root (j_info j1)) ->
  wp (on_io rio_open;;;
      r <- jbd_iterate_log fuel ACTION_RECOVER;;
      match r with
      | None => mok None
      | Some rc =>
        r <- (if rc =? EOK then mtry (on_io rio_flush) else mok (Err rc));;
        match r with
        | Err rc => mok (Some rc)
        | Ok _ =>
            mtry (on_io rio_barrier);;;
            rc <- recover_finish;;
            (if rc =? EOK then
               info <- mget j_info;;
               jsb <- mget j_sb;;
               mmod (j_set_recovery (Some (trans_cnt info, blocks_replayed info, jbd_get32 js_maxlen 0 jsb)))
             else mok tt);;;
            mok (Some rc)
        end
      end) j1 (fun r j' => exists rc, r = Ok (Some rc) /\ outcome j l rc j').
Proof.
  intros L Hpend HL S1 Hh1 Hc Hlast Hrc Hb Ht.
  assert (Hpend1 : forall b, ~ rl_pend (j_st j1) b).
  { intros b Hb1. destruct (fr_pend _ _ _ (sp_frame _ _ _ _ _ S1) b Hb1) as [H|[]]. by apply (Hpend b). }
  apply wp_bind, wp_io. eapply wp_mono; [apply rl_open_ok; [apply S1|done]|]. cbv beta. intros r s (-> & F2 & Hh2). cbv beta iota.
  set (j2 := with_st j1 s). assert (S2 : step sb jc none j j2).
  { eapply step_trans; [exact S1|]. apply step_with_st; [apply S1|done]. }
  apply wp_bind. eapply wp_mono; [apply (iterate_recover fuel l j2); (done || apply S2)|]. cbv beta.
  intros r' j3 (rc & -> & S3 & Hf3 & H3). cbv beta iota.
  assert (S3' : step sb jc (target sb (committed l)) j j3) by (eapply step_trans; [by apply step_none|done]).
  apply wp_bind. destruct (Z.eqb_spec rc EOK) as [Erc|Erc].
  2: { apply wp_ok, wp_ok. eexists. split; [done|]. apply outcome_failed; auto. }
  destruct (H3 Erc) as (M3 & K1 & K2 & K3 & K4).
  apply wp_try, wp_io. eapply wp_mono; [apply rl_flush_ok, S3|]. cbv beta. intros r4 s4 [[F4 M4] H4].
  destruct r4 as [[]|rc4]; cbv beta iota.
  2: { destruct H4. apply wp_ok. eexists. split; [done|]. apply outcome_failed; [done|done| |done].
       eapply step_trans; [exact S3'|]. apply step_with_st; [apply S3|by apply frame_none]. }
  destruct H4 as (Hh4 & Hd4 & Hp4).
  apply wp_bind, wp_try, wp_io. eapply wp_mono; [apply rl_barrier_ok, F4|]. cbv beta. intros r5 s5 [[F5 M5] Hh5]. cbv beta iota.
  set (j5 := with_st (with_st j3 s4) s5).
  assert (S5 : step sb jc (target sb (committed l)) j j5).
  { eapply step_trans; [exact S3'|]. change j5 with (with_st j3 s5). apply step_with_st; [apply S3|].
    apply frame_none. by eapply frame_trans. }
  apply wp_bind. eapply wp_mono; [apply (finish_spec l j5); [apply S5|exact K1]|]. cbv beta.
  intros r6 j6 (rc6 & -> & [F6 M6] & I6 & R6 & D6 & Hf6 & O6). cbv beta iota.
  assert (M : rl_ready (j_st j6) <-> rl_ready (j_st j2)) by by rewrite M6; cbn [j5 with_st j_st]; rewrite M5, M4.
  assert (Hhome : rl_ready (j_st j6) -> forall b, b <> 0 -> b <> rl_sblock -> rl_home s5 b = replayed sb jc l (rl_home (j_st j)) b).
  { intros HR b Hb0 Hbs. etransitivity; [apply (Hh5 b)|]. etransitivity; [apply (Hh4 b)|].
    etransitivity; [by apply K4; [apply M|..]|]. apply (overlay_ext jc). etransitivity; [apply (Hh2 b)|apply Hh1]. }
  assert (Hdisk : on_disk l j j6).
  { intros HR b Hb0 Hbs. destruct (fr_disk _ _ _ F6 b) as [->|[Hp|<-]]; [| |done].
    - cbn [j5 with_st j_st]. destruct (fr_disk _ _ _ F5 b) as [->|[Hp|[]]]; [|by destruct (Hp4 b)].
      rewrite <- (Hhome HR b) by done. etransitivity; [apply Hd4|]. symmetry. etransitivity; [apply (Hh5 b)|apply Hh4].
    - cbn [j5 with_st j_st] in Hp. destruct (fr_pend _ _ _ F5 b Hp) as [Hp'|[]]. by destruct (Hp4 b). }
  assert (F7 : frame (target sb (committed l)) (j_st j) (j_st j6)).
  { eapply frame_trans; [apply S5|]. eapply frame_mono; [|exact F6]. intros b <-. by left. }
  assert (Hlog : (rc6 <> EOK /\ j_sb j6 = sb /\ j_dirty j6 = j_dirty j) \/
           (j_sb j6 = emptied l /\ j_dirty j6 = true /\ on_disk l j j6)).
  { destruct D6 as [(D1 & D2 & D3)|(D1 & D2)]; [left|by right]. split; [done|]. split; [done|]. rewrite D3. apply S5. }
  apply wp_bind. destruct (Z.eqb_spec rc6 EOK) as [E6|E6].
  - destruct (O6 E6) as [O1 O2]. do 2 apply wp_bind, wp_get. apply wp_mod, wp_ok. exists rc6. split; [done|].
    split; [done|done|exact Hf6|]. intros _. cbn [j_sb j_set_recovery j_st j_last_recovery]. split; [done|].
    split; [intros HR b Hb0 Hbs; rewrite O2 by done; by apply Hhome|].
    rewrite O1, emptied_maxlen, I6. cbn [j5 with_st j_info]. by rewrite K2, K3.
  - apply wp_ok, wp_ok. exists rc6. split; [done|]. by split.
Qed.

Lemma no_revokes_tree l : revokes l = 0%nat -> tree_ok sb (committed l) ∅.
Proof.
  intros H b. rewrite lookup_empty. destruct (last_revoke (committed l) b) eqn:E; [|done].
  assert (Hc : forall r, r ∈ committed l -> is_revoke r = false).
  { intros r Hr%elem_of_committed. destruct (is_revoke r) eqn:Er; [|done]. exfalso.
    apply length_zero_iff_nil in H. unfold revokes in H.
    assert (Hin : r ∈ filter (fun r => is_revoke r = true) l) by by apply list_elem_of_filter.
    rewrite H in Hin. by apply not_elem_of_nil in Hin. }
  exfalso. revert E Hc. generalize (committed l) as c. intros c E Hc.
  assert (N : last_revoke c b = None).
  { unfold last_revoke. clear E. induction c as [|r c IH]; [done|]. cbn [foldl].
    specialize (Hc r (list_elem_of_here _ _)) as Hr. destruct r; cbn in Hr; [|done|];
      apply IH; intros r' Hr'; apply Hc; by apply elem_of_cons; right. }
  congruence.
Qed.

Lemma recover_run fuel l j :
  on_log sb jc j -> (forall b, ~ rl_pend (j_st j) b) -> log_ok fuel l -> rd js_start 0 sb <> 0 ->
  wp (jbd_recover fuel) j (fun r j' => exists rc, r = Ok (Some rc) /\ outcome j l rc j').
Proof.
  intros L Hpend HL Hs. unfold jbd_recover. apply wp_bind, wp_get. cbv beta iota. rewrite (ol_sb _ _ _ L).
  rewrite (proj2 (Z.eqb_neq _ _) Hs). apply wp_bind. unfold info_mod at 1. apply wp_mod, wp_bind.
  set (j0 := j_set_info (fun _ => info_init) j). assert (S0 : step sb jc none j j0) by by apply step_info.
  eapply wp_mono; [apply (iterate_scan fuel l j0); (done || apply S0)|]. cbv beta.
  intros r j1 (rc & -> & S1 & Hf1 & H1). cbv beta iota.
  assert (S1' : step sb jc none j j1) by by eapply step_trans.
  destruct (Z.eqb_spec rc EOK) as [Erc|Erc]; cbn [negb].
  2: { apply wp_ok. eexists. split; [done|]. apply outcome_failed; auto using step_none. }
  destruct (H1 Erc) as (Hh & K1 & K2 & K3 & K4 & K5 & K6). apply wp_bind, wp_get, wp_bind. cbv beta iota.
  rewrite K2. destruct (Z.eqb_spec (Z.of_nat (revokes l)) 0) as [E0|E0]; cbn [negb].
  - apply wp_ok. cbv iota. change (negb (EOK =? EOK)) with false. cbv iota.
    apply replay_run; try done. rewrite K4. apply no_revokes_tree. lia.
  - eapply wp_mono; [apply (iterate_revoke fuel l j1); (done || apply S1)|]. cbv beta.
    intros r2 j2 (rc2 & -> & S2 & Hf2 & H2). cbv beta iota.
    assert (S2' : step sb jc none j j2) by by eapply step_trans.
    destruct (Z.eqb_spec rc2 EOK) as [Erc2|Erc2]; cbn [negb].
    2: { apply wp_ok. eexists. split; [done|]. apply outcome_failed; auto using step_none. }
    destruct (H2 Erc2) as (Hh2 & I2 & Ht). apply replay_run; try done; try (rewrite I2; done).
    intros b. etransitivity; [apply (Hh2 b)|apply Hh].
Qed.
End Recovery.

(** ** Replaying again *)

(** A store with nothing in front of the medium. *)
Definition settled {St : Type} {RM : ReplayModel St} (s : St) : Prop :=
  forall b, rl_home s b = rl_disk s b /\ ~ rl_pend s b.

(** A block that is written by the replay ends the same whatever it held. *)
Lemma replayed_target sb jc l h h' b :
  (b ∈ map (fun c => ti_block c.1.2) (live_copies sb (committed l)) \/ h b = h' b) ->
  replayed sb jc l h b = replayed sb jc l h' b.
Proof.
  unfold replayed. intros [H|H]; [|by rewrite H].
  apply list_elem_of_fmap in H as (c & -> & Hc).
  destruct (last (filter _ _)) eqn:E; [done|]. apply last_None in E. exfalso.
  assert (Hin : c ∈ filter (fun c' => ti_block c'.1.2 = ti_block c.1.2) (live_copies sb (committed l)))
    by by apply list_elem_of_filter.
  rewrite E in Hin. by apply not_elem_of_nil in Hin.
Qed.
