(* ===== verification/JbdBatch.v ===== *)
(** * Reading ahead and writing in batches

    The read window and the write-back batch of recovery (struct jbd_replay_wnd and
    struct jbd_replay_wb in Core/lwext4/src/ext4_journal.c): the log is read in
    runs of blocks, and replayed blocks are collected and written in runs.  They
    are one implementation of [ReplayIO].

    What is below is the class [RawStore]: the transfers of
    Core/lwext4/src/ext4_blockdev.c that the file calls, and [rs_bmap], the map of
    the journal's file ([jbd_inode_bmap]). *)

From stdpp Require Import sorting.
From S2P Require Import Prelude Layout Types Crc Super Jbd JbdRecover.

(** - [rs_bmap i]: the block of the volume that holds block [i] of the journal;
    - [rs_alloc l]: allocations of these sizes, [false] if one of them fails;
    - [rs_get_direct lba n]: [ext4_blocks_get_direct], the bytes of [n] blocks;
    - [rs_set_direct data lba n]: [ext4_blocks_set_direct];
    - [rs_get lba]: [ext4_block_get], the bytes, [ext4_block_set];
    - [rs_put lba data]: [ext4_block_get_noread], the store, [ext4_block_set], whose
  result is dropped;
    - [rs_sync lba data]: [jbd_replay_wb_sync_bcache] on the cache in front. *)
Class RawStore (St : Type) := {
  rs_bmap : Z -> M St Z;
  rs_alloc : list Z -> M St bool;
  rs_get_direct : Z -> Z -> M St (list Z);
  rs_set_direct : list Z -> Z -> Z -> M St unit;
  rs_get : Z -> M St (list Z);
  rs_put : Z -> list Z -> M St unit;
  rs_sync : Z -> list Z -> M St unit;
  rs_barrier : M St unit;
  rs_sb_write : list Z -> M St unit;
  rs_sb_read : M St (list Z);
}.

(** [struct jbd_replay_wnd].  A transfer that fails is taken to leave [data] as it
    was. *)
Record jbd_replay_wnd := mk_wnd { w_data : list Z; w_first : Z; w_cnt : Z; w_cap : Z }.
(** [struct jbd_replay_wb]: targets and payloads in arrival order. *)
Record jbd_replay_wb := mk_wb { wb_blocks : list (Z * list Z); wb_cap : Z }.
Definition wb_cnt (wb : jbd_replay_wb) : Z := Z.of_nat (length (wb_blocks wb)).

Definition JBD_REPLAY_WND_BYTES : Z := 1024 * 1024.
Definition JBD_REPLAY_WB_BYTES : Z := 4 * 1024 * 1024.

(** The store with the window and the batch, if they could be allocated. *)
Record rio (St : Type) := mk_rio {
  r_st : St;
  r_wnd : option jbd_replay_wnd;
  r_wb : option jbd_replay_wb;
}.
Arguments mk_rio {St}.
Arguments r_st {St} r.
Arguments r_wnd {St} r.
Arguments r_wb {St} r.

(** [struct jbd_wb_sort] and the order of the flush: by target, then by arrival. *)
Definition jbd_wb_cmp (a b : Z * nat) : bool :=
  if negb (a.1 =? b.1) then a.1 <? b.1 else (a.2 <? b.2)%nat.
Definition wb_le (a b : Z * nat) : Prop := jbd_wb_cmp b a = false.
#[export] Instance wb_le_dec a b : Decision (wb_le a b).
Proof. unfold wb_le. apply _. Defined.
(** Equal blocks sit together, newest last: keep the last of each. *)
Fixpoint dedup (l : list (Z * nat)) : list (Z * nat) :=
  match l with
  | [] => []
  | a :: l' =>
      match l' with
      | b :: _ => if a.1 =? b.1 then dedup l' else a :: dedup l'
      | [] => [a]
      end
  end.
(** [while (j < n && order[j].lba == order[i].lba + (j - i))]: the run at the head,
    and the rest. *)
Fixpoint run_from (lba : Z) (l : list (Z * nat)) : list (Z * nat) * list (Z * nat) :=
  match l with
  | a :: l' => if a.1 =? lba then let '(r, s) := run_from (lba + 1) l' in (a :: r, s) else ([], l)
  | [] => ([], [])
  end.

Section Batch.
Context {St : Type} {RS : RawStore St}.
(** The block size of the device, the length of the journal. *)
Context (bs maxlen : Z).
Local Abbreviation rio := (rio St).

Definition on_raw {A} (m : M St A) : M rio A := fun s =>
  let '(r, s') := m (r_st s) in (r, mk_rio s' (r_wnd s) (r_wb s)).
Definition set_wnd (w : option jbd_replay_wnd) (s : rio) : rio := mk_rio (r_st s) w (r_wb s).
Definition set_wb (w : option jbd_replay_wb) (s : rio) : rio := mk_rio (r_st s) (r_wnd s) w.

(** ** The window *)

(** How many blocks of the journal from [iblock] on lie next to each other, from
    [run] on, of at most [want]. *)
Fixpoint bmap_run (fuel : nat) (iblock fblock run want : Z) : M St Z :=
  match fuel with
  | O => mok run
  | S fuel =>
      if run <? want then
        r <- mtry (rs_bmap (u32 (iblock + run)));;
        match r with
        | Err _ => mok run
        | Ok next => if negb (next =? fblock + run) then mok run else bmap_run fuel iblock fblock (run + 1) want
        end
      else mok run
  end.
Definition in_window (w : jbd_replay_wnd) (iblock : Z) : bool :=
  negb (w_cnt w =? 0) && (w_first w <=? iblock) && (iblock - w_first w <? w_cnt w).
Definition window_at (w : jbd_replay_wnd) (iblock : Z) : list Z := slice ((iblock - w_first w) * bs) bs (w_data w).
Definition jbd_replay_wnd_read (w : jbd_replay_wnd) (iblock : Z) : M rio (list Z) :=
  if in_window w iblock then mok (window_at w iblock)
  else
    let want := u32 (maxlen - iblock) in
    let want := if w_cap w <? want then w_cap w else want in
    if want =? 0 then mfail EINVAL
    else
      fblock <- on_raw (rs_bmap iblock);;
      run <- on_raw (bmap_run (Z.to_nat want) iblock fblock 1 want);;
      data <- on_raw (rs_get_direct fblock run);;
      let w := mk_wnd data iblock run (w_cap w) in
      mmod (set_wnd (Some w));;;
      mok (window_at w iblock).
Definition jbd_replay_wnd_new (cap_hint : Z) : M St (option jbd_replay_wnd) :=
  let cap := JBD_REPLAY_WND_BYTES / bs in
  let cap := if negb (cap_hint =? 0) && (cap_hint <? cap) then cap_hint else cap in
  if cap =? 0 then mok None
  else
    ok <- rs_alloc [32; cap * bs; bs];;
    mok (if ok then Some (mk_wnd [] 0 0 cap) else None).

(** ** The batch *)

Definition payload (wb : jbd_replay_wb) (i : nat) : list Z := nth i (map snd (wb_blocks wb)) [].
Definition wb_order (wb : jbd_replay_wb) : list (Z * nat) :=
  dedup (merge_sort wb_le (zip (map fst (wb_blocks wb)) (seq 0 (length (wb_blocks wb))))).
(** The blocks of a run: what is resident is brought in line. *)
Fixpoint sync_run (wb : jbd_replay_wb) (run : list (Z * nat)) : M St unit :=
  match run with
  | [] => mok tt
  | a :: run => rs_sync a.1 (payload wb a.2);;; sync_run wb run
  end.
Definition gather (wb : jbd_replay_wb) (run : list (Z * nat)) : list Z := concat (map (fun a => payload wb a.2) run).
(** One transfer per run. *)
Fixpoint write_runs (fuel : nat) (wb : jbd_replay_wb) (order : list (Z * nat)) : M St unit :=
  match order, fuel with
  | a :: l, S fuel =>
      let '(run, rest) := run_from (a.1 + 1) l in
      sync_run wb (a :: run);;;
      rs_set_direct (gather wb (a :: run)) a.1 (Z.of_nat (length (a :: run)));;;
      write_runs fuel wb rest
  | _, _ => mok tt
  end.
Definition jbd_replay_wb_flush (wb : jbd_replay_wb) : M rio unit :=
  if wb_cnt wb =? 0 then mok tt
  else
    ok <- on_raw (rs_alloc [16 * wb_cnt wb]);;
    if negb ok then mfail ENOMEM
    else
      r <- mtry (on_raw (write_runs (length (wb_blocks wb)) wb (wb_order wb)));;
      mmod (set_wb (Some (mk_wb [] (wb_cap wb))));;;
      match r with Ok _ => mok tt | Err rc => mfail rc end.
Definition jbd_replay_wb_record (wb : jbd_replay_wb) (lba : Z) (data : list Z) (is_escape : bool) : M rio unit :=
  (if wb_cnt wb =? wb_cap wb then jbd_replay_wb_flush wb else mok tt);;;
  mmod (fun s => set_wb (match r_wb s with
                         | Some wb => Some (mk_wb (wb_blocks wb ++ [(lba, unescape is_escape (slice 0 bs data))]) (wb_cap wb))
                         | None => None end) s).
Definition jbd_replay_wb_new : M St (option jbd_replay_wb) :=
  let cap := JBD_REPLAY_WB_BYTES / bs in
  if cap =? 0 then mok None
  else
    ok <- rs_alloc [40; cap * bs; 8 * cap; cap * bs];;
    mok (if ok then Some (mk_wb [] cap) else None).

(** ** The operations of recovery *)

(** [jbd_block_get]: block 0 of the journal is its superblock. *)
Definition jbd_block_get (iblock : Z) : M St (list Z) :=
  if iblock =? 0 then mfail ENOSPC
  else
    fblock <- rs_bmap iblock;;
    rs_get fblock.
Definition batch_io : ReplayIO rio := {|
  rio_scan i := on_raw (jbd_block_get (u32 i));
  rio_log i :=
    w <- mget r_wnd;;
    match w with Some w => jbd_replay_wnd_read w (u32 i) | None => on_raw (jbd_block_get (u32 i)) end;
  rio_open :=
    w <- on_raw (jbd_replay_wnd_new 0);;
    mmod (set_wnd w);;;
    wb <- on_raw jbd_replay_wb_new;;
    mmod (set_wb wb);
  rio_home lba data is_escape :=
    wb <- mget r_wb;;
    match wb with Some wb => jbd_replay_wb_record wb lba data is_escape
    | None => on_raw (rs_put lba (unescape is_escape (slice 0 bs data))) end;
  rio_flush :=
    wb <- mget r_wb;;
    match wb with Some wb => jbd_replay_wb_flush wb | None => mok tt end;
  rio_barrier := on_raw rs_barrier;
  rio_sb_write d := on_raw (rs_sb_write d);
  rio_sb_read := on_raw rs_sb_read;
|}.
End Batch.
