(* ===== verification/BatchLaws.v ===== *)
(** * The window and the batch keep their promise

    A window returns the blocks of the log, a batch that is flushed leaves what
    writing its blocks one after the other leaves: together they are a [ReplayIO]
    that satisfies [ReplayLaws]. *)

From stdpp Require Import sorting.
From S2P Require Import Prelude Layout Types Crc Super Jbd JbdRecover JbdBatch RecoverSpec RecoverLaws.

(** ** The order of a flush *)

Lemma wb_le_iff a b : wb_le a b <-> a.1 < b.1 \/ (a.1 = b.1 /\ (a.2 <= b.2)%nat).
Proof.
  unfold wb_le, jbd_wb_cmp. destruct (Z.eqb_spec b.1 a.1); cbn [negb].
  - rewrite Nat.ltb_ge. lia.
  - rewrite Z.ltb_ge. lia.
Qed.
#[export] Instance wb_le_total : Total wb_le.
Proof. intros a b. rewrite !wb_le_iff. lia. Qed.
#[export] Instance wb_le_trans : Transitive wb_le.
Proof. intros a b c. rewrite !wb_le_iff. lia. Qed.

Definition lba_lt (a b : Z * nat) : Prop := a.1 < b.1.

Lemma dedup_in l a : a ∈ dedup l -> a ∈ l.
Proof.
  induction l as [|x l IH]; [done|]. cbn [dedup]. destruct l as [|y l]; [done|].
  case_match; [intros Ha; right; by apply IH|]. intros [->|Ha]%elem_of_cons; [by left|right; by apply IH].
Qed.
(** In a sorted list, [dedup] keeps of each block the entry that came last. *)
Lemma dedup_sorted l : StronglySorted wb_le l -> StronglySorted lba_lt (dedup l).
Proof.
  induction l as [|x l IH]; [constructor|]. cbn [dedup]. intros [Hx Hs]%StronglySorted_cons.
  destruct l as [|y l]; [by repeat constructor|]. destruct (Z.eqb_spec x.1 y.1) as [E|E]; [by apply IH|].
  apply StronglySorted_cons. split; [|by apply IH]. apply Forall_forall. intros z Hz%dedup_in.
  apply StronglySorted_cons in Hs as [Hy _]. unfold lba_lt.
  assert (Hxy : x.1 < y.1).
  { rewrite Forall_forall in Hx. specialize (Hx y (list_elem_of_here _ _)). rewrite wb_le_iff in Hx. lia. }
  apply elem_of_cons in Hz as [->|Hz]; [done|]. rewrite Forall_forall in Hy. apply Hy in Hz. rewrite wb_le_iff in Hz. lia.
Qed.
Lemma dedup_last l a b : StronglySorted wb_le l -> a ∈ dedup l -> b ∈ l -> b.1 = a.1 -> (b.2 <= a.2)%nat.
Proof.
  induction l as [|x l IH]; [by intros _ ?%not_elem_of_nil|]. cbn [dedup]. intros [Hx Hs]%StronglySorted_cons Ha Hb E.
  rewrite Forall_forall in Hx. destruct l as [|y l].
  { apply list_elem_of_singleton in Ha as ->, Hb as ->. done. }
  destruct (Z.eqb_spec x.1 y.1) as [Exy|Exy].
  - apply elem_of_cons in Hb as [->|Hb]; [|by apply IH].
    assert (Ha' := dedup_in _ _ Ha). apply Hx in Ha'. rewrite wb_le_iff in Ha'. lia.
  - assert (Hxy : x.1 < y.1). { specialize (Hx y (list_elem_of_here _ _)). rewrite wb_le_iff in Hx. lia. }
    assert (Hy : forall z, z ∈ y :: l -> x.1 < z.1).
    { intros z Hz. apply elem_of_cons in Hz as [->|Hz]; [done|]. apply StronglySorted_cons in Hs as [Hy _].
      rewrite Forall_forall in Hy. apply Hy in Hz. rewrite wb_le_iff in Hz. lia. }
    apply elem_of_cons in Ha as [->|Ha].
    + apply elem_of_cons in Hb as [->|Hb]; [done|]. apply Hy in Hb. lia.
    + apply elem_of_cons in Hb as [->|Hb]; [|by apply IH]. apply dedup_in, Hy in Ha. lia.
Qed.
Lemma dedup_covers l a : a ∈ l -> exists b, b ∈ dedup l /\ b.1 = a.1.
Proof.
  revert a. induction l as [|x l IH]; intros a Ha; [by apply not_elem_of_nil in Ha|]. cbn [dedup].
  destruct l as [|y l]; [exists a; done|].
  apply elem_of_cons in Ha as [->|Ha].
  - destruct (Z.eqb_spec x.1 y.1) as [E|E]; [|exists x; split; [by left|done]].
    destruct (IH y (list_elem_of_here _ _)) as (b & Hb & Eb). exists b. split; [done|congruence].
  - destruct (IH a Ha) as (b & Hb & Eb). exists b. split; [|done]. case_match; [done|by right].
Qed.

(** ** What a batch stands for *)

(** The blocks [l] written one after the other over [h]. *)
Definition written (l : list (Z * list Z)) (h : Z -> list Z) : Z -> list Z :=
  foldl (fun h p => fupd p.1 p.2 h) h l.
Lemma written_app l l' h : written (l ++ l') h = written l' (written l h).
Proof. apply foldl_app. Qed.
Lemma written_other l h b : b ∉ map fst l -> written l h b = h b.
Proof.
  revert h. induction l as [|p l IH]; intros h Hb; [done|]. cbn [map] in Hb. unfold written. cbn [foldl].
  fold (written l (fupd p.1 p.2 h)). rewrite IH by set_solver. apply fupd_ne. set_solver.
Qed.
Lemma written_last l h b i d :
  l !! i = Some (b, d) -> (forall j d', l !! j = Some (b, d') -> (j <= i)%nat) -> written l h b = d.
Proof.
  revert i d. induction l as [|p l IH] using rev_ind; intros i d Hi Hmax; [done|]. rewrite written_app.
  unfold written at 1. cbn [foldl]. destruct (decide (p.1 = b)) as [<-|Hne].
  - rewrite fupd_eq. assert (Hp : (l ++ [p]) !! length l = Some p) by by apply list_lookup_middle.
    pose proof (Hmax (length l) p.2) as Hle. rewrite <- surjective_pairing in Hle. specialize (Hle Hp).
    assert (i < length (l ++ [p]))%nat by by eapply lookup_lt_Some.
    rewrite length_app in *. cbn in *. replace i with (length l) in Hi by lia. rewrite Hp in Hi. by injection Hi as ->.
  - rewrite fupd_ne by done. rewrite lookup_app in Hi. destruct (l !! i) as [q|] eqn:Eq.
    + injection Hi as ->. apply (IH i d Eq). intros j d' Hj. apply (Hmax j d'). by apply lookup_app_l_Some.
    + exfalso. destruct (i - length l)%nat; [|done]. cbn in Hi. injection Hi as ->. done.
Qed.
Lemma written_ext l h h' b : h b = h' b -> written l h b = written l h' b.
Proof.
  revert h h'. induction l as [|p l IH]; intros h h' H; [done|]. apply IH. unfold fupd. by rewrite H.
Qed.

(** The order of a flush has each block once, with the payload that came last. *)
Lemma wb_order_spec wb :
  StronglySorted lba_lt (wb_order wb) /\
  (forall a, a ∈ wb_order wb -> a.1 ∈ map fst (wb_blocks wb) /\ (a.2 < length (wb_blocks wb))%nat /\
    forall h, written (wb_blocks wb) h a.1 = payload wb a.2) /\
  (forall b, b ∈ map fst (wb_blocks wb) -> exists a, a ∈ wb_order wb /\ a.1 = b).
Proof.
  set (L := wb_blocks wb). set (M := merge_sort wb_le (zip (map fst L) (seq 0 (length L)))).
  assert (HM : forall b i, (b, i) ∈ M <-> exists d, L !! i = Some (b, d)).
  { intros b i. unfold M. rewrite (merge_sort_Permutation _ _), list_elem_of_lookup. split.
    - intros [n Hn]. rewrite lookup_zip_with in Hn. apply bind_Some in Hn as (x & Hx & Hn).
      apply bind_Some in Hn as (y & Hy & [= -> ->]). apply lookup_seq in Hy as [-> _].
      rewrite list_lookup_fmap in Hx. apply fmap_Some in Hx as ([b' d] & Hd & ->). by exists d.
    - intros [d Hd]. exists i. rewrite lookup_zip_with, list_lookup_fmap, Hd. cbn.
      assert (i < length L)%nat by by eapply lookup_lt_Some. by rewrite lookup_seq_lt by done. }
  assert (HS : StronglySorted wb_le M) by apply (StronglySorted_merge_sort _ _).
  unfold wb_order. fold L M. split; [by apply dedup_sorted|]. split.
  - intros [b i] Ha. cbn [fst snd]. assert (Hin := dedup_in _ _ Ha). apply HM in Hin as [d Hd].
    split; [apply list_elem_of_fmap; exists (b, d); split; [done|by eapply list_elem_of_lookup_2]|].
    split; [by eapply lookup_lt_Some|]. intros h.
    unfold payload. fold L. rewrite (nth_lookup_Some _ _ _ d) by (by rewrite list_lookup_fmap, Hd).
    eapply written_last; [exact Hd|]. intros j d' Hj.
    apply (dedup_last M (b, i) (b, j)); [done|done| |done]. apply HM. by exists d'.
  - intros b (p & -> & Hp)%list_elem_of_fmap. apply list_elem_of_lookup_1 in Hp as [i Hi]. destruct p as [b d].
    destruct (dedup_covers M (b, i)) as (a & Ha & E); [apply HM; by exists d|]. by exists a.
Qed.

(** ** The transfers *)

(** The promise of the transfers below: the medium is a map from blocks to bytes, a
    read returns what it holds, a write that fails has touched nothing but the
    blocks it names.  Nothing resident in the cache differs from it. *)
Class RawModel (St : Type) := {
  ra_inv : St -> Prop;
  ra_disk : St -> Z -> list Z;
  ra_valid : Z -> Prop;      (* blocks of the volume *)
  ra_jmap : Z -> Z;          (* where the journal's blocks are *)
  ra_sblock : Z;
  ra_faulty : Prop;
  ra_lossy : Prop;           (* a write that fails when a block is released *)
}.
Section RawFrame.
Context {St : Type} {RR : RawModel St}.
(** The medium is the same but for the blocks of [w]. *)
Record kept (w : Z -> Prop) (s s' : St) : Prop := {
  kp_inv : ra_inv s';
  kp_disk : forall b, ra_disk s' b = ra_disk s b \/ w b;
}.
Definition between (lba n b : Z) : Prop := lba <= b < lba + n.
Lemma kept_refl w s : ra_inv s -> kept w s s.
Proof. split; auto. Qed.
Lemma kept_trans (w : Z -> Prop) s1 s2 s3 :
  kept w s1 s2 -> kept w s2 s3 -> kept w s1 s3.
Proof. intros [A1 A2] [B1 B2]. split; [done|]. intros b. destruct (B2 b) as [->|?]; auto. Qed.
Lemma kept_mono (w w' : Z -> Prop) s s' : (forall b, w b -> w' b) -> kept w s s' -> kept w' s s'.
Proof. intros H [A1 A2]. split; [done|]. intros b. destruct (A2 b); auto. Qed.
Lemma kept_at w s s' b : kept w s s' -> ~ w b -> ra_disk s' b = ra_disk s b.
Proof. intros [_ K] Hb. by destruct (K b). Qed.
End RawFrame.

Class RawLaws (St : Type) {RS : RawStore St} {RR : RawModel St} (bs : Z) := {
  ra_len s b : ra_inv s -> blen (ra_disk s b) = bs;
  ra_bmap_ok s i : ra_inv s -> wp (rs_bmap i) s (fun r s' => kept none s s' /\
    match r with Ok f => f = ra_jmap i /\ ra_valid f | Err rc => rc <> EOK /\ ra_faulty end);
  ra_alloc_ok s l : ra_inv s -> wp (rs_alloc l) s (fun r s' => kept none s s' /\
    match r with Ok b => b = false -> ra_faulty | Err _ => False end);
  ra_get_direct_ok s lba n : ra_inv s -> 0 < n -> (forall k, 0 <= k < n -> ra_valid (lba + k)) ->
    wp (rs_get_direct lba n) s (fun r s' => kept none s s' /\
    match r with
    | Ok d => forall k, 0 <= k < n -> slice (k * bs) bs d = ra_disk s (lba + k)
    | Err rc => rc <> EOK /\ ra_faulty end);
  ra_set_direct_ok s data lba n : ra_inv s -> 0 < n -> (forall k, 0 <= k < n -> ra_valid (lba + k)) ->
    blen data = n * bs -> bytes_ok data ->
    wp (rs_set_direct data lba n) s (fun r s' => kept (between lba n) s s' /\
    match r with
    | Ok _ => forall k, 0 <= k < n -> ra_disk s' (lba + k) = slice (k * bs) bs data
    | Err rc => rc <> EOK /\ ra_faulty end);
  ra_get_ok s lba : ra_inv s -> ra_valid lba -> wp (rs_get lba) s (fun r s' => kept none s s' /\
    match r with Ok d => d = ra_disk s lba | Err rc => rc <> EOK /\ ra_faulty end);
  ra_put_ok s lba data : ra_inv s -> ra_valid lba -> blen data = bs -> bytes_ok data ->
    wp (rs_put lba data) s (fun r s' => kept (eq lba) s s' /\
    match r with Ok _ => ~ ra_lossy -> ra_disk s' lba = data | Err rc => rc <> EOK /\ ra_faulty end);
  ra_sync_ok s lba data : ra_inv s -> wp (rs_sync lba data) s (fun r s' => r = Ok tt /\ kept none s s');
  ra_barrier_ok s : ra_inv s -> wp rs_barrier s (fun r s' => kept none s s');
  ra_sb_write_ok s d : ra_inv s -> wp (rs_sb_write d) s (fun r s' => kept (eq ra_sblock) s s' /\
    match r with Ok _ => True | Err rc => rc <> EOK /\ ra_faulty end);
  ra_sb_read_ok s : ra_inv s -> wp rs_sb_read s (fun r s' => kept none s s');
  ra_bytes s b : ra_inv s -> bytes_ok (ra_disk s b);
  ra_sb_apart i : ra_jmap i <> ra_sblock;
}.

Section Transfers.
Context {St : Type} {RS : RawStore St} {RR : RawModel St} (bs : Z) {RL : RawLaws St bs}.
Context (bs_pos : 0 < bs).
Implicit Types (s : St) (wb : jbd_replay_wb).

(** ** Writing the runs *)

(** Every payload is a block, and every target is a block of the volume. *)
Definition batch_ok wb : Prop := forall p, p ∈ wb_blocks wb -> ra_valid p.1 /\ blen p.2 = bs /\ bytes_ok p.2.

Lemma run_from_spec l : forall lba r l', run_from lba l = (r, l') ->
  l = r ++ l' /\ forall i a, r !! i = Some a -> a.1 = lba + Z.of_nat i.
Proof.
  induction l as [|a l IH]; intros lba r l'; cbn [run_from]; [by intros [= <- <-]|].
  destruct (Z.eqb_spec a.1 lba) as [E|E]; [|by intros [= <- <-]].
  destruct (run_from (lba + 1) l) as [r' s'] eqn:Er. intros [= <- <-]. destruct (IH _ _ _ Er) as [-> H].
  split; [done|]. intros [|i] x Hx; cbn in Hx; [injection Hx as <-; lia|]. rewrite (H _ _ Hx). lia.
Qed.

Lemma sync_run_ok wb run s : ra_inv s -> wp (sync_run wb run) s (fun r s' => r = Ok tt /\ kept none s s').
Proof.
  revert s. induction run as [|a run IH]; intros s Hi; cbn [sync_run].
  { apply wp_ok. split; [done|by apply kept_refl]. }
  apply wp_bind. eapply wp_mono; [by apply ra_sync_ok|]. cbv beta. intros r s1 [-> K1].
  eapply wp_mono; [apply IH, K1|]. cbv beta. intros r s2 [-> K2]. split; [done|]. by eapply kept_trans.
Qed.

Lemma payload_ok wb i : batch_ok wb -> (i < length (wb_blocks wb))%nat ->
  blen (payload wb i) = bs /\ bytes_ok (payload wb i).
Proof.
  intros Hb Hi. unfold payload. destruct (lookup_lt_is_Some_2 (wb_blocks wb) i Hi) as [p Hp].
  rewrite (nth_lookup_Some _ _ _ p.2) by (by rewrite list_lookup_fmap, Hp).
  apply Hb. by eapply list_elem_of_lookup_2.
Qed.
Lemma gather_spec wb run :
  batch_ok wb -> (forall a, a ∈ run -> (a.2 < length (wb_blocks wb))%nat) ->
  blen (gather wb run) = Z.of_nat (length run) * bs /\ bytes_ok (gather wb run) /\
  forall k a, run !! k = Some a -> slice (Z.of_nat k * bs) bs (gather wb run) = payload wb a.2.
Proof.
  intros Hb. induction run as [|x run IH]; intros Hr.
  { split; [done|]. split; [constructor|]. intros k a Hk. done. }
  destruct IH as (I1 & I2 & I3); [intros a Ha; apply Hr; by right|].
  destruct (payload_ok wb x.2 Hb) as [P1 P2]; [apply Hr; by left|].
  unfold gather in *. cbn [map concat]. set (g := concat _) in *. split; [|split].
  - rewrite blen_app, P1, I1. cbn [length]. lia.
  - by apply bytes_ok_app.
  - intros [|k] a Hk.
    + injection Hk as ->. unfold slice. change (Z.to_nat (Z.of_nat 0 * bs)) with 0%nat. rewrite drop_0.
      unfold blen in P1. by rewrite take_app_le, take_ge by lia.
    + rewrite <- (I3 k a Hk). unfold slice. f_equal. unfold blen in P1.
      rewrite drop_app_ge by lia. f_equal. lia.
Qed.

Lemma write_runs_ok wb : batch_ok wb -> forall fuel order s,
  ra_inv s -> (length order <= fuel)%nat -> StronglySorted lba_lt order ->
  (forall a, a ∈ order -> ra_valid a.1 /\ (a.2 < length (wb_blocks wb))%nat) ->
  wp (write_runs fuel wb order) s (fun r s' => kept (fun b => b ∈ map fst order) s s' /\
    match r with
    | Ok _ => forall a, a ∈ order -> ra_disk s' a.1 = payload wb a.2
    | Err rc => rc <> EOK /\ ra_faulty end).
Proof.
  intros Hb. induction fuel as [|fuel IH]; intros order s Hi Hf Hs Ho.
  { destruct order; cbn in Hf; [|lia]. cbn [write_runs]. apply wp_ok. split; [by apply kept_refl|].
    intros a Ha. by apply not_elem_of_nil in Ha. }
  destruct order as [|a l]; cbn [write_runs].
  { apply wp_ok. split; [by apply kept_refl|]. intros a Ha. by apply not_elem_of_nil in Ha. }
  destruct (run_from (a.1 + 1) l) as [run rest] eqn:Er. destruct (run_from_spec _ _ _ _ Er) as [-> Hrun].
  set (R := a :: run). change (a :: run ++ rest) with (R ++ rest) in *.
  assert (HR : forall k x, R !! k = Some x -> x.1 = a.1 + Z.of_nat k).
  { intros [|k] x Hx; cbn in Hx; [injection Hx as ->; lia|]. rewrite (Hrun _ _ Hx). lia. }
  apply StronglySorted_app in Hs as (Hcross & HsR & Hsr).
  destruct (gather_spec wb R Hb) as (G1 & G2 & G3); [intros x Hx; apply Ho, elem_of_app; by left|].
  assert (Hlen : 0 < Z.of_nat (length R)) by (cbn; lia).
  assert (Hnth : forall k, 0 <= k < Z.of_nat (length R) -> exists x, R !! Z.to_nat k = Some x /\ x.1 = a.1 + k).
  { intros k Hk. destruct (lookup_lt_is_Some_2 R (Z.to_nat k)) as [x Hx]; [lia|]. exists x. split; [done|].
    rewrite (HR _ _ Hx). lia. }
  apply wp_bind. eapply wp_mono; [by apply sync_run_ok|]. cbv beta. intros r s1 [-> K1]. cbv beta iota.
  apply wp_bind. eapply wp_mono; [apply (ra_set_direct_ok s1 (gather wb R) a.1 (Z.of_nat (length R)))|].
  { apply K1. } { done. }
  { intros k Hk. destruct (Hnth k Hk) as (x & Hx & <-). apply Ho, elem_of_app. left. by eapply list_elem_of_lookup_2. }
  { done. } { done. }
  cbv beta. intros r2 s2 [K2 H2].
  assert (Hin : forall b, between a.1 (Z.of_nat (length R)) b -> b ∈ map fst R).
  { intros b Hb'. destruct (Hnth (b - a.1)) as (x & Hx & E); [unfold between in Hb'; lia|].
    apply list_elem_of_fmap. exists x. split; [lia|by eapply list_elem_of_lookup_2]. }
  assert (K12 : kept (fun b => b ∈ map fst (R ++ rest)) s s2).
  { eapply kept_trans; [by eapply kept_mono; [|exact K1]|].
    eapply kept_mono; [|exact K2]. intros b Hb'. rewrite map_app, elem_of_app. left. by apply Hin. }
  destruct r2 as [[]|rc]; cbv beta iota; [|done].
  eapply wp_mono; [apply IH; [apply K2| |done|]|].
  { rewrite length_app in Hf. cbn in Hf. lia. }
  { intros x Hx. apply Ho, elem_of_app. by right. }
  cbv beta. intros r3 s3 [K3 H3]. split.
  { eapply kept_trans; [exact K12|]. eapply kept_mono; [|exact K3].
    intros b Hb'. rewrite map_app, elem_of_app. by right. }
  destruct r3 as [[]|rc]; [|done]. intros x [Hx|Hx]%elem_of_app; [|by apply H3].
  rewrite (kept_at _ _ _ _ K3).
  - apply list_elem_of_lookup_1 in Hx as [k Hk]. pose proof (lookup_lt_Some _ _ _ Hk).
    rewrite <- (G3 k x Hk), (HR _ _ Hk). apply H2. lia.
  - intros (y & Ey & Hy)%list_elem_of_fmap. specialize (Hcross x y Hx Hy). unfold lba_lt in Hcross. lia.
Qed.

(** ** Recovery's store *)

Context (maxlen : Z) (maxlen_range : 0 < maxlen < 2 ^ 32) (bs_le : bs <= JBD_REPLAY_WB_BYTES).
Local Abbreviation rio := (rio St).
Implicit Types (r : rio).

Definition in_journal (b : Z) : Prop := exists i, b = ra_jmap i.
Definition batch_blocks r : list (Z * list Z) :=
  match r_wb r with Some wb => wb_blocks wb | None => [] end.
Definition window_ok r : Prop := forall w, r_wnd r = Some w -> 0 < w_cap w /\
  forall i, 0 <= i < 2 ^ 32 -> in_window w i = true -> window_at bs w i = ra_disk (r_st r) (ra_jmap i).
Definition targets_ok r : Prop := forall p, p ∈ batch_blocks r ->
  ~ in_journal p.1 /\ ra_valid p.1 /\ blen p.2 = bs /\ bytes_ok p.2.

#[export] Instance rio_model : ReplayModel rio := {|
  rl_inv r := ra_inv (r_st r) /\ window_ok r /\ targets_ok r;
  rl_ready r := r_wb r <> None \/ ~ ra_lossy;
  rl_bsize := bs;
  rl_inlog i := 0 < i < maxlen;
  rl_log r i := ra_disk (r_st r) (ra_jmap i);
  rl_home r := written (batch_blocks r) (ra_disk (r_st r));
  rl_disk r := ra_disk (r_st r);
  rl_pend r b := b ∈ map fst (batch_blocks r);
  rl_allowed b := ra_valid b /\ ~ in_journal b;
  rl_sblock := ra_sblock;
  rl_faulty := ra_faulty;
|}.
#[local] Instance rio_io : ReplayIO rio := batch_io bs maxlen.

Lemma same_mode r r' : r_wb r <> None -> r_wb r' <> None -> rl_ready r' <-> rl_ready r.
Proof. by split; left. Qed.
Lemma frame_raw (w : Z -> Prop) r st :
  rl_inv r -> kept w (r_st r) st -> (forall b, w b -> ~ in_journal b) ->
  stays w r (mk_rio st (r_wnd r) (r_wb r)).
Proof.
  intros (I1 & I2 & I3) [K1 K2] Hw. split; [|done]. cbn in *.
  assert (Hlog : forall i, ra_disk st (ra_jmap i) = ra_disk (r_st r) (ra_jmap i)).
  { intros i. destruct (K2 (ra_jmap i)) as [->|H%Hw]; [done|]. destruct H. by exists i. }
  split; cbn; [|done|by left|].
  - split; [done|]. split; [|done]. intros w0 Hw0. destruct (I2 w0 Hw0) as [W1 W2]. split; [done|].
    intros i Hi Hin. cbn. rewrite Hlog. by apply W2.
  - intros b. destruct (K2 b); auto.
Qed.
(** An operation below that only reads. *)
Lemma wp_raw {A} (m : M St A) r (Q : result A -> rio -> Prop) :
  wp m (r_st r) (fun x s => Q x (mk_rio s (r_wnd r) (r_wb r))) -> wp (on_raw m) r Q.
Proof. unfold wp, on_raw. by destruct (m (r_st r)). Qed.
Lemma quiet_raw r st :
  rl_inv r -> kept none (r_st r) st ->
  stays none r (mk_rio st (r_wnd r) (r_wb r)) /\ same_home r (mk_rio st (r_wnd r) (r_wb r)).
Proof.
  intros I K. split; [apply frame_raw; [done|done|by intros b []]|]. intros b. apply written_ext. cbn.
  apply (kept_at _ _ _ _ K). by intros [].
Qed.

(** Flushing the batch is writing its blocks one after the other. *)
Lemma flush_spec wb r :
  rl_inv r -> r_wb r = Some wb ->
  wp (jbd_replay_wb_flush wb) r (fun x r' => stays none r r' /\
    match x with
    | Ok _ => batch_blocks r' = [] /\ r_wb r' <> None /\ forall b, rl_disk r' b = rl_home r b
    | Err rc => rc <> EOK /\ ra_faulty end).
Proof.
  intros I Hwb. pose proof I as (I1 & I2 & I3).
  assert (Hbb : batch_blocks r = wb_blocks wb) by (unfold batch_blocks; by rewrite Hwb).
  assert (Hb : batch_ok wb) by (intros p Hp; apply I3; by rewrite Hbb).
  unfold jbd_replay_wb_flush. destruct (Z.eqb_spec (wb_cnt wb) 0) as [E0|E0].
  { apply wp_ok. split; [by apply stays_refl|]. unfold wb_cnt in E0.
    assert (En : wb_blocks wb = []) by (apply length_zero_iff_nil; lia).
    rewrite Hbb, En. split; [done|]. split; [congruence|]. intros b. cbn. by rewrite Hbb, En. }
  apply wp_bind, wp_raw. eapply wp_mono; [by apply ra_alloc_ok|]. cbv beta. intros x s1 [K1 H1].
  destruct x as [ok|]; [|done]. cbv beta iota. destruct ok; cbn [negb].
  2: { apply wp_fail. split; [by apply quiet_raw|]. split; [done|by apply H1]. }
  apply wp_bind, wp_try, wp_raw. cbn [r_st].
  destruct (wb_order_spec wb) as (O1 & O2 & O3).
  eapply wp_mono; [apply (write_runs_ok wb Hb); [apply K1| |exact O1|]|].
  { assert (Hincl : forall l, (length (dedup l) <= length l)%nat).
    { induction l as [|x l IH]; [done|]. cbn [dedup]. destruct l as [|y l]; [done|]. case_match; cbn [length] in *; lia. }
    unfold wb_order. etransitivity; [apply Hincl|]. rewrite (merge_sort_Permutation _ _), length_zip_with, length_map, length_seq. lia. }
  { intros a Ha. destruct (O2 a Ha) as (H2 & H3 & _). split; [|done].
    apply list_elem_of_fmap in H2 as (p & -> & Hp). by apply Hb. }
  cbv beta. intros x s2 [K2 H2]. cbv beta iota. apply wp_bind, wp_mod. cbv beta iota.
  assert (Hin : forall b, b ∈ map fst (wb_order wb) -> b ∈ map fst (wb_blocks wb)).
  { intros b (a & -> & Ha)%list_elem_of_fmap. by apply O2. }
  assert (K12 : kept (fun b => b ∈ map fst (wb_order wb)) (r_st r) s2).
  { eapply kept_trans; [|exact K2]. by eapply kept_mono; [|exact K1]. }
  assert (F : stays none r (set_wb (Some (mk_wb [] (wb_cap wb))) (mk_rio s2 (r_wnd r) (r_wb r)))).
  { split; [|by apply same_mode; [rewrite Hwb|]].
    destruct (frame_raw _ r s2 I K12) as [[(J1 & J2 & _) F2 _ F4] _].
    { intros b Hb'%Hin. apply list_elem_of_fmap in Hb' as (p & -> & Hp). apply I3. by rewrite Hbb. }
    split.
    - cbn. split; [done|]. split; [done|]. intros p Hp. by apply not_elem_of_nil in Hp.
    - done.
    - intros b Hb'. by apply not_elem_of_nil in Hb'.
    - intros b. destruct (F4 b) as [?|[?|?%Hin]]; [by left|by right; left|]. right. left. cbn. by rewrite Hbb. }
  destruct x as [[]|rc]; [apply wp_ok|by apply wp_fail].
  split; [done|]. split; [done|]. split; [done|]. intros b. cbn. rewrite Hbb.
  destruct (decide (b ∈ map fst (wb_blocks wb))) as [Hb'|Hb'].
  - destruct (O3 b Hb') as (a & Ha & <-). rewrite H2 by done. symmetry. by apply O2.
  - rewrite written_other by done. apply (kept_at _ _ _ _ K12). auto.
Qed.

(** ** The window *)

(** The run a refill reads: blocks of the log that lie next to each other. *)
Lemma bmap_run_spec iblock fblock want : forall fuel run s,
  ra_inv s -> 0 < iblock -> 1 <= run -> iblock + want <= 2 ^ 32 -> run <= want ->
  (forall k, 0 <= k < run -> ra_jmap (iblock + k) = fblock + k /\ ra_valid (fblock + k)) ->
  wp (bmap_run fuel iblock fblock run want) s (fun x s' => kept none s s' /\
    exists n, x = Ok n /\ run <= n <= want /\
    forall k, 0 <= k < n -> ra_jmap (iblock + k) = fblock + k /\ ra_valid (fblock + k)).
Proof.
  induction fuel as [|fuel IH]; intros run s Hi Hpos H1 Hw Hr Hk; cbn [bmap_run].
  { apply wp_ok. split; [by apply kept_refl|]. by exists run. }
  destruct (Z.ltb_spec run want) as [Hlt|]; [|apply wp_ok; split; [by apply kept_refl|by exists run]].
  apply wp_bind, wp_try. rewrite u32_id by lia. eapply wp_mono; [by apply ra_bmap_ok|]. cbv beta.
  intros [next|rc] s1 [K1 R1]; cbv beta iota; [|apply wp_ok; split; [done|by exists run]].
  destruct R1 as [-> Hv]. destruct (Z.eqb_spec (ra_jmap (iblock + run)) (fblock + run)) as [E|E]; cbn [negb].
  2: { apply wp_ok. split; [done|by exists run]. }
  eapply wp_mono; [apply IH; [apply K1|done|lia|done|lia|]|].
  { intros k Hk'. destruct (Z.eq_dec k run) as [->|]; [by rewrite <- E|apply Hk; lia]. }
  cbv beta. intros x s2 [K2 (n & -> & Hn & H)]. split; [by eapply kept_trans|]. exists n. split; [done|]. split; [lia|done].
Qed.

Lemma wnd_read_spec w r i :
  rl_inv r -> r_wnd r = Some w -> 0 < i < maxlen ->
  wp (jbd_replay_wnd_read bs maxlen w i) r (fun x r' => stays none r r' /\
    match x with
    | Ok d => d = rl_log r i /\ same_home r r'
    | Err rc => rc <> EOK /\ ra_faulty end).
Proof.
  intros I Hwnd Hi. pose proof I as (I1 & I2 & I3). destruct (I2 w Hwnd) as [Hcap W].
  unfold jbd_replay_wnd_read. destruct (in_window w i) eqn:Ew.
  { apply wp_ok. split; [by apply stays_refl|]. split; [|done]. apply W; (done || lia). }
  rewrite u32_id by lia. set (want := if w_cap w <? maxlen - i then w_cap w else maxlen - i).
  assert (Hwant : 0 < want /\ want <= maxlen - i) by (unfold want; case_match; lia).
  rewrite (proj2 (Z.eqb_neq want 0)) by lia.
  apply wp_bind, wp_raw. eapply wp_mono; [by apply ra_bmap_ok|]. cbv beta. intros [f|rc] s1 [K1 H1]; cbv beta iota.
  2: { split; [by apply quiet_raw|done]. }
  destruct H1 as [-> Hv].
  apply wp_bind, wp_raw. cbn [r_st].
  eapply wp_mono; [apply (bmap_run_spec i (ra_jmap i) want _ 1); [apply K1|lia|lia|lia|lia|]|].
  { intros k Hk. replace k with 0 by lia. by rewrite !Z.add_0_r. }
  cbv beta. intros x s2 [K2 (n & -> & Hn & Hrun)]. cbv beta iota.
  apply wp_bind, wp_raw. cbn [r_st]. eapply wp_mono; [apply ra_get_direct_ok; [apply K2|lia|]|].
  { intros k Hk. by apply Hrun. }
  cbv beta. intros x s3 [K3 H3]. cbv beta iota. cbn [r_wnd r_wb].
  assert (K13 : kept none (r_st r) s3) by by eapply kept_trans; [eapply kept_trans|].
  destruct (quiet_raw r s3 I K13) as [F Hh].
  destruct x as [d|rc]; [|by split].
  apply wp_bind, wp_mod, wp_ok.
  assert (Hd : forall k, 0 <= k < n -> slice (k * bs) bs d = ra_disk s3 (ra_jmap (i + k))).
  { intros k Hk. rewrite H3 by done. destruct (Hrun k Hk) as [-> _]. symmetry. apply (kept_at _ _ _ _ K3). by intros []. }
  destruct F as [[(J1 & J2 & J3) F2 F3 F4] F5]. split; [split; [split; [|done..]|done]|split; [|done]].
  - cbn. split; [done|]. split; [|done]. intros w0 [= <-]. cbn [w_cap]. split; [done|].
    intros b Hb Hin. unfold in_window in Hin. cbn in Hin. unfold window_at. cbn [w_first w_data].
    rewrite Hd by lia. f_equal. f_equal. lia.
  - unfold window_at. cbn [w_first w_data]. rewrite Z.sub_diag, (Hd 0) by lia. rewrite Z.add_0_r.
    apply (kept_at _ _ _ _ K13). by intros [].
Qed.
Lemma block_get_spec r i :
  rl_inv r -> 0 < i < maxlen ->
  wp (on_raw (jbd_block_get i)) r (fun x r' => stays none r r' /\
    match x with
    | Ok d => d = rl_log r i /\ same_home r r'
    | Err rc => rc <> EOK /\ ra_faulty end).
Proof.
  intros I Hi. pose proof I as (I1 & I2 & I3). apply wp_raw. unfold jbd_block_get.
  rewrite (proj2 (Z.eqb_neq i 0)) by lia. apply wp_bind.
  eapply wp_mono; [by apply ra_bmap_ok|]. cbv beta. intros [f|rc] s1 [K1 H1]; cbv beta iota.
  2: { split; [by apply quiet_raw|done]. }
  destruct H1 as [-> Hv]. eapply wp_mono; [apply ra_get_ok; [apply K1|done]|]. cbv beta.
  intros x s2 [K2 H2]. assert (K12 : kept none (r_st r) s2) by by eapply kept_trans.
  destruct (quiet_raw r s2 I K12) as [F Hh]. destruct x as [d|rc]; [|by split].
  split; [done|]. split; [|done]. rewrite H2. apply (kept_at _ _ _ _ K1). by intros [].
Qed.

(** ** The promise *)

Lemma log_block_ok r i : rl_inv r -> block_ok (rl_log r i).
Proof. intros (I & _). split; [by apply ra_len|by apply (ra_bytes (bs := bs))]. Qed.

Lemma open_spec r :
  rl_inv r -> batch_blocks r = [] ->
  wp rio_open r (fun x r' => x = Ok tt /\ frame none r r' /\ same_home r r').
Proof.
  intros I E. pose proof I as (I1 & I2 & I3). cbn [rio_open rio_io batch_io].
  assert (Hw : wp (jbd_replay_wnd_new bs 0) (r_st r) (fun x s => kept none (r_st r) s /\ exists w, x = Ok w /\
    forall w0, w = Some w0 -> 0 < w_cap w0 /\ w_cnt w0 = 0)).
  { unfold jbd_replay_wnd_new. cbn [Z.eqb negb andb]. pose proof (Z.div_pos JBD_REPLAY_WND_BYTES bs ltac:(done) bs_pos).
    destruct (Z.eqb_spec (JBD_REPLAY_WND_BYTES / bs) 0) as [E0|E0].
    { apply wp_ok. split; [by apply kept_refl|]. by exists None. }
    apply wp_bind. eapply wp_mono; [by apply ra_alloc_ok|]. cbv beta. intros [ok|] s1 [K1 H1]; [|done].
    apply wp_ok. split; [done|]. eexists. split; [done|]. intros w0. destruct ok; [|done]. intros [= <-]. cbn. split; [lia|done]. }
  apply wp_bind, wp_raw. eapply wp_mono; [exact Hw|]. cbv beta. intros x s1 [K1 (w & -> & W)]. cbv beta iota.
  apply wp_bind, wp_mod. cbv beta iota. apply wp_bind, wp_raw. cbn [r_st set_wnd r_wnd r_wb].
  assert (Hb : wp (jbd_replay_wb_new bs) s1 (fun x s => kept none s1 s /\ exists o, x = Ok o /\
    forall wb0, o = Some wb0 -> wb_blocks wb0 = [])).
  { unfold jbd_replay_wb_new. destruct (Z.eqb_spec (JBD_REPLAY_WB_BYTES / bs) 0) as [E0|_].
    { apply Z.div_small_iff in E0; [|lia]. lia. }
    apply wp_bind. eapply wp_mono; [apply ra_alloc_ok, K1|]. cbv beta. intros [ok|] s2 [K2 H2]; [|done].
    apply wp_ok. split; [done|]. eexists. split; [done|]. intros wb0. destruct ok; [|done]. by intros [= <-]. }
  eapply wp_mono; [exact Hb|]. cbv beta. intros x s2 [K2 (o & -> & B)]. cbv beta iota. apply wp_mod. split; [done|].
  assert (K12 : kept none (r_st r) s2) by by eapply kept_trans.
  destruct (quiet_raw r s2 I K12) as [[[(J1 & J2 & J3) F2 F3 F4] _] Hh].
  assert (Eb : batch_blocks (mk_rio s2 w o) = []).
  { unfold batch_blocks. cbn. destruct o as [wb0|]; [by apply B|done]. }
  cbn [set_wb set_wnd r_st r_wnd r_wb]. split; [split|].
  - cbn. split; [done|]. split.
    + intros w0 [= ->]. destruct (W w0 eq_refl) as [W1 W2]. split; [done|]. intros i _ Hin.
      unfold in_window in Hin. by rewrite W2 in Hin.
    + intros p Hp. change (p ∈ batch_blocks (mk_rio s2 w o)) in Hp. rewrite Eb in Hp. by apply not_elem_of_nil in Hp.
  - done.
  - intros b Hb'. change (b ∈ map fst (batch_blocks (mk_rio s2 w o))) in Hb'. rewrite Eb in Hb'. by apply not_elem_of_nil in Hb'.
  - done.
  - intros b. change (written (batch_blocks (mk_rio s2 w o)) (ra_disk s2) b = rl_home r b).
    rewrite Eb, <- (Hh b). change (ra_disk s2 b = written (batch_blocks r) (ra_disk s2) b). by rewrite E.
Qed.

Lemma record_spec wb r lba data e :
  rl_inv r -> r_wb r = Some wb -> rl_allowed lba -> block_ok data ->
  wp (jbd_replay_wb_record bs wb lba data e) r (fun x r' => stays (eq lba) r r' /\
    match x with
    | Ok _ => forall b, rl_home r' b = fupd lba (unescape e data) (rl_home r) b
    | Err rc => rc <> EOK /\ ra_faulty end).
Proof.
  intros I Hwb Hlba [Hlen Hbytes]. unfold jbd_replay_wb_record. apply wp_bind.
  assert (Hfirst : wp (if wb_cnt wb =? wb_cap wb then jbd_replay_wb_flush wb else mok tt) r (fun x r' =>
    stays none r r' /\ match x with Ok _ => r_wb r' <> None /\ same_home r r' | Err rc => rc <> EOK /\ ra_faulty end)).
  { case_match.
    - eapply wp_mono; [by apply flush_spec|]. cbv beta. intros [[]|rc] r' [F H1]; (split; [done|]); [|done].
      destruct H1 as (E & H2 & H3). split; [done|]. intros b. cbn in *. rewrite E. apply H3.
    - apply wp_ok. split; [by apply stays_refl|]. split; [congruence|done]. }
  eapply wp_mono; [exact Hfirst|]. cbv beta. intros [[]|rc] r1 [F H1].
  2: { split; [by apply stays_none|done]. }
  destruct F as [F M].
  cbv beta iota. destruct H1 as [Hne Hh]. destruct (r_wb r1) as [wb1|] eqn:E1; [|done].
  apply wp_mod. rewrite E1. unfold slice. change (Z.to_nat 0) with 0%nat. rewrite drop_0.
  assert (Et : take (Z.to_nat bs) data = data) by (apply take_ge; unfold blen in Hlen; cbn in Hlen; lia). rewrite Et.
  pose proof (fr_inv _ _ _ F) as (J1 & J2 & J3).
  match goal with |- context [set_wb ?o r1] => set (r2 := set_wb o r1) end.
  assert (Ebb : batch_blocks r2 = batch_blocks r1 ++ [(lba, unescape e data)]).
  { unfold batch_blocks, r2. by rewrite E1. }
  assert (Ehome : forall b, rl_home r2 b = fupd lba (unescape e data) (rl_home r1) b).
  { intros b. cbn [rl_home rio_model]. rewrite Ebb, written_app. done. }
  split; [split; [split|etransitivity; [|exact M]; by apply same_mode; [rewrite E1|]]|].
  - split; [done|]. split; [done|]. intros p. rewrite Ebb, elem_of_app, list_elem_of_singleton.
    intros [Hp| ->]; [by apply J3|]. destruct Hlba as [V1 V2]. cbn in *. split; [done|]. split; [done|].
    split; [|by apply bytes_ok_unescape]. by rewrite blen_unescape.
  - intros i. apply F.
  - intros b. cbn [rl_pend rio_model]. rewrite Ebb, map_app, elem_of_app. intros [Hb|Hb]; [left|right].
    + by destruct (fr_pend _ _ _ F b Hb) as [?|[]].
    + cbn in Hb. by apply list_elem_of_singleton in Hb as ->.
  - intros b. destruct (fr_disk _ _ _ F b) as [?|[?|[]]]; auto.
  - intros b. rewrite Ehome. unfold fupd. destruct (b =? lba); [done|apply Hh].
Qed.

Lemma allowed_in_journal b : rl_allowed b -> ~ in_journal b.
Proof. by intros []. Qed.
Lemma sb_not_in_journal b : ra_sblock = b -> ~ in_journal b.
Proof. intros <- [i E]. by apply (ra_sb_apart (bs := bs) i). Qed.

#[export] Instance rio_laws : ReplayLaws rio.
Proof.
  split.
  - intros r i I Hi. cbn [rio_scan rio_io batch_io]. cbn in Hi. rewrite u32_id by lia.
    eapply wp_mono; [by apply block_get_spec|]. cbv beta. intros [d|rc] r' [F H]; (split; [done|]); [|done].
    destruct H as [-> Hh]. split; [done|]. split; [by apply log_block_ok|done].
  - intros r i I Hi. cbn [rio_log rio_io batch_io]. cbn in Hi. apply wp_bind, wp_get. cbv beta iota. rewrite u32_id by lia.
    destruct (r_wnd r) as [w|] eqn:Ew.
    + eapply wp_mono; [by apply wnd_read_spec|]. cbv beta. intros [d|rc] r' [F H]; (split; [done|]); [|done].
      destruct H as [-> Hh]. split; [done|]. split; [by apply log_block_ok|done].
    + eapply wp_mono; [by apply block_get_spec|]. cbv beta. intros [d|rc] r' [F H]; (split; [done|]); [|done].
      destruct H as [-> Hh]. split; [done|]. split; [by apply log_block_ok|done].
  - intros r I Hp. apply open_spec; [done|]. destruct (batch_blocks r) as [|p l] eqn:E; [done|].
    destruct (Hp p.1). cbn. rewrite E. by left.
  - intros r lba data e I Ha Hd. cbn [rio_home rio_io batch_io]. apply wp_bind, wp_get. cbv beta iota.
    destruct (r_wb r) as [wb|] eqn:Ewb.
    { eapply wp_mono; [by apply record_spec|]. cbv beta. intros [[]|rc] r' [F H]; by split. }
    apply wp_raw.
    assert (Et : slice 0 bs data = data).
    { unfold slice. change (Z.to_nat 0) with 0%nat. rewrite drop_0. destruct Hd as [Hl _].
      apply take_ge. unfold blen in Hl. cbn in Hl. lia. }
    rewrite Et. destruct Hd as [Hl Hb].
    eapply wp_mono; [apply ra_put_ok; [apply I|apply Ha|by rewrite blen_unescape|by apply bytes_ok_unescape]|].
    cbv beta. intros x s [K H]. split.
    { apply frame_raw; [done|done|]. intros b <-. by apply allowed_in_journal. }
    destruct x as [[]|rc]; [|done]. intros Hready b. unfold rl_home. cbn [rio_model]. unfold batch_blocks. cbn [r_wb].
    rewrite Ewb. cbn. unfold fupd. destruct (Z.eqb_spec b lba) as [->|Hne]; [|apply (kept_at _ _ _ _ K); auto].
    apply H. by destruct Hready as [[]|].
  - intros r I. cbn [rio_flush rio_io batch_io]. apply wp_bind, wp_get. cbv beta iota.
    destruct (r_wb r) as [wb|] eqn:Ewb.
    + eapply wp_mono; [by apply flush_spec|]. cbv beta. intros [[]|rc] r' [F H]; (split; [done|]); [|done].
      destruct H as (E & _ & Hd). split; [intros b; cbn [rl_home rio_model]; rewrite E; apply Hd|].
      split; [exact Hd|].
      intros b. cbn [rl_pend rio_model]. rewrite E. apply not_elem_of_nil.
    + assert (E : batch_blocks r = []) by (unfold batch_blocks; by rewrite Ewb).
      apply wp_ok. split; [by apply stays_refl|]. split; [done|].
      split; [intros b; cbn [rl_home rl_disk rio_model]; by rewrite E|].
      intros b. cbn [rl_pend rio_model]. rewrite E. apply not_elem_of_nil.
  - intros r I. cbn [rio_barrier rio_io batch_io]. apply wp_raw. eapply wp_mono; [apply ra_barrier_ok, I|]. cbv beta.
    intros x s K. by apply quiet_raw.
  - intros r d I. cbn [rio_sb_write rio_io batch_io]. apply wp_raw. eapply wp_mono; [apply ra_sb_write_ok, I|]. cbv beta.
    intros x s [K H]. split; [apply frame_raw; [done|done|apply sb_not_in_journal]|].
    destruct x as [[]|rc]; [|done]. intros b Hb. apply written_ext. cbn. apply (kept_at _ _ _ _ K). cbn in Hb. congruence.
  - intros r I. cbn [rio_sb_read rio_io batch_io]. apply wp_raw. eapply wp_mono; [apply ra_sb_read_ok, I|]. cbv beta.
    intros x s K. by apply quiet_raw.
Qed.
End Transfers.
