(* ===== verification/JbdDev.v ===== *)
(** * Recovery on a device

    The transfers of Core/lwext4/src/ext4_blockdev.c as the store under the window
    and the batch: nothing is resident in the cache, the journal's file is where
    [jmap] says, and memory is there or not ([mem]). *)

From S2P Require Import Prelude Layout Types Crc Super Device Jbd JbdRecover JbdBatch RecoverSpec RecoverLaws BatchLaws.

Section OnDevice.
Context {D : Type} {HD : Host D} (jmap : Z -> Z) (mem : bool).

#[export] Instance dev_raw : RawStore (dev D) := {|
  rs_bmap i := mok (jmap i);
  rs_alloc l := mok mem;
  rs_get_direct lba n := ext4_blocks_get_direct lba n;
  rs_set_direct data lba n := ext4_blocks_set_direct data lba n;
  rs_get lba := ext4_blocks_get_direct lba 1;
  rs_put lba data := mtry (ext4_blocks_set_direct data lba 1);;; mok tt;
  rs_sync lba data := mok tt;
  rs_barrier := ext4_block_barrier;
  rs_sb_write s := ext4_block_writebytes EXT4_SUPERBLOCK_OFFSET (slice 0 EXT4_SUPERBLOCK_SIZE s);
  rs_sb_read := ext4_block_readbytes EXT4_SUPERBLOCK_OFFSET EXT4_SUPERBLOCK_SIZE;
|}.

Context {ph : Z} {HL : HostLaws D ph}.
(** The device as it is configured, a volume of [bcnt] blocks of [bs] bytes; [F]
    holds if the device can fail, [lossy] if it can fail to write. *)
Context (cfg : dev D) (cfg_ok : dev_ok (ph := ph) cfg) (cfg_geom : geom_ok (ph := ph) cfg).
Local Abbreviation bs := (d_lg_bsize cfg).
Local Abbreviation bcnt := (d_lg_bcnt cfg).
Implicit Types (d : dev D).
Context (bs_ge : bs = 1024 \/ 2048 <= bs) (small : bcnt * bs < 2 ^ 32 * ph) (two : 2 <= bcnt).
Context (F lossy : Prop) (no_mem : mem = false -> F).
Context (bread_fails : forall blk n (h : D) rc h', h_bread blk n h = (Err rc, h') -> F).
Context (bwrite_fails : forall b blk n (h : D) rc h', h_bwrite b blk n h = (Err rc, h') -> F /\ lossy).
Context (jmap_valid : forall i, 0 <= jmap i < bcnt) (jmap_sb : forall i, jmap i <> EXT4_SUPERBLOCK_OFFSET / bs).
Context (flush_ok : forall m (h : D), h_flush = Some m -> forall x, @h_byte D HD ph HL (m h).2 x = @h_byte D HD ph HL h x).

#[export] Instance dev_model : RawModel (dev D) := {|
  ra_inv d := dcfg d = dcfg cfg;
  ra_disk d b := dblk (ph := ph) d b;
  ra_valid b := 0 <= b < bcnt;
  ra_jmap := jmap;
  ra_sblock := EXT4_SUPERBLOCK_OFFSET / bs;
  ra_faulty := F;
  ra_lossy := lossy;
|}.

Lemma cfg_of d : dcfg d = dcfg cfg -> dev_ok (ph := ph) d /\ geom_ok (ph := ph) d /\ d_lg_bsize d = bs /\ d_lg_bcnt d = bcnt.
Proof.
  intros E. split; [by apply (dev_ok_cfg cfg)|]. split; [by apply (geom_ok_cfg cfg)|].
  unfold dcfg in E. by injection E as _ _ _ _ -> ->.
Qed.
Lemma same_medium d d' :
  dcfg d = dcfg cfg -> dcfg d' = dcfg d -> (forall x, dbyte d' x = dbyte d x) -> kept none d d'.
Proof. intros C C' B. split; [cbn; congruence|]. intros b. left. by apply dblk_ext. Qed.

(** A transfer of [n] blocks, in bytes of the medium. *)
Lemma run_addr d lba n :
  dcfg d = dcfg cfg -> 0 < n -> 0 <= lba -> lba + n <= bcnt ->
  lba_pba d lba * ph = d_part_offset d + lba * bs /\ u32 (d_lg_bsize d / d_ph_bsize d * n) * ph = n * bs.
Proof.
  intros C Hn Hl Hle. destruct (cfg_of d C) as (Hd & Hg & Eb & Ec).
  destruct (lba_pba_addr d lba Hd Hg) as (E1 & E2 & _); [lia|]. rewrite Eb in *. split; [done|].
  destruct Hd as (Ep & (k & Hk & Ek) & _). assert (Hph : 0 < ph) by (rewrite Ek; lia).
  destruct cfg_geom as (Hb & Hm & _ & _). rewrite Ep.
  assert (Eq : bs = ph * (bs / ph)) by (apply Z_div_exact_full_2; lia).
  assert (Hq : 0 < bs / ph) by nia.
  assert (Hlt : bs / ph * n * ph < 2 ^ 32 * ph) by nia.
  rewrite u32_id; [nia|]. split; [nia|]. change 4294967296 with (2 ^ 32). nia.
Qed.

Lemma get_run_wp d lba n :
  dcfg d = dcfg cfg -> 0 < n -> (forall k, 0 <= k < n -> 0 <= lba + k < bcnt) ->
  wp (ext4_blocks_get_direct lba n) d (fun r d' => kept none d d' /\
    match r with
    | Ok x => forall k, 0 <= k < n -> slice (k * bs) bs x = dblk d (lba + k)
    | Err rc => rc <> EOK /\ F end).
Proof.
  intros C Hn Hv. pose proof (Hv 0). pose proof (Hv (n - 1)).
  destruct (run_addr d lba n) as (E1 & E2); [done|done|lia|lia|].
  destruct (cfg_of d C) as (_ & _ & Eb & _).
  unfold ext4_blocks_get_direct. do 2 apply wp_bind, wp_get.
  apply wp_intro. intros r d' Er. pose proof (bread_wp (ph := ph) (lba_pba d lba) (u32 (d_lg_bsize d / d_ph_bsize d * n)) d) as W.
  pose proof (wp_run _ _ _ _ _ Er W) as (Cd & B & R). split; [by apply same_medium|].
  destruct r as [x|rc].
  - rewrite R, E1, E2. intros k Hk. rewrite slice_medium by nia. unfold dblk. rewrite Eb. f_equal. lia.
  - split; [done|]. unfold ext4_bdif_bread, mbnd, mtry, on_host, mmod, mfail, mok in Er.
    destruct (h_bread _ _ (d_host d)) as [[y|rc'] h] eqn:Eh; [done|]. by eapply bread_fails.
Qed.

Lemma set_run_wp d data lba n :
  dcfg d = dcfg cfg -> 0 < n -> (forall k, 0 <= k < n -> 0 <= lba + k < bcnt) ->
  blen data = n * bs -> bytes_ok data ->
  wp (ext4_blocks_set_direct data lba n) d (fun r d' => kept (between lba n) d d' /\
    match r with
    | Ok _ => forall k, 0 <= k < n -> dblk d' (lba + k) = slice (k * bs) bs data
    | Err rc => rc <> EOK /\ F end).
Proof.
  intros C Hn Hv Hl Hb. pose proof (Hv 0). pose proof (Hv (n - 1)).
  destruct (run_addr d lba n) as (E1 & E2); [done|done|lia|lia|].
  destruct (cfg_of d C) as (_ & _ & Eb & _). assert (Hbs : 0 < bs) by apply cfg_geom.
  unfold ext4_blocks_set_direct. do 2 apply wp_bind, wp_get.
  apply wp_intro. intros r d' Er.
  pose proof (bwrite_wp (ph := ph) data (lba_pba d lba) (u32 (d_lg_bsize d / d_ph_bsize d * n)) d ltac:(lia)) as W.
  pose proof (wp_run _ _ _ _ _ Er W) as (Cd & T & R).
  assert (Cd' : dcfg d' = dcfg cfg) by congruence. destruct (cfg_of d' Cd') as (_ & Hg' & Eb' & _).
  assert (Eo : d_part_offset d' = d_part_offset d) by (unfold dcfg in Cd; by injection Cd).
  split; [split; [done|]|].
  - intros b. destruct (decide (lba <= b < lba + n)) as [Hin|Hout]; [by right|left]. cbn. unfold dblk.
    rewrite Eo, Eb, Eb'. apply medium_ext. intros x Hx. apply T. rewrite Z.mul_add_distr_r, E1, E2. nia.
  - destruct r as [[]|rc].
    + intros k Hk. apply bytes_ext; [apply bytes_ok_dblk|by apply bytes_ok_slice| |].
      * rewrite blen_dblk by done. rewrite blen_slice by nia. done.
      * intros i Hi. rewrite blen_dblk, Eb' in Hi by done.
        unfold dblk. rewrite byte_at_medium by (apply h_byte_range || lia). fold (dbyte d').
        rewrite Eo, Eb', byte_at_slice, R, E1, Hl by nia.
        replace ((_ <=? _) && (_ <? _)) with true by nia. f_equal. lia.
    + split; [done|]. unfold ext4_bdif_bwrite, mbnd, mtry, on_host, mmod, mfail, mok in Er.
      destruct (h_bwrite _ _ _ (d_host d)) as [[y|rc'] h] eqn:Eh; [done|]. by apply bwrite_fails in Eh as [].
Qed.

(** ** The superblock *)

(** A computation that fails only if the device does. *)
Definition reliable {A} (m : M (dev D) A) : Prop := forall d, wp m d (fun r _ => match r with Ok _ => True | Err _ => F end).
Lemma reliable_bind {A B} (m : M (dev D) A) (k : A -> M (dev D) B) :
  reliable m -> (forall a, reliable (k a)) -> reliable (mbnd m k).
Proof. intros Hm Hk d. apply wp_bind. eapply wp_mono; [apply Hm|]. intros [a|rc] d' H; [apply Hk|done]. Qed.
Lemma reliable_ok {A} (a : A) : reliable (mok a).
Proof. by intros d. Qed.
Lemma reliable_bread blk n : reliable (ext4_bdif_bread blk n).
Proof.
  intros d. unfold wp, ext4_bdif_bread, mbnd, mtry, on_host, mmod, mfail, mok.
  destruct (h_bread blk n (d_host d)) as [[y|rc'] h] eqn:Eh; [done|]. by eapply bread_fails.
Qed.
Lemma reliable_bwrite b blk n : reliable (ext4_bdif_bwrite b blk n).
Proof.
  intros d. unfold wp, ext4_bdif_bwrite, mbnd, mtry, on_host, mmod, mfail, mok.
  destruct (h_bwrite b blk n (d_host d)) as [[y|rc'] h] eqn:Eh; [done|]. by apply bwrite_fails in Eh as [].
Qed.
Ltac reliable :=
  repeat first [apply reliable_ok | apply reliable_bread | apply reliable_bwrite
    | apply reliable_bind; [|intros] | progress cbv beta iota zeta | case_match ].
Lemma writebytes_reliable off p d :
  0 < d_ph_refctr d -> 0 <= off -> off + blen p <= d_part_size d < 2 ^ 64 ->
  wp (ext4_block_writebytes off p) d (fun r _ => match r with Ok _ => True | Err _ => F end).
Proof.
  intros Hr Ho Hin. pose proof (blen_nonneg p). unfold ext4_block_writebytes.
  apply wp_bind, wp_get. rewrite (proj2 (Z.eqb_neq _ _)) by lia. apply wp_bind, wp_get.
  rewrite u64_id by lia. rewrite (proj2 (Z.ltb_ge _ _)) by lia. do 2 apply wp_bind, wp_get.
  match goal with |- wp ?m d _ => change (wp m d (fun r _ => match r with Ok _ => True | Err _ => F end)) end.
  match goal with |- wp ?m d _ => enough (R : reliable m) by apply R end.
  unfold writebytes_head, writebytes_body. reliable.
Qed.

Lemma sb_inside : EXT4_SUPERBLOCK_OFFSET / bs * bs <= 1024 /\ 2048 <= (EXT4_SUPERBLOCK_OFFSET / bs + 1) * bs /\ 2048 <= bcnt * bs.
Proof.
  change EXT4_SUPERBLOCK_OFFSET with 1024. destruct bs_ge as [E|E].
  - rewrite E. change (1024 / 1024) with 1. lia.
  - rewrite Z.div_small by lia. nia.
Qed.
(** The physical blocks a superblock is in are those of its logical block. *)
Lemma sb_blocks d len :
  dcfg d = dcfg cfg -> 0 <= len <= 1024 ->
  let base := d_part_offset d + EXT4_SUPERBLOCK_OFFSET / bs * bs in
  base <= blk_lo (ph := ph) (d_part_offset d + 1024) /\ blk_hi (ph := ph) (d_part_offset d + 1024) len <= base + bs.
Proof.
  intros C Hlen base. destruct (cfg_of d C) as ((Ep & (k & Hk & Ek) & _ & Ho & Hm & _) & _).
  assert (Hph : 0 < ph) by (rewrite Ek; lia). destruct sb_inside as (S1 & S2 & _).
  destruct cfg_geom as (_ & Hbm & _).
  assert (Eb : exists q, base = q * ph).
  { exists (d_part_offset d / ph + EXT4_SUPERBLOCK_OFFSET / bs * (bs / ph)). unfold base.
    pose proof (Z_div_exact_full_2 (d_part_offset d) ph ltac:(lia) Hm).
    pose proof (Z_div_exact_full_2 bs ph ltac:(lia) Hbm). nia. }
  assert (Ebs : exists q, bs = q * ph) by (exists (bs / ph); pose proof (Z_div_exact_full_2 bs ph ltac:(lia) Hbm); lia).
  destruct Eb as [q Eq], Ebs as [p Epp]. unfold blk_lo, blk_hi. split.
  - assert (q <= (d_part_offset d + 1024) / ph) by (apply Z.div_le_lower_bound; unfold base in Eq; lia). nia.
  - assert ((d_part_offset d + 1024 + len + ph - 1) / ph < q + p + 1) by (apply Z.div_lt_upper_bound; unfold base in Eq; nia). nia.
Qed.

Lemma sb_write_wp d s :
  dcfg d = dcfg cfg ->
  wp (rs_sb_write s) d (fun r d' => kept (eq (EXT4_SUPERBLOCK_OFFSET / bs)) d d' /\
    match r with Ok _ => True | Err rc => rc <> EOK /\ F end).
Proof.
  intros C. destruct (cfg_of d C) as (Hd & Hg & Eb & Ec). destruct sb_inside as (S1 & S2 & S3).
  set (p := slice 0 EXT4_SUPERBLOCK_SIZE s). change EXT4_SUPERBLOCK_OFFSET with 1024 in *.
  assert (Hp : 0 <= blen p <= 1024).
  { split; [apply blen_nonneg|]. unfold p, slice, blen. rewrite length_take. change (Z.to_nat EXT4_SUPERBLOCK_SIZE) with 1024%nat. lia. }
  destruct Hg as (Hg1 & Hg2 & Hg3 & Hg4). rewrite Eb, Ec in Hg4.
  destruct Hd as (Ep & Hph & Hr & Ho & Hm & Hs & Hmax).
  cbn [rs_sb_write dev_raw]. fold p. change EXT4_SUPERBLOCK_OFFSET with 1024.
  eapply wp_mono; [apply wp_and; [apply (writebytes_wp (ph := ph) d 1024 p); [by split_and!|lia|lia|lia]|
    apply writebytes_reliable; lia]|].
  cbv beta. intros r d' [(C' & T & R) HF]. split; [|by destruct r].
  split; [cbn; congruence|]. intros b. destruct (Z.eq_dec (1024 / bs) b) as [E|E]; [by right|left]. cbn. unfold dblk.
  assert (C'' : dcfg d' = dcfg cfg) by congruence. destruct (cfg_of d' C'') as (_ & _ & Eb' & _).
  assert (Eo : d_part_offset d' = d_part_offset d) by (unfold dcfg in C'; by injection C').
  rewrite Eo, Eb, Eb'. apply medium_ext. intros x Hx. apply T.
  pose proof (sb_blocks d (blen p) C Hp) as [L1 L2]. change EXT4_SUPERBLOCK_OFFSET with 1024 in *.
  assert (b < 1024 / bs \/ 1024 / bs < b) by lia. assert (0 < bs) by lia. nia.
Qed.

Lemma set_reliable d data lba :
  wp (ext4_blocks_set_direct data lba 1) d (fun r _ => match r with Ok _ => True | Err _ => lossy end).
Proof.
  unfold wp, ext4_blocks_set_direct, ext4_bdif_bwrite, mbnd, mget, mtry, on_host, mmod, mfail, mok. cbv beta iota.
  destruct (h_bwrite _ _ _ (d_host d)) as [[y|rc'] h] eqn:Eh; [done|]. by apply bwrite_fails in Eh as [].
Qed.

#[export] Instance dev_laws : RawLaws (dev D) bs.
Proof.
  split.
  - intros d b C. destruct (cfg_of d C) as (_ & Hg & Eb & _). cbn. by rewrite blen_dblk.
  - intros d i C. apply wp_ok. split; [by apply kept_refl|]. split; [done|apply jmap_valid].
  - intros d l C. apply wp_ok. split; [by apply kept_refl|exact no_mem].
  - intros d lba n C Hn Hv. by apply get_run_wp.
  - intros d data lba n C Hn Hv Hl Hb. by apply set_run_wp.
  - intros d lba C Hv. destruct (cfg_of d C) as (Hd & Hg & Eb & Ec).
    eapply wp_mono; [apply wp_and; [apply (get_direct_wp d lba Hd Hg); by rewrite Ec|apply (get_run_wp d lba 1); [done|done|]]|].
    { intros k Hk. replace k with 0 by lia. by rewrite Z.add_0_r. }
    cbv beta. intros r d' [(_ & _ & R) [K H]]. split; [done|]. by destruct r.
  - intros d lba data C Hv Hl Hb. destruct (cfg_of d C) as (Hd & Hg & Eb & Ec).
    cbn [rs_put dev_raw]. apply wp_bind, wp_try. pose proof (set_reliable d data lba) as Hset.
    eapply wp_mono; [apply wp_and; [exact Hset|apply wp_and; [apply (set_direct_wp d lba data Hd Hg); [by rewrite Ec|by rewrite Eb|done]|
      apply (set_run_wp d data lba 1); [done|done| |lia|done]]]|].
    { intros k Hk. replace k with 0 by lia. by rewrite Z.add_0_r. }
    cbv beta. intros r d' [Hr [(C' & Ho & R) [K H]]]. cbv beta iota. apply wp_ok. split.
    + split; [apply K|]. intros b. destruct (Z.eq_dec lba b) as [E|E]; [by right|left]. cbn. apply Ho. congruence.
    + by destruct r.
  - intros d lba data C. apply wp_ok. split; [done|by apply kept_refl].
  - intros d C. cbn [rs_barrier dev_raw]. unfold ext4_block_barrier. destruct h_flush as [m|] eqn:Ef; [|apply wp_ok; by apply kept_refl].
    unfold wp, on_host. destruct (m (d_host d)) as [r h] eqn:Em. apply same_medium; [done|done|].
    intros x. unfold dbyte. cbn. pose proof (flush_ok m (d_host d) eq_refl x) as H. by rewrite Em in H.
  - intros d s C. by apply sb_write_wp.
  - intros d C. destruct (cfg_of d C) as (Hd & Hg & Eb & Ec). destruct sb_inside as (S1 & S2 & S3).
    destruct Hg as (Hg1 & Hg2 & Hg3 & Hg4). rewrite Eb, Ec in Hg4.
    cbn [rs_sb_read dev_raw]. eapply wp_mono; [apply (readbytes_wp (ph := ph) d)|]; try done.
    + change (EXT4_SUPERBLOCK_OFFSET + EXT4_SUPERBLOCK_SIZE) with 2048. lia.
    + cbv beta. intros r d' (C' & B & _). by apply same_medium.
  - intros d b C. cbn. apply bytes_ok_dblk.
  - intros i. apply jmap_sb.
Qed.
End OnDevice.
