(* ===== verification/CommitLaws.v ===== *)
(** * What a commit writes is what the reader finds

    The blocks of JbdWrite.v read with the functions of Jbd.v: the tags of a
    descriptor are those of the buffers under it, in order; the entries of a revoke
    block are the blocks it was made for; every header and checksum is accepted. *)

From S2P Require Import Prelude Layout Types Crc Super Jbd JbdLaws JbdWrite.

(** A block is logged escaped and replayed as it was. *)
Lemma escape_length d : blen (escape d) = blen d.
Proof. unfold escape. case_match; [apply blen_wr|done]. Qed.

(** ** Checksums *)

Section Csum.
Context (sb : list Z).
Local Abbreviation bs := (jbd_blocksize sb).

Lemma blen_meta_csum_set b : blen (jbd_meta_csum_set sb b) = blen b.
Proof. unfold jbd_meta_csum_set. case_match; [done|apply blen_wr]. Qed.
Lemma bytes_ok_meta_csum_set b : bytes_ok b -> bytes_ok (jbd_meta_csum_set sb b).
Proof. intros. unfold jbd_meta_csum_set. case_match; [done|by apply bytes_ok_wr]. Qed.
(** The checksum changes the tail alone, and is accepted. *)
Lemma meta_csum_out b : 4 <= bs -> changed_in (bs - tail_size sb) bs b (jbd_meta_csum_set sb b).
Proof.
  intros H. unfold jbd_meta_csum_set, tail_size, jbd_tail. change JBD_TAIL with 4.
  destruct (jbd_has_csum sb =? 0) eqn:E; cbn [negb]; [apply changed_in_refl|].
  eapply changed_in_weaken; [apply (changed_in_wr _ _ _ _ 4); [done|lia]|lia|lia].
Qed.
Lemma meta_csum_verifies b : 4 <= bs -> bs <= blen b -> jbd_verify_meta_csum sb (jbd_meta_csum_set sb b) = true.
Proof.
  intros H Hl. unfold jbd_verify_meta_csum, jbd_meta_csum_set. destruct (jbd_has_csum sb =? 0) eqn:E; [done|].
  unfold jbd_tail. change JBD_TAIL with 4.
  assert (Ec : forall v, jbd_meta_csum sb (wr jtail_checksum (bs - 4) v b) = jbd_meta_csum sb b).
  { intros v. unfold jbd_meta_csum, jbd_tail. change JBD_TAIL with 4. rewrite E. cbn [negb]. by rewrite wr_wr by (cbn; lia). }
  rewrite Ec, (rd_wr_eq _ _ _ _ 4) by (done || lia). change (2 ^ (8 * f_size jtail_checksum)) with (2 ^ 32).
  rewrite Z.mod_small by apply reorder32_range. apply Z.eqb_eq. symmetry. apply reorder32_reorder32.
  unfold jbd_meta_csum. rewrite E. cbn [negb]. apply ext4_crc32c_range.
Qed.

Lemma commit_csum_verifies b : JBD_BHDR + 8 <= blen b -> jbd_verify_commit_csum sb (jbd_commit_csum_set sb b) = true.
Proof.
  intros Hl. change JBD_BHDR with 12 in Hl. unfold jbd_verify_commit_csum, jbd_commit_csum_set.
  destruct (jbd_has_csum sb =? 0) eqn:E; [done|]. set (z := wr jc_chksum_size 0 0 (wr jc_chksum_type 0 0 b)).
  assert (Ec : forall v, jbd_commit_csum sb (wr jc_chksum0 0 v z) = jbd_commit_csum sb z).
  { intros v. unfold jbd_commit_csum. rewrite E. cbn [negb]. f_equal. f_equal.
    assert (C1 : forall x, wr jc_chksum_type 0 0 (wr jc_chksum0 0 v x) = wr jc_chksum0 0 v (wr jc_chksum_type 0 0 x)).
    { intros x. apply (set_byte_set_le 4). cbn. lia. }
    assert (C2 : forall x, wr jc_chksum_size 0 0 (wr jc_chksum0 0 v x) = wr jc_chksum0 0 v (wr jc_chksum_size 0 0 x)).
    { intros x. apply (set_byte_set_le 4). cbn. lia. }
    by rewrite C1, C2, wr_wr by (cbn; lia). }
  rewrite Ec, (rd_wr_eq _ _ _ _ 20) by (done || (unfold z; rewrite !blen_wr; lia)).
  change (2 ^ (8 * f_size jc_chksum0)) with (2 ^ 32).
  rewrite Z.mod_small by apply reorder32_range. apply Z.eqb_refl.
Qed.
End Csum.

(** ** Headers *)

Record header (type id : Z) (b : list Z) : Prop := {
  hd_magic : jbd_get32 jh_magic 0 b = JBD_MAGIC_NUMBER;
  hd_type : jbd_get32 jh_blocktype 0 b = type;
  hd_id : jbd_get32 jh_sequence 0 b = id;
}.
Lemma header_ext type id b b' :
  (forall j, 0 <= j < JBD_BHDR -> byte_at b' j = byte_at b j) -> header type id b -> header type id b'.
Proof.
  change JBD_BHDR with 12. intros H [H1 H2 H3]. unfold jbd_get32 in *.
  split; unfold jbd_get32; by rewrite (rd_ext _ 0 b' b 12).
Qed.
Lemma set_bhdr_spec type id b :
  bytes_ok b -> JBD_BHDR <= blen b -> 0 <= type < 2 ^ 32 -> 0 <= id < 2 ^ 32 ->
  bytes_ok (set_bhdr type id b) /\ blen (set_bhdr type id b) = blen b /\ header type id (set_bhdr type id b).
Proof.
  change JBD_BHDR with 12. intros Hb Hl Ht Hi. unfold set_bhdr, jbd_set32. split; [by repeat apply bytes_ok_wr|].
  split; [by rewrite !blen_wr|].
  split; unfold jbd_get32; rewrite ?rd_wr_ne by done;
    rewrite (rd_wr_eq _ _ _ _ 12) by (done || rewrite ?blen_wr; lia);
    cbn [f_size jh_magic jh_blocktype jh_sequence]; change (2 ^ (8 * 4)) with (2 ^ 32);
    rewrite Z.mod_small by apply reorder32_range; by apply reorder32_reorder32.
Qed.

(** ** The tags of a descriptor *)

(** A journal the writer supports. *)
Record sb_ok (sb : list Z) : Prop := {
  so_csum : JBD_HAS_INCOMPAT_FEATURE sb JBD_FEATURE_INCOMPAT_CSUM_V2 &&
            JBD_HAS_INCOMPAT_FEATURE sb JBD_FEATURE_INCOMPAT_CSUM_V3 = false;
  so_bs : 1024 <= jbd_blocksize sb <= 65536;
  so_align : jbd_blocksize sb mod 8 = 0;
  so_len : JBD_SUPERBLOCK_SIZE <= blen sb;
  so_bytes : bytes_ok sb;
}.
Section Tags.
Context (sb : list Z) (Hsb : sb_ok sb).
Local Abbreviation bs := (jbd_blocksize sb).
Local Abbreviation b64 := (JBD_HAS_INCOMPAT_FEATURE sb JBD_FEATURE_INCOMPAT_64BIT).

Definition addr_limit : Z := if b64 then 2 ^ 64 else 2 ^ 32.
Definition buf_ok (jb : jbuf) : Prop := 0 <= jb_lba jb < addr_limit /\ blen (jb_data jb) = bs /\ bytes_ok (jb_data jb).
(** The tag of a buffer, as the reader sees it. *)
Definition names (ti : tag_info) (p : jbuf * Z) : Prop :=
  ti_block ti = jb_lba p.1 /\ ti_is_escape ti = is_escape (jb_data p.1).
(** The end of the table, and where tags can stand: an 8-byte tag always leaves
    room for the 12 bytes its clearing touches. *)
Definition table_end : Z := bs - tail_size sb.
Definition aligned (t : Z) : Prop := jbd_tag_bytes sb = 8 -> (table_end - t) mod 8 = 4.

Lemma tail_size_range : 0 <= tail_size sb <= 4.
Proof. unfold tail_size. change JBD_TAIL with 4. case_match; lia. Qed.
Lemma table_size_eq : table_size sb = table_end - JBD_BHDR.
Proof.
  destruct Hsb as [_ Hbs _ _ _]. unfold table_size, table_end, tail_size, jbd_has_csum, i32, u32.
  change JBD_BHDR with 12. change JBD_TAIL with 4. rewrite Z.mod_small by lia. cbv zeta.
  rewrite (proj2 (Z.ltb_lt _ _)) by lia.
  destruct (JBD_HAS_INCOMPAT_FEATURE sb JBD_FEATURE_INCOMPAT_CSUM_V2),
    (JBD_HAS_INCOMPAT_FEATURE sb JBD_FEATURE_INCOMPAT_CSUM_V3); cbn [orb negb Z.eqb]; lia.
Qed.
Lemma aligned_start : aligned JBD_BHDR.
Proof.
  destruct Hsb as [Hv _ Ha _ _]. intros E. unfold table_end, tail_size, jbd_has_csum. rewrite (tag_bytes_cases sb Hv) in E.
  change JBD_BHDR with 12. revert E.
  destruct (JBD_HAS_INCOMPAT_FEATURE sb JBD_FEATURE_INCOMPAT_CSUM_V3); [done|].
  destruct (JBD_HAS_INCOMPAT_FEATURE sb JBD_FEATURE_INCOMPAT_CSUM_V2); [by destruct b64|]. intros _. cbn [negb Z.eqb]. dlia.
Qed.
Lemma aligned_next ti t : aligned t -> aligned (t + tag_len sb ti).
Proof.
  intros H E. specialize (H E). unfold tag_len, UUID_SIZE. rewrite E. case_match; dlia.
Qed.
Lemma room ti t : aligned t -> t + tag_len sb ti <= table_end -> t + tag_room sb <= bs.
Proof.
  destruct Hsb as [Hv _ _ _ _]. unfold aligned. intros Ha Hl.
  assert (Hge : jbd_tag_bytes sb <= tag_len sb ti) by (unfold tag_len, UUID_SIZE; case_match; lia).
  revert Ha Hl Hge. unfold tag_room, table_end, tail_size, jbd_has_csum. rewrite (tag_bytes_cases sb Hv).
  change JBD_TAG3 with 16. change JBD_TAG with 12. change JBD_TAIL with 4. generalize Hv.
  destruct (JBD_HAS_INCOMPAT_FEATURE sb JBD_FEATURE_INCOMPAT_CSUM_V3),
    (JBD_HAS_INCOMPAT_FEATURE sb JBD_FEATURE_INCOMPAT_CSUM_V2), b64; cbn [andb negb Z.eqb Pos.eqb]; intros; try done; try lia.
  specialize (Ha eq_refl). dlia.
Qed.

Lemma uuid_ok : bytes_ok (jbd_uuid sb) /\ blen (jbd_uuid sb) = UUID_SIZE.
Proof.
  destruct Hsb as [_ _ _ Hl Hb]. unfold jbd_uuid. split; [by apply bytes_ok_slice|].
  change JBD_SUPERBLOCK_SIZE with 1024 in Hl. change UUID_SIZE with 16. change (f_off js_uuid) with 48. apply blen_slice; lia.
Qed.
Lemma prepare_tag_arg uu last jb c : buf_ok jb -> tag_arg sb (prepare_tag sb uu last jb c).
Proof. intros [H _]. split; [exact H|]. cbn. intros ->. apply uuid_ok. Qed.

Lemma write_full t size uu last jb c b :
  size < jbd_tag_bytes sb -> jbd_write_block_tag sb t size (prepare_tag sb uu last jb c) b = (Err EINVAL, b).
Proof. intros H. unfold jbd_write_block_tag. by rewrite (proj2 (Z.ltb_lt _ 0)) by lia. Qed.
Lemma read_full fuel t size b : size < jbd_tag_bytes sb -> block_tags fuel sb t size b = [].
Proof.
  intros H. destruct fuel as [|fuel]; [done|]. cbn [block_tags]. destruct (size =? 0); [done|].
  unfold jbd_extract_block_tag. by rewrite (proj2 (Z.ltb_lt _ 0)) by lia.
Qed.

(** The buffers a descriptor takes, from a table with [size] bytes left at [t]: the
    tags in any buffer with these bytes name them. *)
Lemma prepare_tags_spec l : forall t size uu b,
  l <> [] -> bytes_ok b -> blen b = bs -> 0 <= t -> 0 <= size -> t + size = table_end -> aligned t ->
  (uu = true -> 32 <= size) -> Forall (fun p => buf_ok p.1) l ->
  exists b' l1 rest, prepare_tags sb l t size uu b = (b', map (fun p => escape (jb_data p.1)) l1, rest) /\ l = l1 ++ rest /\
    bytes_ok b' /\ blen b' = bs /\ (forall j, 0 <= j < t -> byte_at b' j = byte_at b j) /\ (uu = true -> l1 <> []) /\
    forall fuel b'', bytes_ok b'' -> blen b'' = bs -> size <= Z.of_nat fuel ->
      (forall j, t <= j < table_end -> byte_at b'' j = byte_at b' j) ->
      Forall2 names (block_tags fuel sb t size b'') l1.
Proof.
  induction l as [|[jb c] l IH]; intros t size uu b Hne Hb Hl Ht Hs He Ha Hu Hok; [done|]. clear Hne.
  apply Forall_cons in Hok as [Hjb Hok]. cbn [fst] in Hjb. cbn [prepare_tags].
  set (last := match l with [] => true | _ => false end). set (ti := prepare_tag sb uu last jb c).
  pose proof (tag_bytes_range sb (so_csum _ Hsb)) as Htb. pose proof tail_size_range as Htl.
  destruct (Z.ltb_spec size (jbd_tag_bytes sb)) as [Hfull|Hfits].
  { unfold ti. rewrite write_full by done. exists b, [], ((jb, c) :: l). split_and!; try done.
    - intros ->. specialize (Hu eq_refl). lia.
    - intros fuel b'' _ _ _ _. rewrite read_full by done. constructor. }
  assert (Hlen : tag_len sb ti <= size).
  { unfold tag_len, UUID_SIZE. cbn. destruct uu; [specialize (Hu eq_refl)|]; lia. }
  assert (Hpos : 8 <= tag_len sb ti) by (unfold tag_len, UUID_SIZE; case_match; lia).
  assert (Hend : table_end <= bs) by (unfold table_end; lia).
  destruct (write_tag_spec sb (so_csum _ Hsb) t Ht size ti b) as (b1 & E1 & B1 & L1 & O1 & R1);
    [done|by apply prepare_tag_arg|done|lia|rewrite Hl; apply (room ti); [done|lia]|].
  rewrite E1. destruct l as [|p l].
  - cbn [prepare_tags]. exists b1, [(jb, c)], []. split_and!; try done; [congruence|].
    intros fuel b'' B'' L'' Hf H''. destruct fuel as [|fuel]; [lia|]. cbn [block_tags].
    rewrite (proj2 (Z.eqb_neq size 0)) by lia.
    rewrite (R1 b'' size) by (done || congruence || (intros; apply H''; lia)). cbn. by constructor.
  - destruct (IH (t + tag_len sb ti) (size - tag_len sb ti) false b1) as (b' & l1 & rest & E & El & B & L & O & _ & R);
      try (done || lia || congruence); [by apply aligned_next|].
    rewrite E. exists b', ((jb, c) :: l1), rest. rewrite El. split_and!; try done.
    { intros j Hj. rewrite O by lia. by apply O1. }
    intros fuel b'' B'' L'' Hf H''. destruct fuel as [|fuel]; [lia|]. cbn [block_tags].
    rewrite (proj2 (Z.eqb_neq size 0)) by lia.
    assert (Hb1 : forall j, t <= j < t + tag_len sb ti -> byte_at b'' j = byte_at b1 j).
    { intros j Hj. rewrite H'' by lia. apply O. lia. }
    rewrite (R1 b'' size) by (done || congruence). cbn [tag_read ti_last_tag ti_tag_bytes ti prepare_tag last].
    constructor; [done|]. apply R; (done || lia || (intros; apply H''; lia)).
Qed.

(** ** A descriptor, and its data *)

(** A header block of transaction [id] that the reader accepts. *)
Record sealed (type id : Z) (b : list Z) : Prop := {
  sl_header : header type id b;
  sl_csum : jbd_verify_meta_csum sb b = true;
}.
(** Descriptors, each with its data, for these buffers. *)
Inductive describes (id : Z) : list (list Z * list (list Z)) -> list jbuf -> Prop :=
  | describes_nil : describes id [] []
  | describes_cons b l1 gs l2 :
      sealed JBD_DESCRIPTOR_BLOCK id b -> Forall2 names (descriptor_tags sb b) l1 -> l1 <> [] ->
      describes id gs l2 ->
      describes id ((b, map (fun p => escape (jb_data p.1)) l1) :: gs) (map fst l1 ++ l2).

Lemma prepare_desc_spec id l junk :
  l <> [] -> bytes_ok junk -> blen junk = bs -> 0 <= id < 2 ^ 32 -> Forall (fun p => buf_ok p.1) l ->
  exists b l1 rest, prepare_desc sb id l junk = (b, map (fun p => escape (jb_data p.1)) l1, rest) /\ l = l1 ++ rest /\
    l1 <> [] /\ sealed JBD_DESCRIPTOR_BLOCK id b /\ Forall2 names (descriptor_tags sb b) l1.
Proof.
  intros Hne Hj Hl Hid Hok. pose proof (so_bs _ Hsb). pose proof tail_size_range.
  destruct (set_bhdr_spec JBD_DESCRIPTOR_BLOCK id junk) as (S1 & S2 & S3); [done|change JBD_BHDR with 12; lia|done|done|].
  set (h := set_bhdr JBD_DESCRIPTOR_BLOCK id junk) in *. unfold prepare_desc. fold h.
  destruct (prepare_tags_spec l JBD_BHDR (table_end - JBD_BHDR) true h) as (b & l1 & rest & E & El & B & L & O & N & R);
    try done; [congruence|unfold table_end; change JBD_BHDR with 12; lia|lia|apply aligned_start|
      unfold table_end; change JBD_BHDR with 12; lia|].
  replace (bs - JBD_BHDR - tail_size sb) with (table_end - JBD_BHDR) by (unfold table_end; lia). rewrite E.
  exists (jbd_meta_csum_set sb b), l1, rest. split; [done|]. split; [done|]. split; [by apply N|].
  assert (Hout : forall j, 0 <= j < table_end -> byte_at (jbd_meta_csum_set sb b) j = byte_at b j).
  { intros j Hj'. apply (meta_csum_out sb b); unfold table_end in *; lia. }
  split; [split|].
  - apply (header_ext _ _ h); [|done]. intros j Hj'. rewrite Hout by (revert Hj'; unfold table_end; change JBD_BHDR with 12; lia).
    by apply O.
  - apply meta_csum_verifies; lia.
  - unfold descriptor_tags. rewrite table_size_eq. apply R.
    + by apply bytes_ok_meta_csum_set.
    + by rewrite blen_meta_csum_set.
    + rewrite Z2Nat.id; [done|]. unfold table_end. change JBD_BHDR with 12. lia.
    + intros j Hj'. apply Hout. revert Hj'. change JBD_BHDR with 12. lia.
Qed.
Lemma prepare_descs_spec id : 0 <= id < 2 ^ 32 -> forall fuel junk l,
  (forall i, bytes_ok (junk i) /\ blen (junk i) = bs) -> Forall (fun p => buf_ok p.1) l -> (length l <= fuel)%nat ->
  exists gs, prepare_descs fuel sb id junk l = Some gs /\ describes id gs (map fst l).
Proof.
  intros Hid. induction fuel as [|fuel IH]; intros junk l Hj Hok Hf.
  { destruct l; [|cbn in Hf; lia]. exists []. split; [done|constructor]. }
  destruct l as [|p l]; [exists []; split; [done|constructor]|]. cbn [prepare_descs].
  destruct (prepare_desc_spec id (p :: l) (junk 0%nat)) as (b & l1 & rest & E & El & Hne & Hs & Hn);
    [done|apply Hj..|done|done|].
  rewrite E, El in *. apply Forall_app in Hok as [_ Hok].
  destruct (IH (fun i => junk (S i)) rest) as (gs & Eg & Hg); [intros; apply Hj|done| |].
  { rewrite length_app in Hf. destruct l1; [done|]. cbn in Hf. lia. }
  rewrite Eg. eexists. split; [done|]. rewrite map_app. by constructor.
Qed.

Lemma with_csum_bufs id : forall l c, map fst (with_csum sb id c l) = l.
Proof. induction l as [|jb l IH]; intros c; [done|]. cbn [with_csum map fst]. by rewrite IH. Qed.
(** Preparing ends, and the descriptors name every buffer once, in order. *)
Lemma prepare_spec id junk l :
  0 <= id < 2 ^ 32 -> (forall i, bytes_ok (junk i) /\ blen (junk i) = bs) -> Forall buf_ok l ->
  exists gs, jbd_journal_prepare sb id junk l = Some gs /\ describes id gs l.
Proof.
  intros Hid Hj Hok. unfold jbd_journal_prepare.
  destruct (prepare_descs_spec id Hid (length l) junk (with_csum sb id EXT4_CRC32_INIT l)) as (gs & E & H); [done|..].
  - apply (Forall_map fst buf_ok). by rewrite with_csum_bufs.
  - rewrite <- (with_csum_bufs id l EXT4_CRC32_INIT) at 2. by rewrite length_map.
  - rewrite with_csum_bufs in H. by exists gs.
Qed.

(** ** Revoke blocks *)

Definition addr_ok (a : Z) : Prop := 0 <= a < addr_limit.
Local Abbreviation len := (revoke_record_len sb).
Lemma record_len_range : 4 <= len <= 8.
Proof. unfold revoke_record_len. case_match; lia. Qed.
(** An entry is read back from any buffer with its bytes. *)
Lemma set_be_spec a off b b' : addr_ok a -> 0 <= off -> off + len <= blen b ->
  (forall j, off <= j < off + len -> byte_at b' j = byte_at (set_be len off a b) j) ->
  (if len =? 8 then reorder64 (get_le (Z.to_nat len) off b') else reorder32 (get_le (Z.to_nat len) off b')) = a.
Proof.
  intros Ha Ho Hl H. pose proof record_len_range.
  rewrite (get_le_ext _ off b' (set_be len off a b)) by (intros; apply H; lia).
  unfold set_be. rewrite get_set_le_eq by lia. revert Ha. unfold addr_ok, addr_limit, revoke_record_len.
  destruct b64; cbn [Z.eqb Pos.eqb]; intros Ha.
  - change (256 ^ Z.of_nat (Z.to_nat 8)) with (2 ^ 64). rewrite Z.mod_small by apply reorder64_range. by apply reorder64_reorder64.
  - change (256 ^ Z.of_nat (Z.to_nat 4)) with (2 ^ 32). rewrite Z.mod_small by apply reorder32_range.
    rewrite u32_id by lia. by apply reorder32_reorder32.
Qed.
Lemma revoke_entries_spec l : forall t size b,
  0 <= t -> 0 <= size -> t + size <= blen b -> bytes_ok b -> Forall addr_ok l ->
  exists b' l1 rest, revoke_entries sb l t size b = (b', size - len * Z.of_nat (length l1), rest) /\ l = l1 ++ rest /\
    bytes_ok b' /\ blen b' = blen b /\ 0 <= size - len * Z.of_nat (length l1) /\
    (forall j, 0 <= j < t -> byte_at b' j = byte_at b j) /\
    (len <= size -> l <> [] -> l1 <> []) /\
    forall b'' i a, l1 !! i = Some a ->
      (forall j, t <= j < t + len * Z.of_nat (length l1) -> byte_at b'' j = byte_at b' j) ->
      (let v := get_le (Z.to_nat len) (t + len * Z.of_nat i) b'' in if len =? 8 then reorder64 v else reorder32 v) = a.
Proof.
  pose proof record_len_range as Hlen. induction l as [|a l IH]; intros t size b Ht Hs Hl Hb Hok; cbn [revoke_entries].
  { exists b, [], []. rewrite Z.mul_0_r, Z.sub_0_r. split_and!; done. }
  apply Forall_cons in Hok as [Ha Hok]. destruct (Z.ltb_spec size len).
  { exists b, [], (a :: l). rewrite Z.mul_0_r, Z.sub_0_r. split_and!; try done. lia. }
  destruct (IH (t + len) (size - len) (set_be len t a b)) as (b' & l1 & rest & E & El & B & L & Sz & O & _ & R); try (done || lia).
  { unfold set_be. rewrite blen_set_le. lia. }
  { unfold set_be. by apply bytes_ok_set_le. }
  exists b', (a :: l1), rest. cbn [length]. rewrite E, El. split_and!; try done.
  - f_equal. f_equal. lia.
  - rewrite L. unfold set_be. apply blen_set_le.
  - lia.
  - intros j Hj. rewrite O by lia. unfold set_be. apply byte_at_set_le_ne; lia.
  - intros b'' [|i] x Hi H'.
    + injection Hi as ->. rewrite Z.mul_0_r, Z.add_0_r. apply (set_be_spec x t b); [done|done|lia|].
      intros j Hj. rewrite H' by lia. apply O. lia.
    + replace (t + len * Z.of_nat (S i)) with (t + len + len * Z.of_nat i) by lia.
      apply R; [done|]. intros j Hj. apply H'. lia.
Qed.

Lemma prepare_revoke_block_spec id l junk :
  l <> [] -> bytes_ok junk -> blen junk = bs -> 0 <= id < 2 ^ 32 -> Forall addr_ok l ->
  exists b l1 rest, prepare_revoke_block sb id l junk = (b, rest) /\ l = l1 ++ rest /\ l1 <> [] /\
    sealed JBD_REVOKE_BLOCK id b /\ revoke_block_entries sb b = l1.
Proof.
  intros Hne Hj Hl Hid Hok. pose proof (so_bs _ Hsb). pose proof tail_size_range. pose proof record_len_range.
  destruct (set_bhdr_spec JBD_REVOKE_BLOCK id junk) as (S1 & S2 & S3); [done|change JBD_BHDR with 12; lia|done|done|].
  set (h := set_bhdr JBD_REVOKE_BLOCK id junk) in *. unfold prepare_revoke_block. fold h.
  change JBD_REVOKE_HEADER with 16.
  destruct (revoke_entries_spec l 16 (bs - 16 - tail_size sb) h) as (b & l1 & rest & E & El & B & L & Sz & O & N & R);
    try (done || lia). rewrite E.
  set (n := len * Z.of_nat (length l1)) in *. assert (0 <= n) by (unfold n; nia).
  replace (bs - (bs - 16 - tail_size sb - n) - tail_size sb) with (16 + n) by lia. rewrite u32_id by lia.
  set (b1 := jbd_set32 jr_count 0 (16 + n) b). assert (L1 : blen b1 = bs) by (unfold b1, jbd_set32; rewrite blen_wr; congruence).
  assert (O1 : changed_in 12 16 b b1).
  { unfold b1, jbd_set32. intros j Hj0 Hj'. apply byte_at_set_le_ne; cbn; lia. }
  assert (Hout : forall j, 0 <= j < bs - tail_size sb -> byte_at (jbd_meta_csum_set sb b1) j = byte_at b1 j).
  { intros j Hj'. apply (meta_csum_out sb b1); lia. }
  eexists _, l1, rest. split; [done|]. split; [done|]. split; [apply N; [lia|done]|]. split; [split|].
  - apply (header_ext _ _ h); [|done]. change JBD_BHDR with 12. intros j Hj'. rewrite Hout, O1 by lia. apply O. lia.
  - apply meta_csum_verifies; lia.
  - assert (Ec : jbd_get32 jr_count 0 (jbd_meta_csum_set sb b1) = 16 + n).
    { unfold jbd_get32. rewrite (rd_ext jr_count 0 _ b1 16) by (done || intros; apply Hout; lia).
      unfold b1. apply (jbd_get_set32 _ _ _ _ 16); try (done || lia). }
    unfold revoke_block_entries. rewrite Ec. change JBD_REVOKE_HEADER with 16.
    rewrite (proj2 (Z.ltb_ge _ _)), (proj2 (Z.ltb_ge _ _)) by lia. cbn [orb].
    replace (16 + n - 16) with (Z.of_nat (length l1) * len) by (unfold n; lia). rewrite Z.div_mul by lia. rewrite Nat2Z.id.
    apply list_eq. intros i. rewrite list_lookup_fmap. destruct (l1 !! i) as [a|] eqn:Ei.
    + assert (Hi : (i < length l1)%nat) by by eapply lookup_lt_Some. rewrite lookup_seq_lt by done. cbn [fmap option_fmap option_map].
      f_equal. unfold revoke_entry_at. change JBD_REVOKE_HEADER with 16. apply (R _ i a Ei).
      intros j Hj'. fold n in Hj'. rewrite Hout by lia. apply O1; lia.
    + apply lookup_ge_None in Ei. by rewrite lookup_seq_ge by done.
Qed.
(** Revoke blocks for these blocks. *)
Inductive revokes_list (id : Z) : list (list Z) -> list Z -> Prop :=
  | revokes_nil : revokes_list id [] []
  | revokes_cons b bl l :
      sealed JBD_REVOKE_BLOCK id b -> revokes_list id bl l -> revokes_list id (b :: bl) (revoke_block_entries sb b ++ l).
Lemma prepare_revokes_spec id : 0 <= id < 2 ^ 32 -> forall fuel junk l,
  (forall i, bytes_ok (junk i) /\ blen (junk i) = bs) -> Forall addr_ok l -> (length l <= fuel)%nat ->
  exists bl, prepare_revokes fuel sb id junk l = Some bl /\ revokes_list id bl l.
Proof.
  intros Hid. induction fuel as [|fuel IH]; intros junk l Hj Hok Hf.
  { destruct l; [|cbn in Hf; lia]. exists []. split; [done|constructor]. }
  destruct l as [|p l]; [exists []; split; [done|constructor]|]. cbn [prepare_revokes].
  destruct (prepare_revoke_block_spec id (p :: l) (junk 0%nat)) as (b & l1 & rest & E & El & Hne & Hs & Hn);
    [done|apply Hj..|done|done|].
  rewrite E, El in *. apply Forall_app in Hok as [_ Hok].
  destruct (IH (fun i => junk (S i)) rest) as (bl & Eg & Hg); [intros; apply Hj|done| |].
  { rewrite length_app in Hf. destruct l1; [done|]. cbn in Hf. lia. }
  rewrite Eg. eexists. split; [done|]. rewrite <- Hn. by constructor.
Qed.

(** ** The commit block *)

Lemma commit_block_spec id csum junk :
  bytes_ok junk -> blen junk = bs -> 0 <= id < 2 ^ 32 ->
  header JBD_COMMIT_BLOCK id (jbd_trans_write_commit_block sb id csum junk) /\
  jbd_verify_commit_csum sb (jbd_trans_write_commit_block sb id csum junk) = true.
Proof.
  intros Hj Hl Hid. pose proof (so_bs _ Hsb). unfold jbd_trans_write_commit_block.
  destruct (set_bhdr_spec JBD_COMMIT_BLOCK id junk) as (S1 & S2 & S3); [done|change JBD_BHDR with 12; lia|done|done|].
  set (h := set_bhdr JBD_COMMIT_BLOCK id junk) in *. set (b := if JBD_HAS_INCOMPAT_FEATURE sb JBD_FEATURE_COMPAT_CHECKSUM then _ else h).
  assert (Hb : blen b = bs /\ forall j, 0 <= j < 12 -> byte_at b j = byte_at h j).
  { unfold b, jbd_set32. case_match; [|by split; [congruence|]]. split; [rewrite !blen_wr; congruence|].
    intros j Hj'. unfold wr. rewrite !byte_at_set_le_ne by (cbn; lia). done. }
  destruct Hb as [Lb Ob]. split; [|apply commit_csum_verifies; change JBD_BHDR with 12; lia].
  apply (header_ext _ _ h); [|done]. change JBD_BHDR with 12. intros j Hj'. rewrite <- Ob by done.
  unfold jbd_commit_csum_set. case_match; [done|]. unfold wr. rewrite !byte_at_set_le_ne by (cbn; lia). done.
Qed.
End Tags.
