(* ===== verification/CommitReplay.v ===== *)
(** * From commit to recovery

    Transactions laid out in the ring one after the other are read by recovery as
    they were committed, and replaying them leaves what they wrote. *)

From S2P Require Import Prelude Layout Types Crc Super Jbd JbdLaws JbdWrite JbdRecover RecoverSpec CommitLaws.

(** A transaction: its dirty buffers and the blocks it revokes. *)
Record txn := mk_txn { tx_bufs : list jbuf; tx_revokes : list Z }.

(** What block [b] holds after the transactions, if [h] held before: the copy a
    transaction logged last; a transaction that revokes the block takes it back to
    what the disk held. *)
Definition latest (l : list jbuf) (b : Z) (v : list Z) : list Z :=
  match last (filter (fun jb => jb_lba jb = b) l) with Some jb => jb_data jb | None => v end.
Definition durable (ts : list txn) (h : Z -> list Z) (b : Z) : list Z :=
  foldl (fun v t => if bool_decide (b ∈ tx_revokes t) then h b else latest (tx_bufs t) b v) (h b) ts.

Section Log.
Context (sb : list Z) (jc : Z -> list Z).
Local Abbreviation next := (next_pos sb).

(** The blocks of the transactions, of which the first is transaction [k]; block
    [i] of the buffers of transaction [k] comes with the bytes [junk k i]. *)
Fixpoint log_of (junk : nat -> nat -> list Z) (k : nat) (ts : list txn) : option (list (list Z)) :=
  match ts with
  | [] => Some []
  | t :: ts =>
      a ← trans_blocks sb (trans_id sb k) (junk k) (tx_bufs t) (tx_revokes t);
      b ← log_of junk (S k) ts;
      Some (a ++ b)
  end.
(** The blocks are in the log from [pos] on. *)
Definition at_log (pos : Z) (blocks : list (list Z)) : Prop :=
  forall i b, blocks !! i = Some b -> jc (Nat.iter i next pos) = b.
Lemma iter_plus (f : Z -> Z) m n x : Nat.iter (m + n) f x = Nat.iter n f (Nat.iter m f x).
Proof. rewrite Nat.add_comm. induction n as [|n IH]; [done|]. exact (f_equal f IH). Qed.
Lemma at_log_app pos a b :
  at_log pos (a ++ b) -> at_log pos a /\ at_log (Nat.iter (length a) next pos) b.
Proof.
  intros H. split; intros i x Hi.
  - apply H. by rewrite lookup_app_l by (by eapply lookup_lt_Some).
  - rewrite <- iter_plus. apply H. rewrite lookup_app_r by lia. by replace (length a + i - length a)%nat with i by lia.
Qed.
Lemma at_log_cons pos x l : at_log pos (x :: l) -> jc pos = x /\ at_log (next pos) l.
Proof. intros H. apply (at_log_app pos [x] l) in H as [H1 H2]. split; [by apply (H1 0%nat)|done]. Qed.

(** ** The ring *)

Section Ring.
Local Abbreviation first := (jbd_get32 js_first 0 sb).
Local Abbreviation maxlen := (jbd_get32 js_maxlen 0 sb).
Local Abbreviation start := (jbd_get32 js_start 0 sb).
Definition ring : Z := maxlen - first.
(** The log starts inside the ring. *)
Definition ring_ok : Prop := 0 < first <= start /\ start < maxlen.

Lemma iter_pos (H : ring_ok) i : Nat.iter i next start = first + (start - first + Z.of_nat i) mod ring.
Proof.
  destruct H as [H1 H2]. pose proof (jbd_get32_range js_maxlen 0 sb) as Hm. change (2 ^ 32) with 4294967296 in Hm.
  unfold ring in *. induction i as [|i IH].
  { change (Nat.iter 0 next start) with start. change (Z.of_nat 0) with 0. rewrite Z.add_0_r, Z.mod_small by lia. lia. }
  change (Nat.iter (S i) next start) with (next (Nat.iter i next start)). rewrite IH.
  set (a := start - first + Z.of_nat i). replace (start - first + Z.of_nat (S i)) with (a + 1) by lia.
  assert (Hr : 0 < maxlen - first) by lia. pose proof (Z.mod_pos_bound a _ Hr).
  unfold next_pos, wrap. rewrite (u32_id (first + _ + 1)) by lia.
  destruct (Z.leb_spec maxlen (first + a mod (maxlen - first) + 1)) as [Hw|Hw].
  - assert (Ea : a mod (maxlen - first) = maxlen - first - 1) by lia. rewrite Ea, !u32_id by (rewrite ?u32_id; lia).
    rewrite <- Z.add_mod_idemp_l, Ea by lia. replace (maxlen - first - 1 + 1) with (maxlen - first) by lia. rewrite Z.mod_same by lia. lia.
  - rewrite <- (Z.add_mod_idemp_l a 1) by lia. rewrite (Z.mod_small (a mod (maxlen - first) + 1)) by lia. lia.
Qed.
Lemma iter_ne (H : ring_ok) i : 0 < Z.of_nat i < ring -> Nat.iter i next start <> start.
Proof.
  intros Hi E. rewrite iter_pos in E by done. destruct H as [H1 H2]. unfold ring in *.
  assert (Ea : (start - first + Z.of_nat i) mod (maxlen - first) = start - first) by lia.
  pose proof (Z.div_mod (start - first + Z.of_nat i) (maxlen - first) ltac:(lia)) as D. rewrite Ea in D.
  set (q := (start - first + Z.of_nat i) / (maxlen - first)) in *.
  assert (Ei : Z.of_nat i = (maxlen - first) * q) by lia. destruct (Z.le_gt_cases q 0); nia.
Qed.
End Ring.

(** ** Records in the log *)

Definition rec_len (r : record) : nat := match r with RDesc _ _ tags => S (length tags) | _ => 1%nat end.
Lemma after_iter r pos : after sb r pos = Nat.iter (rec_len r) next pos.
Proof. by destruct r. Qed.
Fixpoint laid (k : nat) (pos : Z) (rs : list record) : Prop :=
  match rs with
  | [] => True
  | r :: rs => record_at sb jc k pos = Some r /\ laid (next_trans r k) (after sb r pos) rs
  end.
Definition recs_len (rs : list record) : nat := sum_list_with rec_len rs.
Definition recs_trans (k : nat) (rs : list record) : nat := (k + commits rs)%nat.
Lemma laid_app k pos a b :
  laid k pos a -> laid (recs_trans k a) (Nat.iter (recs_len a) next pos) b -> laid k pos (a ++ b).
Proof.
  unfold recs_trans. revert k pos. induction a as [|r a IH]; intros k pos; cbn [laid app].
  { change (commits []) with 0%nat. by rewrite Nat.add_0_r. }
  intros [H1 H2] H3. split; [done|]. apply IH; [done|]. rewrite commits_cons in H3.
  cbn [recs_len sum_list_with] in H3. rewrite iter_plus, <- after_iter in H3.
  unfold next_trans. destruct (is_commit r); [|done]. by replace (S k + commits a)%nat with (k + (1 + commits a))%nat by lia.
Qed.
Lemma recs_len_app a b : recs_len (a ++ b) = (recs_len a + recs_len b)%nat.
Proof. apply sum_list_with_app. Qed.

Lemma parse_laid (H : ring_ok) fuel rs : forall k m,
  laid k (Nat.iter m next (jbd_get32 js_start 0 sb)) rs -> Z.of_nat (m + recs_len rs) < ring ->
  parse_log sb jc (length rs + fuel) (jbd_get32 js_start 0 sb) k (Nat.iter m next (jbd_get32 js_start 0 sb)) =
  app rs <$> parse_log sb jc fuel (jbd_get32 js_start 0 sb) (recs_trans k rs) (Nat.iter (m + recs_len rs) next (jbd_get32 js_start 0 sb)).
Proof.
  unfold recs_trans. induction rs as [|r rs IH]; intros k m.
  { intros _ _. change (commits []) with 0%nat. cbn [length Nat.add recs_len sum_list_with]. rewrite !Nat.add_0_r.
    by destruct (parse_log _ _ _ _ _ _). }
  intros [H1 H2] Hm. cbn [length Nat.add parse_log]. rewrite H1. cbn [recs_len sum_list_with] in *.
  fold (recs_len rs) in *. rewrite after_iter, <- iter_plus in *.
  assert (Hr : (1 <= rec_len r)%nat) by (destruct r; cbn; lia).
  rewrite (proj2 (Z.eqb_neq _ _)) by (apply iter_ne; [done|lia]).
  rewrite IH by (done || lia). rewrite commits_cons.
  replace (m + (rec_len r + recs_len rs))%nat with (m + rec_len r + recs_len rs)%nat by lia.
  unfold next_trans. destruct (is_commit r).
  - replace (S k + commits rs)%nat with (k + (1 + commits rs))%nat by lia. by destruct (parse_log _ _ _ _ _ _).
  - cbn [Nat.add]. by destruct (parse_log _ _ _ _ _ _).
Qed.

(** ** What a commit lays out *)

Context (Hsb : sb_ok sb).
Local Abbreviation view c := (c.1.1, ti_block c.1.2, copy_data jc c).
Definition logs (k : nat) (l : list jbuf) : list (nat * Z * list Z) := map (fun jb => (k, jb_lba jb, jb_data jb)) l.

Lemma unescape_escape d : JBD_BHDR <= blen d -> bytes_ok d -> unescape (is_escape d) (escape d) = d.
Proof.
  change JBD_BHDR with 12. intros Hl Hb. unfold escape, unescape. destruct (is_escape d) eqn:E; [|done].
  rewrite wr_wr by (cbn; lia). unfold is_escape in E. apply Z.eqb_eq in E. rewrite <- E. by apply (wr_same _ _ _ 12).
Qed.
Lemma tag_copies_view k tags l : Forall2 names tags l -> forall pos,
  Forall (buf_ok sb) (map fst l) -> at_log (next pos) (map (fun p => escape (jb_data p.1)) l) ->
  map (fun c => view c) (tag_copies sb k pos tags) = logs k (map fst l).
Proof.
  induction 1 as [|ti p tags l [N1 N2] _ IH]; intros pos Hok Hat; [done|].
  apply Forall_cons in Hok as [(_ & Hl & Hb) Hok]. cbn [map] in Hat. apply at_log_cons in Hat as [Hj Hat].
  cbn [tag_copies map logs]. rewrite (IH (next pos)) by done. cbn [fst snd].
  unfold logs. f_equal. rewrite N1. f_equal. unfold copy_data. cbn [fst snd]. rewrite Hj, N2. apply unescape_escape; [|done]. rewrite Hl.
  pose proof (so_bs _ Hsb). change JBD_BHDR with 12. lia.
Qed.

Lemma record_desc k pos : sealed sb JBD_DESCRIPTOR_BLOCK (trans_id sb k) (jc pos) ->
  record_at sb jc k pos = Some (RDesc k pos (descriptor_tags sb (jc pos))).
Proof.
  intros [[H1 H2 H3] H4]. unfold record_at. by rewrite H1, H2, H3, H4, !Z.eqb_refl.
Qed.
Lemma record_revoke k pos : sealed sb JBD_REVOKE_BLOCK (trans_id sb k) (jc pos) ->
  record_at sb jc k pos = Some (RRevoke k (revoke_block_entries sb (jc pos))).
Proof.
  intros [[H1 H2 H3] H4]. unfold record_at. by rewrite H1, H2, H3, H4, !Z.eqb_refl.
Qed.
Lemma record_commit k pos : header JBD_COMMIT_BLOCK (trans_id sb k) (jc pos) -> jbd_verify_commit_csum sb (jc pos) = true ->
  record_at sb jc k pos = Some (RCommit k).
Proof. intros [H1 H2 H3] H4. unfold record_at. by rewrite H1, H2, H3, H4, !Z.eqb_refl. Qed.

(** The records of one kind of a transaction that is not committed yet. *)
Record part (k : nat) (pos : Z) (n : nat) (rs : list record) (l : list (nat * Z * list Z)) (revokes : list Z) : Prop := {
  pt_laid : laid k pos rs;
  pt_len : recs_len rs = n;
  pt_trans : Forall (fun r => rec_trans r = k /\ is_commit r = false) rs;
  pt_copies : map (fun c => view c) (copies sb rs) = l;
  pt_revokes : forall j b, existsb (overrules j b) rs = (j <=? k)%nat && bool_decide (b ∈ revokes);
}.
Lemma part_commits k pos n rs l revs : part k pos n rs l revs -> commits rs = 0%nat.
Proof.
  intros [_ _ H _ _]. induction H as [|r rs [_ Hr] _ IH]; [done|]. by rewrite commits_cons, Hr, IH.
Qed.
Lemma part_nil k pos : part k pos 0 [] [] [].
Proof. split; try done. intros j b. by rewrite bool_decide_eq_false_2, andb_false_r by apply not_elem_of_nil. Qed.
Lemma part_app k pos n m a b l l' v v' :
  part k pos n a l v -> part k (Nat.iter n next pos) m b l' v' -> part k pos (n + m) (a ++ b) (l ++ l') (v ++ v').
Proof.
  intros A B. pose proof (part_commits _ _ _ _ _ _ A) as C. destruct A as [A1 A2 A3 A4 A5], B as [B1 B2 B3 B4 B5]. split.
  - apply laid_app; [done|]. unfold recs_trans. by rewrite C, Nat.add_0_r, A2.
  - rewrite recs_len_app. lia.
  - by apply Forall_app.
  - rewrite copies_app, map_app. by f_equal.
  - intros j x. rewrite existsb_app, A5, B5. rewrite <- andb_orb_distrib_r. f_equal.
    apply eq_bool_prop_intro. rewrite orb_True, !bool_decide_spec. set_solver.
Qed.

Lemma describes_part k gs l : describes sb (trans_id sb k) gs l -> forall pos,
  Forall (buf_ok sb) l -> at_log pos (concat (map (fun g => g.1 :: g.2) gs)) ->
  exists rs, part k pos (length (concat (map (fun g => g.1 :: g.2) gs))) rs (logs k l) [].
Proof.
  induction 1 as [|b l1 gs l2 Hs Hn Hne _ IH]; intros pos Hok Hat; [exists []; apply part_nil|].
  apply Forall_app in Hok as [Hok1 Hok2]. cbn [map concat fst snd] in *.
  apply (at_log_app pos (b :: _)) in Hat as [H1 H2]. apply at_log_cons in H1 as [Hb H1].
  destruct (IH _ Hok2 H2) as (rs & P). unfold logs. rewrite map_app, length_app.
  exists (RDesc k pos (descriptor_tags sb b) :: rs). apply (part_app k pos _ _ [_] rs _ _ [] []); [|done].
  subst b. split.
  - split; [by apply record_desc|done].
  - cbn. rewrite length_map, (Forall2_length _ _ _ Hn). lia.
  - by repeat constructor.
  - change (copies sb [RDesc k pos (descriptor_tags sb (jc pos))]) with (tag_copies sb k pos (descriptor_tags sb (jc pos)) ++ []).
    rewrite app_nil_r. by apply tag_copies_view.
  - intros j x. cbn. by rewrite bool_decide_eq_false_2, andb_false_r by apply not_elem_of_nil.
Qed.
Lemma revokes_part k bl l : revokes_list sb (trans_id sb k) bl l -> forall pos,
  at_log pos bl -> exists rs, part k pos (length bl) rs [] l.
Proof.
  induction 1 as [|b bl l Hs _ IH]; intros pos Hat; [exists []; apply part_nil|].
  apply at_log_cons in Hat as [Hb Hat]. destruct (IH _ Hat) as (rs & P).
  exists (RRevoke k (revoke_block_entries sb b) :: rs). apply (part_app k pos 1 _ [_] rs [] []); [|done].
  subst b. split; try done.
  - split; [by apply record_revoke|done].
  - by repeat constructor.
  - intros j x. cbn. by rewrite orb_false_r.
Qed.

(** ** Whole transactions *)

Definition txn_ok (t : txn) : Prop :=
  Forall (buf_ok sb) (tx_bufs t) /\ Forall (addr_ok sb) (tx_revokes t) /\ (tx_bufs t = [] -> tx_revokes t <> []).
Context (junk : nat -> nat -> list Z) (Hjunk : forall k i, bytes_ok (junk k i) /\ blen (junk k i) = jbd_blocksize sb).

Lemma trans_id_range k : 0 <= trans_id sb k < 2 ^ 32.
Proof. apply u32_range. Qed.
(** A commit ends. *)
Lemma trans_blocks_total k t : txn_ok t -> exists blocks, trans_blocks sb (trans_id sb k) (junk k) (tx_bufs t) (tx_revokes t) = Some blocks.
Proof.
  intros (B & V & N). pose proof (trans_id_range k). unfold trans_blocks.
  destruct (prepare_spec sb Hsb (trans_id sb k) (junk k) (tx_bufs t)) as (gs & -> & _); [done|apply Hjunk|done|].
  destruct (prepare_revokes_spec sb Hsb (trans_id sb k) ltac:(done) (length (tx_revokes t))
    (fun i => junk k (length (tx_bufs t) + i)%nat) (tx_revokes t)) as (bl & E & _); [intros; apply Hjunk|done|done|].
  unfold jbd_journal_prepare_revoke. rewrite E. destruct (tx_bufs t), (tx_revokes t); by eexists.
Qed.
Lemma log_of_total ts : Forall txn_ok ts -> forall k, exists blocks, log_of junk k ts = Some blocks.
Proof.
  induction 1 as [|t ts Ht _ IH]; intros k; [by eexists|]. cbn [log_of].
  destruct (trans_blocks_total k t Ht) as [a ->]. destruct (IH (S k)) as [b Eb]. cbn. rewrite Eb. by eexists.
Qed.

Lemma txn_laid k t pos blocks :
  txn_ok t -> trans_blocks sb (trans_id sb k) (junk k) (tx_bufs t) (tx_revokes t) = Some blocks -> at_log pos blocks ->
  exists n rs, part k pos n rs (logs k (tx_bufs t)) (tx_revokes t) /\ laid k pos (rs ++ [RCommit k]) /\ length blocks = (n + 1)%nat.
Proof.
  intros (B & V & N) E Hat. pose proof (trans_id_range k). unfold trans_blocks in E.
  destruct (prepare_spec sb Hsb (trans_id sb k) (junk k) (tx_bufs t)) as (gs & Eg & Dg); [done|apply Hjunk|done|].
  destruct (prepare_revokes_spec sb Hsb (trans_id sb k) ltac:(done) (length (tx_revokes t))
    (fun i => junk k (length (tx_bufs t) + i)%nat) (tx_revokes t)) as (bl & El & Dl); [intros; apply Hjunk|done|done|].
  unfold jbd_journal_prepare_revoke in E. rewrite Eg, El in E.
  set (cb := jbd_trans_write_commit_block _ _ _ _) in E. set (db := concat (map (fun g => g.1 :: g.2) gs)) in *.
  assert (Eb : blocks = db ++ bl ++ [cb]).
  { destruct (tx_bufs t), (tx_revokes t); try congruence. by destruct N. }
  subst blocks. apply at_log_app in Hat as [H1 H2]. apply at_log_app in H2 as [H2 H3]. apply at_log_cons in H3 as [H3 _].
  destruct (describes_part _ _ _ Dg pos B H1) as (rs1 & P1). fold db in P1. destruct (revokes_part _ _ _ Dl _ H2) as (rs2 & P2).
  pose proof (part_app _ _ _ _ _ _ _ _ _ _ P1 P2) as P. rewrite app_nil_r in P. cbn [app] in P.
  exists (length db + length bl)%nat, (rs1 ++ rs2). split; [done|]. split.
  - apply laid_app; [apply P|]. unfold recs_trans. rewrite (part_commits _ _ _ _ _ _ P), (pt_len _ _ _ _ _ _ P), Nat.add_0_r.
    rewrite (iter_plus next (length db) (length bl) pos). split; [|done]. apply record_commit; rewrite H3; apply commit_block_spec; (done || apply Hjunk).
  - fold db. rewrite !length_app. cbn [length]. lia.
Qed.

Fixpoint all_logs (k : nat) (ts : list txn) : list (nat * Z * list Z) :=
  match ts with [] => [] | t :: ts => logs k (tx_bufs t) ++ all_logs (S k) ts end.
Fixpoint later_revoke (k : nat) (ts : list txn) (j : nat) (b : Z) : bool :=
  match ts with
  | [] => false
  | t :: ts => (j <=? k)%nat && bool_decide (b ∈ tx_revokes t) || later_revoke (S k) ts j b
  end.
Lemma committed_app a b : commits b <> 0%nat -> committed (a ++ b) = a ++ committed b.
Proof.
  intros Hb. induction a as [|r a IH]; [done|]. cbn [app]. rewrite committed_cons, IH; [done|].
  rewrite commits_cons, commits_app. lia.
Qed.
Lemma committed_tail a b : commits b = 0%nat -> committed (a ++ b) = committed a.
Proof.
  intros Hb. induction a as [|r a IH]; [by apply committed_nil|]. cbn [app committed]. rewrite !commits_cons.
  rewrite commits_app, Hb, Nat.add_0_r, IH. done.
Qed.
Lemma txns_laid ts : Forall txn_ok ts -> forall k pos blocks,
  log_of junk k ts = Some blocks -> at_log pos blocks ->
  exists rs, laid k pos rs /\ recs_len rs = length blocks /\ commits rs = length ts /\ committed rs = rs /\
    map (fun c => view c) (copies sb rs) = all_logs k ts /\
    forall j b, revoked rs j b = later_revoke k ts j b.
Proof.
  induction 1 as [|t ts Ht _ IH]; intros k pos blocks E Hat; cbn [log_of] in E.
  { injection E as <-. by exists []. }
  destruct (trans_blocks _ _ _ _ _) as [a|] eqn:Ea; [|done]. cbn in E.
  destruct (log_of junk (S k) ts) as [c|] eqn:Ec; [|done]. cbn in E. injection E as <-.
  apply at_log_app in Hat as [H1 H2]. destruct (txn_laid k t pos a Ht Ea H1) as (n & rs1 & P & L1 & La).
  destruct (IH (S k) _ c Ec H2) as (rs2 & L2 & N2 & C2 & D2 & V2 & R2).
  pose proof (part_commits _ _ _ _ _ _ P) as C1. pose proof (pt_len _ _ _ _ _ _ P) as N1.
  assert (E1 : commits (rs1 ++ [RCommit k]) = 1%nat) by (by rewrite commits_app, C1).
  exists ((rs1 ++ [RCommit k]) ++ rs2). split_and!.
  - apply laid_app; [done|]. unfold recs_trans. rewrite E1, recs_len_app, N1. cbn [recs_len sum_list_with rec_len].
    replace (k + 1)%nat with (S k) by lia. replace (n + (1 + 0))%nat with (length a) by lia. done.
  - rewrite !recs_len_app, length_app, N1, N2. cbn. lia.
  - by rewrite commits_app, E1, C2.
  - rewrite <- app_assoc. rewrite committed_app.
    + cbn [app]. rewrite committed_cons, D2; [done|]. by rewrite commits_cons.
    + cbn [app]. by rewrite commits_cons.
  - rewrite !copies_app, !map_app, V2, (pt_copies _ _ _ _ _ _ P). by rewrite app_nil_r.
  - intros j b. unfold revoked in *. rewrite !existsb_app, R2. cbn [later_revoke]. rewrite (pt_revokes _ _ _ _ _ _ P).
    cbn. by rewrite !orb_false_r.
Qed.

(** ** What replaying them leaves *)

Lemma last_filter_map {A B} (f : A -> B) (P : B -> Prop) `{forall x, Decision (P x)} l :
  last (filter P (map f l)) = f <$> last (filter (fun x => P (f x)) l).
Proof.
  induction l as [|x l IH] using rev_ind; [done|]. rewrite map_app, !filter_app, !last_app, IH. cbn [map].
  rewrite !filter_cons, !filter_nil. by case_decide.
Qed.
(** The copy of [b] that is logged last and not revoked. *)
Definition pick (rv : nat -> Z -> bool) (v : list (nat * Z * list Z)) (h : Z -> list Z) (b : Z) : list Z :=
  match last (filter (fun v => rv v.1.1 b = false /\ v.1.2 = b) v) with Some v => v.2 | None => h b end.
Lemma pick_ext rv rv' v h b : (forall j b, rv j b = rv' j b) -> pick rv v h b = pick rv' v h b.
Proof.
  intros H. unfold pick. by rewrite (list_filter_iff _ (fun v => rv' v.1.1 b = false /\ v.1.2 = b)) by (intros; by rewrite H).
Qed.
Lemma replayed_pick l l' h b :
  committed l = l' -> replayed sb jc l h b = pick (revoked l') (map (fun c => view c) (copies sb l')) h b.
Proof.
  intros E. unfold replayed, live_copies, pick. rewrite E, last_filter_map, list_filter_filter.
  rewrite (list_filter_iff _ (fun c => revoked l' c.1.1 b = false /\ ti_block c.1.2 = b)).
  - cbn [fst snd]. by destruct (last _).
  - intros c. split; [intros [<- ?]|intros [? <-]]; done.
Qed.

Lemma all_logs_snoc ts t : forall k, all_logs k (ts ++ [t]) = all_logs k ts ++ logs (k + length ts) (tx_bufs t).
Proof.
  induction ts as [|u ts IH]; intros k; cbn; [by rewrite app_nil_r, Nat.add_0_r|].
  by rewrite IH, <- app_assoc, <- Nat.add_succ_comm.
Qed.
Lemma later_revoke_snoc ts t : forall k j b, later_revoke k (ts ++ [t]) j b =
  later_revoke k ts j b || (j <=? k + length ts)%nat && bool_decide (b ∈ tx_revokes t).
Proof.
  induction ts as [|u ts IH]; intros k j b; cbn; [by rewrite orb_false_r, Nat.add_0_r|].
  by rewrite IH, <- Nat.add_succ_comm, orb_assoc.
Qed.
Lemma later_revoke_new ts : forall k j b, (k + length ts <= j)%nat -> later_revoke k ts j b = false.
Proof.
  induction ts as [|u ts IH]; intros k j b; cbn; [done|]. intros Hj. rewrite IH by lia.
  by rewrite (proj2 (Nat.leb_gt _ _)) by lia.
Qed.
Lemma elem_of_all_logs v ts : forall k, v ∈ all_logs k ts ->
  (v.1.1 < k + length ts)%nat /\ exists t jb, t ∈ ts /\ jb ∈ tx_bufs t /\ v.1.2 = jb_lba jb.
Proof.
  induction ts as [|t ts IH]; intros k; cbn [all_logs length]; [by intros ?%not_elem_of_nil|].
  intros [(jb & -> & Hj)%list_elem_of_fmap|Hv]%elem_of_app.
  - split; [cbn; lia|]. exists t, jb. rewrite elem_of_cons. auto.
  - destruct (IH _ Hv) as (Hk & u & jb & Hu & ?). split; [lia|]. exists u, jb. rewrite elem_of_cons. auto.
Qed.
Lemma pick_durable ts k h b : pick (later_revoke k ts) (all_logs k ts) h b = durable ts h b.
Proof.
  revert b. induction ts as [|t ts IH] using rev_ind; intros b; [done|]. specialize (IH b).
  unfold durable in *. rewrite foldl_app. cbn [foldl]. rewrite <- IH. unfold pick. rewrite all_logs_snoc.
  case_bool_decide as Hb.
  - destruct (last _) as [v|] eqn:El; [exfalso|done].
    apply last_Some_elem_of, list_elem_of_filter in El as [[Hr _] Hv].
    rewrite later_revoke_snoc, bool_decide_eq_true_2, andb_true_r in Hr by done. apply orb_false_iff in Hr as [_ Hr].
    apply Nat.leb_gt in Hr. apply elem_of_app in Hv as [Hv|(jb & -> & _)%list_elem_of_fmap]; [|cbn in Hr; lia].
    apply elem_of_all_logs in Hv as [? _]. lia.
  - rewrite filter_app, last_app. unfold logs. rewrite last_filter_map. cbn [fst snd]. unfold latest.
    assert (E : forall j, later_revoke k (ts ++ [t]) j b = later_revoke k ts j b).
    { intros j. rewrite later_revoke_snoc, bool_decide_eq_false_2 by done. by rewrite andb_false_r, orb_false_r. }
    rewrite (list_filter_iff (fun v => _ /\ v.1.2 = b) (fun v => later_revoke k ts v.1.1 b = false /\ v.1.2 = b))
      by (intros; by rewrite E).
    rewrite (list_filter_iff (fun jb => later_revoke k (ts ++ [t]) _ b = false /\ _) (fun jb => jb_lba jb = b)).
    + by destruct (last _).
    + intros jb. rewrite E, later_revoke_new by lia. naive_solver.
Qed.

(** ** The log read back *)

Lemma parse_more fuel n start : forall k pos l,
  parse_log sb jc fuel start k pos = Some l -> parse_log sb jc (fuel + n) start k pos = Some l.
Proof.
  induction fuel as [|fuel IH]; intros k pos l; [done|]. cbn [Nat.add parse_log].
  destruct (record_at sb jc k pos) as [r|]; [|done]. case_match; [done|].
  intros (l' & E & ->)%fmap_Some. by rewrite (IH _ _ _ E).
Qed.
Lemma recs_len_le rs : (length rs <= recs_len rs)%nat.
Proof. unfold recs_len. induction rs as [|r rs IH]; [done|]. destruct r; cbn in *; lia. Qed.

(** Transactions [ts], laid out from the start of the log on, and what the walk
    finds after them, which ends before another commit block. *)
Record committed_log (ts : list txn) (blocks : list (list Z)) (more : nat) (tail : list record) : Prop := {
  cl_ring : ring_ok;
  cl_txns : Forall txn_ok ts;
  cl_blocks : log_of junk 0 ts = Some blocks;
  cl_room : Z.of_nat (length blocks) < ring;
  cl_log : at_log (jbd_get32 js_start 0 sb) blocks;
  cl_tail : parse_log sb jc more (jbd_get32 js_start 0 sb) (length ts)
              (Nat.iter (length blocks) next (jbd_get32 js_start 0 sb)) = Some tail;
  cl_open : commits tail = 0%nat;
}.
Lemma committed_log_read ts blocks more tail fuel :
  committed_log ts blocks more tail -> (length blocks + more <= fuel)%nat ->
  exists l, log_records sb jc fuel = Some l /\ commits l = length ts /\ (length l <= length blocks + length tail)%nat /\
    (forall b, b ∈ map (fun c => ti_block c.1.2) (live_copies sb (committed l)) ->
       exists t jb, t ∈ ts /\ jb ∈ tx_bufs t /\ b = jb_lba jb) /\
    forall h b, replayed sb jc l h b = durable ts h b.
Proof.
  intros [R T E Hr At Tl C] Hf. destruct (txns_laid ts T 0 _ blocks E At) as (rs & La & Ln & Lc & Lm & Lv & Lr).
  exists (rs ++ tail). pose proof (recs_len_le rs).
  assert (Ec : committed (rs ++ tail) = rs) by by rewrite committed_tail.
  split_and!.
  - unfold log_records. replace fuel with (length rs + (more + (fuel - length rs - more)))%nat by lia.
    assert (Hn : Z.of_nat (0 + recs_len rs) < ring) by (rewrite Ln; done).
    etransitivity; [exact (parse_laid R _ rs 0 0 La Hn)|]. unfold recs_trans. rewrite Lc, Ln. cbn [Nat.add].
    by rewrite (parse_more _ _ _ _ _ _ Tl).
  - rewrite commits_app. lia.
  - rewrite length_app. lia.
  - intros b (c & -> & Hc)%list_elem_of_fmap. rewrite Ec in Hc. apply list_elem_of_filter in Hc as [_ Hc].
    assert (Hv : view c ∈ all_logs 0 ts) by (rewrite <- Lv; by apply list_elem_of_fmap; exists c).
    by apply elem_of_all_logs in Hv as [_ ?].
  - intros h b. rewrite (replayed_pick _ rs), Lv, (pick_ext _ (later_revoke 0 ts)) by done. apply pick_durable.
Qed.
End Log.
