(* ===== verification/JournalProps.v ===== *)
(** * The journal: what it guarantees

    The properties of recovery, over every store that keeps the promise
    [ReplayLaws], and runs of the code on a disk in memory. *)

From stdpp Require Import pmap.
From S2P Require Import Prelude Layout Types Crc Super Device Jbd JbdLaws JbdWrite JbdRecover RecoverSpec RecoverLaws.
From S2P Require Import ReplayPass RecoverProps JbdBatch BatchLaws JbdDev.

(** ** A volume with a log in it

    64 blocks of 1 KiB at byte 4096 of the disk; the journal's 12 blocks are 40..45
    and 56..61; the log starts at its block 6 and wraps. *)

Definition jv_jmap (i : Z) : Z := if i <? 6 then 40 + i mod 6 else 50 + (6 + i mod 6).
Definition jv_sb : list Z := Eval vm_compute in
  jbd_sb_csum_set
    (jbd_set32 js_feature_incompat 0 (JBD_FEATURE_INCOMPAT_CSUM_V3 + JBD_FEATURE_INCOMPAT_64BIT + 1)
    (jbd_set32 js_start 0 6 (jbd_set32 js_sequence 0 7 (jbd_set32 js_first 0 1 (jbd_set32 js_maxlen 0 12
    (jbd_set32 js_blocksize 0 1024 (jbd_set32 jh_blocktype 0 JBD_SUPERBLOCK_V2
    (jbd_set32 jh_magic 0 JBD_MAGIC_NUMBER (replicate 1024 0))))))))).

(** Block contents: [fill v] repeats a byte, [magical] begins with the journal's magic. *)
Definition fill (v : Z) : list Z := replicate 1024 v.
Definition magical : list Z := wr jh_magic 0 (reorder32 JBD_MAGIC_NUMBER) (fill 3).
Definition junk (_ : nat) : list Z := fill 0xEE.

(** Transactions 7 and 8 are committed, 9 is not.  7 writes blocks 30 and 31, 8
    writes block 30 again and revokes block 31, 9 would write block 32. *)
Definition jv_log : list (list Z) := Eval vm_compute in
  default [] (trans_blocks jv_sb 7 junk [mk_jbuf 30 (fill 1); mk_jbuf 31 (fill 2)] []) ++
  default [] (trans_blocks jv_sb 8 junk [mk_jbuf 30 magical; mk_jbuf 33 (fill 5)] [31]) ++
  take 2 (default [] (trans_blocks jv_sb 9 junk [mk_jbuf 32 (fill 4)] [])).
Definition jv_pos (n : nat) : Z := Nat.iter n (next_pos jv_sb) 6.
(** Block [b] of the volume before the crash is recovered from. *)
Definition jv_super : list Z := Eval vm_compute in sb_set sb_magic EXT4_SUPERBLOCK_MAGIC (fill 0).
(** The blocks that are not full of their own number. *)
Definition jv_blocks : list (Z * list Z) := Eval vm_compute in
  (1, jv_super) :: zip (map (fun n => jv_jmap (jv_pos n)) (seq 0 11)) jv_log.
Definition jv_bytes : Pmap Z := Eval vm_compute in list_to_map (concat (map
  (fun '(b, d) => filter (fun p => p.2 <> u8 b) (zip (map (fun i => Z.to_pos (1 + b * 1024 + i)) (seqZ 0 1024)) d))
  jv_blocks)).
Definition jv_mem (x : Z) : Z := default (u8 ((x - 4096) / 1024)) (jv_bytes !! Z.to_pos (1 + x - 4096)).
Definition jv_block (b : Z) : list Z := medium_from (fun x => u8 (jv_mem x)) (4096 + b * 1024) (Z.to_nat 1024).
Definition jv_jc (i : Z) : list Z := jv_block (jv_jmap i).
Definition jv_records : list record := Eval vm_compute in default [] (log_records jv_sb jv_jc 12).

Example jv_log_length : length jv_log = 11%nat.
Proof. reflexivity. Qed.
Example jv_records_trans : map rec_trans jv_records = [0; 0; 1; 1; 1; 2]%nat.
Proof. reflexivity. Qed.

(** The volume under a disk [h] that can fail if [F], and can fail to write if
    [lossy]; there is memory for the window and the batch, or not. *)
Section Volume.
Context {D : Type} {HD : Host D} {HL : HostLaws D 512} (mem : bool) (F lossy : Prop) (no_mem : mem = false -> F).
Context (bread_fails : forall blk n (h : D) rc h', h_bread blk n h = (Err rc, h') -> F).
Context (bwrite_fails : forall b blk n (h : D) rc h', h_bwrite b blk n h = (Err rc, h') -> F /\ lossy).
Context (flush_ok : forall m (h : D), h_flush = Some m -> forall x, @h_byte D HD 512 HL (m h).2 x = @h_byte D HD 512 HL h x).
Definition jv_dev (h : D) : dev D := mk_dev h 512 1 0 0 4096 65536 1024 64.
Context (h0 : D).

#[local] Instance jv_raw : RawStore (dev D) := dev_raw jv_jmap mem.
#[local] Instance jv_raw_model : RawModel (dev D) := dev_model jv_jmap (ph := 512) (jv_dev h0) F lossy.

Lemma jv_jmap_range i : 40 <= jv_jmap i <= 45 \/ 56 <= jv_jmap i <= 61.
Proof. unfold jv_jmap. pose proof (Z.mod_pos_bound i 6 ltac:(lia)). case_match; lia. Qed.

#[local] Instance jv_raw_laws : RawLaws (dev D) 1024.
Proof.
  apply (dev_laws jv_jmap mem (ph := 512) (jv_dev h0)).
  - split_and!; try done. exists 9. split; [lia|done].
  - done.
  - by left.
  - done.
  - done.
  - done.
  - done.
  - done.
  - intros i. cbn. pose proof (jv_jmap_range i). lia.
  - intros i. cbn. pose proof (jv_jmap_range i). change (EXT4_SUPERBLOCK_OFFSET / 1024) with 1. lia.
  - done.
Qed.
#[local] Instance jv_io : ReplayIO (rio (dev D)) := rio_io 1024 12.
#[local] Instance jv_model : ReplayModel (rio (dev D)) := rio_model 1024 12.
#[local] Instance jv_laws : ReplayLaws (rio (dev D)).
Proof. by apply (rio_laws (St := dev D) 1024 ltac:(lia) 12 ltac:(lia) ltac:(done)). Qed.

Lemma jv_log_ok : log_ok jv_sb jv_jc 12 jv_records.
Proof.
  split.
  - vm_compute. reflexivity.
  - cbn. vm_compute. done.
  - intros pos. exact (next_pos_range jv_sb pos (conj eq_refl eq_refl)).
  - done.
  - intros c Hc _. assert (H : Forall (fun c => ti_block c.1.2 = 30 \/ ti_block c.1.2 = 33) (live_copies jv_sb (committed jv_records))).
    { apply (bool_decide_unpack _). vm_compute. exact I. }
    rewrite Forall_forall in H. specialize (H c Hc). split; [cbn; lia|]. intros [i E]. cbn in E.
    pose proof (jv_jmap_range i). lia.
Qed.
(** The journal of the volume, found and about to be recovered. *)
Definition jv_start (h : D) : jfs (rio (dev D)) :=
  mk_jfs jv_sb false jv_super None info_init (mk_rio (jv_dev h) None None).
End Volume.

(** On the ramdisk, which fails when it has no writes left, and on a disk that does
    not fail. *)
Definition jv_disk (w : Z) : ramdisk := mk_ramdisk jv_mem w.
#[export] Instance ram_io : ReplayIO (rio (dev ramdisk)) := jv_io true.
#[export] Instance ram_model : ReplayModel (rio (dev ramdisk)) := jv_model True True (jv_disk (-1)).
#[export] Instance ram_laws : ReplayLaws (rio (dev ramdisk)).
Proof. by apply (jv_laws true True True). Qed.

Record memdisk := mk_memdisk { md_mem : Z -> Z }.
#[export] Instance memdisk_host : Host memdisk := {|
  h_open := mok tt;
  h_close := mok tt;
  h_flush := None;
  h_bread blk n := mget (fun d => medium (fun x => u8 (md_mem d x)) (blk * 512) (n * 512));
  h_bwrite bs blk n := mmod (fun d => mk_memdisk
    (fun x => if (blk * 512 <=? x) && (x <? (blk + n) * 512) then byte_at bs (x - blk * 512) else md_mem d x));
  h_malloc n := mok (replicate (Z.to_nat n) 0xA5);
|}.
#[export] Instance memdisk_laws : HostLaws memdisk 512.
Proof.
  refine {| h_byte d x := u8 (md_mem d x) |}.
  - intros. apply u8_range.
  - intros. cbn. by split.
  - intros bs blk n d Hl. cbn. split; intros x Hx.
    + by replace ((blk * 512 <=? x) && (x <? (blk + n) * 512)) with false by lia.
    + replace ((blk * 512 <=? x) && (x <? (blk + n) * 512)) with true by lia. apply u8_u8.
  - intros n d Hn. cbn. split_and!; [done| |by apply Forall_replicate].
    unfold blen. rewrite length_replicate. lia.
Defined.
#[export] Instance mem_io : ReplayIO (rio (dev memdisk)) := jv_io true.
#[export] Instance mem_model : ReplayModel (rio (dev memdisk)) := jv_model False False (mk_memdisk jv_mem).
#[export] Instance mem_laws : ReplayLaws (rio (dev memdisk)).
Proof. by apply (jv_laws true False False). Qed.

(** The disk [h] with the power back, and what a run leaves. *)
Definition jv_again (h : ramdisk) : ramdisk := mk_ramdisk (rd_mem h) (-1).
Definition jv_left (j : jfs (rio (dev ramdisk))) : ramdisk := d_host (r_st (j_st j)).

Lemma jv_run_ok : (jbd_recover 12 (jv_start (jv_disk (-1)))).1 = Ok (Some EOK).
Proof. vm_compute. reflexivity. Qed.
(** Whether the batch has its memory. *)
Definition has_batch {St} (j : jfs (rio St)) : bool := match r_wb (j_st j) with Some _ => true | None => false end.
Lemma jv_run_batch : has_batch (jbd_recover 12 (jv_start (jv_disk (-1)))).2 = true.
Proof. vm_compute. reflexivity. Qed.
Lemma jv_again_batch :
  has_batch (jbd_recover 12 (jv_start (jv_again (jv_left (jbd_recover 12 (jv_start (jv_disk 1))).2)))).2 = true.
Proof. vm_compute. reflexivity. Qed.
Lemma batch_ready (j : jfs (rio (dev ramdisk))) : has_batch j = true -> rl_ready (j_st j).
Proof. unfold has_batch. intros H. left. by destruct (r_wb (j_st j)). Qed.
Lemma jv_run_cut : (jbd_recover 12 (jv_start (jv_disk 1))).1 = Ok (Some EIO).
Proof. vm_compute. reflexivity. Qed.
Lemma jv_run_again :
  (jbd_recover 12 (jv_start (jv_again (jv_left (jbd_recover 12 (jv_start (jv_disk 1))).2)))).1 = Ok (Some EOK).
Proof. vm_compute. reflexivity. Qed.

Lemma jv_log_block {D} {HD : Host D} {HL : HostLaws D 512} (h : D) i :
  (forall x, h_byte h x = u8 (jv_mem x)) -> dblk (ph := 512) (jv_dev h) (jv_jmap i) = jv_jc i.
Proof.
  intros E. unfold jv_jc, jv_block. rewrite medium_from_eq. apply medium_ext. intros x _. apply E.
Qed.

Lemma jv_inv {D} {HD : Host D} {HL : HostLaws D 512} F lossy (h0 h : D) :
  @rl_inv _ (jv_model F lossy h0) (j_st (jv_start h)).
Proof. split_and!; [done|by intros ?|by intros ? H%elem_of_nil]. Qed.
Lemma jv_settled {D} {HD : Host D} {HL : HostLaws D 512} F lossy (h0 h : D) :
  @settled _ (jv_model F lossy h0) (j_st (jv_start h)).
Proof. intros b. split; [done|]. apply not_elem_of_nil. Qed.
Lemma jv_on_log {D} {HD : Host D} {HL : HostLaws D 512} F lossy (h0 h : D) :
  (forall x, h_byte h x = u8 (jv_mem x)) -> @on_log _ (jv_model F lossy h0) jv_sb jv_jc (jv_start h).
Proof. intros E. split; [done|apply jv_inv|]. intros i. by apply jv_log_block. Qed.

(** ** A write that is lost

    A disk that cannot write sector [bk_bad].  Without memory for the batch, recovery
    reports success, declares the log empty, and block 30 keeps what it held before;
    with the memory the same disk makes it report the error. *)

Record baddisk := mk_baddisk { bk_mem : Z -> Z; bk_bad : Z }.
#[export] Instance baddisk_host : Host baddisk := {|
  h_open := mok tt;
  h_close := mok tt;
  h_flush := None;
  h_bread blk n := mget (fun d => medium_from (fun x => u8 (bk_mem d x)) (blk * 512) (Z.to_nat (n * 512)));
  h_bwrite bs blk n := fun d =>
    if (blk <=? bk_bad d) && (bk_bad d <? blk + n) then (Err EIO, d)
    else (Ok tt, mk_baddisk
            (fun x => if (blk * 512 <=? x) && (x <? (blk + n) * 512) then byte_at bs (x - blk * 512) else bk_mem d x)
            (bk_bad d));
  h_malloc n := mok (replicate (Z.to_nat n) 0xA5);
|}.
(** The sector block 30 begins at: the volume begins at sector 8. *)
Definition bad_run (mem : bool) : result (option Z) * jfs (rio (dev baddisk)) :=
  jbd_recover (RI := jv_io mem) 12 (jv_start (mk_baddisk jv_mem (8 + 2 * 30))).
Definition bad_block (j : jfs (rio (dev baddisk))) (b : Z) : list Z :=
  medium_from (fun x => u8 (bk_mem (d_host (r_st (j_st j))) x)) (4096 + b * 1024) (Z.to_nat 1024).

Lemma bad_block_lost :
  (bad_run false).1 = Ok (Some EOK) /\ rd js_start 0 (j_sb (bad_run false).2) = 0 /\
  bad_block (bad_run false).2 30 = fill 30 /\ bad_block (bad_run false).2 33 = fill 5.
Proof. split_and!; vm_compute; reflexivity. Qed.
Lemma bad_block_reported :
  (bad_run true).1 = Ok (Some EIO) /\ rd js_start 0 (j_sb (bad_run true).2) = rd js_start 0 jv_sb.
Proof. split; vm_compute; reflexivity. Qed.

(** ** Recovery *)

Section Properties.
Context {St : Type} {RI : ReplayIO St} {RM : ReplayModel St} {RL : ReplayLaws St}.

Lemma run_outcome fuel sb jc l (j j' : jfs St) r :
  on_log sb jc j -> (forall b, ~ rl_pend (j_st j) b) -> log_ok sb jc fuel l -> rd js_start 0 sb <> 0 ->
  jbd_recover fuel j = (r, j') -> exists rc, r = Ok (Some rc) /\ outcome sb jc j l rc j'.
Proof. intros L P HL Hs Hrun. exact (wp_run _ _ _ _ _ Hrun (recover_run sb jc fuel l j L P HL Hs)). Qed.

(** The medium differs at most where the replay may write. *)
Lemma disk_elsewhere sb l (j j' : jfs St) b :
  frame (target sb (committed l)) (j_st j) (j_st j') -> (forall b, ~ rl_pend (j_st j) b) ->
  b <> rl_sblock -> b ∉ map (fun c => ti_block c.1.2) (live_copies sb (committed l)) ->
  rl_disk (j_st j') b = rl_disk (j_st j) b.
Proof. intros F P Hbs Hb. destruct (fr_disk _ _ _ F b) as [E|[Hp|[Ht|Ht]]]; [done|by destruct (P b)|done|done]. Qed.

(** C1: recovery refines the replay of the committed transactions.  On any log whose
    walk ends and whose copies go to blocks of the volume outside the journal, a
    [jbd_recover] that reports success leaves in every block but the superblock's, in
    the cache and on the medium, the copy a committed transaction logged last, unless
    a later committed transaction, or the same (the code's rule: two comments of
    ext4_journal.c say the opposite), revokes the block; a block that is not logged,
    or whose copies are all revoked, keeps what it held.  The condition
    [rl_ready (j_st j')]: in this run the batch got its memory, or no write fails when
    a block is released; without it the code drops a failed write home and still
    reports success ([bad_block_lost]).  In any case blocks without a copy to replay
    are untouched on the medium, the log is declared empty, and the counts of
    transactions and of blocks replayed are published. *)
Theorem recovery_is_replay (fuel : nat) (sb : list Z) (jc : Z -> list Z) (l : list record) (j j' : jfs St)
  (L : on_log sb jc j) (P : forall b, ~ rl_pend (j_st j) b) (HL : log_ok sb jc fuel l) (Hs : rd js_start 0 sb <> 0)
  (Hrun : jbd_recover fuel j = (Ok (Some EOK), j')) :
  (rl_ready (j_st j') -> forall b, b <> 0 -> b <> rl_sblock ->
    rl_home (j_st j') b = replayed sb jc l (rl_home (j_st j)) b /\
    rl_disk (j_st j') b = replayed sb jc l (rl_home (j_st j)) b) /\
  (forall b, b <> rl_sblock -> b ∉ map (fun c => ti_block c.1.2) (live_copies sb (committed l)) ->
    rl_disk (j_st j') b = rl_disk (j_st j) b) /\
  j_sb j' = emptied sb l /\
  j_last_recovery j' = Some (Z.of_nat (commits l), u32 (Z.of_nat (length (live_copies sb (committed l)))),
                             jbd_get32 js_maxlen 0 sb).
Proof.
  destruct (run_outcome _ _ _ _ _ _ _ L P HL Hs Hrun) as (rc & [= <-] & [F Hlog _ Hok]).
  destruct (Hok eq_refl) as (E & Hhome & Hrec). split_and!; [| |done..].
  - intros Hr b Hb0 Hbs. split; [by apply Hhome|]. destruct Hlog as [(Hne & _)|(_ & _ & Hd)]; [done|by apply Hd].
  - intros b Hbs Hb. by eapply disk_elsewhere.
Qed.

(** C3: an interrupted recovery can be run again.  Let a first [jbd_recover] end in any
    way (an operation failed, a write was lost, or the power went: every later
    operation fails), and let the volume be opened again with nothing in front of the
    medium the first run left.  If the second [jbd_recover] reports success, and in
    this second run the batch got its memory or no write fails when a block is
    released ([rl_ready (j_st j2')]; otherwise a write home can be lost unreported),
    every block but the superblock's holds what one uninterrupted replay over the
    original medium leaves: the blocks the first run got home, or tore, make no
    difference. *)
Theorem recovery_restarts (fuel : nat) (sb : list Z) (jc : Z -> list Z) (l : list record) (j1 j1' j2 j2' : jfs St)
  (r1 : result (option Z)) (HL : log_ok sb jc fuel l) (Hs : rd js_start 0 sb <> 0)
  (L1 : on_log sb jc j1) (S1 : settled (j_st j1)) (Hrun1 : jbd_recover fuel j1 = (r1, j1'))
  (L2 : on_log sb jc j2) (S2 : settled (j_st j2)) (Hsame : forall b, rl_disk (j_st j2) b = rl_disk (j_st j1') b)
  (Hrun2 : jbd_recover fuel j2 = (Ok (Some EOK), j2')) (Hready : rl_ready (j_st j2')) :
  forall b, b <> 0 -> b <> rl_sblock ->
    rl_disk (j_st j2') b = replayed sb jc l (rl_disk (j_st j1)) b.
Proof.
  destruct (run_outcome _ _ _ _ _ _ _ L1 (fun b => proj2 (S1 b)) HL Hs Hrun1) as (rc1 & _ & [F1 _ _ _]).
  destruct (run_outcome _ _ _ _ _ _ _ L2 (fun b => proj2 (S2 b)) HL Hs Hrun2) as (rc2 & [= <-] & [_ Hlog _ _]).
  intros b Hb0 Hbs. destruct Hlog as [(Hne & _)|(_ & _ & Hd)]; [done|]. rewrite (Hd Hready b Hb0 Hbs).
  apply replayed_target. rewrite (proj1 (S2 b)), Hsame.
  destruct (fr_disk _ _ _ F1 b) as [E|[Hp|[Ht|Ht]]]; [by right|by destruct (S1 b)|done|by left].
Qed.

(** C39: a recovery that fails keeps the log.  When [jbd_recover] reports an error,
    either the journal's superblock is as it was, in memory and so on the medium
    (nothing marks it dirty), and the log will be replayed by the next mount; or the
    log has been declared empty in memory and only the file system's superblock could
    not be written, with every replayed block on the medium already if the batch had
    its memory in this run or no write fails when a block is released
    ([rl_ready (j_st j')]).  Whatever happened, the medium differs at most in blocks
    that the committed transactions logged, and in the superblock's. *)
Theorem recovery_failure_keeps_log (fuel : nat) (sb : list Z) (jc : Z -> list Z) (l : list record) (j j' : jfs St)
  (rc : Z) (L : on_log sb jc j) (P : forall b, ~ rl_pend (j_st j) b) (HL : log_ok sb jc fuel l)
  (Hs : rd js_start 0 sb <> 0) (Hrun : jbd_recover fuel j = (Ok (Some rc), j')) (Hrc : rc <> EOK) :
  ((j_sb j' = sb /\ j_dirty j' = j_dirty j) \/
   (j_sb j' = emptied sb l /\ (rl_ready (j_st j') -> forall b, b <> 0 -> b <> rl_sblock ->
      rl_disk (j_st j') b = replayed sb jc l (rl_home (j_st j)) b))) /\
  forall b, b <> rl_sblock -> b ∉ map (fun c => ti_block c.1.2) (live_copies sb (committed l)) ->
    rl_disk (j_st j') b = rl_disk (j_st j) b.
Proof.
  destruct (run_outcome _ _ _ _ _ _ _ L P HL Hs Hrun) as (rc' & [= <-] & [F Hlog _ _]). split.
  - destruct Hlog as [(_ & H1 & H2)|(H1 & _ & H2)]; [by left|by right].
  - intros b Hbs Hb. by eapply disk_elsewhere.
Qed.

(** C40: recovery completes.  On a log whose walk ends within [fuel] blocks
    [jbd_recover] returns, and over a store no operation of which fails it returns
    EOK, or EIO for the one reason that the superblock the replay left cannot be
    used; with EOK, the log is declared empty. *)
Theorem recovery_completes (fuel : nat) (sb : list Z) (jc : Z -> list Z) (l : list record) (j : jfs St)
  (L : on_log sb jc j) (P : forall b, ~ rl_pend (j_st j) b) (HL : log_ok sb jc fuel l)
  (Hs : rd js_start 0 sb <> 0) (Hnofault : ~ rl_faulty) :
  exists rc j', jbd_recover fuel j = (Ok (Some rc), j') /\
    ((rc = EOK /\ j_sb j' = emptied sb l) \/ (rc = EIO /\ unusable (j_fs_sb j') = true)).
Proof.
  destruct (jbd_recover fuel j) as [r j'] eqn:Hrun.
  destruct (run_outcome _ _ _ _ _ _ _ L P HL Hs Hrun) as (rc & -> & [_ _ Hf Hok]). exists rc, j'. split; [done|].
  destruct (Z.eq_dec rc EOK) as [E|E]; [left; by destruct (Hok E)|right]. by destruct (Hf E) as [?|?].
Qed.
End Properties.

(** ** The properties on the sample volume *)

Lemma jv_disk_byte w x : h_byte (jv_disk w) x = u8 (jv_mem x).
Proof. done. Qed.

Lemma jv_clear (h : ramdisk) b : ~ rl_pend (j_st (jv_start h)) b.
Proof. exact (proj2 (jv_settled True True (jv_disk (-1)) h b)). Qed.
Lemma jv_log_ram w : on_log jv_sb jv_jc (jv_start (jv_disk w)).
Proof. exact (jv_on_log True True (jv_disk (-1)) (jv_disk w) (jv_disk_byte w)). Qed.
Lemma jv_ok_ram : log_ok (St := rio (dev ramdisk)) jv_sb jv_jc 12 jv_records.
Proof. exact (jv_log_ok True True (jv_disk (-1))). Qed.
Lemma jv_runs : rd js_start 0 jv_sb <> 0.
Proof. done. Qed.
Lemma jv_replayed h :
  replayed jv_sb jv_jc jv_records h 30 = magical /\ replayed jv_sb jv_jc jv_records h 31 = h 31 /\
  replayed jv_sb jv_jc jv_records h 33 = fill 5.
Proof. split_and!; vm_compute; reflexivity. Qed.

Lemma recovery_is_replay_witness : exists j',
  jbd_recover 12 (jv_start (jv_disk (-1))) = (Ok (Some EOK), j') /\
  (rl_disk (j_st j') 30 = magical /\ rl_disk (j_st j') 33 = fill 5) /\
  j_last_recovery j' = Some (2, 3, 12).
Proof.
  pose proof jv_run_ok as H. pose proof jv_run_batch as HB.
  destruct (jbd_recover 12 (jv_start (jv_disk (-1)))) as [r j'] eqn:E. cbn [fst snd] in H, HB. subst r. exists j'. split; [exact eq_refl|].
  destruct (recovery_is_replay 12 jv_sb jv_jc jv_records _ j' (jv_log_ram _) (jv_clear _) jv_ok_ram jv_runs E) as (Hb & _ & _ & Hr).
  specialize (Hb (batch_ready _ HB)). split; [|etransitivity; [exact Hr|vm_compute; reflexivity]].
  split; (etransitivity; [apply Hb; by vm_compute|apply jv_replayed]).
Defined.

(** The volume opened again after a run holds what the run left. *)
Lemma jv_reopen j b : rl_inv (j_st j) -> rl_disk (j_st (jv_start (jv_again (jv_left j)))) b = rl_disk (j_st j) b.
Proof.
  intros (C & _). apply dblk_ext; [exact (eq_sym C)|]. intros x. reflexivity.
Qed.
Lemma jv_log_again j r :
  jbd_recover 12 (jv_start (jv_disk 1)) = (r, j) -> on_log jv_sb jv_jc (jv_start (jv_again (jv_left j))).
Proof.
  intros E. destruct (run_outcome _ _ _ _ _ _ _ (jv_log_ram 1) (jv_clear _) jv_ok_ram jv_runs E) as (rc & _ & [[F1 F2 _ _] _ _ _]).
  split; [done|exact (jv_inv True True (jv_disk (-1)) _)|]. intros i. rewrite <- (ol_log _ _ _ (jv_log_ram 1) i), <- F2.
  by apply (jv_reopen j (jv_jmap i)).
Qed.

Lemma recovery_restarts_witness : exists j1' j2',
  jbd_recover 12 (jv_start (jv_disk 1)) = (Ok (Some EIO), j1') /\
  jbd_recover 12 (jv_start (jv_again (jv_left j1'))) = (Ok (Some EOK), j2') /\
  rl_disk (j_st j2') 30 = magical /\ rl_disk (j_st j2') 33 = fill 5.
Proof.
  pose proof jv_run_cut as H1. pose proof jv_run_again as H2. pose proof jv_again_batch as HB.
  destruct (jbd_recover 12 (jv_start (jv_disk 1))) as [r1 j1'] eqn:E1. cbn [fst snd] in H1, H2, HB. subst r1.
  destruct (jbd_recover 12 (jv_start (jv_again (jv_left j1')))) as [r2 j2'] eqn:E2. cbn [fst snd] in H2, HB. subst r2.
  exists j1', j2'. split; [exact eq_refl|]. split; [exact E2|].
  destruct (run_outcome _ _ _ _ _ _ _ (jv_log_ram 1) (jv_clear _) jv_ok_ram jv_runs E1) as (rc & _ & [[F1 _ _ _] _ _ _]).
  split; (etransitivity; [apply (recovery_restarts 12 jv_sb jv_jc jv_records _ j1' _ j2' _ jv_ok_ram jv_runs (jv_log_ram 1)
    (jv_settled True True (jv_disk (-1)) (jv_disk 1)) E1 (jv_log_again j1' _ E1) (jv_settled True True (jv_disk (-1)) _)
    (fun b => jv_reopen j1' b F1) E2 (batch_ready _ HB)); by vm_compute|apply jv_replayed]).
Defined.

Lemma recovery_failure_keeps_log_witness : exists j',
  jbd_recover 12 (jv_start (jv_disk 1)) = (Ok (Some EIO), j') /\ rl_disk (j_st j') 31 = fill 31.
Proof.
  pose proof jv_run_cut as H.
  destruct (jbd_recover 12 (jv_start (jv_disk 1))) as [r j'] eqn:E. cbn [fst] in H. subst r. exists j'. split; [exact eq_refl|].
  destruct (recovery_failure_keeps_log 12 jv_sb jv_jc jv_records _ j' EIO (jv_log_ram _) (jv_clear _) jv_ok_ram jv_runs E
    ltac:(done)) as [_ Hd].
  etransitivity; [apply Hd; [by vm_compute|apply (bool_decide_unpack _); by vm_compute]|vm_compute; reflexivity].
Defined.

Lemma recovery_completes_witness : exists rc j',
  jbd_recover 12 (jv_start (mk_memdisk jv_mem)) = (Ok (Some rc), j') /\
  ((rc = EOK /\ j_sb j' = emptied jv_sb jv_records) \/ (rc = EIO /\ unusable (j_fs_sb j') = true)).
Proof.
  exact (recovery_completes 12 jv_sb jv_jc jv_records (jv_start (mk_memdisk jv_mem))
    (jv_on_log False False (mk_memdisk jv_mem) (mk_memdisk jv_mem) (fun x => eq_refl))
    (fun b => proj2 (jv_settled False False (mk_memdisk jv_mem) (mk_memdisk jv_mem) b))
    (jv_log_ok False False (mk_memdisk jv_mem)) jv_runs (fun H => H)).
Defined.
