(* ===== verification/CommitProps.v ===== *)
(** * Commits survive

    What a commit lays out in the journal is read back by recovery, and recovery
    puts on the medium what the committed transactions wrote; on the sample volume
    of JournalProps as well. *)

From S2P Require Import Prelude Layout Types Crc Super Device Jbd JbdLaws JbdWrite JbdRecover RecoverSpec RecoverLaws.
From S2P Require Import ReplayPass RecoverProps JbdBatch BatchLaws JbdDev CommitLaws CommitReplay JournalProps.

(** C4: commit and recovery agree on the format of the log.  For transactions whose
    buffers are whole blocks with addresses that fit the format, the code that lays a
    commit out ends, and gives blocks such that: a journal that holds them one after
    the other from its start on, wrapping at the end of the ring, and after them
    anything without a further commit block, is walked by recovery as exactly these
    transactions; replaying it leaves in each block the data (escaped copies
    included) of the last transaction that wrote it, and leaves alone a block that a
    later transaction, or the same, revoked (that a revoke of the same transaction
    counts is the rule of the code; two comments of ext4_journal.c say it does not). *)
Theorem commits_are_read_back (sb : list Z) (junk : nat -> nat -> list Z) (ts : list txn) (Hsb : sb_ok sb)
  (Hjunk : forall k i, bytes_ok (junk k i) /\ blen (junk k i) = jbd_blocksize sb) (Hts : Forall (txn_ok sb) ts) :
  exists blocks, log_of sb junk 0 ts = Some blocks /\
    forall jc more tail fuel, committed_log sb jc junk ts blocks more tail -> (length blocks + more <= fuel)%nat ->
    exists l, log_records sb jc fuel = Some l /\ commits l = length ts /\
      forall h b, replayed sb jc l h b = durable ts h b.
Proof.
  destruct (log_of_total sb Hsb junk Hjunk ts Hts 0) as [blocks E]. exists blocks. split; [done|].
  intros jc more tail fuel C Hf. destruct (committed_log_read sb jc Hsb junk Hjunk ts blocks more tail fuel C Hf)
    as (l & ? & ? & _ & _ & ?). eauto.
Qed.

Section Properties.
Context {St : Type} {RI : ReplayIO St} {RM : ReplayModel St} {RL : ReplayLaws St}.

(** C2: a committed transaction survives a crash.  Let the journal hold the commits
    of the transactions [ts] from its start on, and after them an unfinished commit or
    anything else without a commit block, and let the copies go to blocks outside the
    journal.  If [jbd_recover] reports success, and in this run the batch got its
    memory or no write fails when a block is released ([rl_ready (j_st j')]: without
    either the code drops a failed write home and reports success, [bad_block_lost]),
    then every block but the superblock's holds, on the medium, what the transactions
    leave in it: none of what was committed is lost, whatever part of it had reached
    the blocks before the crash, and nothing of the unfinished commit is applied.  A
    block revoked in the transaction that wrote it is not replayed, as the code has
    it; two comments of ext4_journal.c say it is. *)
Theorem committed_survives (sb : list Z) (jc : Z -> list Z) (junk : nat -> nat -> list Z) (ts : list txn)
  (blocks : list (list Z)) (more fuel : nat) (tail : list record) (j j' : jfs St) (Hsb : sb_ok sb)
  (Hjunk : forall k i, bytes_ok (junk k i) /\ blen (junk k i) = jbd_blocksize sb)
  (C : committed_log sb jc junk ts blocks more tail) (Hf : (length blocks + more <= fuel)%nat)
  (Hlen : Z.of_nat (length blocks + length tail) < 2 ^ 31)
  (Hstart : rl_inlog (jbd_get32 js_start 0 sb)) (Hnext : forall pos, rl_inlog pos -> rl_inlog (next_pos sb pos))
  (Hhome : forall t jb, t ∈ ts -> jb ∈ tx_bufs t -> jb_lba jb <> 0 -> rl_allowed (jb_lba jb))
  (L : on_log sb jc j) (P : forall b, ~ rl_pend (j_st j) b) (Hrun : jbd_recover fuel j = (Ok (Some EOK), j'))
  (Hready : rl_ready (j_st j')) :
  forall b, b <> 0 -> b <> rl_sblock -> rl_disk (j_st j') b = durable ts (rl_home (j_st j)) b.
Proof.
  destruct (committed_log_read sb jc Hsb junk Hjunk ts blocks more tail fuel C Hf) as (l & Hl & _ & Hn & Hb & Hr).
  assert (HL : log_ok sb jc fuel l).
  { split; try done; [lia|]. intros c Hc H0. destruct (Hb (ti_block c.1.2)) as (t & jb & Ht & Hj & E).
    - apply list_elem_of_fmap. by exists c.
    - rewrite E in *. by apply (Hhome t). }
  assert (Hs : rd js_start 0 sb <> 0).
  { intros E. destruct C as [[H _] _ _ _ _ _ _].
    assert (jbd_get32 js_start 0 sb = 0) by (unfold jbd_get32; by rewrite E). lia. }
  destruct (run_outcome _ _ _ _ _ _ _ L P HL Hs Hrun) as (rc & [= <-] & [_ Hlog _ _]).
  intros b Hb0 Hbs. rewrite <- Hr. destruct Hlog as [(Hne & _)|(_ & _ & Hd)]; [done|by apply Hd].
Qed.
End Properties.

(** ** The sample volume *)

Definition jv_txns : list txn :=
  [mk_txn [mk_jbuf 30 (fill 1); mk_jbuf 31 (fill 2)] []; mk_txn [mk_jbuf 30 magical; mk_jbuf 33 (fill 5)] [31]].
Definition jv_junk (k i : nat) : list Z := junk i.
Definition jv_tail : list record := Eval vm_compute in drop 5 jv_records.

Lemma jv_sb_ok : sb_ok jv_sb.
Proof. split; try done. by apply (bool_decide_unpack _); vm_compute. Qed.
Lemma fill_bytes v : 0 <= v < 256 -> bytes_ok (fill v).
Proof. intros H. by apply Forall_replicate. Qed.
Lemma jv_junk_ok k i : bytes_ok (jv_junk k i) /\ blen (jv_junk k i) = jbd_blocksize jv_sb.
Proof. split; [by apply fill_bytes|reflexivity]. Qed.
Lemma jv_txns_ok : Forall (txn_ok jv_sb) jv_txns.
Proof.
  assert (B : forall a v, 0 <= a < 64 -> 0 <= v < 256 -> buf_ok jv_sb (mk_jbuf a (fill v))).
  { intros a v Ha Hv. split; [change (addr_limit jv_sb) with (2 ^ 64); cbn; lia|]. split; [reflexivity|by apply fill_bytes]. }
  assert (M : buf_ok jv_sb (mk_jbuf 30 magical)).
  { split; [done|]. split; [reflexivity|]. by apply (bool_decide_unpack _); vm_compute. }
  unfold jv_txns, txn_ok. rewrite !Forall_cons, !Forall_nil. cbn [tx_bufs tx_revokes]. rewrite !Forall_cons, !Forall_nil.
  unfold addr_ok. change (addr_limit jv_sb) with (2 ^ 64).
  split_and!; (exact M || (apply B; lia) || lia || exact I || (intros; discriminate)).
Qed.
Lemma jv_homes : Forall (fun t => Forall (fun jb => 30 <= jb_lba jb <= 33) (tx_bufs t)) jv_txns.
Proof. unfold jv_txns. rewrite !Forall_cons, !Forall_nil. cbn [tx_bufs]. rewrite !Forall_cons, !Forall_nil. cbn [jb_lba]. lia. Qed.
Lemma jv_committed : committed_log jv_sb jv_jc jv_junk jv_txns (take 9 jv_log) 2 jv_tail.
Proof.
  split.
  - done.
  - exact jv_txns_ok.
  - vm_compute. reflexivity.
  - done.
  - intros i b Hi. assert (H : forallb (fun p => bool_decide (jv_jc (Nat.iter p.1 (next_pos jv_sb) (jbd_get32 js_start 0 jv_sb)) = p.2))
      (imap pair (take 9 jv_log)) = true) by (vm_compute; reflexivity).
    rewrite forallb_forall in H. apply (bool_decide_unpack (_ = b)), Is_true_true. apply (H (i, b)).
    apply list_elem_of_In, (list_elem_of_lookup_2 _ i). by rewrite list_lookup_imap, Hi.
  - vm_compute. reflexivity.
  - done.
Qed.

Lemma commits_are_read_back_witness : exists l, log_records jv_sb jv_jc 12 = Some l /\ commits l = 2%nat /\
  replayed jv_sb jv_jc l (fun _ => fill 9) 30 = magical /\ replayed jv_sb jv_jc l (fun _ => fill 9) 31 = fill 9.
Proof.
  destruct (commits_are_read_back jv_sb jv_junk jv_txns jv_sb_ok jv_junk_ok jv_txns_ok) as (blocks & E & H).
  pose proof jv_committed as C. rewrite (cl_blocks _ _ _ _ _ _ _ C) in E. injection E as <-.
  destruct (H jv_jc 2%nat jv_tail 12%nat C ltac:(vm_compute; lia)) as (l & ? & ? & Hr).
  exists l. rewrite !Hr. split_and!; [assumption..|vm_compute; reflexivity|vm_compute; reflexivity].
Defined.

Lemma committed_survives_witness : exists j',
  jbd_recover 12 (jv_start (jv_disk (-1))) = (Ok (Some EOK), j') /\
  rl_disk (j_st j') 30 = magical /\ rl_disk (j_st j') 31 = fill 31 /\ rl_disk (j_st j') 32 = fill 32.
Proof.
  pose proof jv_run_ok as H. pose proof jv_run_batch as HB. pose proof jv_ok_ram as [_ Hstart Hnext _ _].
  destruct (jbd_recover 12 (jv_start (jv_disk (-1)))) as [r j'] eqn:E. cbn [fst snd] in H, HB. subst r. exists j'. split; [exact eq_refl|].
  assert (Hhome : forall t jb, t ∈ jv_txns -> jb ∈ tx_bufs t -> jb_lba jb <> 0 -> rl_allowed (St := rio (dev ramdisk)) (jb_lba jb)).
  { intros t jb Ht Hj _. pose proof (proj1 (Forall_forall _ _) (proj1 (Forall_forall _ _) jv_homes t Ht) jb Hj) as Hr. cbv beta in Hr.
    split; [cbn; lia|]. intros [i Ei]. cbn in Ei. pose proof (jv_jmap_range i). lia. }
  pose proof (committed_survives jv_sb jv_jc jv_junk jv_txns _ 2 12 jv_tail _ j' jv_sb_ok jv_junk_ok jv_committed
    ltac:(vm_compute; lia) ltac:(done) Hstart Hnext Hhome (jv_log_ram _) (jv_clear _) E
    (batch_ready _ HB)) as Hb.
  split_and!; (etransitivity; [apply Hb; by vm_compute|vm_compute; reflexivity]).
Defined.
