(* ===== verification/Store.v ===== *)
(** * The block store

    What the allocators and the group references need of the layers below: the
    calls of src/ext4_trans.c and src/ext4_blockdev.c they make, as a class, and the
    contract of these calls against an abstract store (the contents of every
    block, the number of handles on every block and the set of blocks that were
    stored to and not yet marked dirty).  The cache of Bcache.v, with no journal
    running, keeps the contract whatever the device does. *)

From S2P Require Import Prelude Types Device Bcache BcacheLaws CacheSpec CacheProps Trans.

Class BlockStore (St : Type) := {
  (** [ext4_trans_block_get], [ext4_trans_block_get_noread], [ext4_block_set],
      [ext4_trans_set_block_dirty], [ext4_trans_try_revoke_block]. *)
  bs_get : Z -> M St unit;
  bs_get_noread : Z -> M St unit;
  bs_set : Z -> M St unit;
  bs_dirty : Z -> M St unit;
  bs_revoke : Z -> M St unit;
  (** [b.data], read and stored through. *)
  bs_read : Z -> St -> list Z;
  bs_store : Z -> list Z -> St -> St;
  (** [ext4_bcache_test_flag(b.buf, BC_DIRTY)]; whether a fetch is refused before
      the handle is touched. *)
  bs_is_dirty : Z -> St -> bool;
  bs_refuses : Z -> St -> bool;
  (** [ext4_bcache_invalidate_lba], [ext4_blocks_set_direct], [ext4_calloc]. *)
  bs_invalidate : Z -> Z -> St -> St;
  bs_set_direct : list Z -> Z -> Z -> M St unit;
  bs_calloc : Z -> M St unit;
  (** [ext4_sb_read], [ext4_sb_write]. *)
  bs_sb_read : M St (list Z);
  bs_sb_write : list Z -> M St unit;
}.

(** The contract.  [bs_abs n s c h p]: [s] stands for contents [c] and handles
    [h]; the blocks of [p] were stored to through a handle and wait to be marked
    dirty.  [n] bounds the fetches so far. *)
Class BlockStoreLaws (St : Type) {BS : BlockStore St} (bsz : Z) := {
  bs_abs : Z -> St -> (Z -> list Z) -> (Z -> Z) -> gset Z -> Prop;

  bs_contents n s c h p a : bs_abs n s c h p -> blen (c a) = bsz /\ bytes_ok (c a);
  bs_handles n s c h p a : bs_abs n s c h p -> 0 <= h a;
  bs_weaken n n' s c c' h h' p p' :
    bs_abs n s c h p -> n <= n' < 2 ^ 32 -> (forall a, c' a = c a) -> (forall a, h' a = h a) ->
    p ⊆ p' -> bs_abs n' s c' h' p';
  bs_budget n s c h p : bs_abs n s c h p -> n < 2 ^ 32;

  bs_get_wp n s c h p a :
    bs_abs n s c h p -> n + 1 < 2 ^ 32 -> 0 <= a -> a ∉ p ->
    wp (bs_get a) s (fun r s' =>
      match r with
      | Ok _ => a <> 0 /\ bs_abs (n + 1) s' c (fupd a (h a + 1) h) p
      | Err rc => rc <> EOK /\ bs_abs (n + 1) s' c h p
      end);
  bs_get_noread_wp n s c h p a :
    bs_abs n s c h p -> n + 1 < 2 ^ 32 -> 0 <= a ->
    wp (bs_get_noread a) s (fun r s' =>
      match r with
      | Ok _ => a <> 0 /\ exists d, (0 < h a -> d = c a) /\
                  bs_abs (n + 1) s' (fupd a d c) (fupd a (h a + 1) h) ({[a]} ∪ p)
      | Err rc => rc <> EOK /\ bs_abs (n + 1) s' c h p
      end);
  bs_set_wp n s c h p a :
    bs_abs n s c h p -> 0 < h a -> a ∉ p ->
    wp (bs_set a) s (fun r s' => r = Ok tt /\ bs_abs n s' c (fupd a (h a - 1) h) p);
  bs_dirty_wp n s c h p a :
    bs_abs n s c h p -> 0 < h a ->
    wp (bs_dirty a) s (fun r s' => r = Ok tt /\ bs_abs n s' c h (p ∖ {[a]}));
  bs_revoke_wp n s c h p a :
    bs_abs n s c h p -> n + 1 < 2 ^ 32 -> 0 <= a -> a ∉ p ->
    wp (bs_revoke a) s (fun r s' =>
      (forall rc, r = Err rc -> rc <> EOK) /\ bs_abs (n + 1) s' c h p);
  bs_read_abs n s c h p a : bs_abs n s c h p -> 0 < h a -> bs_read a s = c a;
  bs_store_abs n s c h p a d :
    bs_abs n s c h p -> 0 < h a -> blen d = bsz -> bytes_ok d ->
    bs_abs n (bs_store a d s) (fupd a d c) h ({[a]} ∪ p);
  bs_store_dirty_abs n s c h p a d :
    bs_abs n s c h p -> 0 < h a -> bs_is_dirty a s = true -> blen d = bsz -> bytes_ok d ->
    bs_abs n (bs_store a d s) (fupd a d c) h p;
  bs_invalidate_abs n s c h p a k :
    bs_abs n s c h p -> 0 <= a -> 0 < k -> a + k < 2 ^ 64 ->
    (forall x, a <= x < a + k -> h x = 0) ->
    exists c', (forall x, ~ (a <= x < a + k) -> c' x = c x) /\
      bs_abs n (bs_invalidate a k s) c' h p;
}.

(** ** The cache as a block store *)

Lemma on_buf_ext lba f g c :
  (forall b, c_lba_root c !! lba = Some b -> f b = g b) -> on_buf lba f c = on_buf lba g c.
Proof.
  intros H. unfold on_buf, c_on_lba.
  replace (alter g lba (c_lba_root c)) with (alter f lba (c_lba_root c)); [done|].
  apply map_eq. intros a. destruct (decide (a = lba)) as [->|Ha]; [|by rewrite !lookup_alter_ne].
  rewrite !lookup_alter_eq. destruct (c_lba_root c !! lba) as [x|] eqn:Ex; [|done].
  cbn. by rewrite H.
Qed.

Section Invalidate.
Context (n item lim : Z) (c : bcache) (lba : Z) (b : buf).
Context (W : cwf n item lim c) (Hb : c_lba_root c !! lba = Some b).

(** Clearing both flags of a dirty buffer is clearing them one after the other. *)
Lemma invalidate_dirty :
  drt b = true -> b_end_write b = None ->
  ext4_bcache_invalidate_buf lba c = on_buf lba ext4_bcache_clear_dirty (bc_clean lba c).
Proof.
  intros Ed En. unfold ext4_bcache_invalidate_buf, ext4_buf_lookup. rewrite Hb. fold (drt b). rewrite Ed.
  assert (E0 : on_buf lba buf_no_end_write c = c).
  { unfold on_buf, c_on_lba. rewrite (alter_as_put _ _ b) by done.
    replace (buf_no_end_write b) with b by (destruct b; cbn in *; by subst).
    rewrite put_same by done. by destruct c. }
  rewrite E0. unfold bc_clean. rewrite on_buf_on_buf. apply on_buf_ext. intros x _.
  unfold ext4_bcache_clear_dirty, ext4_bcache_clear_flag. cbn. f_equal.
  apply Z.bits_inj'. intros m Hm. rewrite !Z.ldiff_spec by done.
  generalize (Z.testbit (b_flags x) m) (Z.testbit (Z.shiftl 1 BC_UPTODATE) m) (Z.testbit (Z.shiftl 1 BC_DIRTY) m).
  by intros [] [] [].
Qed.
Lemma invalidate_clean :
  drt b = false -> b_end_write b = None ->
  ext4_bcache_invalidate_buf lba c = on_buf lba ext4_bcache_clear_dirty c.
Proof.
  intros Ed En. unfold ext4_bcache_invalidate_buf, ext4_buf_lookup. rewrite Hb. fold (drt b).
  rewrite Ed, on_buf_on_buf. apply on_buf_ext. intros x Hx. assert (x = b) as -> by congruence.
  f_equal. destruct b. cbn in *. by subst.
Qed.

Lemma clear_dirty_flags b0 :
  utd (ext4_bcache_clear_dirty b0) = false /\ drt (ext4_bcache_clear_dirty b0) = false /\
  ext4_bcache_test_flag (ext4_bcache_clear_dirty b0) BC_TMP = ext4_bcache_test_flag b0 BC_TMP.
Proof.
  unfold utd, drt, ext4_bcache_clear_dirty.
  split_and!; rewrite !test_clear_flag by done; cbn [BC_UPTODATE BC_DIRTY BC_TMP Z.eqb Pos.eqb negb];
    by rewrite ?andb_false_r, ?andb_true_r.
Qed.

Lemma invalidate_buf_shape :
  let c' := ext4_bcache_invalidate_buf lba c in
  (exists b', c_lba_root c' = put lba (Some b') (c_lba_root c) /\
    utd b' = false /\ b_refctr b' = b_refctr b /\ b_data b' = b_data b) /\
  c_io_err c' = c_io_err c /\ c_dont_shake c' = c_dont_shake c /\ cwf n item lim c'.
Proof.
  cbv zeta. pose proof (buf_of n item lim c lba b W Hb) as [B1 B2 B3 B4 B5 B6 B7 B8 B9 B10].
  destruct (drt b) eqn:Ed.
  - rewrite invalidate_dirty by done.
    destruct (clean_shape n item lim c lba b W Hb) as (C1 & C2 & C3 & _ & _ & C6).
    destruct (clear_dirty_flags (cleaned b)) as (F1 & F2 & F3).
    assert (Hl : c_lba_root (bc_clean lba c) !! lba = Some (cleaned b)) by (by rewrite C1, lookup_put, decide_True).
    split; [|split; [apply C2|split; [apply C3|]]].
    + exists (ext4_bcache_clear_dirty (cleaned b)). split_and!; try done.
      unfold on_buf, c_on_lba. cbn [c_lba_root]. by rewrite C1, alter_put.
    + apply (cwf_on_buf n item lim _ lba (cleaned b) C6 Hl); try done; [|congruence].
      rewrite F3. unfold cleaned. rewrite test_clear_flag by done. by apply andb_false_intro1.
  - rewrite invalidate_clean by done. destruct (clear_dirty_flags b) as (F1 & F2 & F3).
    split; [|split; [done|split; [done|]]].
    + exists (ext4_bcache_clear_dirty b). split_and!; try done. cbn. by apply alter_as_put.
    + apply (cwf_on_buf n item lim c lba b W Hb); try done; try congruence.
      intros Ho. destruct (B9 Ho) as (_ & Hx & _). congruence.
Qed.
End Invalidate.

(** What [ext4_bcache_invalidate_lba] may change: blocks of [l]. *)
Lemma invalidate_fold n item lim l : forall c,
  cwf n item lim c ->
  let c' := foldl (fun c lba => ext4_bcache_invalidate_buf lba c) c l in
  cwf n item lim c' /\ c_dont_shake c' = c_dont_shake c /\
  (forall a, a ∉ l -> c_lba_root c' !! a = c_lba_root c !! a) /\
  (forall a, c_lba_root c' !! a = c_lba_root c !! a \/
     exists b b', c_lba_root c !! a = Some b /\ c_lba_root c' !! a = Some b' /\
       utd b' = false /\ b_refctr b' = b_refctr b /\ b_data b' = b_data b).
Proof.
  induction l as [|x l IH]; intros c W; cbn [foldl].
  { split_and!; try done. intros a. by left. }
  set (c1 := ext4_bcache_invalidate_buf x c).
  assert (H : cwf n item lim c1 /\ c_dont_shake c1 = c_dont_shake c /\
    (forall a, a <> x -> c_lba_root c1 !! a = c_lba_root c !! a) /\
    (c_lba_root c1 !! x = c_lba_root c !! x \/
     exists b b', c_lba_root c !! x = Some b /\ c_lba_root c1 !! x = Some b' /\
       utd b' = false /\ b_refctr b' = b_refctr b /\ b_data b' = b_data b)).
  { destruct (c_lba_root c !! x) as [b|] eqn:Hb.
    - destruct (invalidate_buf_shape n item lim c x b W Hb) as ((b' & E & ? & ? & ?) & _ & ? & ?).
      fold c1 in E. split_and!; try done.
      + intros a Ha. by rewrite E, lookup_put, decide_False.
      + right. exists b, b'. by rewrite E, lookup_put, decide_True.
    - unfold c1, ext4_bcache_invalidate_buf, ext4_buf_lookup. rewrite Hb. split_and!; try done. by left. }
  destruct H as (W1 & S1 & O1 & X1). destruct (IH c1 W1) as (W2 & S2 & O2 & X2).
  split_and!; [done|congruence| |].
  - intros a Ha. rewrite not_elem_of_cons in Ha. rewrite O2, O1; tauto.
  - intros a. destruct (decide (a = x)) as [->|Ha].
    + destruct X1 as [E|(b & b' & E1 & E2 & Hu & Hr & Hd)]; [rewrite <- E; apply X2|].
      right. destruct (X2 x) as [E|(b1 & b2 & F1 & F2 & Hu2 & Hr2 & Hd2)].
      * exists b, b'. rewrite E. split_and!; done.
      * exists b, b2. split_and!; try done; congruence.
    + rewrite <- O1 by done. apply X2.
Qed.

Lemma not_in_new (a : Z) (p : gset Z) (P : Prop) : a ∉ {[a]} ∪ p -> P.
Proof. intros H. destruct H. set_solver. Qed.
Lemma not_in_old (a x : Z) (p : gset Z) : x ∉ {[a]} ∪ p -> x ∉ p.
Proof. set_solver. Qed.
Lemma not_in_del (a x : Z) (p : gset Z) : x <> a -> x ∉ p ∖ {[a]} -> x ∉ p.
Proof. set_solver. Qed.

Section CacheStore.
Context {D : Type} {HD : Host D} {ph : Z} {HL : HostLaws D ph}.
Context (end_write : Z -> Z -> Z -> bdev D -> bdev D).
Context (jbd_trans_set_block_dirty jbd_trans_try_revoke_block : Z -> M (bdev D) unit).
Context (bsz bcnt : Z).

#[export] Instance cache_store : BlockStore (bdev D) := {
  bs_get := ext4_trans_block_get end_write;
  bs_get_noread := ext4_trans_block_get_noread end_write;
  bs_set := ext4_block_set end_write;
  bs_dirty := ext4_trans_set_block_dirty jbd_trans_set_block_dirty no_journal;
  bs_revoke := ext4_trans_try_revoke_block end_write jbd_trans_try_revoke_block no_journal;
  bs_read a s := match ext4_buf_lookup (v_bc s) a with Some b => b_data b | None => [] end;
  bs_store a d := v_on_bc (on_buf a (buf_set_data d));
  bs_is_dirty a s :=
    match ext4_buf_lookup (v_bc s) a with Some b => ext4_bcache_test_flag b BC_DIRTY | None => false end;
  bs_refuses a s :=
    (d_ph_refctr (v_dev s) =? 0) || negb (a <? d_lg_bcnt (v_dev s)) || (a =? 0);
  bs_invalidate a k := v_on_bc (ext4_bcache_invalidate_lba a k);
  bs_set_direct d a k := on_dev (ext4_blocks_set_direct d a k);
  bs_calloc k := on_dev (on_host (h_malloc k));;; mok tt;
  bs_sb_read := ext4_sb_read;
  bs_sb_write := ext4_sb_write;
}.

(** What a client finds in block [a]: its handle's data, if it has one. *)
Definition content (s : bdev D) (a : Z) : list Z :=
  if 0 <? held s a then rdata s a else view s a.
(** Nothing was stored to the block without marking it dirty. *)
Definition settled_blk (s : bdev D) (a : Z) : Prop :=
  sync s a /\ (0 < held s a -> rdata s a = view s a).

Record cache_abs (n : Z) (s : bdev D) (c : Z -> list Z) (h : Z -> Z) (p : gset Z) : Prop := {
  ca_ready : ready (ph := ph) n s;
  ca_bsz : d_lg_bsize (v_dev s) = bsz;
  ca_bcnt : d_lg_bcnt (v_dev s) = bcnt;
  ca_held a : h a = held s a;
  ca_cont a : c a = content s a;
  ca_free a : held s a = 0 -> sync s a;
  ca_settled a : a ∉ p -> settled_blk s a;
}.

Lemma settled_content s a : settled_blk s a -> content s a = view s a.
Proof. unfold content. intros [_ H]. destruct (Z.ltb_spec 0 (held s a)); auto. Qed.

Lemma content_view s a : held s a = 0 -> content s a = view s a.
Proof. unfold content. by intros ->. Qed.
Lemma content_rdata s a : 0 < held s a -> content s a = rdata s a.
Proof. unfold content. intros H. by rewrite (proj2 (Z.ltb_lt 0 (held s a))). Qed.

Lemma cache_abs_ext n s c c' h h' p :
  cache_abs n s c h p -> (forall a, c' a = c a) -> (forall a, h' a = h a) ->
  cache_abs n s c' h' p.
Proof. intros [A1 A2 A2' A3 A4 A5 A6] Hc Hh. split; try done; intros a; [rewrite Hh|rewrite Hc]; done. Qed.

(** Everything but block [a] is as it was. *)
Definition same_but (a : Z) (s s' : bdev D) : Prop :=
  forall x, x <> a -> held s' x = held s x /\ (0 < held s x -> rdata s' x = rdata s x) /\
    view s' x = view s x /\ (sync s x -> sync s' x).

Lemma same_but_quiet a s s' : quiet s s' -> others_but a s s' -> same_but a s s'.
Proof.
  intros Q O x Hx. destruct (O x Hx) as [E F]. split_and!; [done| |apply Q|apply Q].
  intros Hh. unfold rdata. by rewrite F.
Qed.

(** A step that changes block [a] alone. *)
Lemma abs_at n n' s s' c h p a d k p' :
  cache_abs n s c h p -> ready (ph := ph) n' s' -> dcfg (v_dev s') = dcfg (v_dev s) ->
  same_but a s s' -> held s' a = k -> content s' a = d -> (k = 0 -> sync s' a) ->
  (a ∉ p' -> settled_blk s' a) -> (forall x, x <> a -> x ∉ p' -> x ∉ p) ->
  cache_abs n' s' (fupd a d c) (fupd a k h) p'.
Proof.
  intros A R B O Hk Hd Hf Hs Hp. apply dcfg_lg in B as [B1 B2].
  split; [done|by rewrite B1; apply (ca_bsz _ _ _ _ _ A)|by rewrite B2; apply (ca_bcnt _ _ _ _ _ A)|..].
  - intros x. destruct (Z.eq_dec x a) as [->|Hx]; [by rewrite fupd_eq|].
    rewrite fupd_ne, (ca_held _ _ _ _ _ A) by done. by destruct (O x Hx).
  - intros x. destruct (Z.eq_dec x a) as [->|Hx]; [by rewrite fupd_eq|].
    rewrite fupd_ne, (ca_cont _ _ _ _ _ A) by done. destruct (O x Hx) as (E1 & E2 & E3 & _).
    unfold content. rewrite E1, E3. destruct (Z.ltb_spec 0 (held s x)); [by rewrite E2|done].
  - intros x. destruct (Z.eq_dec x a) as [->|Hx]; [by rewrite Hk|].
    destruct (O x Hx) as (E1 & _ & _ & E4). rewrite E1. intros H0. apply E4. by apply (ca_free _ _ _ _ _ A).
  - intros x. destruct (Z.eq_dec x a) as [->|Hx]; [done|]. intros Hxp.
    destruct (O x Hx) as (E1 & E2 & E3 & E4).
    destruct (ca_settled _ _ _ _ _ A x (Hp x Hx Hxp)) as [Sx Dx]. split; [by apply E4|].
    rewrite E1, E3. intros Hh. by rewrite E2, Dx.
Qed.

(** A step that changes nothing but the number of handles on a settled block. *)
Lemma abs_step n n' s s' c h p a k :
  cache_abs n s c h p -> quiet s s' -> ready (ph := ph) n' s' -> others_but a s s' -> a ∉ p ->
  held s' a = held s a + k -> (0 < held s' a -> rdata s' a = view s a) ->
  cache_abs n' s' c (fupd a (h a + k) h) p.
Proof.
  intros A Q R O Ha Hk Hd. pose proof (ca_settled _ _ _ _ _ A a Ha) as [Sy Sd].
  assert (Hs : settled_blk s' a).
  { split; [by apply (q_sync _ _ Q)|]. by rewrite (q_view _ _ Q). }
  apply (cache_abs_ext _ _ (fupd a (view s a) c) c (fupd a (h a + k) h)); [|intros x|done].
  - eapply (abs_at n); try done.
    + apply Q.
    + by apply same_but_quiet.
    + by rewrite (ca_held _ _ _ _ _ A).
    + rewrite settled_content by done. apply Q.
    + intros _. apply Hs.
  - destruct (Z.eq_dec x a) as [->|Hx]; [|by rewrite fupd_ne].
    by rewrite fupd_eq, (ca_cont _ _ _ _ _ A), settled_content.
Qed.

Lemma cache_bs_get n s c h p a :
  cache_abs n s c h p -> n + 1 < 2 ^ 32 -> 0 <= a -> a ∉ p ->
  wp (ext4_block_get end_write a) s (fun r s' =>
    match r with
    | Ok _ => a <> 0 /\ cache_abs (n + 1) s' c (fupd a (h a + 1) h) p
    | Err rc => rc <> EOK /\ cache_abs (n + 1) s' c h p
    end).
Proof.
  intros A Hn Ha Hp. pose proof (ca_settled _ _ _ _ _ A a Hp) as [Sy Sd].
  eapply wp_mono; [apply (get_wp end_write n s a (ca_ready _ _ _ _ _ A) Hn Ha)|]. cbv beta.
  intros r s' (([Q K] & R & O & F) & Hok & _). destruct r as [[]|rc].
  - destruct (Hok eq_refl) as [H0 Hd]. destruct F as (_ & Hh & _). split; [done|].
    eapply (abs_step n); try done. intros _. by apply Hd.
  - destruct F as (Hrc & Hh & Hk). split; [done|].
    apply (cache_abs_ext _ _ c c (fupd a (h a + 0) h)); [|done|].
    + eapply (abs_step n); try done; [lia|]. rewrite Hh. intros Hlt. by rewrite Hk, Sd.
    + intros x. unfold fupd. destruct (Z.eqb_spec x a) as [->|]; lia.
Qed.

Lemma cache_bs_set n s c h p a :
  cache_abs n s c h p -> 0 < h a -> a ∉ p ->
  wp (ext4_block_set end_write a) s (fun r s' =>
    r = Ok tt /\ cache_abs n s' c (fupd a (h a - 1) h) p).
Proof.
  intros A Hh Hp. pose proof (ca_settled _ _ _ _ _ A a Hp) as [Sy Sd].
  rewrite (ca_held _ _ _ _ _ A) in Hh.
  eapply wp_mono; [apply (block_set_wp end_write n s a (ca_ready _ _ _ _ _ A) Hh)|]. cbv beta.
  intros r s' (-> & [Q K] & R & O & Hh' & Hk & _). split; [done|].
  replace (h a - 1) with (h a + -1) by lia. eapply (abs_step n); try done.
  intros H1. rewrite Hk by lia. by apply Sd.
Qed.

Lemma cache_bs_get_noread n s c h p a :
  cache_abs n s c h p -> n + 1 < 2 ^ 32 -> 0 <= a ->
  wp (ext4_block_get_noread end_write a) s (fun r s' =>
    match r with
    | Ok _ => a <> 0 /\ exists d, (0 < h a -> d = c a) /\
                cache_abs (n + 1) s' (fupd a d c) (fupd a (h a + 1) h) ({[a]} ∪ p)
    | Err rc => rc <> EOK /\ cache_abs (n + 1) s' c h p
    end).
Proof.
  intros A Hn Ha.
  eapply wp_mono; [apply (get_noread_wp end_write n s a (ca_ready _ _ _ _ _ A) Hn Ha)|]. cbv beta.
  intros r s' (([Q K] & R & O & F) & Hok & _).
  pose proof (same_but_quiet _ _ _ Q O) as SB.
  pose proof (q_cfg _ _ Q) as Hb.
  pose proof (held_nonneg n s a (proj1 (ca_ready _ _ _ _ _ A))) as Hn0.
  destruct r as [[]|rc].
  - destruct (Hok eq_refl) as [H0 Hd]. destruct F as (_ & Hh & _). split; [done|].
    assert (Hpos : 0 < held s' a) by lia.
    exists (rdata s' a). rewrite (ca_held _ _ _ _ _ A). split.
    + intros Hlt. by rewrite Hd, (ca_cont _ _ _ _ _ A), content_rdata.
    + clear Hok. eapply (abs_at n); try done; [by apply content_rdata|lia|apply not_in_new|by intros x _ ?%not_in_old].
  - destruct F as (Hrc & Hh & Hk). split; [done|].
    apply (cache_abs_ext _ _ (fupd a (content s' a) c) c (fupd a (held s' a) h)).
    + eapply (abs_at n); try done.
      * intros E. apply (q_sync _ _ Q), (ca_free _ _ _ _ _ A). lia.
      * intros Hp. destruct (ca_settled _ _ _ _ _ A a Hp) as [Sy Sd].
        split; [by apply (q_sync _ _ Q)|]. rewrite (q_view _ _ Q), Hh. intros Hlt. by rewrite Hk, Sd.
    + intros x. destruct (Z.eq_dec x a) as [->|Hx]; [|by rewrite fupd_ne]. rewrite fupd_eq, (ca_cont _ _ _ _ _ A).
      unfold content. rewrite Hh. destruct (Z.ltb_spec 0 (held s a)); [by rewrite Hk|by rewrite (q_view _ _ Q)].
    + intros x. destruct (Z.eq_dec x a) as [->|Hx]; [|by rewrite fupd_ne].
      by rewrite fupd_eq, (ca_held _ _ _ _ _ A).
Qed.

Lemma cache_bs_dirty n s c h p a :
  cache_abs n s c h p -> 0 < h a -> cache_abs n (mark_dirty a s) c h (p ∖ {[a]}).
Proof.
  intros A Hh. rewrite (ca_held _ _ _ _ _ A) in Hh.
  destruct (mark_dirty_spec n s a (ca_ready _ _ _ _ _ A) Hh) as (R & Hv & Hs & Hr & He & O & _).
  apply (cache_abs_ext _ _ (fupd a (c a) c) c (fupd a (held s a) h)).
  - eapply (abs_at n); try done.
    + intros x Hx. destruct (O x Hx) as (E1 & E2 & E3). split_and!; [by apply He| |done|done].
      intros _. unfold rdata. by rewrite E1.
    + rewrite (ca_cont _ _ _ _ _ A), (content_rdata s) by done. rewrite content_rdata; [done|]. by rewrite He.
    + intros _. split; [done|]. intros _. by rewrite Hr, Hv.
    + intros x Hx. by apply not_in_del.
  - intros x. destruct (Z.eq_dec x a) as [->|Hx]; [by rewrite fupd_eq|by rewrite fupd_ne].
  - intros x. destruct (Z.eq_dec x a) as [->|Hx]; [by rewrite fupd_eq, (ca_held _ _ _ _ _ A)|by rewrite fupd_ne].
Qed.

Lemma cache_bs_store n s c h p a d :
  cache_abs n s c h p -> 0 < h a -> blen d = bsz -> bytes_ok d ->
  cache_abs n (data_write a d s) (fupd a d c) h ({[a]} ∪ p).
Proof.
  intros A Hh Hl Hok. rewrite (ca_held _ _ _ _ _ A) in Hh. rewrite <- (ca_bsz _ _ _ _ _ A) in Hl.
  destruct (data_write_spec n s a d (ca_ready _ _ _ _ _ A) Hh Hl Hok) as (R & Hr & He & O & _).
  apply (cache_abs_ext _ _ (fupd a d c) _ (fupd a (held s a) h)); [|done|].
  - eapply (abs_at n); try done.
    + intros x Hx. destruct (O x Hx) as (E1 & E2 & E3). split_and!; [by apply He| |done|done].
      intros _. unfold rdata. by rewrite E1.
    + rewrite content_rdata; [done|]. by rewrite He.
    + lia.
    + apply not_in_new.
    + by intros x _ ?%not_in_old.
  - intros x. destruct (Z.eq_dec x a) as [->|Hx]; [by rewrite fupd_eq, (ca_held _ _ _ _ _ A)|by rewrite fupd_ne].
Qed.

(** A block that is dirty already needs no marking. *)
Lemma cache_bs_store_dirty n s c h p a d :
  cache_abs n s c h p -> 0 < h a -> bs_is_dirty a s = true -> blen d = bsz -> bytes_ok d ->
  cache_abs n (data_write a d s) (fupd a d c) h p.
Proof.
  intros A Hh Hdirty Hl Hok. pose proof (cache_bs_store n s c h p a d A Hh Hl Hok) as [A1 A2 A2' A3 A4 A5 A6].
  split; try done. intros x Hx. destruct (Z.eq_dec x a) as [->|Hne]; [|apply A6; set_solver].
  cbn in Hdirty. change (ext4_buf_lookup (v_bc s) a) with (bufs s a) in Hdirty.
  destruct (bufs s a) as [b|] eqn:Hb; [|done]. change (ext4_bcache_test_flag b BC_DIRTY) with (drt b) in Hdirty.
  pose proof (bo_utd _ _ _ _ _ _ (swf_buf n s a b (proj1 (ca_ready _ _ _ _ _ A)) Hb) Hdirty) as Hu.
  assert (Hf : bufs (data_write a d s) a = Some (buf_set_data d b)).
  { unfold data_write. rewrite bufs_on_buf, decide_True, Hb by done. done. }
  assert (Hu' : utd (buf_set_data d b) = true) by exact Hu.
  assert (Hd' : drt (buf_set_data d b) = true) by exact Hdirty.
  unfold settled_blk, sync, rdata, view. rewrite Hf. unfold bsync, bview. rewrite Hu', Hd'. by split.
Qed.

(** The blocks the walk of [ext4_bcache_invalidate_lba] may reach. *)
Lemma invalidate_lba_walk a k c :
  0 <= a -> 0 < k -> a + k < 2 ^ 64 ->
  exists l, (forall x, x ∈ l -> a <= x < a + k) /\
    ext4_bcache_invalidate_lba a k c = foldl (fun c lba => ext4_bcache_invalidate_buf lba c) c l.
Proof.
  intros Ha Hk Hlt. unfold ext4_bcache_invalidate_lba.
  case_match; [|exists []; split; [intros x Hx; by apply not_elem_of_nil in Hx|done]].
  eexists. split; [|done]. intros x [[H1 H2] _]%list_elem_of_filter.
  unfold u64 in H2. rewrite Z.mod_small in H2 by lia. lia.
Qed.

Lemma cache_bs_invalidate n s c h p a k :
  cache_abs n s c h p -> 0 <= a -> 0 < k -> a + k < 2 ^ 64 ->
  (forall x, a <= x < a + k -> h x = 0) ->
  exists c', (forall x, ~ (a <= x < a + k) -> c' x = c x) /\
    cache_abs n (v_on_bc (ext4_bcache_invalidate_lba a k) s) c' h p.
Proof.
  intros A Ha Hk0 Hk Hh. pose proof (ca_ready _ _ _ _ _ A) as [W Hs].
  destruct (invalidate_lba_walk a k (v_bc s) Ha Hk0 Hk) as (l & Hl & E).
  destruct (invalidate_fold n _ _ l (v_bc s) (proj2 (proj2 W))) as (W' & S' & O' & X').
  rewrite <- E in *. set (s' := v_on_bc _ s).
  assert (Hheld : forall x, held s' x = held s x).
  { intros x. unfold held, bufs. change (v_bc s') with (ext4_bcache_invalidate_lba a k (v_bc s)).
    destruct (X' x) as [->|(b & b' & E1 & E2 & _ & Hr & _)]; [done|]. by rewrite E1, E2. }
  assert (Hout : forall x, ~ (a <= x < a + k) -> bufs s' x = bufs s x).
  { intros x Hx. apply O'. intros Hi. by apply Hx, Hl. }
  assert (Hsync : forall x, sync s x -> sync s' x).
  { intros x Sx. unfold sync, bufs in *.
    change (v_bc s') with (ext4_bcache_invalidate_lba a k (v_bc s)). change (v_dev s') with (v_dev s).
    destruct (X' x) as [->|(b & b' & _ & -> & Hu & _)]; [done|]. cbn [bsync]. congruence. }
  exists (content s'). split.
  - intros x Hx. rewrite (ca_cont _ _ _ _ _ A). unfold content. rewrite Hheld.
    unfold rdata, view. by rewrite Hout.
  - split; try done.
    + split; [|by rewrite <- Hs, <- S']. by apply (swf_cfg s s' n n).
    + apply (ca_bsz _ _ _ _ _ A).
    + apply (ca_bcnt _ _ _ _ _ A).
    + intros x. by rewrite Hheld, (ca_held _ _ _ _ _ A).
    + intros x. rewrite Hheld. intros H0. by apply Hsync, (ca_free _ _ _ _ _ A).
    + intros x Hx. destruct (ca_settled _ _ _ _ _ A x Hx) as [Sx Dx]. split; [by apply Hsync|].
      rewrite Hheld. intros Hpos. rewrite <- (ca_held _ _ _ _ _ A) in Hpos.
      assert (Hb : bufs s' x = bufs s x) by (apply Hout; intros Hi; specialize (Hh x Hi); lia).
      unfold rdata, view. rewrite Hb. apply Dx. by rewrite <- (ca_held _ _ _ _ _ A).
Qed.

Lemma cache_bs_contents n s c h p a :
  cache_abs n s c h p -> blen (c a) = bsz /\ bytes_ok (c a).
Proof.
  intros A. pose proof (proj1 (ca_ready _ _ _ _ _ A)) as W. rewrite (ca_cont _ _ _ _ _ A), <- (ca_bsz _ _ _ _ _ A).
  assert (Hd : blen (dblk (v_dev s) a) = d_lg_bsize (v_dev s) /\ bytes_ok (dblk (v_dev s) a)).
  { split; [apply blen_dblk, W|apply bytes_ok_dblk]. }
  unfold content, held, rdata, view. destruct (bufs s a) as [b|] eqn:Hb; [|by cbn].
  destruct (swf_buf n s a b W Hb) as [B1 B2 B3 B4 B5 B6 B7 B8 B9 B10].
  case_match; [done|]. cbn [bview]. by case_match.
Qed.

#[export] Instance cache_store_laws : BlockStoreLaws (bdev D) bsz.
Proof.
  refine {| bs_abs := cache_abs |}.
  - apply cache_bs_contents.
  - intros n s c h p a A. rewrite (ca_held _ _ _ _ _ A). apply (held_nonneg n s a (proj1 (ca_ready _ _ _ _ _ A))).
  - intros n n' s c c' h h' p p' [[A0 A1] A2 A2' A3 A4 A5 A6] Hn Hc Hh Hp.
    split; try done; try (intros a; rewrite ?Hc, ?Hh; done); [split; [by apply (swf_mono n)|done]|].
    intros a Ha. apply A6. intros Hi. by apply Ha, Hp.
  - intros n s c h p A. apply (cw_budget _ _ _ _ (proj2 (proj2 (proj1 (ca_ready _ _ _ _ _ A))))).
  - apply cache_bs_get.
  - apply cache_bs_get_noread.
  - apply cache_bs_set.
  - intros n s c h p a A Hh. split; [done|]. by apply cache_bs_dirty.
  - intros n s c h p a A Hn Ha Hp. split; [done|]. destruct A as [[A0 A1] A2 A2' A3 A4 A5 A6].
    split; try done. split; [|done]. apply (swf_mono n); [done|lia].
  - intros n s c h p a A Hh. rewrite (ca_cont _ _ _ _ _ A), content_rdata; [done|].
    by rewrite <- (ca_held _ _ _ _ _ A).
  - apply cache_bs_store.
  - apply cache_bs_store_dirty.
  - apply cache_bs_invalidate.
Defined.
End CacheStore.
