(* ===== verification/Group.v ===== *)
(** * Block groups: addresses and bitmap checksums

    Which group a block or an inode belongs to and at which index
    (include/ext4_fs.h, src/ext4_balloc.c, src/ext4_ialloc.c), the block a
    descriptor is in (src/ext4_fs.c), and the checksums of the two bitmaps of a
    group.  These are functions of the superblock and of the buffers of the
    descriptor and of the bitmap. *)

From S2P Require Import Prelude Layout Types Bitmap Crc Super BlockGroup.

(** ** Addresses *)

Definition ext4_balloc_get_bgid_of_block (s : list Z) (baddr : Z) : Z :=
  let baddr := if negb (sb_get sb_first_data_block s =? 0) && negb (baddr =? 0)
               then baddr - 1 else baddr in
  u32 (baddr / sb_get sb_blocks_per_group s).

(** The product is one of two [uint32_t]. *)
Definition ext4_balloc_get_block_of_bgid (s : list Z) (bgid : Z) : Z :=
  let baddr := if negb (sb_get sb_first_data_block s =? 0) then 1 else 0 in
  u64 (baddr + u32 (bgid * sb_get sb_blocks_per_group s)).

Definition ext4_fs_addr_to_idx_bg (s : list Z) (baddr : Z) : Z :=
  let baddr := if negb (sb_get sb_first_data_block s =? 0) && negb (baddr =? 0)
               then baddr - 1 else baddr in
  baddr mod sb_get sb_blocks_per_group s.

Definition ext4_fs_bg_idx_to_addr (s : list Z) (index bgid : Z) : Z :=
  let index := if negb (sb_get sb_first_data_block s =? 0) then u32 (index + 1) else index in
  u32 (sb_get sb_blocks_per_group s * bgid + index).

Definition ext4_fs_first_bg_block_no (s : list Z) (bgid : Z) : Z :=
  u64 (bgid * sb_get sb_blocks_per_group s + sb_get sb_first_data_block s).

Definition ext4_block_in_group (s : list Z) (baddr bgid : Z) : bool :=
  ext4_balloc_get_bgid_of_block s baddr =? bgid.

Definition ext4_ialloc_inode_to_bgidx (sb : list Z) (inode : Z) : Z :=
  u32 (inode - 1) mod sb_get sb_inodes_per_group sb.
Definition ext4_ialloc_bgidx_to_inode (sb : list Z) (index bgid : Z) : Z :=
  u32 (bgid * sb_get sb_inodes_per_group sb + (index + 1)).
Definition ext4_ialloc_get_bgid_of_inode (sb : list Z) (inode : Z) : Z :=
  u32 (inode - 1) / sb_get sb_inodes_per_group sb.

Definition ext4_fs_get_descriptor_block (s : list Z) (bgid dsc_per_block : Z) : Z :=
  let dsc_id := bgid / dsc_per_block in
  let first_meta_bg := ext4_sb_first_meta_bg s in
  if negb (ext4_sb_feature_incom s EXT4_FINCOM_META_BG) || (dsc_id <? first_meta_bg)
  then u32 (sb_get sb_first_data_block s + dsc_id + 1)
  else u64 (Z.b2z (ext4_sb_is_super_in_bg s bgid) + ext4_fs_first_bg_block_no s bgid).

(** ** Bitmap checksums

    [bitmap] is the buffer of the bitmap; the descriptor is at byte [p] of [b]. *)

Definition ext4_balloc_bitmap_csum (sb bitmap : list Z) : Z :=
  if ext4_sb_feature_ro_com sb EXT4_FRO_COM_METADATA_CSUM then
    let blocks_per_group := sb_get sb_blocks_per_group sb in
    ext4_crc32c (ext4_sb_csum_seed sb) (slice 0 (blocks_per_group / 8) bitmap)
  else 0.

Definition ext4_ialloc_bitmap_csum (sb bitmap : list Z) : Z :=
  if ext4_sb_feature_ro_com sb EXT4_FRO_COM_METADATA_CSUM then
    let inodes_per_group := sb_get sb_inodes_per_group sb in
    ext4_crc32c (ext4_sb_csum_seed sb) (slice 0 (u32 (inodes_per_group + 7) / 8) bitmap)
  else 0.

(** The two halves of a checksum, into the fields [lo] and [hi]. *)
Definition set_csum_halves (lo hi : field) (sb : list Z) (p checksum : Z) (b : list Z) : list Z :=
  if negb (ext4_sb_feature_ro_com sb EXT4_FRO_COM_METADATA_CSUM) then b
  else
    let b := wr lo p (Z.land checksum 0xFFFF) b in
    if ext4_sb_get_desc_size sb =? EXT4_MAX_BLOCK_GROUP_DESCRIPTOR_SIZE
    then wr hi p (Z.shiftr checksum 16) b else b.
Definition verify_csum_halves (lo hi : field) (sb : list Z) (p checksum : Z) (b : list Z) : bool :=
  if negb (ext4_sb_feature_ro_com sb EXT4_FRO_COM_METADATA_CSUM) then true
  else if negb (rd lo p b =? Z.land checksum 0xFFFF) then false
  else if (ext4_sb_get_desc_size sb =? EXT4_MAX_BLOCK_GROUP_DESCRIPTOR_SIZE)
          && negb (rd hi p b =? Z.shiftr checksum 16) then false
  else true.

Definition ext4_balloc_set_bitmap_csum (sb : list Z) (p : Z) (bitmap b : list Z) : list Z :=
  set_csum_halves bg_block_bitmap_csum_lo bg_block_bitmap_csum_hi sb p
    (ext4_balloc_bitmap_csum sb bitmap) b.
Definition ext4_balloc_verify_bitmap_csum (sb : list Z) (p : Z) (bitmap b : list Z) : bool :=
  verify_csum_halves bg_block_bitmap_csum_lo bg_block_bitmap_csum_hi sb p
    (ext4_balloc_bitmap_csum sb bitmap) b.
Definition ext4_ialloc_set_bitmap_csum (sb : list Z) (p : Z) (bitmap b : list Z) : list Z :=
  set_csum_halves bg_inode_bitmap_csum_lo bg_inode_bitmap_csum_hi sb p
    (ext4_ialloc_bitmap_csum sb bitmap) b.
Definition ext4_ialloc_verify_bitmap_csum (sb : list Z) (p : Z) (bitmap b : list Z) : bool :=
  verify_csum_halves bg_inode_bitmap_csum_lo bg_inode_bitmap_csum_hi sb p
    (ext4_ialloc_bitmap_csum sb bitmap) b.
