(* ===== verification/Fs.v ===== *)
(** * The mounted file system

    Core/lwext4/src/ext4_fs.c without its data-block half: mounting and
    unmounting (the superblock's life), block group references, the bitmaps and
    tables a group is initialised with, inode references.

    The state is the superblock in memory, [last_inode_bg_id], the inode the
    caller works on and the block store.  A reference holds a block of the
    store: its [block] is the number of that block and its pointer an offset
    into it.  A group reference lives inside one call and is passed along; the
    inode reference belongs to the caller, so it is in the state.  Debug
    messages are left out. *)

From S2P Require Import Prelude Layout Types Bitmap Crc Super BlockGroup Inode Group Store.

Record block_group_ref := mk_bg_ref {
  br_block : Z;
  br_off : Z;
  br_index : Z;
  br_dirty : bool;
}.
Definition br_set_dirty (r : block_group_ref) : block_group_ref :=
  mk_bg_ref (br_block r) (br_off r) (br_index r) true.

Record inode_ref := mk_inode_ref {
  ir_block : Z;
  ir_off : Z;
  ir_index : Z;
  ir_dirty : bool;
}.

Record fsys (St : Type) := mk_fsys {
  f_read_only : bool;
  f_sb : list Z;
  f_last_inode_bg_id : Z;
  f_iref : inode_ref;
  f_st : St;
}.
Arguments mk_fsys {St}. Arguments f_read_only {St}. Arguments f_sb {St}.
Arguments f_last_inode_bg_id {St}. Arguments f_iref {St}. Arguments f_st {St}.

Section Fs.
Context {St : Type} {BS : BlockStore St}.
Local Abbreviation fsys := (fsys St).

Definition f_set_sb (s : list Z) (f : fsys) : fsys :=
  mk_fsys (f_read_only f) s (f_last_inode_bg_id f) (f_iref f) (f_st f).
Definition f_set_iref (r : inode_ref) (f : fsys) : fsys :=
  mk_fsys (f_read_only f) (f_sb f) (f_last_inode_bg_id f) r (f_st f).
Definition f_set_last (n : Z) (f : fsys) : fsys :=
  mk_fsys (f_read_only f) (f_sb f) n (f_iref f) (f_st f).
Definition f_set_st (s : St) (f : fsys) : fsys :=
  mk_fsys (f_read_only f) (f_sb f) (f_last_inode_bg_id f) (f_iref f) s.

Definition on_st {A} (m : M St A) : M fsys A := fun f =>
  let '(r, s) := m (f_st f) in (r, f_set_st s f).
(** [b.data], and a store through it. *)
Definition data (lba : Z) : M fsys (list Z) := mget (fun f => bs_read lba (f_st f)).
Definition store (lba : Z) (g : list Z -> list Z) : M fsys unit :=
  mmod (fun f => f_set_st (bs_store lba (g (bs_read lba (f_st f))) (f_st f)) f).

(** [rc = m; if (rc != EOK) { cleanup; return rc; }]: the cleanup's own result
    is dropped. *)
Definition or_else {A} (m : M fsys A) (cleanup : M fsys unit) : M fsys A :=
  r <- mtry m;;
  match r with
  | Ok a => mok a
  | Err rc => mtry cleanup;;; mfail rc
  end.

(** ** The bitmaps of an uninitialised group *)

(** [for (i = ...; (unsigned)i < ((start_bit + 7) & ~7UL); i++) set(bitmap, i)]:
    at most 7 turns. *)
Fixpoint mark_to_byte (fuel : nat) (i limit : Z) (bitmap : list Z) : Z * list Z :=
  match fuel with
  | O => (i, bitmap)
  | S fuel =>
      if i <? limit then mark_to_byte fuel (i + 1) limit (ext4_bmap_bit_set bitmap i)
      else (i, bitmap)
  end.
(** [start_bit] is not negative: a volume's first data block is below its size
    (the probe in Core/shim/ext4_bridge.c checks it). *)
Definition ext4_fs_mark_bitmap_end (start_bit end_bit : Z) (bitmap : list Z) : list Z :=
  if end_bit <=? start_bit then bitmap
  else
    let '(i, bitmap) := mark_to_byte 8 start_bit (Z.ldiff (start_bit + 7) 7) bitmap in
    if i <? end_bit
    then memset_at (Z.shiftr i 3) 0xFF (Z.shiftr (end_bit - i) 3) bitmap else bitmap.

(** The blocks at the head of the group: superblock copy and descriptors,
    clamped to the group and to the bitmap. *)
Definition block_bitmap_head (sb : list Z) (index : Z) : Z :=
  let block_size := ext4_sb_get_block_size sb in
  let bit_max := Z.b2z (ext4_sb_is_super_in_bg sb index) in
  let count := u32 (ext4_sb_first_meta_bg sb * dsc_per_block sb) in
  let bit_max :=
    if negb (ext4_sb_feature_incom sb EXT4_FINCOM_META_BG) || (index <? count) then
      if negb (bit_max =? 0)
      then u32 (u32 (bit_max + ext4_bg_num_gdb sb index) + sb_get sb_reserved_gdt_blocks sb)
      else bit_max
    else u32 (bit_max + ext4_bg_num_gdb sb index) in
  let bitmap_bits := u32 (block_size * 8) in
  let group_blocks := sb_get sb_blocks_per_group sb in
  let bit_max := if negb (group_blocks =? 0) && (group_blocks <? bit_max)
                 then group_blocks else bit_max in
  if bitmap_bits <? bit_max then bitmap_bits else bit_max.

Definition bitmap_group_blocks (sb : list Z) (index : Z) : Z :=
  if index =? u32 (ext4_block_group_cnt sb - 1) then
    u32 (ext4_sb_get_blocks_cnt sb - sb_get sb_first_data_block sb
         - u32 (sb_get sb_blocks_per_group sb * u32 (ext4_block_group_cnt sb - 1)))
  else sb_get sb_blocks_per_group sb.

Fixpoint mark_bits (n : nat) (bit : Z) (bitmap : list Z) : list Z :=
  match n with
  | O => bitmap
  | S n => mark_bits n (bit + 1) (ext4_bmap_bit_set bitmap bit)
  end.

(** Block [blk] of the group's own metadata, if the bitmap has a bit for it. *)
Definition mark_if_in_group (sb : list Z) (index blk : Z) (bitmap : list Z) : list Z :=
  let first_bg := ext4_balloc_get_block_of_bgid sb index in
  let bitmap_bits := u32 (ext4_sb_get_block_size sb * 8) in
  let flex_bg := ext4_sb_feature_incom sb EXT4_FINCOM_FLEX_BG in
  if (negb flex_bg || ext4_block_in_group sb blk index) && (first_bg <=? blk)
     && (blk - first_bg <? bitmap_bits)
  then ext4_bmap_bit_set bitmap (u32 (blk - first_bg)) else bitmap.

Fixpoint mark_inode_table (n : nat) (sb : list Z) (index i : Z) (bitmap : list Z) : list Z :=
  match n with
  | O => bitmap
  | S n => mark_inode_table n sb index (i + 1) (mark_if_in_group sb index i bitmap)
  end.

(** The whole block: [bmp_blk], [bmp_inode] and [inode_table] are what the
    descriptor says. *)
Definition block_bitmap_image (sb : list Z) (index bmp_blk bmp_inode inode_table : Z)
    (bitmap : list Z) : list Z :=
  let block_size := ext4_sb_get_block_size sb in
  let inode_table_bcnt :=
    u32 (sb_get sb_inodes_per_group sb * sb_get sb_inode_size sb) / block_size in
  let bitmap := memset_at 0 0 block_size bitmap in
  let bitmap := mark_bits (Z.to_nat (block_bitmap_head sb index)) 0 bitmap in
  let bitmap := mark_if_in_group sb index bmp_blk bitmap in
  let bitmap := mark_if_in_group sb index bmp_inode bitmap in
  let bitmap := mark_inode_table (Z.to_nat inode_table_bcnt) sb index inode_table bitmap in
  ext4_fs_mark_bitmap_end (bitmap_group_blocks sb index) (u32 (block_size * 8)) bitmap.

Definition ext4_fs_init_block_bitmap (r : block_group_ref) : M fsys unit :=
  sb <- mget f_sb;;
  bg <- data (br_block r);;
  let bmp_blk := ext4_bg_get_block_bitmap (br_off r) bg sb in
  let bmp_inode := ext4_bg_get_inode_bitmap (br_off r) bg sb in
  let inode_table := ext4_bg_get_inode_table_first_block (br_off r) bg sb in
  on_st (bs_get_noread bmp_blk);;;
  store bmp_blk (block_bitmap_image sb (br_index r) bmp_blk bmp_inode inode_table);;;
  mtry (on_st (bs_dirty bmp_blk));;;
  bitmap <- data bmp_blk;;
  store (br_block r) (ext4_balloc_set_bitmap_csum sb (br_off r) bitmap);;;
  on_st (bs_set bmp_blk).

Definition inode_bitmap_image (sb bitmap : list Z) : list Z :=
  let inodes_per_group := sb_get sb_inodes_per_group sb in
  let end_bit := u32 (ext4_sb_get_block_size sb * 8) in
  let bitmap := memset_at 0 0 (u32 (inodes_per_group + 7) / 8) bitmap in
  let '(i, bitmap) :=
    mark_to_byte 8 inodes_per_group (Z.ldiff (u32 (inodes_per_group + 7)) 7) bitmap in
  if i <? end_bit
  then memset_at (Z.shiftr i 3) 0xFF (Z.shiftr (end_bit - i) 3) bitmap else bitmap.

Definition ext4_fs_init_inode_bitmap (r : block_group_ref) : M fsys unit :=
  sb <- mget f_sb;;
  bg <- data (br_block r);;
  let blk := ext4_bg_get_inode_bitmap (br_off r) bg sb in
  on_st (bs_get_noread blk);;;
  store blk (inode_bitmap_image sb);;;
  mtry (on_st (bs_dirty blk));;;
  bitmap <- data blk;;
  store (br_block r) (ext4_ialloc_set_bitmap_csum sb (br_off r) bitmap);;;
  on_st (bs_set blk).

(** ** The inode table of an uninitialised group *)

(** [while (left)]: every turn writes at least one block. *)
Fixpoint zero_chunks (fuel : nat) (block_size at_ left chunk : Z) : M fsys unit :=
  match fuel with
  | O => mok tt
  | S fuel =>
      if left =? 0 then mok tt
      else
        let n := if left <? chunk then left else chunk in
        on_st (bs_set_direct (replicate (Z.to_nat (n * block_size)) 0) at_ n);;;
        zero_chunks fuel block_size (u64 (at_ + n)) (u32 (left - n)) chunk
  end.
(** No memory for a chunk: block by block through the cache. *)
Fixpoint zero_blocks (fuel : nat) (block_size fblock last_block : Z) : M fsys unit :=
  match fuel with
  | O => mok tt
  | S fuel =>
      if last_block <? fblock then mok tt
      else
        on_st (bs_get_noread fblock);;;
        store fblock (memset_at 0 0 block_size);;;
        mtry (on_st (bs_dirty fblock));;;
        on_st (bs_set fblock);;;
        zero_blocks fuel block_size (u64 (fblock + 1)) last_block
  end.

Definition ext4_fs_init_inode_table (r : block_group_ref) : M fsys unit :=
  sb <- mget f_sb;;
  bg <- data (br_block r);;
  let block_size := ext4_sb_get_block_size sb in
  let inodes_per_block := block_size / sb_get sb_inode_size sb in
  let inodes_in_group := ext4_inodes_in_group_cnt sb (br_index r) in
  let table_blocks := inodes_in_group / inodes_per_block in
  let table_blocks :=
    if negb (inodes_in_group mod inodes_per_block =? 0) then u32 (table_blocks + 1)
    else table_blocks in
  let first_block := ext4_bg_get_inode_table_first_block (br_off r) bg sb in
  let last_block := u64 (first_block + table_blocks - 1) in
  let chunk_max := (1024 * 1024) / block_size in
  let chunk := if table_blocks <? chunk_max then table_blocks else chunk_max in
  zeros <- mtry (on_st (bs_calloc (chunk * block_size)));;
  match zeros with
  | Ok _ =>
      zero_chunks (Z.to_nat table_blocks) block_size first_block table_blocks chunk;;;
      mmod (fun f => f_set_st (bs_invalidate first_block table_blocks (f_st f)) f)
  | Err _ => zero_blocks (Z.to_nat table_blocks) block_size first_block last_block
  end.

(** ** References to group descriptors *)

(** A descriptor whose checksum does not verify is only reported. *)
Definition ext4_fs_get_block_group_ref (bgid : Z) : M fsys block_group_ref :=
  sb <- mget f_sb;;
  let dsc_cnt := dsc_per_block sb in
  let block_id := ext4_fs_get_descriptor_block sb bgid dsc_cnt in
  let offset := u32 ((bgid mod dsc_cnt) * ext4_sb_get_desc_size sb) in
  on_st (bs_get block_id);;;
  let r := mk_bg_ref block_id offset bgid false in
  bg <- data block_id;;
  r <- (if ext4_bg_has_flag offset bg EXT4_BLOCK_GROUP_BLOCK_UNINIT then
          or_else (ext4_fs_init_block_bitmap r) (on_st (bs_set block_id));;;
          store block_id (ext4_bg_clear_flag offset EXT4_BLOCK_GROUP_BLOCK_UNINIT);;;
          mok (br_set_dirty r)
        else mok r);;
  bg <- data block_id;;
  if ext4_bg_has_flag offset bg EXT4_BLOCK_GROUP_INODE_UNINIT then
    or_else (ext4_fs_init_inode_bitmap r) (on_st (bs_set block_id));;;
    store block_id (ext4_bg_clear_flag offset EXT4_BLOCK_GROUP_INODE_UNINIT);;;
    bg <- data block_id;;
    (if negb (ext4_bg_has_flag offset bg EXT4_BLOCK_GROUP_ITABLE_ZEROED) then
       or_else (ext4_fs_init_inode_table r) (on_st (bs_set block_id));;;
       store block_id (ext4_bg_set_flag offset EXT4_BLOCK_GROUP_ITABLE_ZEROED)
     else mok tt);;;
    mok (br_set_dirty r)
  else mok r.

Definition ext4_fs_put_block_group_ref (r : block_group_ref) : M fsys unit :=
  (if br_dirty r then
     sb <- mget f_sb;;
     bg <- data (br_block r);;
     store (br_block r) (wr bg_checksum (br_off r)
       (ext4_fs_bg_checksum sb (br_index r) (br_off r) bg));;;
     mtry (on_st (bs_dirty (br_block r)));;;
     mok tt
   else mok tt);;;
  on_st (bs_set (br_block r)).

(** ** References to inodes *)

(** The stored checksum is zeroed for the sum and put back. *)
Definition ext4_fs_inode_checksum (sb : list Z) (index p : Z) (b : list Z) : Z :=
  let inode_size := sb_get sb_inode_size sb in
  if ext4_sb_feature_ro_com sb EXT4_FRO_COM_METADATA_CSUM then
    let checksum := ext4_sb_csum_seed sb in
    let checksum := ext4_crc32c checksum (le32_bytes index) in
    let checksum := ext4_crc32c checksum (le32_bytes (ext4_inode_get_generation p b)) in
    let checksum := ext4_crc32c checksum (slice p inode_size (ext4_inode_set_csum sb p 0 b)) in
    if inode_size =? EXT4_GOOD_OLD_INODE_SIZE then Z.land checksum 0xFFFF else checksum
  else 0.

Definition ext4_fs_set_inode_checksum (sb : list Z) (index p : Z) (b : list Z) : list Z :=
  if negb (ext4_sb_feature_ro_com sb EXT4_FRO_COM_METADATA_CSUM) then b
  else ext4_inode_set_csum sb p (ext4_fs_inode_checksum sb index p b) b.

Definition ext4_fs_verify_inode_csum (sb : list Z) (index p : Z) (b : list Z) : bool :=
  if negb (ext4_sb_feature_ro_com sb EXT4_FRO_COM_METADATA_CSUM) then true
  else ext4_inode_get_csum sb p b =? ext4_fs_inode_checksum sb index p b.

(** An inode whose checksum does not verify is only reported. *)
Definition ext4_fs_get_inode_ref (index : Z) : M fsys unit :=
  sb <- mget f_sb;;
  let inodes_per_group := sb_get sb_inodes_per_group sb in
  let index := u32 (index - 1) in
  let block_group := index / inodes_per_group in
  let offset_in_group := index mod inodes_per_group in
  r <- ext4_fs_get_block_group_ref block_group;;
  bg <- data (br_block r);;
  let inode_table_start := ext4_bg_get_inode_table_first_block (br_off r) bg sb in
  ext4_fs_put_block_group_ref r;;;
  let block_size := ext4_sb_get_block_size sb in
  let byte_offset_in_group := u32 (offset_in_group * sb_get sb_inode_size sb) in
  let block_id := u64 (inode_table_start + byte_offset_in_group / block_size) in
  on_st (bs_get block_id);;;
  mmod (f_set_iref (mk_inode_ref block_id (byte_offset_in_group mod block_size)
                      (u32 (index + 1)) false)).

Definition ext4_fs_put_inode_ref : M fsys unit :=
  sb <- mget f_sb;;
  r <- mget f_iref;;
  (if ir_dirty r then
     store (ir_block r) (ext4_fs_set_inode_checksum sb (ir_index r) (ir_off r));;;
     mtry (on_st (bs_dirty (ir_block r)));;;
     mok tt
   else mok tt);;;
  on_st (bs_set (ir_block r)).

(** ** Mounting and unmounting *)

(** Features this driver cannot write with make the mount read-only; features
    it cannot read refuse it.  The answer is [*read_only]. *)
Definition ext4_fs_check_features (sb : list Z) : result bool :=
  if sb_get sb_rev_level sb =? 0 then Ok false
  else
    let supported := Z.lor EXT4_SUPPORTED_FINCOM EXT_FINCOM_IGNORED in
    if has_bits (sb_get sb_features_incompatible sb) (u32 (Z.lnot supported)) then Err ENOTSUP
    else if has_bits (sb_get sb_features_read_only sb) (u32 (Z.lnot EXT4_SUPPORTED_FRO_COM))
    then Ok true
    else Ok false.

(** The tables of indirect block limits are left out: they are written here and
    read by the data-block half of the file. *)
Definition ext4_fs_init (read_only : bool) : M fsys unit :=
  mmod (fun f => mk_fsys read_only (f_sb f) (f_last_inode_bg_id f) (f_iref f) (f_st f));;;
  sb <- on_st bs_sb_read;;
  mmod (f_set_sb sb);;;
  if negb (ext4_sb_check sb) then mfail ENOTSUP
  else if EXT4_MAX_BLOCK_SIZE <? ext4_sb_get_block_size sb then mfail ENXIO
  else
    match ext4_fs_check_features sb with
    | Err rc => mfail rc
    | Ok ro =>
        let read_only := if (ro : bool) then true else read_only in
        mmod (fun f => mk_fsys read_only (f_sb f) (f_last_inode_bg_id f) (f_iref f) (f_st f));;;
        if read_only then mok tt
        else
          let tmp := sb_get sb_state sb in
          let sb := sb_set sb_state
                      (Z.land tmp (u16 (Z.lnot EXT4_SUPERBLOCK_STATE_VALID_FS))) sb in
          mmod (f_set_sb (ext4_sb_set_csum sb));;;
          on_st (bs_sb_write sb);;;
          mmod (fun f => f_set_sb (sb_set sb_mount_count
                                     (u16 (sb_get sb_mount_count (f_sb f) + 1)) (f_sb f)) f)
    end.

Definition ext4_fs_fini : M fsys unit :=
  mmod (fun f => f_set_sb (sb_set sb_state
          (Z.lor (sb_get sb_state (f_sb f)) EXT4_SUPERBLOCK_STATE_VALID_FS) (f_sb f)) f);;;
  ro <- mget f_read_only;;
  if (ro : bool) then mok tt
  else
    sb <- mget f_sb;;
    mmod (f_set_sb (ext4_sb_set_csum sb));;;
    on_st (bs_sb_write sb).
End Fs.
