(* ===== verification/FsSpec.v ===== *)
(** * Running file-system code on the abstract store

    The contract of the block store (Store.v) lifted to the state of a mounted
    file system: one rule per call and per access through a handle, and the
    specification of group references.  Proofs about the allocators use these
    rules only, so they hold of every store with the contract. *)

From S2P Require Import Prelude Layout Types Bitmap Crc Super BlockGroup Inode Store Group Fs.

(** Where the descriptor of group [g] is. *)
Definition desc_blk (sb : list Z) (g : Z) : Z :=
  ext4_fs_get_descriptor_block sb g (dsc_per_block sb).
Definition desc_off (sb : list Z) (g : Z) : Z :=
  u32 ((g mod dsc_per_block sb) * ext4_sb_get_desc_size sb).
Definition group_ref (sb : list Z) (g : Z) : block_group_ref :=
  mk_bg_ref (desc_blk sb g) (desc_off sb g) g false.

(** Neither bitmap of the group waits to be initialised; [b] is the block of its
    descriptor. *)
Definition group_ready (sb : list Z) (g : Z) (b : list Z) : bool :=
  negb (ext4_bg_has_flag (desc_off sb g) b EXT4_BLOCK_GROUP_BLOCK_UNINIT) &&
  negb (ext4_bg_has_flag (desc_off sb g) b EXT4_BLOCK_GROUP_INODE_UNINIT).

Lemma desc_blk_nonneg sb g : 0 <= desc_blk sb g.
Proof.
  unfold desc_blk, ext4_fs_get_descriptor_block. case_match; [apply u32_range|apply u64_range].
Qed.

Section FsSpec.
Context {St : Type} {BS : BlockStore St} {bsz : Z} {BL : BlockStoreLaws St bsz}.
Implicit Types (f : fsys St) (c : Z -> list Z) (h : Z -> Z) (p : gset Z).

(** The file system [f]: superblock, inode, last group, and a store that stands
    for [c], [h] and [p]. *)
Record fabs (n : Z) f (sb : list Z) (ir : inode_ref) (l : Z) c h p : Prop := {
  fa_sb : f_sb f = sb;
  fa_ir : f_iref f = ir;
  fa_last : f_last_inode_bg_id f = l;
  fa_st : bs_abs (bsz := bsz) n (f_st f) c h p;
}.

(** An error, and one that says "no space" or "no entry" only when the store said
    so.  Of other errors it says nothing. *)
Definition clean_err (rc : Z) : Prop :=
  rc <> EOK /\ (rc = ENOSPC \/ rc = ENOENT -> exists a s, fst (bs_get a s) = Err rc).
Lemma clean_EIO : clean_err EIO.
Proof. split; [done|]. by intros [?|?]. Qed.

Section State.
Context (n : Z) f (sb : list Z) (ir : inode_ref) (l : Z) c h p.
Context (A : fabs n f sb ir l c h p).

Lemma fabs_weaken n' c' h' p' :
  n <= n' < 2 ^ 32 -> (forall a, c' a = c a) -> (forall a, h' a = h a) -> p ⊆ p' ->
  fabs n' f sb ir l c' h' p'.
Proof. destruct A. intros. split; try done. by eapply bs_weaken. Qed.
Lemma fabs_pending p' : p ⊆ p' -> fabs n f sb ir l c h p'.
Proof. intros. apply fabs_weaken; try done. split; [lia|]. by eapply bs_budget, A. Qed.
Lemma fabs_budget : n <= n < 2 ^ 32.
Proof. split; [lia|]. eapply bs_budget, A. Qed.
Lemma fabs_len a : blen (c a) = bsz.
Proof. eapply bs_contents, A. Qed.
Lemma fabs_bytes a : bytes_ok (c a).
Proof. eapply bs_contents, A. Qed.
Lemma fabs_held a : 0 <= h a.
Proof. eapply bs_handles, A. Qed.
Lemma fabs_set_sb s' : fabs n (f_set_sb s' f) s' ir l c h p.
Proof. by destruct A. Qed.
Lemma fabs_set_iref r' : fabs n (f_set_iref r' f) sb r' l c h p.
Proof. by destruct A. Qed.
Lemma fabs_set_last l' : fabs n (f_set_last l' f) sb ir l' c h p.
Proof. by destruct A. Qed.

(** One rule per access. *)
Lemma wp_sb (Q : result (list Z) -> fsys St -> Prop) : Q (Ok sb) f -> wp (mget f_sb) f Q.
Proof. intros HQ. apply wp_get. by rewrite (fa_sb _ _ _ _ _ _ _ _ A). Qed.
Lemma wp_iref (Q : result inode_ref -> fsys St -> Prop) : Q (Ok ir) f -> wp (mget f_iref) f Q.
Proof. intros HQ. apply wp_get. by rewrite (fa_ir _ _ _ _ _ _ _ _ A). Qed.
Lemma wp_data a (Q : result (list Z) -> fsys St -> Prop) :
  0 < h a -> Q (Ok (c a)) f -> wp (data a) f Q.
Proof. intros Hh HQ. apply wp_get. by rewrite (bs_read_abs _ _ _ _ _ _ (fa_st _ _ _ _ _ _ _ _ A) Hh). Qed.
Lemma wp_store a g (Q : result unit -> fsys St -> Prop) :
  0 < h a -> (blen (c a) = bsz -> bytes_ok (c a) -> blen (g (c a)) = bsz /\ bytes_ok (g (c a))) ->
  (forall f', fabs n f' sb ir l (fupd a (g (c a)) c) h ({[a]} ∪ p) -> Q (Ok tt) f') ->
  wp (store a g) f Q.
Proof.
  intros Hh Hg HQ. apply wp_mod. apply HQ.
  destruct (Hg (fabs_len a) (fabs_bytes a)). destruct A as [A1 A2 A3 A4]. split; try done. cbn.
  rewrite (bs_read_abs _ _ _ _ _ _ A4 Hh). by apply bs_store_abs.
Qed.
Lemma wp_dirty a (Q : result (result unit) -> fsys St -> Prop) :
  0 < h a ->
  (forall f', fabs n f' sb ir l c h (p ∖ {[a]}) -> Q (Ok (Ok tt)) f') ->
  wp (mtry (on_st (bs_dirty a))) f Q.
Proof.
  intros Hh HQ. destruct A as [A1 A2 A3 A4]. apply wp_try.
  pose proof (bs_dirty_wp _ _ _ _ _ _ A4 Hh) as H. unfold wp, on_st in *.
  destruct (bs_dirty a (f_st f)) as [r s']. destruct H as [-> H]. by apply HQ.
Qed.
(** The error of a fetch is the store's. *)
Lemma wp_get_block_err a (Q : result unit -> fsys St -> Prop) :
  n + 1 < 2 ^ 32 -> 0 <= a -> a ∉ p ->
  (forall f', a <> 0 -> fabs (n + 1) f' sb ir l c (fupd a (h a + 1) h) p -> Q (Ok tt) f') ->
  (forall rc f', rc <> EOK -> fst (bs_get a (f_st f)) = Err rc -> fabs (n + 1) f' sb ir l c h p -> Q (Err rc) f') ->
  wp (on_st (bs_get a)) f Q.
Proof.
  intros Hn Ha Hp HO HE. destruct A as [A1 A2 A3 A4].
  pose proof (bs_get_wp _ _ _ _ _ _ A4 Hn Ha Hp) as H. unfold wp, on_st in *.
  destruct (bs_get a (f_st f)) as [[[]|rc] s'] eqn:E; destruct H as [H1 H2]; [by apply HO|by apply HE].
Qed.
Lemma wp_get_block a (Q : result unit -> fsys St -> Prop) :
  n + 1 < 2 ^ 32 -> 0 <= a -> a ∉ p ->
  (forall f', a <> 0 -> fabs (n + 1) f' sb ir l c (fupd a (h a + 1) h) p -> Q (Ok tt) f') ->
  (forall rc f', clean_err rc -> fabs (n + 1) f' sb ir l c h p -> Q (Err rc) f') ->
  wp (on_st (bs_get a)) f Q.
Proof.
  intros Hn Ha Hp HO HE. apply wp_get_block_err; [done..|]. intros rc f' Hrc E A'. apply HE; [|done].
  split; [done|]. intros _. by exists a, (f_st f).
Qed.
Lemma wp_set_block a (Q : result unit -> fsys St -> Prop) :
  0 < h a -> a ∉ p ->
  (forall f', fabs n f' sb ir l c (fupd a (h a - 1) h) p -> Q (Ok tt) f') ->
  wp (on_st (bs_set a)) f Q.
Proof.
  intros Hh Hp HQ. destruct A as [A1 A2 A3 A4].
  pose proof (bs_set_wp _ _ _ _ _ _ A4 Hh Hp) as H. unfold wp, on_st in *.
  destruct (bs_set a (f_st f)) as [r s']. destruct H as [-> H]. by apply HQ.
Qed.
Lemma wp_revoke a (Q : result unit -> fsys St -> Prop) :
  n + 1 < 2 ^ 32 -> 0 <= a -> a ∉ p ->
  (forall r f', (forall rc, r = Err rc -> rc <> EOK) -> r = fst (bs_revoke a (f_st f)) ->
     fabs (n + 1) f' sb ir l c h p -> Q r f') ->
  wp (on_st (bs_revoke a)) f Q.
Proof.
  intros Hn Ha Hp HQ. destruct A as [A1 A2 A3 A4].
  pose proof (bs_revoke_wp _ _ _ _ _ _ A4 Hn Ha Hp) as H. unfold wp, on_st in *.
  destruct (bs_revoke a (f_st f)) as [r s'] eqn:E. destruct H as [Hr H]. by apply HQ.
Qed.
Lemma wp_invalidate a k (Q : result unit -> fsys St -> Prop) :
  0 <= a -> 0 < k -> a + k < 2 ^ 64 -> (forall x, a <= x < a + k -> h x = 0) ->
  (forall f' c', (forall x, ~ (a <= x < a + k) -> c' x = c x) ->
     fabs n f' sb ir l c' h p -> Q (Ok tt) f') ->
  wp (mmod (fun f => f_set_st (bs_invalidate a k (f_st f)) f)) f Q.
Proof.
  intros Ha Hk Hlt Hh HQ. destruct A as [A1 A2 A3 A4]. apply wp_mod.
  destruct (bs_invalidate_abs _ _ _ _ _ _ _ A4 Ha Hk Hlt Hh) as (c' & Hc & H). by apply (HQ _ c').
Qed.
End State.

Lemma wp_or_else {A} (m : M (fsys St) A) cl f (Q : result A -> fsys St -> Prop) :
  wp m f (fun r f' => match r with
                      | Ok a => Q (Ok a) f'
                      | Err rc => wp cl f' (fun _ f2 => Q (Err rc) f2)
                      end) ->
  wp (or_else m cl) f Q.
Proof.
  unfold wp, or_else, mbnd, mtry. destruct (m f) as [[a|rc] f']; [done|].
  destruct (cl f') as [r f2]. by cbn.
Qed.

End FsSpec.

(** One step of file-system code: the state is the one a [fabs] is known of. *)
Ltac fs_step :=
  lazymatch goal with
  | A : fabs _ ?f _ _ _ _ _ _ |- wp (mget f_sb) ?f _ => apply (wp_sb _ _ _ _ _ _ _ _ A)
  | A : fabs _ ?f _ _ _ _ _ _ |- wp (mget f_iref) ?f _ => apply (wp_iref _ _ _ _ _ _ _ _ A)
  | A : fabs _ ?f _ _ _ _ _ _ |- wp (data _) ?f _ => apply (wp_data _ _ _ _ _ _ _ _ A)
  | A : fabs _ ?f _ _ _ _ _ _ |- wp (store _ _) ?f _ => apply (wp_store _ _ _ _ _ _ _ _ A)
  | A : fabs _ ?f _ _ _ _ _ _ |- wp (mtry (on_st (bs_dirty _))) ?f _ =>
      apply (wp_dirty _ _ _ _ _ _ _ _ A)
  | A : fabs _ ?f _ _ _ _ _ _ |- wp (on_st (bs_get _)) ?f _ =>
      apply (wp_get_block _ _ _ _ _ _ _ _ A)
  | A : fabs _ ?f _ _ _ _ _ _ |- wp (on_st (bs_set _)) ?f _ =>
      apply (wp_set_block _ _ _ _ _ _ _ _ A)
  | |- wp (or_else _ _) _ _ => apply wp_or_else
  | |- _ => wp_step
  end; cbv beta iota.

(** Values of functions changed at some points. *)
Lemma fupd_fupd {A} a (v w : A) f x : fupd a v (fupd a w f) x = fupd a v f x.
Proof. unfold fupd. by case_match. Qed.
Lemma fupd_comm {A} a b (v w : A) f x : a <> b -> fupd a v (fupd b w f) x = fupd b w (fupd a v f) x.
Proof. intros H. unfold fupd. destruct (Z.eqb_spec x a), (Z.eqb_spec x b); congruence. Qed.
Lemma fupd_restore a (k : Z) h x : fupd a (fupd a (h a + k) h a - k) (fupd a (h a + k) h) x = h x.
Proof. rewrite fupd_fupd. unfold fupd. destruct (Z.eqb_spec x a) as [->|]; [|done]. rewrite Z.eqb_refl. lia. Qed.

Lemma fupd_put_back a (v w : Z) h x : v = h a -> fupd a v (fupd a w h) x = h x.
Proof. intros ->. rewrite fupd_fupd. unfold fupd. by destruct (Z.eqb_spec x a) as [->|]. Qed.

(** Equality of such functions at a point [x]. *)
Ltac fupd_at x :=
  unfold fupd;
  repeat match goal with
  | |- context [x =? ?b] => destruct (Z.eqb_spec x b) as [-> | ?]
  | |- context [?a =? ?b] => destruct (Z.eqb_spec a b)
  end;
  first [done | congruence | lia].

Section GroupRefs.
Context {St : Type} {BS : BlockStore St} {bsz : Z} {BL : BlockStoreLaws St bsz}.
Context (n : Z) (f : fsys St) (sb : list Z) (ir : inode_ref) (l : Z).
Context (c : Z -> list Z) (h : Z -> Z) (p : gset Z).
Context (A : fabs (bsz := bsz) n f sb ir l c h p).

(** A reference to a group whose bitmaps are initialised: one more handle, and
    nothing else. *)
Lemma get_ref_wp g :
  n + 1 < 2 ^ 32 -> desc_blk sb g ∉ p -> group_ready sb g (c (desc_blk sb g)) = true ->
  wp (ext4_fs_get_block_group_ref g) f (fun r f' =>
    match r with
    | Ok r => r = group_ref sb g /\ desc_blk sb g <> 0 /\
              fabs (bsz := bsz) (n + 1) f' sb ir l c (fupd (desc_blk sb g) (h (desc_blk sb g) + 1) h) p
    | Err rc => clean_err (St := St) rc /\ fabs (bsz := bsz) (n + 1) f' sb ir l c h p
    end).
Proof.
  intros Hn Hp Hr. unfold group_ready in Hr. apply andb_true_iff in Hr as [H1%negb_true_iff H2%negb_true_iff].
  unfold ext4_fs_get_block_group_ref. fs_step. fs_step. fold (desc_blk sb g) (desc_off sb g).
  fs_step. fs_step; [done|apply desc_blk_nonneg|done| |].
  - intros f' H0 A'. pose proof (fabs_held _ _ _ _ _ _ _ _ A (desc_blk sb g)) as Hh0.
    assert (Hh : 0 < fupd (desc_blk sb g) (h (desc_blk sb g) + 1) h (desc_blk sb g)) by (rewrite fupd_eq; lia).
    fs_step. fs_step; [done|]. rewrite H1. fs_step. fs_step. fs_step. fs_step; [done|]. rewrite H2. by fs_step.
  - done.
Qed.

(** Giving it back unchanged. *)
Lemma put_clean_wp r :
  br_dirty r = false -> 0 < h (br_block r) -> br_block r ∉ p ->
  wp (ext4_fs_put_block_group_ref r) f (fun x f' =>
    x = Ok tt /\ fabs (bsz := bsz) n f' sb ir l c (fupd (br_block r) (h (br_block r) - 1) h) p).
Proof.
  intros Hd Hh Hp. unfold ext4_fs_put_block_group_ref. rewrite Hd. fs_step. fs_step. by fs_step.
Qed.

(** Giving it back changed: with its checksum, marked dirty. *)
Lemma put_dirty_wp r :
  br_dirty r = true -> 0 < h (br_block r) ->
  wp (ext4_fs_put_block_group_ref r) f (fun x f' =>
    x = Ok tt /\
    let b := c (br_block r) in
    fabs (bsz := bsz) n f' sb ir l
      (fupd (br_block r) (wr bg_checksum (br_off r)
         (ext4_fs_bg_checksum sb (br_index r) (br_off r) b) b) c)
      (fupd (br_block r) (h (br_block r) - 1) h) (p ∖ {[br_block r]})).
Proof.
  intros Hd Hh. unfold ext4_fs_put_block_group_ref. rewrite Hd.
  fs_step. fs_step. fs_step. fs_step. fs_step; [done|]. fs_step. fs_step; [done| |].
  { intros Hl Hb. split; [by rewrite blen_wr|by apply bytes_ok_wr]. }
  intros f1 A1. fs_step. fs_step; [done|]. intros f2 A2. fs_step.
  fs_step; [done|set_solver|]. intros f3 A3. split; [done|].
  assert (Hb : n <= n < 2 ^ 32) by (split; [lia|]; eapply bs_budget, (fa_st _ _ _ _ _ _ _ _ A)).
  eapply (fabs_weaken _ _ _ _ _ _ _ _ A3); [done|done|done|set_solver].
Qed.
End GroupRefs.
