(* ===== verification/GroupLaws.v ===== *)
(** * Laws of group descriptors and bitmap checksums

    What the allocators' proofs share: stores that keep the length of a block,
    stores over stores, the checksums of descriptors and bitmaps after they were
    set, and where descriptors lie in their blocks. *)

From S2P Require Import Prelude Layout Types Bitmap Crc Super BlockGroup Inode Store Group Fs FsSpec.

Lemma bg_get16_nonneg lo hi p b s :
  0 <= f_size lo -> 0 <= bg_get16 lo hi p b s.
Proof.
  intros Hs. unfold bg_get16. pose proof (rd_range lo p b Hs). case_match; [|lia].
  apply Z.lor_nonneg. split; [lia|apply u32_range].
Qed.
Lemma bg_get32_nonneg lo hi p b s :
  0 <= f_size lo -> 0 <= bg_get32 lo hi p b s.
Proof.
  intros Hs. unfold bg_get32. pose proof (rd_range lo p b Hs). case_match; [|lia].
  apply Z.lor_nonneg. split; [lia|apply u64_range].
Qed.

(** Length and bytes survive every store of the allocator. *)
Definition keeps (g : list Z -> list Z) : Prop :=
  forall b, blen (g b) = blen b /\ (bytes_ok b -> bytes_ok (g b)).

Lemma keeps_wr fl p v : keeps (wr fl p v).
Proof. intros b. split; [apply blen_wr|apply bytes_ok_wr]. Qed.
Lemma keeps_comp f g : keeps f -> keeps g -> keeps (fun b => f (g b)).
Proof. intros Hf Hg b. destruct (Hf (g b)), (Hg b). split; [congruence|auto]. Qed.
Lemma keeps_if (x : bool) f g : keeps f -> keeps g -> keeps (fun b => if x then f b else g b).
Proof. by destruct x. Qed.
Lemma keeps_id : keeps (fun b => b).
Proof. done. Qed.
Lemma keeps_bg_set16 lo hi p s v : keeps (bg_set16 lo hi p s v).
Proof.
  intros b. split; [apply blen_bg_set16|]. intros Hb. unfold bg_set16.
  case_match; repeat apply bytes_ok_wr; done.
Qed.
Lemma keeps_csum_halves lo hi sb p v : keeps (set_csum_halves lo hi sb p v).
Proof.
  unfold set_csum_halves. apply keeps_if; [apply keeps_id|]. apply keeps_if; [|apply keeps_wr].
  apply (keeps_comp (wr hi p _)); apply keeps_wr.
Qed.
Lemma keeps_bit_set i : keeps (fun bm => ext4_bmap_bit_set bm i).
Proof. intros b. split; [apply blen_bit_set|apply bytes_ok_set_byte]. Qed.
Lemma keeps_bit_clr i : keeps (fun bm => ext4_bmap_bit_clr bm i).
Proof. intros b. split; [apply blen_bit_clr|apply bytes_ok_set_byte]. Qed.

(** ** Checksums and where they are stored *)

(** The checksum of a descriptor does not depend on the checksum in it. *)
Lemma bg_checksum_stored sb g p v b :
  0 <= p -> ext4_sb_feature_ro_com sb EXT4_FRO_COM_METADATA_CSUM = true ->
  ext4_fs_bg_checksum sb g p (wr bg_checksum p v b) = ext4_fs_bg_checksum sb g p b.
Proof.
  intros Hp Hc. unfold ext4_fs_bg_checksum. rewrite Hc. rewrite wr_wr; [done|]. cbn. lia.
Qed.

Lemma bg_verify_stored sb g p b :
  0 <= p -> p + 32 <= blen b ->
  ext4_fs_verify_bg_csum sb g p (wr bg_checksum p (ext4_fs_bg_checksum sb g p b) b) = true.
Proof.
  intros Hp Hb. unfold ext4_fs_verify_bg_csum.
  destruct (ext4_sb_feature_ro_com sb EXT4_FRO_COM_METADATA_CSUM) eqn:Hc; [|done]. cbn [negb].
  rewrite bg_checksum_stored by done. rd_same 32. change (8 * f_size bg_checksum) with 16.
  apply Z.eqb_eq. symmetry. apply Z.mod_small. unfold ext4_fs_bg_checksum. rewrite Hc.
  rewrite (Z.land_ones _ 16) by lia. apply Z.mod_pos_bound. lia.
Qed.

(** ** The checksum of a bitmap *)

Section CsumHalves.
Context (lo hi : field) (sb : list Z) (p : Z).
Context (Hp : 0 <= p) (Hlo : f_within 32 lo = true) (Hhi : f_within 64 hi = true).
Context (Hd : f_disj lo hi = true) (Slo : f_size lo = 2) (Shi : f_size hi = 2).

(** Only the two halves are read; only they are written. *)
Lemma verify_halves_ext v b b' :
  rd lo p b' = rd lo p b -> rd hi p b' = rd hi p b ->
  verify_csum_halves lo hi sb p v b' = verify_csum_halves lo hi sb p v b.
Proof. unfold verify_csum_halves. by intros -> ->. Qed.
Lemma rd_set_halves fl v b :
  f_disj lo fl = true -> f_disj hi fl = true ->
  rd fl p (set_csum_halves lo hi sb p v b) = rd fl p b.
Proof. intros. unfold set_csum_halves. repeat case_match; by rewrite ?rd_wr_ne. Qed.
Lemma set_halves_out v b j n :
  32 <= n -> (ext4_sb_get_desc_size sb = 64 -> 64 <= n) -> 0 <= j -> j < p \/ p + n <= j ->
  byte_at (set_csum_halves lo hi sb p v b) j = byte_at b j.
Proof.
  intros Hn H64 Hj Ho. unfold set_csum_halves. case_match; [done|].
  destruct (Z.eqb_spec (ext4_sb_get_desc_size sb) EXT4_MAX_BLOCK_GROUP_DESCRIPTOR_SIZE) as [E|E].
  - specialize (H64 E). rewrite (byte_at_wr_out _ _ _ _ _ 64), (byte_at_wr_out _ _ _ _ _ 32) by (done || lia). done.
  - by rewrite (byte_at_wr_out _ _ _ _ _ 32) by (done || lia).
Qed.
Lemma verify_set_halves v b :
  0 <= v < 2 ^ 32 -> p + ext4_sb_get_desc_size sb <= blen b ->
  verify_csum_halves lo hi sb p v (set_csum_halves lo hi sb p v b) = true.
Proof.
  intros Hv Hb. pose proof (desc_size_range sb) as Hds.
  unfold verify_csum_halves, set_csum_halves.
  destruct (ext4_sb_feature_ro_com sb _); cbn [negb]; [|done].
  assert (E1 : Z.land v 0xFFFF mod 2 ^ 16 = Z.land v 0xFFFF).
  { change 0xFFFF with (Z.ones 16). rewrite Z.land_ones by lia. apply Z.mod_mod. lia. }
  assert (E2 : Z.shiftr v 16 mod 2 ^ 16 = Z.shiftr v 16).
  { rewrite Z.shiftr_div_pow2 by lia. apply Z.mod_small.
    split; [apply Z.div_pos; lia|apply Z.div_lt_upper_bound; lia]. }
  assert (Hd' : f_disj hi lo = true) by (unfold f_disj in *; lia).
  destruct (Z.eqb_spec (ext4_sb_get_desc_size sb) EXT4_MAX_BLOCK_GROUP_DESCRIPTOR_SIZE) as [E|E]; cbn [andb].
  - change EXT4_MAX_BLOCK_GROUP_DESCRIPTOR_SIZE with 64 in E. rewrite E in Hb.
    rewrite (rd_wr_ne hi lo) by done. rewrite (rd_wr_eq lo _ _ _ 32), Slo by (done || lia).
    change (8 * 2) with 16. rewrite E1, Z.eqb_refl. cbn [negb].
    rewrite (rd_wr_eq hi _ _ _ 64), Shi by (done || (rewrite blen_wr; lia)).
    change (8 * 2) with 16. by rewrite E2, Z.eqb_refl.
  - rewrite (rd_wr_eq lo _ _ _ 32), Slo by (done || lia). change (8 * 2) with 16.
    by rewrite E1, Z.eqb_refl.
Qed.
End CsumHalves.

Lemma ialloc_csum_range sb bm : 0 <= ext4_ialloc_bitmap_csum sb bm < 2 ^ 32.
Proof. unfold ext4_ialloc_bitmap_csum. case_match; [apply ext4_crc32c_range|lia]. Qed.
Lemma balloc_csum_range sb bm : 0 <= ext4_balloc_bitmap_csum sb bm < 2 ^ 32.
Proof. unfold ext4_balloc_bitmap_csum. case_match; [apply ext4_crc32c_range|lia]. Qed.

(** The abstract descriptor does not see bitmap checksums. *)
Lemma bg_abs_set_halves clo chi sb p v b :
  0 <= p ->
  (forall lo hi, halves_disj clo chi lo hi = halves_disj bg_block_bitmap_csum_lo bg_block_bitmap_csum_hi lo hi
     \/ halves_disj clo chi lo hi = halves_disj bg_inode_bitmap_csum_lo bg_inode_bitmap_csum_hi lo hi) ->
  bg_abs sb p (set_csum_halves clo chi sb p v b) = bg_abs sb p b.
Proof.
  intros Hp Hc.
  assert (H16 : forall lo hi,
    halves_disj bg_block_bitmap_csum_lo bg_block_bitmap_csum_hi lo hi = true ->
    halves_disj bg_inode_bitmap_csum_lo bg_inode_bitmap_csum_hi lo hi = true ->
    bg_get16 lo hi p (set_csum_halves clo chi sb p v b) sb = bg_get16 lo hi p b sb /\
    bg_get32 lo hi p (set_csum_halves clo chi sb p v b) sb = bg_get32 lo hi p b sb).
  { intros lo hi H1 H2. apply (bg_get_ne sb p b lo hi clo chi); [intros; by apply rd_set_halves|].
    destruct (Hc lo hi) as [-> | ->]; done. }
  unfold bg_abs. unfold_bg.
  rewrite !(fun lo hi H1 H2 => proj1 (H16 lo hi H1 H2)) by reflexivity.
  rewrite !(fun lo hi H1 H2 => proj2 (H16 lo hi H1 H2)) by reflexivity.
  f_equal. destruct (H16 bg_flags bg_flags eq_refl eq_refl) as [E _]. revert E.
  unfold bg_get16. case_match; [|done]. intros E.
  rewrite rd_set_halves; [done|done|..]; pose proof (Hc bg_flags bg_flags) as Hf; revert Hf;
    cbn [halves_disj]; unfold halves_disj; rewrite !andb_diag; intros [Hf|Hf]; revert Hf;
    (destruct (f_disj clo bg_flags), (f_disj chi bg_flags); done).
Qed.
Lemma bg_abs_set_csum sb p bm b :
  0 <= p -> bg_abs sb p (ext4_balloc_set_bitmap_csum sb p bm b) = bg_abs sb p b.
Proof. intros. apply bg_abs_set_halves; [done|by left]. Qed.
Lemma bg_abs_set_icsum sb p bm b :
  0 <= p -> bg_abs sb p (ext4_ialloc_set_bitmap_csum sb p bm b) = bg_abs sb p b.
Proof. intros. apply bg_abs_set_halves; [done|by right]. Qed.

(** Descriptors of 32 or 64 bytes, inside their blocks. *)
Record desc_geometry (sb : list Z) (bsz : Z) : Prop := {
  dg_bsz : ext4_sb_get_block_size sb = bsz;
  dg_size : ext4_sb_get_desc_size sb = 32 \/ ext4_sb_get_desc_size sb = 64;
}.

Lemma bg_size_desc sb bsz : desc_geometry sb bsz -> bg_size sb = ext4_sb_get_desc_size sb.
Proof. intros [_ [E|E]]; unfold bg_size, bg_wide; by rewrite E. Qed.

Lemma desc_off_bound sb bsz g :
  desc_geometry sb bsz -> 0 <= g ->
  0 <= desc_off sb g /\ desc_off sb g + ext4_sb_get_desc_size sb <= bsz.
Proof.
  intros [Hb Hs] Hg. unfold desc_off, dsc_per_block. rewrite Hb.
  destruct (block_size_cases sb) as (k & Hk & E). rewrite Hb in E.
  pose proof (Z.pow_le_mono_r 2 k 6 ltac:(lia) ltac:(lia)). pose proof (Z.pow_pos_nonneg 2 k ltac:(lia) ltac:(lia)).
  set (ds := ext4_sb_get_desc_size sb) in *.
  assert (Hds : 0 < ds) by lia.
  assert (Hq : bsz / ds * ds <= bsz /\ 0 < bsz / ds).
  { split; [rewrite Z.mul_comm; by apply Z.mul_div_le|]. apply Z.div_str_pos. lia. }
  pose proof (Z.mod_pos_bound g (bsz / ds) ltac:(lia)) as Hm. clearbody ds.
  assert (0 <= (g mod (bsz / ds)) * ds /\ (g mod (bsz / ds)) * ds + ds <= bsz) by nia.
  rewrite u32_id by lia. lia.
Qed.

Lemma bg_abs_ext sb p b b' :
  (forall j, p <= j < p + bg_size sb -> byte_at b j = byte_at b' j) -> bg_abs sb p b = bg_abs sb p b'.
Proof.
  intros H. assert (H32 : 32 <= bg_size sb) by (unfold bg_size; case_match; lia).
  assert (E : forall fl, f_within 32 fl = true -> rd fl p b = rd fl p b').
  { intros fl Hfl. apply (rd_ext _ _ _ _ 32); [done|]. intros j Hj. apply H. lia. }
  assert (E64 : bg_wide sb = true -> forall fl, f_within 64 fl = true -> rd fl p b = rd fl p b').
  { intros Hw fl Hfl. apply (rd_ext _ _ _ _ 64); [done|]. intros j Hj. apply H.
    unfold bg_size in *. rewrite Hw in *. lia. }
  assert (E16 : forall lo hi, f_within 32 lo = true -> f_within 64 hi = true ->
    bg_get16 lo hi p b sb = bg_get16 lo hi p b' sb /\ bg_get32 lo hi p b sb = bg_get32 lo hi p b' sb).
  { intros lo hi H1 H2. unfold bg_get16, bg_get32. rewrite (E lo) by done.
    destruct (bg_wide sb) eqn:Ew; [|done]. by rewrite (E64 eq_refl hi). }
  unfold bg_abs. unfold_bg.
  rewrite !(fun lo hi H1 H2 => proj1 (E16 lo hi H1 H2)) by reflexivity.
  rewrite !(fun lo hi H1 H2 => proj2 (E16 lo hi H1 H2)) by reflexivity.
  by rewrite (E bg_flags) by reflexivity.
Qed.


(** ** A descriptor written back: setters, then its checksum *)

Definition seal (sb : list Z) (g off : Z) (d : list Z) : list Z :=
  wr bg_checksum off (ext4_fs_bg_checksum sb g off d) d.
Definition run_bg_ops (sb : list Z) (off : Z) (l : list bg_op) (d : list Z) : list Z :=
  fold_left (fun b o => run_bg_op sb off o b) l d.

Lemma keeps_bg_op sb off o : keeps (run_bg_op sb off o).
Proof.
  intros b. split; [apply bg_op_len|]. intros Hb.
  destruct o; cbn [run_bg_op]; unfold_bg; unfold bg_set16, bg_set32;
    repeat case_match; repeat apply bytes_ok_wr; done.
Qed.
Lemma keeps_bg_ops sb off l : keeps (run_bg_ops sb off l).
Proof.
  unfold run_bg_ops. induction l as [|o l IH]; [apply keeps_id|]. cbn [fold_left].
  apply (keeps_comp (fun b => fold_left _ l b) (run_bg_op sb off o)); [exact IH|apply keeps_bg_op].
Qed.
Lemma keeps_seal sb g off : keeps (seal sb g off).
Proof. intros b. apply keeps_wr. Qed.

(** The setters that leave the bitmap checksums alone: all of them. *)
Definition bg_csum_field (fl : field) : bool :=
  f_disj bg_block_bitmap_lo fl && f_disj bg_block_bitmap_hi fl &&
  f_disj bg_inode_bitmap_lo fl && f_disj bg_inode_bitmap_hi fl &&
  f_disj bg_inode_table_first_block_lo fl && f_disj bg_inode_table_first_block_hi fl &&
  f_disj bg_free_blocks_count_lo fl && f_disj bg_free_blocks_count_hi fl &&
  f_disj bg_free_inodes_count_lo fl && f_disj bg_free_inodes_count_hi fl &&
  f_disj bg_used_dirs_count_lo fl && f_disj bg_used_dirs_count_hi fl &&
  f_disj bg_itable_unused_lo fl && f_disj bg_itable_unused_hi fl &&
  f_disj bg_flags fl && f_disj bg_checksum fl.

Section Ops.
Context (sb : list Z) (g off : Z) (Hoff : 0 <= off).

Lemma rd_bg_op fl o b :
  bg_csum_field fl = true -> rd fl off (run_bg_op sb off o b) = rd fl off b.
Proof.
  intros H. unfold bg_csum_field in H. rewrite !andb_true_iff in H. destruct_and? H.
  destruct o; cbn [run_bg_op]; unfold_bg;
    first [by apply rd_bg_set16_ne | by apply rd_bg_set32_ne | by apply rd_wr_ne].
Qed.
Lemma rd_bg_ops fl l : forall b,
  bg_csum_field fl = true -> rd fl off (run_bg_ops sb off l b) = rd fl off b.
Proof.
  unfold run_bg_ops. induction l as [|o l IH]; intros b H; [done|]. cbn [fold_left].
  by rewrite IH, rd_bg_op.
Qed.

Lemma bg_ops_abs l : forall b,
  off + bg_size sb <= blen b -> forallb bg_op_ok l = true ->
  bg_abs sb off (run_bg_ops sb off l b) = fold_left (fun d o => step_bg sb o d) l (bg_abs sb off b).
Proof.
  unfold run_bg_ops. induction l as [|o l IH]; intros b Hb Hl; [done|].
  cbn [forallb fold_left] in *. apply andb_true_iff in Hl as [Ho Hl].
  rewrite IH; [by rewrite bg_op_abs| |done]. by rewrite bg_op_len.
Qed.
Lemma bg_ops_out l j : forall b,
  off + bg_size sb <= blen b -> 0 <= j -> j < off \/ off + bg_size sb <= j ->
  byte_at (run_bg_ops sb off l b) j = byte_at b j.
Proof.
  unfold run_bg_ops. induction l as [|o l IH]; intros b Hb Hj Ho; [done|]. cbn [fold_left].
  rewrite IH; [|by rewrite bg_op_len|done..]. by apply bg_op_out.
Qed.

(** The checksum is outside of the abstract descriptor. *)
Lemma bg_abs_wr_checksum v b : bg_abs sb off (wr bg_checksum off v b) = bg_abs sb off b.
Proof.
  unfold bg_abs. unfold_bg.
  assert (H16 : forall lo hi, halves_disj bg_checksum bg_checksum lo hi = true ->
    bg_get16 lo hi off (wr bg_checksum off v b) sb = bg_get16 lo hi off b sb /\
    bg_get32 lo hi off (wr bg_checksum off v b) sb = bg_get32 lo hi off b sb).
  { intros lo hi Hd. by apply (bg_get_wr_ne sb off b). }
  rewrite !(fun lo hi H => proj1 (H16 lo hi H)), !(fun lo hi H => proj2 (H16 lo hi H)) by reflexivity.
  by rewrite rd_wr_ne.
Qed.
Lemma seal_out b j :
  0 <= j -> j < off \/ off + bg_size sb <= j -> byte_at (seal sb g off b) j = byte_at b j.
Proof.
  intros Hj Ho. assert (32 <= bg_size sb) by (unfold bg_size; case_match; lia).
  unfold seal. by rewrite (byte_at_wr_out _ _ _ _ _ 32) by (done || lia).
Qed.
End Ops.
