(* ===== verification/Extent.v ===== *)
(** * Extent trees

    The part of Core/lwext4/src/ext4_extent.c that walks a tree: from the root in
    the inode down to a leaf, one block held per level, and what the walk is for:
    where a block of the file is.

    A path is the list of its levels, root first.  A level names the buffer its
    node is in (the root's is the inode's) and the byte its header starts at;
    [lb_id] is 0 for the root. *)

From S2P Require Import Prelude Layout Types Super Inode ExtNode Store Fs.

Record ext_path := mk_ext_path {
  pt_lb_id : Z;
  pt_buf : Z;
  pt_header : Z;
  pt_p_block : Z;
  pt_depth : Z;
  pt_index : option Z;
  pt_extent : option Z;
}.

Section Extent.
Context {St : Type} {BS : BlockStore St}.
Local Abbreviation fsys := (fsys St).

(** [ext_inode_hdr]: buffer and byte of the root's header. *)
Definition ext_inode_hdr : M fsys (Z * Z) :=
  r <- mget f_iref;; mok (ir_block r, ext4_inode_get_extent_header (ir_off r)).
Definition ext_depth : M fsys Z :=
  let* (a, p) := ext_inode_hdr in
  b <- data a;;
  mok (rd eh_depth p b).

(** One level given back; a dirty node gets its checksum.  The result of
    [ext4_block_set] is dropped. *)
Definition drop_level (l : ext_path) : M fsys unit :=
  if pt_lb_id l =? 0 then mok tt
  else
    sb <- mget f_sb;;
    r <- mget f_iref;;
    inode <- data (ir_block r);;
    dirty <- mget (fun f => bs_is_dirty (pt_lb_id l) (f_st f));;
    (if (dirty : bool)
     then store (pt_lb_id l) (ext4_extent_block_csum_set sb (ir_index r)
            (ext4_inode_get_generation (ir_off r) inode) (pt_header l))
     else mok tt);;;
    mtry (on_st (bs_set (pt_lb_id l)));;;
    mok tt.
Fixpoint drop_levels (path : list ext_path) : M fsys unit :=
  match path with
  | [] => mok tt
  | l :: path => drop_level l;;; drop_levels path
  end.
Definition ext4_ext_drop_refs (path : list ext_path) (keep_other : bool) : M fsys unit :=
  drop_levels (if keep_other then take 1 path else path).

(** [bh]: the block the caller's handle names, 0 if it is empty.  A refused fetch
    leaves the handle as it was; one that fails to read leaves it empty. *)
Definition read_extent_tree_block (pblk depth bh : Z) : M fsys unit :=
  refused <- mget (fun f => bs_refuses pblk (f_st f));;
  r <- mtry (on_st (bs_get pblk));;
  match r with
  | Err rc =>
      (if (refused : bool) && negb (bh =? 0) then mtry (on_st (bs_set bh)) else mok (Ok tt));;;
      mfail rc
  | Ok _ =>
      sb <- mget f_sb;;
      root_depth <- ext_depth;;
      b <- data pblk;;
      match ext4_ext_check sb root_depth 0 depth b with
      | Ok _ => mok tt
      | Err rc => mtry (on_st (bs_set pblk));;; mfail rc
      end
  end.

(** [while (i)]: from the level [l] at depth [i] down; [bh] is the block of [l].
    The levels from [l] on, or the error and the levels to give back. *)
Fixpoint find_extent_loop (i : nat) (block : Z) (l : ext_path) : M fsys (list ext_path + Z * list ext_path) :=
  b <- data (pt_buf l);;
  match i with
  | O =>
      let ex := ext4_ext_binsearch (pt_header l) block b in
      let p_block := match ex with
                     | Some k => ext4_ext_pblock (ext_entry (pt_header l) k) b
                     | None => pt_p_block l
                     end in
      mok (inl [mk_ext_path (pt_lb_id l) (pt_buf l) (pt_header l) p_block 0 None ex])
  | S i =>
      let ix := ext4_ext_binsearch_idx (pt_header l) block b in
      let buf_block := ext4_idx_pblock (ext_entry (pt_header l) ix) b in
      let l := mk_ext_path (pt_lb_id l) (pt_buf l) (pt_header l) buf_block (Z.of_nat (S i)) (Some ix) None in
      r <- mtry (read_extent_tree_block buf_block (Z.of_nat i) (pt_lb_id l));;
      match r with
      | Err rc => mok (inr (rc, [l]))
      | Ok _ =>
          r <- find_extent_loop i block (mk_ext_path buf_block buf_block 0 0 0 None None);;
          match r with
          | inl path => mok (inl (l :: path))
          | inr (rc, path) => mok (inr (rc, l :: path))
          end
      end
  end.

(** With no path to reuse.  Running out of memory is left out. *)
Definition ext4_find_extent (block : Z) : M fsys (list ext_path) :=
  let* (a, p) := ext_inode_hdr in
  depth <- ext_depth;;
  if EXT4_MAX_EXTENT_DEPTH <? depth then mfail EIO
  else
    sb <- mget f_sb;;
    b <- data a;;
    match ext4_ext_check sb depth p depth b with
    | Err rc => mfail rc
    | Ok _ =>
        r <- find_extent_loop (Z.to_nat depth) block (mk_ext_path 0 a p 0 0 None None);;
        match r with
        | inl path => mok path
        | inr (rc, path) => ext4_ext_drop_refs path false;;; mfail rc
        end
    end.

(** [path[depth]], the leaf. *)
Definition path_leaf (path : list ext_path) : ext_path :=
  List.last path (mk_ext_path 0 0 0 0 0 None None).

(** The first block of the entry after the path's, on the lowest level that has
    one: [levels] is the path, leaf first. *)
Fixpoint next_allocated_loop (levels : list ext_path) (leaf : bool) : M fsys Z :=
  match levels with
  | [] => mok EXT_MAX_BLOCKS
  | l :: levels =>
      b <- data (pt_buf l);;
      let last := EXT_LAST_EXTENT (pt_header l) b in
      let cur := if leaf then pt_extent l else pt_index l in
      match cur with
      | Some k =>
          if negb (k =? last) then mok (rd ex_first_block (ext_entry (pt_header l) (k + 1)) b)
          else next_allocated_loop levels false
      | None => next_allocated_loop levels false
      end
  end.
Definition ext4_ext_next_allocated_block (path : list ext_path) : M fsys Z :=
  match path with
  | [l] => match pt_extent l with
           | None => mok EXT_MAX_BLOCKS
           | Some _ => next_allocated_loop [l] true
           end
  | _ => next_allocated_loop (rev path) true
  end.

(** The extent of the path's leaf. *)
Definition leaf_extent (path : list ext_path) : M fsys (option extent) :=
  let l := path_leaf path in
  b <- data (pt_buf l);;
  mok (match pt_extent l with
       | Some k => Some (extent_at (ext_entry (pt_header l) k) b)
       | None => None
       end).

(** First block, length and state of the run of allocated blocks at [iblock]; a
    start of 0: not allocated. *)
Definition ext4_extent_map_range (iblock max_blocks : Z) : M fsys (Z * Z * bool) :=
  path <- ext4_find_extent iblock;;
  ex <- leaf_extent path;;
  let answer :=
    match ex with
    | Some x =>
        if IN_RANGE iblock (x_first x) (x_len x) then
          let allocated := u32 (x_len x - u32 (iblock - x_first x)) in
          let allocated := if max_blocks <? allocated then max_blocks else allocated in
          (u64 (u32 (iblock - x_first x) + x_start x), allocated, x_unwritten x)
        else (0, 0, false)
    | None => (0, 0, false)
    end in
  ext4_ext_drop_refs path false;;;
  mok answer.

(** As [ext4_extent_map_range]; for a hole, the length of the gap. *)
Definition ext4_extent_probe (iblock : Z) : M fsys (Z * Z * bool) :=
  path <- ext4_find_extent iblock;;
  ex <- leaf_extent path;;
  let hit :=
    match ex with
    | Some x => if IN_RANGE iblock (x_first x) (x_len x) then Some x else None
    | None => None
    end in
  answer <- (match hit with
             | Some x =>
                 mok (u64 (x_start x + u32 (iblock - x_first x)), u32 (x_len x - u32 (iblock - x_first x)), x_unwritten x)
             | None =>
                 next <- ext4_ext_next_allocated_block path;;
                 mok (0, (if next =? EXT_MAX_BLOCKS then 0 else u32 (next - iblock)), false)
             end);;
  ext4_ext_drop_refs path false;;;
  mok answer.

(** [ext4_extent_get_blocks] with [create] false. *)
Definition extent_get_blocks_read (iblock max_blocks : Z) : M fsys (Z * Z) :=
  path <- ext4_find_extent iblock;;
  ex <- leaf_extent path;;
  let answer :=
    match ex with
    | Some x =>
        if IN_RANGE iblock (x_first x) (x_len x) then
          let allocated := u32 (x_len x - u32 (iblock - x_first x)) in
          let newblock := if x_unwritten x then 0 else u64 (u32 (iblock - x_first x) + x_start x) in
          (newblock, if max_blocks <? allocated then max_blocks else allocated)
        else (0, 0)
    | None => (0, 0)
    end in
  ext4_ext_drop_refs path false;;;
  mok answer.
End Extent.
