(* ===== verification/Sample.v ===== *)
(** * A sample volume

    A small volume on a RAM disk, for the concrete instances of the allocators'
    theorems. *)

From S2P Require Import Prelude Layout Types Super BlockGroup Inode Device Bcache BcacheLaws CacheSpec CacheProps.
From S2P Require Import Trans Store Group Fs FsSpec GroupLaws.

(** ** A concrete volume

    10000 blocks of 1 KiB in two groups on a RAM disk: descriptors in block 2,
    block bitmaps in blocks 3 and 4, inode bitmaps in blocks 6 and 7, inodes in
    block 5, held once.  The first eight blocks and the first three inodes of
    group 0 are used.

    The first inode's extent tree has one level below the root: its leaf, block
    8, maps blocks 2..4 of the file to 100..102 and has 7..8 unwritten at 200.
    The second's root is a leaf: 10..14 at 60, 20 at 90.  The third inode is a
    directory of two blocks, 40 and 41, with one entry each: "a", inode 13, and
    "b", inode 14.  The fifth inode has one attribute, user.a, in block 45. *)
Definition vol_attributes (x : Z) : Z :=
  if x =? 9832 then 45
  else if x =? 50178 then 2 else if x =? 50179 then 0xEA else if x =? 50180 then 1 else if x =? 50184 then 1
  else if x =? 50208 then 1 else if x =? 50209 then 1 else if x =? 50210 then 0xFC else if x =? 50211 then 3
  else if x =? 50216 then 3 else if x =? 50224 then 97
  else if x =? 51196 then 1 else if x =? 51197 then 2 else if x =? 51198 then 3
  else 0.
Definition vol_directory (x : Z) : Z :=
  if x =? 9473 then 0x40 else if x =? 9477 then 8 else if x =? 9512 then 40 else if x =? 9516 then 41
  else if x =? 45056 then 13 else if x =? 45061 then 4 else if x =? 45062 then 1 else if x =? 45064 then 97
  else if x =? 46080 then 14 else if x =? 46085 then 4 else if x =? 46086 then 1 else if x =? 46088 then 98
  else vol_attributes x.
Definition vol_extents (x : Z) : Z :=
  if x =? 9256 then 0x0A else if x =? 9257 then 0xF3 else if x =? 9258 then 1 else if x =? 9260 then 4
  else if x =? 9262 then 1 else if x =? 9272 then 8
  else if x =? 9384 then 0x0A else if x =? 9385 then 0xF3 else if x =? 9386 then 2 else if x =? 9388 then 4
  else if x =? 9396 then 10 else if x =? 9400 then 5 else if x =? 9404 then 60
  else if x =? 9408 then 20 else if x =? 9412 then 1 else if x =? 9416 then 90
  else if x =? 12288 then 0x0A else if x =? 12289 then 0xF3 else if x =? 12290 then 2 else if x =? 12292 then 84
  else if x =? 12300 then 2 else if x =? 12304 then 3 else if x =? 12308 then 100
  else if x =? 12312 then 7 else if x =? 12316 then 2 else if x =? 12317 then 0x80 else if x =? 12320 then 200
  else vol_directory x.
Definition vol_mem (x : Z) : Z :=
  if x =? 6144 then 3 else if x =? 6148 then 6 else if x =? 6152 then 5 else if x =? 6156 then 100 else if x =? 6158 then 50
  else if x =? 6176 then 4 else if x =? 6180 then 7 else if x =? 6188 then 100
  else if x =? 6190 then 50
  else if x =? 7168 then 0xFF else if x =? 10240 then 0x07
  else vol_extents x.
Definition vol_dev : dev ramdisk :=
  mk_dev (mk_ramdisk vol_mem (-1)) 512 1 0 0 4096 10240000 0 0.
Definition vol_cache : bdev ramdisk :=
  mk_bdev (ext4_block_set_lb_size 1024 vol_dev) 0 (ext4_bcache_init_dynamic 8 1024).
Definition vol_sb : list Z :=
  sb_set sb_first_data_block 1 (sb_set sb_blocks_per_group 8192
    (sb_set sb_blocks_count_lo 10000 (sb_set sb_free_blocks_count_lo 200
    (sb_set sb_inodes_per_group 128 (sb_set sb_inodes_count 256
    (sb_set sb_free_inodes_count 100 (sb_set sb_inode_size 128 (replicate 1024 0)))))))).
Definition vol_jbd (a : Z) : M (bdev ramdisk) unit := mok tt.
Definition vol_store : BlockStore (bdev ramdisk) := cache_store ram_end_write vol_jbd vol_jbd.
Definition vol_laws : @BlockStoreLaws (bdev ramdisk) vol_store 1024 :=
  cache_store_laws (ph := 512) ram_end_write vol_jbd vol_jbd 1024 10000.
Definition vol_iref : inode_ref := mk_inode_ref 5 0 1 false.
Definition vol_fs_of (ir : inode_ref) : fsys (bdev ramdisk) :=
  mk_fsys false vol_sb 0 ir (snd (ext4_block_get ram_end_write 5 vol_cache)).
Definition vol_fs : fsys (bdev ramdisk) := vol_fs_of vol_iref.
Definition vol_contents : Z -> list Z := content (ph := 512) vol_cache.
Definition vol_held : Z -> Z := fupd 5 1 (fun _ => 0).

Lemma vol_cache_abs : cache_abs (ph := 512) 1024 10000 0 vol_cache vol_contents (fun _ => 0) ∅.
Proof.
  split; [|done..]. split; [|done]. split; [|split].
  - split_and!; first [by exists 9|vm_compute; (discriminate || done)].
  - split_and!; done.
  - split; try done; [apply NoDup_nil_2|]. intros a Ha. by apply not_elem_of_nil in Ha.
Qed.

Lemma vol_fabs_of ir :
  @fabs (bdev ramdisk) vol_store 1024 vol_laws 1 (vol_fs_of ir) vol_sb ir 0 vol_contents vol_held ∅.
Proof.
  split; try done.
  pose proof (cache_bs_get (ph := 512) ram_end_write 1024 10000 0 vol_cache _ _ _ 5 vol_cache_abs
    ltac:(lia) ltac:(lia) ltac:(set_solver)) as H.
  assert (E : fst (ext4_block_get ram_end_write 5 vol_cache) = Ok tt) by (vm_compute; reflexivity).
  unfold wp, vol_fs_of, ext4_trans_block_get in *. cbn [f_st].
  destruct (ext4_block_get ram_end_write 5 vol_cache) as [r s']. cbn in E. subst r. apply H.
Qed.

Lemma vol_fabs :
  @fabs (bdev ramdisk) vol_store 1024 vol_laws 1 vol_fs vol_sb vol_iref 0 vol_contents vol_held ∅.
Proof. apply vol_fabs_of. Qed.

Lemma vol_groups g : 0 <= g < ext4_block_group_cnt vol_sb -> g = 0 \/ g = 1.
Proof. replace (ext4_block_group_cnt vol_sb) with 2 by (vm_compute; reflexivity). lia. Qed.
