(* ===== verification/ExtentProps.v ===== *)
(** * Properties of extent trees

    A well-formed tree stands for one list of extents, and looking a block of the
    file up by walking the tree is looking it up in that list. *)

From S2P Require Import Prelude Layout Types Super BlockGroup Inode ExtNode ExtLaws Device Bcache Store Group Fs FsSpec Extent Sample.

(** ** Trees *)

Section Tree.
Context (sb : list Z) (root_depth : Z) (c : Z -> list Z).

Definition child (a p k : Z) : Z := ext4_idx_pblock (ext_entry p k) (c a).

(** The node at byte [p] of block [a] is the root of a tree of depth [d] whose
    leaves hold the extents [es], all of them in the file blocks [lo .. hi). *)
Fixpoint tree_ok (d : nat) (a p lo hi : Z) (es : list extent) : Prop :=
  ext4_ext_check sb root_depth p (Z.of_nat d) (c a) = Ok tt /\ node_in p (c a) /\
  match d with
  | O => node_extents p (c a) = es /\ leaf_ok es /\
         Forall (fun x => lo <= x_first x /\ x_first x + x_len x <= hi) es
  | S d => exists ess, es = concat ess /\ ess <> [] /\
      Z.of_nat (length ess) = entries_count p (c a) /\
      forall k ek, ess !! k = Some ek ->
        let k := Z.of_nat k in
        let lo_k := first_at p (c a) k in
        let hi_k := if k + 1 <? entries_count p (c a) then first_at p (c a) (k + 1) else hi in
        lo <= lo_k < hi_k /\ hi_k <= hi /\ 0 <= child a p k /\ tree_ok d (child a p k) 0 lo_k hi_k ek
  end.

(** The blocks the tree is made of. *)
Fixpoint tree_blocks (d : nat) (a p : Z) : list Z :=
  match d with
  | O => []
  | S d =>
      concat (map (fun k => let x := child a p (Z.of_nat k) in x :: tree_blocks d x 0)
                (seq 0 (Z.to_nat (entries_count p (c a)))))
  end.

Lemma tree_blocks_child d a p k x :
  0 <= k < entries_count p (c a) -> x ∈ child a p k :: tree_blocks d (child a p k) 0 ->
  x ∈ tree_blocks (S d) a p.
Proof.
  intros Hk Hx. cbn [tree_blocks]. apply list_elem_of_In, in_concat. eexists. split; [|by apply list_elem_of_In].
  apply in_map_iff. exists (Z.to_nat k). rewrite Z2Nat.id by lia. split; [done|]. apply in_seq. lia.
Qed.

Lemma tree_range d : forall a p lo hi es,
  tree_ok d a p lo hi es -> Forall (fun x => lo <= x_first x /\ x_first x + x_len x <= hi) es.
Proof.
  induction d as [|d IH]; intros a p lo hi es (_ & _ & H); [apply H|].
  destruct H as (ess & -> & _ & _ & Hk). apply Forall_concat, Forall_lookup_2. intros k ek Hek.
  destruct (Hk k ek Hek) as (H1 & H2 & _ & H3). apply IH in H3. eapply Forall_impl; [exact H3|].
  intros x Hx. cbn in Hx. lia.
Qed.

Lemma lookup_out lo hi es blk :
  Forall (fun x => lo <= x_first x /\ x_first x + x_len x <= hi) es -> blk < lo \/ hi <= blk ->
  leaf_lookup es blk = None.
Proof.
  intros H Hb. apply leaf_lookup_None. eapply Forall_impl; [exact H|]. unfold covers. intros x Hx. cbn in Hx. lia.
Qed.

Lemma leaf_lookup_concat ess blk : forall k ek,
  ess !! k = Some ek -> (forall j ej, ess !! j = Some ej -> j <> k -> leaf_lookup ej blk = None) ->
  leaf_lookup (concat ess) blk = leaf_lookup ek blk.
Proof.
  induction ess as [|e0 ess IH]; intros k ek Hk Hj; [done|]. cbn [concat]. rewrite leaf_lookup_app.
  destruct k as [|k].
  - cbn in Hk. injection Hk as ->.
    assert (E : leaf_lookup (concat ess) blk = None).
    { apply leaf_lookup_None, Forall_concat, Forall_lookup_2. intros j ej Hej. apply leaf_lookup_None.
      by apply (Hj (S j)). }
    rewrite E. by destruct (leaf_lookup ek blk).
  - rewrite (Hj 0%nat e0) by done. apply (IH k); [done|]. intros j ej Hej Hne. apply (Hj (S j)); [done|lia].
Qed.

Lemma concat_sub (ess : list (list extent)) k ek : ess !! k = Some ek -> ek ⊆ concat ess.
Proof. intros H x Hx. apply list_elem_of_In, in_concat. exists ek. split; apply list_elem_of_In; [by eapply list_elem_of_lookup_2|done]. Qed.

Lemma concat_leaf_ok ess :
  (forall k ek, ess !! k = Some ek -> leaf_ok ek) ->
  (forall i j ei ej x y, ess !! i = Some ei -> ess !! j = Some ej -> (i < j)%nat -> x ∈ ei -> y ∈ ej -> before x y) ->
  leaf_ok (concat ess).
Proof.
  induction ess as [|e ess IH]; intros H1 H2; [split; constructor|]. cbn [concat]. apply leaf_ok_app. split_and!.
  - by apply (H1 0%nat).
  - apply IH; [intros k; apply (H1 (S k))|]. intros i j ei ej x y Hi Hj Hij. apply (H2 (S i) (S j)); [done..|lia].
  - intros x y Hx (ej & Hy & Hej)%list_elem_of_In%in_concat. apply list_elem_of_In in Hy as Hy', Hej as Hej'.
    apply list_elem_of_lookup_1 in Hy' as (j & Hj). apply (H2 0%nat (S j) e ej); [done|done|lia|done|done].
Qed.

(** The first block of the entries of an index increases. *)
Lemma index_sorted d a p lo hi ess :
  (forall k ek, ess !! k = Some ek ->
        let k := Z.of_nat k in
        let lo_k := first_at p (c a) k in
        let hi_k := if k + 1 <? entries_count p (c a) then first_at p (c a) (k + 1) else hi in
        lo <= lo_k < hi_k /\ hi_k <= hi /\ 0 <= child a p k /\ tree_ok d (child a p k) 0 lo_k hi_k ek) ->
  Z.of_nat (length ess) = entries_count p (c a) ->
  forall j, 0 <= j -> forall i, 0 <= i < j -> j < entries_count p (c a) -> first_at p (c a) i < first_at p (c a) j.
Proof.
  intros Hk Hlen.
  assert (Hstep : forall j, 0 <= j -> j + 1 < entries_count p (c a) -> first_at p (c a) j < first_at p (c a) (j + 1)).
  { intros j Hj Hj'. destruct (lookup_lt_is_Some_2 ess (Z.to_nat j)) as (ej & Hej); [lia|].
    destruct (Hk _ _ Hej) as (H1 & _).
    rewrite Z2Nat.id in H1 by lia. replace (j + 1 <? entries_count p (c a)) with true in H1 by lia. lia. }
  intros j Hj. pattern j. apply natlike_ind; [lia| |done]. intros x Hx IH i Hi Hx'. unfold Z.succ in *.
  specialize (Hstep x ltac:(lia) Hx'). destruct (Z.eq_dec i x) as [->|]; [done|]. specialize (IH i ltac:(lia) ltac:(lia)). lia.
Qed.

Lemma tree_leaf_ok d : forall a p lo hi es, tree_ok d a p lo hi es -> leaf_ok es.
Proof.
  induction d as [|d IH]; intros a p lo hi es (_ & _ & H); [apply H|].
  destruct H as (ess & -> & _ & Hlen & Hk). pose proof (index_sorted d a p lo hi ess Hk Hlen) as Hmono.
  apply concat_leaf_ok; [intros k ek Hek; destruct (Hk k ek Hek) as (_ & _ & _ & T); by eapply IH|].
  intros i j ei ej x y Hi Hj Hij Hx Hy. pose proof (lookup_lt_Some _ _ _ Hj).
  destruct (Hk _ _ Hi) as (_ & _ & _ & T1), (Hk _ _ Hj) as (_ & _ & _ & T2).
  apply tree_range in T1, T2. rewrite Forall_forall in T1, T2. specialize (T1 x Hx). specialize (T2 y Hy). cbn in T1, T2.
  unfold before. replace (Z.of_nat i + 1 <? entries_count p (c a)) with true in T1 by lia.
  destruct (Z.eq_dec (Z.of_nat i + 1) (Z.of_nat j)) as [E|]; [rewrite E in T1; lia|].
  pose proof (Hmono (Z.of_nat j) ltac:(lia) (Z.of_nat i + 1) ltac:(lia) ltac:(lia)). lia.
Qed.

(** The entry of an index the search goes down by. *)
Lemma tree_descend d a p lo hi es blk :
  tree_ok (S d) a p lo hi es ->
  let k := ext4_ext_binsearch_idx p blk (c a) in
  exists ek lo' hi', 0 <= k < entries_count p (c a) /\ 0 <= child a p k /\
    tree_ok d (child a p k) 0 lo' hi' ek /\ ek ⊆ es /\ leaf_lookup es blk = leaf_lookup ek blk.
Proof.
  intros (_ & N & ess & -> & Hne & Hlen & Hk) k.
  assert (Hpos : 1 <= entries_count p (c a)) by (destruct ess; [done|cbn [length] in Hlen; lia]).
  assert (Ek : k = binsearch_loop 17 p (c a) blk 1 (EXT_LAST_EXTENT p (c a)) - 1)
    by (unfold k, ext4_ext_binsearch_idx; reflexivity). clearbody k.
  destruct (binsearch_spec p (c a) blk k Hpos Ek) as [Hrange Hs]. clear Ek.
  assert (Hsome : forall j, 0 <= j < entries_count p (c a) -> exists ej, ess !! Z.to_nat j = Some ej).
  { intros j Hj. apply lookup_lt_is_Some_2. lia. }
  pose proof (index_sorted d a p lo hi ess Hk Hlen) as Hmono.
  destruct Hs as [S1 S2]; [intros i j Hij Hj; apply Hmono; lia|].
  destruct (Hsome k Hrange) as (ek & Hek). destruct (Hk _ _ Hek) as (_ & _ & Hc & Hok). rewrite Z2Nat.id in Hc, Hok by lia.
  exists ek. eexists _, _. split; [done|]. split; [done|]. split; [exact Hok|].
  split; [by eapply concat_sub|]. apply (leaf_lookup_concat _ _ (Z.to_nat k)); [done|]. intros j ej Hej Hjk.
  assert (Hj : 0 <= Z.of_nat j < entries_count p (c a)) by (apply lookup_lt_Some in Hej; lia).
  destruct (Hk j ej Hej) as (_ & _ & _ & Hokj). apply tree_range in Hokj. apply (lookup_out _ _ _ _ Hokj).
  destruct (Z.lt_ge_cases (Z.of_nat j) k) as [Hlt|Hge]; [right|left; apply S2; lia].
  replace (Z.of_nat j + 1 <? entries_count p (c a)) with true by lia.
  destruct (Z.eq_dec (Z.of_nat j + 1) k) as [->|]; [apply S1; lia|].
  pose proof (Hmono k ltac:(lia) (Z.of_nat j + 1) ltac:(lia) ltac:(lia)). specialize (S1 k ltac:(lia)). lia.
Qed.
End Tree.

(** ** Handles on a list of blocks *)

Definition holds (l : list Z) (h : Z -> Z) (x : Z) : Z := h x + Z.of_nat (count_occ Z.eq_dec l x).

Lemma holds_nil h x : holds [] h x = h x.
Proof. unfold holds. cbn. lia. Qed.
Lemma holds_cons a l h x : holds (a :: l) h x = holds l (fupd a (h a + 1) h) x.
Proof.
  unfold holds, fupd. cbn [count_occ]. destruct (Z.eq_dec a x) as [->|Hne].
  - rewrite Z.eqb_refl. lia.
  - by replace (x =? a) with false by lia.
Qed.
Lemma holds_release a l h x : fupd a (holds (a :: l) h a - 1) (holds (a :: l) h) x = holds l h x.
Proof.
  unfold holds, fupd. cbn [count_occ]. destruct (Z.eqb_spec x a) as [->|Hne].
  - destruct (Z.eq_dec a a); [lia|done].
  - destruct (Z.eq_dec a x); [congruence|done].
Qed.
Lemma holds_ge l h x : h x <= holds l h x.
Proof. unfold holds. lia. Qed.

(** What giving a node back may change: the four bytes of its checksum. *)
Definition tail_only (b b' : list Z) : Prop :=
  blen b' = blen b /\ (bytes_ok b -> bytes_ok b') /\
  changed_in (EXT4_EXTENT_TAIL_OFFSET 0 b) (EXT4_EXTENT_TAIL_OFFSET 0 b + 4) b b'.

Lemma tail_only_refl b : tail_only b b.
Proof. by split_and!. Qed.
Lemma tail_offset_ge p b : 12 <= EXT4_EXTENT_TAIL_OFFSET p b.
Proof. unfold EXT4_EXTENT_TAIL_OFFSET. pose proof (max_range p b). change EXT_HEADER_SIZE with 12.
  change EXT_EXTENT_SIZE with 12. unfold max_entries in *. unfold ext4_extent_header_get_max_entries_count. lia. Qed.
Lemma tail_only_header f b b' : f_within 12 f = true -> tail_only b b' -> rd f 0 b' = rd f 0 b.
Proof.
  intros Hf (_ & _ & H). pose proof (tail_offset_ge 0 b).
  apply (header_after f 0 (EXT4_EXTENT_TAIL_OFFSET 0 b + 4)); [done|lia|]. eapply changed_in_weaken; [exact H|lia..].
Qed.
Lemma tail_only_trans b b' b'' : tail_only b b' -> tail_only b' b'' -> tail_only b b''.
Proof.
  intros H H'. assert (E : EXT4_EXTENT_TAIL_OFFSET 0 b' = EXT4_EXTENT_TAIL_OFFSET 0 b).
  { unfold EXT4_EXTENT_TAIL_OFFSET, ext4_extent_header_get_max_entries_count. by rewrite (tail_only_header _ b b'). }
  destruct H as (H1 & H2 & H3), H' as (H1' & H2' & H3'). split_and!; [lia|tauto|].
  rewrite E in H3'. by eapply changed_in_trans.
Qed.
Lemma tail_only_csum sb ino gen b : tail_only b (ext4_extent_block_csum_set sb ino gen 0 b).
Proof.
  unfold ext4_extent_block_csum_set. split_and!; [apply blen_wr|by apply bytes_ok_wr|].
  rewrite Z.add_0_l. pose proof (tail_offset_ge 0 b). by apply (changed_in_wr _ _ _ _ 4); [|lia].
Qed.

Section Walk.
Context {St : Type} {BS : BlockStore St} {bsz : Z} {BL : BlockStoreLaws St bsz}.
Context (sb : list Z) (ir : inode_ref) (li : Z) (pd : gset Z).
Local Abbreviation fa n f c h := (fabs (bsz := bsz) n f sb ir li c h pd).
Local Abbreviation root := (ext4_inode_get_extent_header (ir_off ir)).

(** ** Giving a path back *)

(** Levels below the root: each holds its block, with the node at its start. *)
Definition block_level (l : ext_path) : Prop :=
  pt_lb_id l <> 0 /\ (pt_lb_id l ∉ pd) /\ pt_lb_id l <> ir_block ir /\ pt_header l = 0.

Lemma drop_levels_wp path : forall n f c h,
  fa n f c (holds (map pt_lb_id path) h) -> Forall block_level path -> 0 < h (ir_block ir) ->
  (forall x, 0 <= h x) ->
  wp (drop_levels path) f (fun r f' => r = Ok tt /\ exists c', fa n f' c' h /\
    (forall a, a ∉ map pt_lb_id path -> c' a = c a) /\ (forall a, tail_only (c a) (c' a))).
Proof.
  induction path as [|l path IH]; intros n f c h A HF Hir Hh; cbn [drop_levels map].
  { fs_step. split; [done|]. exists c. split_and!; [|done|intros a; apply tail_only_refl].
    eapply fabs_weaken; [exact A|eapply fabs_budget, A|done|intros a; by rewrite holds_nil|done]. }
  apply Forall_cons in HF as [(Hl & Hp & Hne & Hhd) HF]. unfold drop_level.
  replace (pt_lb_id l =? 0) with false by lia. set (a := pt_lb_id l) in *.
  assert (Hheld : 0 < holds (a :: map pt_lb_id path) h a).
  { pose proof (Hh a). unfold holds. rewrite count_occ_cons_eq by done. lia. }
  assert (Hi : 0 < holds (a :: map pt_lb_id path) h (ir_block ir)).
  { pose proof (holds_ge (a :: map pt_lb_id path) h (ir_block ir)). lia. }
  fs_step. fs_step. fs_step. fs_step. fs_step. fs_step. fs_step; [done|].
  fs_step. apply wp_get. cbv beta iota. fs_step.
  set (b' := ext4_extent_block_csum_set sb (ir_index ir) (ext4_inode_get_generation (ir_off ir) (c (ir_block ir)))
               (pt_header l) (c a)).
  assert (Hstep : forall f1 c1, fa n f1 c1 (holds (a :: map pt_lb_id path) h) -> (c1 = c \/ c1 = fupd a b' c) ->
    wp (mtry (on_st (bs_set a));;; mok tt) f1 (fun r f2 => r = Ok tt /\ fa n f2 c1 (holds (map pt_lb_id path) h))).
  { intros f1 c1 A1 _. fs_step. apply wp_try. fs_step; [done|done|]. intros f2 A2. fs_step. split; [done|].
    eapply fabs_weaken; [exact A2|eapply fabs_budget, A2|done|intros x; by rewrite holds_release|done]. }
  assert (Hrest : forall f1 c1, fa n f1 c1 (holds (a :: map pt_lb_id path) h) -> (c1 = c \/ c1 = fupd a b' c) ->
    wp (mtry (on_st (bs_set a));;; mok tt) f1 (fun r f2 =>
      match r with
      | Ok _ => wp (drop_levels path) f2 (fun r f' => r = Ok tt /\ exists c', fa n f' c' h /\
          (forall x, x ∉ a :: map pt_lb_id path -> c' x = c x) /\ (forall x, tail_only (c x) (c' x)))
      | Err rc => Err rc = Ok tt /\ exists c', fa n f2 c' h /\
          (forall x, x ∉ a :: map pt_lb_id path -> c' x = c x) /\ (forall x, tail_only (c x) (c' x))
      end)).
  { intros f1 c1 A1 Hc1. eapply wp_mono; [by apply Hstep|]. intros r f2 [-> A2].
    eapply wp_mono; [by apply (IH n f2 c1 h)|]. intros r f' (-> & c' & A' & Ho & Ht). split; [done|]. exists c'. split; [done|].
    assert (Hx : forall x, (x <> a -> c1 x = c x) /\ tail_only (c x) (c1 x)).
    { intros x. destruct Hc1 as [->| ->]; [split; [done|apply tail_only_refl]|]. unfold fupd.
      destruct (Z.eqb_spec x a) as [->|]; [|split; [done|apply tail_only_refl]]. split; [done|].
      unfold b'. rewrite Hhd. apply tail_only_csum. }
    split.
    - intros x [Hxa Hxp]%not_elem_of_cons. rewrite Ho by done. by apply Hx.
    - intros x. eapply tail_only_trans; [apply Hx|apply Ht]. }
  destruct (bs_is_dirty a (f_st f)) eqn:Hd.
  - apply wp_mod. cbv beta iota.
    apply (Hrest _ (fupd a b' c)); [|by right]. destruct A as [A1 A2 A3 A4]. split; try done. cbn [f_st f_set_st].
    rewrite (bs_read_abs _ _ _ _ _ _ A4 Hheld). fold b'.
    destruct (bs_contents _ _ _ _ _ a A4) as [Hlen Hok].
    apply bs_store_dirty_abs; try done.
    + unfold b'. rewrite Hhd. pose proof (tail_only_csum sb (ir_index ir) (ext4_inode_get_generation (ir_off ir) (c (ir_block ir))) (c a)) as (? & ? & ?). lia.
    + unfold b', ext4_extent_block_csum_set. by apply bytes_ok_wr.
  - apply wp_ok. cbv beta iota. apply (Hrest _ c); [done|by left].
Qed.

(** Whatever the state, it ends without an error. *)
Lemma drop_levels_ok path : forall f, wp (drop_levels path) f (fun r _ => r = Ok tt).
Proof.
  induction path as [|l path IH]; intros f; cbn [drop_levels]; [by fs_step|]. unfold drop_level. case_match.
  - fs_step. fs_step. apply IH.
  - repeat (apply wp_bind || (apply wp_get; cbv beta iota)).
    apply (wp_mono _ _ (fun r _ => r = Ok tt)); [case_match; [by apply wp_mod|by apply wp_ok]|].
    intros r f1 ->. fs_step. apply wp_try, wp_intro. intros r f2 _. fs_step. cbv beta iota. apply IH.
Qed.

(** ** Walking down *)

Context (c : Z -> list Z) (root_depth : Z).
Context (Hroot : rd eh_depth root (c (ir_block ir)) = root_depth).
Context (blk : Z).
Local Abbreviation tree := (tree_ok sb root_depth c).

(** The walk ended on the leaf [l]: what the leaf says of [blk] is what the list
    [es] says. *)
Definition at_leaf (l : ext_path) (es : list extent) : Prop :=
  exists ek, node_in (pt_header l) (c (pt_buf l)) /\ node_extents (pt_header l) (c (pt_buf l)) = ek /\ leaf_ok ek /\
    ek ⊆ es /\ pt_extent l = ext4_ext_binsearch (pt_header l) blk (c (pt_buf l)) /\
    leaf_lookup es blk = leaf_lookup ek blk.

(** The levels from the node at byte [p] of block [a] down. *)
Fixpoint goes_down (d : nat) (a p : Z) (path : list ext_path) : Prop :=
  match d, path with
  | O, [l] => pt_buf l = a /\ pt_header l = p /\ pt_extent l = ext4_ext_binsearch p blk (c a)
  | S d, l :: path =>
      let k := ext4_ext_binsearch_idx p blk (c a) in
      pt_buf l = a /\ pt_header l = p /\ pt_index l = Some k /\ goes_down d (child c a p k) 0 path
  | _, _ => False
  end.

Lemma inode_hdr_wp n f h (Q : result (Z * Z) -> fsys St -> Prop) :
  fa n f c h -> Q (Ok (ir_block ir, root)) f -> wp ext_inode_hdr f Q.
Proof. intros A HQ. unfold ext_inode_hdr. fs_step. fs_step. by fs_step. Qed.
Lemma depth_wp n f h (Q : result Z -> fsys St -> Prop) :
  fa n f c h -> 0 < h (ir_block ir) -> Q (Ok root_depth) f -> wp ext_depth f Q.
Proof.
  intros A Hir HQ. unfold ext_depth. fs_step. apply (inode_hdr_wp n f h); [done|]. cbv beta iota.
  fs_step. fs_step; [done|]. fs_step. by rewrite Hroot.
Qed.

Lemma read_block_wp n f h a i bh :
  fa n f c h -> n + 1 < 2 ^ 32 -> 0 <= a -> a ∉ pd -> 0 < h (ir_block ir) ->
  ext4_ext_check sb root_depth 0 i (c a) = Ok tt ->
  wp (read_extent_tree_block a i bh) f (fun r f' =>
    match r with
    | Ok _ => a <> 0 /\ fa (n + 1) f' c (fupd a (h a + 1) h)
    | Err rc => clean_err (St := St) rc /\ (bh = 0 -> fa (n + 1) f' c h)
    end).
Proof.
  intros A Hn Ha Hp Hir Hck. unfold read_extent_tree_block. fs_step. apply wp_get. cbv beta iota.
  fs_step. apply wp_try. fs_step; [done|done|done| |].
  - intros f1 H0 A1. pose proof (fabs_held _ _ _ _ _ _ _ _ A) as Hpos.
    assert (Hi : 0 < fupd a (h a + 1) h (ir_block ir)).
    { unfold fupd. destruct (Z.eqb_spec (ir_block ir) a) as [E|]; [rewrite <- E|]; lia. }
    assert (Haa : 0 < fupd a (h a + 1) h a) by (rewrite fupd_eq; specialize (Hpos a); lia).
    fs_step. fs_step. fs_step. apply (depth_wp _ _ _ _ A1); [done|]. cbv beta iota.
    fs_step. fs_step; [done|]. rewrite Hck. fs_step. by split.
  - intros rc f1 Hrc A1. fs_step. case_match eqn:E.
    + apply wp_try, wp_intro. intros. cbv beta iota. fs_step. split; [done|]. intros ->. by rewrite andb_false_r in E.
    + fs_step. cbv beta iota. by fs_step.
Qed.

Lemma find_loop_wp d : forall l lo hi es n f h,
  fa n f c h -> n + Z.of_nat d < 2 ^ 32 -> 0 < h (pt_buf l) -> 0 < h (ir_block ir) ->
  tree d (pt_buf l) (pt_header l) lo hi es -> 0 <= blk < 2 ^ 32 ->
  (forall x, x ∈ tree_blocks c d (pt_buf l) (pt_header l) -> (x ∉ pd) /\ x <> ir_block ir) ->
  wp (find_extent_loop d blk l) f (fun r f' =>
    match r with
    | Ok (inl path) => exists l' rest, path = l' :: rest /\ pt_lb_id l' = pt_lb_id l /\ pt_header l' = pt_header l /\
        fa (n + Z.of_nat d) f' c (holds (map pt_lb_id rest) h) /\ Forall block_level rest /\
        (forall x, x ∈ map pt_lb_id rest -> x ∈ tree_blocks c d (pt_buf l) (pt_header l)) /\
        at_leaf (path_leaf path) es /\ goes_down d (pt_buf l) (pt_header l) path /\
        (forall x, x ∈ path -> pt_buf x = pt_buf l \/ pt_buf x ∈ map pt_lb_id rest)
    | Ok (inr (rc, path)) => clean_err (St := St) rc /\ d <> O /\
        (d = 1%nat -> pt_lb_id l = 0 -> fa (n + 1) f' c h /\ exists l', path = [l'] /\ pt_lb_id l' = 0)
    | Err _ => False
    end).
Proof.
  induction d as [|d IH]; intros l lo hi es n f h A Hn Hl Hir T Hblk Hb; cbn [find_extent_loop].
  - fs_step. fs_step; [done|]. fs_step. eexists _, []. split; [done|]. cbn [pt_lb_id map List.last pt_buf pt_header pt_extent].
    destruct T as (_ & N & HE & Hok & _). split_and!; try done.
    + eapply fabs_weaken; [exact A|split; [lia|]; pose proof (fabs_budget _ _ _ _ _ _ _ _ A); lia|done|intros x; apply holds_nil|done].
    + by exists es.
    + intros x [->|Hx]%elem_of_cons; [by left|by apply not_elem_of_nil in Hx].
  - pose proof (tree_descend sb root_depth c d (pt_buf l) (pt_header l) lo hi es blk T) as HD. cbv zeta in HD.
    set (k := ext4_ext_binsearch_idx (pt_header l) blk (c (pt_buf l))) in *.
    destruct HD as (ek & lo' & hi' & Hk & Hx0 & T' & Hsub' & Hlook). unfold child in *.
    set (x := ext4_idx_pblock (ext_entry (pt_header l) k) (c (pt_buf l))) in *.
    assert (Hsub : forall y, y ∈ x :: tree_blocks c d x 0 -> y ∈ tree_blocks c (S d) (pt_buf l) (pt_header l)).
    { intros y Hy. by apply (tree_blocks_child c d (pt_buf l) (pt_header l) k). }
    destruct (Hb x) as [Hxp Hxi]; [apply Hsub; by left|].
    fs_step. fs_step; [done|]. fold k x. fs_step. apply wp_try.
    eapply wp_mono; [apply (read_block_wp n f h x (Z.of_nat d)); try done; [lia|by destruct d, T']|].
    intros [[]|rc] f1.
    2: { intros [Hrc H1]. cbv beta iota. fs_step. split; [done|]. split; [done|]. intros [= ->] H0.
         split; [by apply H1|]. eexists. by split. }
    intros [Hx A1]. cbv beta iota. fs_step.
    set (l1 := mk_ext_path x x 0 0 0 None None).
    assert (Hpos := fabs_held _ _ _ _ _ _ _ _ A).
    eapply wp_mono; [apply (IH l1 lo' hi' ek (n + 1) f1 (fupd x (h x + 1) h)); try done; [lia| | |]|].
    + cbn [l1 pt_buf]. rewrite fupd_eq. specialize (Hpos x). lia.
    + rewrite fupd_ne by congruence. done.
    + cbn [l1 pt_buf pt_header]. intros y Hy. apply Hb, Hsub. by right.
    + intros [[path|[rc path]]|rc] f2;
        [|intros (H2 & H3 & _); cbv beta iota; fs_step; split; [done|]; split; [done|]; intros [= ->]; done|done].
      intros (l' & rest & -> & E1 & E2 & A2 & HF & Hin & HL & HG & Hbuf). cbv beta iota. fs_step.
      eexists _, (l' :: rest). split; [done|]. cbn [l1 pt_lb_id pt_buf pt_header] in *. rewrite map_cons, E1.
      split_and!; try done.
      * eapply fabs_weaken; [exact A2| |done| |done].
        { pose proof (fabs_budget _ _ _ _ _ _ _ _ A2). lia. }
        intros y. apply holds_cons.
      * constructor; [|done]. split_and!; [by rewrite E1|by rewrite E1|by rewrite E1|done].
      * intros y [->|Hy]%elem_of_cons; apply Hsub; [by left|right; by apply Hin].
      * destruct HL as (em & L1 & L2 & L3 & L4 & L5 & L6). exists em. split_and!; try done; [by etrans|]. by rewrite Hlook.
      * intros y [->|Hy]%elem_of_cons; [by left|right]. destruct (Hbuf y Hy) as [->|Hy']; [by left|by right].
Qed.


(** ** The next entry *)

(** What one level says: the first block of the entry after the path's. *)
Definition next_here (l : ext_path) (leaf : bool) : option Z :=
  match (if leaf then pt_extent l else pt_index l) with
  | Some k => if k =? EXT_LAST_EXTENT (pt_header l) (c (pt_buf l)) then None
              else Some (first_at (pt_header l) (c (pt_buf l)) (k + 1))
  | None => None
  end.
(** The lowest level that has one, from the root down. *)
Fixpoint next_below (path : list ext_path) : option Z :=
  match path with
  | [] => None
  | [l] => next_here l true
  | l :: path => match next_below path with Some v => Some v | None => next_here l false end
  end.
Definition next_of (o : option Z) : Z := match o with Some v => v | None => EXT_MAX_BLOCKS end.

Fixpoint next_up (levels : list ext_path) (leaf : bool) : option Z :=
  match levels with
  | [] => None
  | l :: levels => match next_here l leaf with Some v => Some v | None => next_up levels false end
  end.
Lemma next_up_app l1 l2 b :
  l1 <> [] -> next_up (l1 ++ l2) b = match next_up l1 b with Some v => Some v | None => next_up l2 false end.
Proof.
  revert b. induction l1 as [|l l1 IH]; intros b H; [done|]. cbn [next_up app]. destruct (next_here l b); [done|].
  destruct l1 as [|l' l1]; [done|]. by apply IH.
Qed.
Lemma next_up_rev path : next_up (rev path) true = next_below path.
Proof.
  induction path as [|l path IH]; [done|]. cbn [rev]. destruct path as [|l' path]; [cbn; by case_match|].
  rewrite next_up_app, IH by (intros [_ ?]%app_eq_nil; done). change (next_below (l :: l' :: path)) with
    (match next_below (l' :: path) with Some v => Some v | None => next_here l false end).
  case_match; [done|]. cbn [next_up]. by case_match.
Qed.

Lemma next_loop_wp levels : forall leaf n f h,
  fa n f c h -> (forall l, l ∈ levels -> 0 < h (pt_buf l)) ->
  wp (next_allocated_loop levels leaf) f (fun r f' => f' = f /\ r = Ok (next_of (next_up levels leaf))).
Proof.
  induction levels as [|l levels IH]; intros leaf n f h A Hh; cbn [next_allocated_loop next_up]; [by fs_step|].
  fs_step. fs_step; [apply Hh; by left|]. unfold next_here, first_at.
  assert (HI : wp (next_allocated_loop levels false) f (fun r f' => f' = f /\ r = Ok (next_of (next_up levels false)))).
  { apply (IH false n f h A). intros x Hx. apply Hh. by right. }
  destruct (if leaf then pt_extent l else pt_index l) as [k|]; [|done].
  destruct (k =? _); cbn [negb]; [done|]. by fs_step.
Qed.

Lemma next_allocated_wp n f h path :
  fa n f c h -> (forall l, l ∈ path -> 0 < h (pt_buf l)) ->
  wp (ext4_ext_next_allocated_block path) f (fun r f' => f' = f /\ r = Ok (next_of (next_below path))).
Proof.
  intros A Hh. rewrite <- next_up_rev. unfold ext4_ext_next_allocated_block.
  assert (HL : wp (next_allocated_loop (rev path) true) f (fun r f' => f' = f /\ r = Ok (next_of (next_up (rev path) true)))).
  { apply (next_loop_wp _ _ n f h A). intros l Hl. apply Hh. apply list_elem_of_In, in_rev, list_elem_of_In. done. }
  destruct path as [|l [|l' path]]; [done| |done]. destruct (pt_extent l) eqn:E; [done|]. fs_step.
  split; [done|]. cbn. unfold next_here. by rewrite E.
Qed.

(** The extents from [v] on are all there is after [blk], but for one that the
    search stopped short of. *)
Definition gap_to (es : list extent) (v : option Z) : Prop :=
  (forall w, v = Some w -> blk < w) /\
  exists skipped, (forall x, x ∈ es -> blk < x_first x -> skipped = Some x \/ exists w, v = Some w /\ w <= x_first x) /\
    (forall x, skipped = Some x -> x ∈ es /\ blk < x_first x).

Lemma leaf_gap a p lo hi es l :
  0 <= blk < 2 ^ 32 -> tree 0 a p lo hi es -> goes_down 0 a p [l] ->
  gap_to es (next_below [l]) /\ (forall w, next_below [l] = Some w -> w < hi).
Proof.
  intros Hblk (_ & N & HE & Hok & Hrg) (E1 & E2 & E3). cbn [next_below]. unfold next_here. rewrite E1, E2, E3.
  pose proof (search_finds p (c a) blk es N HE Hok Hblk) as HS. destruct (ext4_ext_binsearch p blk (c a)) as [k|].
  2: { subst es. rewrite HS. split; [|done]. split; [done|]. exists None. split; [intros x Hx; by apply not_elem_of_nil in Hx|done]. }
  destruct HS as (l1 & x & l2 & Ees & Ek & Hx & _ & HF2 & Hx1 & _). rewrite Forall_forall in HF2, Hrg.
  assert (Hall : forall y, y ∈ es -> ext_ok y) by (destruct Hok as [HF _]; by rewrite Forall_forall in HF).
  assert (Hxe : x ∈ es) by (rewrite Ees; apply elem_of_app; right; by left).
  assert (Hpart : forall y, y ∈ es -> blk < x_first y -> y = x \/ y ∈ l2).
  { intros y Hy Hb. pose proof (Hall y Hy) as [_ Hl _]. rewrite Ees in Hy, Hok. apply leaf_ok_app in Hok as (_ & _ & Hb12).
    apply elem_of_app in Hy as [Hy|[->|Hy]%elem_of_cons]; [|by left|by right].
    specialize (Hb12 y x Hy (list_elem_of_here _ _)). unfold before in Hb12.
    destruct Hx1 as [?| ->]; [lia|by apply not_elem_of_nil in Hy]. }
  set (sk := if blk <? x_first x then Some x else None).
  assert (Hsk : forall y, sk = Some y -> y ∈ es /\ blk < x_first y).
  { unfold sk. intros y. destruct (Z.ltb_spec blk (x_first x)); [intros [= <-]; done|done]. }
  assert (Hsk' : blk < x_first x -> sk = Some x) by (unfold sk; intros; by replace (blk <? x_first x) with true by lia).
  pose proof (length_node_extents p (c a)) as Hlen. rewrite HE, Ees, length_app in Hlen. cbn [length] in Hlen.
  pose proof (count_range p (c a)) as Hcr. unfold EXT_LAST_EXTENT.
  change (ext4_extent_header_get_entries_count p (c a)) with (entries_count p (c a)).
  destruct l2 as [|x2 l2].
  - cbn [length] in Hlen. replace (k =? entries_count p (c a) - 1) with true by lia. split; [|done]. split; [done|].
    exists sk. split; [|done]. intros y Hy Hb. left.
    destruct (Hpart y Hy Hb) as [->|Hy2]; [by apply Hsk'|by apply not_elem_of_nil in Hy2].
  - cbn [length] in Hlen. replace (k =? entries_count p (c a) - 1) with false by lia.
    assert (E2' : first_at p (c a) (k + 1) = x_first x2).
    { pose proof (node_lookup p (c a) (k + 1) ltac:(lia)) as HL. rewrite HE, Ees in HL.
      rewrite lookup_app_r in HL by lia. replace (Z.to_nat (k + 1) - length l1)%nat with 1%nat in HL by lia.
      cbn in HL. injection HL as ->. done. }
    assert (Hx2 : x2 ∈ es) by (rewrite Ees; apply elem_of_app; right; right; by left).
    pose proof (Hall x2 Hx2) as [_ Hl2 _]. pose proof (Hrg x2 Hx2) as Hr2. cbn in Hr2.
    rewrite E2'. split; [|intros w [= <-]; lia]. split; [intros w [= <-]; apply HF2; by left|].
    exists sk. split; [|done]. intros y Hy Hb. destruct (Hpart y Hy Hb) as [->|Hy2]; [left; by apply Hsk'|].
    right. exists (x_first x2). split; [done|]. rewrite Ees in Hok. apply leaf_ok_app in Hok as (_ & [_ HS2] & _).
    apply elem_of_cons in Hy2 as [->|Hy2]; [lia|]. inversion HS2 as [|? ? HS3 _]; subst.
    inversion HS3 as [|? ? _ HS4]; subst. rewrite Forall_forall in HS4. specialize (HS4 y Hy2). unfold before in HS4. lia.
Qed.

(** A block before all of a leaf: the search stops on the first entry, and the
    entry after it is the second. *)
Lemma leaf_skips a p lo hi x es l :
  0 <= blk < 2 ^ 32 -> tree 0 a p lo hi (x :: es) -> goes_down 0 a p [l] -> blk < x_first x ->
  next_below [l] = match es with [] => None | y :: _ => Some (x_first y) end.
Proof.
  intros Hblk (_ & N & HE & Hok & _) (E1 & E2 & E3) Hb. cbn [next_below]. unfold next_here. rewrite E1, E2, E3.
  pose proof (search_finds p (c a) blk _ N HE Hok Hblk) as HS. destruct (ext4_ext_binsearch p blk (c a)) as [k|]; [|done].
  destruct HS as ([|z l1] & y & l2 & Ees & Ek & Hy & HF & HF2 & Hx1 & _).
  2: { cbn in Ees. injection Ees as <- Ees. rewrite Ees in Hok. destruct Hx1 as [Hle|?]; [|done].
       rewrite app_comm_cons in Hok. apply leaf_ok_app in Hok as ([Hz _] & _ & Hb12). apply Forall_cons in Hz as [[_ Hl _] _].
       specialize (Hb12 x y (list_elem_of_here _ _) (list_elem_of_here _ _)). unfold before in Hb12. lia. }
  cbn in Ees. injection Ees as <- <-. cbn [length] in Ek. subst k.
  pose proof (length_node_extents p (c a)) as Hlen. rewrite HE in Hlen. cbn [length] in Hlen.
  pose proof (count_range p (c a)) as Hcr. unfold EXT_LAST_EXTENT.
  change (ext4_extent_header_get_entries_count p (c a)) with (entries_count p (c a)).
  change (Z.of_nat 0) with 0. destruct es as [|y es]; [cbn in Hlen; by replace (0 =? entries_count p (c a) - 1) with true by lia|].
  cbn [length] in Hlen. replace (0 =? entries_count p (c a) - 1) with false by lia. f_equal.
  pose proof (node_lookup p (c a) 1 ltac:(lia)) as HL. rewrite HE in HL. cbn in HL. injection HL as ->. done.
Qed.

(** Seen from the entry the search goes down by, the extents after [blk] are in
    its child or behind the next entry. *)
Lemma tree_siblings d a p lo hi ess k :
  (forall k ek, ess !! k = Some ek ->
        let k := Z.of_nat k in
        let lo_k := first_at p (c a) k in
        let hi_k := if k + 1 <? entries_count p (c a) then first_at p (c a) (k + 1) else hi in
        lo <= lo_k < hi_k /\ hi_k <= hi /\ 0 <= child c a p k /\ tree d (child c a p k) 0 lo_k hi_k ek) ->
  Z.of_nat (length ess) = entries_count p (c a) -> 0 <= k < entries_count p (c a) ->
  (forall j, 1 <= j <= k -> first_at p (c a) j <= blk) ->
  forall j ej x, ess !! j = Some ej -> x ∈ ej -> blk < x_first x ->
    j = Z.to_nat k \/ (k + 1 < entries_count p (c a) /\ first_at p (c a) (k + 1) <= x_first x).
Proof.
  intros Hk Hlen Hrange S1 j ej x Hej Hx Hb. pose proof (index_sorted sb root_depth c d a p lo hi ess Hk Hlen) as Hmono.
  assert (Hj : 0 <= Z.of_nat j < entries_count p (c a)) by (apply lookup_lt_Some in Hej; lia).
  destruct (Hk j ej Hej) as (_ & _ & _ & Tj). apply tree_range in Tj as Hr. rewrite Forall_forall in Hr. specialize (Hr x Hx). cbn in Hr.
  destruct (tree_leaf_ok _ _ _ _ _ _ _ _ _ Tj) as [HF _]. rewrite Forall_forall in HF. destruct (HF x Hx) as [_ Hl _].
  destruct (Z.lt_trichotomy (Z.of_nat j) k) as [Hlt|[Heq|Hgt]]; [|left; lia|right].
  - exfalso. replace (Z.of_nat j + 1 <? entries_count p (c a)) with true in Hr by lia. specialize (S1 k ltac:(lia)).
    destruct (Z.eq_dec (Z.of_nat j + 1) k) as [E|]; [rewrite E in Hr; lia|].
    pose proof (Hmono k ltac:(lia) (Z.of_nat j + 1) ltac:(lia) ltac:(lia)). lia.
  - split; [lia|]. destruct (Z.eq_dec (k + 1) (Z.of_nat j)) as [E|]; [rewrite E; lia|].
    pose proof (Hmono (Z.of_nat j) ltac:(lia) (k + 1) ltac:(lia) ltac:(lia)). lia.
Qed.

Lemma tree_gap d : forall a p lo hi es path,
  0 <= blk < 2 ^ 32 -> tree d a p lo hi es -> goes_down d a p path ->
  gap_to es (next_below path) /\ (forall w, next_below path = Some w -> w < hi).
Proof.
  induction d as [|d IH]; intros a p lo hi es path Hblk T G.
  { destruct path as [|l [|? ?]]; [done| |done]. by apply (leaf_gap a p lo hi). }
  destruct path as [|l path]; [done|]. destruct G as (E1 & E2 & E3 & G).
  set (k := ext4_ext_binsearch_idx p blk (c a)) in *.
  destruct T as (_ & _ & ess & -> & Hne & Hlen & Hk).
  assert (Hpos : 1 <= entries_count p (c a)) by (destruct ess; [done|cbn [length] in Hlen; lia]).
  assert (Ek : k = binsearch_loop 17 p (c a) blk 1 (EXT_LAST_EXTENT p (c a)) - 1)
    by (unfold k, ext4_ext_binsearch_idx; reflexivity). clearbody k.
  destruct (binsearch_spec p (c a) blk k Hpos Ek) as [Hrange Hs]. clear Ek.
  pose proof (index_sorted sb root_depth c d a p lo hi ess Hk Hlen) as Hmono.
  destruct Hs as [S1 S2]; [intros i j Hij Hj; apply Hmono; lia|].
  destruct (lookup_lt_is_Some_2 ess (Z.to_nat k)) as (ek & Hek); [lia|].
  destruct (Hk _ _ Hek) as (Hlo & Hhi & _ & T). rewrite Z2Nat.id in Hlo, Hhi, T by lia.
  destruct (IH _ _ _ _ _ path Hblk T G) as [[G1 (sk & G2 & G3)] G4].
  pose proof (tree_siblings d a p lo hi ess k Hk Hlen Hrange S1) as Hsib.
  assert (Hnext : forall path', path' = path -> next_below (l :: path') =
     match next_below path' with Some v => Some v | None => next_here l false end).
  { intros [|? ?] <-; [|done]. by destruct d. }
  rewrite (Hnext path eq_refl). unfold next_here. rewrite E1, E2, E3.
  unfold EXT_LAST_EXTENT. change (ext4_extent_header_get_entries_count p (c a)) with (entries_count p (c a)).
  assert (Hmem : forall x, x ∈ concat ess -> exists j ej, ess !! j = Some ej /\ x ∈ ej).
  { intros x (ej & Hej & Hx)%list_elem_of_In%in_concat. apply list_elem_of_In in Hej, Hx.
    apply list_elem_of_lookup_1 in Hej as (j & Hj). by exists j, ej. }
  assert (Hsk : forall x, sk = Some x -> x ∈ concat ess /\ blk < x_first x).
  { intros x Hx. apply G3 in Hx as [Hx Hb]. split; [|done]. by apply (concat_sub ess (Z.to_nat k) ek). }
  destruct (next_below path) as [w|] eqn:Ew.
  - specialize (G4 w eq_refl). split; [|intros w' [= <-]; lia]. split; [done|]. exists sk. split; [|done].
    intros x (j & ej & Hej & Hx)%Hmem Hb. destruct (Hsib j ej x Hej Hx Hb) as [->|[Hj Hf]].
    + apply G2; [|done]. congruence.
    + right. exists w. split; [done|]. replace (k + 1 <? entries_count p (c a)) with true in G4 by lia. lia.
  - destruct (Z.eqb_spec k (entries_count p (c a) - 1)) as [El|El].
    + split; [|done]. split; [done|]. exists sk. split; [|done]. intros x (j & ej & Hej & Hx)%Hmem Hb.
      destruct (Hsib j ej x Hej Hx Hb) as [->|[Hj Hf]]; [|lia]. apply G2; [congruence|done].
    + destruct (lookup_lt_is_Some_2 ess (Z.to_nat (k + 1))) as (e2 & He2); [lia|].
      destruct (Hk _ _ He2) as (Hlo2 & Hhi2 & _). rewrite Z2Nat.id in Hlo2, Hhi2 by lia.
      split; [|intros w [= <-]; lia]. split; [intros w [= <-]; apply S2; lia|]. exists sk. split; [|done].
      intros x (j & ej & Hej & Hx)%Hmem Hb. destruct (Hsib j ej x Hej Hx Hb) as [->|[Hj Hf]].
      * destruct (G2 x ltac:(congruence) Hb) as [?|(w & ? & _)]; [by left|done].
      * right. by eexists.
Qed.

(** ** From the root to the leaf and back *)

Context (d : Z) (Hd : root_depth = d) (Hmax : 0 <= d <= EXT4_MAX_EXTENT_DEPTH).
Context (es : list extent) (Htree : tree (Z.to_nat d) (ir_block ir) root 0 EXT_MAX_BLOCKS es).
Context (Hblk : 0 <= blk < 2 ^ 32).
Local Abbreviation nodes := (tree_blocks c (Z.to_nat d) (ir_block ir) root).
Context (Hb : forall x, x ∈ nodes -> (x ∉ pd) /\ x <> ir_block ir).

(** The levels of a path: the root's, and one per node below it. *)
Definition path_ok (n : Z) (h : Z -> Z) (path : list ext_path) (f : fsys St) : Prop :=
  exists l rest, path = l :: rest /\ pt_lb_id l = 0 /\ fa (n + d) f c (holds (map pt_lb_id rest) h) /\
    Forall block_level rest /\ (forall x, x ∈ map pt_lb_id rest -> x ∈ nodes) /\ at_leaf (path_leaf path) es /\
    goes_down (Z.to_nat d) (ir_block ir) root path /\
    (forall l, l ∈ path -> 0 < holds (map pt_lb_id rest) h (pt_buf l)).

Lemma find_extent_wp n f h :
  fa n f c h -> n + d < 2 ^ 32 -> 0 < h (ir_block ir) ->
  wp (ext4_find_extent blk) f (fun r f' =>
    match r with
    | Ok path => path_ok n h path f'
    | Err rc => clean_err (St := St) rc /\ (d <= 1 -> fa (n + d) f' c h)
    end).
Proof.
  intros A Hn Hir. unfold ext4_find_extent. fs_step. apply (inode_hdr_wp n f h); [done|]. cbv beta iota.
  fs_step. apply (depth_wp n f h); [done..|]. cbv beta iota. rewrite Hd.
  replace (EXT4_MAX_EXTENT_DEPTH <? d) with false by lia. fs_step. fs_step. fs_step. fs_step; [done|].
  assert (Hck : ext4_ext_check sb d root d (c (ir_block ir)) = Ok tt).
  { destruct (Z.to_nat d) eqn:E; destruct Htree as [Hck _]; rewrite <- E, Z2Nat.id, Hd in Hck by lia; done. }
  rewrite Hck. fs_step. eapply wp_mono.
  - apply (find_loop_wp (Z.to_nat d) (mk_ext_path 0 (ir_block ir) root 0 0 None None) 0 EXT_MAX_BLOCKS es n f h); try done.
    rewrite Z2Nat.id by lia. lia.
  - intros [[path|[rc path]]|rc] f1; [| |done]; cbv beta iota.
    + cbn [pt_lb_id pt_header pt_buf]. rewrite Z2Nat.id by lia.
      intros (l & rest & -> & E1 & E2 & A1 & HF & Hin & HL & HG & Hbuf). fs_step. exists l, rest. split_and!; try done.
      intros y Hy. destruct (Hbuf y Hy) as [->|Hy']; [pose proof (holds_ge (map pt_lb_id rest) h (ir_block ir)); lia|].
      unfold holds. apply list_elem_of_In, (count_occ_In Z.eq_dec) in Hy'.
      pose proof (fabs_held _ _ _ _ _ _ _ _ A (pt_buf y)). lia.
    + intros (Hrc & Hd0 & H1). fs_step. unfold ext4_ext_drop_refs. destruct (Z.leb_spec d 1).
      * destruct H1 as (A1 & l & -> & El); [lia|done|]. cbn [drop_levels]. unfold drop_level. rewrite El, Z.eqb_refl.
        fs_step. fs_step. fs_step. fs_step. split; [done|]. intros _. by replace (n + d) with (n + 1) by lia.
      * eapply wp_mono; [apply drop_levels_ok|]. intros r f2 ->. cbv beta iota. fs_step. split; [done|lia].
Qed.

(** The entry found decides. *)
Definition hit (ex : option extent) : option extent :=
  match ex with
  | Some x => if IN_RANGE blk (x_first x) (x_len x) then Some x else None
  | None => None
  end.
Definition hit_ok (ex : option extent) : Prop :=
  match hit ex with
  | Some x => x ∈ es /\ covers x blk
  | None => leaf_lookup es blk = None
  end.

Lemma path_leaf_in l rest : path_leaf (l :: rest) ∈ l :: rest.
Proof.
  unfold path_leaf. revert l. induction rest as [|l' rest IH]; intros l; [by left|]. right. apply IH.
Qed.

Lemma leaf_extent_wp n f h path :
  path_ok n h path f -> wp (leaf_extent path) f (fun r f' => f' = f /\ exists ex, r = Ok ex /\ hit_ok ex).
Proof.
  intros (l & rest & -> & _ & A & _ & _ & (ek & N & HE & Hok & Hsub & Hex & Hlook) & _ & Hh).
  unfold leaf_extent. fs_step. fs_step; [by apply Hh, path_leaf_in|]. fs_step. split; [done|]. eexists. split; [done|].
  pose proof (search_finds _ _ blk ek N HE Hok Hblk) as HS. rewrite <- Hex in HS. unfold hit_ok, hit.
  destruct (pt_extent _) as [k|]; [|by rewrite Hlook, HS].
  destruct HS as (l1 & x & l2 & E & -> & Hx & _ & _ & _ & Hm). rewrite Hx.
  assert (Hxe : x ∈ ek) by (rewrite E; apply elem_of_app; right; by left).
  assert (Hxok : ext_ok x) by (destruct Hok as [Hok _]; rewrite Forall_forall in Hok; by apply Hok).
  destruct Hxok as [Hf Hl He]. pose proof (x_len_range _ Hf). destruct Hf as [F1 F2 F3]. change EXT_MAX_BLOCKS with (2 ^ 32 - 1) in He.
  unfold IN_RANGE, u32. rewrite Z.mod_small by lia. unfold covers.
  destruct ((x_first x <=? blk) && (blk <=? x_first x + x_len x - 1)) eqn:E'.
  - split; [by apply Hsub|lia].
  - rewrite Hlook, Hm. unfold ext_map. apply leaf_lookup_None. constructor; [|done]. unfold covers. lia.
Qed.

(** Giving the path back. *)
Definition only_csums (n : Z) (h : Z -> Z) (f : fsys St) : Prop :=
  exists c', fa (n + d) f c' h /\ (forall x, x ∉ nodes -> c' x = c x) /\ (forall x, tail_only (c x) (c' x)).

Lemma drop_path_wp n f h path :
  0 < h (ir_block ir) -> (forall x, 0 <= h x) -> path_ok n h path f ->
  wp (ext4_ext_drop_refs path false) f (fun r f' => r = Ok tt /\ only_csums n h f').
Proof.
  intros Hir Hh (l & rest & -> & El & A & HF & Hin & _). unfold ext4_ext_drop_refs. cbn [drop_levels].
  unfold drop_level. rewrite El, Z.eqb_refl. fs_step. fs_step.
  eapply wp_mono; [by apply (drop_levels_wp rest _ _ _ h A)|]. intros r f' (-> & c' & A' & Ho & Ht). split; [done|].
  exists c'. split_and!; [done| |done]. intros x Hx. apply Ho. intros Hx'. by apply Hx, Hin.
Qed.
End Walk.

(** ** Lookups *)

(** What a lookup is to answer: the start, the length and the state of a run of
    blocks [blk], [blk + 1], ..., none longer than asked for and none shorter
    than the extent allows; nothing in a hole. *)
Definition run_at (es : list extent) (blk max : Z) (start len : Z) (unwritten : bool) : Prop :=
  (forall j, 0 <= j < len -> leaf_lookup es (blk + j) = Some (start + j, unwritten)) /\
  exists x, x ∈ es /\ covers x blk /\ len = Z.min max (x_first x + x_len x - blk).
Definition map_answer (es : list extent) (blk max : Z) (ans : Z * Z * bool) : Prop :=
  let '(start, len, unwritten) := ans in
  match leaf_lookup es blk with
  | None => ans = (0, 0, false)
  | Some (s, u) => s = start /\ u = unwritten /\ run_at es blk max start len unwritten
  end.
(** The same without the state: an unwritten block has no place yet. *)
Definition read_answer (es : list extent) (blk max : Z) (ans : Z * Z) : Prop :=
  let '(start, len) := ans in
  match leaf_lookup es blk with
  | None => ans = (0, 0)
  | Some (s, u) => start = (if u then 0 else s) /\ run_at es blk max s len u
  end.

(** A probe says, of a hole, how far it goes. *)
Definition probe_answer (es : list extent) (blk : Z) (ans : Z * Z * bool) : Prop :=
  let '(start, len, unwritten) := ans in
  match leaf_lookup es blk with
  | Some (s, u) => s = start /\ u = unwritten /\ run_at es blk (2 ^ 32) start len unwritten
  | None => start = 0 /\ unwritten = false /\
      exists v, gap_to blk es v /\ len = match v with Some w => w - blk | None => 0 end
  end.

(** The arithmetic of the run an extent gives. *)
Lemma run_of_extent es blk max x :
  leaf_ok es -> x ∈ es -> covers x blk -> 0 <= blk < 2 ^ 32 ->
  let off := u32 (blk - x_first x) in
  let len := u32 (x_len x - off) in
  u64 (off + x_start x) = x_start x + (blk - x_first x) /\
  leaf_lookup es blk = Some (x_start x + (blk - x_first x), x_unwritten x) /\
  run_at es blk max (x_start x + (blk - x_first x)) (if max <? len then max else len) (x_unwritten x).
Proof.
  intros Hok Hx Hc Hblk. pose proof Hok as [HF HS]. rewrite Forall_forall in HF. destruct (HF x Hx) as [Hf Hl He].
  pose proof (x_len_range _ Hf) as Hr. destruct Hf as [F1 F2 F3]. change EXT_MAX_BLOCKS with (2 ^ 32 - 1) in He.
  unfold covers in Hc. cbv zeta. unfold u32, u64. rewrite (Z.mod_small (blk - _)) by lia.
  rewrite !(Z.mod_small) by lia.
  apply list_elem_of_split in Hx as Hx'. destruct Hx' as (l1 & l2 & ->).
  split; [lia|]. split; [by apply leaf_lookup_at|]. split.
  - intros j Hj. rewrite (leaf_lookup_at _ x) by (done || (unfold covers; case_match; lia)). f_equal. f_equal. lia.
  - exists x. split_and!; [done..|]. case_match; lia.
Qed.

(** The tree of the inode: its depth, and its extents. *)
Definition inode_tree (sb : list Z) (ir : inode_ref) (c : Z -> list Z) (pd : gset Z) (d : Z) (es : list extent) : Prop :=
  let root := ext4_inode_get_extent_header (ir_off ir) in
  rd eh_depth root (c (ir_block ir)) = d /\ 0 <= d <= EXT4_MAX_EXTENT_DEPTH /\
  tree_ok sb d c (Z.to_nat d) (ir_block ir) root 0 EXT_MAX_BLOCKS es /\
  forall x, x ∈ tree_blocks c (Z.to_nat d) (ir_block ir) root -> (x ∉ pd) /\ x <> ir_block ir.

Section Lookups.
Context {St : Type} {BS : BlockStore St} {bsz : Z} {BL : BlockStoreLaws St bsz}.
Context (n : Z) (f : fsys St) (sb : list Z) (ir : inode_ref) (li : Z).
Context (c : Z -> list Z) (h : Z -> Z) (pd : gset Z) (d : Z) (es : list extent).
Context (A : fabs (bsz := bsz) n f sb ir li c h pd) (Hn : n + d < 2 ^ 32) (Hir : 0 < h (ir_block ir)).
Context (HT : inode_tree sb ir c pd d es).
Context (blk max : Z) (Hblk : 0 <= blk < 2 ^ 32).

Local Abbreviation csums := (only_csums (BL := BL) sb ir li pd c d n h).

(** What the lookups share: the walk, a step that reads the path only, and the
    path given back. *)
Lemma lookup_wp {B} (k : option extent -> list ext_path -> M (fsys St) B) (P : B -> Prop) :
  (forall path f', path_ok sb ir li pd c blk d es n h path f' -> forall ex, hit_ok blk es ex ->
     wp (k ex path) f' (fun r f'' => f'' = f' /\ exists b, r = Ok b /\ P b)) ->
  wp (path <- ext4_find_extent blk;; ex <- leaf_extent path;; b <- k ex path;;
      ext4_ext_drop_refs path false;;; mok b) f
    (fun r f' => match r with Ok b => P b /\ csums f' | Err rc => clean_err (St := St) rc /\ (d <= 1 -> csums f') end).
Proof.
  intros Hk. destruct HT as (Hroot & Hd & T & Hb). fs_step.
  eapply wp_mono; [by apply (find_extent_wp sb ir li pd c d Hroot blk d eq_refl Hd es T Hblk Hb n f h A)|].
  intros [path|rc] f1; [|intros [Hrc HA]; split; [done|]; intros Hd1; exists c; split; [by apply HA|by split; [|intros; apply tail_only_refl]]].
  intros HP. cbv beta iota. fs_step.
  eapply wp_mono; [eapply leaf_extent_wp; [exact Hblk|exact HP]|].
  intros r f2 (-> & ex & -> & Hex). cbv beta iota. fs_step. eapply wp_mono; [by apply Hk|].
  intros r f3 (-> & b & -> & HPb). cbv beta iota. fs_step.
  eapply wp_mono; [eapply drop_path_wp; [exact Hir|exact (fabs_held _ _ _ _ _ _ _ _ A)|exact HP]|].
  intros r f4 [-> H4]. cbv beta iota. fs_step. by split.
Qed.

(** A lookup that goes by the entry found only. *)
Lemma lookup_pure_wp {B} (k : option extent -> B) (P : B -> Prop) :
  (forall ex, hit_ok blk es ex -> P (k ex)) ->
  wp (path <- ext4_find_extent blk;; ex <- leaf_extent path;; ext4_ext_drop_refs path false;;; mok (k ex)) f
    (fun r f' => match r with Ok b => P b /\ csums f' | Err rc => clean_err (St := St) rc /\ (d <= 1 -> csums f') end).
Proof.
  intros Hk. apply (lookup_wp (fun ex _ => mok (k ex))). intros path f' _ ex Hex. fs_step. split; [done|].
  eexists. split; [done|]. by apply Hk.
Qed.

(** C8: Looking a block of the file up through its extent tree
    (ext4_extent_map_range) is looking it up in the list of extents the tree
    stands for, whatever its depth up to five: a block in an extent gives its
    place, its state and a run of consecutive blocks as long as asked for and as
    the extent goes; a block in a hole gives 0.  The handles taken on the way
    down are all given back, only the blocks of the tree may have changed, and
    those only in their checksum, also (up to depth one) when the walk fails; a failed
    walk is an error, the store's own if it says "no entry" or "no space". *)
Theorem map_range_is_lookup :
  wp (ext4_extent_map_range blk max) f (fun r f' =>
    match r with
    | Ok ans => map_answer es blk max ans /\
        only_csums (BL := BL) sb ir li pd c d n h f'
    | Err rc => clean_err (St := St) rc /\ (d <= 1 -> csums f')
    end).
Proof.
  unfold ext4_extent_map_range. eapply (lookup_pure_wp _ (map_answer es blk max)). intros ex Hex. cbv zeta.
  destruct HT as (_ & _ & T & _). pose proof (tree_leaf_ok sb d c _ _ _ _ _ _ T) as Hok. unfold hit_ok, hit in Hex.
  destruct ex as [x|]; [|cbn; by rewrite Hex]. destruct (IN_RANGE _ _ _); [|cbn; by rewrite Hex].
  destruct Hex as [Hx Hc]. destruct (run_of_extent es blk max x Hok Hx Hc Hblk) as (E1 & E2 & E3). cbv zeta in *.
  cbn [map_answer]. by rewrite E2, E1.
Qed.

(** [ext4_extent_get_blocks] without [create] answers what the list of extents
    says, with unwritten blocks given as 0 like holes but with the length of
    their run, so that a reader zero-fills exactly the unwritten blocks. *)
Theorem get_blocks_reads_lookup :
  wp (extent_get_blocks_read blk max) f (fun r f' =>
    match r with
    | Ok ans => read_answer es blk max ans /\ csums f'
    | Err rc => clean_err (St := St) rc /\ (d <= 1 -> csums f')
    end).
Proof.
  unfold extent_get_blocks_read. eapply (lookup_pure_wp _ (read_answer es blk max)). intros ex Hex. cbv zeta.
  destruct HT as (_ & _ & T & _). pose proof (tree_leaf_ok sb d c _ _ _ _ _ _ T) as Hok. unfold hit_ok, hit in Hex.
  destruct ex as [x|]; [|cbn; by rewrite Hex]. destruct (IN_RANGE _ _ _); [|cbn; by rewrite Hex].
  destruct Hex as [Hx Hc]. destruct (run_of_extent es blk max x Hok Hx Hc Hblk) as (E1 & E2 & E3). cbv zeta in *.
  cbn [read_answer]. by rewrite E2, E1.
Qed.

(** C26: A probe (ext4_extent_probe) of a mapped block gives the rest of its
    extent; of a hole, how far the hole goes: the extents behind it begin where
    it is said to end or later, all but one that the search may have stopped
    short of. *)
Theorem probe_measures_holes :
  wp (ext4_extent_probe blk) f (fun r f' =>
    match r with
    | Ok ans => probe_answer es blk ans /\ csums f'
    | Err rc => clean_err (St := St) rc /\ (d <= 1 -> csums f')
    end).
Proof.
  unfold ext4_extent_probe. eapply (lookup_wp _ (probe_answer es blk)). intros path f' HP ex Hex. cbv zeta.
  destruct HT as (_ & _ & T & _). pose proof (tree_leaf_ok sb d c _ _ _ _ _ _ T) as Hok. unfold hit_ok, hit in Hex.
  assert (Hmiss : leaf_lookup es blk = None ->
    wp (next <- ext4_ext_next_allocated_block path;;
        mok (0, (if next =? EXT_MAX_BLOCKS then 0 else u32 (next - blk)), false)) f'
      (fun r f'' => f'' = f' /\ exists b, r = Ok b /\ probe_answer es blk b)).
  { intros E. destruct HP as (l & rest & -> & _ & A1 & _ & _ & _ & HG & Hh).
    destruct (tree_gap sb c d blk _ _ _ _ _ _ _ Hblk T HG) as [G1 G2].
    fs_step. eapply wp_mono; [by eapply next_allocated_wp|]. intros r f2 [-> ->]. cbv beta iota. fs_step.
    split; [done|]. eexists. split; [done|]. cbn [probe_answer]. rewrite E. split_and!; [done..|]. eexists. split; [done|].
    destruct (next_below _ _) as [w|]; cbn [next_of]; [|done]. specialize (G2 w eq_refl). destruct G1 as [G1 _].
    specialize (G1 w eq_refl). replace (w =? EXT_MAX_BLOCKS) with false by lia. change EXT_MAX_BLOCKS with (2 ^ 32 - 1) in G2.
    apply Z.mod_small. lia. }
  destruct ex as [x|]; [|by apply Hmiss]. destruct (IN_RANGE _ _ _); [|by apply Hmiss].
  destruct Hex as [Hx Hc]. destruct (run_of_extent es blk (2 ^ 32) x Hok Hx Hc Hblk) as (E1 & E2 & E3). cbv zeta in *.
  fs_step. split; [done|]. eexists. split; [done|]. cbn [probe_answer]. rewrite E2, (Z.add_comm (x_start x) (u32 _)), E1. split; [done|]. split; [done|].
  replace (2 ^ 32 <? _) with false in E3; [done|]. symmetry. apply Z.ltb_ge. unfold u32. dlia.
Qed.

(** C38: In a file whose extents are all in the inode (a tree of depth 0), a probe of
    a hole before the first extent does not see that extent: the hole is said to reach
    to the second extent, or, where there is no second, to the end of the file. *)
Theorem probe_skips_first_extent x rest :
  d = 0 -> es = x :: rest -> blk < x_first x ->
  wp (ext4_extent_probe blk) f (fun r f' =>
    match r with
    | Ok ans => ans = (0, match rest with [] => 0 | y :: _ => x_first y - blk end, false) /\ csums f'
    | Err rc => clean_err (St := St) rc /\ (d <= 1 -> csums f')
    end).
Proof.
  intros Ed Ees Hb. unfold ext4_extent_probe.
  eapply (lookup_wp _ (fun ans => ans = (0, match rest with [] => 0 | y :: _ => x_first y - blk end, false))).
  intros path f' HP ex Hex. cbv zeta. destruct HT as (_ & _ & T & _). rewrite Ed in T. rewrite Ees in T.
  destruct HP as (l & ls & -> & _ & A1 & _ & _ & _ & HG & Hh). rewrite Ed in HG. destruct ls as [|? ls]; [|done].
  pose proof (leaf_skips sb c 0 blk _ _ _ _ _ _ _ Hblk T HG Hb) as HN. destruct T as (_ & _ & _ & Hok & _).
  destruct Hok as [HF HS]. inversion HS as [|? ? _ HS1]; subst. rewrite Forall_forall in HF, HS1. destruct (HF x (list_elem_of_here _ _)) as [_ Hl _].
  assert (Hno : hit blk ex = None).
  { unfold hit_ok in Hex. destruct (hit blk ex) as [y|]; [|done]. destruct Hex as [[->|Hy]%elem_of_cons Hc]; unfold covers in Hc; [lia|].
    specialize (HS1 y Hy). unfold before in HS1. lia. }
  unfold hit in Hno. rewrite Hno. fs_step. eapply wp_mono; [by eapply next_allocated_wp|]. intros r f2 [-> ->]. cbv beta iota. fs_step.
  split; [done|]. eexists. split; [done|]. rewrite HN. destruct rest as [|y rest]; cbn [next_of]; [done|].
  destruct (HF y ltac:(right; by left)) as [[F1 _ _] Fl Fe]. specialize (HS1 y (list_elem_of_here _ _)). unfold before in HS1.
  change EXT_MAX_BLOCKS with (2 ^ 32 - 1) in *. replace (x_first y =? 2 ^ 32 - 1) with false by lia. f_equal. f_equal. apply Z.mod_small. lia.
Qed.
End Lookups.

(** ** The sample volume's trees *)

Definition vol_iref2 : inode_ref := mk_inode_ref 5 128 2 false.
Definition vol_es : list extent := [mk_extent 2 3 100; mk_extent 7 0x8002 200].
Definition vol_es2 : list extent := [mk_extent 10 5 60; mk_extent 20 1 90].

(** Closed arithmetic. *)
Ltac vc := vm_compute; intuition congruence.

Lemma vol_leaf_ok : leaf_ok vol_es /\ leaf_ok vol_es2.
Proof.
  split; (split; [apply Forall_cons; split; [|apply Forall_cons; split; [|done]]; (split; [split|..]; vc)|
    constructor; [constructor; constructor|apply Forall_cons; split; [vc|done]]]).
Qed.

Lemma vol_node a p :
  0 <= p -> entries_count p (vol_contents a) <= max_entries p (vol_contents a) ->
  ext_entry p (max_entries p (vol_contents a)) <= blen (vol_contents a) -> node_in p (vol_contents a).
Proof. intros. split; try done. exact (fabs_bytes _ _ _ _ _ _ _ _ vol_fabs a). Qed.

Lemma vol_tree : inode_tree vol_sb vol_iref vol_contents ∅ 1 vol_es.
Proof.
  split; [vc|]. split; [vc|]. split.
  - split; [vc|]. split; [apply vol_node; vc|]. exists [vol_es]. split_and!; [done..|vc|].
    intros [|k] ek Hk; [|done]. injection Hk as <-. cbv zeta. split; [vc|]. split; [vc|].
    split; [vc|]. split; [vc|]. split; [apply vol_node; vc|].
    split; [vc|]. split; [apply vol_leaf_ok|]. apply Forall_cons; split; [vc|apply Forall_cons; split; [vc|done]].
  - assert (E : tree_blocks vol_contents (Z.to_nat 1) 5 40 = [8]) by (vm_compute; reflexivity).
    intros x Hx. cbn in Hx. change (x ∈ tree_blocks vol_contents (Z.to_nat 1) 5 40) in Hx. rewrite E in Hx.
    apply list_elem_of_singleton in Hx as ->. split; [set_solver|done].
Qed.

Lemma vol_tree2 : inode_tree vol_sb vol_iref2 vol_contents ∅ 0 vol_es2.
Proof.
  split; [vc|]. split; [vc|]. split; [|intros x Hx; by apply not_elem_of_nil in Hx].
  split; [vc|]. split; [apply vol_node; vc|]. split; [vc|]. split; [apply vol_leaf_ok|].
  apply Forall_cons; split; [vc|apply Forall_cons; split; [vc|done]].
Qed.

Lemma map_range_is_lookup_witness :
  fst (@ext4_extent_map_range _ vol_store 3 10 (vol_fs_of vol_iref)) = Ok (101, 2, false) /\ map_answer vol_es 3 10 (101, 2, false).
Proof.
  assert (E : fst (@ext4_extent_map_range _ vol_store 3 10 (vol_fs_of vol_iref)) = Ok (101, 2, false)) by (vm_compute; reflexivity). split; [exact E|].
  pose proof (map_range_is_lookup (BL := vol_laws) 1 (vol_fs_of vol_iref) vol_sb vol_iref 0 vol_contents vol_held ∅ 1 vol_es
    (vol_fabs_of vol_iref) ltac:(lia) ltac:(vc) vol_tree 3 10 ltac:(lia)) as H.
  unfold wp in H. destruct (@ext4_extent_map_range _ vol_store 3 10 (vol_fs_of vol_iref)) as [r f']. cbn [fst] in E. rewrite E in H. apply H.
Defined.
Lemma get_blocks_reads_lookup_witness :
  fst (@extent_get_blocks_read _ vol_store 7 10 (vol_fs_of vol_iref)) = Ok (0, 2) /\ read_answer vol_es 7 10 (0, 2).
Proof.
  assert (E : fst (@extent_get_blocks_read _ vol_store 7 10 (vol_fs_of vol_iref)) = Ok (0, 2)) by (vm_compute; reflexivity). split; [exact E|].
  pose proof (get_blocks_reads_lookup (BL := vol_laws) 1 (vol_fs_of vol_iref) vol_sb vol_iref 0 vol_contents vol_held ∅ 1 vol_es
    (vol_fabs_of vol_iref) ltac:(lia) ltac:(vc) vol_tree 7 10 ltac:(lia)) as H.
  unfold wp in H. destruct (@extent_get_blocks_read _ vol_store 7 10 (vol_fs_of vol_iref)) as [r f']. cbn [fst] in E. rewrite E in H. apply H.
Defined.
Lemma probe_measures_holes_witness :
  fst (@ext4_extent_probe _ vol_store 5 (vol_fs_of vol_iref)) = Ok (0, 2, false) /\ probe_answer vol_es 5 (0, 2, false).
Proof.
  assert (E : fst (@ext4_extent_probe _ vol_store 5 (vol_fs_of vol_iref)) = Ok (0, 2, false)) by (vm_compute; reflexivity). split; [exact E|].
  pose proof (probe_measures_holes (BL := vol_laws) 1 (vol_fs_of vol_iref) vol_sb vol_iref 0 vol_contents vol_held ∅ 1 vol_es
    (vol_fabs_of vol_iref) ltac:(lia) ltac:(vc) vol_tree 5 ltac:(lia)) as H.
  unfold wp in H. destruct (@ext4_extent_probe _ vol_store 5 (vol_fs_of vol_iref)) as [r f']. cbn [fst] in E. rewrite E in H. apply H.
Defined.
Lemma probe_skips_first_extent_witness :
  fst (@ext4_extent_probe _ vol_store 4 (vol_fs_of vol_iref2)) = Ok (0, 16, false) /\ leaf_lookup vol_es2 10 = Some (60, false).
Proof.
  assert (E : fst (@ext4_extent_probe _ vol_store 4 (vol_fs_of vol_iref2)) = Ok (0, 16, false)) by (vm_compute; reflexivity). split; [exact E|].
  pose proof (probe_skips_first_extent (BL := vol_laws) 1 (vol_fs_of vol_iref2) vol_sb vol_iref2 0 vol_contents vol_held ∅ 0 vol_es2
    (vol_fabs_of vol_iref2) ltac:(lia) ltac:(vc) vol_tree2 4 ltac:(lia)
    (mk_extent 10 5 60) [mk_extent 20 1 90] eq_refl eq_refl ltac:(vc)) as H.
  unfold wp in H. destruct (@ext4_extent_probe _ vol_store 4 (vol_fs_of vol_iref2)) as [r f']. cbn [fst] in E. rewrite E in H. 
  destruct H as [H _]. split.
Defined.
