(* ===== verification/Balloc.v ===== *)
(** * Block allocation

    Core/lwext4/src/ext4_balloc.c.  Every operation works through a reference to
    a group's descriptor and a handle on the group's block bitmap, and accounts
    the blocks it moves in three places: the superblock, the inode and the
    group.  The steps all of them share are written once. *)

From S2P Require Import Prelude Layout Types Bitmap Crc Super BlockGroup Inode Store Group Fs.

Section Balloc.
Context {St : Type} {BS : BlockStore St}.
Local Abbreviation fsys := (fsys St).

(** ** Shared steps *)

(** The handle on the bitmap of the group of [r], whose checksum verifies; the
    group is given back when there is none. *)
Definition load_bitmap (r : block_group_ref) : M fsys Z :=
  sb <- mget f_sb;;
  bg <- data (br_block r);;
  let blk := ext4_bg_get_block_bitmap (br_off r) bg sb in
  or_else (on_st (bs_get blk)) (ext4_fs_put_block_group_ref r);;;
  bitmap <- data blk;;
  bg <- data (br_block r);;
  if negb (ext4_balloc_verify_bitmap_csum sb (br_off r) bitmap bg) then
    mtry (on_st (bs_set blk));;;
    mtry (ext4_fs_put_block_group_ref r);;;
    mfail EIO
  else mok blk.

(** Giving the bitmap back; the group too, if that fails. *)
Definition put_bitmap (r : block_group_ref) (blk : Z) : M fsys unit :=
  or_else (on_st (bs_set blk)) (ext4_fs_put_block_group_ref r).

(** The bitmap changed by [g], its checksum in the descriptor, marked dirty. *)
Definition update_bitmap (r : block_group_ref) (blk : Z) (g : list Z -> list Z) : M fsys unit :=
  sb <- mget f_sb;;
  store blk g;;;
  bitmap <- data blk;;
  store (br_block r) (ext4_balloc_set_bitmap_csum sb (br_off r) bitmap);;;
  mtry (on_st (bs_dirty blk));;;
  mok tt.

(** [n] blocks more ([sign] is 1) or less ([sign] is -1) are free: superblock,
    inode, group.  An inode count the inode cannot hold is not stored, and
    nothing is said about it. *)
Definition account (r : block_group_ref) (sign n : Z) : M fsys unit :=
  mmod (fun f => f_set_sb (ext4_sb_set_free_blocks_cnt
          (u64 (ext4_sb_get_free_blocks_cnt (f_sb f) + sign * n)) (f_sb f)) f);;;
  sb <- mget f_sb;;
  ir <- mget f_iref;;
  inode <- data (ir_block ir);;
  let ino_blocks := ext4_inode_get_blocks_count sb (ir_off ir) inode in
  let ino_blocks :=
    u64 (ino_blocks - sign * u32 (n * (ext4_sb_get_block_size sb / EXT4_INODE_BLOCK_SIZE))) in
  store (ir_block ir) (fun b =>
    match ext4_inode_set_blocks_count sb (ir_off ir) ino_blocks b with Ok b' => b' | Err _ => b end);;;
  mmod (f_set_iref (mk_inode_ref (ir_block ir) (ir_off ir) (ir_index ir) true));;;
  bg <- data (br_block r);;
  let free_blocks := ext4_bg_get_free_blocks_count (br_off r) bg sb in
  store (br_block r)
    (ext4_bg_set_free_blocks_count (br_off r) sb (u32 (free_blocks + sign * n))).

(** ** Freeing *)

Definition ext4_balloc_free_block (baddr : Z) : M fsys unit :=
  sb <- mget f_sb;;
  let bg_id := ext4_balloc_get_bgid_of_block sb baddr in
  let index_in_group := ext4_fs_addr_to_idx_bg sb baddr in
  r <- ext4_fs_get_block_group_ref bg_id;;
  blk <- load_bitmap r;;
  update_bitmap r blk (fun bm => ext4_bmap_bit_clr bm index_in_group);;;
  put_bitmap r blk;;;
  account r 1 1;;;
  (* the group's new count is not given back with the reference if this fails *)
  or_else (on_st (bs_revoke baddr)) (ext4_fs_put_block_group_ref r);;;
  mmod (fun f => f_set_st (bs_invalidate baddr 1 (f_st f)) f);;;
  ext4_fs_put_block_group_ref (br_set_dirty r).

(** One group's share of the range [first, first + count): the reference to the
    group, not given back, and the number of blocks freed. *)
Definition free_in_group (bg_first first count : Z) : M fsys (block_group_ref * Z) :=
  sb <- mget f_sb;;
  r <- ext4_fs_get_block_group_ref bg_first;;
  let idx_in_bg_first := ext4_fs_addr_to_idx_bg sb first in
  blk <- load_bitmap r;;
  let free_cnt := u32 (u32 (ext4_sb_get_block_size sb * 8) - idx_in_bg_first) in
  let free_cnt := if free_cnt <? count then free_cnt else count in
  update_bitmap r blk (fun bm => ext4_bmap_bits_free bm idx_in_bg_first free_cnt);;;
  put_bitmap r blk;;;
  account r 1 free_cnt;;;
  mok (br_set_dirty r, free_cnt).

(** [while (bg_first <= bg_last)]: one turn per group.  Failing to give the group
    back ends the loop only, and its code is overwritten by the next loop's;
    every other failure ends the call. *)
Fixpoint free_groups (fuel : nat) (bg_first bg_last first count : Z) : M fsys unit :=
  match fuel with
  | O => mok tt
  | S fuel =>
      if bg_last <? bg_first then mok tt
      else
        let* (r, free_cnt) := free_in_group bg_first first count in
        rc <- mtry (ext4_fs_put_block_group_ref r);;
        match rc with
        | Err rc => mok tt
        | Ok _ =>
            free_groups fuel (u32 (bg_first + 1)) bg_last (u64 (first + free_cnt))
              (u32 (count - free_cnt))
        end
  end.

(** [for (i = 0; i < blk_cnt; i++)]. *)
Fixpoint revoke_blocks (n : nat) (baddr : Z) : M fsys unit :=
  match n with
  | O => mok tt
  | S n => on_st (bs_revoke baddr);;; revoke_blocks n (u64 (baddr + 1))
  end.

(** The assertion at the end is not modelled: it can fail only after a group
    could not be given back, which [ext4_block_set] does not do. *)
Definition ext4_balloc_free_blocks (first count : Z) : M fsys unit :=
  sb <- mget f_sb;;
  let blocks_cnt := ext4_sb_get_blocks_cnt sb in
  if count =? 0 then mok tt
  else if (first <? sb_get sb_first_data_block sb) || (blocks_cnt <=? first)
          || (blocks_cnt - first <? count) then mfail EINVAL
  else
    let bg_first := ext4_balloc_get_bgid_of_block sb first in
    let bg_last := ext4_balloc_get_bgid_of_block sb (u64 (u64 (first + count) - 1)) in
    free_groups (S (Z.to_nat (bg_last - bg_first))) bg_first bg_last first count;;;
    revoke_blocks (Z.to_nat count) first;;;
    mmod (fun f => f_set_st (bs_invalidate first count (f_st f)) f).

(** ** Allocating *)

(** Taking bit [idx] of the bitmap of group [bgid]: the block's address. *)
Definition take_bit (r : block_group_ref) (blk idx bgid : Z) : M fsys Z :=
  sb <- mget f_sb;;
  update_bitmap r blk (fun bm => ext4_bmap_bit_set bm idx);;;
  put_bitmap r blk;;;
  mok (ext4_fs_bg_idx_to_addr sb idx bgid).

(** [for (tmp_idx = idx_in_bg + 1; tmp_idx < end_idx; ++tmp_idx)]: at most 62
    turns. *)
Fixpoint find_near (fuel : nat) (bitmap : list Z) (tmp_idx end_idx : Z) : option Z :=
  match fuel with
  | O => None
  | S fuel =>
      if tmp_idx <? end_idx then
        if ext4_bmap_is_bit_clr bitmap tmp_idx then Some tmp_idx
        else find_near fuel bitmap (tmp_idx + 1) end_idx
      else None
  end.

(** The bit to take in the goal's group: the goal itself, one in its aligned run
    of 64, or the first one from the goal on. *)
Definition goal_bit (bitmap : list Z) (idx_in_bg blk_in_bg : Z) : result Z :=
  if ext4_bmap_is_bit_clr bitmap idx_in_bg then Ok idx_in_bg
  else
    let end_idx := Z.ldiff (u32 (idx_in_bg + 63)) 63 in
    let end_idx := if blk_in_bg <? end_idx then blk_in_bg else end_idx in
    match find_near 64 bitmap (idx_in_bg + 1) end_idx with
    | Some tmp_idx => Ok tmp_idx
    | None => ext4_bmap_bit_find_clr bitmap idx_in_bg blk_in_bg
    end.

(** One group: a block of it, if it has one; [choose] finds the bit.  A group
    without free blocks is not looked into. *)
Definition alloc_in_group (r : block_group_ref) (bgid : Z) (choose : list Z -> result Z)
  : M fsys (option Z) :=
  sb <- mget f_sb;;
  bg <- data (br_block r);;
  if ext4_bg_get_free_blocks_count (br_off r) bg sb =? 0 then mok None
  else
    blk <- load_bitmap r;;
    bitmap <- data blk;;
    match choose bitmap with
    | Ok idx => a <- take_bit r blk idx bgid;; mok (Some a)
    | Err _ => put_bitmap r blk;;; mok None
    end.

(** [success:]. *)
Definition alloc_success (r : block_group_ref) (alloc : Z) : M fsys Z :=
  account r (-1) 1;;;
  ext4_fs_put_block_group_ref (br_set_dirty r);;;
  mok alloc.

Definition first_index (sb : list Z) (bgid : Z) : Z :=
  ext4_fs_addr_to_idx_bg sb (ext4_balloc_get_block_of_bgid sb bgid).

(** [while (count > 0)], from group [bgid] on. *)
Fixpoint alloc_other_groups (count : nat) (bgid : Z) : M fsys Z :=
  match count with
  | O => mfail ENOSPC
  | S count =>
      sb <- mget f_sb;;
      r <- ext4_fs_get_block_group_ref bgid;;
      a <- alloc_in_group r bgid (fun bm =>
             ext4_bmap_bit_find_clr bm (first_index sb bgid) (ext4_blocks_in_group_cnt sb bgid));;
      match a with
      | Some alloc => alloc_success r alloc
      | None =>
          ext4_fs_put_block_group_ref r;;;
          alloc_other_groups count (u32 (bgid + 1) mod ext4_block_group_cnt sb)
      end
  end.

Definition ext4_balloc_alloc_block (goal : Z) : M fsys Z :=
  sb <- mget f_sb;;
  let goal :=
    if (goal <? sb_get sb_first_data_block sb) || (ext4_sb_get_blocks_cnt sb <=? goal)
    then sb_get sb_first_data_block sb else goal in
  let bg_id := ext4_balloc_get_bgid_of_block sb goal in
  let idx_in_bg := ext4_fs_addr_to_idx_bg sb goal in
  r <- ext4_fs_get_block_group_ref bg_id;;
  let first_in_bg_index := first_index sb bg_id in
  let idx_in_bg := if idx_in_bg <? first_in_bg_index then first_in_bg_index else idx_in_bg in
  a <- alloc_in_group r bg_id (fun bm =>
         goal_bit bm idx_in_bg (ext4_blocks_in_group_cnt sb bg_id));;
  match a with
  | Some alloc => alloc_success r alloc
  | None =>
      ext4_fs_put_block_group_ref r;;;
      let block_group_count := ext4_block_group_cnt sb in
      alloc_other_groups (Z.to_nat block_group_count) (u32 (bg_id + 1) mod block_group_count)
  end.

(** Whether block [baddr] was free; if it was, it is taken. *)
Definition ext4_balloc_try_alloc_block (baddr : Z) : M fsys bool :=
  sb <- mget f_sb;;
  if (baddr <? sb_get sb_first_data_block sb) || (ext4_sb_get_blocks_cnt sb <=? baddr)
  then mok false
  else
    let block_group := ext4_balloc_get_bgid_of_block sb baddr in
    let index_in_group := ext4_fs_addr_to_idx_bg sb baddr in
    r <- ext4_fs_get_block_group_ref block_group;;
    blk <- load_bitmap r;;
    bitmap <- data blk;;
    let free := ext4_bmap_is_bit_clr bitmap index_in_group in
    (if free then update_bitmap r blk (fun bm => ext4_bmap_bit_set bm index_in_group)
     else mok tt);;;
    put_bitmap r blk;;;
    (if free then
       account r (-1) 1;;; ext4_fs_put_block_group_ref (br_set_dirty r)
     else ext4_fs_put_block_group_ref r);;;
    mok free.
End Balloc.
