(* ===== verification/BallocSpec.v ===== *)
(** * What the block allocator's steps do

    Every shared step of Balloc.v on the abstract store, as changes of the
    superblock and of three blocks: the bitmap's, the descriptor's and the
    inode's. *)

From S2P Require Import Prelude Layout Types Bitmap Crc Super BlockGroup Inode Store.
From S2P Require Import Group Fs FsSpec GroupLaws Balloc.

(** The bitmap's block, for the group whose descriptor is in [b]. *)
Definition bmp_blk (sb : list Z) (g : Z) (b : list Z) : Z :=
  ext4_bg_get_block_bitmap (desc_off sb g) b sb.
Lemma bmp_blk_nonneg sb g b : 0 <= bmp_blk sb g b.
Proof. by apply bg_get32_nonneg. Qed.

(** ** The three accounts *)

Definition sb_moved (sign k : Z) (sb : list Z) : list Z :=
  ext4_sb_set_free_blocks_cnt (u64 (ext4_sb_get_free_blocks_cnt sb + sign * k)) sb.
Definition inode_moved (sb : list Z) (p sign k : Z) (b : list Z) : list Z :=
  let n := u64 (ext4_inode_get_blocks_count sb p b
                - sign * u32 (k * (ext4_sb_get_block_size sb / EXT4_INODE_BLOCK_SIZE))) in
  match ext4_inode_set_blocks_count sb p n b with Ok b' => b' | Err _ => b end.
Definition group_moved (sb : list Z) (p sign k : Z) (b : list Z) : list Z :=
  ext4_bg_set_free_blocks_count p sb (u32 (ext4_bg_get_free_blocks_count p b sb + sign * k)) b.

Definition iref_dirty (ir : inode_ref) : inode_ref :=
  mk_inode_ref (ir_block ir) (ir_off ir) (ir_index ir) true.

Lemma keeps_store_blocks p lo hi huge : keeps (store_blocks p lo hi huge).
Proof.
  intros b. unfold store_blocks, ext4_inode_set_flag, ext4_inode_clear_flag, ext4_inode_set_flags.
  case_match; (split; [by rewrite !blen_wr|intros; repeat apply bytes_ok_wr; done]).
Qed.
Lemma keeps_set_blocks_count sb p n b :
  let b' := match ext4_inode_set_blocks_count sb p n b with Ok b' => b' | Err _ => b end in
  blen b' = blen b /\ (bytes_ok b -> bytes_ok b').
Proof.
  unfold ext4_inode_set_blocks_count, ext4_inode_set_flag, ext4_inode_clear_flag, ext4_inode_set_flags.
  repeat case_match; simplify_eq; split; try done;
    rewrite ?blen_wr; try done; intros; repeat apply bytes_ok_wr; done.
Qed.
Lemma keeps_inode_moved sb p sign k : keeps (inode_moved sb p sign k).
Proof. intros b. apply keeps_set_blocks_count. Qed.
Lemma keeps_group_moved sb p sign k : keeps (group_moved sb p sign k).
Proof. intros b. apply keeps_bg_set16. Qed.
Section BallocSpec.
Context {St : Type} {BS : BlockStore St} {bsz : Z} {BL : BlockStoreLaws St bsz}.
Local Abbreviation fabs := (fabs (bsz := bsz)).

Section Steps.
Context (n : Z) (f : fsys St) (sb : list Z) (ir : inode_ref) (l : Z).
Context (c : Z -> list Z) (h : Z -> Z) (p : gset Z) (g : Z).
Context (A : fabs n f sb ir l c h p).
Local Abbreviation D := (desc_blk sb g).
Local Abbreviation off := (desc_off sb g).
Local Abbreviation B := (bmp_blk sb g (c D)).
Local Abbreviation r := (group_ref sb g).

(** The handle on the bitmap; the group is given back on every failure. *)
Lemma load_bitmap_wp :
  n + 1 < 2 ^ 32 -> 0 < h D -> D ∉ p -> B ∉ p -> B <> D ->
  wp (load_bitmap r) f (fun x f' =>
    match x with
    | Ok blk => blk = B /\ ext4_balloc_verify_bitmap_csum sb off (c B) (c D) = true /\
                fabs (n + 1) f' sb ir l c (fupd B (h B + 1) h) p
    | Err rc => clean_err (St := St) rc /\ fabs (n + 1) f' sb ir l c (fupd D (h D - 1) h) p
    end).
Proof.
  intros Hn Hh Hp HB Hne. unfold load_bitmap. cbn [br_block br_off group_ref].
  fs_step. fs_step. fs_step. fs_step; [done|]. fs_step. fs_step.
  fs_step; [done|apply bmp_blk_nonneg|done| |].
  2: { intros rc f1 Hrc A1. eapply wp_mono; [by apply (put_clean_wp _ _ _ _ _ _ _ _ A1)|].
       cbv beta. by intros x f2 [-> A2]. }
  intros f1 H0 A1. pose proof (fabs_held _ _ _ _ _ _ _ _ A B) as HhB.
  assert (HD1 : 0 < fupd B (h B + 1) h D) by (by rewrite fupd_ne).
  assert (HB1 : 0 < fupd B (h B + 1) h B) by (rewrite fupd_eq; lia).
  fs_step. fs_step; [done|]. fs_step. fs_step; [done|].
  destruct (ext4_balloc_verify_bitmap_csum _ _ _ _) eqn:Ev; cbn [negb]; [by fs_step|].
  fs_step. fs_step. fs_step; [done|done|]. intros f2 A2.
  assert (A2' : fabs (n + 1) f2 sb ir l c h p).
  { eapply (fabs_weaken _ _ _ _ _ _ _ _ A2); [|done| |done].
    - split; [lia|]. eapply bs_budget, (fa_st _ _ _ _ _ _ _ _ A2).
    - intros x. symmetry. exact (fupd_restore B 1 h x). }
  fs_step. fs_step. eapply wp_mono; [by apply (put_clean_wp _ _ _ _ _ _ _ _ A2')|].
  cbv beta. intros x f3 [-> A3]. fs_step. split; [apply clean_EIO|done].
Qed.

Lemma put_bitmap_wp rr blk :
  0 < h blk -> blk ∉ p ->
  wp (put_bitmap rr blk) f (fun x f' =>
    x = Ok tt /\ fabs n f' sb ir l c (fupd blk (h blk - 1) h) p).
Proof. intros Hh Hp. unfold put_bitmap. fs_step. by fs_step. Qed.

Lemma update_bitmap_wp gf :
  0 < h B -> 0 < h D -> B <> D -> keeps gf ->
  wp (update_bitmap r B gf) f (fun x f' =>
    x = Ok tt /\
    fabs n f' sb ir l
      (fupd D (ext4_balloc_set_bitmap_csum sb off (gf (c B)) (c D)) (fupd B (gf (c B)) c))
      h ({[D]} ∪ p)).
Proof.
  intros HB HD Hne Hk. unfold update_bitmap. cbn [br_block br_off group_ref].
  fs_step. fs_step. fs_step. fs_step; [done| |].
  { intros Hl Hb. destruct (Hk (c B)) as [E F]. rewrite E. auto. }
  intros f1 A1. fs_step. fs_step; [done|]. rewrite fupd_eq. fs_step. fs_step; [done| |].
  { intros Hl Hb. destruct (keeps_csum_halves bg_block_bitmap_csum_lo bg_block_bitmap_csum_hi sb off
      (ext4_balloc_bitmap_csum sb (gf (c B))) (fupd B (gf (c B)) c D)) as [E F].
    unfold ext4_balloc_set_bitmap_csum. rewrite E. auto. }
  intros f2 A2. fs_step. fs_step; [done|]. intros f3 A3. fs_step. split; [done|].
  eapply (fabs_weaken _ _ _ _ _ _ _ _ A3); [apply (fabs_budget _ _ _ _ _ _ _ _ A)| |done|set_solver].
  intros x. rewrite (fupd_ne B _ c D) by done. done.
Qed.
End Steps.

(** The three accounts, for a reference to group [g]. *)
Lemma account_wp n f sb ir l c h p r sign k :
  fabs n f sb ir l c h p -> 0 < h (br_block r) -> 0 < h (ir_block ir) -> ir_block ir <> br_block r ->
  wp (account r sign k) f (fun x f' =>
    let sb' := sb_moved sign k sb in
    x = Ok tt /\
    fabs n f' sb' (iref_dirty ir) l
      (fupd (br_block r) (group_moved sb' (br_off r) sign k (c (br_block r)))
         (fupd (ir_block ir) (inode_moved sb' (ir_off ir) sign k (c (ir_block ir))) c))
      h ({[br_block r]} ∪ ({[ir_block ir]} ∪ p))).
Proof.
  intros A HD HI Hne. unfold account. fs_step. apply wp_mod.
  rewrite (fa_sb _ _ _ _ _ _ _ _ A). fold (sb_moved sign k sb).
  pose proof (fabs_set_sb _ _ _ _ _ _ _ _ A (sb_moved sign k sb)) as A1.
  fs_step. fs_step. fs_step. fs_step. fs_step. fs_step; [done|].
  fs_step. fs_step; [done| |].
  { intros Hl Hb. destruct (keeps_inode_moved (sb_moved sign k sb) (ir_off ir) sign k (c (ir_block ir))) as [E F].
    unfold inode_moved in E, F. rewrite E. auto. }
  intros f1 A2. fs_step. apply wp_mod.
  pose proof (fabs_set_iref _ _ _ _ _ _ _ _ A2 (iref_dirty ir)) as A3. fold (iref_dirty ir).
  fs_step. fs_step; [done|]. rewrite fupd_ne by done. fs_step; [done| |].
  { intros Hl Hb. match goal with |- context [ext4_bg_set_free_blocks_count ?q ?s ?v ?b] =>
      destruct (keeps_bg_set16 bg_free_blocks_count_lo bg_free_blocks_count_hi q s v b) as [E F] end.
    unfold ext4_bg_set_free_blocks_count. rewrite E. auto. }
  intros f2 A4. split; [done|]. rewrite fupd_ne in A4 by done. exact A4.
Qed.

(** ** Allocation *)

(** The contents after bit [i] of the bitmap of group [g] was taken, with the
    new checksum of the bitmap. *)
Definition bit_taken (sb : list Z) (g i : Z) (c : Z -> list Z) : Z -> list Z :=
  let D := desc_blk sb g in
  let bm := ext4_bmap_bit_set (c (bmp_blk sb g (c D))) i in
  fupd D (ext4_balloc_set_bitmap_csum sb (desc_off sb g) bm (c D)) (fupd (bmp_blk sb g (c D)) bm c).

(** ... and after the accounts and the descriptor's checksum. *)
Definition settle_group (sb : list Z) (ir : inode_ref) (g sign k : Z) (c : Z -> list Z)
  : Z -> list Z :=
  let D := desc_blk sb g in
  let off := desc_off sb g in
  let sb' := sb_moved sign k sb in
  let d := group_moved sb' off sign k (c D) in
  fupd D (wr bg_checksum off (ext4_fs_bg_checksum sb' g off d) d)
    (fupd (ir_block ir) (inode_moved sb' (ir_off ir) sign k (c (ir_block ir))) c).

(** Where the blocks of group [g] are: apart from each other and from the inode's,
    and nothing is pending on them. *)
Record group_apart (sb : list Z) (ir : inode_ref) (p : gset Z) (c : Z -> list Z) (g : Z) : Prop := {
  go_desc : desc_blk sb g ∉ p;
  go_bmp : bmp_blk sb g (c (desc_blk sb g)) ∉ p;
  go_apart : bmp_blk sb g (c (desc_blk sb g)) <> desc_blk sb g;
  go_inode : ir_block ir <> desc_blk sb g;
  go_inode' : ir_block ir <> bmp_blk sb g (c (desc_blk sb g));
}.
(** What group [g] must be for an operation on it: its bitmaps are initialised. *)
Record group_ok (sb : list Z) (ir : inode_ref) (p : gset Z) (c : Z -> list Z) (g : Z) : Prop := {
  go_where : group_apart sb ir p c g;
  go_ready : group_ready sb g (c (desc_blk sb g)) = true;
}.

(** A bit of group [g] that may be handed out. *)
Definition takeable (sb : list Z) (c : Z -> list Z) (g i : Z) : Prop :=
  let D := desc_blk sb g in
  let bm := c (bmp_blk sb g (c D)) in
  0 <= i < ext4_blocks_in_group_cnt sb g /\ ext4_bmap_is_bit_clr bm i = true /\
  ext4_balloc_verify_bitmap_csum sb (desc_off sb g) bm (c D) = true /\
  ext4_bg_get_free_blocks_count (desc_off sb g) (c D) sb <> 0.

Lemma alloc_in_group_wp n f sb ir l c h p g bgid choose :
  fabs n f sb ir l c h p -> n + 1 < 2 ^ 32 -> 0 < h (desc_blk sb g) -> group_ok sb ir p c g ->
  wp (alloc_in_group (group_ref sb g) bgid choose) f (fun x f' =>
    let D := desc_blk sb g in
    match x with
    | Ok None =>
        (ext4_bg_get_free_blocks_count (desc_off sb g) (c D) sb = 0 \/
         exists rc, choose (c (bmp_blk sb g (c D))) = Err rc) /\
        fabs (n + 1) f' sb ir l c h p
    | Ok (Some a) => exists i,
        choose (c (bmp_blk sb g (c D))) = Ok i /\ a = ext4_fs_bg_idx_to_addr sb i bgid /\
        ext4_balloc_verify_bitmap_csum sb (desc_off sb g) (c (bmp_blk sb g (c D))) (c D) = true /\
        ext4_bg_get_free_blocks_count (desc_off sb g) (c D) sb <> 0 /\
        fabs (n + 1) f' sb ir l (bit_taken sb g i c) h ({[D]} ∪ p)
    | Err rc => clean_err (St := St) rc /\ fabs (n + 1) f' sb ir l c (fupd D (h D - 1) h) p
    end).
Proof.
  intros A Hn Hh [[G1 G2 G3 G4 G5] G6]. cbv zeta.
  set (D := desc_blk sb g) in *. set (B := bmp_blk sb g (c D)) in *.
  pose proof (fabs_budget _ _ _ _ _ _ _ _ A) as Hbud.
  unfold alloc_in_group. cbn [br_block br_off group_ref]. fold D. fs_step. fs_step. fs_step. fs_step; [done|].
  destruct (Z.eqb_spec (ext4_bg_get_free_blocks_count (desc_off sb g) (c D) sb) 0) as [Hz|Hz].
  { fs_step. split; [by left|]. eapply (fabs_weaken _ _ _ _ _ _ _ _ A); try done. lia. }
  fs_step. eapply wp_mono; [by apply (load_bitmap_wp _ _ _ _ _ _ _ _ g A)|]. cbv beta.
  intros [blk|rc] f1; [|done]. intros (-> & Hv & A1). fold D B in A1.
  pose proof (fabs_held _ _ _ _ _ _ _ _ A B) as HB0.
  assert (HB : 0 < fupd B (h B + 1) h B) by (rewrite fupd_eq; lia).
  fs_step. fs_step; [done|]. fold D B.
  destruct (choose (c B)) as [i|rc] eqn:Ec.
  - fs_step. unfold take_bit. fs_step. fs_step. fs_step.
    eapply wp_mono; [apply (update_bitmap_wp _ _ _ _ _ _ _ _ g A1); try done|].
    { fold D. by rewrite fupd_ne. } { apply keeps_bit_set. }
    cbv beta. intros x f2 [-> A2]. fs_step.
    eapply wp_mono; [apply (put_bitmap_wp _ _ _ _ _ _ _ _ A2); [done|set_solver]|].
    cbv beta. intros x f3 [-> A3]. fs_step. fs_step. exists i. split_and!; try done.
    eapply (fabs_weaken _ _ _ _ _ _ _ _ A3); [|done| |done].
    + split; [lia|]. eapply bs_budget, (fa_st _ _ _ _ _ _ _ _ A3).
    + intros x. symmetry. exact (fupd_restore B 1 h x).
  - fs_step. eapply wp_mono; [by apply (put_bitmap_wp _ _ _ _ _ _ _ _ A1)|].
    cbv beta. intros x f2 [-> A2]. fs_step. split; [right; by exists rc|].
    eapply (fabs_weaken _ _ _ _ _ _ _ _ A2); [|done| |done].
    + split; [lia|]. eapply bs_budget, (fa_st _ _ _ _ _ _ _ _ A2).
    + intros x. symmetry. exact (fupd_restore B 1 h x).
Qed.

Lemma settle_wp n f sb ir l c h p g sign k :
  fabs n f sb ir l c h p -> 0 < h (desc_blk sb g) -> 0 < h (ir_block ir) ->
  ir_block ir <> desc_blk sb g ->
  wp (account (group_ref sb g) sign k;;; ext4_fs_put_block_group_ref (br_set_dirty (group_ref sb g))) f
    (fun x f' => x = Ok tt /\
      fabs n f' (sb_moved sign k sb) (iref_dirty ir) l (settle_group sb ir g sign k c)
        (fupd (desc_blk sb g) (h (desc_blk sb g) - 1) h)
        ({[ir_block ir]} ∪ p ∖ {[desc_blk sb g]})).
Proof.
  intros A HD HI Hne. fs_step.
  eapply wp_mono; [by apply (account_wp _ _ _ _ _ _ _ _ (group_ref sb g) sign k A)|]. cbv beta zeta.
  intros x f1 [-> A1]. cbn [br_block br_off group_ref] in A1.
  eapply wp_mono; [by apply (put_dirty_wp _ _ _ _ _ _ _ _ A1 (br_set_dirty (group_ref sb g)))|].
  cbv beta zeta. intros x f2 [-> A2]. split; [done|].
  cbn [br_block br_off br_index group_ref br_set_dirty] in A2.
  eapply (fabs_weaken _ _ _ _ _ _ _ _ A2); [apply (fabs_budget _ _ _ _ _ _ _ _ A2)| |done|set_solver].
  intros x. unfold settle_group. by rewrite fupd_fupd, fupd_eq.
Qed.

Lemma alloc_success_wp n f sb ir l c h p g a :
  fabs n f sb ir l c h p -> 0 < h (desc_blk sb g) -> 0 < h (ir_block ir) ->
  ir_block ir <> desc_blk sb g ->
  wp (alloc_success (group_ref sb g) a) f
    (fun x f' => x = Ok a /\
      fabs n f' (sb_moved (-1) 1 sb) (iref_dirty ir) l (settle_group sb ir g (-1) 1 c)
        (fupd (desc_blk sb g) (h (desc_blk sb g) - 1) h)
        ({[ir_block ir]} ∪ p ∖ {[desc_blk sb g]})).
Proof.
  intros A HD HI Hne. pose proof (settle_wp _ _ _ _ _ _ _ _ g (-1) 1 A HD HI Hne) as H.
  unfold alloc_success, wp, mbnd in *.
  destruct (account _ _ _ f) as [[[]|] f1]; [|by destruct H].
  destruct (ext4_fs_put_block_group_ref _ f1) as [[[]|] f2]; by destruct H.
Qed.

(** Group [g] has nothing to hand out. *)
Definition full (sb : list Z) (c : Z -> list Z) (g : Z) : Prop := forall i, ~ takeable sb c g i.

(** What an allocation may answer from contents [c]. *)
Definition alloc_answer (n : Z) (sb : list Z) (ir : inode_ref) (l : Z) (c : Z -> list Z)
    (h : Z -> Z) (p : gset Z) (x : result Z) (f' : fsys St) : Prop :=
  match x with
  | Ok a => exists g i,
      0 <= g < ext4_block_group_cnt sb /\ takeable sb c g i /\ a = ext4_fs_bg_idx_to_addr sb i g /\
      fabs n f' (sb_moved (-1) 1 sb) (iref_dirty ir) l
        (settle_group sb ir g (-1) 1 (bit_taken sb g i c)) h ({[ir_block ir]} ∪ p)
  | Err rc =>
      (clean_err (St := St) rc \/
       rc = ENOSPC /\ forall g, 0 <= g < ext4_block_group_cnt sb -> full sb c g) /\
      fabs n f' sb ir l c h p
  end.

Lemma alloc_answer_mono n n' sb ir l c h p x f' :
  n <= n' < 2 ^ 32 -> alloc_answer n sb ir l c h p x f' -> alloc_answer n' sb ir l c h p x f'.
Proof.
  intros Hn. destruct x as [a|rc]; cbn.
  - intros (g & i & ? & ? & ? & A). exists g, i. split_and!; try done; try lia. by eapply (fabs_weaken _ _ _ _ _ _ _ _ A).
  - intros [? A]. split; [done|]. by eapply (fabs_weaken _ _ _ _ _ _ _ _ A).
Qed.

(** One group, from the fetch of its descriptor to the answer; [k] is what to do
    when it has nothing. *)
Lemma try_group_wp n f sb ir l c h p g choose (k : M (fsys St) Z) n' :
  fabs n f sb ir l c h p -> n + 2 <= n' -> n' < 2 ^ 32 -> 0 <= g < ext4_block_group_cnt sb ->
  group_ok sb ir p c g -> 0 < h (ir_block ir) ->
  (forall bm i, choose bm = Ok i ->
     0 <= i < ext4_blocks_in_group_cnt sb g /\ ext4_bmap_is_bit_clr bm i = true) ->
  (forall f', fabs (n + 2) f' sb ir l c h p ->
     ext4_bg_get_free_blocks_count (desc_off sb g) (c (desc_blk sb g)) sb = 0 \/
       (exists rc, choose (c (bmp_blk sb g (c (desc_blk sb g)))) = Err rc) ->
     wp k f' (alloc_answer n' sb ir l c h p)) ->
  wp (r <- ext4_fs_get_block_group_ref g;;
      a <- alloc_in_group r g choose;;
      match a with
      | Some alloc => alloc_success r alloc
      | None => ext4_fs_put_block_group_ref r;;; k
      end) f (alloc_answer n' sb ir l c h p).
Proof.
  intros A Hn Hn' Hg G HI Hch Hk. pose proof G as [[G1 G2 G3 G4 G5] G6]. set (D := desc_blk sb g) in *.
  fs_step. eapply wp_mono; [apply (get_ref_wp _ _ _ _ _ _ _ _ A g); [lia|done|done]|]. cbv beta.
  intros [r|rc] f1.
  2: { intros [Hrc A1]. split; [by left|]. eapply (fabs_weaken _ _ _ _ _ _ _ _ A1); [lia|done..]. }
  intros (-> & _ & A1). fold D in A1. pose proof (fabs_held _ _ _ _ _ _ _ _ A D) as HD0.
  assert (HD : 0 < fupd D (h D + 1) h D) by (rewrite fupd_eq; lia).
  assert (HI1 : 0 < fupd D (h D + 1) h (ir_block ir)) by (by rewrite fupd_ne).
  fs_step. eapply wp_mono; [apply (alloc_in_group_wp _ _ _ _ _ _ _ _ g g choose A1); [lia|done|done]|].
  cbv beta zeta. fold D. intros [[a|]|rc] f2.
  - intros (i & Ec & -> & Hv & Hf & A2). destruct (Hch _ _ Ec) as [Hi Hclr].
    eapply wp_mono; [by apply (alloc_success_wp _ _ _ _ _ _ _ _ g _ A2)|]. cbv beta.
    intros x f3 [-> A3]. exists g, i. split_and!; try done; try lia.
    eapply (fabs_weaken _ _ _ _ _ _ _ _ A3); [lia|done| |fold D; set_solver].
    intros x. symmetry. exact (fupd_restore D 1 h x).
  - intros [Hnone A2]. fs_step. eapply wp_mono; [by apply (put_clean_wp _ _ _ _ _ _ _ _ A2 (group_ref sb g))|].
    cbv beta. intros x f3 [-> A3]. apply Hk; [|done]. cbn [br_block group_ref] in A3. fold D in A3.
    eapply (fabs_weaken _ _ _ _ _ _ _ _ A3); [lia|done| |done].
    intros x. symmetry. exact (fupd_restore D 1 h x).
  - intros [Hrc A2]. split; [by left|]. eapply (fabs_weaken _ _ _ _ _ _ _ _ A2); [lia|done| |done].
    intros x. symmetry. exact (fupd_restore D 1 h x).
Qed.

(** ** The whole search *)

Lemma find_near_spec fuel bm : forall i hi j,
  find_near fuel bm i hi = Some j -> i <= j < hi /\ ext4_bmap_is_bit_clr bm j = true.
Proof.
  induction fuel as [|fuel IH]; intros i hi j; cbn [find_near]; [done|].
  destruct (Z.ltb_spec i hi) as [Hlt|]; [|done].
  destruct (ext4_bmap_is_bit_clr bm i) eqn:Ec; [intros [= <-]; split; [lia|done]|].
  intros H. destruct (IH _ _ _ H). split; [lia|done].
Qed.

Lemma goal_bit_spec bm i hi j :
  0 <= i < hi -> hi < 2 ^ 32 -> goal_bit bm i hi = Ok j ->
  0 <= j < hi /\ ext4_bmap_is_bit_clr bm j = true.
Proof.
  intros Hi Hhi. unfold goal_bit. destruct (ext4_bmap_is_bit_clr bm i) eqn:Ec.
  { intros [= <-]. by split. }
  set (e := if hi <? Z.ldiff (u32 (i + 63)) 63 then hi else Z.ldiff (u32 (i + 63)) 63). assert (He : e <= hi) by (unfold e; case_match; lia).
  destruct (find_near 64 bm (i + 1) e) as [k|] eqn:En.
  { intros [= <-]. destruct (find_near_spec _ _ _ _ _ En). split; [lia|done]. }
  intros H. pose proof (bit_find_clr_first bm i hi ltac:(lia) ltac:(lia)) as F. rewrite H in F.
  destruct F as (F1 & F2 & _). split; [lia|]. rewrite is_bit_clr_bit_at by lia. by rewrite F2.
Qed.

Lemma find_clr_takeable bm lo hi j :
  0 <= lo -> hi < 2 ^ 32 -> ext4_bmap_bit_find_clr bm lo hi = Ok j ->
  0 <= j < hi /\ ext4_bmap_is_bit_clr bm j = true.
Proof.
  intros Hlo Hhi H. pose proof (bit_find_clr_first bm lo hi Hlo Hhi) as F. rewrite H in F.
  destruct F as (F1 & F2 & _). split; [lia|]. rewrite is_bit_clr_bit_at by lia. by rewrite F2.
Qed.

(** The volume's numbers: what the probe (Core/shim/ext4_bridge.c) and
    [ext4_sb_check] see to, for volumes of less than 2^32 blocks. *)
Record geometry (sb : list Z) : Prop := {
  gm_bpg : 0 < sb_get sb_blocks_per_group sb;
  gm_fdb : sb_get sb_first_data_block sb <= 1;
  gm_cnt : 1 < ext4_sb_get_blocks_cnt sb < 2 ^ 32;
}.

Section Geometry.
Context (sb : list Z) (G : geometry sb).
Local Abbreviation bpg := (sb_get sb_blocks_per_group sb).
Local Abbreviation cnt := (ext4_sb_get_blocks_cnt sb).

Lemma group_cnt_value : ext4_block_group_cnt sb = (cnt + bpg - 1) / bpg.
Proof.
  destruct G. apply block_group_cnt_ceil; [done|]. sb_range sb_blocks_per_group sb.
  apply Z.div_lt_upper_bound; nia.
Qed.
Lemma group_cnt_bounds :
  0 < ext4_block_group_cnt sb < 2 ^ 32 /\
  (ext4_block_group_cnt sb - 1) * bpg < cnt <= ext4_block_group_cnt sb * bpg.
Proof.
  destruct G. rewrite group_cnt_value. sb_range sb_blocks_per_group sb.
  assert ((cnt + bpg - 1) / bpg < 2 ^ 32) by (apply Z.div_lt_upper_bound; nia).
  set (q := (cnt + bpg - 1) / bpg) in *.
  assert (q * bpg <= cnt + bpg - 1 < (q + 1) * bpg) by (unfold q; Z.div_mod_to_equations; nia).
  nia.
Qed.
Lemma blocks_in_group_bounds g :
  0 <= g < ext4_block_group_cnt sb ->
  ext4_blocks_in_group_cnt sb g = Z.min bpg (cnt - g * bpg) /\
  0 < ext4_blocks_in_group_cnt sb g <= bpg.
Proof.
  intros Hg. pose proof group_cnt_bounds. destruct G. rewrite group_cnt_value in *.
  rewrite blocks_in_group_value by lia. split; [done|]. nia.
Qed.
(** A block of the volume, by group and index. *)
Lemma block_group_index a :
  sb_get sb_first_data_block sb <= a < cnt ->
  let g := ext4_balloc_get_bgid_of_block sb a in
  0 <= g < ext4_block_group_cnt sb /\
  0 <= ext4_fs_addr_to_idx_bg sb a < ext4_blocks_in_group_cnt sb g.
Proof.
  intros Ha. cbv zeta. unfold ext4_balloc_get_bgid_of_block, ext4_fs_addr_to_idx_bg.
  set (x := if negb (sb_get sb_first_data_block sb =? 0) && negb (a =? 0) then a - 1 else a). sb_range sb_first_data_block sb. pose proof (gm_bpg sb G) as Hb.
  assert (Hx : 0 <= x < cnt).
  { unfold x. destruct (Z.eqb_spec (sb_get sb_first_data_block sb) 0), (Z.eqb_spec a 0); cbn [negb andb]; lia. }
  pose proof (gm_cnt sb G) as Hc. pose proof group_cnt_bounds as Hg.
  assert (Hq : 0 <= x / bpg /\ x / bpg * bpg <= x < (x / bpg + 1) * bpg) by (Z.div_mod_to_equations; nia).
  assert (Hlt : x / bpg < ext4_block_group_cnt sb) by nia.
  rewrite u32_id by lia. split; [lia|].
  destruct (blocks_in_group_bounds (x / bpg) ltac:(lia)) as [-> _].
  pose proof (Z.mod_pos_bound x bpg Hb). pose proof (Z.div_mod x bpg). nia.
Qed.
Lemma first_index_zero g :
  0 <= g < ext4_block_group_cnt sb -> first_index sb g = 0.
Proof.
  intros Hg. pose proof (gm_bpg sb G) as Hb. pose proof (gm_cnt sb G) as Hc.
  pose proof group_cnt_bounds as Hq. sb_range sb_first_data_block sb.
  assert (Hp : 0 <= g * bpg < 2 ^ 32) by nia.
  unfold first_index, ext4_fs_addr_to_idx_bg, ext4_balloc_get_block_of_bgid.
  rewrite (u32_id (g * bpg)) by lia.
  destruct (Z.eqb_spec (sb_get sb_first_data_block sb) 0); cbn [negb andb].
  - rewrite u64_id by lia. rewrite Z.add_0_l. by apply Z.mod_mul; lia.
  - rewrite u64_id by lia. destruct (Z.eqb_spec (1 + g * bpg) 0); [lia|]. cbn [negb].
    replace (1 + g * bpg - 1) with (g * bpg) by lia. apply Z.mod_mul; lia.
Qed.
End Geometry.

(** A search of the whole group that fails means the group is full. *)
Lemma search_full sb c g :
  geometry sb -> 0 <= g < ext4_block_group_cnt sb ->
  let bm := c (bmp_blk sb g (c (desc_blk sb g))) in
  ext4_bg_get_free_blocks_count (desc_off sb g) (c (desc_blk sb g)) sb = 0 \/
    (exists rc, ext4_bmap_bit_find_clr bm (first_index sb g) (ext4_blocks_in_group_cnt sb g) = Err rc) ->
  full sb c g.
Proof.
  intros G Hg. cbv zeta. intros H i (Hi & Hclr & _ & Hf). destruct H as [H|[rc H]]; [done|].
  destruct (blocks_in_group_bounds sb G g Hg) as [_ Hb]. sb_range sb_blocks_per_group sb.
  rewrite first_index_zero in H by done.
  pose proof (bit_find_clr_first (c (bmp_blk sb g (c (desc_blk sb g)))) 0 (ext4_blocks_in_group_cnt sb g)
    ltac:(lia) ltac:(lia)) as F. rewrite H in F. destruct F as [_ F].
  rewrite is_bit_clr_bit_at in Hclr by lia. by rewrite (F i ltac:(lia)) in Hclr.
Qed.

Lemma alloc_other_groups_wp count : forall n f sb ir l c h p bgid n',
  fabs n f sb ir l c h p -> n + 2 * Z.of_nat count <= n' -> n' < 2 ^ 32 -> geometry sb ->
  (forall g, 0 <= g < ext4_block_group_cnt sb -> group_ok sb ir p c g) ->
  0 < h (ir_block ir) -> 0 <= bgid < ext4_block_group_cnt sb ->
  (forall g, 0 <= g < ext4_block_group_cnt sb ->
     (exists j, 0 <= j < Z.of_nat count /\ g = (bgid + j) mod ext4_block_group_cnt sb) \/ full sb c g) ->
  wp (alloc_other_groups count bgid) f (alloc_answer n' sb ir l c h p).
Proof.
  induction count as [|count IH]; intros n f sb ir l c h p bgid n' A Hn Hn' G Hok HI Hg Hseen; cbn [alloc_other_groups].
  { fs_step. split; [|by eapply (fabs_weaken _ _ _ _ _ _ _ _ A); [lia|done..]].
    right. split; [done|]. intros g Hgg. destruct (Hseen g Hgg) as [(j & ? & _)|]; [lia|done]. }
  fs_step. fs_step. destruct (group_cnt_bounds sb G) as [Hc _].
  eapply (try_group_wp n f sb ir l c h p bgid); try done; [lia|by apply Hok| |].
  - intros bm i Hi. destruct (blocks_in_group_bounds sb G bgid Hg) as [_ ?].
    sb_range sb_blocks_per_group sb.
    apply (find_clr_takeable bm (first_index sb bgid)); [by rewrite first_index_zero|lia|done].
  - intros f' A' Hnone. apply (IH (n + 2)); try done; [lia|apply Z.mod_pos_bound; lia|].
    intros g Hgg. destruct (Hseen g Hgg) as [(j & Hj & ->)|]; [|by right].
    destruct (Z.eq_dec j 0) as [->|Hj0].
    + right. rewrite Z.add_0_r, Z.mod_small by done. by apply search_full.
    + left. exists (j - 1). split; [lia|]. rewrite (u32_id (bgid + 1)) by lia.
      rewrite Z.add_mod_idemp_l by lia. f_equal. lia.
Qed.

Lemma alloc_block_wp n f sb ir l c h p goal n' :
  fabs n f sb ir l c h p -> n + 2 * (ext4_block_group_cnt sb + 1) <= n' -> n' < 2 ^ 32 ->
  geometry sb -> (forall g, 0 <= g < ext4_block_group_cnt sb -> group_ok sb ir p c g) ->
  0 < h (ir_block ir) ->
  wp (ext4_balloc_alloc_block goal) f (alloc_answer n' sb ir l c h p).
Proof.
  intros A Hn Hn' G Hok HI. destruct (group_cnt_bounds sb G) as [Hc _].
  unfold ext4_balloc_alloc_block. fs_step. fs_step.
  set (goal' := if (goal <? _) || _ then _ else goal).
  assert (Hgoal : sb_get sb_first_data_block sb <= goal' < ext4_sb_get_blocks_cnt sb).
  { destruct G. unfold goal'. destruct (Z.ltb_spec goal (sb_get sb_first_data_block sb)); cbn [orb]; [lia|].
    destruct (Z.leb_spec (ext4_sb_get_blocks_cnt sb) goal); lia. }
  destruct (block_group_index sb G goal' Hgoal) as [Hg Hi].
  set (g := ext4_balloc_get_bgid_of_block sb goal') in *.
  eapply (try_group_wp n f sb ir l c h p g); try done; [lia|by apply Hok| |].
  - intros bm i. rewrite first_index_zero by done. destruct (blocks_in_group_bounds sb G g Hg) as [_ ?].
    sb_range sb_blocks_per_group sb.
    replace (ext4_fs_addr_to_idx_bg sb goal' <? 0) with false by lia.
    apply goal_bit_spec; lia.
  - intros f' A' _. apply (alloc_other_groups_wp _ (n + 2)); try done; [lia|apply Z.mod_pos_bound; lia|].
    intros q Hq. left. set (b := u32 (g + 1) mod ext4_block_group_cnt sb).
    exists ((q - b) mod ext4_block_group_cnt sb). split.
    + rewrite Z2Nat.id by lia. apply Z.mod_pos_bound. lia.
    + rewrite Z.add_mod_idemp_r by lia. replace (b + (q - b)) with q by lia. by rewrite Z.mod_small.
Qed.

(** ** A group and its bitmap, in hand *)

Section InHand.
Context (n : Z) (f : fsys St) (sb : list Z) (ir : inode_ref) (l : Z).
Context (c : Z -> list Z) (h : Z -> Z) (p : gset Z) (g : Z).
Context (A : fabs n f sb ir l c h p) (G : group_ok sb ir p c g).
Local Abbreviation D := (desc_blk sb g).
Local Abbreviation B := (bmp_blk sb g (c D)).
Local Abbreviation hD := (fupd D (h D + 1) h).

(** Both handles, or none. *)
Lemma open_group_wp {X} (k : block_group_ref -> Z -> M (fsys St) X) Q :
  n + 2 < 2 ^ 32 ->
  (forall f', fabs (n + 2) f' sb ir l c (fupd B (h B + 1) hD) p ->
     wp (k (group_ref sb g) B) f' Q) ->
  (forall rc f', clean_err (St := St) rc -> fabs (n + 2) f' sb ir l c h p -> Q (Err rc) f') ->
  wp (r <- ext4_fs_get_block_group_ref g;; blk <- load_bitmap r;; k r blk) f Q.
Proof.
  intros Hn Hk He. destruct G as [[G1 G2 G3 G4 G5] G6].
  fs_step. eapply wp_mono; [apply (get_ref_wp _ _ _ _ _ _ _ _ A g); [lia|done|done]|]. cbv beta.
  intros [r|rc] f1.
  2: { intros [Hrc A1]. apply He; [done|]. eapply (fabs_weaken _ _ _ _ _ _ _ _ A1); [lia|done..]. }
  intros (-> & _ & A1). pose proof (fabs_held _ _ _ _ _ _ _ _ A D) as HD0.
  assert (HD : 0 < hD D) by (rewrite fupd_eq; lia).
  fs_step. eapply wp_mono; [apply (load_bitmap_wp _ _ _ _ _ _ _ _ g A1); [lia|done..]|]. cbv beta.
  intros [blk|rc] f2.
  - intros (-> & Hv & A2). apply Hk. eapply (fabs_weaken _ _ _ _ _ _ _ _ A2); [lia|done| |done].
    intros x. by rewrite (fupd_ne D _ h B).
  - intros [Hrc A2]. apply He; [done|]. eapply (fabs_weaken _ _ _ _ _ _ _ _ A2); [lia|done| |done].
    intros x. symmetry. exact (fupd_restore D 1 h x).
Qed.

(** The bitmap changed and given back. *)
Lemma change_bitmap_wp {X} gf n2 f2 (k : M (fsys St) X) Q :
  fabs n2 f2 sb ir l c (fupd B (h B + 1) hD) p -> keeps gf ->
  (forall f', fabs n2 f' sb ir l
     (fupd D (ext4_balloc_set_bitmap_csum sb (desc_off sb g) (gf (c B)) (c D)) (fupd B (gf (c B)) c))
     hD ({[D]} ∪ p) -> wp k f' Q) ->
  wp (update_bitmap (group_ref sb g) B gf;;; put_bitmap (group_ref sb g) B;;; k) f2 Q.
Proof.
  intros A2 Hgf Hk. destruct G as [[G1 G2 G3 G4 G5] G6].
  pose proof (fabs_held _ _ _ _ _ _ _ _ A D) as HD0. pose proof (fabs_held _ _ _ _ _ _ _ _ A B) as HB0.
  assert (HB : 0 < fupd B (h B + 1) hD B) by (rewrite fupd_eq; lia).
  assert (HD : 0 < fupd B (h B + 1) hD D) by (rewrite fupd_ne, fupd_eq by done; lia).
  fs_step. eapply wp_mono; [by apply (update_bitmap_wp _ _ _ _ _ _ _ _ g A2)|].
  cbv beta. intros x f3 [-> A3]. fs_step.
  eapply wp_mono; [apply (put_bitmap_wp _ _ _ _ _ _ _ _ A3); [done|set_solver]|].
  cbv beta. intros x f4 [-> A4]. apply Hk.
  eapply (fabs_weaken _ _ _ _ _ _ _ _ A4); [apply (fabs_budget _ _ _ _ _ _ _ _ A4)|done| |done].
  intros x. symmetry. apply fupd_put_back. rewrite fupd_eq, fupd_ne by done. lia.
Qed.
End InHand.

(** [ext4_balloc_try_alloc_block], for a block the groups cover. *)
Lemma try_alloc_wp n f sb ir l c h p a :
  let g := ext4_balloc_get_bgid_of_block sb a in
  let i := ext4_fs_addr_to_idx_bg sb a in
  let B := bmp_blk sb g (c (desc_blk sb g)) in
  fabs n f sb ir l c h p -> n + 2 < 2 ^ 32 -> group_ok sb ir p c g -> 0 < h (ir_block ir) ->
  sb_get sb_first_data_block sb <= a < ext4_sb_get_blocks_cnt sb ->
  wp (ext4_balloc_try_alloc_block a) f (fun x f' =>
    match x with
    | Ok false => ext4_bmap_is_bit_clr (c B) i = false /\ fabs (n + 2) f' sb ir l c h p
    | Ok true => ext4_bmap_is_bit_clr (c B) i = true /\
        fabs (n + 2) f' (sb_moved (-1) 1 sb) (iref_dirty ir) l
          (settle_group sb ir g (-1) 1 (bit_taken sb g i c)) h ({[ir_block ir]} ∪ p)
    | Err rc => clean_err (St := St) rc /\ fabs (n + 2) f' sb ir l c h p
    end).
Proof.
  intros g i B A Hn G HI Ha. set (D := desc_blk sb g) in *.
  pose proof G as [[G1 G2 G3 G4 G5] G6]. pose proof (fabs_held _ _ _ _ _ _ _ _ A D) as HD0.
  pose proof (fabs_held _ _ _ _ _ _ _ _ A B) as HB0.
  unfold ext4_balloc_try_alloc_block. fs_step. fs_step.
  replace (a <? sb_get sb_first_data_block sb) with false by lia.
  replace (ext4_sb_get_blocks_cnt sb <=? a) with false by lia. cbn [orb].
  apply (open_group_wp n f sb ir l c h p g A G); [lia| |by intros].
  intros f1 A1. fold D B in A1 |- *.
  assert (HB : 0 < fupd B (h B + 1) (fupd D (h D + 1) h) B) by (rewrite fupd_eq; lia).
  fs_step. fs_step; [done|]. fold g i.
  destruct (ext4_bmap_is_bit_clr (c B) i) eqn:Ec.
  - apply (change_bitmap_wp n f sb ir l c h p g A G _ _ _ _ _ A1); [apply keeps_bit_set|].
    intros f2 A2. fs_step.
    eapply wp_mono; [apply (settle_wp _ _ _ _ _ _ _ _ g (-1) 1 A2); fold D; [rewrite fupd_eq; lia|by rewrite fupd_ne|done]|].
    cbv beta. intros x f3 [-> A3]. fs_step. split; [done|].
    eapply (fabs_weaken _ _ _ _ _ _ _ _ A3); [lia|done| |fold D; set_solver].
    intros x. symmetry. exact (fupd_restore D 1 h x).
  - fs_step. fs_step. fs_step.
    eapply wp_mono; [by apply (put_bitmap_wp _ _ _ _ _ _ _ _ A1)|]. cbv beta. intros x f2 [-> A2]. fs_step.
    assert (A2' : fabs (n + 2) f2 sb ir l c (fupd D (h D + 1) h) p).
    { eapply (fabs_weaken _ _ _ _ _ _ _ _ A2); [lia|done| |done].
      intros x. symmetry. apply fupd_put_back. rewrite fupd_eq, fupd_ne by done. lia. }
    assert (HD : 0 < fupd D (h D + 1) h D) by (rewrite fupd_eq; lia).
    eapply wp_mono; [by apply (put_clean_wp _ _ _ _ _ _ _ _ A2' (group_ref sb g))|].
    cbv beta. intros x f3 [-> A3]. fs_step. split; [done|].
    eapply (fabs_weaken _ _ _ _ _ _ _ _ A3); [lia|done| |done].
    intros x. symmetry. exact (fupd_restore D 1 h x).
Qed.

(** ** Freeing *)

(** The contents after the bits of group [g] went through [gf], with the new
    checksum of the bitmap. *)
Definition bitmap_through (sb : list Z) (g : Z) (gf : list Z -> list Z) (c : Z -> list Z)
  : Z -> list Z :=
  let D := desc_blk sb g in
  let bm := gf (c (bmp_blk sb g (c D))) in
  fupd D (ext4_balloc_set_bitmap_csum sb (desc_off sb g) bm (c D)) (fupd (bmp_blk sb g (c D)) bm c).

(** No journal is running: there is nothing to revoke. *)
Definition no_revokes : Prop := forall a s, fst (bs_revoke a s) = Ok tt.

Lemma free_block_wp n f sb ir l c h p a :
  let g := ext4_balloc_get_bgid_of_block sb a in
  let i := ext4_fs_addr_to_idx_bg sb a in
  no_revokes -> fabs n f sb ir l c h p -> n + 3 < 2 ^ 32 -> group_ok sb ir p c g ->
  0 < h (ir_block ir) -> 0 <= a < 2 ^ 63 -> h a = 0 -> a ∉ p -> a <> desc_blk sb g ->
  wp (ext4_balloc_free_block a) f (fun x f' =>
    match x with
    | Ok _ => exists c',
        (forall x, x <> a -> c' x =
           settle_group sb ir g 1 1 (bitmap_through sb g (fun bm => ext4_bmap_bit_clr bm i) c) x) /\
        fabs (n + 3) f' (sb_moved 1 1 sb) (iref_dirty ir) l c' h ({[ir_block ir]} ∪ p)
    | Err rc => clean_err (St := St) rc /\ fabs (n + 3) f' sb ir l c h p
    end).
Proof.
  intros g i Hrev A Hn G HI Ha Hha Hap HaD. set (D := desc_blk sb g) in *.
  pose proof G as [[G1 G2 G3 G4 G5] G6]. pose proof (fabs_held _ _ _ _ _ _ _ _ A D) as HD0.
  assert (HaI : a <> ir_block ir) by (intros ->; lia).
  unfold ext4_balloc_free_block. fs_step. fs_step. fold g i.
  apply (open_group_wp n f sb ir l c h p g A G); [lia| |].
  2: { intros rc f1 Hrc A1. split; [done|]. eapply (fabs_weaken _ _ _ _ _ _ _ _ A1); [lia|done..]. }
  intros f1 A1.
  apply (change_bitmap_wp n f sb ir l c h p g A G _ _ _ _ _ A1); [apply keeps_bit_clr|]. fold D.
  intros f2 A2. set (c1 := fupd D _ _) in A2.
  assert (HD : 0 < fupd D (h D + 1) h D) by (rewrite fupd_eq; lia).
  fs_step. eapply wp_mono; [apply (account_wp _ _ _ _ _ _ _ _ (group_ref sb g) 1 1 A2); cbn; fold D; [done|by rewrite fupd_ne|done]|].
  cbv beta zeta. cbn [br_block br_off group_ref]. fold D. intros x f3 [-> A3].
  fs_step. fs_step. apply (wp_revoke _ _ _ _ _ _ _ _ A3); [lia|lia|set_solver|].
  intros r f4 _ Er A4. rewrite Hrev in Er. subst r. fs_step.
  apply (wp_invalidate _ _ _ _ _ _ _ _ A4); [lia|lia|lia| |].
  { intros y Hy. assert (y = a) as -> by lia. by rewrite fupd_ne. }
  intros f5 c5 Hc5 A5.
  eapply wp_mono; [by apply (put_dirty_wp _ _ _ _ _ _ _ _ A5 (br_set_dirty (group_ref sb g)))|].
  cbv beta zeta. intros x f6 [-> A6]. cbn [br_block br_off br_index group_ref br_set_dirty] in A6. fold D in A6.
  eexists. split; [|eapply (fabs_weaken _ _ _ _ _ _ _ _ A6); [lia|intros y; reflexivity| |set_solver]].
  - intros y Hy. unfold settle_group. fold D. destruct (Z.eq_dec y D) as [->|HyD].
    + rewrite !fupd_eq. rewrite (Hc5 D) by lia. by rewrite fupd_eq.
    + rewrite !(fupd_ne D) by done. rewrite Hc5 by lia. by rewrite fupd_ne.
  - intros y. symmetry. exact (fupd_restore D 1 h y).
Qed.
End BallocSpec.
