(* ===== verification/BallocProps.v ===== *)
(** * Properties of the block allocator

    The composed effect of an allocation or of a free, read back through the
    accessors of the rest of the driver: one bitmap changes by the bits that were
    moved, the three free or used counts by their number, every checksum verifies
    again, and nothing else changes. *)

From S2P Require Import Prelude Layout Types Bitmap Crc Super BlockGroup Inode Device Bcache CacheSpec CacheProps.
From S2P Require Import Trans Store Group Fs FsSpec GroupLaws Sample Balloc BallocSpec.

(** ** Superblocks that differ in the count of free blocks only *)

Lemma sb_moved_get fl sign k sb :
  f_disj sb_free_blocks_count_lo fl = true -> f_disj sb_free_blocks_count_hi fl = true ->
  sb_get fl (sb_moved sign k sb) = sb_get fl sb.
Proof. apply sb_get_set_free_ne. Qed.
#[export] Hint Rewrite sb_moved_get using reflexivity : struct.

Section SbMoved.
Context (sign k : Z) (sb : list Z).
Local Abbreviation sb' := (sb_moved sign k sb).

Lemma sb_moved_uuid : ext4_sb_uuid sb' = ext4_sb_uuid sb.
Proof.
  unfold sb_moved, ext4_sb_set_free_blocks_cnt, ext4_sb_uuid.
  rewrite !slice_sb_set_out; first [done | left; done | right; done].
Qed.
Lemma sb_moved_ro fl : ext4_sb_feature_ro_com sb' fl = ext4_sb_feature_ro_com sb fl.
Proof. unfold ext4_sb_feature_ro_com. by autorewrite with struct. Qed.
Lemma sb_moved_incom fl : ext4_sb_feature_incom sb' fl = ext4_sb_feature_incom sb fl.
Proof. unfold ext4_sb_feature_incom. by autorewrite with struct. Qed.
Lemma sb_moved_bsize : ext4_sb_get_block_size sb' = ext4_sb_get_block_size sb.
Proof. unfold ext4_sb_get_block_size. by autorewrite with struct. Qed.
Lemma sb_moved_desc_size : ext4_sb_get_desc_size sb' = ext4_sb_get_desc_size sb.
Proof. unfold ext4_sb_get_desc_size. by autorewrite with struct. Qed.
Lemma sb_moved_wide : bg_wide sb' = bg_wide sb.
Proof. unfold bg_wide. by rewrite sb_moved_desc_size. Qed.
Lemma sb_moved_seed : ext4_sb_csum_seed sb' = ext4_sb_csum_seed sb.
Proof. unfold ext4_sb_csum_seed. rewrite sb_moved_uuid, ?sb_moved_incom. by autorewrite with struct. Qed.
Lemma sb_moved_bmp_csum bm : ext4_balloc_bitmap_csum sb' bm = ext4_balloc_bitmap_csum sb bm.
Proof.
  unfold ext4_balloc_bitmap_csum. rewrite sb_moved_ro, sb_moved_seed. by autorewrite with struct.
Qed.
Lemma sb_moved_bg16 lo hi p b : bg_get16 lo hi p b sb' = bg_get16 lo hi p b sb.
Proof. unfold bg_get16. by rewrite sb_moved_wide. Qed.
Lemma sb_moved_bg32 lo hi p b : bg_get32 lo hi p b sb' = bg_get32 lo hi p b sb.
Proof. unfold bg_get32. by rewrite sb_moved_wide. Qed.
Lemma sb_moved_abs p b : bg_abs sb' p b = bg_abs sb p b.
Proof.
  unfold bg_abs. unfold_bg. rewrite !sb_moved_bg16, !sb_moved_bg32. reflexivity.
Qed.
End SbMoved.

(** ** The effect of moving blocks between free and used *)

(** [c'] is [c] with [sign * k] blocks more free in group [g], whose bitmap went
    through [gf]; the contents of the blocks of [lost] may be anything. *)
Record moved (sb : list Z) (ir : inode_ref) (g sign k : Z) (gf : list Z -> list Z)
    (lost : Z -> Prop) (c c' : Z -> list Z) : Prop := {
  mv_bitmap : c' (bmp_blk sb g (c (desc_blk sb g))) = gf (c (bmp_blk sb g (c (desc_blk sb g))));
  mv_desc :
    let d := bg_abs sb (desc_off sb g) (c (desc_blk sb g)) in
    bg_abs sb (desc_off sb g) (c' (desc_blk sb g)) =
    mk_bgdesc (d_block_bitmap d) (d_inode_bitmap d) (d_inode_table d)
      (u32 (d_free_blocks d + sign * k) mod 2 ^ bg_cnt_width sb)
      (d_free_inodes d) (d_used_dirs d) (d_itable_unused d) (d_flags d);
  mv_desc_out j : 0 <= j -> j < desc_off sb g \/ desc_off sb g + bg_size sb <= j ->
    byte_at (c' (desc_blk sb g)) j = byte_at (c (desc_blk sb g)) j;
  mv_bmp_csum :
    ext4_balloc_verify_bitmap_csum sb (desc_off sb g)
      (c' (bmp_blk sb g (c (desc_blk sb g)))) (c' (desc_blk sb g)) = true;
  mv_desc_csum :
    ext4_fs_verify_bg_csum (sb_moved sign k sb) g (desc_off sb g) (c' (desc_blk sb g)) = true;
  mv_inode m :
    m = ext4_inode_get_blocks_count sb (ir_off ir) (c (ir_block ir))
        - sign * (k * (ext4_sb_get_block_size sb / 512)) ->
    0 <= m < 2 ^ 32 \/
      (ext4_sb_feature_ro_com sb EXT4_FRO_COM_HUGE_FILE = true /\ 0 <= m < 2 ^ 48) ->
    ext4_inode_get_blocks_count sb (ir_off ir) (c' (ir_block ir)) = m;
  mv_else x : x <> bmp_blk sb g (c (desc_blk sb g)) -> x <> desc_blk sb g -> x <> ir_block ir ->
    ~ lost x -> c' x = c x;
}.

(** A count of less than 48 bits survives its store. *)
Lemma blocks_count_stored sb p b m :
  0 <= p -> p + 128 <= blen b ->
  0 <= m < 2 ^ 32 \/ (ext4_sb_feature_ro_com sb EXT4_FRO_COM_HUGE_FILE = true /\ 0 <= m < 2 ^ 48) ->
  ext4_inode_get_blocks_count sb p
    (match ext4_inode_set_blocks_count sb p m b with Ok b' => b' | Err _ => b end) = m.
Proof.
  intros Hp Hb Hm. assert (H48 : 0 <= m < 2 ^ 48) by lia.
  rewrite set_blocks_count_store by lia. cbv zeta. replace (2 ^ 48 <=? m) with false by lia.
  replace ((2 ^ 32 <=? m) && negb (ext4_sb_feature_ro_com sb EXT4_FRO_COM_HUGE_FILE)) with false.
  2: { symmetry. apply andb_false_iff. destruct Hm as [|[-> _]]; [left; lia|by right]. }
  destruct (count_split m ltac:(lia)) as (Hlo & Hhi & E).
  destruct (store_blocks_fields p (u32 m) (u16 (Z.shiftr m 32)) false b Hp Hb Hlo Hhi) as (F & _).
  rewrite (get_blocks_count_fields sb _ _ _ _ _ F) by done. rewrite Z.mod_small in E by lia.
  case_match eqn:Eh; [lia|]. destruct Hm as [|[? _]]; [by apply u32_id|congruence].
Qed.

Section Settled.
Context (sb : list Z) (ir : inode_ref) (g sign k bsz : Z) (gf : list Z -> list Z) (c : Z -> list Z).
Context (DG : desc_geometry sb bsz) (Hg : 0 <= g).
Context (Hk : 0 <= k) (Hk' : k * (ext4_sb_get_block_size sb / 512) < 2 ^ 32).
Context (Hlen : forall a, blen (c a) = bsz) (Hgf : keeps gf).
Context (Hio : 0 <= ir_off ir) (Hio' : ir_off ir + 128 <= bsz).
Local Abbreviation D := (desc_blk sb g).
Local Abbreviation off := (desc_off sb g).
Local Abbreviation B := (bmp_blk sb g (c D)).
Local Abbreviation I := (ir_block ir).
Context (HBD : B <> D) (HID : I <> D) (HIB : I <> B).

(** The contents before the accounts. *)
Let d1 := ext4_balloc_set_bitmap_csum sb off (gf (c B)) (c D).
Let c1 := fupd D d1 (fupd B (gf (c B)) c).
Let sb' := sb_moved sign k sb.
Let d2 := group_moved sb' off sign k d1.
Let d3 := wr bg_checksum off (ext4_fs_bg_checksum sb' g off d2) d2.

Lemma settle_values :
  settle_group sb ir g sign k c1 D = d3 /\
  settle_group sb ir g sign k c1 I = inode_moved sb' (ir_off ir) sign k (c I) /\
  settle_group sb ir g sign k c1 B = gf (c B) /\
  forall x, x <> B -> x <> D -> x <> I -> settle_group sb ir g sign k c1 x = c x.
Proof.
  unfold settle_group, c1. rewrite !fupd_eq. split_and!.
  - done.
  - by rewrite fupd_ne, fupd_eq, !fupd_ne by done.
  - rewrite !fupd_ne by done. by rewrite fupd_eq.
  - intros x H1 H2 H3. by rewrite !fupd_ne.
Qed.

Lemma blen_d1 : blen d1 = bsz.
Proof.
  unfold d1, ext4_balloc_set_bitmap_csum. rewrite (proj1 (keeps_csum_halves _ _ _ _ _ _)). apply Hlen.
Qed.
Lemma blen_d2 : blen d2 = bsz.
Proof. unfold d2. rewrite (proj1 (keeps_group_moved _ _ _ _ _)). apply blen_d1. Qed.

(** The descriptor's other counts and addresses, its flags, are the old ones. *)
Lemma d3_abs :
  let d := bg_abs sb off (c D) in
  bg_abs sb off d3 =
  mk_bgdesc (d_block_bitmap d) (d_inode_bitmap d) (d_inode_table d)
    (u32 (d_free_blocks d + sign * k) mod 2 ^ bg_cnt_width sb)
    (d_free_inodes d) (d_used_dirs d) (d_itable_unused d) (d_flags d).
Proof.
  destruct (desc_off_bound sb bsz g DG Hg) as [Ho1 Ho2].
  pose proof (bg_size_desc sb bsz DG) as Hsz. cbv zeta.
  rewrite <- (bg_abs_set_csum sb off (gf (c B)) (c D)) by done. fold d1.
  set (cs := ext4_fs_bg_checksum sb' g off d2).
  set (v := u32 (ext4_bg_get_free_blocks_count off d1 sb + sign * k)).
  assert (E2 : d2 = run_bg_op sb off (BgFreeBlocks v) d1).
  { unfold d2, sb', group_moved, v. cbn [run_bg_op]. unfold_bg. rewrite sb_moved_bg16.
    unfold bg_set16. by rewrite sb_moved_wide. }
  assert (E3 : bg_abs sb off d3 = bg_abs sb off d2).
  { pose proof (rd_range bg_checksum off d3 ltac:(done)) as Hr.
    unfold d3, bg_abs. unfold_bg.
    assert (H16 : forall lo hi, halves_disj bg_checksum bg_checksum lo hi = true ->
      bg_get16 lo hi off (wr bg_checksum off cs d2) sb = bg_get16 lo hi off d2 sb /\
      bg_get32 lo hi off (wr bg_checksum off cs d2) sb = bg_get32 lo hi off d2 sb).
    { intros lo hi Hd. by apply (bg_get_wr_ne sb off d2). }
    fold cs. rewrite !(fun lo hi H => proj1 (H16 lo hi H)), !(fun lo hi H => proj2 (H16 lo hi H)) by reflexivity.
    by rewrite rd_wr_ne. }
  rewrite E3, E2, (bg_op_abs sb off d1); [reflexivity|done| |].
  - rewrite blen_d1. lia.
  - cbn [bg_op_ok]. pose proof (u32_range (ext4_bg_get_free_blocks_count off d1 sb + sign * k)).
    unfold v. lia.
Qed.

Lemma d3_out j :
  0 <= j -> j < off \/ off + bg_size sb <= j -> byte_at d3 j = byte_at (c D) j.
Proof.
  intros Hj Ho. destruct (desc_off_bound sb bsz g DG Hg) as [Ho1 Ho2].
  pose proof (bg_size_desc sb bsz DG) as Hsz.
  assert (H32 : 32 <= bg_size sb) by (unfold bg_size; case_match; lia).
  assert (Hw : bg_size sb' = bg_size sb) by (unfold bg_size, sb'; by rewrite sb_moved_wide).
  unfold d3. rewrite (byte_at_wr_out _ _ _ _ _ 32) by (done || lia).
  unfold d2, group_moved, ext4_bg_set_free_blocks_count. rewrite bg_set16_out by (rewrite ?Hw, ?blen_d1; first [done | lia]).
  unfold d1, ext4_balloc_set_bitmap_csum. destruct DG as [_ Hds].
  apply (set_halves_out bg_block_bitmap_csum_lo bg_block_bitmap_csum_hi sb off) with (n := bg_size sb);
    first [done | lia].
Qed.

Lemma d3_bmp_csum : ext4_balloc_verify_bitmap_csum sb off (gf (c B)) d3 = true.
Proof.
  destruct (desc_off_bound sb bsz g DG Hg) as [Ho1 Ho2].
  unfold ext4_balloc_verify_bitmap_csum.
  rewrite (verify_halves_ext bg_block_bitmap_csum_lo bg_block_bitmap_csum_hi sb off _ d1).
  - apply verify_set_halves; try done; [apply balloc_csum_range|]. rewrite Hlen. lia.
  - unfold d3. rewrite rd_wr_ne by done. by apply rd_bg_set16_ne.
  - unfold d3. rewrite rd_wr_ne by done. by apply rd_bg_set16_ne.
Qed.

Lemma inode_moved_count m :
  m = ext4_inode_get_blocks_count sb (ir_off ir) (c I) - sign * (k * (ext4_sb_get_block_size sb / 512)) ->
  0 <= m < 2 ^ 32 \/ (ext4_sb_feature_ro_com sb EXT4_FRO_COM_HUGE_FILE = true /\ 0 <= m < 2 ^ 48) ->
  ext4_inode_get_blocks_count sb (ir_off ir) (inode_moved sb' (ir_off ir) sign k (c I)) = m.
Proof.
  intros E Hm. unfold inode_moved, sb'.
  assert (Hgc : forall b, ext4_inode_get_blocks_count (sb_moved sign k sb) (ir_off ir) b =
                     ext4_inode_get_blocks_count sb (ir_off ir) b).
  { intros b. unfold ext4_inode_get_blocks_count. by rewrite sb_moved_ro, sb_moved_bsize. }
  assert (Hsc : forall v b, ext4_inode_set_blocks_count (sb_moved sign k sb) (ir_off ir) v b =
                       ext4_inode_set_blocks_count sb (ir_off ir) v b).
  { intros v b. unfold ext4_inode_set_blocks_count. by rewrite sb_moved_ro, sb_moved_bsize. }
  rewrite Hgc, Hsc, sb_moved_bsize. change EXT4_INODE_BLOCK_SIZE with 512.
  assert (Hb0 : 0 <= ext4_sb_get_block_size sb / 512).
  { destruct (block_size_cases sb) as (q & ? & ->). apply Z.div_pos; [|lia].
    pose proof (Z.pow_pos_nonneg 2 q). lia. }
  rewrite (u32_id (k * _)) by nia. rewrite <- E, (u64_id m) by lia.
  apply blocks_count_stored; try done. rewrite Hlen. lia.
Qed.

(** Whatever became of the blocks of [lost]. *)
Lemma settled_moved (lost : Z -> Prop) c' :
  ~ lost B -> ~ lost D -> ~ lost I ->
  (forall x, ~ lost x -> c' x = settle_group sb ir g sign k c1 x) ->
  moved sb ir g sign k gf lost c c'.
Proof.
  intros LB LD LI E. destruct settle_values as (V1 & V2 & V3 & V4).
  destruct (desc_off_bound sb bsz g DG Hg) as [Ho1 Ho2].
  rewrite <- (E B LB) in V3. rewrite <- (E D LD) in V1. rewrite <- (E I LI) in V2.
  split; rewrite ?V1, ?V2, ?V3; try done.
  - apply d3_abs.
  - apply d3_out.
  - apply d3_bmp_csum.
  - apply bg_verify_stored; [done|]. rewrite blen_d2. destruct DG. lia.
  - intros m. apply inode_moved_count.
  - intros x H1 H2 H3 H4. rewrite E by done. by apply V4.
Qed.
End Settled.

(** ** The map of used blocks *)

(** Block [b] of the volume is marked in the bitmap of its group. *)
Definition blk_used (sb : list Z) (c : Z -> list Z) (b : Z) : bool :=
  let g := ext4_balloc_get_bgid_of_block sb b in
  bit_at (c (bmp_blk sb g (c (desc_blk sb g)))) (ext4_fs_addr_to_idx_bg sb b).

(** The group tables of the volume do not overlap.  Nothing is said of their bitmaps. *)
Record layout (sb : list Z) (ir : inode_ref) (p : gset Z) (c : Z -> list Z) : Prop := {
  ly_group g : 0 <= g < ext4_block_group_cnt sb -> group_apart sb ir p c g;
  ly_bmp g g' : 0 <= g < ext4_block_group_cnt sb -> 0 <= g' < ext4_block_group_cnt sb -> g <> g' ->
    bmp_blk sb g (c (desc_blk sb g)) <> bmp_blk sb g' (c (desc_blk sb g'));
  ly_bmp_desc g g' : 0 <= g < ext4_block_group_cnt sb -> 0 <= g' < ext4_block_group_cnt sb ->
    bmp_blk sb g (c (desc_blk sb g)) <> desc_blk sb g';
  ly_desc g g' : 0 <= g < ext4_block_group_cnt sb -> 0 <= g' < ext4_block_group_cnt sb -> g <> g' ->
    desc_blk sb g = desc_blk sb g' -> apart (desc_off sb g) (bg_size sb) (desc_off sb g') (bg_size sb);
}.

(** Nothing of [lost] belongs to the group tables. *)
Definition no_tables (sb : list Z) (ir : inode_ref) (c : Z -> list Z) (lost : Z -> Prop) : Prop :=
  ~ lost (ir_block ir) /\
  forall g, 0 <= g < ext4_block_group_cnt sb ->
    ~ lost (desc_blk sb g) /\ ~ lost (bmp_blk sb g (c (desc_blk sb g))).

Section Map.
Context (sb : list Z) (ir : inode_ref) (p : gset Z) (g sign k : Z) (gf : list Z -> list Z).
Context (lost : Z -> Prop) (c c' : Z -> list Z).
Context (L : layout sb ir p c) (Hg : 0 <= g < ext4_block_group_cnt sb).
Context (HL : no_tables sb ir c lost) (Mv : moved sb ir g sign k gf lost c c').
Local Abbreviation D := (desc_blk sb).
Local Abbreviation B := (fun x => bmp_blk sb x (c (desc_blk sb x))).

(** The descriptors of the other groups are what they were. *)
Lemma moved_desc_other g' :
  0 <= g' < ext4_block_group_cnt sb -> g' <> g ->
  bg_abs sb (desc_off sb g') (c' (D g')) = bg_abs sb (desc_off sb g') (c (D g')).
Proof.
  intros Hg' Hne. apply bg_abs_ext. intros j Hj.
  assert (H0 : 0 <= desc_off sb g') by apply u32_range.
  destruct (Z.eq_dec (D g') (D g)) as [E|E].
  - rewrite E. apply (mv_desc_out _ _ _ _ _ _ _ _ _ Mv); [lia|].
    pose proof (ly_desc _ _ _ _ L g g' Hg Hg' ltac:(lia) (eq_sym E)) as Ha. unfold apart in Ha. lia.
  - f_equal. apply (mv_else _ _ _ _ _ _ _ _ _ Mv).
    + intros Hx. apply (ly_bmp_desc _ _ _ _ L g g' Hg Hg'). by rewrite Hx.
    + done.
    + intros Hx. by apply (go_inode _ _ _ _ _ (ly_group _ _ _ _ L g' Hg')).
    + by apply HL.
Qed.

(** No group's bitmap moves, and none becomes uninitialised. *)
Lemma moved_tables g' :
  0 <= g' < ext4_block_group_cnt sb ->
  bmp_blk sb g' (c' (D g')) = bmp_blk sb g' (c (D g')) /\
  group_ready sb g' (c' (D g')) = group_ready sb g' (c (D g')).
Proof.
  intros Hg'.
  assert (E : d_block_bitmap (bg_abs sb (desc_off sb g') (c' (D g'))) =
              d_block_bitmap (bg_abs sb (desc_off sb g') (c (D g'))) /\
              d_flags (bg_abs sb (desc_off sb g') (c' (D g'))) =
              d_flags (bg_abs sb (desc_off sb g') (c (D g')))).
  { destruct (Z.eq_dec g' g) as [->|Hne]; [|by rewrite moved_desc_other].
    by rewrite (mv_desc _ _ _ _ _ _ _ _ _ Mv). }
  destruct E as [E1 E2]. split; [exact E1|].
  unfold group_ready, ext4_bg_has_flag. cbn [d_flags bg_abs] in E2. by rewrite E2.
Qed.

(** The map of a volume changes in group [g] only. *)
Lemma moved_used b :
  0 <= ext4_balloc_get_bgid_of_block sb b < ext4_block_group_cnt sb ->
  blk_used sb c' b =
  if ext4_balloc_get_bgid_of_block sb b =? g
  then bit_at (gf (c (B g))) (ext4_fs_addr_to_idx_bg sb b) else blk_used sb c b.
Proof.
  intros Hb. unfold blk_used. set (g' := ext4_balloc_get_bgid_of_block sb b) in *.
  destruct (moved_tables g' Hb) as [-> _]. destruct (Z.eqb_spec g' g) as [->|Hne].
  - by rewrite (mv_bitmap _ _ _ _ _ _ _ _ _ Mv).
  - f_equal. apply (mv_else _ _ _ _ _ _ _ _ _ Mv).
    + by apply (ly_bmp _ _ _ _ L).
    + by apply (ly_bmp_desc _ _ _ _ L).
    + intros Hx. by apply (go_inode' _ _ _ _ _ (ly_group _ _ _ _ L g' Hb)).
    + by apply HL.
Qed.
End Map.

(** ** Addresses of blocks *)

(** The blocks the groups cover.  With 1 KiB blocks the first is block 1, and the
    group arithmetic of the driver reaches one block past the volume. *)
Definition in_groups (sb : list Z) (b : Z) : Prop :=
  sb_get sb_first_data_block sb <= b < ext4_sb_get_blocks_cnt sb + sb_get sb_first_data_block sb.

Section Addr.
Context (sb : list Z) (G : geometry sb).
Local Abbreviation bpg := (sb_get sb_blocks_per_group sb).
Local Abbreviation fdb := (sb_get sb_first_data_block sb).

Lemma block_position b :
  in_groups sb b ->
  ext4_balloc_get_bgid_of_block sb b = (b - fdb) / bpg /\
  ext4_fs_addr_to_idx_bg sb b = (b - fdb) mod bpg /\
  0 <= (b - fdb) / bpg < ext4_block_group_cnt sb.
Proof.
  intros Hb. unfold in_groups in Hb. unfold ext4_balloc_get_bgid_of_block, ext4_fs_addr_to_idx_bg.
  pose proof (gm_bpg sb G) as Hbpg. pose proof (gm_fdb sb G) as Hf. pose proof (gm_cnt sb G) as Hc.
  sb_range sb_first_data_block sb.
  replace (if negb (fdb =? 0) && negb (b =? 0) then b - 1 else b) with (b - fdb).
  2: { destruct (Z.eqb_spec fdb 0), (Z.eqb_spec b 0); cbn [negb andb]; lia. }
  pose proof (group_cnt_bounds sb G) as [Hg1 Hg2].
  assert (Hq : 0 <= (b - fdb) / bpg < ext4_block_group_cnt sb).
  { split; [apply Z.div_pos; lia|]. apply Z.div_lt_upper_bound; lia. }
  rewrite u32_id by lia. done.
Qed.

Lemma address_of_index g i :
  0 <= g < ext4_block_group_cnt sb -> 0 <= i < ext4_blocks_in_group_cnt sb g ->
  let a := ext4_fs_bg_idx_to_addr sb i g in
  in_groups sb a /\ ext4_balloc_get_bgid_of_block sb a = g /\ ext4_fs_addr_to_idx_bg sb a = i.
Proof.
  intros Hg Hi. cbv zeta. pose proof (gm_bpg sb G) as Hbpg. pose proof (gm_fdb sb G) as Hf.
  pose proof (gm_cnt sb G) as Hc. sb_range sb_first_data_block sb.
  pose proof (group_cnt_bounds sb G) as [Hg1 Hg2].
  destruct (blocks_in_group_bounds sb G g Hg) as [Ei Hi2]. rewrite Ei in Hi.
  assert (Hx : 0 <= g * bpg + i < ext4_sb_get_blocks_cnt sb) by nia.
  assert (Ea : ext4_fs_bg_idx_to_addr sb i g = g * bpg + i + fdb).
  { unfold ext4_fs_bg_idx_to_addr. destruct (Z.eqb_spec fdb 0) as [E|E]; cbn [negb].
    - rewrite u32_id by lia. lia.
    - rewrite (u32_id (i + 1)) by lia. rewrite u32_id by lia. lia. }
  assert (Hin : in_groups sb (g * bpg + i + fdb)) by (unfold in_groups; lia).
  rewrite Ea. destruct (block_position _ Hin) as (-> & -> & _). split; [done|].
  replace (g * bpg + i + fdb - fdb) with (i + g * bpg) by lia.
  rewrite Z.div_add, Z.mod_add, Z.div_small, Z.mod_small by lia. lia.
Qed.

Lemma block_position_inj a b :
  in_groups sb a -> in_groups sb b ->
  ext4_balloc_get_bgid_of_block sb a = ext4_balloc_get_bgid_of_block sb b ->
  ext4_fs_addr_to_idx_bg sb a = ext4_fs_addr_to_idx_bg sb b -> a = b.
Proof.
  intros Ha Hb. destruct (block_position a Ha) as (-> & -> & _), (block_position b Hb) as (-> & -> & _).
  intros E1 E2. pose proof (gm_bpg sb G).
  pose proof (Z.div_mod (a - fdb) bpg ltac:(lia)). pose proof (Z.div_mod (b - fdb) bpg ltac:(lia)).
  rewrite E1, E2 in *. lia.
Qed.

Lemma index_bound b : in_groups sb b -> 0 <= ext4_fs_addr_to_idx_bg sb b < bpg.
Proof.
  intros Hb. destruct (block_position b Hb) as (_ & -> & _). apply Z.mod_pos_bound, G.
Qed.
End Addr.

(** ** The effect on the map *)

(** A mounted volume with an inode held: [c] its contents, [h] the handles.  It has
    less than 2^32 blocks ([geometry]: addresses are computed in 32 bits), its first
    data block is 0 or 1, descriptors have 32 or 64 bytes ([desc_geometry]), a bitmap has
    a bit for every block of its group, the tables are apart ([layout]), and the
    inode's 128 bytes lie in its block.  Whether the groups' bitmaps are initialised is
    a hypothesis of each theorem. *)
Record volume (bsz : Z) (sb : list Z) (ir : inode_ref) (p : gset Z) (c : Z -> list Z) (h : Z -> Z)
    : Prop := {
  vo_geometry : geometry sb;
  vo_desc : desc_geometry sb bsz;
  vo_bits : sb_get sb_blocks_per_group sb <= 8 * bsz;
  vo_layout : layout sb ir p c;
  vo_inode : 0 < h (ir_block ir);
  vo_inode_off : 0 <= ir_off ir /\ ir_off ir + 128 <= bsz;
}.

Definition nothing : Z -> Prop := fun _ => False.

Section Effect.
Context (bsz : Z) (sb : list Z) (ir : inode_ref) (p : gset Z) (c : Z -> list Z) (h : Z -> Z).
Context (V : volume bsz sb ir p c h) (Hlen : forall a, blen (c a) = bsz).

Lemma sectors_bound : 1 * (ext4_sb_get_block_size sb / 512) < 2 ^ 32.
Proof.
  destruct (block_size_cases sb) as (k & Hk & ->).
  pose proof (Z.pow_le_mono_r 2 k 6 ltac:(lia) ltac:(lia)).
  assert (1024 * 2 ^ k / 512 < 2 ^ 32) by (apply Z.div_lt_upper_bound; lia). lia.
Qed.

(** Bits of group [g] went through [gf], the counts by [sign * k], and the
    contents of [lost] through anything. *)
Lemma group_moved_map g sign k gf lost c' :
  0 <= g < ext4_block_group_cnt sb -> 0 <= k ->
  k * (ext4_sb_get_block_size sb / 512) < 2 ^ 32 -> keeps gf -> no_tables sb ir c lost ->
  (forall x, ~ lost x -> c' x = settle_group sb ir g sign k
     (fupd (desc_blk sb g)
        (ext4_balloc_set_bitmap_csum sb (desc_off sb g) (gf (c (bmp_blk sb g (c (desc_blk sb g)))))
           (c (desc_blk sb g)))
        (fupd (bmp_blk sb g (c (desc_blk sb g))) (gf (c (bmp_blk sb g (c (desc_blk sb g))))) c)) x) ->
  moved sb ir g sign k gf lost c c' /\
  forall b, in_groups sb b -> blk_used sb c' b =
    if ext4_balloc_get_bgid_of_block sb b =? g
    then bit_at (gf (c (bmp_blk sb g (c (desc_blk sb g))))) (ext4_fs_addr_to_idx_bg sb b)
    else blk_used sb c b.
Proof.
  intros Hg Hk Hk' Hgf [HL1 HL2] E. destruct V as [G DG Hb L HI [Hi1 Hi2]].
  destruct (ly_group _ _ _ _ L g Hg) as [G1 G2 G3 G4 G5]. destruct (HL2 g Hg) as [HD HB].
  assert (Mv : moved sb ir g sign k gf lost c c').
  { apply (settled_moved sb ir g sign k bsz gf c); try done. lia. }
  split; [done|]. intros b Hbv. destruct (block_position sb G b Hbv) as (Eg & _ & Hgb).
  apply (moved_used sb ir p g sign k gf lost c c' L Hg); try done. by rewrite Eg.
Qed.

Lemma no_tables_nothing : no_tables sb ir c nothing.
Proof. split; [intros []|]. intros g _. by split; intros []. Qed.

(** Block [a] was taken. *)
Lemma taken_map a c' :
  in_groups sb a ->
  let g := ext4_balloc_get_bgid_of_block sb a in
  let i := ext4_fs_addr_to_idx_bg sb a in
  (forall x, c' x = settle_group sb ir g (-1) 1 (bit_taken sb g i c) x) ->
  moved sb ir g (-1) 1 (fun bm => ext4_bmap_bit_set bm i) nothing c c' /\
  forall b, in_groups sb b -> blk_used sb c' b = (b =? a) || blk_used sb c b.
Proof.
  intros Ha. cbv zeta. intros E. pose proof V as [G DG Hb L HI _].
  destruct (block_position sb G a Ha) as (Eg & _ & Hg). rewrite <- Eg in Hg.
  destruct (group_moved_map _ (-1) 1 (fun bm => ext4_bmap_bit_set bm (ext4_fs_addr_to_idx_bg sb a))
    nothing c' Hg ltac:(lia) sectors_bound (keeps_bit_set _) no_tables_nothing) as [Mv Hu].
  { intros x _. apply E. }
  split; [done|]. intros b Hbv. rewrite Hu by done.
  pose proof (index_bound sb G a Ha). pose proof (index_bound sb G b Hbv).
  destruct (Z.eqb_spec (ext4_balloc_get_bgid_of_block sb b) (ext4_balloc_get_bgid_of_block sb a)) as [Egg|Egg].
  - rewrite bit_at_bit_set by (rewrite ?Hlen; lia). unfold blk_used. rewrite Egg. f_equal.
    destruct (Z.eqb_spec b a) as [->|Hne]; [lia|].
    destruct (Z.eqb_spec (ext4_fs_addr_to_idx_bg sb a) (ext4_fs_addr_to_idx_bg sb b)) as [Ei|]; [|done].
    destruct Hne. by apply (block_position_inj sb G).
  - destruct (Z.eqb_spec b a) as [->|]; done.
Qed.

(** Block [a] was given back. *)
Lemma released_map a c' :
  in_groups sb a -> no_tables sb ir c (fun x => x = a) ->
  let g := ext4_balloc_get_bgid_of_block sb a in
  let i := ext4_fs_addr_to_idx_bg sb a in
  (forall x, x <> a -> c' x =
     settle_group sb ir g 1 1 (bitmap_through sb g (fun bm => ext4_bmap_bit_clr bm i) c) x) ->
  moved sb ir g 1 1 (fun bm => ext4_bmap_bit_clr bm i) (fun x => x = a) c c' /\
  forall b, in_groups sb b -> blk_used sb c' b = negb (b =? a) && blk_used sb c b.
Proof.
  intros Ha Ht. cbv zeta. intros E. pose proof V as [G DG Hb L HI _].
  destruct (block_position sb G a Ha) as (Eg & _ & Hg). rewrite <- Eg in Hg.
  destruct (group_moved_map _ 1 1 (fun bm => ext4_bmap_bit_clr bm (ext4_fs_addr_to_idx_bg sb a))
    (fun x => x = a) c' Hg ltac:(lia) sectors_bound (keeps_bit_clr _) Ht) as [Mv Hu].
  { intros x Hx. by apply E. }
  split; [done|]. intros b Hbv. rewrite Hu by done.
  pose proof (index_bound sb G a Ha). pose proof (index_bound sb G b Hbv).
  destruct (Z.eqb_spec (ext4_balloc_get_bgid_of_block sb b) (ext4_balloc_get_bgid_of_block sb a)) as [Egg|Egg].
  - rewrite bit_at_bit_clr by (rewrite ?Hlen; lia). unfold blk_used. rewrite Egg. f_equal. f_equal.
    destruct (Z.eqb_spec b a) as [->|Hne]; [lia|].
    destruct (Z.eqb_spec (ext4_fs_addr_to_idx_bg sb a) (ext4_fs_addr_to_idx_bg sb b)) as [Ei|]; [|done].
    destruct Hne. by apply (block_position_inj sb G).
  - destruct (Z.eqb_spec b a) as [->|]; done.
Qed.
End Effect.

(** ** Properties *)

(** C14: allocating a block.  Conditions: a volume of less than 2^32 blocks whose
    group tables and inode lie apart, with no store to them pending ([volume]), and in
    which the bitmaps of EVERY group are initialised ([Hready]: fetching a group with
    an UNINIT flag writes its bitmaps, which is not claimed here).  For every goal,
    [ext4_balloc_alloc_block] either fails and leaves store and superblock as they
    were, all handles given back (ENOSPC, unless the store says it, means that no
    group whose count and checksum admit it has a free bit), or returns a block that
    the bitmaps marked free: the map of used blocks has that block more and is
    otherwise the same, the free counts of superblock and group are one less, the
    inode has the block's sectors more, the checksums of bitmap and descriptor verify,
    every block but the bitmap's, the descriptor's and the inode's has its old
    contents, and all handles were given back. *)
Theorem alloc_block_takes_one_free_block
    {St : Type} {BS : BlockStore St} {bsz : Z} {BL : BlockStoreLaws St bsz}
    (n : Z) (f : fsys St) (sb : list Z) (ir : inode_ref) (l : Z)
    (c : Z -> list Z) (h : Z -> Z) (p : gset Z) (goal : Z)
    (Hf : fabs (bsz := bsz) n f sb ir l c h p) (V : volume bsz sb ir p c h)
    (Hready : forall g, 0 <= g < ext4_block_group_cnt sb -> group_ready sb g (c (desc_blk sb g)) = true)
    (Hn : n + 2 * (ext4_block_group_cnt sb + 1) < 2 ^ 32) :
  let n' := n + 2 * (ext4_block_group_cnt sb + 1) in
  let '(x, f') := ext4_balloc_alloc_block goal f in
  match x with
  | Ok a =>
      in_groups sb a /\ blk_used sb c a = false /\
      exists c',
        fabs (bsz := bsz) n' f' (sb_moved (-1) 1 sb) (iref_dirty ir) l c' h ({[ir_block ir]} ∪ p) /\
        (forall b, in_groups sb b -> blk_used sb c' b = (b =? a) || blk_used sb c b) /\
        moved sb ir (ext4_balloc_get_bgid_of_block sb a) (-1) 1
          (fun bm => ext4_bmap_bit_set bm (ext4_fs_addr_to_idx_bg sb a)) nothing c c'
  | Err rc =>
      rc <> EOK /\ fabs (bsz := bsz) n' f' sb ir l c h p /\
      (rc = ENOSPC -> (exists a s, fst (bs_get a s) = Err rc) \/
                      forall g, 0 <= g < ext4_block_group_cnt sb -> full sb c g)
  end.
Proof.
  cbv zeta. pose proof V as [G DG Hb L HI _].
  pose proof (alloc_block_wp n f sb ir l c h p goal _ Hf (Z.le_refl _) Hn G
    (fun g Hg => Build_group_ok _ _ _ _ _ (ly_group _ _ _ _ L g Hg) (Hready g Hg)) HI) as H.
  unfold wp in H. destruct (ext4_balloc_alloc_block goal f) as [[a|rc] f'].
  2: { destruct H as [[[Hrc Hs]|[-> Hfull]] A]; split_and!; auto. }
  destruct H as (g & i & Hg & (Hi & Hclr & _) & -> & A).
  destruct (address_of_index sb G g i Hg Hi) as (Ha & Eg & Ei).
  set (a := ext4_fs_bg_idx_to_addr sb i g) in *. split; [done|]. split.
  { rewrite is_bit_clr_bit_at in Hclr by lia. apply negb_true_iff in Hclr.
    unfold blk_used. by rewrite Eg, Ei. }
  eexists. split; [exact A|].
  destruct (taken_map bsz sb ir p c h V (fabs_len _ _ _ _ _ _ _ _ Hf) a
    (settle_group sb ir g (-1) 1 (bit_taken sb g i c)) Ha) as [Mv Hu].
  { intros x. by rewrite Eg, Ei. }
  by split.
Qed.

Lemma vol_desc g : 0 <= g < ext4_block_group_cnt vol_sb ->
  desc_blk vol_sb g = 2 /\ bmp_blk vol_sb g (vol_contents 2) = g + 3 /\
  desc_off vol_sb g = 32 * g /\ group_ready vol_sb g (vol_contents 2) = true.
Proof. intros [-> | ->]%vol_groups; vm_compute; done. Qed.

Lemma vol_ready g : 0 <= g < ext4_block_group_cnt vol_sb ->
  group_ready vol_sb g (vol_contents (desc_blk vol_sb g)) = true.
Proof. intros Hg. destruct (vol_desc g Hg) as (-> & _ & _ & E). exact E. Qed.

Lemma vol_volume : volume 1024 vol_sb vol_iref ∅ vol_contents vol_held.
Proof.
  assert (Hdesc : ext4_sb_get_desc_size vol_sb = 32) by (vm_compute; reflexivity).
  split; [| | | |done|done].
  - split; [vm_compute; reflexivity|vm_compute; discriminate|split; vm_compute; reflexivity].
  - split; [vm_compute; reflexivity|by left].
  - vm_compute. discriminate.
  - split.
    + intros g Hg. destruct (vol_desc g Hg) as (E1 & E2 & E3 & E4).
      split; rewrite ?E1, ?E2; [apply not_elem_of_empty|apply not_elem_of_empty| | |];
        cbn [ir_block vol_iref]; destruct (vol_groups g Hg) as [-> | ->]; lia.
    + intros g g' Hg Hg' Hne. destruct (vol_desc g Hg) as (-> & -> & _), (vol_desc g' Hg') as (-> & -> & _). lia.
    + intros g g' Hg Hg'. destruct (vol_desc g Hg) as (-> & -> & _), (vol_desc g' Hg') as (-> & _).
      destruct (vol_groups g Hg) as [-> | ->]; lia.
    + intros g g' Hg Hg' Hne _. destruct (vol_desc g Hg) as (_ & _ & -> & _), (vol_desc g' Hg') as (_ & _ & -> & _).
      replace (bg_size vol_sb) with 32 by (vm_compute; reflexivity). unfold apart. lia.
Qed.

Lemma alloc_block_takes_one_free_block_witness :
  fst (@ext4_balloc_alloc_block _ vol_store 1 vol_fs) = Ok 9 /\
  exists c', forall b, in_groups vol_sb b -> blk_used vol_sb c' b = (b =? 9) || blk_used vol_sb vol_contents b.
Proof.
  assert (E : fst (@ext4_balloc_alloc_block _ vol_store 1 vol_fs) = Ok 9) by (vm_compute; reflexivity).
  split; [exact E|].
  pose proof (alloc_block_takes_one_free_block (BL := vol_laws) 1 vol_fs vol_sb vol_iref 0 vol_contents
    vol_held ∅ 1 vol_fabs vol_volume vol_ready ltac:(vm_compute; reflexivity)) as H. cbv zeta in H.
  destruct (@ext4_balloc_alloc_block _ vol_store 1 vol_fs) as [x f']. cbn [fst] in E. subst x.
  destruct H as (_ & _ & c' & _ & Hu & _). by exists c'.
Defined.

(** C21: claiming a given block.  Conditions: a volume of less than 2^32 blocks whose
    group tables and inode lie apart, with no store to them pending ([volume]), and,
    for a block of the volume, that the bitmaps of the block's own group are
    initialised ([Hready]: fetching a group with an UNINIT flag writes its bitmaps,
    whatever the answer).  [ext4_balloc_try_alloc_block] answers false for a
    block outside the volume, touching nothing, and for a block that is used;
    it answers true only for a block the bitmaps marked free, and then the map of
    used blocks has that block more and nothing else changed in it, superblock,
    group and inode account it and all checksums verify.  On an error, and
    whenever the answer is false, contents, superblock and handles are what they
    were. *)
Theorem try_alloc_block_claims
    {St : Type} {BS : BlockStore St} {bsz : Z} {BL : BlockStoreLaws St bsz}
    (n : Z) (f : fsys St) (sb : list Z) (ir : inode_ref) (l : Z)
    (c : Z -> list Z) (h : Z -> Z) (p : gset Z) (a : Z)
    (Hf : fabs (bsz := bsz) n f sb ir l c h p) (V : volume bsz sb ir p c h)
    (Hready : sb_get sb_first_data_block sb <= a < ext4_sb_get_blocks_cnt sb ->
       let g := ext4_balloc_get_bgid_of_block sb a in group_ready sb g (c (desc_blk sb g)) = true)
    (Hn : n + 2 < 2 ^ 32) :
  let inside := (sb_get sb_first_data_block sb <=? a) && (a <? ext4_sb_get_blocks_cnt sb) in
  let '(x, f') := ext4_balloc_try_alloc_block a f in
  (inside = false -> x = Ok false /\ f' = f) /\
  match x with
  | Ok true =>
      inside = true /\ blk_used sb c a = false /\
      exists c',
        fabs (bsz := bsz) (n + 2) f' (sb_moved (-1) 1 sb) (iref_dirty ir) l c' h ({[ir_block ir]} ∪ p) /\
        (forall b, in_groups sb b -> blk_used sb c' b = (b =? a) || blk_used sb c b) /\
        moved sb ir (ext4_balloc_get_bgid_of_block sb a) (-1) 1
          (fun bm => ext4_bmap_bit_set bm (ext4_fs_addr_to_idx_bg sb a)) nothing c c'
  | Ok false =>
      (inside = true -> blk_used sb c a = true) /\ fabs (bsz := bsz) (n + 2) f' sb ir l c h p
  | Err rc => rc <> EOK /\ fabs (bsz := bsz) (n + 2) f' sb ir l c h p
  end.
Proof.
  cbv zeta. pose proof V as [G _ _ L HI _].
  destruct ((sb_get sb_first_data_block sb <=? a) && (a <? ext4_sb_get_blocks_cnt sb)) eqn:Ein.
  2: { unfold ext4_balloc_try_alloc_block, mbnd, mget. rewrite (fa_sb _ _ _ _ _ _ _ _ Hf).
    replace (_ || _) with true by lia. split_and!; try done.
    eapply (fabs_weaken _ _ _ _ _ _ _ _ Hf); [lia|done..]. }
  assert (Ha : in_groups sb a) by (unfold in_groups; sb_range sb_first_data_block sb; lia).
  destruct (block_position sb G a Ha) as (Eg & _ & Hg). rewrite <- Eg in Hg.
  pose proof (try_alloc_wp n f sb ir l c h p a Hf Hn
    (Build_group_ok _ _ _ _ _ (ly_group _ _ _ _ L _ Hg) (Hready ltac:(lia))) HI ltac:(lia)) as H.
  unfold wp in H. destruct (ext4_balloc_try_alloc_block a f) as [[[]|rc] f']; [| |by destruct H as [[Hrc _] A]].
  - destruct H as (Hclr & A). pose proof (index_bound sb G a Ha).
    rewrite is_bit_clr_bit_at in Hclr by lia. apply negb_true_iff in Hclr. split_and!; [done|done|done|].
    eexists. split; [exact A|].
    by destruct (taken_map bsz sb ir p c h V (fabs_len _ _ _ _ _ _ _ _ Hf) a _ Ha (fun x => eq_refl)).
  - destruct H as (Hclr & A). pose proof (index_bound sb G a Ha).
    rewrite is_bit_clr_bit_at in Hclr by lia. apply negb_false_iff in Hclr. by split_and!.
Qed.

Lemma try_alloc_block_claims_witness :
  fst (@ext4_balloc_try_alloc_block _ vol_store 8200 vol_fs) = Ok true /\
  blk_used vol_sb vol_contents 8200 = false /\
  exists c', forall b, in_groups vol_sb b ->
    blk_used vol_sb c' b = (b =? 8200) || blk_used vol_sb vol_contents b.
Proof.
  assert (E : fst (@ext4_balloc_try_alloc_block _ vol_store 8200 vol_fs) = Ok true) by (vm_compute; reflexivity).
  split; [exact E|].
  pose proof (try_alloc_block_claims (BL := vol_laws) 1 vol_fs vol_sb vol_iref 0 vol_contents
    vol_held ∅ 8200 vol_fabs vol_volume (fun _ => eq_refl) ltac:(vm_compute; reflexivity)) as H. cbv zeta in H.
  destruct (@ext4_balloc_try_alloc_block _ vol_store 8200 vol_fs) as [x f']. cbn [fst] in E. subst x.
  destruct H as (_ & _ & Hu & c' & _ & H & _). split; [exact Hu|by exists c'].
Defined.

(** C19: freeing a block.  Conditions: a volume of less than 2^32 blocks whose group
    tables and inode lie apart, with no store to them pending ([volume]); no journal
    running; the bitmaps of the block's own group initialised ([Hready]: fetching a
    group with an UNINIT flag writes its bitmaps and its inode table).  For a block of
    the volume that is none of its group tables and that nobody holds,
    [ext4_balloc_free_block] either fails and leaves contents, superblock and
    handles as they were, or clears exactly that block's bit: the map of used
    blocks loses the block and nothing else, the superblock and the group count
    one free block more, the inode has the block's sectors less, the checksums of
    bitmap and descriptor verify, and every other block keeps its contents; the
    contents of the freed block itself may be dropped from the cache. *)
Theorem free_block_frees_it
    {St : Type} {BS : BlockStore St} {bsz : Z} {BL : BlockStoreLaws St bsz}
    (n : Z) (f : fsys St) (sb : list Z) (ir : inode_ref) (l : Z)
    (c : Z -> list Z) (h : Z -> Z) (p : gset Z) (a : Z)
    (Hf : fabs (bsz := bsz) n f sb ir l c h p) (V : volume bsz sb ir p c h) (Hn : n + 3 < 2 ^ 32)
    (Hready : let g := ext4_balloc_get_bgid_of_block sb a in group_ready sb g (c (desc_blk sb g)) = true)
    (Hr : no_revokes (St := St)) (Ha : in_groups sb a) (Hh : h a = 0) (Hp : a ∉ p)
    (Ht : no_tables sb ir c (fun x => x = a)) :
  let '(x, f') := ext4_balloc_free_block a f in
  match x with
  | Ok _ =>
      exists c',
        fabs (bsz := bsz) (n + 3) f' (sb_moved 1 1 sb) (iref_dirty ir) l c' h ({[ir_block ir]} ∪ p) /\
        (forall b, in_groups sb b -> blk_used sb c' b = negb (b =? a) && blk_used sb c b) /\
        moved sb ir (ext4_balloc_get_bgid_of_block sb a) 1 1
          (fun bm => ext4_bmap_bit_clr bm (ext4_fs_addr_to_idx_bg sb a)) (fun x => x = a) c c'
  | Err rc => rc <> EOK /\ fabs (bsz := bsz) (n + 3) f' sb ir l c h p
  end.
Proof.
  pose proof V as [G _ _ L HI _].
  destruct (block_position sb G a Ha) as (Eg & _ & Hg). rewrite <- Eg in Hg.
  assert (Ha' : 0 <= a < 2 ^ 63).
  { unfold in_groups in Ha. pose proof (gm_cnt sb G). pose proof (gm_fdb sb G).
    sb_range sb_first_data_block sb. lia. }
  assert (HaD : a <> desc_blk sb (ext4_balloc_get_bgid_of_block sb a)).
  { intros E. by apply (proj1 (proj2 Ht _ Hg)). }
  pose proof (free_block_wp n f sb ir l c h p a Hr Hf Hn
    (Build_group_ok _ _ _ _ _ (ly_group _ _ _ _ L _ Hg) Hready) HI Ha' Hh Hp HaD) as H.
  unfold wp in H. destruct (ext4_balloc_free_block a f) as [[[]|rc] f']; [|by destruct H as [[Hrc _] A]].
  destruct H as (c' & E & A). exists c'. split; [exact A|].
  by destruct (released_map bsz sb ir p c h V (fabs_len _ _ _ _ _ _ _ _ Hf) a c' Ha Ht E).
Qed.

Lemma free_block_frees_it_witness :
  fst (@ext4_balloc_free_block _ vol_store 1 vol_fs) = Ok tt /\
  exists c', forall b, in_groups vol_sb b ->
    blk_used vol_sb c' b = negb (b =? 1) && blk_used vol_sb vol_contents b.
Proof.
  assert (E : fst (@ext4_balloc_free_block _ vol_store 1 vol_fs) = Ok tt) by (vm_compute; reflexivity).
  split; [exact E|].
  assert (Ht : no_tables vol_sb vol_iref vol_contents (fun x => x = 1)).
  { split; [done|]. intros g Hg. destruct (vol_desc g Hg) as (-> & -> & _).
    destruct (vol_groups g Hg) as [-> | ->]; lia. }
  assert (Ha : in_groups vol_sb 1) by (split; [apply Z.leb_le|apply Z.ltb_lt]; vm_compute; reflexivity).
  pose proof (free_block_frees_it (BL := vol_laws) 1 vol_fs vol_sb vol_iref 0 vol_contents
    vol_held ∅ 1 vol_fabs vol_volume ltac:(vm_compute; reflexivity) eq_refl (fun a s => eq_refl) Ha eq_refl
    ltac:(apply not_elem_of_empty) Ht) as H.
  destruct (@ext4_balloc_free_block _ vol_store 1 vol_fs) as [x f']. cbn [fst] in E. subst x.
  destruct H as (c' & _ & H & _). by exists c'.
Defined.
