(* ===== verification/Ialloc.v ===== *)
(** * Inode allocation

    Core/lwext4/src/ext4_ialloc.c.  The inode bitmap of a group, its free, directory
    and unused counts, and the superblock's count of free inodes. *)

From S2P Require Import Prelude Layout Types Bitmap Crc Super BlockGroup Store Group Fs.

Section Ialloc.
Context {St : Type} {BS : BlockStore St}.
Local Abbreviation fsys := (fsys St).

(** The inode bitmap does not verify: give everything back and refuse. *)
Definition ialloc_refuse {A} (r : block_group_ref) (blk : Z) : M fsys A :=
  mtry (on_st (bs_set blk));;;
  mtry (ext4_fs_put_block_group_ref r);;;
  mfail EIO.

Definition ialloc_update_bitmap (r : block_group_ref) (blk : Z) (g : list Z -> list Z)
  : M fsys unit :=
  sb <- mget f_sb;;
  store blk g;;;
  bitmap <- data blk;;
  store (br_block r) (ext4_ialloc_set_bitmap_csum sb (br_off r) bitmap);;;
  mtry (on_st (bs_dirty blk));;;
  mok tt.

(** The group is not given back when its bitmap cannot be read. *)
Definition ext4_ialloc_free_inode (index : Z) (is_dir : bool) : M fsys unit :=
  sb <- mget f_sb;;
  r <- ext4_fs_get_block_group_ref (ext4_ialloc_get_bgid_of_inode sb index);;
  bg <- data (br_block r);;
  let blk := ext4_bg_get_inode_bitmap (br_off r) bg sb in
  on_st (bs_get blk);;;
  bitmap <- data blk;;
  bg <- data (br_block r);;
  if negb (ext4_ialloc_verify_bitmap_csum sb (br_off r) bitmap bg) then ialloc_refuse r blk
  else
    ialloc_update_bitmap r blk (fun bm => ext4_bmap_bit_clr bm (ext4_ialloc_inode_to_bgidx sb index));;;
    or_else (on_st (bs_set blk)) (ext4_fs_put_block_group_ref r);;;
    (if is_dir then
       bg <- data (br_block r);;
       store (br_block r) (ext4_bg_set_used_dirs_count (br_off r) sb
         (u32 (ext4_bg_get_used_dirs_count (br_off r) bg sb - 1)))
     else mok tt);;;
    bg <- data (br_block r);;
    store (br_block r) (ext4_bg_set_free_inodes_count (br_off r) sb
      (u32 (ext4_bg_get_free_inodes_count (br_off r) bg sb + 1)));;;
    ext4_fs_put_block_group_ref (br_set_dirty r);;;
    mmod (fun f => f_set_sb (sb_set sb_free_inodes_count
      (u32 (sb_get sb_free_inodes_count (f_sb f) + 1)) (f_sb f)) f).

(** The bit [idx_in_bg] is ours: the counts of the group, the superblock and the
    number of the inode.  [free_inodes], [used_dirs] and [sb_free_inodes] are
    what the call read at its start. *)
Definition ialloc_take (r : block_group_ref) (blk bgid idx_in_bg inodes_in_bg : Z)
    (free_inodes used_dirs sb_free_inodes : Z) (is_dir : bool) : M fsys Z :=
  sb <- mget f_sb;;
  ialloc_update_bitmap r blk (fun bm => ext4_bmap_bit_set bm idx_in_bg);;;
  mtry (on_st (bs_set blk));;;
  store (br_block r) (ext4_bg_set_free_inodes_count (br_off r) sb (u32 (free_inodes - 1)));;;
  (if is_dir
   then store (br_block r) (ext4_bg_set_used_dirs_count (br_off r) sb (u32 (used_dirs + 1)))
   else mok tt);;;
  bg <- data (br_block r);;
  let unused := ext4_bg_get_itable_unused (br_off r) bg sb in
  let free := u32 (inodes_in_bg - unused) in
  (if free <=? idx_in_bg
   then store (br_block r) (ext4_bg_set_itable_unused (br_off r) sb
          (u32 (inodes_in_bg - u32 (idx_in_bg + 1))))
   else mok tt);;;
  ext4_fs_put_block_group_ref (br_set_dirty r);;;
  mmod (fun f => f_set_sb (sb_set sb_free_inodes_count (u32 (sb_free_inodes - 1)) (f_sb f)) f);;;
  mmod (f_set_last bgid);;;
  mok (ext4_ialloc_bgidx_to_inode sb idx_in_bg bgid).

(** [while (bgid <= bg_count)]: groups from the last one used to the end, then
    the ones before it. *)
Fixpoint alloc_inode_loop (fuel : nat) (bgid bg_count : Z) (rewind : bool)
    (sb_free_inodes : Z) (is_dir : bool) : M fsys Z :=
  match fuel with
  | O => mfail ENOSPC
  | S fuel =>
      if bg_count <? bgid then mfail ENOSPC
      else if bgid =? bg_count then
        if rewind then mfail ENOSPC
        else
          last <- mget f_last_inode_bg_id;;
          alloc_inode_loop fuel 0 last true sb_free_inodes is_dir
      else
        sb <- mget f_sb;;
        r <- ext4_fs_get_block_group_ref bgid;;
        bg <- data (br_block r);;
        let free_inodes := ext4_bg_get_free_inodes_count (br_off r) bg sb in
        let used_dirs := ext4_bg_get_used_dirs_count (br_off r) bg sb in
        if 0 <? free_inodes then
          let blk := ext4_bg_get_inode_bitmap (br_off r) bg sb in
          or_else (on_st (bs_get blk)) (ext4_fs_put_block_group_ref r);;;
          bitmap <- data blk;;
          bg <- data (br_block r);;
          if negb (ext4_ialloc_verify_bitmap_csum sb (br_off r) bitmap bg)
          then ialloc_refuse r blk
          else
            let inodes_in_bg := ext4_inodes_in_group_cnt sb bgid in
            match ext4_bmap_bit_find_clr bitmap 0 inodes_in_bg with
            | Err _ =>
                or_else (on_st (bs_set blk)) (ext4_fs_put_block_group_ref r);;;
                ext4_fs_put_block_group_ref r;;;
                alloc_inode_loop fuel (u32 (bgid + 1)) bg_count rewind sb_free_inodes is_dir
            | Ok idx_in_bg =>
                ialloc_take r blk bgid idx_in_bg inodes_in_bg free_inodes used_dirs
                  sb_free_inodes is_dir
            end
        else
          mtry (ext4_fs_put_block_group_ref r);;;
          alloc_inode_loop fuel (u32 (bgid + 1)) bg_count rewind sb_free_inodes is_dir
  end.

(** Every group is looked at once, so the fuel is enough. *)
Definition ext4_ialloc_alloc_inode (is_dir : bool) : M fsys Z :=
  sb <- mget f_sb;;
  bgid <- mget f_last_inode_bg_id;;
  let bg_count := ext4_block_group_cnt sb in
  alloc_inode_loop (Z.to_nat bg_count + 3) bgid bg_count false
    (sb_get sb_free_inodes_count sb) is_dir.
End Ialloc.
