(* ===== verification/IallocSpec.v ===== *)
(** * What the inode allocator does

    The operations of Ialloc.v on the abstract store: an allocation and a free
    change the inode bitmap and the descriptor of one group, and the
    superblock's count. *)

From S2P Require Import Prelude Layout Types Bitmap Crc Super BlockGroup Inode Store.
From S2P Require Import Group Fs FsSpec GroupLaws Ialloc.

(** The inode bitmap's block, for the group whose descriptor is in [b]. *)
Definition imp_blk (sb : list Z) (g : Z) (b : list Z) : Z :=
  ext4_bg_get_inode_bitmap (desc_off sb g) b sb.
Lemma imp_blk_nonneg sb g b : 0 <= imp_blk sb g b.
Proof. by apply bg_get32_nonneg. Qed.

(** The descriptor of group [g] after its inode bitmap became [bm], the setters
    [l] ran, and it was given back. *)
Definition idesc (sb : list Z) (g : Z) (l : list bg_op) (bm d : list Z) : list Z :=
  seal sb g (desc_off sb g)
    (run_bg_ops sb (desc_off sb g) l (ext4_ialloc_set_bitmap_csum sb (desc_off sb g) bm d)).
Definition inode_bits_through (sb : list Z) (g : Z) (gf : list Z -> list Z) (l : list bg_op)
    (c : Z -> list Z) : Z -> list Z :=
  let D := desc_blk sb g in
  let bm := gf (c (imp_blk sb g (c D))) in
  fupd D (idesc sb g l bm (c D)) (fupd (imp_blk sb g (c D)) bm c).

(** The setters an allocation of index [i] runs, on the descriptor [d]; [cnt] is
    the number of inodes in the group. *)
Definition alloc_ops (d : bgdesc) (i cnt : Z) (is_dir : bool) : list bg_op :=
  [BgFreeInodes (u32 (d_free_inodes d - 1))] ++
  (if is_dir then [BgUsedDirs (u32 (d_used_dirs d + 1))] else []) ++
  (if u32 (cnt - d_itable_unused d) <=? i
   then [BgItableUnused (u32 (cnt - u32 (i + 1)))] else []).
Definition free_ops (d : bgdesc) (is_dir : bool) : list bg_op :=
  (if is_dir then [BgUsedDirs (u32 (d_used_dirs d - 1))] else []) ++
  [BgFreeInodes (u32 (d_free_inodes d + 1))].
Lemma u32_fits v : (0 <=? u32 v) && (u32 v <? 2 ^ 32) = true.
Proof. pose proof (u32_range v). lia. Qed.
Lemma alloc_ops_ok d i cnt is_dir : forallb bg_op_ok (alloc_ops d i cnt is_dir) = true.
Proof.
  unfold alloc_ops. rewrite !forallb_app, !andb_true_iff.
  split_and!; repeat case_match; try done; apply andb_true_iff; (split; [apply u32_fits|done]).
Qed.
Lemma free_ops_ok d is_dir : forallb bg_op_ok (free_ops d is_dir) = true.
Proof.
  unfold free_ops. rewrite !forallb_app, !andb_true_iff.
  split; [destruct is_dir; [|done]|]; apply andb_true_iff; (split; [apply u32_fits|done]).
Qed.
Definition sb_inodes_moved (sign : Z) (sb : list Z) : list Z :=
  sb_set sb_free_inodes_count (u32 (sb_get sb_free_inodes_count sb + sign)) sb.

(** Where the blocks of group [g] are: apart, and nothing is pending on them. *)
Record igroup_apart (sb : list Z) (p : gset Z) (c : Z -> list Z) (g : Z) : Prop := {
  ig_desc : desc_blk sb g ∉ p;
  ig_bmp : imp_blk sb g (c (desc_blk sb g)) ∉ p;
  ig_apart : imp_blk sb g (c (desc_blk sb g)) <> desc_blk sb g;
  ig_off : desc_off sb g + bg_size sb <= blen (c (desc_blk sb g));
}.
(** What group [g] must be for an operation on it: its bitmaps are initialised. *)
Record igroup_ok (sb : list Z) (p : gset Z) (c : Z -> list Z) (g : Z) : Prop := {
  ig_where : igroup_apart sb p c g;
  ig_ready : group_ready sb g (c (desc_blk sb g)) = true;
}.

Section IallocSpec.
Context {St : Type} {BS : BlockStore St} {bsz : Z} {BL : BlockStoreLaws St bsz}.
Local Abbreviation fabs := (fabs (bsz := bsz)).

Section Steps.
Context (n : Z) (f : fsys St) (sb : list Z) (ir : inode_ref) (l : Z).
Context (c : Z -> list Z) (h : Z -> Z) (p : gset Z) (g : Z).
Context (A : fabs n f sb ir l c h p).
Local Abbreviation D := (desc_blk sb g).
Local Abbreviation off := (desc_off sb g).
Local Abbreviation B := (imp_blk sb g (c D)).
Local Abbreviation r := (group_ref sb g).

(** A store into the descriptor. *)
Lemma desc_store_wp gf (Q : result unit -> fsys St -> Prop) :
  0 < h D -> keeps gf ->
  (forall f', fabs n f' sb ir l (fupd D (gf (c D)) c) h ({[D]} ∪ p) -> Q (Ok tt) f') ->
  wp (store (br_block r) gf) f Q.
Proof.
  intros HD Hk HQ. cbn [br_block group_ref]. fs_step; [done| |exact HQ].
  intros Hl Hb. destruct (Hk (c D)) as [E F]. rewrite E. auto.
Qed.

Lemma iupdate_bitmap_wp gf :
  0 < h B -> 0 < h D -> B <> D -> keeps gf ->
  wp (ialloc_update_bitmap r B gf) f (fun x f' =>
    x = Ok tt /\
    fabs n f' sb ir l
      (fupd D (ext4_ialloc_set_bitmap_csum sb off (gf (c B)) (c D)) (fupd B (gf (c B)) c))
      h ({[D]} ∪ p)).
Proof.
  intros HB HD Hne Hk. unfold ialloc_update_bitmap. cbn [br_block br_off group_ref].
  fs_step. fs_step. fs_step. fs_step; [done| |].
  { intros Hl Hb. destruct (Hk (c B)) as [E F]. rewrite E. auto. }
  intros f1 A1. fs_step. fs_step; [done|]. rewrite fupd_eq. fs_step. fs_step; [done| |].
  { intros Hl Hb. destruct (keeps_csum_halves bg_inode_bitmap_csum_lo bg_inode_bitmap_csum_hi sb off
      (ext4_ialloc_bitmap_csum sb (gf (c B))) (fupd B (gf (c B)) c D)) as [E F].
    unfold ext4_ialloc_set_bitmap_csum. rewrite E. auto. }
  intros f2 A2. fs_step. fs_step; [done|]. intros f3 A3. fs_step. split; [done|].
  eapply (fabs_weaken _ _ _ _ _ _ _ _ A3); [apply (fabs_budget _ _ _ _ _ _ _ _ A)| |done|set_solver].
  intros x. rewrite (fupd_ne B _ c D) by done. done.
Qed.

(** Both handles given back and the operation refused. *)
Lemma irefuse_wp {X} (Q : result X -> fsys St -> Prop) :
  0 < h B -> 0 < h D -> B <> D -> B ∉ p -> D ∉ p ->
  (forall f', fabs n f' sb ir l c (fupd D (h D - 1) (fupd B (h B - 1) h)) p -> Q (Err EIO) f') ->
  wp (ialloc_refuse r B) f Q.
Proof.
  intros HB HD Hne HBp HDp HQ. unfold ialloc_refuse. fs_step. fs_step. fs_step; [done|done|].
  intros f1 A1. fs_step. fs_step.
  assert (HD1 : 0 < fupd B (h B - 1) h D) by (by rewrite fupd_ne).
  eapply wp_mono; [by apply (put_clean_wp _ _ _ _ _ _ _ _ A1 r)|]. cbv beta. intros x f2 [-> A2].
  cbn [br_block group_ref] in A2. fs_step. apply HQ. by rewrite fupd_ne in A2.
Qed.
End Steps.

(** A group reference given back changed. *)
Lemma put_sealed_wp n f sb ir l c h p g r :
  fabs n f sb ir l c h p -> 0 < h (desc_blk sb g) ->
  r = br_set_dirty (group_ref sb g) ->
  wp (ext4_fs_put_block_group_ref r) f (fun x f' => x = Ok tt /\
    fabs n f' sb ir l (fupd (desc_blk sb g) (seal sb g (desc_off sb g) (c (desc_blk sb g))) c)
      (fupd (desc_blk sb g) (h (desc_blk sb g) - 1) h) (p ∖ {[desc_blk sb g]})).
Proof. intros A HD ->. by apply (put_dirty_wp _ _ _ _ _ _ _ _ A). Qed.

(** The counts of a free, from a descriptor [c D]: setters, checksum, the
    superblock's count. *)
Lemma free_counts_wp n f sb ir l c h p g (is_dir : bool) :
  let D := desc_blk sb g in
  let off := desc_off sb g in
  let d := bg_abs sb off (c D) in
  fabs n f sb ir l c h p -> 0 < h D -> off + bg_size sb <= blen (c D) ->
  wp ((if is_dir then
         bg <- data D;;
         store D (ext4_bg_set_used_dirs_count off sb (u32 (ext4_bg_get_used_dirs_count off bg sb - 1)))
       else mok tt);;;
      bg <- data D;;
      store D (ext4_bg_set_free_inodes_count off sb (u32 (ext4_bg_get_free_inodes_count off bg sb + 1)));;;
      ext4_fs_put_block_group_ref (br_set_dirty (group_ref sb g));;;
      mmod (fun f => f_set_sb (sb_set sb_free_inodes_count
        (u32 (sb_get sb_free_inodes_count (f_sb f) + 1)) (f_sb f)) f)) f (fun x f' =>
    x = Ok tt /\
    fabs n f' (sb_inodes_moved 1 sb) ir l
      (fupd D (seal sb g off (run_bg_ops sb off (free_ops d is_dir) (c D))) c)
      (fupd D (h D - 1) h) (p ∖ {[D]})).
Proof.
  intros D off d A HD Hlen. assert (Ho : 0 <= off) by apply u32_range.
  set (lu := if is_dir then [BgUsedDirs (u32 (d_used_dirs d - 1))] else []).
  assert (Hok : forallb bg_op_ok lu = true).
  { unfold lu. destruct is_dir; [|done]. apply andb_true_iff. split; [apply u32_fits|done]. }
  pose proof (fabs_budget _ _ _ _ _ _ _ _ A) as Hbud.
  fs_step. apply (wp_mono _ _ (fun x f' => x = Ok tt /\
    fabs n f' sb ir l (fupd D (run_bg_ops sb off lu (c D)) c) h ({[D]} ∪ p))).
  { unfold lu. destruct is_dir; fs_step.
    - fs_step; [done|]. eapply (desc_store_wp _ _ _ _ _ _ _ _ g A); [done|apply keeps_bg_set16|].
      intros f1 A1. split; [done|exact A1].
    - split; [done|]. eapply (fabs_weaken _ _ _ _ _ _ _ _ A); [done| |done|set_solver].
      intros x. cbn. fupd_at x. }
  cbv beta. intros x f1 [-> A1]. set (d1 := run_bg_ops sb off lu (c D)) in A1.
  assert (Hfi : d_free_inodes (bg_abs sb off d1) = d_free_inodes d).
  { unfold d1. rewrite bg_ops_abs by done. fold d. unfold lu. by destruct is_dir, d. }
  fs_step. fs_step; [done|]. rewrite fupd_eq. fs_step.
  eapply (desc_store_wp _ _ _ _ _ _ _ _ g A1); [done|apply keeps_bg_set16|]. fold D. rewrite fupd_eq.
  intros f2 A2. change (ext4_bg_get_free_inodes_count off d1 sb) with (d_free_inodes (bg_abs sb off d1)) in A2.
  rewrite Hfi in A2. fs_step.
  eapply wp_mono; [eapply (put_sealed_wp _ _ _ _ _ _ _ _ g _ A2); done|]. fold D. rewrite fupd_eq.
  cbv beta. intros x f3 [-> A3]. apply wp_mod. split; [done|].
  rewrite (fa_sb _ _ _ _ _ _ _ _ A3). fold (sb_inodes_moved 1 sb).
  eapply (fabs_weaken _ _ _ _ _ _ _ _ (fabs_set_sb _ _ _ _ _ _ _ _ A3 _)); [done| |done|set_solver].
  intros x. rewrite !fupd_fupd. unfold free_ops. fold lu.
  unfold run_bg_ops. by rewrite fold_left_app.
Qed.

(** [ext4_ialloc_free_inode], for an inode of group [g].  The handle on the
    descriptor stays taken when the bitmap cannot be read. *)
Lemma free_inode_wp n f sb ir l c h p index is_dir :
  let g := ext4_ialloc_get_bgid_of_inode sb index in
  let i := ext4_ialloc_inode_to_bgidx sb index in
  let D := desc_blk sb g in
  let d := bg_abs sb (desc_off sb g) (c D) in
  fabs n f sb ir l c h p -> n + 2 < 2 ^ 32 -> igroup_ok sb p c g ->
  wp (ext4_ialloc_free_inode index is_dir) f (fun x f' =>
    match x with
    | Ok _ =>
        ext4_ialloc_verify_bitmap_csum sb (desc_off sb g) (c (imp_blk sb g (c D))) (c D) = true /\
        fabs (n + 2) f' (sb_inodes_moved 1 sb) ir l
        (inode_bits_through sb g (fun bm => ext4_bmap_bit_clr bm i) (free_ops d is_dir) c) h p
    | Err rc => clean_err (St := St) rc /\
        (fabs (n + 2) f' sb ir l c h p \/ fabs (n + 2) f' sb ir l c (fupd D (h D + 1) h) p)
    end).
Proof.
  intros g i D d A Hn [[G1 G2 G3 G5] G4]. fold D in G1, G2, G3, G4, G5.
  set (B := imp_blk sb g (c D)) in *. assert (Ho : 0 <= desc_off sb g) by apply u32_range.
  pose proof (fabs_held _ _ _ _ _ _ _ _ A D) as HD0. pose proof (fabs_held _ _ _ _ _ _ _ _ A B) as HB0.
  unfold ext4_ialloc_free_inode. fs_step. fs_step. fold g i. fs_step.
  eapply wp_mono; [by apply (get_ref_wp _ _ _ _ _ _ _ _ A g); [lia|..]|]. cbv beta.
  intros [r|rc] f1.
  2: { intros [Hrc A1]. split; [done|]. left. eapply (fabs_weaken _ _ _ _ _ _ _ _ A1); [lia|done..]. }
  fold D. intros (-> & _ & A1). set (h1 := fupd D (h D + 1) h) in A1.
  assert (HD1 : 0 < h1 D) by (unfold h1; rewrite fupd_eq; lia).
  cbn [br_block br_off group_ref]. fold D. fs_step. fs_step; [done|]. fold (imp_blk sb g (c D)). fold B.
  fs_step. fs_step; [lia|apply imp_blk_nonneg|done| |].
  2: { intros rc f2 Hrc A2. split; [done|]. right. eapply (fabs_weaken _ _ _ _ _ _ _ _ A2); [lia|done..]. }
  intros f2 _ A2. replace (h1 B) with (h B) in A2 by (unfold h1; by rewrite fupd_ne).
  set (h2 := fupd B (h B + 1) h1) in A2. replace (n + 1 + 1) with (n + 2) in A2 by lia.
  assert (HB2 : 0 < h2 B) by (unfold h2; rewrite fupd_eq; lia).
  assert (HD2 : 0 < h2 D) by (unfold h2; by rewrite fupd_ne).
  fs_step. fs_step; [done|]. fs_step. fs_step; [done|].
  destruct (ext4_ialloc_verify_bitmap_csum _ _ _ _); cbn [negb].
  2: { apply (irefuse_wp _ _ _ _ _ _ _ _ g A2); try done. intros f3 A3. split; [apply clean_EIO|]. left.
       eapply (fabs_weaken _ _ _ _ _ _ _ _ A3); [lia|done| |done]. intros x. fold D B. unfold h2, h1.
       fupd_at x. }
  fs_step. eapply wp_mono; [apply (iupdate_bitmap_wp _ _ _ _ _ _ _ _ g A2); try done; apply keeps_bit_clr|].
  fold D B. cbv beta. intros x f3 [-> A3]. fs_step. fs_step. fs_step; [done|set_solver|].
  intros f4 A4. set (d1 := ext4_ialloc_set_bitmap_csum sb (desc_off sb g) _ (c D)) in A4.
  set (c4 := fupd D d1 _) in A4. assert (E4 : c4 D = d1) by (unfold c4; by rewrite fupd_eq).
  pose proof (free_counts_wp _ _ _ _ _ _ _ _ g is_dir A4) as H. cbv zeta in H. fold D in H.
  eapply wp_mono; [apply H|].
  { by rewrite fupd_ne. }
  { rewrite E4. unfold d1, ext4_ialloc_set_bitmap_csum. by rewrite (proj1 (keeps_csum_halves _ _ _ _ _ _)). }
  cbv beta. intros x f5 [-> A5]. split; [done|].
  eapply (fabs_weaken _ _ _ _ _ _ _ _ A5); [lia| | |set_solver].
  - intros x. unfold inode_bits_through, idesc. fold D B d1. unfold c4.
    rewrite fupd_fupd, fupd_eq. unfold d1. by rewrite bg_abs_set_icsum.
  - intros x. unfold h2, h1. fupd_at x.
Qed.

(** ** Allocation *)

(** The counts of an allocation, from a descriptor [c D] whose counts were read
    before as [d]. *)
Lemma take_counts_wp {X} n f sb ir l c h p g i cnt (is_dir : bool) (k : M (fsys St) X) Q :
  let D := desc_blk sb g in
  let off := desc_off sb g in
  let d := bg_abs sb off (c D) in
  fabs n f sb ir l c h p -> 0 < h D -> off + bg_size sb <= blen (c D) ->
  (forall f', fabs n f' sb ir l
     (fupd D (seal sb g off (run_bg_ops sb off (alloc_ops d i cnt is_dir) (c D))) c)
     (fupd D (h D - 1) h) (p ∖ {[D]}) -> wp k f' Q) ->
  wp (store D (ext4_bg_set_free_inodes_count off sb (u32 (d_free_inodes d - 1)));;;
      (if is_dir then store D (ext4_bg_set_used_dirs_count off sb (u32 (d_used_dirs d + 1)))
       else mok tt);;;
      bg <- data D;;
      let unused := ext4_bg_get_itable_unused off bg sb in
      let free := u32 (cnt - unused) in
      (if free <=? i
       then store D (ext4_bg_set_itable_unused off sb (u32 (cnt - u32 (i + 1)))) else mok tt);;;
      ext4_fs_put_block_group_ref (br_set_dirty (group_ref sb g));;; k) f Q.
Proof.
  intros D off d A HD Hlen Hk. assert (Ho : 0 <= off) by apply u32_range.
  pose proof (fabs_budget _ _ _ _ _ _ _ _ A) as Hbud.
  set (lf := [BgFreeInodes (u32 (d_free_inodes d - 1))]).
  set (lu := if is_dir then [BgUsedDirs (u32 (d_used_dirs d + 1))] else []).
  set (lt := if u32 (cnt - d_itable_unused d) <=? i then [BgItableUnused (u32 (cnt - u32 (i + 1)))] else []).
  assert (Hok : forallb bg_op_ok (lf ++ lu) = true).
  { pose proof (alloc_ops_ok d i cnt is_dir) as H. unfold alloc_ops in H. fold lf lu lt in H.
    rewrite app_assoc, forallb_app in H. by apply andb_true_iff in H as [H _]. }
  fs_step. eapply (desc_store_wp _ _ _ _ _ _ _ _ g A); [done|apply keeps_bg_set16|]. fold D.
  intros f1 A1. fs_step. apply (wp_mono _ _ (fun x f' => x = Ok tt /\
    fabs n f' sb ir l (fupd D (run_bg_ops sb off (lf ++ lu) (c D)) c) h ({[D]} ∪ p))).
  { unfold lu. destruct is_dir.
    - eapply (desc_store_wp _ _ _ _ _ _ _ _ g A1); [done|apply keeps_bg_set16|]. fold D. rewrite fupd_eq.
      intros f2 A2. split; [done|].
      eapply (fabs_weaken _ _ _ _ _ _ _ _ A2); [done| |done|set_solver]. intros x. by rewrite fupd_fupd.
    - fs_step. split; [done|exact A1]. }
  cbv beta. intros x f2 [-> A2]. set (d2 := run_bg_ops sb off (lf ++ lu) (c D)) in A2.
  assert (Hun : d_itable_unused (bg_abs sb off d2) = d_itable_unused d).
  { unfold d2. rewrite bg_ops_abs by done. fold d. unfold lf, lu. by destruct is_dir, d. }
  fs_step. fs_step; [done|]. rewrite fupd_eq.
  change (ext4_bg_get_itable_unused off d2 sb) with (d_itable_unused (bg_abs sb off d2)). rewrite Hun.
  cbv zeta. fs_step. apply (wp_mono _ _ (fun x f' => x = Ok tt /\
    fabs n f' sb ir l (fupd D (run_bg_ops sb off ((lf ++ lu) ++ lt) (c D)) c) h ({[D]} ∪ p))).
  { unfold lt. destruct (u32 (cnt - d_itable_unused d) <=? i).
    - eapply (desc_store_wp _ _ _ _ _ _ _ _ g A2); [done|apply keeps_bg_set16|]. fold D. rewrite fupd_eq.
      intros f3 A3. split; [done|].
      eapply (fabs_weaken _ _ _ _ _ _ _ _ A3); [done| |done|set_solver]. intros x. rewrite fupd_fupd.
      unfold run_bg_ops. by rewrite fold_left_app.
    - fs_step. split; [done|]. by rewrite app_nil_r. }
  cbv beta. intros x f3 [-> A3]. fs_step.
  eapply wp_mono; [eapply (put_sealed_wp _ _ _ _ _ _ _ _ g _ A3); done|]. fold D. rewrite fupd_eq.
  cbv beta. intros x f4 [-> A4]. apply Hk.
  eapply (fabs_weaken _ _ _ _ _ _ _ _ A4); [done| |done|set_solver].
  intros x. rewrite fupd_fupd. unfold alloc_ops. fold lf lu lt. by rewrite app_assoc.
Qed.

(** An inode of group [g] that may be handed out. *)
Definition itakeable (sb : list Z) (c : Z -> list Z) (g i : Z) : Prop :=
  let D := desc_blk sb g in
  let bm := c (imp_blk sb g (c D)) in
  0 <= i < ext4_inodes_in_group_cnt sb g /\ ext4_bmap_is_bit_clr bm i = true /\
  ext4_ialloc_verify_bitmap_csum sb (desc_off sb g) bm (c D) = true /\
  ext4_bg_get_free_inodes_count (desc_off sb g) (c D) sb <> 0.
Definition ifull (sb : list Z) (c : Z -> list Z) (g : Z) : Prop := forall i, ~ itakeable sb c g i.

(** What an allocation may answer from contents [c]. *)
Definition ialloc_answer (n : Z) (sb : list Z) (ir : inode_ref) (l : Z) (c : Z -> list Z)
    (h : Z -> Z) (p : gset Z) (is_dir : bool) (x : result Z) (f' : fsys St) : Prop :=
  match x with
  | Ok ino => exists g i,
      0 <= g < ext4_block_group_cnt sb /\ itakeable sb c g i /\
      ino = ext4_ialloc_bgidx_to_inode sb i g /\
      fabs n f' (sb_inodes_moved (-1) sb) ir g
        (inode_bits_through sb g (fun bm => ext4_bmap_bit_set bm i)
           (alloc_ops (bg_abs sb (desc_off sb g) (c (desc_blk sb g))) i
              (ext4_inodes_in_group_cnt sb g) is_dir) c) h p
  | Err rc =>
      (clean_err (St := St) rc \/
       rc = ENOSPC /\ forall g, 0 <= g < ext4_block_group_cnt sb -> ifull sb c g) /\
      fabs n f' sb ir l c h p
  end.

(** Taking bit [i], both handles in hand; the counts were read before. *)
Lemma ialloc_take_wp n f sb ir l c h p g i is_dir :
  let D := desc_blk sb g in
  let B := imp_blk sb g (c D) in
  let d := bg_abs sb (desc_off sb g) (c D) in
  fabs n f sb ir l c h p -> 0 < h D -> 0 < h B -> B <> D -> B ∉ p -> D ∉ p ->
  desc_off sb g + bg_size sb <= blen (c D) ->
  wp (ialloc_take (group_ref sb g) B g i (ext4_inodes_in_group_cnt sb g) (d_free_inodes d)
        (d_used_dirs d) (sb_get sb_free_inodes_count sb) is_dir) f (fun x f' =>
    x = Ok (ext4_ialloc_bgidx_to_inode sb i g) /\
    fabs n f' (sb_inodes_moved (-1) sb) ir g
      (inode_bits_through sb g (fun bm => ext4_bmap_bit_set bm i)
         (alloc_ops d i (ext4_inodes_in_group_cnt sb g) is_dir) c)
      (fupd D (h D - 1) (fupd B (h B - 1) h)) p).
Proof.
  intros D B d A HD HB Hne HBp HDp Hlen. unfold ialloc_take. fs_step. fs_step. fs_step.
  eapply wp_mono; [apply (iupdate_bitmap_wp _ _ _ _ _ _ _ _ g A); try done; apply keeps_bit_set|].
  fold D B. cbv beta. intros x f1 [-> A1]. fs_step. fs_step. fs_step; [done|set_solver|].
  intros f2 A2. fs_step. set (d1 := ext4_ialloc_set_bitmap_csum sb (desc_off sb g) _ (c D)) in A2.
  set (c2 := fupd D d1 _) in A2. assert (E2 : c2 D = d1) by (unfold c2; by rewrite fupd_eq).
  assert (Hab : bg_abs sb (desc_off sb g) (c2 D) = d).
  { rewrite E2. unfold d1. apply bg_abs_set_icsum, u32_range. }
  cbn [br_block br_off group_ref]. fold D. rewrite <- Hab.
  eapply (take_counts_wp _ _ _ _ _ _ _ _ g i (ext4_inodes_in_group_cnt sb g) is_dir _ _ A2).
  { fold D. by rewrite fupd_ne. }
  { fold D. rewrite E2. unfold d1, ext4_ialloc_set_bitmap_csum. by rewrite (proj1 (keeps_csum_halves _ _ _ _ _ _)). }
  fold D. intros f3 A3. fs_step. apply wp_mod. rewrite (fa_sb _ _ _ _ _ _ _ _ A3).
  change (u32 (sb_get sb_free_inodes_count sb - 1)) with (u32 (sb_get sb_free_inodes_count sb + -1)).
  fold (sb_inodes_moved (-1) sb). pose proof (fabs_set_sb _ _ _ _ _ _ _ _ A3 (sb_inodes_moved (-1) sb)) as A4.
  fs_step. apply wp_mod. pose proof (fabs_set_last _ _ _ _ _ _ _ _ A4 g) as A5. fs_step. split; [done|].
  eapply (fabs_weaken _ _ _ _ _ _ _ _ A5); [apply (fabs_budget _ _ _ _ _ _ _ _ A5)| | |set_solver].
  - intros x. unfold inode_bits_through, idesc. fold D B d1. unfold c2.
    rewrite fupd_fupd, fupd_eq. done.
  - intros x. fupd_at x.
Qed.

Lemma ialloc_answer_ext n n' sb ir l c h h' p is_dir x f' :
  n <= n' < 2 ^ 32 -> (forall a, h' a = h a) ->
  ialloc_answer n sb ir l c h p is_dir x f' -> ialloc_answer n' sb ir l c h' p is_dir x f'.
Proof.
  intros Hn Hh. destruct x as [a|rc]; cbn.
  - intros (g & i & ? & ? & ? & A). exists g, i. split_and!; try done; try lia.
    by eapply (fabs_weaken _ _ _ _ _ _ _ _ A).
  - intros [? A]. split; [done|]. by eapply (fabs_weaken _ _ _ _ _ _ _ _ A).
Qed.

(** The part of one turn after the group's descriptor was fetched; [k] is the rest
    of the loop. *)
Lemma ialloc_group_wp n f sb ir l c h p g is_dir (k : M (fsys St) Z) n' :
  let D := desc_blk sb g in
  let d := bg_abs sb (desc_off sb g) (c D) in
  let blk := imp_blk sb g (c D) in
  let r := group_ref sb g in
  fabs (n + 1) f sb ir l c (fupd D (h D + 1) h) p -> n + 2 <= n' -> n' < 2 ^ 32 ->
  0 <= g < ext4_block_group_cnt sb -> ext4_inodes_in_group_cnt sb g < 2 ^ 32 -> igroup_ok sb p c g ->
  0 <= h D ->
  (forall f', fabs (n + 2) f' sb ir l c h p -> ifull sb c g ->
     wp k f' (ialloc_answer n' sb ir l c h p is_dir)) ->
  wp (if 0 <? d_free_inodes d then
        or_else (on_st (bs_get blk)) (ext4_fs_put_block_group_ref r);;;
        bitmap <- data blk;;
        bg <- data D;;
        if negb (ext4_ialloc_verify_bitmap_csum sb (desc_off sb g) bitmap bg) then ialloc_refuse r blk
        else
          let inodes_in_bg := ext4_inodes_in_group_cnt sb g in
          match ext4_bmap_bit_find_clr bitmap 0 inodes_in_bg with
          | Err _ =>
              or_else (on_st (bs_set blk)) (ext4_fs_put_block_group_ref r);;;
              ext4_fs_put_block_group_ref r;;; k
          | Ok idx =>
              ialloc_take r blk g idx inodes_in_bg (d_free_inodes d) (d_used_dirs d)
                (sb_get sb_free_inodes_count sb) is_dir
          end
      else mtry (ext4_fs_put_block_group_ref r);;; k) f (ialloc_answer n' sb ir l c h p is_dir).
Proof.
  intros D d B r A Hn Hn' Hg Hcnt [[G1 G2 G3 G5] G4] HD0 Hk. fold D B in G1, G2, G3, G4, G5.
  assert (HD : 0 < fupd D (h D + 1) h D) by (rewrite fupd_eq; lia).
  assert (Ho : 0 <= desc_off sb g) by apply u32_range.
  destruct (Z.ltb_spec 0 (d_free_inodes d)) as [Hfi|Hfi].
  2: { fs_step. fs_step. eapply wp_mono; [by apply (put_clean_wp _ _ _ _ _ _ _ _ A r)|].
       cbv beta. intros x f1 [-> A1]. cbn [br_block r group_ref] in A1. fold D in A1. apply Hk.
       - eapply (fabs_weaken _ _ _ _ _ _ _ _ A1); [lia|done| |done]. intros x. fupd_at x.
       - intros i (_ & _ & _ & Hne). apply Hne. cbn in Hfi. fold D.
         pose proof (bg_get16_nonneg bg_free_inodes_count_lo bg_free_inodes_count_hi (desc_off sb g) (c D) sb
           ltac:(done)). unfold ext4_bg_get_free_inodes_count in *. lia. }
  fs_step. fs_step. pose proof (fabs_held _ _ _ _ _ _ _ _ A B) as HB0. rewrite fupd_ne in HB0 by done.
  fs_step; [lia|apply imp_blk_nonneg|done| |].
  2: { intros rc f1 Hrc A1. eapply wp_mono; [by apply (put_clean_wp _ _ _ _ _ _ _ _ A1 r)|].
       cbv beta. intros x f2 [-> A2]. cbn [br_block r group_ref] in A2. fold D in A2. split; [by left|].
       eapply (fabs_weaken _ _ _ _ _ _ _ _ A2); [lia|done| |done]. intros x. fupd_at x. }
  rewrite fupd_ne by done. intros f1 _ A1. replace (n + 1 + 1) with (n + 2) in A1 by lia.
  set (h1 := fupd B (h B + 1) (fupd D (h D + 1) h)) in A1.
  assert (HB1 : 0 < h1 B) by (unfold h1; rewrite fupd_eq; lia).
  assert (HD1 : 0 < h1 D) by (unfold h1; by rewrite fupd_ne).
  fs_step. fs_step; [done|]. fs_step. fs_step; [done|].
  destruct (ext4_ialloc_verify_bitmap_csum _ _ _ _) eqn:Ev; cbn [negb].
  2: { apply (irefuse_wp _ _ _ _ _ _ _ _ g A1); try done. fold D B. intros f2 A2.
       split; [left; apply clean_EIO|].
       eapply (fabs_weaken _ _ _ _ _ _ _ _ A2); [lia|done| |done]. intros x. unfold h1. fupd_at x. }
  cbv zeta. pose proof (bit_find_clr_first (c B) 0 (ext4_inodes_in_group_cnt sb g) ltac:(lia) Hcnt) as F.
  destruct (ext4_bmap_bit_find_clr (c B) 0 _) as [i|rc].
  - destruct F as (F1 & F2 & _).
    eapply wp_mono; [by apply (ialloc_take_wp _ _ _ _ _ _ _ _ g i is_dir A1)|]. cbv beta. fold D B d.
    intros x f2 [-> A2]. exists g, i. split; [done|]. split.
    { unfold itakeable. fold D B. split_and!; [lia|lia|by rewrite is_bit_clr_bit_at, F2 by lia|done|].
      cbn in Hfi. lia. }
    split; [done|]. eapply (fabs_weaken _ _ _ _ _ _ _ _ A2); [lia|done| |done].
    intros x. unfold h1. fupd_at x.
  - destruct F as [_ F]. fs_step. fs_step. fs_step; [done|done|]. intros f2 A2. fs_step.
    eapply wp_mono; [apply (put_clean_wp _ _ _ _ _ _ _ _ A2 r); [done| |done]|].
    { cbn [br_block r group_ref]. fold D. by rewrite fupd_ne. }
    cbv beta. intros x f3 [-> A3]. cbn [br_block r group_ref] in A3. fold D in A3. apply Hk.
    + eapply (fabs_weaken _ _ _ _ _ _ _ _ A3); [lia|done| |done]. intros x. unfold h1. fupd_at x.
    + intros i (Hi & Hclr & _). fold D B in Hclr. rewrite is_bit_clr_bit_at in Hclr by lia.
      by rewrite (F i ltac:(lia)) in Hclr.
Qed.

(** The turns left: to the end of the groups and, before the rewind, from their
    start to the last group used. *)
Definition turns_left (N l bgid : Z) (rewind : bool) : Z :=
  if rewind then l - bgid + 1 else (N - bgid + 1) + (l + 1).
(** The groups the loop has still to look at. *)
Definition ahead (l bgid : Z) (rewind : bool) (g : Z) : Prop :=
  if rewind then bgid <= g < l else g < l \/ bgid <= g.

Lemma alloc_inode_loop_wp fuel : forall n f sb ir l c h p bgid rewind is_dir n',
  let N := ext4_block_group_cnt sb in
  let bg_count := if rewind : bool then l else N in
  fabs n f sb ir l c h p -> n + 2 * Z.of_nat fuel <= n' -> n' < 2 ^ 32 ->
  0 < N < 2 ^ 32 -> 0 <= l <= N -> 0 <= bgid <= bg_count ->
  turns_left N l bgid rewind <= Z.of_nat fuel ->
  (forall g, 0 <= g < N -> igroup_ok sb p c g /\ ext4_inodes_in_group_cnt sb g < 2 ^ 32) ->
  (forall g, 0 <= g < N -> ahead l bgid rewind g \/ ifull sb c g) ->
  wp (alloc_inode_loop fuel bgid bg_count rewind (sb_get sb_free_inodes_count sb) is_dir) f
    (ialloc_answer n' sb ir l c h p is_dir).
Proof.
  induction fuel as [|fuel IH]; intros n f sb ir l c h p bgid rewind is_dir n' N bg_count
    A Hn Hn' HN Hl Hb Hfuel Hok Hseen.
  { exfalso. unfold turns_left in Hfuel. unfold bg_count in Hb. destruct rewind; lia. }
  assert (Hdone : forall f', fabs n f' sb ir l c h p -> bgid = bg_count -> rewind = true ->
    ialloc_answer n' sb ir l c h p is_dir (Err ENOSPC) f').
  { intros f' A' E Hr. split; [|eapply (fabs_weaken _ _ _ _ _ _ _ _ A'); [lia|done..]].
    right. split; [done|]. intros g Hg. destruct (Hseen g Hg) as [Ha|]; [|done].
    destruct rewind; [|done]. unfold ahead, bg_count in *. lia. }
  cbn [alloc_inode_loop]. destruct (Z.ltb_spec bg_count bgid) as [?|_]; [lia|].
  destruct (Z.eqb_spec bgid bg_count) as [E|Hne].
  { destruct rewind; [by fs_step; apply Hdone|]. fs_step. apply wp_get.
    rewrite (fa_last _ _ _ _ _ _ _ _ A).
    apply (IH n f sb ir l c h p 0 true is_dir n'); try done; try lia.
    - unfold turns_left, bg_count in *. lia.
    - intros g Hg. destruct (Hseen g Hg) as [Ha|]; [|by right]. left. unfold ahead, bg_count in *. lia. }
  assert (Hg : 0 <= bgid < N) by (unfold bg_count in *; destruct rewind; lia).
  destruct (Hok bgid Hg) as [G Hcnt]. pose proof G as [[G1 G2 G3 G5] G4].
  fs_step. fs_step. fs_step.
  eapply wp_mono; [by apply (get_ref_wp _ _ _ _ _ _ _ _ A bgid); [lia|..]|]. cbv beta.
  intros [r|rc] f1.
  2: { intros [Hrc A1]. split; [by left|]. eapply (fabs_weaken _ _ _ _ _ _ _ _ A1); [lia|done..]. }
  intros (-> & _ & A1). pose proof (fabs_held _ _ _ _ _ _ _ _ A (desc_blk sb bgid)) as HD0.
  cbn [br_block br_off group_ref]. fs_step. fs_step; [by rewrite fupd_eq; lia|]. cbv zeta.
  apply (ialloc_group_wp n f1 sb ir l c h p bgid is_dir _ n' A1); try done; try lia.
  intros f2 A2 Hfull. rewrite u32_id by lia.
  apply (IH (n + 2) f2 sb ir l c h p (bgid + 1) rewind is_dir n'); try done; try lia.
  - unfold bg_count in *. destruct rewind; lia.
  - unfold turns_left in *. destruct rewind; lia.
  - intros g Hgg. destruct (Hseen g Hgg) as [Ha|]; [|by right].
    destruct (Z.eq_dec g bgid) as [->|]; [by right|]. left. unfold ahead in *. destruct rewind; lia.
Qed.

Lemma alloc_inode_wp n f sb ir l c h p is_dir n' :
  let N := ext4_block_group_cnt sb in
  fabs n f sb ir l c h p -> n + 2 * (N + 3) <= n' -> n' < 2 ^ 32 -> 0 < N < 2 ^ 32 -> 0 <= l <= N ->
  (forall g, 0 <= g < N -> igroup_ok sb p c g /\ ext4_inodes_in_group_cnt sb g < 2 ^ 32) ->
  wp (ext4_ialloc_alloc_inode is_dir) f (ialloc_answer n' sb ir l c h p is_dir).
Proof.
  intros N A Hn Hn' HN Hl Hok.
  unfold ext4_ialloc_alloc_inode. fs_step. fs_step. fs_step. apply wp_get.
  rewrite (fa_last _ _ _ _ _ _ _ _ A). fold N.
  apply (alloc_inode_loop_wp _ n f sb ir l c h p l false is_dir n'); try done; fold N; try lia.
  - unfold turns_left. lia.
  - intros g Hg. left. unfold ahead. lia.
Qed.
End IallocSpec.
