(* ===== verification/IallocProps.v ===== *)
(** * Properties of the inode allocator

    The effect of an allocation or of a free read back through the accessors of
    the rest of the driver: the map of used inodes changes by one inode, the
    counts of its group and of the superblock by one, all checksums verify again
    and nothing else changes. *)

From S2P Require Import Prelude Layout Types Bitmap Crc Super BlockGroup Inode Device Bcache CacheSpec CacheProps.
From S2P Require Import Trans Store Group Fs FsSpec GroupLaws Sample Ialloc IallocSpec.

(** ** Inode numbers *)

Record igeometry (sb : list Z) : Prop := {
  ie_ipg : 0 < sb_get sb_inodes_per_group sb;
  ie_groups : 0 < ext4_block_group_cnt sb < 2 ^ 32;
  ie_total : (ext4_block_group_cnt sb - 1) * sb_get sb_inodes_per_group sb
             < sb_get sb_inodes_count sb
             <= ext4_block_group_cnt sb * sb_get sb_inodes_per_group sb;
}.
(** The numbers the volume has inodes for. *)
Definition is_inode (sb : list Z) (ino : Z) : Prop := 1 <= ino <= sb_get sb_inodes_count sb.

Section Numbers.
Context (sb : list Z) (G : igeometry sb).
Local Abbreviation ipg := (sb_get sb_inodes_per_group sb).

Lemma inodes_in_group_bounds g :
  0 <= g < ext4_block_group_cnt sb ->
  ext4_inodes_in_group_cnt sb g = Z.min ipg (sb_get sb_inodes_count sb - g * ipg) /\
  0 < ext4_inodes_in_group_cnt sb g <= ipg.
Proof.
  destruct G as [H1 H2 H3]. intros Hg. sb_range sb_inodes_count sb. sb_range sb_inodes_per_group sb.
  unfold ext4_inodes_in_group_cnt. rewrite (u32_id (ext4_block_group_cnt sb - 1)) by lia.
  destruct (Z.ltb_spec g (ext4_block_group_cnt sb - 1)); [nia|].
  rewrite (u32_id (_ * _)) by nia. rewrite u32_id by nia. nia.
Qed.

Lemma inode_position ino :
  is_inode sb ino ->
  ext4_ialloc_get_bgid_of_inode sb ino = (ino - 1) / ipg /\
  ext4_ialloc_inode_to_bgidx sb ino = (ino - 1) mod ipg /\
  0 <= (ino - 1) / ipg < ext4_block_group_cnt sb.
Proof.
  unfold is_inode. destruct G as [H1 H2 H3]. intros Hi. sb_range sb_inodes_count sb.
  unfold ext4_ialloc_get_bgid_of_inode, ext4_ialloc_inode_to_bgidx. rewrite !u32_id by lia.
  split_and!; [done|done|apply Z.div_pos; lia|apply Z.div_lt_upper_bound; lia].
Qed.

Lemma inode_of_index g i :
  0 <= g < ext4_block_group_cnt sb -> 0 <= i < ext4_inodes_in_group_cnt sb g ->
  let ino := ext4_ialloc_bgidx_to_inode sb i g in
  is_inode sb ino /\ ext4_ialloc_get_bgid_of_inode sb ino = g /\
  ext4_ialloc_inode_to_bgidx sb ino = i.
Proof.
  intros Hg Hi. cbv zeta. destruct (inodes_in_group_bounds g Hg) as [E Hb]. destruct G as [H1 H2 H3].
  sb_range sb_inodes_count sb.
  assert (Eino : ext4_ialloc_bgidx_to_inode sb i g = g * ipg + (i + 1)).
  { unfold ext4_ialloc_bgidx_to_inode. apply u32_id. nia. }
  rewrite Eino. assert (Hin : is_inode sb (g * ipg + (i + 1))) by (unfold is_inode; nia).
  destruct (inode_position _ Hin) as (-> & -> & _). split; [done|].
  replace (g * ipg + (i + 1) - 1) with (i + g * ipg) by lia.
  rewrite Z.div_add, Z.mod_add, Z.div_small, Z.mod_small by lia. lia.
Qed.

Lemma inode_position_inj a b :
  is_inode sb a -> is_inode sb b ->
  ext4_ialloc_get_bgid_of_inode sb a = ext4_ialloc_get_bgid_of_inode sb b ->
  ext4_ialloc_inode_to_bgidx sb a = ext4_ialloc_inode_to_bgidx sb b -> a = b.
Proof.
  intros Ha Hb. destruct (inode_position a Ha) as (-> & -> & _), (inode_position b Hb) as (-> & -> & _).
  intros E1 E2. destruct G as [H1 _ _].
  pose proof (Z.div_mod (a - 1) ipg ltac:(lia)). pose proof (Z.div_mod (b - 1) ipg ltac:(lia)).
  rewrite E1, E2 in *. lia.
Qed.

Lemma inode_index_bound ino : is_inode sb ino -> 0 <= ext4_ialloc_inode_to_bgidx sb ino < ipg.
Proof. intros Hi. destruct (inode_position ino Hi) as (_ & -> & _). apply Z.mod_pos_bound, G. Qed.
End Numbers.

(** ** The effect on one group *)

Definition ino_used (sb : list Z) (c : Z -> list Z) (ino : Z) : bool :=
  let g := ext4_ialloc_get_bgid_of_inode sb ino in
  bit_at (c (imp_blk sb g (c (desc_blk sb g)))) (ext4_ialloc_inode_to_bgidx sb ino).

(** [c'] is [c] with the inode bitmap of group [g] taken through [gf] and its
    descriptor through the setters [l]. *)
Record imoved (sb : list Z) (g : Z) (gf : list Z -> list Z) (l : list bg_op)
    (c c' : Z -> list Z) : Prop := {
  im_bitmap : c' (imp_blk sb g (c (desc_blk sb g))) = gf (c (imp_blk sb g (c (desc_blk sb g))));
  im_desc : bg_abs sb (desc_off sb g) (c' (desc_blk sb g)) =
            fold_left (fun d o => step_bg sb o d) l (bg_abs sb (desc_off sb g) (c (desc_blk sb g)));
  im_desc_out j : 0 <= j -> j < desc_off sb g \/ desc_off sb g + bg_size sb <= j ->
    byte_at (c' (desc_blk sb g)) j = byte_at (c (desc_blk sb g)) j;
  im_bmp_csum : ext4_ialloc_verify_bitmap_csum sb (desc_off sb g)
    (c' (imp_blk sb g (c (desc_blk sb g)))) (c' (desc_blk sb g)) = true;
  im_desc_csum : ext4_fs_verify_bg_csum sb g (desc_off sb g) (c' (desc_blk sb g)) = true;
  im_else x : x <> imp_blk sb g (c (desc_blk sb g)) -> x <> desc_blk sb g -> c' x = c x;
}.

Section OneGroup.
Context (sb : list Z) (bsz g : Z) (gf : list Z -> list Z) (l : list bg_op) (c : Z -> list Z).
Context (DG : desc_geometry sb bsz) (Hg : 0 <= g) (Hlen : forall a, blen (c a) = bsz).
Context (Hl : forallb bg_op_ok l = true).
Local Abbreviation D := (desc_blk sb g).
Local Abbreviation off := (desc_off sb g).
Local Abbreviation B := (imp_blk sb g (c D)).
Context (HBD : B <> D).

Let d1 := ext4_ialloc_set_bitmap_csum sb off (gf (c B)) (c D).
Let d2 := run_bg_ops sb off l d1.

Lemma blen_id1 : blen d1 = bsz.
Proof.
  unfold d1, ext4_ialloc_set_bitmap_csum. rewrite (proj1 (keeps_csum_halves _ _ _ _ _ _)). apply Hlen.
Qed.
Lemma blen_id2 : blen d2 = bsz.
Proof. unfold d2. rewrite (proj1 (keeps_bg_ops _ _ _ _)). apply blen_id1. Qed.

Lemma inode_bits_moved : imoved sb g gf l c (inode_bits_through sb g gf l c).
Proof.
  destruct (desc_off_bound sb bsz g DG Hg) as [Ho1 Ho2].
  pose proof (bg_size_desc sb bsz DG) as Hsz. destruct DG as [_ Hds].
  assert (ED : inode_bits_through sb g gf l c D = seal sb g off d2).
  { unfold inode_bits_through. by rewrite fupd_eq. }
  assert (EB : inode_bits_through sb g gf l c B = gf (c B)).
  { unfold inode_bits_through. by rewrite fupd_ne, fupd_eq. }
  split; rewrite ?ED, ?EB; try done.
  - unfold seal. rewrite bg_abs_wr_checksum by done. unfold d2.
    rewrite bg_ops_abs by (rewrite ?blen_id1; first [done | lia]). f_equal. by apply bg_abs_set_icsum.
  - intros j Hj Ho. rewrite seal_out by done. unfold d2.
    rewrite bg_ops_out by (rewrite ?blen_id1; first [done | lia]).
    apply (set_halves_out bg_inode_bitmap_csum_lo bg_inode_bitmap_csum_hi sb off) with (n := bg_size sb);
      first [done | lia].
  - unfold ext4_ialloc_verify_bitmap_csum.
    rewrite (verify_halves_ext bg_inode_bitmap_csum_lo bg_inode_bitmap_csum_hi sb off _ d1).
    + apply verify_set_halves; try done; [apply ialloc_csum_range|]. rewrite Hlen. lia.
    + unfold seal. rewrite rd_wr_ne by done. by apply rd_bg_ops.
    + unfold seal. rewrite rd_wr_ne by done. by apply rd_bg_ops.
  - apply bg_verify_stored; [done|]. rewrite blen_id2. lia.
  - intros x H1 H2. unfold inode_bits_through. by rewrite !fupd_ne.
Qed.
End OneGroup.

(** ** The map of used inodes *)

(** The numbers of groups and inodes agree ([igeometry]), descriptors have 32 or 64
    bytes, a bitmap has a bit for every inode of its group, and the inode bitmaps and
    descriptors do not overlap.  Whether the bitmaps are initialised is a hypothesis of
    each theorem. *)
Record ilayout (bsz : Z) (sb : list Z) (p : gset Z) (c : Z -> list Z) : Prop := {
  il_geometry : igeometry sb;
  il_desc_geometry : desc_geometry sb bsz;
  il_bits : sb_get sb_inodes_per_group sb <= 8 * bsz;
  il_group g : 0 <= g < ext4_block_group_cnt sb -> igroup_apart sb p c g;
  il_bmp g g' : 0 <= g < ext4_block_group_cnt sb -> 0 <= g' < ext4_block_group_cnt sb -> g <> g' ->
    imp_blk sb g (c (desc_blk sb g)) <> imp_blk sb g' (c (desc_blk sb g'));
  il_bmp_desc g g' : 0 <= g < ext4_block_group_cnt sb -> 0 <= g' < ext4_block_group_cnt sb ->
    imp_blk sb g (c (desc_blk sb g)) <> desc_blk sb g';
  il_desc g g' : 0 <= g < ext4_block_group_cnt sb -> 0 <= g' < ext4_block_group_cnt sb -> g <> g' ->
    desc_blk sb g = desc_blk sb g' -> apart (desc_off sb g) (bg_size sb) (desc_off sb g') (bg_size sb);
}.

Section Map.
Context (bsz : Z) (sb : list Z) (p : gset Z) (g : Z) (gf : list Z -> list Z) (l : list bg_op).
Context (c c' : Z -> list Z).
Context (L : ilayout bsz sb p c) (Hg : 0 <= g < ext4_block_group_cnt sb) (Mv : imoved sb g gf l c c').
Context (Hl : forall d, d_inode_bitmap (fold_left (fun d o => step_bg sb o d) l d) = d_inode_bitmap d).

(** The descriptors of the other groups are what they were. *)
Lemma imoved_desc_other g' :
  0 <= g' < ext4_block_group_cnt sb -> g' <> g ->
  bg_abs sb (desc_off sb g') (c' (desc_blk sb g')) = bg_abs sb (desc_off sb g') (c (desc_blk sb g')).
Proof.
  intros Hg' Hne. apply bg_abs_ext. intros j Hj.
  assert (H0 : 0 <= desc_off sb g') by apply u32_range.
  destruct (Z.eq_dec (desc_blk sb g') (desc_blk sb g)) as [E|E].
  - rewrite E. apply (im_desc_out _ _ _ _ _ _ Mv); [lia|].
    pose proof (il_desc _ _ _ _ L g g' Hg Hg' ltac:(lia) (eq_sym E)) as Ha. unfold apart in Ha. lia.
  - f_equal. apply (im_else _ _ _ _ _ _ Mv); [|done].
    intros Hx. apply (il_bmp_desc _ _ _ _ L g g' Hg Hg'). by rewrite Hx.
Qed.

Lemma imoved_bmp g' :
  0 <= g' < ext4_block_group_cnt sb ->
  imp_blk sb g' (c' (desc_blk sb g')) = imp_blk sb g' (c (desc_blk sb g')).
Proof.
  intros Hg'. change (d_inode_bitmap (bg_abs sb (desc_off sb g') (c' (desc_blk sb g'))) =
                      d_inode_bitmap (bg_abs sb (desc_off sb g') (c (desc_blk sb g')))).
  destruct (Z.eq_dec g' g) as [->|Hne]; [|by rewrite imoved_desc_other].
  rewrite (im_desc _ _ _ _ _ _ Mv). apply Hl.
Qed.

Lemma imoved_used b :
  is_inode sb b ->
  ino_used sb c' b =
  if ext4_ialloc_get_bgid_of_inode sb b =? g
  then bit_at (gf (c (imp_blk sb g (c (desc_blk sb g))))) (ext4_ialloc_inode_to_bgidx sb b)
  else ino_used sb c b.
Proof.
  intros Hb. destruct (inode_position sb (il_geometry _ _ _ _ L) b Hb) as (Eg & _ & Hgb).
  rewrite <- Eg in Hgb. unfold ino_used. set (g' := ext4_ialloc_get_bgid_of_inode sb b) in *.
  rewrite imoved_bmp by done. destruct (Z.eqb_spec g' g) as [->|Hne].
  - by rewrite (im_bitmap _ _ _ _ _ _ Mv).
  - f_equal. apply (im_else _ _ _ _ _ _ Mv); [by apply (il_bmp _ _ _ _ L)|by apply (il_bmp_desc _ _ _ _ L)].
Qed.
End Map.

Lemma alloc_ops_bitmap sb d i cnt is_dir d0 :
  d_inode_bitmap (fold_left (fun d o => step_bg sb o d) (alloc_ops d i cnt is_dir) d0) = d_inode_bitmap d0.
Proof. unfold alloc_ops. by destruct is_dir, (u32 (cnt - d_itable_unused d) <=? i), d0. Qed.
Lemma free_ops_bitmap sb d is_dir d0 :
  d_inode_bitmap (fold_left (fun d o => step_bg sb o d) (free_ops d is_dir) d0) = d_inode_bitmap d0.
Proof. unfold free_ops. by destruct is_dir, d0. Qed.

Section Effect.
Context (bsz : Z) (sb : list Z) (p : gset Z) (c : Z -> list Z) (L : ilayout bsz sb p c).
Context (Hlen : forall a, blen (c a) = bsz).

(** One bit of the bitmap, set or cleared. *)
Lemma inode_bit_map ino gf l (v : bool) :
  is_inode sb ino -> keeps gf -> forallb bg_op_ok l = true ->
  (forall d, d_inode_bitmap (fold_left (fun d o => step_bg sb o d) l d) = d_inode_bitmap d) ->
  let g := ext4_ialloc_get_bgid_of_inode sb ino in
  let i := ext4_ialloc_inode_to_bgidx sb ino in
  (forall bm j, 0 <= i < 8 * blen bm -> 0 <= j -> bit_at (gf bm) j = if i =? j then v else bit_at bm j) ->
  let c' := inode_bits_through sb g gf l c in
  imoved sb g gf l c c' /\
  forall b, is_inode sb b -> ino_used sb c' b = if b =? ino then v else ino_used sb c b.
Proof.
  intros Hi Hk Hl Hb. cbv zeta. intros Hgf. pose proof L as [G DG Hbits Hok _ Hbd _].
  destruct (inode_position sb G ino Hi) as (Eg & _ & Hg). rewrite <- Eg in Hg.
  set (g := ext4_ialloc_get_bgid_of_inode sb ino) in *.
  assert (Mv : imoved sb g gf l c (inode_bits_through sb g gf l c)).
  { apply (inode_bits_moved sb bsz); try done; [lia|by apply Hbd]. }
  split; [done|]. intros b Hbi. rewrite (imoved_used bsz sb p g gf l c _ L Hg Mv Hb b Hbi).
  pose proof (inode_index_bound sb G ino Hi). pose proof (inode_index_bound sb G b Hbi).
  destruct (Z.eqb_spec (ext4_ialloc_get_bgid_of_inode sb b) g) as [Egg|Egg].
  - rewrite Hgf by (rewrite ?Hlen; lia). unfold ino_used. rewrite Egg.
    destruct (Z.eqb_spec (ext4_ialloc_inode_to_bgidx sb ino) (ext4_ialloc_inode_to_bgidx sb b)) as [Ei|Ei].
    + replace (b =? ino) with true; [done|]. symmetry. apply Z.eqb_eq.
      by apply (inode_position_inj sb G).
    + destruct (Z.eqb_spec b ino) as [->|]; done.
  - destruct (Z.eqb_spec b ino) as [->|]; done.
Qed.
End Effect.

(** ** Properties *)

(** C18: allocating an inode.  Conditions: the inode bitmaps and descriptors lie apart,
    no store to them is pending ([ilayout]), and the bitmaps of EVERY group are
    initialised ([Hready]: fetching a group with an UNINIT flag writes its bitmaps and
    its inode table, which is not claimed here).  From any group up to the number of
    groups as the last one used, [ext4_ialloc_alloc_inode] either fails, contents, superblock and handles as they were (ENOSPC, unless the
    store says it, means that no group whose count and checksum admit it has a free
    inode), or returns an inode that was free: the map of used inodes has it more and
    is otherwise the same, the free counts of group and superblock are one less, the
    directory count one more for a directory, the count of unused inodes is adjusted,
    the checksums verify, every block but the bitmap's and the descriptor's has its old
    contents, and the group is remembered. *)
Theorem alloc_inode_takes_one_free_inode
    {St : Type} {BS : BlockStore St} {bsz : Z} {BL : BlockStoreLaws St bsz}
    (n : Z) (f : fsys St) (sb : list Z) (ir : inode_ref) (l : Z)
    (c : Z -> list Z) (h : Z -> Z) (p : gset Z) (is_dir : bool)
    (Hf : fabs (bsz := bsz) n f sb ir l c h p) (L : ilayout bsz sb p c)
    (Hready : forall g, 0 <= g < ext4_block_group_cnt sb -> group_ready sb g (c (desc_blk sb g)) = true)
    (Hl : 0 <= l <= ext4_block_group_cnt sb)
    (Hn : n + 2 * (ext4_block_group_cnt sb + 3) < 2 ^ 32) :
  let n' := n + 2 * (ext4_block_group_cnt sb + 3) in
  let '(x, f') := ext4_ialloc_alloc_inode is_dir f in
  match x with
  | Ok ino =>
      let g := ext4_ialloc_get_bgid_of_inode sb ino in
      let i := ext4_ialloc_inode_to_bgidx sb ino in
      is_inode sb ino /\ ino_used sb c ino = false /\
      exists c',
        fabs (bsz := bsz) n' f' (sb_inodes_moved (-1) sb) ir g c' h p /\
        (forall b, is_inode sb b -> ino_used sb c' b = (b =? ino) || ino_used sb c b) /\
        imoved sb g (fun bm => ext4_bmap_bit_set bm i)
          (alloc_ops (bg_abs sb (desc_off sb g) (c (desc_blk sb g))) i
             (ext4_inodes_in_group_cnt sb g) is_dir) c c'
  | Err rc =>
      rc <> EOK /\ fabs (bsz := bsz) n' f' sb ir l c h p /\
      (rc = ENOSPC -> (exists a s, fst (bs_get a s) = Err rc) \/
                      forall g, 0 <= g < ext4_block_group_cnt sb -> ifull sb c g)
  end.
Proof.
  cbv zeta. pose proof L as [G DG Hbits Hok _ _ _].
  assert (Hok' : forall g, 0 <= g < ext4_block_group_cnt sb ->
            igroup_ok sb p c g /\ ext4_inodes_in_group_cnt sb g < 2 ^ 32).
  { intros g Hg. split; [by split; [apply Hok|apply Hready]|]. destruct (inodes_in_group_bounds sb G g Hg) as [_ ?].
    sb_range sb_inodes_per_group sb. lia. }
  pose proof (alloc_inode_wp n f sb ir l c h p is_dir _ Hf (Z.le_refl _) Hn (ie_groups _ G) Hl Hok') as H.
  unfold wp in H. destruct (ext4_ialloc_alloc_inode is_dir f) as [[ino|rc] f'].
  2: { destruct H as [[[Hrc Hs]|[-> Hfull]] A]; split_and!; auto. }
  destruct H as (g & i & Hg & (Hi & Hclr & _) & -> & A).
  destruct (inode_of_index sb G g i Hg Hi) as (Hino & Eg & Ei).
  set (ino := ext4_ialloc_bgidx_to_inode sb i g) in *. rewrite Eg, Ei. split; [done|]. split.
  { rewrite is_bit_clr_bit_at in Hclr by lia. apply negb_true_iff in Hclr.
    unfold ino_used. by rewrite Eg, Ei. }
  eexists. split; [exact A|].
  pose proof (inode_bit_map bsz sb p c L (fabs_len _ _ _ _ _ _ _ _ Hf) ino
    (fun bm => ext4_bmap_bit_set bm i) _ true Hino (keeps_bit_set _)
    (alloc_ops_ok (bg_abs sb (desc_off sb g) (c (desc_blk sb g))) i (ext4_inodes_in_group_cnt sb g) is_dir)
    (alloc_ops_bitmap _ _ _ _ _)) as M. cbv zeta in M. rewrite Eg, Ei in M.
  destruct M as [Mv Hu]; [intros bm j Hb Hj; rewrite bit_at_bit_set by lia; by destruct (i =? j)|].
  split; [|done]. intros b Hb. rewrite Hu by done. by destruct (b =? ino).
Qed.

(** C20: freeing an inode.  Conditions: the inode bitmaps and descriptors lie apart,
    no store to them is pending ([ilayout]), and the bitmaps of the inode's own group
    are initialised ([Hready]: fetching a group with an UNINIT flag writes its bitmaps
    and its inode table).  [ext4_ialloc_free_inode] of an inode of the volume
    either fails, or clears exactly that inode's bit: the map of used inodes loses
    it and nothing else, the free counts of group and superblock are one more,
    the directory count one less for a directory, checksums verify and every
    other block has its old contents.  A failure changes neither contents nor
    superblock, but the handle on the group's descriptor may stay taken: the path
    on which the bitmap cannot be read does not give it back. *)
Theorem free_inode_frees_it
    {St : Type} {BS : BlockStore St} {bsz : Z} {BL : BlockStoreLaws St bsz}
    (n : Z) (f : fsys St) (sb : list Z) (ir : inode_ref) (l : Z)
    (c : Z -> list Z) (h : Z -> Z) (p : gset Z) (ino : Z) (is_dir : bool)
    (Hf : fabs (bsz := bsz) n f sb ir l c h p) (L : ilayout bsz sb p c)
    (Hready : let g := ext4_ialloc_get_bgid_of_inode sb ino in group_ready sb g (c (desc_blk sb g)) = true)
    (Hi : is_inode sb ino) (Hn : n + 2 < 2 ^ 32) :
  let g := ext4_ialloc_get_bgid_of_inode sb ino in
  let i := ext4_ialloc_inode_to_bgidx sb ino in
  let D := desc_blk sb g in
  let '(x, f') := ext4_ialloc_free_inode ino is_dir f in
  match x with
  | Ok _ =>
      exists c',
        fabs (bsz := bsz) (n + 2) f' (sb_inodes_moved 1 sb) ir l c' h p /\
        (forall b, is_inode sb b -> ino_used sb c' b = negb (b =? ino) && ino_used sb c b) /\
        imoved sb g (fun bm => ext4_bmap_bit_clr bm i)
          (free_ops (bg_abs sb (desc_off sb g) (c D)) is_dir) c c'
  | Err rc =>
      rc <> EOK /\ exists h', (h' = h \/ h' = fupd D (h D + 1) h) /\
        fabs (bsz := bsz) (n + 2) f' sb ir l c h' p
  end.
Proof.
  cbv zeta. pose proof L as [G DG Hbits Hok _ _ _].
  destruct (inode_position sb G ino Hi) as (Eg & _ & Hg). rewrite <- Eg in Hg.
  pose proof (free_inode_wp n f sb ir l c h p ino is_dir Hf Hn (Build_igroup_ok _ _ _ _ (Hok _ Hg) Hready)) as H. cbv zeta in H.
  unfold wp in H. destruct (ext4_ialloc_free_inode ino is_dir f) as [[[]|rc] f'].
  2: { destruct H as [[Hrc _] [A|A]]; (split; [done|]); eexists; (split; [|exact A]); auto. }
  destruct H as [_ A]. eexists. split; [exact A|].
  pose proof (inode_bit_map bsz sb p c L (fabs_len _ _ _ _ _ _ _ _ Hf) ino
    (fun bm => ext4_bmap_bit_clr bm (ext4_ialloc_inode_to_bgidx sb ino)) _ false Hi (keeps_bit_clr _)
    (free_ops_ok (bg_abs sb (desc_off sb (ext4_ialloc_get_bgid_of_inode sb ino))
       (c (desc_blk sb (ext4_ialloc_get_bgid_of_inode sb ino)))) is_dir) (free_ops_bitmap _ _ _)) as M.
  cbv zeta in M.
  destruct M as [Mv Hu]; [intros bm j Hb Hj; rewrite bit_at_bit_clr by lia; by case_match|].
  split; [|exact Mv]. intros b Hb. rewrite Hu by done. by destruct (b =? ino).
Qed.

(** ** The sample volume *)

Lemma vol_idesc g : 0 <= g < ext4_block_group_cnt vol_sb ->
  desc_blk vol_sb g = 2 /\ imp_blk vol_sb g (vol_contents 2) = g + 6 /\
  desc_off vol_sb g = 32 * g /\ group_ready vol_sb g (vol_contents 2) = true /\
  (desc_off vol_sb g + bg_size vol_sb <=? blen (vol_contents 2)) = true.
Proof. intros [-> | ->]%vol_groups; vm_compute; done. Qed.

Lemma vol_ilayout : ilayout 1024 vol_sb ∅ vol_contents.
Proof.
  split.
  - split; [|split|split]; vm_compute; done.
  - split; [vm_compute; reflexivity|left; vm_compute; reflexivity].
  - vm_compute. discriminate.
  - intros g Hg. destruct (vol_idesc g Hg) as (E1 & E2 & E3 & E4 & E5).
    split; rewrite ?E1, ?E2; [apply not_elem_of_empty|apply not_elem_of_empty| |by apply Z.leb_le].
    destruct (vol_groups g Hg) as [-> | ->]; lia.
  - intros g g' Hg Hg' Hne. destruct (vol_idesc g Hg) as (-> & -> & _), (vol_idesc g' Hg') as (-> & -> & _). lia.
  - intros g g' Hg Hg'. destruct (vol_idesc g Hg) as (-> & -> & _), (vol_idesc g' Hg') as (-> & _).
    destruct (vol_groups g Hg) as [-> | ->]; lia.
  - intros g g' Hg Hg' Hne _. destruct (vol_idesc g Hg) as (_ & _ & -> & _), (vol_idesc g' Hg') as (_ & _ & -> & _).
    replace (bg_size vol_sb) with 32 by (vm_compute; reflexivity). unfold apart. lia.
Qed.

Lemma vol_iready g : 0 <= g < ext4_block_group_cnt vol_sb ->
  group_ready vol_sb g (vol_contents (desc_blk vol_sb g)) = true.
Proof. intros Hg. destruct (vol_idesc g Hg) as (-> & _ & _ & E & _). exact E. Qed.

Lemma alloc_inode_takes_one_free_inode_witness :
  fst (@ext4_ialloc_alloc_inode _ vol_store true vol_fs) = Ok 4 /\
  exists c', (forall b, is_inode vol_sb b ->
    ino_used vol_sb c' b = (b =? 4) || ino_used vol_sb vol_contents b) /\
    d_used_dirs (bg_abs vol_sb 0 (c' 2)) = 1 /\ d_free_inodes (bg_abs vol_sb 0 (c' 2)) = 49.
Proof.
  assert (E : fst (@ext4_ialloc_alloc_inode _ vol_store true vol_fs) = Ok 4) by (vm_compute; reflexivity).
  split; [exact E|].
  pose proof (alloc_inode_takes_one_free_inode (BL := vol_laws) 1 vol_fs vol_sb vol_iref 0 vol_contents
    vol_held ∅ true vol_fabs vol_ilayout vol_iready ltac:(split; vm_compute; discriminate) ltac:(vm_compute; reflexivity)) as H.
  cbv zeta in H. destruct (@ext4_ialloc_alloc_inode _ vol_store true vol_fs) as [x f']. cbn [fst] in E. subst x.
  destruct H as (_ & _ & c' & _ & Hu & Mv). exists c'. split; [exact Hu|].
  assert (Ed : bg_abs vol_sb 0 (c' 2) = mk_bgdesc 3 6 5 100 49 1 0 0).
  { etransitivity; [exact (im_desc _ _ _ _ _ _ Mv)|]. vm_compute. reflexivity. }
  rewrite Ed. by split.
Defined.

Lemma free_inode_frees_it_witness :
  fst (@ext4_ialloc_free_inode _ vol_store 2 false vol_fs) = Ok tt /\
  exists c', forall b, is_inode vol_sb b ->
    ino_used vol_sb c' b = negb (b =? 2) && ino_used vol_sb vol_contents b.
Proof.
  assert (E : fst (@ext4_ialloc_free_inode _ vol_store 2 false vol_fs) = Ok tt) by (vm_compute; reflexivity).
  split; [exact E|].
  pose proof (free_inode_frees_it (BL := vol_laws) 1 vol_fs vol_sb vol_iref 0 vol_contents
    vol_held ∅ 2 false vol_fabs vol_ilayout eq_refl ltac:(split; vm_compute; discriminate) ltac:(vm_compute; reflexivity)) as H.
  cbv zeta in H. destruct (@ext4_ialloc_free_inode _ vol_store 2 false vol_fs) as [x f']. cbn [fst] in E. subst x.
  destruct H as (c' & _ & Hu & _). by exists c'.
Defined.
