(* ===== verification/ExtTree.v ===== *)
(** * Changing extent trees

    The part of Core/lwext4/src/ext4_extent.c that changes a tree: entering an
    extent, with the splits and the growth that make room for it, removing a range,
    and changing the state of a range.

    [struct ext4_extent_path *path] is a list of levels that the code changes in
    place, so an operation that changes it returns it.  A level that was given back
    has [pt_lb_id] 0.  Memory for paths is always there. *)

From S2P Require Import Prelude Layout Types Super Inode ExtNode Store Group Fs Extent Balloc.

Definition EXT4_EXT_MARK_UNWRIT1 : Z := 2.
Definition EXT4_EXT_MARK_UNWRIT2 : Z := 4.

Definition no_level : ext_path := mk_ext_path 0 0 0 0 0 None None.
Definition level_at (path : list ext_path) (i : nat) : ext_path := List.nth i path no_level.
Definition set_index (i : option Z) (l : ext_path) : ext_path :=
  mk_ext_path (pt_lb_id l) (pt_buf l) (pt_header l) (pt_p_block l) (pt_depth l) i (pt_extent l).
Definition set_extent (x : option Z) (pblk : Z) (l : ext_path) : ext_path :=
  mk_ext_path (pt_lb_id l) (pt_buf l) (pt_header l) pblk (pt_depth l) (pt_index l) x.
Definition given_back (l : ext_path) : ext_path :=
  mk_ext_path 0 (pt_buf l) (pt_header l) (pt_p_block l) (pt_depth l) (pt_index l) (pt_extent l).
(** The byte of the entry a level points at. *)
Definition cur_index (l : ext_path) : Z := ext_entry (pt_header l) (default 0 (pt_index l)).
Definition cur_extent (l : ext_path) : Z := ext_entry (pt_header l) (default 0 (pt_extent l)).

Section ExtTree.
Context {St : Type} {BS : BlockStore St}.
Local Abbreviation fsys := (fsys St).

(** The levels given back, as the array then reads. *)
Definition drop_refs (path : list ext_path) : M fsys (list ext_path) :=
  ext4_ext_drop_refs path false;;; mok (map given_back path).

(** ** Blocks for nodes *)

Definition ext4_fs_inode_to_goal_block : M fsys Z :=
  sb <- mget f_sb;;
  r <- mget f_iref;;
  mok (u32 (ir_index r - 1) / sb_get sb_inodes_per_group sb).

Definition ext4_ext_find_goal (path : list ext_path) (block : Z) : M fsys Z :=
  let l := path_leaf path in
  match pt_extent l with
  | Some k =>
      b <- data (pt_buf l);;
      let ext_pblk := ext4_ext_pblock (cur_extent l) b in
      let ext_block := rd ex_first_block (cur_extent l) b in
      mok (if ext_block <? block then u64 (ext_pblk + u32 (block - ext_block))
           else u64 (ext_pblk - u32 (ext_block - block)))
  | None => if negb (pt_lb_id l =? 0) then mok (pt_lb_id l) else ext4_fs_inode_to_goal_block
  end.

(** [ext4_new_meta_blocks] gives one block, whatever is asked for. *)
Definition ext4_new_meta_blocks (goal : Z) : M fsys Z := ext4_balloc_alloc_block goal.
Definition ext4_ext_new_meta_block (path : list ext_path) (first : Z) : M fsys Z :=
  goal <- ext4_ext_find_goal path first;;
  ext4_new_meta_blocks goal.
Definition ext4_ext_free_blocks (block count : Z) : M fsys unit :=
  mtry (ext4_balloc_free_blocks block count);;; mok tt.

Definition inode_dirty : M fsys unit :=
  mmod (fun f => let r := f_iref f in f_set_iref (mk_inode_ref (ir_block r) (ir_off r) (ir_index r) true) f).
Definition ext4_ext_dirty (l : ext_path) : M fsys unit :=
  if negb (pt_lb_id l =? 0) then mtry (on_st (bs_dirty (pt_lb_id l)));;; mok tt else inode_dirty.

(** ** Entering an index *)

(** The level with the node changed, pointing at the new entry if [set_to_ix]. *)
Definition ext4_ext_insert_index (l : ext_path) (insert_index insert_block : Z) (set_to_ix : bool)
  : M fsys ext_path :=
  let p := pt_header l in
  b <- data (pt_buf l);;
  let same := match pt_index l with
              | Some k => insert_index =? rd ix_first_block (ext_entry p k) b
              | None => false
              end in
  if same then mfail EIO
  else if rd eh_entries_count p b =? rd eh_max_entries_count p b then mfail EIO
  else
    let ix := match pt_index l with
              | None => 0
              | Some k => if rd ix_first_block (ext_entry p k) b <? insert_index then k + 1 else k
              end in
    if EXT_MAX_EXTENT p b <? ix then mfail EIO
    else
      let len := EXT_LAST_EXTENT p b - ix + 1 in
      store (pt_buf l) (fun b =>
        let b := if 0 <? len then entries_move p (ix + 1) ix len b else b in
        let b := wr ix_first_block (ext_entry p ix) insert_index b in
        let b := ext4_idx_store_pblock (ext_entry p ix) insert_block b in
        wr eh_entries_count p (rd eh_entries_count p b + 1) b);;;
      b <- data (pt_buf l);;
      if EXT_LAST_EXTENT p b <? ix then mfail EIO
      else
        ext4_ext_dirty l;;;
        mok (if set_to_ix
             then mk_ext_path (pt_lb_id l) (pt_buf l) p (ext4_idx_pblock (ext_entry p ix) b) (pt_depth l)
                    (Some ix) (pt_extent l)
             else match pt_index l with None => set_index (Some 0) l | Some _ => l end).

(** ** Splitting *)

(** Entries [from .. from + n) of the node [l], copied to the fresh node [nb] from
    its entry [to] on. *)
Definition copy_entries (l : ext_path) (from n : Z) (nb to : Z) : M fsys unit :=
  b <- data (pt_buf l);;
  store nb (memcpy_at (ext_entry 0 to) (slice (ext_entry (pt_header l) from) (EXT_EXTENT_SIZE * n) b)).
Definition add_count (a p n : Z) : M fsys unit :=
  store a (fun b => wr eh_entries_count p (rd eh_entries_count p b + n) b).

(** Levels that were split off, given back and freed, the leaf first. *)
Fixpoint free_levels (levels : list ext_path) : M fsys unit :=
  match levels with
  | [] => mok tt
  | l :: levels =>
      (if negb (pt_lb_id l =? 0) then
         mtry (on_st (bs_set (pt_lb_id l)));;;
         ext4_ext_free_blocks (pt_lb_id l) 1
       else mok tt);;;
      free_levels levels
  end.

(** The block a level's right half goes to, cleared. *)
Definition split_block (path : list ext_path) (first : Z) : M fsys Z :=
  newblock <- ext4_ext_new_meta_block path first;;
  or_else (on_st (bs_get_noread newblock))
    (if negb (newblock =? 0) then ext4_ext_free_blocks newblock 1 else mok tt);;;
  sb <- mget f_sb;;
  store newblock (memset_at 0 0 (ext4_sb_get_block_size sb));;;
  mok newblock.

Definition split_leaf (path : list ext_path) (first : Z) : M fsys ext_path :=
  let l := path_leaf path in
  nb <- split_block path first;;
  sb <- mget f_sb;;
  root_depth <- ext_depth;;
  b <- data (pt_buf l);;
  let m := EXT_MAX_EXTENT (pt_header l) b - default 0 (pt_extent l) in
  store nb (ext4_ext_init_header sb root_depth 0 0);;;
  level <- (if negb (m =? 0) then
     copy_entries l (default 0 (pt_extent l) + 1) m nb 0;;;
     add_count nb 0 m;;;
     add_count (pt_buf l) (pt_header l) (- m);;;
     ext4_ext_dirty l;;;
     n <- data nb;;
     mok (mk_ext_path nb nb 0 (ext4_ext_pblock (ext_entry 0 0) n) 0 None (Some 0))
   else mok (mk_ext_path nb nb 0 0 0 None None));;
  mtry (on_st (bs_dirty nb));;;
  mok level.

(** Level [l], whose node is at height [height]; [below] is the block split off
    below it. *)
Definition split_index (path : list ext_path) (l : ext_path) (height first insert_index below : Z)
  : M fsys ext_path :=
  nb <- split_block path first;;
  sb <- mget f_sb;;
  root_depth <- ext_depth;;
  b <- data (pt_buf l);;
  let m := EXT_MAX_EXTENT (pt_header l) b - default 0 (pt_index l) in
  store nb (fun n =>
    let n := ext4_ext_init_header sb root_depth 0 height n in
    let n := wr ix_first_block (ext_entry 0 0) insert_index n in
    let n := ext4_idx_store_pblock (ext_entry 0 0) below n in
    wr eh_entries_count 0 1 n);;;
  (if negb (m =? 0) then
     copy_entries l (default 0 (pt_index l) + 1) m nb 1;;;
     add_count nb 0 m;;;
     add_count (pt_buf l) (pt_header l) (- m);;;
     ext4_ext_dirty l
   else mok tt);;;
  n <- data nb;;
  mtry (on_st (bs_dirty nb));;;
  mok (mk_ext_path nb nb 0 (ext4_idx_pblock (ext_entry 0 0) n) (rd eh_depth 0 n) (Some 0) None).

(** [for (i = depth; i >= at; i--)]: the levels above the leaf that are split, the
    lowest first; [npath] has the levels split off so far, the highest first. *)
Fixpoint split_levels (path above : list ext_path) (height first insert_index : Z) (npath : list ext_path)
  : M fsys (list ext_path) :=
  match above with
  | [] => mok npath
  | l :: above =>
      n <- or_else (split_index path l height first insert_index (pt_lb_id (level_at npath 0)))
             (free_levels (rev npath));;
      split_levels path above (height + 1) first insert_index (n :: npath)
  end.

(** The path, the levels split off from [at_] down, and whether the new extent goes
    to their side. *)
Definition ext4_ext_split_node (path : list ext_path) (at_ : nat) (newext : extent)
  : M fsys (list ext_path * list ext_path * bool) :=
  let leaf := path_leaf path in
  b <- data (pt_buf leaf);;
  let insert_index :=
    if negb (default 0 (pt_extent leaf) =? EXT_MAX_EXTENT (pt_header leaf) b)
    then rd ex_first_block (ext_entry (pt_header leaf) (default 0 (pt_extent leaf) + 1)) b
    else x_first newext in
  n <- split_leaf path (x_first newext);;
  let above := rev (drop at_ (removelast path)) in
  npath <- split_levels path above 1 (x_first newext) insert_index [n];;
  let ins_right_leaf := negb (x_first newext <? insert_index) in
  l <- or_else (ext4_ext_insert_index (level_at path (at_ - 1)) insert_index (pt_lb_id (level_at npath 0)) ins_right_leaf)
         (free_levels (rev npath));;
  mok (<[(at_ - 1)%nat := l]> path, npath, ins_right_leaf).

(** ** Entering an extent *)

(** [while (k--)]: the levels above, lowest first; [below] is the level under the
    first of them. *)
Fixpoint correct_loop (below : ext_path) (levels : list ext_path) (border : Z) : M fsys unit :=
  match levels with
  | [] => mok tt
  | l :: levels =>
      if negb (default 0 (pt_index below) =? 0) then mok tt
      else
        store (pt_buf l) (wr ix_first_block (cur_index l) border);;;
        ext4_ext_dirty l;;;
        correct_loop l levels border
  end.
Definition ext4_ext_correct_indexes (path : list ext_path) : M fsys unit :=
  let leaf := path_leaf path in
  match pt_extent leaf with
  | None => mfail EIO
  | Some k =>
      match rev (removelast path) with
      | [] => mok tt
      | l :: levels =>
          if negb (k =? 0) then mok tt
          else
            b <- data (pt_buf leaf);;
            let border := rd ex_first_block (cur_extent leaf) b in
            store (pt_buf l) (wr ix_first_block (cur_index l) border);;;
            ext4_ext_dirty l;;;
            correct_loop l levels border
      end
  end.

Definition set_leaf (path : list ext_path) (l : ext_path) : list ext_path := removelast path ++ [l].

(** [None]: the leaf is full and needs a split. *)
Definition ext4_ext_insert_leaf (path : list ext_path) (newext : extent) (no_combine : bool)
  : M fsys (option (list ext_path)) :=
  let l := path_leaf path in
  let p := pt_header l in
  b <- data (pt_buf l);;
  match leaf_insert_node p (pt_extent l) newext no_combine b with
  | LeafMerged k b' =>
      store (pt_buf l) (fun _ => b');;;
      ext4_ext_dirty l;;;
      mok (Some (set_leaf path (set_extent (Some k) (ext4_ext_pblock (ext_entry p k) b') l)))
  | LeafInserted k b' =>
      store (pt_buf l) (fun _ => b');;;
      ext4_ext_correct_indexes (set_leaf path (set_extent (Some (default 0 (pt_extent l))) (pt_p_block l) l));;;
      ext4_ext_dirty l;;;
      mok (Some (set_leaf path (set_extent (Some k) (ext4_ext_pblock (ext_entry p k) b') l)))
  | LeafFull => mok None
  | LeafRefused b' => store (pt_buf l) (fun _ => b');;; mfail EIO
  end.

(** The root moved to a block of its own, one level further down. *)
Definition ext4_ext_grow_indepth : M fsys unit :=
  let* (a, p) := ext_inode_hdr in
  root <- data a;;
  goal <- (if negb (rd eh_depth p root =? 0) then mok (ext4_idx_pblock (ext_entry p 0) root)
           else ext4_fs_inode_to_goal_block);;
  newblock <- ext4_new_meta_blocks goal;;
  if newblock =? 0 then mok tt
  else
    sb <- mget f_sb;;
    r <- mget f_iref;;
    or_else (on_st (bs_get_noread newblock)) (ext4_ext_free_blocks newblock 1);;;
    root <- data a;;
    let depth := rd eh_depth p root in
    store newblock (fun n =>
      let n := memset_at 0 0 (ext4_sb_get_block_size sb) n in
      let n := memcpy_at 0 (slice p (f_size ino_blocks) root) n in
      let n := wr eh_max_entries_count 0
                 (if negb (depth =? 0) then ext4_ext_space_block_idx sb else ext4_ext_space_block sb) n in
      let n := wr eh_magic 0 EXT4_EXTENT_MAGIC n in
      ext4_extent_block_csum_set sb (ir_index r) (ext4_inode_get_generation (ir_off r) root) 0 n);;;
    store a (fun b =>
      let b := wr eh_entries_count p 1 b in
      let b := ext4_idx_store_pblock (ext_entry p 0) newblock b in
      let b := if rd eh_depth p b =? 0 then
                 let b := wr eh_max_entries_count p ext4_ext_space_root_idx b in
                 wr ix_first_block (ext_entry p 0) (rd ex_first_block (ext_entry p 0) b) b
               else b in
      wr eh_depth p (rd eh_depth p b + 1) b);;;
    mtry (on_st (bs_dirty newblock));;;
    inode_dirty;;;
    mtry (on_st (bs_set newblock));;;
    mok tt.

(** [ext4_find_extent] with a path to reuse, which is given back unless the root is
    refused.  The error comes with the path if it still is one: after a failed read
    it was freed, all its levels given back. *)
Definition find_extent_again (path : list ext_path) (block : Z)
  : M fsys (list ext_path + Z * option (list ext_path)) :=
  let* (a, p) := ext_inode_hdr in
  depth <- ext_depth;;
  if EXT4_MAX_EXTENT_DEPTH <? depth then mok (inr (EIO, Some path))
  else
    sb <- mget f_sb;;
    b <- data a;;
    match ext4_ext_check sb depth p depth b with
    | Err rc => mok (inr (rc, Some path))
    | Ok _ =>
        drop_refs path;;;
        r <- find_extent_loop (Z.to_nat depth) block (mk_ext_path 0 a p 0 0 None None);;
        match r with
        | inl path => mok (inl path)
        | inr (rc, path) => ext4_ext_drop_refs path false;;; mok (inr (rc, None))
        end
    end.

(** How many levels have no room, from the leaf up: [levels] is the path, leaf
    first. *)
Fixpoint full_levels (levels : list ext_path) : M fsys nat :=
  match levels with
  | [] => mok O
  | l :: levels =>
      b <- data (pt_buf l);;
      if rd eh_entries_count (pt_header l) b <? rd eh_max_entries_count (pt_header l) b then mok O
      else n <- full_levels levels;; mok (S n)
  end.

(** [while (--level >= 0)]: the levels split off, lowest first, take the place of
    those they were split from ([i] is the place of the lowest), or are given back. *)
Fixpoint replace_levels (path : list ext_path) (i : nat) (npath : list ext_path) (to_right : bool)
  : M fsys (list ext_path) :=
  match npath with
  | [] => mok path
  | n :: npath =>
      if to_right then
        drop_level (level_at path i);;;
        replace_levels (<[i := n]> path) (i - 1) npath to_right
      else
        (if negb (pt_lb_id n =? 0) then drop_level n else mok tt);;;
        replace_levels path (i - 1) npath to_right
  end.

(** [goto again]: a leaf without room is split or the tree grows, and either makes
    room, so two turns are enough.  The path, or the error and the path if it was
    not freed; it was given back then. *)
Fixpoint insert_extent_loop (fuel : nat) (path : list ext_path) (newext : extent) (no_combine : bool)
  : M fsys (list ext_path + Z * option (list ext_path)) :=
  let give_back (path : list ext_path) (rc : Z) :=
    path <- drop_refs path;; mok (inr (rc, Some path)) in
  r <- mtry (ext4_ext_insert_leaf path newext no_combine);;
  match r, fuel with
  | Ok (Some path), _ => mok (inl path)
  | Err rc, _ => give_back path rc
  | Ok None, O => mok (inr (EIO, Some path))
  | Ok None, S fuel =>
      level <- full_levels (rev path);;
      grown <- (if (length path <=? level)%nat then
         r <- mtry ext4_ext_grow_indepth;;
         match r with
         | Err rc => r <- give_back path rc;; mok (inr r)
         | Ok _ =>
             r <- find_extent_again path (x_first newext);;
             match r with
             | inr (rc, Some path) => r <- give_back path rc;; mok (inr r)
             | inr (rc, None) => mok (inr (inr (rc, None)))
             | inl path' => mok (inl (path', (level - 1)%nat))
             end
         end
       else mok (inl (path, level)));;
      match grown with
      | inr r => mok r
      | inl (path, level) =>
          match level with
          | O => insert_extent_loop fuel path newext no_combine
          | S _ =>
              let at_ := (length path - level)%nat in
              r <- mtry (ext4_ext_split_node path at_ newext);;
              match r with
              | Err rc => give_back path rc
              | Ok (path, npath, to_right) =>
                  path <- replace_levels path (length path - 1) (rev npath) to_right;;
                  insert_extent_loop fuel path newext no_combine
              end
          end
      end
  end.
Definition ext4_ext_insert_extent (path : list ext_path) (newext : extent) (no_combine : bool)
  : M fsys (list ext_path + Z * option (list ext_path)) := insert_extent_loop 2 path newext no_combine.
End ExtTree.
