(* ===== verification/ExtRemove.v ===== *)
(** * Removing from extent trees, and changing the state of ranges

    The rest of Core/lwext4/src/ext4_extent.c: removing a range of blocks, turning
    unwritten extents into written ones, allocating the blocks of a hole, and
    preallocation. *)

From S2P Require Import Prelude Layout Types Super Inode ExtNode Store Group Fs Extent Balloc ExtTree.

(** [struct ext4_extent newex]: its start has 48 bits. *)
Definition new_extent (first count pblk : Z) (unwritten : bool) : extent :=
  mk_extent first (if unwritten then Z.lor count EXT_INIT_MAX_LEN else count) (Z.land pblk (2 ^ 48 - 1)).

Section ExtRemove.
Context {St : Type} {BS : BlockStore St}.
Local Abbreviation fsys := (fsys St).

(** ** Removing *)

(** The blocks [from .. to] of the extent at byte [e] of the leaf [l]. *)
Definition ext4_ext_remove_blocks (l : ext_path) (e from to : Z) : M fsys unit :=
  b <- data (pt_buf l);;
  let len := u32 (u32 (to - from) + 1) in
  let num := u32 (from - rd ex_first_block e b) in
  let start := u64 (ext4_ext_pblock e b + num) in
  ext4_ext_free_blocks start len.

(** [while (i > 0)]: the levels above, lowest first; an index at the front of its
    node passes its first block on. *)
Fixpoint remove_idx_loop (below : ext_path) (levels : list ext_path) : M fsys unit :=
  match levels with
  | [] => mok tt
  | l :: levels =>
      if negb (default 0 (pt_index below) =? 0) then mok tt
      else
        b <- data (pt_buf below);;
        let border := rd ix_first_block (cur_index below) b in
        store (pt_buf l) (wr ix_first_block (cur_index l) border);;;
        ext4_ext_dirty l;;;
        remove_idx_loop l levels
  end.
(** The entry the first level of [levels] points at, with the block it names;
    [levels] is the path from that level up. *)
Definition ext4_ext_remove_idx (levels : list ext_path) : M fsys unit :=
  match levels with
  | [] => mok tt
  | l :: above =>
      let p := pt_header l in
      let k := default 0 (pt_index l) in
      b <- data (pt_buf l);;
      let leaf := ext4_idx_pblock (ext_entry p k) b in
      store (pt_buf l) (fun b =>
        let last := EXT_LAST_EXTENT p b in
        let b := if negb (k =? last) then entries_move p k (k + 1) (last - k) b else b in
        wr eh_entries_count p (rd eh_entries_count p b - 1) b);;;
      ext4_ext_dirty l;;;
      ext4_ext_free_blocks leaf 1;;;
      remove_idx_loop l above
  end.

(** [while (ex <= EXT_LAST_EXTENT && first_block <= to)]: the entry after the last
    one looked at, the entry removal starts from, the entry the rest begins at if
    that was cut at its end, and the number of entries left. *)
Fixpoint remove_leaf_loop (fuel : nat) (l : ext_path) (from to ex start_ex : Z) (ex2 : option Z) (new_entries : Z)
  : M fsys (Z * Z * option Z * Z) :=
  match fuel with
  | O => mok (ex, start_ex, ex2, new_entries)
  | S fuel =>
      let p := pt_header l in
      b <- data (pt_buf l);;
      if (EXT_LAST_EXTENT p b <? ex) || (to <? rd ex_first_block (ext_entry p ex) b)
      then mok (ex, start_ex, ex2, new_entries)
      else
        let e := ext_entry p ex in
        let start := rd ex_first_block e b in
        let len := ext4_ext_get_actual_len e b in
        let newblock := ext4_ext_pblock e b in
        let '(len, new_len, new_start, start, newblock, start_ex, ex2) :=
          if start <? from then
            (i32 (len - (from - start)), i32 (from - start), start, from, newblock, start_ex + 1, ex2)
          else if to <? u32 (start + len - 1) then
            let new_len := i32 (start + len - 1 - to) in
            (len - new_len, new_len, u32 (to + 1), start, u64 (newblock + u32 (to + 1 - start)), start_ex, Some ex)
          else (len, 0, start, start, newblock, start_ex, ex2) in
        ext4_ext_remove_blocks l e start (u32 (start + len - 1));;;
        store (pt_buf l) (fun b =>
          let b := wr ex_first_block e new_start b in
          if new_len =? 0 then b
          else
            let unwritten := ext4_ext_is_unwritten e b in
            let b := wr ex_block_count e (u16 new_len) b in
            let b := ext4_ext_store_pblock e newblock b in
            if unwritten then ext4_ext_mark_unwritten e b else b);;;
        remove_leaf_loop fuel l from to (ex + 1) start_ex ex2
          (if new_len =? 0 then u16 (new_entries - 1) else new_entries)
  end.

(** The leaf at the end of the path: the path, with the index above moved on. *)
Definition ext4_ext_remove_leaf (path : list ext_path) (from to : Z) : M fsys (list ext_path) :=
  let l := path_leaf path in
  let p := pt_header l in
  let ex := default 0 (pt_extent l) in
  b <- data (pt_buf l);;
  r <- remove_leaf_loop (Z.to_nat (rd eh_entries_count p b)) l from to ex ex None (rd eh_entries_count p b);;
  let '(ex', start_ex, ex2, new_entries) := r in
  let ex2 := default ex' ex2 in
  store (pt_buf l) (fun b =>
    let last := EXT_LAST_EXTENT p b in
    let b := if ex2 <=? last then entries_move p start_ex ex2 (last - ex2 + 1) b else b in
    wr eh_entries_count p new_entries b);;;
  ext4_ext_dirty l;;;
  (if (ex =? 0) && negb (new_entries =? 0) then ext4_ext_correct_indexes path else mok tt);;;
  let above := rev (removelast path) in
  if (new_entries =? 0) && negb (pt_lb_id l =? 0) then ext4_ext_remove_idx above;;; mok path
  else match above with
       | [] => mok path
       | u :: _ =>
           let u := set_index (Some (default 0 (pt_index u) + 1)) u in
           mok (<[(length path - 2)%nat := u]> path)
       end.

Definition ext4_ext_more_to_rm (l : ext_path) (to : Z) : M fsys bool :=
  b <- data (pt_buf l);;
  let p := pt_header l in
  mok (negb (rd eh_entries_count p b =? 0) && (default 0 (pt_index l) <=? EXT_LAST_EXTENT p b) &&
       (rd ix_first_block (cur_index l) b <=? to)).

(** How the walk over the tree ends. *)
Inductive remove_end :=
| RemoveDone (rc : Z) (path : list ext_path)
| RemoveFailed (rc : Z) (path : list ext_path)
| RemoveAsserts
| RemoveMore.

(** [while (i >= 0)]; a turn that meets an empty leaf fails the assertion. *)
Fixpoint remove_loop (fuel : nat) (path : list ext_path) (depth : nat) (i : Z) (from to rc : Z) : M fsys remove_end :=
  match fuel with
  | O => mok RemoveMore
  | S fuel =>
      if i <? 0 then mok (RemoveDone rc path)
      else
        let n := Z.to_nat i in
        let l := level_at path n in
        let p := pt_header l in
        if (n =? depth)%nat then
          b <- data (pt_buf l);;
          if rd eh_entries_count p b =? 0 then mok RemoveAsserts
          else
            let last := ext_entry p (EXT_LAST_EXTENT p b) in
            let leaf_from := rd ex_first_block (ext_entry p 0) b in
            let leaf_to := u32 (rd ex_first_block last b + ext4_ext_get_actual_len last b - 1) in
            let leaf_from := if leaf_from <? from then from else leaf_from in
            let leaf_to := if to <? leaf_to then to else leaf_to in
            r <- mtry (ext4_ext_remove_leaf path leaf_from leaf_to);;
            let path := match r with Ok path => path | Err _ => path end in
            l <- drop_refs [level_at path n];;
            remove_loop fuel (<[n := level_at l 0]> path) depth (i - 1) from to rc
        else
          more <- ext4_ext_more_to_rm l to;;
          if (more : bool) then
            b <- data (pt_buf l);;
            let pblk := ext4_idx_pblock (cur_index l) b in
            let below := drop (S n) path in
            below <- (if negb (pt_lb_id (level_at path (S n)) =? 0) then drop_refs below else mok below);;
            let path := take (S n) path ++ below in
            r <- mtry (read_extent_tree_block pblk (Z.of_nat depth - i - 1) 0);;
            match r with
            | Err rc => mok (RemoveFailed rc path)
            | Ok _ =>
                let leaf := (S n =? depth)%nat in
                let child := mk_ext_path pblk pblk 0 (pt_p_block (level_at path (S n))) (Z.of_nat depth - i - 1)
                               (if leaf then pt_index (level_at path (S n)) else Some 0)
                               (if leaf then Some 0 else pt_extent (level_at path (S n))) in
                let l := mk_ext_path (pt_lb_id l) (pt_buf l) p pblk (pt_depth l) (pt_index l) (pt_extent l) in
                remove_loop fuel (<[S n := child]> (<[n := l]> path)) depth (i + 1) from to EOK
            end
          else
            b <- data (pt_buf l);;
            match n with
            | O => remove_loop fuel path depth (i - 1) from to rc
            | S m =>
                r <- (if rd eh_entries_count p b =? 0 then
                   r <- mtry (ext4_ext_remove_idx (rev (take n path)));;
                   mok (path, match r with Ok _ => EOK | Err rc => rc end)
                 else
                   let u := level_at path m in
                   mok (<[m := set_index (Some (default 0 (pt_index u) + 1)) u]> path, rc));;
                let '(path, rc) := r in
                mtry (on_st (bs_set (pt_lb_id l)));;;
                remove_loop fuel (<[n := given_back l]> path) depth (i - 1) from to rc
            end
  end.

(** The part of the extent [ex] behind [to], entered as an extent of its own after
    [ex] was cut at [from]. *)
Definition remove_inside (path : list ext_path) (from to : Z) : M fsys unit :=
  let l := path_leaf path in
  let e := cur_extent l in
  b <- data (pt_buf l);;
  let unwritten := ext4_ext_is_unwritten e b in
  let ee_block := rd ex_first_block e b in
  let len := ext4_ext_get_actual_len e b in
  let newblock := u64 (u32 (to + 1 - ee_block) + ext4_ext_pblock e b) in
  store (pt_buf l) (fun b => set_merged_count e (u16 (from - ee_block)) unwritten b);;;
  ext4_ext_dirty l;;;
  let count := u16 (ee_block + len - 1 - to) in
  let newex := new_extent (u32 (to + 1)) count newblock unwritten in
  r <- ext4_ext_insert_extent path newex false;;
  match r with
  | inl path => ext4_ext_drop_refs path false
  | inr (rc, Some path) => ext4_ext_drop_refs path false;;; mfail rc
  | inr (rc, None) => mfail rc
  end.

(** [None]: the assertion failed; [Some false]: [fuel] turns were not enough. *)
Definition ext4_extent_remove_space (fuel : nat) (from to : Z) : M fsys (option bool) :=
  let* (a, p0) := ext_inode_hdr in
  root_depth <- ext_depth;;
  path <- ext4_find_extent from;;
  let l := path_leaf path in
  b <- data (pt_buf l);;
  let e := cur_extent l in
  let first := rd ex_first_block e b in
  let len := ext4_ext_get_actual_len e b in
  match pt_extent l with
  | None => ext4_ext_drop_refs path false;;; mok (Some true)
  | Some _ =>
      if negb (IN_RANGE from first len) then ext4_ext_drop_refs path false;;; mok (Some true)
      else if (first <? from) && (to <? u32 (first + len - 1)) then remove_inside path from to;;; mok (Some true)
      else
        r <- remove_loop fuel path (Z.to_nat root_depth) root_depth from to EOK;;
        match r with
        | RemoveMore => mok (Some false)
        | RemoveAsserts => mok None
        | RemoveFailed rc path => ext4_ext_drop_refs path false;;; mfail rc
        | RemoveDone rc path =>
            root <- data a;;
            rc <- (if rd eh_entries_count p0 root =? 0 then
               store a (fun b =>
                 wr eh_max_entries_count p0 ext4_ext_space_root (wr eh_depth p0 0 b));;;
               ext4_ext_dirty (level_at path 0);;;
               mok EOK
             else mok rc);;
            ext4_ext_drop_refs path false;;;
            if rc =? EOK then mok (Some true) else mfail rc
        end
  end.

(** ** Changing the state of a range *)

(** The extent the path found, cut at [split], the second half entered as an extent
    of its own.  When that fails the length is put back, without the state, in the
    leaf that was given back, and the failure is not reported.  (A path that was
    freed is dereferenced then; the model goes on without it.) *)
Definition ext4_ext_split_extent_at (path : list ext_path) (split split_flag : Z)
  : M fsys (option (list ext_path)) :=
  let l := path_leaf path in
  let e := cur_extent l in
  b <- data (pt_buf l);;
  let ee_block := rd ex_first_block e b in
  let ee_len := ext4_ext_get_actual_len e b in
  let newblock := u64 (u32 (split - ee_block) + ext4_ext_pblock e b) in
  let unwrit1 := has_bits split_flag EXT4_EXT_MARK_UNWRIT1 in
  let unwrit2 := has_bits split_flag EXT4_EXT_MARK_UNWRIT2 in
  if split =? ee_block then
    store (pt_buf l) (if unwrit2 then ext4_ext_mark_unwritten e else ext4_ext_mark_initialized e);;;
    ext4_ext_dirty l;;;
    mok (Some path)
  else
    store (pt_buf l) (set_merged_count e (u16 (split - ee_block)) unwrit1);;;
    ext4_ext_dirty l;;;
    let newex := new_extent split (u16 (ee_len - (split - ee_block))) newblock unwrit2 in
    r <- ext4_ext_insert_extent path newex true;;
    match r with
    | inl path => mok (Some path)
    | inr (_, path) =>
        store (pt_buf l) (wr ex_block_count e ee_len);;;
        ext4_ext_dirty (given_back l);;;
        mok path
    end.

(** [while (ex > first && merge(ex - 1))], then [while (merge(ex))]. *)
Fixpoint merge_back (fuel : nat) (p k : Z) (b : list Z) : Z * list Z :=
  match fuel with
  | O => (k, b)
  | S fuel =>
      if 0 <? k then
        match ext4_ext_merge_next p (k - 1) b with
        | Some b => merge_back fuel p (k - 1) b
        | None => (k, b)
        end
      else (k, b)
  end.
Fixpoint merge_on (fuel : nat) (p k : Z) (b : list Z) : list Z :=
  match fuel with
  | O => b
  | S fuel =>
      match ext4_ext_merge_next p k b with
      | Some b => merge_on fuel p k b
      | None => b
      end
  end.
Definition try_to_merge_node (p k : Z) (b : list Z) : Z * list Z :=
  let n := Z.to_nat (rd eh_entries_count p b) in
  let '(k, b) := merge_back n p k b in
  (k, merge_on n p k b).
Definition ext4_ext_try_to_merge (path : list ext_path) : M fsys (list ext_path) :=
  let l := path_leaf path in
  let p := pt_header l in
  match pt_extent l with
  | None => mok path
  | Some k =>
      b <- data (pt_buf l);;
      let '(k', b') := try_to_merge_node p k b in
      if rd eh_entries_count p b' =? rd eh_entries_count p b then mok path
      else
        store (pt_buf l) (fun _ => b');;;
        ext4_ext_dirty l;;;
        mok (set_leaf path (set_extent (Some k') (pt_p_block l) l))
  end.

(** The path, [None] if it was freed. *)
Definition ext4_ext_convert_to_initialized (path : list ext_path) (split blocks : Z)
  : M fsys (option (list ext_path)) :=
  let l := path_leaf path in
  let e := cur_extent l in
  b <- data (pt_buf l);;
  let first := rd ex_first_block e b in
  if u32 (split + blocks) =? u32 (first + ext4_ext_get_actual_len e b) then
    ext4_ext_split_extent_at path split EXT4_EXT_MARK_UNWRIT1
  else if first =? split then
    ext4_ext_split_extent_at path (u32 (split + blocks)) EXT4_EXT_MARK_UNWRIT2
  else
    path <- ext4_ext_split_extent_at path (u32 (split + blocks)) (Z.lor EXT4_EXT_MARK_UNWRIT1 EXT4_EXT_MARK_UNWRIT2);;
    match path with
    | None => mok None
    | Some path =>
        r <- find_extent_again path split;;
        match r with
        | inl path => ext4_ext_split_extent_at path split EXT4_EXT_MARK_UNWRIT1
        | inr (rc, Some path) => ext4_ext_drop_refs path false;;; mfail rc
        | inr (rc, None) => mfail rc
        end
    end.

(** [while (!zeros && chunk_blocks > 1)]: the chunk there is memory for. *)
Fixpoint zeros_chunk (fuel : nat) (chunk_blocks block_size : Z) : M fsys Z :=
  r <- mtry (on_st (bs_calloc (chunk_blocks * block_size)));;
  match r, fuel with
  | Ok _, _ => mok chunk_blocks
  | Err _, S fuel => if 1 <? chunk_blocks then zeros_chunk fuel (chunk_blocks / 2) block_size else mfail ENOMEM
  | Err _, O => mfail ENOMEM
  end.
Definition ext4_ext_zero_unwritten_range (block blocks_count : Z) : M fsys unit :=
  sb <- mget f_sb;;
  let block_size := ext4_sb_get_block_size sb in
  let chunk_blocks := Z.shiftl 1 20 / block_size in
  let chunk_blocks := if chunk_blocks =? 0 then 1 else chunk_blocks in
  let chunk_blocks := if blocks_count <? chunk_blocks then blocks_count else chunk_blocks in
  chunk_blocks <- zeros_chunk 20 chunk_blocks block_size;;
  r <- mtry (zero_chunks (Z.to_nat blocks_count) block_size block blocks_count chunk_blocks);;
  mmod (fun f => f_set_st (bs_invalidate block blocks_count (f_st f)) f);;;
  match r with Ok _ => mok tt | Err rc => mfail rc end.

Definition drop_some (path : option (list ext_path)) : M fsys unit :=
  match path with Some path => ext4_ext_drop_refs path false | None => mok tt end.

Definition ext4_extent_mark_written (iblock blocks_count : Z) : M fsys unit :=
  if blocks_count =? 0 then mok tt
  else
    path <- ext4_find_extent iblock;;
    let l := path_leaf path in
    match pt_extent l with
    | None => ext4_ext_drop_refs path false;;; mfail EIO
    | Some _ =>
        b <- data (pt_buf l);;
        if negb (ext4_ext_is_unwritten (cur_extent l) b) then ext4_ext_drop_refs path false
        else
          path <- ext4_ext_convert_to_initialized path iblock blocks_count;;
          r <- (match path with
                | Some path => find_extent_again path iblock
                | None =>
                    r <- mtry (ext4_find_extent iblock);;
                    mok (match r with Ok path => inl path | Err rc => inr (rc, None) end)
                end);;
          match r with
          | inl path => path <- ext4_ext_try_to_merge path;; ext4_ext_drop_refs path false
          | inr (rc, path) => drop_some path;;; mfail rc
          end
    end.

(** ** Allocating *)

(** [ext4_extent_get_blocks] with [create]: first block and length of the run. *)
Definition extent_get_blocks_create (iblock max_blocks : Z) : M fsys (Z * Z) :=
  path <- ext4_find_extent iblock;;
  ex <- leaf_extent path;;
  let clamp n := if max_blocks <? n then max_blocks else n in
  let hit := match ex with
             | Some x => if IN_RANGE iblock (x_first x) (x_len x) then Some x else None
             | None => None
             end in
  match hit with
  | Some x =>
      let allocated := u32 (x_len x - u32 (iblock - x_first x)) in
      let newblock := u64 (u32 (iblock - x_first x) + x_start x) in
      if negb (x_unwritten x) then
        ext4_ext_drop_refs path false;;; mok (newblock, clamp allocated)
      else
        let zero_range := clamp allocated in
        or_else (ext4_ext_zero_unwritten_range newblock zero_range) (ext4_ext_drop_refs path false);;;
        path <- ext4_ext_convert_to_initialized path iblock zero_range;;
        drop_some path;;;
        mok (newblock, clamp allocated)
  | None =>
      next <- ext4_ext_next_allocated_block path;;
      goal <- ext4_ext_find_goal path iblock;;
      newblock <- or_else (ext4_new_meta_blocks goal) (ext4_ext_drop_refs path false);;
      if newblock =? 0 then ext4_ext_drop_refs path false;;; mok (0, 0)
      else
        let newex := new_extent iblock 1 newblock false in
        r <- ext4_ext_insert_extent path newex false;;
        match r with
        | inl path => ext4_ext_drop_refs path false;;; mok (x_start newex, clamp 1)
        | inr (rc, path) =>
            ext4_ext_free_blocks (x_start newex) 1;;;
            drop_some path;;;
            mfail rc
        end
  end.
Definition ext4_extent_get_blocks (iblock max_blocks : Z) (create : bool) : M fsys (Z * Z) :=
  if create then extent_get_blocks_create iblock max_blocks else extent_get_blocks_read iblock max_blocks.

(** [while (done < count)]: every turn covers a block or more.  The error that ended
    the loop, and the blocks allocated. *)
Fixpoint preallocate_loop (fuel : nat) (iblock count done allocated : Z) : M fsys (Z * Z) :=
  match fuel with
  | O => mok (EOK, allocated)
  | S fuel =>
      if count <=? done then mok (EOK, allocated)
      else
        let at_ := u32 (iblock + done) in
        r <- mtry (ext4_find_extent at_);;
        match r with
        | Err rc => mok (rc, allocated)
        | Ok path =>
            ex <- leaf_extent path;;
            let hit := match ex with
                       | Some x => if IN_RANGE at_ (x_first x) (x_len x) then Some x else None
                       | None => None
                       end in
            match hit with
            | Some x =>
                ext4_ext_drop_refs path false;;;
                preallocate_loop fuel iblock count (u32 (done + (x_len x - u32 (at_ - x_first x)))) allocated
            | None =>
                goal <- ext4_ext_find_goal path at_;;
                r <- mtry (ext4_new_meta_blocks goal);;
                match r with
                | Err rc => ext4_ext_drop_refs path false;;; mok (rc, allocated)
                | Ok block =>
                    if block =? 0 then ext4_ext_drop_refs path false;;; mok (EOK, allocated)
                    else
                      r <- ext4_ext_insert_extent path (new_extent at_ 1 block true) false;;
                      match r with
                      | inr (rc, path) =>
                          ext4_ext_free_blocks block 1;;;
                          drop_some path;;;
                          mok (rc, allocated)
                      | inl path =>
                          ext4_ext_drop_refs path false;;;
                          preallocate_loop fuel iblock count (u32 (done + 1)) (u32 (allocated + 1))
                      end
                end
            end
        end
  end.
Definition ext4_extent_preallocate (iblock count : Z) : M fsys (Z * Z) :=
  preallocate_loop (Z.to_nat count) iblock count 0 0.
End ExtRemove.
