(* ===== verification/Imap.v ===== *)
(** * The blocks of a file

    The data-block half of Core/lwext4/src/ext4_fs.c: which block of the volume
    holds block [iblock] of the inode's file, by the extent tree or by the block map
    of ext2 and ext3 (twelve direct blocks and three levels of indirection), and
    giving a file its next block. *)

From S2P Require Import Prelude Layout Types Super BlockGroup Inode ExtNode Store Group Fs Extent Balloc ExtTree ExtRemove.

Definition EXT4_INODE_DIRECT_BLOCK_COUNT : Z := 12.
Definition EXT4_INODE_FLAG_EXTENTS : Z := 0x00080000.

(** [fs->inode_blocks_per_level], [fs->inode_block_limits]: [ext4_fs_init] fills
    both from the block size. *)
Definition inode_blocks_per_level (sb : list Z) (i : nat) : Z :=
  Nat.iter i (fun n => u64 (n * (ext4_sb_get_block_size sb / 4))) 1.
Fixpoint inode_block_limits (sb : list Z) (i : nat) : Z :=
  match i with
  | O => EXT4_INODE_DIRECT_BLOCK_COUNT
  | S i => u64 (inode_block_limits sb i + inode_blocks_per_level sb (S i))
  end.
(** [for (i = 1; i < 4; i++)]: the level of indirection, 0 if none reaches. *)
Definition indirect_level (sb : list Z) (iblock : Z) : nat :=
  if iblock <? inode_block_limits sb 1 then 1%nat
  else if iblock <? inode_block_limits sb 2 then 2%nat
  else if iblock <? inode_block_limits sb 3 then 3%nat
  else O.
(** Entry [off] of an indirect block. *)
Definition ind_entry (off : Z) : field := mk_field (4 * off) 4.

Section Imap.
Context {St : Type} {BS : BlockStore St}.
Local Abbreviation fsys := (fsys St).

(** The inode, read and stored through; [off] is where it starts in its block. *)
Definition on_inode {A} (g : Z -> list Z -> A) : M fsys A :=
  r <- mget f_iref;;
  b <- data (ir_block r);;
  mok (g (ir_off r) b).
Definition inode_store (g : Z -> list Z -> list Z) : M fsys unit :=
  r <- mget f_iref;;
  store (ir_block r) (g (ir_off r)).
Definition uses_extents : M fsys bool :=
  sb <- mget f_sb;;
  flag <- on_inode (fun p b => ext4_inode_has_flag p b EXT4_INODE_FLAG_EXTENTS);;
  mok (ext4_sb_feature_incom sb EXT4_FINCOM_EXTENTS && flag).

(** ** Reading the map *)

(** [while (l > 0)]: from the indirect block [current] of level [l] down. *)
Fixpoint dblk_walk (l : nat) (current blk_off_in_lvl off_in_blk : Z) : M fsys Z :=
  match l with
  | O => mok current
  | S l' =>
      on_st (bs_get current);;;
      b <- data current;;
      let next := rd (ind_entry off_in_blk) 0 b in
      on_st (bs_set current);;;
      if next =? 0 then mok 0
      else
        match l' with
        | O => mok next
        | S l'' =>
            sb <- mget f_sb;;
            let blk_off_in_lvl := blk_off_in_lvl mod inode_blocks_per_level sb l' in
            dblk_walk l' next blk_off_in_lvl (u32 (blk_off_in_lvl / inode_blocks_per_level sb l''))
        end
  end.

(** 0 is a hole. *)
Definition ext4_fs_get_inode_dblk_idx_internal (iblock : Z) (extent_create support_unwritten : bool) : M fsys Z :=
  sb <- mget f_sb;;
  size <- on_inode (ext4_inode_get_size sb);;
  if size =? 0 then mok 0
  else
    extents <- uses_extents;;
    if (extents : bool) then
      let* (fblock, count) := ext4_extent_get_blocks iblock 1 extent_create in
      if (fblock =? 0) && negb support_unwritten then mfail EIO else mok fblock
    else if iblock <? EXT4_INODE_DIRECT_BLOCK_COUNT then on_inode (fun p b => ext4_inode_get_direct_block p iblock b)
    else
      match indirect_level sb iblock with
      | O => mfail EIO
      | S l =>
          let blk_off_in_lvl := u32 (iblock - inode_block_limits sb l) in
          current <- on_inode (fun p b => ext4_inode_get_indirect_block p (Z.of_nat l) b);;
          let off_in_blk := u32 (blk_off_in_lvl / inode_blocks_per_level sb l) in
          if current =? 0 then mok 0 else dblk_walk (S l) current blk_off_in_lvl off_in_blk
      end.
Definition ext4_fs_get_inode_dblk_idx (iblock : Z) (support_unwritten : bool) : M fsys Z :=
  ext4_fs_get_inode_dblk_idx_internal iblock false support_unwritten.
Definition ext4_fs_init_inode_dblk_idx (iblock : Z) : M fsys Z :=
  ext4_fs_get_inode_dblk_idx_internal iblock true true.

(** ** Changing the map *)

(** Near the file's last block; for a file without one, behind the inode table of
    its group. *)
Definition ext4_fs_indirect_find_goal : M fsys Z :=
  sb <- mget f_sb;;
  r <- mget f_iref;;
  inode_size <- on_inode (ext4_inode_get_size sb);;
  let block_size := ext4_sb_get_block_size sb in
  let iblock_cnt := u32 (inode_size / block_size) in
  let iblock_cnt := if negb (inode_size mod block_size =? 0) then u32 (iblock_cnt + 1) else iblock_cnt in
  goal <- (if 0 <? iblock_cnt then ext4_fs_get_inode_dblk_idx (iblock_cnt - 1) false else mok 0);;
  if negb (goal =? 0) then mok (u64 (goal + 1))
  else
    let inodes_per_bg := sb_get sb_inodes_per_group sb in
    let block_group := u32 (ir_index r - 1) / inodes_per_bg in
    g <- ext4_fs_get_block_group_ref block_group;;
    bg <- data (br_block g);;
    let bg_count := ext4_block_group_cnt sb in
    let itab_first_block := ext4_bg_get_inode_table_first_block (br_off g) bg sb in
    let itab_item_size := sb_get sb_inode_size sb in
    let itab_bytes :=
      if block_group <? u32 (bg_count - 1) then u32 (inodes_per_bg * itab_item_size)
      else u32 (u32 (sb_get sb_inodes_count sb - u32 (u32 (bg_count - 1) * inodes_per_bg)) * itab_item_size) in
    let inode_table_blocks := itab_bytes / block_size in
    let inode_table_blocks :=
      if negb (itab_bytes mod block_size =? 0) then inode_table_blocks + 1 else inode_table_blocks in
    ext4_fs_put_block_group_ref g;;;
    mok (u64 (itab_first_block + inode_table_blocks)).

(** A fresh indirect block, with no entries. *)
Definition zero_ind_block (new_blk : Z) : M fsys unit :=
  sb <- mget f_sb;;
  store new_blk (memset_at 0 0 (ext4_sb_get_block_size sb));;;
  mtry (on_st (bs_dirty new_blk));;;
  on_st (bs_set new_blk).

(** [while (l > 0)]: a missing block of a lower level is allocated; the last level
    gets [fblock]. *)
Fixpoint set_walk (l : nat) (current blk_off_in_lvl off_in_blk fblock : Z) : M fsys unit :=
  match l with
  | O => mok tt
  | S l' =>
      on_st (bs_get current);;;
      b <- data current;;
      let give_back := on_st (bs_set current) in
      let set_entry v := store current (wr (ind_entry off_in_blk) 0 (u32 v));;; mtry (on_st (bs_dirty current));;; mok tt in
      let next := rd (ind_entry off_in_blk) 0 b in
      next <- (if (1 <? S l')%nat && (next =? 0) then
         goal <- or_else ext4_fs_indirect_find_goal give_back;;
         new_blk <- or_else (ext4_balloc_alloc_block goal) give_back;;
         or_else (on_st (bs_get_noread new_blk)) give_back;;;
         or_else (zero_ind_block new_blk) give_back;;;
         set_entry new_blk;;;
         mok new_blk
       else mok next);;
      (if (S l' =? 1)%nat then set_entry fblock else mok tt);;;
      give_back;;;
      match l' with
      | O => mok tt
      | S l'' =>
          sb <- mget f_sb;;
          let blk_off_in_lvl := blk_off_in_lvl mod inode_blocks_per_level sb l' in
          set_walk l' next blk_off_in_lvl (u32 (blk_off_in_lvl / inode_blocks_per_level sb l'')) fblock
      end
  end.

Definition ext4_fs_set_inode_data_block_index (iblock fblock : Z) : M fsys unit :=
  extents <- uses_extents;;
  if (extents : bool) then mfail ENOTSUP
  else if iblock <? EXT4_INODE_DIRECT_BLOCK_COUNT then
    inode_store (fun p => ext4_inode_set_direct_block p iblock (u32 fblock));;;
    inode_dirty
  else
    sb <- mget f_sb;;
    match indirect_level sb iblock with
    | O => mfail EIO
    | S l =>
        let blk_off_in_lvl := u32 (iblock - inode_block_limits sb l) in
        current <- on_inode (fun p b => ext4_inode_get_indirect_block p (Z.of_nat l) b);;
        let off_in_blk := u32 (blk_off_in_lvl / inode_blocks_per_level sb l) in
        current <- (if current =? 0 then
           goal <- ext4_fs_indirect_find_goal;;
           new_blk <- ext4_balloc_alloc_block goal;;
           inode_store (fun p => ext4_inode_set_indirect_block p (Z.of_nat l) (u32 new_blk));;;
           inode_dirty;;;
           or_else (on_st (bs_get_noread new_blk)) (ext4_balloc_free_block new_blk);;;
           zero_ind_block new_blk;;;
           mok new_blk
         else mok current);;
        set_walk (S l) current blk_off_in_lvl off_in_blk fblock
    end.

(** ** The next block of a file *)

(** Its place on the volume, and its number in the file.  The assertion that the
    tree did not give block 0 is left out here and below. *)
Definition ext4_fs_append_inode_dblk : M fsys (Z * Z) :=
  sb <- mget f_sb;;
  extents <- uses_extents;;
  inode_size <- on_inode (ext4_inode_get_size sb);;
  let block_size := ext4_sb_get_block_size sb in
  if (extents : bool) then
    let iblock := u32 (u64 (inode_size + block_size - 1) / block_size) in
    let* (fblock, count) := ext4_extent_get_blocks iblock 1 true in
    inode_store (fun p => ext4_inode_set_size p (u64 (inode_size + block_size)));;;
    inode_dirty;;;
    mok (fblock, iblock)
  else
    let inode_size :=
      if negb (inode_size mod block_size =? 0) then u64 (inode_size + (block_size - inode_size mod block_size))
      else inode_size in
    let new_block_idx := u32 (inode_size / block_size) in
    goal <- ext4_fs_indirect_find_goal;;
    phys_block <- ext4_balloc_alloc_block goal;;
    or_else (ext4_fs_set_inode_data_block_index new_block_idx phys_block) (ext4_balloc_free_block phys_block);;;
    inode_store (fun p => ext4_inode_set_size p (u64 (inode_size + block_size)));;;
    inode_dirty;;;
    mok (phys_block, new_block_idx).

(** First block, its number in the file, and how many follow each other. *)
Definition ext4_fs_append_inode_dblk_range (max_blocks : Z) : M fsys (Z * Z * Z) :=
  let max_blocks := if max_blocks =? 0 then 1 else max_blocks in
  sb <- mget f_sb;;
  extents <- uses_extents;;
  if (extents : bool) then
    inode_size <- on_inode (ext4_inode_get_size sb);;
    let block_size := ext4_sb_get_block_size sb in
    let iblock := u32 (u64 (inode_size + block_size - 1) / block_size) in
    let* (fblock, got) := ext4_extent_get_blocks iblock max_blocks true in
    let got := if got =? 0 then 1 else got in
    inode_store (fun p => ext4_inode_set_size p (u64 (inode_size + got * block_size)));;;
    inode_dirty;;;
    mok (fblock, iblock, got)
  else
    let* (fblock, iblock) := ext4_fs_append_inode_dblk in
    mok (fblock, iblock, 1).
End Imap.
