(* ===== verification/ImapSpec.v ===== *)
(** * What the map of a file's blocks is for

    The place of a block of a file as a function of the volume's contents, for both
    kinds of map, and the proof that the lookup of Imap.v computes it.  [file_map]
    is the interface to the code that walks a file's blocks: a lookup keeps it, and
    so does a change of blocks the map is not made of. *)

From S2P Require Import Prelude Layout Types Super BlockGroup Inode ExtNode ExtLaws Store Group Fs FsSpec.
From S2P Require Import Extent ExtentProps Balloc ExtTree ExtRemove Imap.

(** ** A tree whose checksums changed *)

Section Same.
Context (sb : list Z) (root_depth : Z).

(** Two buffers with the same node at byte [p]. *)
Definition same_node (p : Z) (b b' : list Z) : Prop :=
  (forall f, f_within 12 f = true -> rd f p b' = rd f p b) /\
  (forall k j, 0 <= k < max_entries p b -> 0 <= j < 12 -> byte_at b' (ext_entry p k + j) = byte_at b (ext_entry p k + j)) /\
  blen b' = blen b /\ (bytes_ok b -> bytes_ok b').

Lemma same_node_refl p b : same_node p b b.
Proof. by split_and!. Qed.
Lemma tail_only_same b b' : tail_only b b' -> same_node 0 b b'.
Proof.
  intros H. split; [intros f Hf; by apply tail_only_header|]. destruct H as (H1 & H2 & H3). split; [|done].
  intros k j Hk Hj. unfold max_entries in Hk. unfold EXT4_EXTENT_TAIL_OFFSET, ext4_extent_header_get_max_entries_count in H3.
  rewrite ext_entry_eq. change EXT_HEADER_SIZE with 12 in H3. change EXT_EXTENT_SIZE with 12 in H3. apply H3; lia.
Qed.

Section Node.
Context (p : Z) (b b' : list Z) (S : same_node p b b') (N : node_in p b).
Lemma same_count : entries_count p b' = entries_count p b.
Proof. by apply S. Qed.
Lemma same_max : max_entries p b' = max_entries p b.
Proof. by apply S. Qed.
Lemma same_check d : ext4_ext_check sb root_depth p d b' = ext4_ext_check sb root_depth p d b.
Proof. unfold ext4_ext_check. destruct S as [H _]. by rewrite !H by done. Qed.
Lemma same_in : node_in p b'.
Proof.
  destruct N as [N1 N2 N3 N4], S as (_ & _ & S3 & S4). split; [done|by apply S4|by rewrite same_count, same_max|].
  rewrite same_max. lia.
Qed.
Lemma same_entry k f : 0 <= k < entries_count p b -> f_within 12 f = true -> rd f (ext_entry p k) b' = rd f (ext_entry p k) b.
Proof.
  intros Hk Hf. apply (rd_shift _ _ _ _ _ 12); [done|]. intros j Hj. apply S; [|done]. pose proof (ni_count _ _ N). lia.
Qed.
Lemma same_extents : node_extents p b' = node_extents p b.
Proof.
  unfold node_extents. rewrite same_count. apply map_ext_in. intros k Hk%in_seq. apply extent_at_shift. intros j Hj.
  apply S; [|done]. pose proof (ni_count _ _ N). lia.
Qed.
End Node.

Lemma tree_same c c' d : forall a p lo hi es,
  tree_ok sb root_depth c d a p lo hi es -> same_node p (c a) (c' a) ->
  (forall x, x ∈ tree_blocks c d a p -> same_node 0 (c x) (c' x)) ->
  tree_ok sb root_depth c' d a p lo hi es /\ tree_blocks c' d a p = tree_blocks c d a p.
Proof.
  induction d as [|d IH]; intros a p lo hi es (Hck & N & H) HS Hb; cbn [tree_ok tree_blocks].
  - split; [|done]. rewrite (same_check _ _ _ HS), (same_extents _ _ _ HS N). split; [done|]. split; [by eapply same_in|done].
  - destruct H as (ess & -> & Hne & Hlen & Hk). pose proof (same_count _ _ _ HS) as Ec.
    assert (Hch : forall k, 0 <= k < entries_count p (c a) -> child c' a p k = child c a p k).
    { intros k Hr. unfold child, ext4_idx_pblock. by rewrite !(same_entry _ _ _ HS N) by done. }
    assert (HT : forall k ek, ess !! k = Some ek -> forall lo hi, tree_ok sb root_depth c d (child c a p (Z.of_nat k)) 0 lo hi ek ->
      tree_ok sb root_depth c' d (child c a p (Z.of_nat k)) 0 lo hi ek /\
      tree_blocks c' d (child c a p (Z.of_nat k)) 0 = tree_blocks c d (child c a p (Z.of_nat k)) 0).
    { intros k ek Hek lo' hi' T. apply lookup_lt_Some in Hek. apply (IH _ _ _ _ _ T).
      - apply Hb, (tree_blocks_child c d a p (Z.of_nat k)); [lia|by left].
      - intros x Hx. apply Hb, (tree_blocks_child c d a p (Z.of_nat k)); [lia|by right]. }
    split.
    + rewrite (same_check _ _ _ HS). split; [done|]. split; [by eapply same_in|]. exists ess. rewrite Ec.
      split_and!; try done. intros k ek Hek. apply lookup_lt_Some in Hek as Hlt. destruct (Hk k ek Hek) as (H1 & H2 & H3 & T).
      unfold first_at in *. rewrite !(same_entry _ _ _ HS N _ ex_first_block) by (done || lia). rewrite !Hch by lia.
      destruct (Z.ltb_spec (Z.of_nat k + 1) (entries_count p (c a))); [rewrite !(same_entry _ _ _ HS N _ ex_first_block) by (done || lia)|];
        (split; [done|]; split; [done|]; split; [done|]; by apply (HT k ek Hek)).
    + rewrite Ec. f_equal. apply map_ext_in. intros k Hin%in_seq. rewrite Hch by lia. cbv zeta. f_equal.
      destruct (lookup_lt_is_Some_2 ess k) as (ek & Hek); [lia|]. destruct (Hk k ek Hek) as (_ & _ & _ & T). by eapply HT.
Qed.
End Same.

(** ** The place of a block *)

Section Place.
Context (sb : list Z) (ir : inode_ref) (c : Z -> list Z).
(** How many blocks an indirect block names. *)
Local Abbreviation q := (ext4_sb_get_block_size sb / 4).

(** Block [k] of those under the block [a], [l] levels up; 0 is a hole. *)
Fixpoint ind_lookup (l : nat) (a k : Z) : Z :=
  match l with
  | O => a
  | S l => if a =? 0 then 0 else ind_lookup l (rd (ind_entry (k / q ^ Z.of_nat l)) 0 (c a)) (k mod q ^ Z.of_nat l)
  end.
(** The blocks that says. *)
Fixpoint ind_blocks (l : nat) (a k : Z) : list Z :=
  match l with
  | O => []
  | S l =>
      if a =? 0 then []
      else a :: ind_blocks l (rd (ind_entry (k / q ^ Z.of_nat l)) 0 (c a)) (k mod q ^ Z.of_nat l)
  end.

(** The indirection of block [i] of a file and its number below it. *)
Definition ind_level (i : Z) : option (nat * Z) :=
  if i <? 12 then Some (O, i)
  else if i <? 12 + q then Some (1%nat, i - 12)
  else if i <? 12 + q + q ^ 2 then Some (2%nat, i - (12 + q))
  else if i <? 12 + q + q ^ 2 + q ^ 3 then Some (3%nat, i - (12 + q + q ^ 2))
  else None.
Definition ind_top (l : nat) (k : Z) : Z :=
  match l with
  | O => ext4_inode_get_direct_block (ir_off ir) k (c (ir_block ir))
  | S l => ext4_inode_get_indirect_block (ir_off ir) (Z.of_nat l) (c (ir_block ir))
  end.
(** By the block map of the inode; [None] behind the last block it can have. *)
Definition block_place (i : Z) : option Z :=
  match ind_level i with
  | Some (l, k) => Some (ind_lookup l (ind_top l k) k)
  | None => None
  end.
Definition block_path (i : Z) : list Z :=
  match ind_level i with
  | Some (l, k) => ind_blocks l (ind_top l k) k
  | None => []
  end.

Lemma ind_lookup_S l a k :
  a <> 0 -> ind_lookup (S l) a k = ind_lookup l (rd (ind_entry (k / q ^ Z.of_nat l)) 0 (c a)) (k mod q ^ Z.of_nat l).
Proof. intros Ha. cbn [ind_lookup]. by replace (a =? 0) with false by lia. Qed.
Lemma ind_lookup_hole l k : ind_lookup l 0 k = 0.
Proof. by destruct l. Qed.
End Place.

(** By a list of extents: unwritten blocks have no place yet. *)
Definition extent_place (es : list extent) (i : Z) : Z :=
  match leaf_lookup es i with Some (s, false) => s | _ => 0 end.

Definition inode_extents (sb : list Z) (ir : inode_ref) (c : Z -> list Z) : bool :=
  ext4_sb_feature_incom sb EXT4_FINCOM_EXTENTS &&
  ext4_inode_has_flag (ir_off ir) (c (ir_block ir)) EXT4_INODE_FLAG_EXTENTS.

(** Blocks [0 .. count) of the file are at [m 0], [m 1], ...; the map is made of the
    inode's block and of [meta]. *)
Definition file_map (sb : list Z) (ir : inode_ref) (count : Z) (c : Z -> list Z) (m : Z -> Z) (meta : list Z) : Prop :=
  if inode_extents sb ir c then
    exists d es, inode_tree sb ir c ∅ d es /\
      meta = tree_blocks c (Z.to_nat d) (ir_block ir) (ext4_inode_get_extent_header (ir_off ir)) /\
      forall i, 0 <= i < count -> m i = extent_place es i
  else forall i, 0 <= i < count -> block_place sb ir c i = Some (m i) /\ block_path sb ir c i ⊆ meta.

(** ** The numbers *)

Section Numbers.
Context (sb : list Z).
Local Abbreviation q := (ext4_sb_get_block_size sb / 4).

Lemma q_range : 256 <= q <= 2 ^ 14.
Proof.
  destruct (block_size_cases sb) as (k & Hk & ->).
  assert (H : k = 0 \/ k = 1 \/ k = 2 \/ k = 3 \/ k = 4 \/ k = 5 \/ k = 6) by lia.
  by destruct H as [->|[->|[->|[->|[->|[->| ->]]]]]].
Qed.
Lemma q_pow_range : q ^ 2 <= 2 ^ 28 /\ q ^ 3 <= 2 ^ 42 /\ 0 < q ^ 2 /\ 0 < q ^ 3.
Proof.
  pose proof q_range. change (2 ^ 28) with ((2 ^ 14) ^ 2). change (2 ^ 42) with ((2 ^ 14) ^ 3).
  split_and!; [apply Z.pow_le_mono_l; lia..| |]; apply Z.pow_pos_nonneg; lia.
Qed.
Lemma per_level_pow i : (i <= 3)%nat -> inode_blocks_per_level sb i = q ^ Z.of_nat i.
Proof.
  intros Hi. pose proof q_range. pose proof q_pow_range.
  assert (H2 : q * q = q ^ 2) by ring. assert (H3 : q ^ 2 * q = q ^ 3) by ring.
  destruct i as [|[|[|[|?]]]]; [done|..|lia]; unfold inode_blocks_per_level; cbn [Nat.iter nat_rect Nat.pred];
    rewrite ?(u64_id (1 * q)), ?Z.mul_1_l, ?H2, ?(u64_id (q ^ 2)), ?H3, ?(u64_id (q ^ 3)) by lia; try done.
  by rewrite Z.pow_1_r.
Qed.
Lemma limits_sum :
  inode_block_limits sb 1 = 12 + q /\ inode_block_limits sb 2 = 12 + q + q ^ 2 /\
  inode_block_limits sb 3 = 12 + q + q ^ 2 + q ^ 3.
Proof.
  pose proof q_range. pose proof q_pow_range.
  assert (H1 : inode_block_limits sb 1 = 12 + q).
  { cbn [inode_block_limits]. rewrite per_level_pow by lia. rewrite Z.pow_1_r. apply u64_id. change EXT4_INODE_DIRECT_BLOCK_COUNT with 12. lia. }
  assert (H2 : inode_block_limits sb 2 = 12 + q + q ^ 2).
  { change (inode_block_limits sb 2) with (u64 (inode_block_limits sb 1 + inode_blocks_per_level sb 2)).
    rewrite H1, per_level_pow by lia. apply u64_id. change (Z.of_nat 2) with 2. lia. }
  split_and!; [done..|].
  change (inode_block_limits sb 3) with (u64 (inode_block_limits sb 2 + inode_blocks_per_level sb 3)).
  rewrite H2, per_level_pow by lia. apply u64_id. change (Z.of_nat 3) with 3. lia.
Qed.

(** The level the code picks, and the number below it. *)
Lemma level_spec i :
  12 <= i < 2 ^ 32 ->
  match indirect_level sb i with
  | O => ind_level sb i = None
  | S l => (l < 3)%nat /\ let k := u32 (i - inode_block_limits sb l) in
      ind_level sb i = Some (S l, k) /\ 0 <= k < q ^ Z.of_nat (S l) /\
      u32 (k / inode_blocks_per_level sb l) = k / q ^ Z.of_nat l
  end.
Proof.
  intros Hi. pose proof q_range. pose proof q_pow_range. destruct limits_sum as (L1 & L2 & L3).
  unfold indirect_level, ind_level. rewrite L1, L2, L3. replace (i <? 12) with false by lia.
  assert (Hdiv : forall k n, 0 <= k < 2 ^ 32 -> 0 < n -> u32 (k / n) = k / n).
  { intros k n Hk Hn. apply u32_id. split; [by apply Z.div_pos; lia|]. apply Z.div_lt_upper_bound; nia. }
  destruct (Z.ltb_spec i (12 + q)); [|destruct (Z.ltb_spec i (12 + q + q ^ 2)); [|destruct (Z.ltb_spec i (12 + q + q ^ 2 + q ^ 3)); [|done]]];
    (split; [lia|]); cbv zeta; rewrite ?L1, ?L2, per_level_pow by lia;
    [change (inode_block_limits sb 0) with 12| |];
    (rewrite (u32_id (i - _)) by lia); cbn [Z.of_nat Pos.of_succ_nat Pos.succ]; rewrite ?Z.pow_1_r, ?Z.pow_0_r;
    (split; [done|]); (split; [lia|]); apply Hdiv; lia.
Qed.
End Numbers.

(** ** Looking a block up *)

Section Lookup.
Context {St : Type} {BS : BlockStore St} {bsz : Z} {BL : BlockStoreLaws St bsz}.
Context (sb : list Z) (ir : inode_ref) (li : Z) (h : Z -> Z).
Local Abbreviation q := (ext4_sb_get_block_size sb / 4).
Local Abbreviation fa n f c h := (fabs (bsz := bsz) n f sb ir li c h ∅).

Lemma dblk_walk_wp c l : forall a k n f,
  (S l <= 3)%nat -> fa n f c h -> n + Z.of_nat (S l) < 2 ^ 32 -> a <> 0 -> 0 <= a -> 0 <= k < q ^ Z.of_nat (S l) ->
  wp (dblk_walk (S l) a k (k / q ^ Z.of_nat l)) f (fun r f' =>
    match r with
    | Ok b => b = ind_lookup sb c (S l) a k /\ fa (n + Z.of_nat (S l)) f' c h
    | Err rc => clean_err (St := St) rc /\ fa (n + Z.of_nat (S l)) f' c h
    end).
Proof.
  induction l as [|l IH]; intros a k n f Hl A Hn Ha Ha0 Hk; cbn [dblk_walk].
  all: fs_step; fs_step; [lia|done|apply not_elem_of_empty| |
    intros rc f1 Hrc A1; split; [done|]; eapply fabs_weaken; [exact A1|lia|done..]]; intros f1 _ A1.
  all: pose proof (fabs_held _ _ _ _ _ _ _ _ A a) as Hh; pose proof (fabs_budget _ _ _ _ _ _ _ _ A1) as Hb.
  all: assert (Hha : 0 < fupd a (h a + 1) h a) by (rewrite fupd_eq; lia).
  all: fs_step; fs_step; [done|]; fs_step; fs_step; [done|apply not_elem_of_empty|]; intros f2 A2.
  all: rewrite ind_lookup_S by done.
  - set (x := rd _ 0 (c a)). assert (A3 : fa (n + 1) f2 c h).
    { eapply fabs_weaken; [exact A2|done|done| |done]. intros y. symmetry. apply fupd_restore. }
    destruct (Z.eqb_spec x 0) as [E|E]; fs_step; cbn [ind_lookup]; by split.
  - set (x := rd (ind_entry (k / q ^ Z.of_nat (S l))) 0 (c a)).
    assert (A3 : fa (n + 1) f2 c h).
    { eapply fabs_weaken; [exact A2|done|done| |done]. intros y. symmetry. apply fupd_restore. }
    destruct (Z.eqb_spec x 0) as [E|E].
    + fs_step. rewrite E, ind_lookup_hole. split; [done|]. eapply fabs_weaken; [exact A3|lia|done|done|done].
    + fs_step. fs_step. rewrite !per_level_pow by lia. pose proof (q_range sb).
      assert (Hr : 0 <= k mod q ^ Z.of_nat (S l) < q ^ Z.of_nat (S l)) by (apply Z.mod_pos_bound, Z.pow_pos_nonneg; lia).
      assert (Hu : u32 (k mod q ^ Z.of_nat (S l) / q ^ Z.of_nat l) = k mod q ^ Z.of_nat (S l) / q ^ Z.of_nat l).
      { apply u32_id. assert (0 < q ^ Z.of_nat l) by (apply Z.pow_pos_nonneg; lia). split; [by apply Z.div_pos; lia|].
        rewrite Nat2Z.inj_succ, Z.pow_succ_r in Hr by lia.
        assert (k mod q ^ Z.of_nat (S l) / q ^ Z.of_nat l < q); [|lia]. apply Z.div_lt_upper_bound; [done|].
        rewrite Nat2Z.inj_succ, Z.pow_succ_r by lia. lia. }
      rewrite Hu. eapply wp_mono; [apply (IH x _ (n + 1) f2); try done; try lia|].
      { apply (rd_range (ind_entry _)). done. }
      replace (n + Z.of_nat (S (S l))) with (n + 1 + Z.of_nat (S l)) by lia.
      intros [b|rc] f3; [|done]. by intros [-> A4].
Qed.

Lemma on_inode_wp {A} (g : Z -> list Z -> A) n f c (Q : result A -> fsys St -> Prop) :
  fa n f c h -> 0 < h (ir_block ir) -> Q (Ok (g (ir_off ir) (c (ir_block ir)))) f -> wp (on_inode g) f Q.
Proof. intros A0 Hh HQ. unfold on_inode. fs_step. fs_step. fs_step. fs_step; [done|]. by fs_step. Qed.
Lemma uses_extents_wp n f c (Q : result bool -> fsys St -> Prop) :
  fa n f c h -> 0 < h (ir_block ir) -> Q (Ok (inode_extents sb ir c)) f -> wp uses_extents f Q.
Proof.
  intros A Hh HQ. unfold uses_extents. fs_step. fs_step. fs_step. eapply on_inode_wp; [done..|]. cbv beta iota. by fs_step.
Qed.

Context (c : Z -> list Z) (n : Z) (f : fsys St) (i : Z).
Context (A : fa n f c h) (Hir : 0 < h (ir_block ir)) (Hi : 0 <= i < 2 ^ 32).
Context (Hsize : ext4_inode_get_size sb (ir_off ir) (c (ir_block ir)) <> 0).

Lemma block_map_wp su :
  inode_extents sb ir c = false -> n + 3 < 2 ^ 32 ->
  wp (ext4_fs_get_inode_dblk_idx i su) f (fun r f' =>
    match r with
    | Ok b => block_place sb ir c i = Some b /\ fa (n + 3) f' c h
    | Err rc => clean_err (St := St) rc /\ fa (n + 3) f' c h
    end).
Proof.
  intros Hx Hn. unfold ext4_fs_get_inode_dblk_idx, ext4_fs_get_inode_dblk_idx_internal. pose proof (fabs_budget _ _ _ _ _ _ _ _ A).
  fs_step. fs_step. fs_step. eapply on_inode_wp; [done..|]. cbv beta iota. replace (_ =? 0) with false by lia.
  fs_step. eapply uses_extents_wp; [done..|]. rewrite Hx. cbv beta iota.
  unfold block_place. change EXT4_INODE_DIRECT_BLOCK_COUNT with 12. destruct (Z.ltb_spec i 12).
  { eapply on_inode_wp; [done..|]. unfold ind_level. replace (i <? 12) with true by lia. split; [done|].
    eapply fabs_weaken; [exact A|lia|done..]. }
  pose proof (level_spec sb i ltac:(lia)) as HL. destruct (indirect_level sb i) as [|l].
  { fs_step. split; [apply clean_EIO|]. eapply fabs_weaken; [exact A|lia|done..]. }
  cbv zeta in HL. set (k := u32 (i - inode_block_limits sb l)) in *. destruct HL as (Hl & -> & Hk & ->). cbn [ind_top].
  fs_step. eapply on_inode_wp; [done..|]. cbv beta iota. set (a := ext4_inode_get_indirect_block _ _ _).
  destruct (Z.eqb_spec a 0) as [E|E].
  { fs_step. rewrite E, ind_lookup_hole. split; [done|]. eapply fabs_weaken; [exact A|lia|done..]. }
  eapply wp_mono; [apply (dblk_walk_wp c l a k n f); try done; try lia|].
  { apply (rd_range (ino_block _)). done. }
  intros [b|rc] f'; [intros [-> A']|intros [Hrc A']]; (split; [done|]); (eapply fabs_weaken; [exact A'|lia|done..]).
Qed.
End Lookup.

(** ** The interface *)

Section FileMap.
Context {St : Type} {BS : BlockStore St} {bsz : Z} {BL : BlockStoreLaws St bsz}.
Context (sb : list Z) (ir : inode_ref) (li : Z) (h : Z -> Z) (count : Z) (m : Z -> Z) (meta : list Z).
Local Abbreviation fa n f c h := (fabs (bsz := bsz) n f sb ir li c h ∅).
Local Abbreviation holds_map c := (file_map sb ir count c m meta).

(** The blocks the map is made of say it. *)
Lemma ind_same c c' l : forall a k,
  (forall x, x ∈ ind_blocks sb c l a k -> c' x = c x) ->
  ind_lookup sb c' l a k = ind_lookup sb c l a k /\ ind_blocks sb c' l a k = ind_blocks sb c l a k.
Proof.
  induction l as [|l IH]; intros a k H; [done|]. cbn [ind_lookup ind_blocks] in *. destruct (a =? 0); [done|].
  rewrite (H a) by by left. edestruct IH as [-> ->]; [|done]. intros x Hx. apply H. by right.
Qed.
Lemma file_map_same c c' :
  holds_map c -> c' (ir_block ir) = c (ir_block ir) -> (forall x, x ∈ meta -> c' x = c x) -> holds_map c'.
Proof.
  unfold file_map, inode_extents. intros H Hi Hm. rewrite Hi. case_match eqn:Ex.
  - destruct H as (d & es & (Hroot & Hd & T & Hb) & -> & Hp). exists d, es.
    destruct (tree_same sb d c c' _ _ _ _ _ _ T) as [T' Eb].
    { rewrite Hi. apply same_node_refl. }
    { intros x Hx. rewrite (Hm x Hx). apply same_node_refl. }
    rewrite Eb. split; [|done]. split; [by rewrite Hi|]. split; [done|]. split; [done|]. by rewrite Eb.
  - intros i Hi'. destruct (H i Hi') as [H1 H2]. unfold block_place, block_path in *.
    destruct (ind_level sb i) as [[l k]|]; [|done].
    assert (Et : ind_top ir c' l k = ind_top ir c l k) by (unfold ind_top; by rewrite Hi).
    rewrite Et. destruct (ind_same c c' l (ind_top ir c l k) k) as [-> ->]; [|done]. intros x Hx. by apply Hm, H2.
Qed.

(** One more kind of change a lookup may make. *)
Lemma file_map_csums c c' d es :
  inode_extents sb ir c = true -> inode_tree sb ir c ∅ d es ->
  meta = tree_blocks c (Z.to_nat d) (ir_block ir) (ext4_inode_get_extent_header (ir_off ir)) ->
  (forall i, 0 <= i < count -> m i = extent_place es i) ->
  (forall x, x ∉ meta -> c' x = c x) -> (forall x, tail_only (c x) (c' x)) -> holds_map c'.
Proof.
  intros Ex (Hroot & Hd & T & Hb) -> Hp Ho Ht.
  assert (Hi : c' (ir_block ir) = c (ir_block ir)) by (apply Ho; intros Hx; by apply (Hb _ Hx)).
  unfold file_map. replace (inode_extents sb ir c') with true by (unfold inode_extents in *; by rewrite Hi).
  exists d, es. destruct (tree_same sb d c c' _ _ _ _ _ _ T) as [T' Eb].
  { rewrite Hi. apply same_node_refl. }
  { intros x _. by apply tail_only_same. }
  split; [|by rewrite Eb]. split; [by rewrite Hi|]. split; [done|]. split; [done|]. by rewrite Eb.
Qed.

Context (c : Z -> list Z) (n : Z) (f : fsys St) (i : Z).
Context (A : fa n f c h) (Hn : n + 5 < 2 ^ 32) (Hir : 0 < h (ir_block ir)) (Hi : 0 <= i < count) (Hc : count <= 2 ^ 32).
Context (Hsize : ext4_inode_get_size sb (ir_off ir) (c (ir_block ir)) <> 0) (Hmap : holds_map c).

(** What a lookup does to the volume, successful or not. *)
Definition map_kept (f' : fsys St) : Prop :=
  exists c', fa (n + 5) f' c' h /\ (forall x, x ∉ meta -> c' x = c x) /\ holds_map c' /\ c' (ir_block ir) = c (ir_block ir).
(** The tree has no level between the root and the leaves, or there is no tree. *)
Definition shallow : Prop :=
  inode_extents sb ir c = true -> rd eh_depth (ext4_inode_get_extent_header (ir_off ir)) (c (ir_block ir)) <= 1.

Lemma dblk_wp su :
  wp (ext4_fs_get_inode_dblk_idx i su) f (fun r f' =>
    match r with
    | Ok b => b = m i /\ map_kept f'
    | Err rc => clean_err (St := St) rc /\ (shallow -> map_kept f')
    end).
Proof.
  destruct (inode_extents sb ir c) eqn:Ex.
  - pose proof Hmap as HM. unfold file_map in HM. rewrite Ex in HM. destruct HM as (d & es & T & Em & Hp).
    pose proof T as (Ed & Hd & _ & Hb). change EXT4_MAX_EXTENT_DEPTH with 5 in Hd. rewrite <- Em in Hb.
    assert (HK : forall f1, only_csums (BL := BL) sb ir li ∅ c d n h f1 -> map_kept f1).
    { intros f1 (c' & A' & Ho & Ht). rewrite <- Em in Ho. exists c'. split; [eapply fabs_weaken; [exact A'|lia|done..]|].
      split; [done|]. split; [by apply (file_map_csums c c' d es)|]. apply Ho. intros Hx. by apply (Hb _ Hx). }
    unfold ext4_fs_get_inode_dblk_idx, ext4_fs_get_inode_dblk_idx_internal. fs_step. fs_step. fs_step.
    eapply on_inode_wp; [done..|]. cbv beta iota. replace (_ =? 0) with false by lia.
    fs_step. eapply uses_extents_wp; [done..|]. rewrite Ex. cbv beta iota. unfold ext4_extent_get_blocks. fs_step.
    eapply wp_mono; [by apply (get_blocks_reads_lookup n f sb ir li c h ∅ d es A ltac:(lia) Hir T i 1 ltac:(lia))|].
    intros [[b len]|rc] f1; [|intros [Hrc HA]; split; [done|]; intros Hs; apply HK, HA; rewrite <- Ed; by apply Hs].
    intros (Hans & HA). cbv beta iota.
    assert (Hb' : b = extent_place es i).
    { unfold read_answer in Hans. unfold extent_place. destruct (leaf_lookup es i) as [[s u]|]; [|congruence].
      destruct Hans as [-> _]. by destruct u. }
    case_match; fs_step; [split; [apply clean_EIO|by intros _; apply HK]|]. split; [by rewrite Hp|by apply HK].
  - pose proof Hmap as HM. unfold file_map in HM. rewrite Ex in HM. destruct (HM i Hi) as [HP _].
    eapply wp_mono; [apply (block_map_wp sb ir li h c n f i A Hir ltac:(lia) Hsize su Ex ltac:(lia))|].
    assert (HK : forall f1, fa (n + 3) f1 c h -> map_kept f1).
    { intros f1 A1. exists c. split; [eapply fabs_weaken; [exact A1|lia|done..]|done]. }
    intros [b|rc] f1; [intros [HP' A']|intros [Hrc A']]; (split; [congruence|]); [by apply HK|by intros _; apply HK].
Qed.
Lemma file_block_wp :
  wp (ext4_fs_get_inode_dblk_idx i false) f (fun r f' =>
    match r with
    | Ok b => b = m i /\ map_kept f'
    | Err rc => clean_err (St := St) rc
    end).
Proof. eapply wp_mono; [apply dblk_wp|]. intros [b|rc] f'; [done|by intros [? _]]. Qed.
End FileMap.
