(* ===== verification/InodeOps.v ===== *)
(** * Inodes with their blocks

    The functions of Core/lwext4/src/ext4_fs.c that make, truncate and free an inode
    and count its links. *)

From stdpp Require Import strings.
From S2P Require Import Prelude Layout Types Super BlockGroup Inode ExtNode DirBlock Store Group Fs Extent Balloc Ialloc.
From S2P Require Import ExtTree ExtRemove Imap.

Definition EXT4_INODE_FLAG_INDEX : Z := 0x00001000.
Definition EXT4_LINK_MAX : Z := 65000.
Definition sb_want_extra_isize : field := Eval vm_compute in field_of ext4_sblock_layout "want_extra_isize"%string.

Definition ext4_fs_correspond_inode_mode (filetype : Z) : Z :=
  if filetype =? EXT4_DE_DIR then EXT4_INODE_MODE_DIRECTORY
  else if filetype =? EXT4_DE_REG_FILE then EXT4_INODE_MODE_FILE
  else if filetype =? EXT4_DE_SYMLINK then EXT4_INODE_MODE_SOFTLINK
  else if filetype =? EXT4_DE_CHRDEV then EXT4_INODE_MODE_CHARDEV
  else if filetype =? EXT4_DE_BLKDEV then EXT4_INODE_MODE_BLOCKDEV
  else if filetype =? EXT4_DE_FIFO then EXT4_INODE_MODE_FIFO
  else if filetype =? EXT4_DE_SOCK then EXT4_INODE_MODE_SOCKET
  else EXT4_INODE_MODE_FILE.
(** The mode a new inode begins with: 0777 for directories and links, else 0666. *)
Definition new_inode_mode (filetype : Z) : Z :=
  if filetype =? EXT4_DE_DIR then Z.lor 0x1FF EXT4_INODE_MODE_DIRECTORY
  else if filetype =? EXT4_DE_SYMLINK then Z.lor 0x1FF EXT4_INODE_MODE_SOFTLINK
  else Z.lor 0x1B6 (ext4_fs_correspond_inode_mode filetype).
(** The extra size a new inode begins with: none, unless the superblock's wish fits
    an inode together with the header of its attributes. *)
Definition new_extra_isize (sb : list Z) : Z :=
  let size := sb_get sb_want_extra_isize sb in
  if negb (Z.land size 3 =? 0) || (sb_get sb_inode_size sb <? EXT4_GOOD_OLD_INODE_SIZE + size + 4) then 0 else size.
(** A new inode at byte [p]. *)
Definition new_inode (sb : list Z) (filetype p : Z) (b : list Z) : list Z :=
  let inode_size := sb_get sb_inode_size sb in
  let b := memset_at p 0 inode_size b in
  let b := ext4_inode_set_mode sb p (new_inode_mode filetype) b in
  let b := ext4_inode_set_links_cnt p 0 b in
  let b := ext4_inode_set_uid p 0 b in
  let b := ext4_inode_set_gid p 0 b in
  let b := ext4_inode_set_size p 0 b in
  let b := ext4_inode_set_access_time p 0 b in
  let b := ext4_inode_set_change_inode_time p 0 b in
  let b := ext4_inode_set_modif_time p 0 b in
  let b := ext4_inode_set_del_time p 0 b in
  let b := match ext4_inode_set_blocks_count sb p 0 b with Ok b => b | Err _ => b end in
  let b := ext4_inode_set_flags p 0 b in
  let b := ext4_inode_set_generation p 0 b in
  let b := if EXT4_GOOD_OLD_INODE_SIZE <? inode_size
           then ext4_inode_set_extra_isize sb p (new_extra_isize sb) b else b in
  memset_at (p + f_off ino_blocks) 0 (f_size ino_blocks) b.

Section InodeOps.
Context {St : Type} {BS : BlockStore St}.
Local Abbreviation fsys := (fsys St).

Definition ext4_fs_inode_blocks_init : M fsys unit :=
  sb <- mget f_sb;;
  type <- on_inode (ext4_inode_type sb);;
  if negb ((type =? EXT4_INODE_MODE_FILE) || (type =? EXT4_INODE_MODE_DIRECTORY)) then mok tt
  else
    (if ext4_sb_feature_incom sb EXT4_FINCOM_EXTENTS then
       inode_store (fun p => ext4_inode_set_flag p EXT4_INODE_FLAG_EXTENTS);;;
       inode_store ext4_extent_tree_init
     else mok tt);;;
    inode_dirty.

(** The caller's inode is the new one afterwards. *)
Definition ext4_fs_alloc_inode (filetype : Z) : M fsys unit :=
  let is_dir := filetype =? EXT4_DE_DIR in
  index <- ext4_ialloc_alloc_inode is_dir;;
  or_else (ext4_fs_get_inode_ref index) (ext4_ialloc_free_inode index is_dir);;;
  sb <- mget f_sb;;
  inode_store (new_inode sb filetype);;;
  inode_dirty.

(** ** Freeing *)

(** [for (offset = 0; offset < count; ++offset)] over the indirect block [blk], which
    is held: [f] for each block it names. *)
Fixpoint each_entry (n : nat) (blk offset : Z) (f : Z -> M fsys unit) : M fsys unit :=
  match n with
  | O => mok tt
  | S n =>
      b <- data blk;;
      let ind_block := rd (ind_entry offset) 0 b in
      (if ind_block =? 0 then mok tt else f ind_block);;;
      each_entry n blk (offset + 1) f
  end.
(** [blk] held while [m] runs; giving it back says nothing. *)
Definition with_block (blk : Z) (m : M fsys unit) : M fsys unit :=
  on_st (bs_get blk);;;
  or_else m (on_st (bs_set blk));;;
  mtry (on_st (bs_set blk));;;
  mok tt.

(** The blocks of indirection of an inode without extents, its attribute block, and
    the inode itself. *)
Definition ext4_fs_free_inode : M fsys unit :=
  sb <- mget f_sb;;
  r <- mget f_iref;;
  let count := Z.to_nat (ext4_sb_get_block_size sb / 4) in
  extents <- uses_extents;;
  (if (extents : bool) then mok tt
   else
     fblock <- on_inode (fun p b => ext4_inode_get_indirect_block p 0 b);;
     (if fblock =? 0 then mok tt
      else ext4_balloc_free_block fblock;;; inode_store (fun p => ext4_inode_set_indirect_block p 0 0));;;
     fblock <- on_inode (fun p b => ext4_inode_get_indirect_block p 1 b);;
     (if fblock =? 0 then mok tt
      else
        with_block fblock (each_entry count fblock 0 ext4_balloc_free_block);;;
        ext4_balloc_free_block fblock;;;
        inode_store (fun p => ext4_inode_set_indirect_block p 1 0));;;
     fblock <- on_inode (fun p b => ext4_inode_get_indirect_block p 2 b);;
     if fblock =? 0 then mok tt
     else
       with_block fblock (each_entry count fblock 0 (fun ind_block =>
         with_block ind_block (each_entry count ind_block 0 ext4_balloc_free_block);;;
         ext4_balloc_free_block ind_block));;;
       ext4_balloc_free_block fblock;;;
       inode_store (fun p => ext4_inode_set_indirect_block p 2 0));;;
  inode_dirty;;;
  xattr_block <- on_inode (fun p b => ext4_inode_get_file_acl p b sb);;
  (if xattr_block =? 0 then mok tt
   else ext4_balloc_free_block xattr_block;;; inode_store (fun p => ext4_inode_set_file_acl p sb 0));;;
  is_dir <- on_inode (fun p b => ext4_inode_is_type sb p b EXT4_INODE_MODE_DIRECTORY);;
  ext4_ialloc_free_inode (ir_index r) is_dir.

(** ** Truncating *)

(** [while (level > 0)]: the block at the end of the walk, its entry cleared. *)
Fixpoint release_walk (l : nat) (current block_offset_in_level offset_in_block : Z) : M fsys Z :=
  match l with
  | O => mok current
  | S l' =>
      if current =? 0 then mok 0
      else
        on_st (bs_get current);;;
        b <- data current;;
        let next := rd (ind_entry offset_in_block) 0 b in
        (if (S l' =? 1)%nat then
           store current (wr (ind_entry offset_in_block) 0 0);;;
           mtry (on_st (bs_dirty current));;;
           mok tt
         else mok tt);;;
        on_st (bs_set current);;;
        match l' with
        | O => mok next
        | S l'' =>
            sb <- mget f_sb;;
            let block_offset_in_level := block_offset_in_level mod inode_blocks_per_level sb l' in
            release_walk l' next block_offset_in_level
              (u32 (block_offset_in_level / inode_blocks_per_level sb l''))
        end
  end.
(** Not for inodes with extents, which is asserted. *)
Definition ext4_fs_release_inode_block (iblock : Z) : M fsys unit :=
  if iblock <? EXT4_INODE_DIRECT_BLOCK_COUNT then
    fblock <- on_inode (fun p b => ext4_inode_get_direct_block p iblock b);;
    if fblock =? 0 then mok tt
    else
      inode_store (fun p => ext4_inode_set_direct_block p iblock 0);;;
      ext4_balloc_free_block fblock
  else
    sb <- mget f_sb;;
    match indirect_level sb iblock with
    | O => mfail EIO
    | S l =>
        let block_offset_in_level := u32 (iblock - inode_block_limits sb l) in
        current <- on_inode (fun p b => ext4_inode_get_indirect_block p (Z.of_nat l) b);;
        let offset_in_block := u32 (block_offset_in_level / inode_blocks_per_level sb l) in
        fblock <- release_walk (S l) current block_offset_in_level offset_in_block;;
        if fblock =? 0 then mok tt else ext4_balloc_free_block fblock
    end.
Fixpoint release_blocks (n : nat) (iblock : Z) : M fsys unit :=
  match n with
  | O => mok tt
  | S n => ext4_fs_release_inode_block (u32 iblock);;; release_blocks n (iblock + 1)
  end.

(** What truncating is: nothing, an error, a short symbolic link, a device, or
    releasing blocks. *)
Inductive truncation := TruncNothing | TruncInvalid | TruncSymlink | TruncDevice | TruncBlocks.
Definition truncation_of (sb : list Z) (new_size p : Z) (b : list Z) : truncation :=
  let old_size := ext4_inode_get_size sb p b in
  let blocks := ext4_inode_get_blocks_count sb p b in
  let type := ext4_inode_type sb p b in
  if negb (ext4_inode_can_truncate sb p b) then TruncInvalid
  else if (old_size =? new_size) && (negb (new_size =? 0) || (blocks =? 0)) then TruncNothing
  else if old_size <? new_size then TruncInvalid
  else if ext4_inode_is_type sb p b EXT4_INODE_MODE_SOFTLINK && (old_size <? f_size ino_blocks) && (blocks =? 0)
  then TruncSymlink
  else if (type =? EXT4_INODE_MODE_CHARDEV) || (type =? EXT4_INODE_MODE_BLOCKDEV) || (type =? EXT4_INODE_MODE_SOCKET)
  then TruncDevice
  else TruncBlocks.

(** [fuel] bounds the turns over the extent tree ([ext4_extent_remove_space]); the
    answer is that operation's. *)
Definition ext4_fs_truncate_inode (fuel : nat) (new_size : Z) : M fsys (option bool) :=
  sb <- mget f_sb;;
  t <- on_inode (truncation_of sb new_size);;
  match t with
  | TruncNothing => mok (Some true)
  | TruncInvalid => mfail EINVAL
  | TruncSymlink =>
      inode_store (fun p b => ext4_inode_set_size p new_size
        (memset_at (p + f_off ino_blocks + new_size) 0 (f_size ino_blocks - new_size) b));;;
      inode_dirty;;;
      mok (Some true)
  | TruncDevice =>
      inode_store (fun p b => wr (ino_block 1) p 0 (wr (ino_block 0) p 0 b));;;
      inode_dirty;;;
      mok (Some true)
  | TruncBlocks =>
      old_size <- on_inode (ext4_inode_get_size sb);;
      blocks <- on_inode (ext4_inode_get_blocks_count sb);;
      extents <- uses_extents;;
      let block_size := ext4_sb_get_block_size sb in
      let new_blocks_cnt := u32 (u64 (new_size + block_size - 1) / block_size) in
      let old_blocks_cnt := u32 (u64 (old_size + block_size - 1) / block_size) in
      let diff_blocks_cnt := u32 (old_blocks_cnt - new_blocks_cnt) in
      done <- (if (extents : bool) then
         if negb (diff_blocks_cnt =? 0) || ((new_size =? 0) && negb (blocks =? 0))
         then ext4_extent_remove_space fuel new_blocks_cnt EXT_MAX_BLOCKS else mok (Some true)
       else release_blocks (Z.to_nat diff_blocks_cnt) new_blocks_cnt;;; mok (Some true));;
      match done with
      | Some true =>
          inode_store (fun p => ext4_inode_set_size p new_size);;;
          inode_dirty;;;
          mok (Some true)
      | other => mok other
      end
  end.

(** ** Links *)

Definition links_count_inc (sb : list Z) (p : Z) (b : list Z) : list Z * list Z :=
  let link := u16 (ext4_inode_get_links_cnt p b + 1) in
  let b := ext4_inode_set_links_cnt p link b in
  let is_dx := ext4_sb_feature_com sb EXT4_FCOM_DIR_INDEX && ext4_inode_has_flag p b EXT4_INODE_FLAG_INDEX in
  if is_dx && (1 <? link) && ((EXT4_LINK_MAX <=? link) || (link =? 2)) then
    (sb_set sb_features_read_only (Z.lor (sb_get sb_features_read_only sb) EXT4_FRO_COM_DIR_NLINK) sb,
     ext4_inode_set_links_cnt p 1 b)
  else (sb, b).
Definition ext4_fs_inode_links_count_inc : M fsys unit :=
  sb <- mget f_sb;;
  r <- mget f_iref;;
  b <- data (ir_block r);;
  let '(sb', b') := links_count_inc sb (ir_off r) b in
  store (ir_block r) (fun _ => b');;;
  mmod (f_set_sb sb').
Definition links_count_dec (sb : list Z) (p : Z) (b : list Z) : list Z :=
  let links := ext4_inode_get_links_cnt p b in
  if negb (ext4_inode_is_type sb p b EXT4_INODE_MODE_DIRECTORY) then
    if 0 <? links then ext4_inode_set_links_cnt p (links - 1) b else b
  else if 2 <? links then ext4_inode_set_links_cnt p (links - 1) b else b.
Definition ext4_fs_inode_links_count_dec : M fsys unit :=
  sb <- mget f_sb;;
  inode_store (links_count_dec sb).
End InodeOps.
