(* ===== verification/DirIdx.v ===== *)
(** * The hash index of a directory

    Core/lwext4/src/ext4_dir_idx.c.  Block 0 of an indexed directory is the root of a
    tree of index nodes, one or two levels of them, whose entries send ranges of
    hashes to blocks of entries.  A node is a buffer and the byte its entries start
    at; the first 8-byte entry has the node's limit and count in place of a hash.

    [struct ext4_dir_idx_block] is [dx_block]; a pointer to an entry is the entry's
    number.  [stack] is what the words that hashing leaves unset hold; [qsort] is the
    standard library's, whose order of equal hashes is its own. *)

From stdpp Require Import strings.
From S2P Require Import Prelude Layout Types Crc Hash Super BlockGroup Inode ExtNode DirBlock Store Group Fs.
From S2P Require Import Extent Balloc ExtTree ExtRemove Imap.
Local Open Scope string_scope.

Definition ext4_dir_idx_climit_layout : list (string * Z) := [("limit", 2); ("count", 2)].
Definition ext4_dir_idx_rinfo_layout : list (string * Z) :=
  [("reserved_zero", 4); ("hash_version", 1); ("info_length", 1); ("indirect_levels", 1); ("unused_flags", 1)].
Definition ext4_dir_idx_entry_layout : list (string * Z) := [("hash", 4); ("block", 4)].
Definition ext4_dir_idx_tail_layout : list (string * Z) := [("reserved", 4); ("checksum", 4)].

Definition dxc_limit : field := Eval vm_compute in field_of ext4_dir_idx_climit_layout "limit".
Definition dxc_count : field := Eval vm_compute in field_of ext4_dir_idx_climit_layout "count".
Definition dxi_reserved_zero : field := Eval vm_compute in field_of ext4_dir_idx_rinfo_layout "reserved_zero".
Definition dxi_hash_version : field := Eval vm_compute in field_of ext4_dir_idx_rinfo_layout "hash_version".
Definition dxi_info_length : field := Eval vm_compute in field_of ext4_dir_idx_rinfo_layout "info_length".
Definition dxi_indirect_levels : field := Eval vm_compute in field_of ext4_dir_idx_rinfo_layout "indirect_levels".
Definition dxi_unused_flags : field := Eval vm_compute in field_of ext4_dir_idx_rinfo_layout "unused_flags".
Definition dxe_hash : field := Eval vm_compute in field_of ext4_dir_idx_entry_layout "hash".
Definition dxe_block : field := Eval vm_compute in field_of ext4_dir_idx_entry_layout "block".
Definition dxt_checksum : field := Eval vm_compute in field_of ext4_dir_idx_tail_layout "checksum".
Local Close Scope string_scope.

Definition DX_DOT : Z := 12.
Definition DX_INFO_SIZE : Z := Eval vm_compute in layout_size ext4_dir_idx_rinfo_layout.
Definition DX_ENTRY : Z := Eval vm_compute in layout_size ext4_dir_idx_entry_layout.
Definition DX_TAIL : Z := Eval vm_compute in layout_size ext4_dir_idx_tail_layout.
(** Where the root's info, and the entries of the root and of other nodes start. *)
Definition DX_INFO : Z := 2 * DX_DOT.
Definition DX_ROOT : Z := DX_INFO + DX_INFO_SIZE.
Definition DX_NODE : Z := DE_HEADER.
Definition EXT4_ERR_BAD_DX_DIR : Z := -25000.
Definition EXT4_DIR_DX_INIT_BCNT : Z := 2.
Definition EXT4_SUPERBLOCK_FLAGS_UNSIGNED_HASH : Z := 2.

(** ** Accessors *)

Definition ext4_dir_dx_rinfo_get_hash_version (b : list Z) : Z := rd dxi_hash_version DX_INFO b.
Definition ext4_dir_dx_rinfo_get_indirect_levels (b : list Z) : Z := rd dxi_indirect_levels DX_INFO b.
(** [en]: the byte the node's entries start at. *)
Definition ext4_dir_dx_climit_get_limit (en : Z) (b : list Z) : Z := rd dxc_limit en b.
Definition ext4_dir_dx_climit_set_limit (en limit : Z) (b : list Z) : list Z := wr dxc_limit en limit b.
Definition ext4_dir_dx_climit_get_count (en : Z) (b : list Z) : Z := rd dxc_count en b.
Definition ext4_dir_dx_climit_set_count (en count : Z) (b : list Z) : list Z := wr dxc_count en count b.
Definition dx_entry (en k : Z) : Z := en + DX_ENTRY * k.
Definition ext4_dir_dx_entry_get_hash (en k : Z) (b : list Z) : Z := rd dxe_hash (dx_entry en k) b.
Definition ext4_dir_dx_entry_set_hash (en k hash : Z) (b : list Z) : list Z := wr dxe_hash (dx_entry en k) hash b.
Definition ext4_dir_dx_entry_get_block (en k : Z) (b : list Z) : Z := rd dxe_block (dx_entry en k) b.
Definition ext4_dir_dx_entry_set_block (en k block : Z) (b : list Z) : list Z := wr dxe_block (dx_entry en k) block b.

(** ** Checksums *)

Definition ext4_dir_dx_checksum (sb : list Z) (dir : dir_ref) (count_offset count t : Z) (b : list Z) : Z :=
  let sz := count_offset + count * DX_TAIL in
  let b := wr dxt_checksum t 0 b in
  let csum := ext4_sb_csum_seed sb in
  let csum := ext4_crc32c csum (le32_bytes (dr_index dir)) in
  let csum := ext4_crc32c csum (le32_bytes (dr_generation dir)) in
  let csum := ext4_crc32c csum (slice 0 sz b) in
  ext4_crc32c csum (slice t DX_TAIL b).
(** Where the limit and count are, for a root or a node by its first entry's length. *)
Definition ext4_dir_dx_get_climit (sb b : list Z) : option Z :=
  let block_size := ext4_sb_get_block_size sb in
  let entry_len := ext4_dir_en_get_entry_len 0 b in
  if entry_len =? 12 then
    if negb (ext4_dir_en_get_entry_len DX_DOT b =? block_size - 12) then None
    else if negb (rd dxi_reserved_zero DX_INFO b =? 0) then None
    else if negb (rd dxi_info_length DX_INFO b =? DX_INFO_SIZE) then None
    else Some 32
  else if entry_len =? block_size then Some 8
  else None.
(** The tail's offset and the checksum of the node, where there is room for one;
    [None] in the second: the count is beyond the limit. *)
Definition dx_sum (sb : list Z) (dir : dir_ref) (b : list Z) : option (Z * option Z) :=
  match ext4_dir_dx_get_climit sb b with
  | None => None
  | Some coff =>
      let limit := ext4_dir_dx_climit_get_limit coff b in
      let cnt := ext4_dir_dx_climit_get_count coff b in
      if ext4_sb_get_block_size sb - DX_TAIL <? coff + limit * DX_ENTRY then None
      else
        let t := coff + limit * DX_ENTRY in
        Some (t, if limit <? cnt then None else Some (ext4_dir_dx_checksum sb dir coff cnt t b))
  end.
Definition ext4_dir_dx_csum_verify (sb : list Z) (dir : dir_ref) (b : list Z) : bool :=
  if ext4_sb_feature_ro_com sb EXT4_FRO_COM_METADATA_CSUM then
    match dx_sum sb dir b with
    | None => true
    | Some (_, None) => false
    | Some (t, Some c) => rd dxt_checksum t b =? c
    end
  else true.
Definition ext4_dir_set_dx_csum (sb : list Z) (dir : dir_ref) (b : list Z) : list Z :=
  if ext4_sb_feature_ro_com sb EXT4_FRO_COM_METADATA_CSUM then
    match dx_sum sb dir b with
    | Some (t, Some c) => wr dxt_checksum t c b
    | _ => b
    end
  else b.

(** ** Hashing *)

(** [struct ext4_hash_info]: version and hash; the seed is the superblock's. *)
Record hash_info := mk_hinfo { hi_version : Z; hi_hash : Z }.
Definition sb_seed (sb : list Z) : hash4 :=
  let w i := get_le 4 (f_off sb_hash_seed + 4 * i) sb in mk_hash4 (w 0) (w 1) (w 2) (w 3).
Definition ext4_dir_dx_hash_string (sb stack : list Z) (version : Z) (name : list Z) : result Z :=
  let out := ext2_htree_hash (Some name) (blen name) (Some (sb_seed sb)) stack version true in
  match ho_rc out, ho_stored out with
  | 0, Some (major, _) => Ok major
  | rc, _ => Err rc
  end.
(** How many entries a root or node has room for; [head]: the bytes before them. *)
Definition dx_space (sb : list Z) (head : Z) : Z :=
  let entry_space := ext4_sb_get_block_size sb - head in
  let entry_space := if ext4_sb_feature_ro_com sb EXT4_FRO_COM_METADATA_CSUM then entry_space - DX_TAIL
                     else entry_space in
  entry_space / DX_ENTRY.
Definition ext4_dir_hinfo_init (sb stack : list Z) (name root : list Z) : result hash_info :=
  let v := rd dxi_hash_version DX_INFO root in
  if negb ((v =? EXT2_HTREE_LEGACY) || (v =? EXT2_HTREE_HALF_MD4) || (v =? EXT2_HTREE_TEA)) then Err EXT4_ERR_BAD_DX_DIR
  else if negb (rd dxi_unused_flags DX_INFO root =? 0) then Err EXT4_ERR_BAD_DX_DIR
  else if 1 <? rd dxi_indirect_levels DX_INFO root then Err EXT4_ERR_BAD_DX_DIR
  else if negb (ext4_dir_dx_climit_get_limit DX_ROOT root =? dx_space sb DX_ROOT) then Err EXT4_ERR_BAD_DX_DIR
  else
    let version := if (v <=? EXT2_HTREE_TEA) && ext4_sb_check_flag sb EXT4_SUPERBLOCK_FLAGS_UNSIGNED_HASH
                   then v + 3 else v in
    match ext4_dir_dx_hash_string sb stack version name with
    | Ok h => Ok (mk_hinfo version h)
    | Err rc => Err rc
    end.


(** ** Walking the index *)

(** [struct ext4_dir_idx_block]: the block of its handle, where the entries of the
    node start, and the number of the entry the walk is at. *)
Record dx_block := mk_dx { dx_b : Z; dx_entries : Z; dx_position : Z }.

(** [while (p <= q)]: halving, so 17 turns are enough for a 16-bit count. *)
Fixpoint dx_search (fuel : nat) (en hash : Z) (b : list Z) (p q : Z) : Z :=
  match fuel with
  | O => p
  | S fuel =>
      if p <=? q then
        let m := p + (q - p) / 2 in
        if hash <? ext4_dir_dx_entry_get_hash en m b
        then dx_search fuel en hash b p (m - 1)
        else dx_search fuel en hash b (m + 1) q
      else p
  end.
Definition dx_at (en hash : Z) (b : list Z) : Z :=
  dx_search 17 en hash b 1 (ext4_dir_dx_climit_get_count en b - 1) - 1.

(** ** Dividing a block of entries *)

(** [struct ext4_dx_sort_entry], with the bytes its [dentry] points at. *)
Record dx_sort_entry := mk_sort { se_hash : Z; se_rec_len : Z; se_dentry : list Z }.
Definition ext4_dir_dx_entry_comparator (e1 e2 : dx_sort_entry) : Z :=
  if se_hash e1 =? se_hash e2 then 0 else if se_hash e1 <? se_hash e2 then -1 else 1.

Definition dx_rec_len (len : Z) : Z :=
  let rec_len := 8 + len in
  if negb (rec_len mod 4 =? 0) then rec_len + (4 - rec_len mod 4) else rec_len.
(** [while (de + 8 <= de_limit)]: the entries in use; [idx] of them, in [used] bytes,
    were before [de].  Every turn moves [de] by 8 bytes or more. *)
Fixpoint dx_load (fuel : nat) (sb stack : list Z) (version : Z) (b : list Z) (de idx used : Z)
  : result (list dx_sort_entry) :=
  match fuel with
  | O => Ok []
  | S fuel =>
      let block_size := ext4_sb_get_block_size sb in
      if negb (de + DE_HEADER <=? block_size) then Ok []
      else
        let elen := ext4_dir_en_get_entry_len de b in
        if (elen <? DE_HEADER) || (block_size <? de + elen) then Err EIO
        else if negb (ext4_dir_en_get_inode de b =? 0) && negb (rd de_name_len de b =? 0) then
          let len := ext4_dir_en_get_name_len sb de b in
          let rec_len := dx_rec_len len in
          if (block_size <? de + DE_HEADER + len) || (elen <? rec_len) || (block_size <? used + rec_len)
             || (block_size / DX_DOT <=? idx) then Err EIO
          else
            match ext4_dir_dx_hash_string sb stack version (slice (de + DE_HEADER) len b) with
            | Err rc => Err rc
            | Ok h =>
                match dx_load fuel sb stack version b (de + elen) (idx + 1) (used + rec_len) with
                | Err rc => Err rc
                | Ok es => Ok (mk_sort h rec_len (slice de rec_len b) :: es)
                end
            end
        else dx_load fuel sb stack version b (de + elen) idx used
  end.
(** How many of the entries stay: up to half a block of them; 0 if all would. *)
Fixpoint dx_mid (block_size current_size : Z) (i : nat) (es : list dx_sort_entry) : nat :=
  match es with
  | [] => O
  | e :: es =>
      if block_size / 2 <? current_size + se_rec_len e then i
      else dx_mid block_size (current_size + se_rec_len e) (S i) es
  end.
(** The entries one after another from byte [off]; the last has the rest of the
    block. *)
Fixpoint dx_lay (space off : Z) (es : list dx_sort_entry) (b : list Z) : list Z :=
  match es with
  | [] => b
  | e :: es =>
      let b := memcpy_at off (se_dentry e) b in
      let len := match es with [] => u16 (space - off) | _ => u16 (se_rec_len e) end in
      dx_lay space (off + se_rec_len e) es (ext4_dir_en_set_entry_len off len b)
  end.
Definition dx_half (sb : list Z) (dir : dir_ref) (es : list dx_sort_entry) (b : list Z) : list Z :=
  let block_size := ext4_sb_get_block_size sb in
  if ext4_sb_feature_ro_com sb EXT4_FRO_COM_METADATA_CSUM then
    let b := dx_lay (block_size - DE_TAIL) 0 es b in
    ext4_dir_set_csum sb dir (ext4_dir_init_entry_tail (block_size - DE_TAIL) b)
  else ext4_dir_set_csum sb dir (dx_lay block_size 0 es b).

Section DirIdx.
Context {St : Type} {BS : BlockStore St}.
Context (stack : list Z).
Context (qsort : (dx_sort_entry -> dx_sort_entry -> Z) -> list dx_sort_entry -> list dx_sort_entry).
Local Abbreviation fsys := (fsys St).

Definition this_dir : M fsys dir_ref :=
  r <- mget f_iref;;
  gen <- on_inode ext4_inode_get_generation;;
  mok (mk_dir_ref (ir_index r) gen).
Definition this_child : M fsys child_ref :=
  sb <- mget f_sb;;
  r <- mget f_iref;;
  type <- on_inode (ext4_inode_type sb);;
  mok (mk_child_ref (ir_index r) type).

(** [while (true)]: from the node at [en] of block [blk], [level] levels of nodes
    below it.  [blk] is in the caller's handle of the root, which the walk reuses
    for every node.  The path from this node on, or the error and what that handle
    names then, 0 if nothing. *)
Fixpoint get_leaf_loop (level : nat) (hash blk en limit : Z) : M fsys (list dx_block + Z * Z) :=
  b <- data blk;;
  let cnt := ext4_dir_dx_climit_get_count en b in
  if (cnt =? 0) || (limit <? cnt) then mok (inr (EXT4_ERR_BAD_DX_DIR, blk))
  else
    let at_ := dx_at en hash b in
    let here := mk_dx blk en at_ in
    match level with
    | O => mok (inl [here])
    | S level =>
        sb <- mget f_sb;;
        r <- mtry (ext4_fs_get_inode_dblk_idx (ext4_dir_dx_entry_get_block en at_ b) false);;
        match r with
        | Err rc => mok (inr (rc, blk))
        | Ok fblk =>
            refused <- mget (fun f => bs_refuses fblk (f_st f));;
            r <- mtry (on_st (bs_get fblk));;
            match r with
            | Err rc => mok (inr (rc, if (refused : bool) then blk else 0))
            | Ok _ =>
                b <- data fblk;;
                let limit := ext4_dir_dx_climit_get_limit DX_NODE b in
                if negb (limit =? dx_space sb DX_NODE) then mok (inr (EXT4_ERR_BAD_DX_DIR, fblk))
                else
                  rest <- get_leaf_loop level hash fblk DX_NODE limit;;
                  mok match rest with inl path => inl (here :: path) | inr e => inr e end
            end
        end
    end.
Definition ext4_dir_dx_get_leaf (hinfo : hash_info) (root : Z) : M fsys (list dx_block + Z * Z) :=
  b <- data root;;
  get_leaf_loop (Z.to_nat (ext4_dir_dx_rinfo_get_indirect_levels b)) (hi_hash hinfo) root DX_ROOT
    (ext4_dir_dx_climit_get_limit DX_ROOT b).

(** [while (true)]: one entry on, in the lowest node [p] that has another; [below]
    are the levels passed on the way up, the nearest to [p] first.  Paths are
    lowest first here. *)
Fixpoint next_up (p : dx_block) (above below : list dx_block)
  : M fsys (option (dx_block * list dx_block) * list dx_block) :=
  b <- data (dx_b p);;
  let p := mk_dx (dx_b p) (dx_entries p) (dx_position p + 1) in
  if dx_position p <? ext4_dir_dx_climit_get_count (dx_entries p) b then mok (Some (p, above), below)
  else
    match above with
    | [] => mok (None, p :: below)
    | q :: above => next_up q above (p :: below)
    end.
(** [while (num_handles--)]: the first entries of the nodes below [p]'s entry. *)
Fixpoint next_down (p : dx_block) (above below : list dx_block) : M fsys (Z * list dx_block) :=
  match below with
  | [] => mok (ENOENT, p :: above)
  | old :: below' =>
      b <- data (dx_b p);;
      r <- mtry (
        blk_adr <- ext4_fs_get_inode_dblk_idx (ext4_dir_dx_entry_get_block (dx_entries p) (dx_position p) b) false;;
        on_st (bs_get blk_adr);;;
        on_st (bs_set (dx_b old));;;
        mok blk_adr);;
      match r with
      | Err rc => mok (rc, rev_append below (p :: above))
      | Ok blk_adr => next_down (mk_dx blk_adr DX_NODE 0) (p :: above) below'
      end
  end.
(** [ENOENT] when the search goes on at the new path.  [None]: the entry it would
    look at is not in the buffer; the count of a node reached here is not checked. *)
Definition ext4_dir_dx_next_block (hash : Z) (path : list dx_block) : M fsys (option (Z * list dx_block)) :=
  match path with
  | [] => mok (Some (EOK, []))
  | p :: above =>
      sb <- mget f_sb;;
      let* (found, below) := next_up p above [] in
      match found with
      | None => mok (Some (EOK, rev below))
      | Some (p, above) =>
          if ext4_sb_get_block_size sb <? dx_entry (dx_entries p) (dx_position p) + DX_ENTRY then mok None
          else
            b <- data (dx_b p);;
            let current_hash := ext4_dir_dx_entry_get_hash (dx_entries p) (dx_position p) b in
            if (Z.land hash 1 =? 0) && negb (Z.ldiff current_hash 1 =? hash)
            then mok (Some (EOK, rev_append below (p :: above)))
            else
              r <- next_down p above below;;
              mok (Some r)
      end
  end.

(** [do ... while (rc == ENOENT)]: what the search comes to, and the path to give
    back; [None] as in [ext4_dir_dx_next_block]. *)
Fixpoint dx_find_loop (fuel : nat) (name : list Z) (hash : Z) (path : list dx_block)
  : M fsys (option (result (Z * Z) * list dx_block)) :=
  match fuel, path with
  | S fuel, p :: _ =>
      sb <- mget f_sb;;
      b <- data (dx_b p);;
      r <- mtry (
        leaf <- ext4_fs_get_inode_dblk_idx (ext4_dir_dx_entry_get_block (dx_entries p) (dx_position p) b) false;;
        on_st (bs_get leaf);;;
        mok leaf);;
      match r with
      | Err rc => mok (Some (Err rc, path))
      | Ok leaf =>
          d <- data leaf;;
          match ext4_dir_find_in_block sb name d with
          | Ok de => mok (Some (Ok (leaf, de), path))
          | Err rc =>
              rc2 <- mtry (on_st (bs_set leaf));;
              match rc2 with
              | Err _ => mok (Some (Err rc, path))
              | Ok _ =>
                  if negb (rc =? ENOENT) then mok (Some (Err rc, path))
                  else
                    next <- ext4_dir_dx_next_block hash path;;
                    match next with
                    | None => mok None
                    | Some (rc, path) =>
                        if rc =? ENOENT then dx_find_loop fuel name hash path
                        else mok (Some (Err (if rc <? 0 then rc else ENOENT), path))
                    end
              end
          end
      end
  | _, _ => mok (Some (Err ENOENT, path))
  end.
(** [while (tmp <= dx_block)]: the first failure counts if there was none before. *)
Fixpoint dx_put_path {A} (path : list dx_block) (r : result A) : M fsys A :=
  match path with
  | [] => match r with Ok a => mok a | Err rc => mfail rc end
  | p :: path =>
      r2 <- mtry (on_st (bs_set (dx_b p)));;
      dx_put_path path (match r, r2 with Ok _, Err rc2 => Err rc2 | _, _ => r end)
  end.

(** More turns than two levels have entries. *)
Definition dx_find_fuel (sb : list Z) : nat :=
  let n := S (Z.to_nat (ext4_sb_get_block_size sb / DX_ENTRY)) in (n * n)%nat.
(** The block and the byte of the entry, its block held.  [None]: what happens is
    not defined, by [ext4_dir_dx_next_block] or because a handle is given back
    that names no block. *)
Definition ext4_dir_dx_find_entry (name : list Z) : M fsys (option (Z * Z)) :=
  sb <- mget f_sb;;
  root_addr <- ext4_fs_get_inode_dblk_idx 0 false;;
  on_st (bs_get root_addr);;;
  root <- data root_addr;;
  match ext4_dir_hinfo_init sb stack name root with
  | Err _ => mtry (on_st (bs_set root_addr));;; mfail EXT4_ERR_BAD_DX_DIR
  | Ok hinfo =>
      leaf <- ext4_dir_dx_get_leaf hinfo root_addr;;
      match leaf with
      | inr (_, held) =>
          if held =? 0 then mok None
          else mtry (on_st (bs_set held));;; mfail EXT4_ERR_BAD_DX_DIR
      | inl path =>
          found <- dx_find_loop (dx_find_fuel sb) name (hi_hash hinfo) (rev path);;
          match found with
          | None => mok None
          | Some (r, path) => pos <- dx_put_path (rev path) r;; mok (Some pos)
          end
      end
  end.

(** ** Making an index *)

(** The root of a directory with one empty block, block 1. *)
Definition dx_root (sb : list Z) (dir parent : child_ref) (b : list Z) : list Z :=
  let block_size := ext4_sb_get_block_size sb in
  let b := memset_at 0 0 DX_ROOT b in
  let b := ext4_dir_write_entry sb 0 12 dir [46] b in
  let b := ext4_dir_write_entry sb DX_DOT (u16 (block_size - 12)) parent [46; 46] b in
  let b := wr dxi_hash_version DX_INFO (sb_get sb_default_hash_version sb) b in
  let b := wr dxi_indirect_levels DX_INFO 0 b in
  let b := wr dxi_info_length DX_INFO 8 b in
  let b := ext4_dir_dx_climit_set_count DX_ROOT 1 b in
  ext4_dir_dx_climit_set_limit DX_ROOT (u16 (dx_space sb DX_ROOT)) b.
(** A block with one unused entry. *)
Definition dx_empty_block (sb : list Z) (dir : dir_ref) (b : list Z) : list Z :=
  let block_size := ext4_sb_get_block_size sb in
  let b := memset_at 0 0 block_size b in
  let b := ext4_dir_en_set_inode 0 0 b in
  if ext4_sb_feature_ro_com sb EXT4_FRO_COM_METADATA_CSUM then
    let b := ext4_dir_en_set_entry_len 0 (u16 (block_size - DE_TAIL)) b in
    let b := ext4_dir_en_set_name_len sb 0 0 b in
    let b := ext4_dir_en_set_inode_type sb 0 EXT4_DE_UNKNOWN b in
    ext4_dir_set_csum sb dir (ext4_dir_init_entry_tail (block_size - DE_TAIL) b)
  else ext4_dir_en_set_entry_len 0 (u16 block_size) b.

Definition ext4_dir_dx_init (parent : child_ref) : M fsys unit :=
  sb <- mget f_sb;;
  size <- on_inode (ext4_inode_get_size sb);;
  let need_append := size <? EXT4_DIR_DX_INIT_BCNT in
  let next_block iblock :=
    if need_append then ext4_fs_append_inode_dblk
    else fblock <- ext4_fs_init_inode_dblk_idx iblock;; mok (fblock, iblock) in
  let* (fblock, iblock) := next_block 0 in
  on_st (bs_get_noread fblock);;;
  dir <- this_child;;
  store fblock (dx_root sb dir parent);;;
  let give_back := on_st (bs_set fblock) in
  let* (leaf, iblock) := or_else (next_block (u32 (iblock + 1))) give_back in
  or_else (on_st (bs_get_noread leaf)) give_back;;;
  ref <- this_dir;;
  store leaf (dx_empty_block sb ref);;;
  mtry (on_st (bs_dirty leaf));;;
  or_else (on_st (bs_set leaf)) give_back;;;
  store fblock (fun b => ext4_dir_set_dx_csum sb ref (ext4_dir_dx_entry_set_block DX_ROOT 0 iblock b));;;
  mtry (on_st (bs_dirty fblock));;;
  give_back.

Definition ext4_dir_dx_reset_parent_inode (parent_inode : Z) : M fsys unit :=
  sb <- mget f_sb;;
  fblock <- ext4_fs_get_inode_dblk_idx 0 false;;
  on_st (bs_get fblock);;;
  dir <- this_dir;;
  store fblock (fun b => ext4_dir_set_dx_csum sb dir (wr de_inode DX_DOT parent_inode b));;;
  mtry (on_st (bs_dirty fblock));;;
  on_st (bs_set fblock).

(** ** Adding to an index *)

(** A new entry behind the one the node is at. *)
Definition dx_insert (en k hash iblock : Z) (b : list Z) : list Z :=
  let count := ext4_dir_dx_climit_get_count en b in
  let moved := slice (dx_entry en (k + 1)) (DX_ENTRY * (count - (k + 1))) b in
  let b := memcpy_at (dx_entry en (k + 2)) moved b in
  let b := ext4_dir_dx_entry_set_block en (k + 1) iblock b in
  let b := ext4_dir_dx_entry_set_hash en (k + 1) hash b in
  ext4_dir_dx_climit_set_count en (count + 1) b.
Definition ext4_dir_dx_insert_entry (p : dx_block) (hash iblock : Z) : M fsys unit :=
  sb <- mget f_sb;;
  dir <- this_dir;;
  store (dx_b p) (fun b => ext4_dir_set_dx_csum sb dir (dx_insert (dx_entries p) (dx_position p) hash iblock b));;;
  mtry (on_st (bs_dirty (dx_b p)));;;
  mok tt.

(** The new block, held; [p] is the node the old one's entry is in, and is at it. *)
Definition ext4_dir_dx_split_data (hinfo : hash_info) (old_data_block : Z) (p : dx_block) : M fsys Z :=
  sb <- mget f_sb;;
  let block_size := ext4_sb_get_block_size sb in
  on_st (bs_calloc block_size);;;
  on_st (bs_calloc (u32 (block_size / DX_DOT * 16)));;;
  b <- data old_data_block;;
  match dx_load (S (Z.to_nat block_size)) sb stack (hi_version hinfo) b 0 0 0 with
  | Err rc => mfail rc
  | Ok es =>
      let sort := qsort ext4_dir_dx_entry_comparator es in
      let* (new_fblock, new_iblock) := ext4_fs_append_inode_dblk in
      on_st (bs_get_noread new_fblock);;;
      store new_fblock (memset_at 0 0 block_size);;;
      match dx_mid block_size 0 0 sort with
      | O => mfail EIO
      | S _ as mid =>
          let hash_of i := match sort !! i with Some e => se_hash e | None => 0 end in
          let new_hash := hash_of mid in
          let continued := if new_hash =? hash_of (pred mid) then 1 else 0 in
          dir <- this_dir;;
          store old_data_block (dx_half sb dir (take mid sort));;;
          store new_fblock (dx_half sb dir (drop mid sort));;;
          mtry (on_st (bs_dirty old_data_block));;;
          mtry (on_st (bs_dirty new_fblock));;;
          ext4_dir_dx_insert_entry p (u32 (new_hash + continued)) new_iblock;;;
          mok new_fblock
      end
  end.

Definition dx_set_csum (blk : Z) : M fsys unit :=
  sb <- mget f_sb;;
  dir <- this_dir;;
  store blk (ext4_dir_set_dx_csum sb dir).
Definition dx_set_dirty (blk : Z) : M fsys unit := mtry (on_st (bs_dirty blk));;; mok tt.
(** A node of the index, cleared, for the [count] entries at [e] of [b] from entry
    [k] on. *)
Definition dx_new_node (sb : list Z) (e k count : Z) (b new : list Z) : list Z :=
  let block_size := ext4_sb_get_block_size sb in
  let new := memset_at 0 0 block_size new in
  let new := ext4_dir_en_set_entry_len 0 block_size new in
  memcpy_at DX_NODE (slice (dx_entry e k) (count * DX_ENTRY) b) new.
(** The entries a node has room for if nothing else is in its block. *)
Definition dx_node_limit (sb : list Z) : Z := (ext4_sb_get_block_size sb - DE_HEADER) / DX_ENTRY.

(** A full lower node [p] is divided; the root gets an entry for the upper half.  [p]
    is then the half the entry it was at is in. *)
Definition split_node (root p : dx_block) (fblk iblk : Z) : M fsys (Z * dx_block) :=
  sb <- mget f_sb;;
  b <- data (dx_b p);;
  let leaf_count := ext4_dir_dx_climit_get_count (dx_entries p) b in
  let count_left := leaf_count / 2 in
  let count_right := leaf_count - count_left in
  let hash_right := ext4_dir_dx_entry_get_hash (dx_entries p) count_left b in
  store fblk (fun new => dx_new_node sb (dx_entries p) count_left count_right b new);;;
  store (dx_b p) (ext4_dir_dx_climit_set_count (dx_entries p) count_left);;;
  store fblk (fun new =>
    ext4_dir_dx_climit_set_limit DX_NODE (dx_node_limit sb) (ext4_dir_dx_climit_set_count DX_NODE count_right new));;;
  let* (p, other) :=
    (if count_left <=? dx_position p then
       dx_set_csum (dx_b p);;;
       dx_set_dirty (dx_b p);;;
       mok (mk_dx fblk DX_NODE (dx_position p - count_left), dx_b p)
     else mok (p, fblk)) in
  ext4_dir_dx_insert_entry root hash_right iblk;;;
  dx_set_csum (dx_b root);;;
  dx_set_csum (dx_b p);;;
  dx_set_dirty (dx_b root);;;
  dx_set_dirty (dx_b p);;;
  dx_set_csum other;;;
  dx_set_dirty other;;;
  r <- mtry (on_st (bs_set other));;
  mok (match r with Ok _ => EOK | Err rc => rc end, p).
(** A full root's entries move to a node of their own. *)
Definition split_root (root : dx_block) (fblk iblk : Z) : M fsys dx_block :=
  sb <- mget f_sb;;
  b <- data (dx_b root);;
  let leaf_count := ext4_dir_dx_climit_get_count (dx_entries root) b in
  store fblk (fun new =>
    ext4_dir_dx_climit_set_limit DX_NODE (dx_node_limit sb) (dx_new_node sb (dx_entries root) 0 leaf_count b new));;;
  store (dx_b root) (fun b =>
    let b := ext4_dir_dx_climit_set_count (dx_entries root) 1 b in
    let b := ext4_dir_dx_entry_set_block (dx_entries root) 0 iblk b in
    wr dxi_indirect_levels DX_INFO 1 b);;;
  dx_set_csum (dx_b root);;;
  dx_set_csum fblk;;;
  dx_set_dirty (dx_b root);;;
  dx_set_dirty fblk;;;
  mok (mk_dx fblk DX_NODE (dx_position root)).
(** Room for an entry in the lowest node of the path, root first; the error code
    and the path. *)
Definition ext4_dir_dx_split_index (path : list dx_block) : M fsys (Z * list dx_block) :=
  match path with
  | [] => mok (EOK, [])
  | root :: below =>
      let p := List.last below root in
      let en := if bool_decide (below = []) then DX_ROOT else DX_NODE in
      b <- data (dx_b p);;
      if negb (ext4_dir_dx_climit_get_limit en b =? ext4_dir_dx_climit_get_count en b) then mok (EOK, path)
      else
        rb <- data (dx_b root);;
        if negb (bool_decide (below = []))
           && (ext4_dir_dx_climit_get_limit DX_ROOT rb =? ext4_dir_dx_climit_get_count DX_ROOT rb)
        then mok (ENOSPC, path)
        else
          r <- mtry (let* (fblk, iblk) := ext4_fs_append_inode_dblk in on_st (bs_get_noread fblk);;; mok (fblk, iblk));;
          match r with
          | Err rc => mok (rc, path)
          | Ok (fblk, iblk) =>
              match below with
              | [] => p <- split_root root fblk iblk;; mok (EOK, [root; p])
              | _ => let* (rc, p) := split_node root p fblk iblk in mok (rc, [root; p])
              end
          end
  end.

(** [release_index] and [release_target_index]: what the call returns after [rc2]. *)
Fixpoint release_index (path : list dx_block) (rc2 : result unit) : M fsys unit :=
  match path with
  | [] => match rc2 with Ok _ => mok tt | Err rc => mfail rc end
  | p :: path => on_st (bs_set (dx_b p));;; release_index path rc2
  end.
Definition release_target_index (target : Z) (path : list dx_block) (rc2 : result unit) : M fsys unit :=
  on_st (bs_set target);;; release_index path rc2.
(** [ext4_dir_try_insert_entry] on a block that is held. *)
Definition dir_insert_in (blk : Z) (child : child_ref) (name : list Z) : M fsys unit :=
  sb <- mget f_sb;;
  dir <- this_dir;;
  b <- data blk;;
  match ext4_dir_try_insert_entry sb dir child name b with
  | Err rc => mfail rc
  | Ok b => store blk (fun _ => b);;; mtry (on_st (bs_dirty blk));;; mok tt
  end.
(** [for (dx_it = dx_blks; dx_it <= dx_blk; ++dx_it)]. *)
Fixpoint dx_path_verified (sb : list Z) (dir : dir_ref) (path : list dx_block) : M fsys bool :=
  match path with
  | [] => mok true
  | p :: path =>
      b <- data (dx_b p);;
      if negb (ext4_dir_dx_csum_verify sb dir b) then mok false else dx_path_verified sb dir path
  end.

(** The leaf [target] is held, and there is room in the index. *)
Definition dx_add_to_leaf (hinfo : hash_info) (target : Z) (path : list dx_block) (child : child_ref) (name : list Z)
  : M fsys unit :=
  sb <- mget f_sb;;
  dir <- this_dir;;
  t <- data target;;
  if negb (ext4_dir_csum_verify sb dir t) then release_target_index target path (Err EIO)
  else
    r <- mtry (dir_insert_in target child name);;
    match r with
    | Ok _ => release_target_index target path (Ok tt)
    | Err rc =>
        if negb (rc =? ENOSPC) then release_target_index target path (Err rc)
        else
          let p := List.last path (mk_dx 0 0 0) in
          r <- mtry (ext4_dir_dx_split_data hinfo target p);;
          match r with
          | Err rc => release_target_index target path (Err rc)
          | Ok new_block =>
              b <- data (dx_b p);;
              let blk_hash := ext4_dir_dx_entry_get_hash (dx_entries p) (dx_position p + 1) b in
              mtry (dir_insert_in (if blk_hash <=? hi_hash hinfo then new_block else target) child name);;;
              on_st (bs_set new_block);;;
              release_target_index target path (Ok tt)
          end
    end.
(** [None]: what happens is not defined, because [dx_blk] or [target_block] is used
    before it is set. *)
Definition ext4_dir_dx_add_entry (child : child_ref) (name : list Z) : M fsys (option unit) :=
  sb <- mget f_sb;;
  rblock_addr <- ext4_fs_get_inode_dblk_idx 0 false;;
  on_st (bs_get rblock_addr);;;
  dir <- this_dir;;
  root <- data rblock_addr;;
  if negb (ext4_dir_dx_csum_verify sb dir root) then mtry (on_st (bs_set rblock_addr));;; mfail EIO
  else
    match ext4_dir_hinfo_init sb stack name root with
    | Err _ => mtry (on_st (bs_set rblock_addr));;; mfail EXT4_ERR_BAD_DX_DIR
    | Ok hinfo =>
        found <- ext4_dir_dx_get_leaf hinfo rblock_addr;;
        match found with
        | inr _ => mok None
        | inl path =>
            ok <- dx_path_verified sb dir path;;
            let fail rc := release_index path (Err rc);;; mok (Some tt) in
            if negb ok then fail EIO
            else
              let p := List.last path (mk_dx 0 0 0) in
              b <- data (dx_b p);;
              r <- mtry (
                leaf <- ext4_fs_get_inode_dblk_idx (ext4_dir_dx_entry_get_block (dx_entries p) (dx_position p) b) false;;
                on_st (bs_get leaf);;;
                d <- data leaf;;
                mtry (on_st (bs_set leaf));;;
                if ext4_dir_csum_verify sb dir d then mok leaf else mfail EIO);;
              match r with
              | Err rc => fail rc
              | Ok leaf =>
                  let* (rc, path) := ext4_dir_dx_split_index path in
                  if negb (rc =? EOK) then mok None
                  else
                    r <- mtry (on_st (bs_get leaf));;
                    match r with
                    | Err rc => release_index path (Err rc);;; mok (Some tt)
                    | Ok _ => dx_add_to_leaf hinfo leaf path child name;;; mok (Some tt)
                    end
              end
        end
    end.
End DirIdx.
