(* ===== verification/Dir.v ===== *)
(** * Directories

    Core/lwext4/src/ext4_dir.c over all the blocks of a directory: the iterator, and
    finding, adding and removing an entry, through the hash index of DirIdx.v where
    the directory has one and block after block where not.  What is done inside a
    block is in DirBlock.v. *)

From S2P Require Import Prelude Layout Types Super BlockGroup Inode ExtNode DirBlock Store Group Fs.
From S2P Require Import Extent Balloc ExtTree ExtRemove Imap Ialloc InodeOps DirIdx.

(** [struct ext4_dir_iter]: the byte of the entry in its block, the block held (0 if
    none) and the offset in the directory. *)
Record dir_iter := mk_iter { it_curr : option Z; it_blk : Z; it_off : Z }.

Section Dir.
Context {St : Type} {BS : BlockStore St}.
Context (stack : list Z).
Context (qsort : (dx_sort_entry -> dx_sort_entry -> Z) -> list dx_sort_entry -> list dx_sort_entry).
Local Abbreviation fsys := (fsys St).

(** ** The iterator

    The error code, and the iterator, which changes on failure too. *)

Definition ext4_dir_iterator_set (it : dir_iter) (block_size : Z) : M fsys (Z * dir_iter) :=
  sb <- mget f_sb;;
  b <- data (it_blk it);;
  let off_in_block := u32 (it_off it mod block_size) in
  let bad := (EIO, mk_iter None (it_blk it) (it_off it)) in
  let length := ext4_dir_en_get_entry_len off_in_block b in
  mok (if negb (off_in_block mod 4 =? 0) then bad
       else if block_size - 8 <? off_in_block then bad
       else if block_size <? off_in_block + length then bad
       else if length - 8 <? ext4_dir_en_get_name_len sb off_in_block b then bad
       else (EOK, mk_iter (Some off_in_block) (it_blk it) (it_off it))).

(** The block held is given back. *)
Definition iter_put (it : dir_iter) : M fsys (Z * dir_iter) :=
  if it_blk it =? 0 then mok (EOK, it)
  else
    r <- mtry (on_st (bs_set (it_blk it)));;
    mok (match r with Ok _ => EOK | Err rc => rc end, mk_iter (it_curr it) 0 (it_off it)).
Definition ext4_dir_iterator_seek (it : dir_iter) (pos : Z) : M fsys (Z * dir_iter) :=
  sb <- mget f_sb;;
  size <- on_inode (ext4_inode_get_size sb);;
  let it := mk_iter None (it_blk it) (it_off it) in
  if size <=? pos then
    let* (r, it) := iter_put it in
    mok (r, if r =? EOK then mk_iter None (it_blk it) pos else it)
  else
    let block_size := ext4_sb_get_block_size sb in
    let current_blk_idx := it_off it / block_size in
    let next_blk_idx := u32 (pos / block_size) in
    let* (r, it) :=
      (if (it_blk it =? 0) || negb (current_blk_idx =? next_blk_idx) then
         let* (r, it) := iter_put it in
         if negb (r =? EOK) then mok (r, it)
         else
           r <- mtry (next_blk <- ext4_fs_get_inode_dblk_idx next_blk_idx false;;
                      on_st (bs_get next_blk);;; mok next_blk);;
           mok match r with
               | Ok next_blk => (EOK, mk_iter None next_blk (it_off it))
               | Err rc => (rc, it)
               end
       else mok (EOK, it)) in
    if negb (r =? EOK) then mok (r, it)
    else ext4_dir_iterator_set (mk_iter None (it_blk it) pos) block_size.

Definition ext4_dir_iterator_init (pos : Z) : M fsys (Z * dir_iter) :=
  ext4_dir_iterator_seek (mk_iter None 0 0) pos.

(** [while (r == EOK)]; an entry takes 8 bytes or more, so there are fewer turns
    than bytes. *)
Fixpoint iterator_next_loop (fuel : nat) (it : dir_iter) : M fsys (Z * dir_iter) :=
  match fuel, it_curr it with
  | S fuel, Some de =>
      b <- data (it_blk it);;
      let skip := ext4_dir_en_get_entry_len de b in
      let* (r, it) := ext4_dir_iterator_seek it (u64 (it_off it + skip)) in
      match it_curr it with
      | None => mok (r, it)
      | Some de =>
          b <- data (it_blk it);;
          if negb (ext4_dir_en_get_inode de b =? 0) then mok (r, it)
          else if negb (r =? EOK) then mok (r, it)
          else iterator_next_loop fuel it
      end
  | _, _ => mok (EOK, it)
  end.
(** The iterator is at an entry. *)
Definition ext4_dir_iterator_next (it : dir_iter) : M fsys (Z * dir_iter) :=
  sb <- mget f_sb;;
  size <- on_inode (ext4_inode_get_size sb);;
  iterator_next_loop (S (Z.to_nat size)) it.
Definition ext4_dir_iterator_fini (it : dir_iter) : M fsys unit :=
  if it_blk it =? 0 then mok tt else on_st (bs_set (it_blk it)).

(** ** Through the index, or block after block *)

(** [None] of the answers below: what the index does is not defined (DirIdx.v). *)
Definition has_index : M fsys bool :=
  sb <- mget f_sb;;
  flag <- on_inode (fun p b => ext4_inode_has_flag p b EXT4_INODE_FLAG_INDEX);;
  mok (ext4_sb_feature_com sb EXT4_FCOM_DIR_INDEX && flag).
(** The index is tried; one that is corrupted is abandoned, for this and for later
    calls. *)
Definition with_index {A} (by_index : M fsys (option A)) (linear : M fsys A) : M fsys (option A) :=
  indexed <- has_index;;
  let linear := a <- linear;; mok (Some a) in
  if (indexed : bool) then
    r <- mtry by_index;;
    match r with
    | Ok a => mok a
    | Err rc =>
        if negb (rc =? EXT4_ERR_BAD_DX_DIR) then mfail rc
        else
          inode_store (fun p => ext4_inode_clear_flag p EXT4_INODE_FLAG_INDEX);;;
          inode_dirty;;;
          linear
    end
  else linear.
Definition dir_total_blocks : M fsys Z :=
  sb <- mget f_sb;;
  size <- on_inode (ext4_inode_get_size sb);;
  mok (u32 (size / ext4_sb_get_block_size sb)).

(** [for (iblock = 0; iblock < total_blocks; ++iblock)]: [n] blocks from [iblock] on. *)
Fixpoint find_linear (n : nat) (iblock : Z) (name : list Z) : M fsys (Z * Z) :=
  match n with
  | O => mfail ENOENT
  | S n =>
      sb <- mget f_sb;;
      fblock <- ext4_fs_get_inode_dblk_idx iblock false;;
      on_st (bs_get fblock);;;
      b <- data fblock;;
      match ext4_dir_find_in_block sb name b with
      | Ok de => mok (fblock, de)
      | Err rc =>
          if negb (rc =? ENOENT) then mtry (on_st (bs_set fblock));;; mfail rc
          else on_st (bs_set fblock);;; find_linear n (iblock + 1) name
      end
  end.
(** The block and the byte of the entry; the block is held. *)
Definition ext4_dir_find_entry (name : list Z) : M fsys (option (Z * Z)) :=
  with_index (ext4_dir_dx_find_entry stack name)
    (n <- dir_total_blocks;; find_linear (Z.to_nat n) 0 name).
Definition ext4_dir_destroy_result (result : Z * Z) : M fsys unit :=
  if fst result =? 0 then mok tt else on_st (bs_set (fst result)).

(** Whether a block had room for the entry. *)
Fixpoint add_linear (n : nat) (iblock : Z) (child : child_ref) (name : list Z) : M fsys bool :=
  match n with
  | O => mok false
  | S n =>
      sb <- mget f_sb;;
      dir <- this_dir;;
      fblock <- ext4_fs_get_inode_dblk_idx iblock false;;
      on_st (bs_get fblock);;;
      b <- data fblock;;
      if negb (ext4_dir_csum_verify sb dir b) then mtry (on_st (bs_set fblock));;; mfail EIO
      else
        r <- mtry (dir_insert_in fblock child name);;
        match r with
        | Ok _ => on_st (bs_set fblock);;; mok true
        | Err rc =>
            if negb (rc =? ENOSPC) then mtry (on_st (bs_set fblock));;; mfail rc
            else on_st (bs_set fblock);;; add_linear n (iblock + 1) child name
        end
  end.
Definition dir_append (child : child_ref) (name : list Z) : M fsys unit :=
  sb <- mget f_sb;;
  let* (fblock, iblock) := ext4_fs_append_inode_dblk in
  on_st (bs_get_noread fblock);;;
  dir <- this_dir;;
  store fblock (dir_new_block sb dir child name);;;
  mtry (on_st (bs_dirty fblock));;;
  on_st (bs_set fblock).
Definition ext4_dir_add_entry (name : list Z) (child : child_ref) : M fsys (option unit) :=
  with_index (ext4_dir_dx_add_entry stack qsort child name)
    (n <- dir_total_blocks;;
     added <- add_linear (Z.to_nat n) 0 child name;;
     if (added : bool) then mok tt else dir_append child name).

Definition ext4_dir_remove_entry (name : list Z) : M fsys (option unit) :=
  sb <- mget f_sb;;
  is_dir <- on_inode (fun p b => ext4_inode_is_type sb p b EXT4_INODE_MODE_DIRECTORY);;
  if negb is_dir then mfail ENOTDIR
  else
    found <- ext4_dir_find_entry name;;
    match found with
    | None => mok None
    | Some (blk, de) =>
        dir <- this_dir;;
        b <- data blk;;
        if negb (ext4_dir_csum_verify sb dir b) then mtry (ext4_dir_destroy_result (blk, de));;; mfail EIO
        else
          let '(r, b) := dir_remove_in_block sb dir de b in
          store blk (fun _ => b);;;
          match r with
          | Err rc => mtry (ext4_dir_destroy_result (blk, de));;; mfail rc
          | Ok _ =>
              mtry (on_st (bs_dirty blk));;;
              ext4_dir_destroy_result (blk, de);;;
              mok (Some tt)
          end
    end.
End Dir.
