(* ===== verification/DirWalk.v ===== *)
(** * Directories of several blocks

    What the operations of Dir.v on a directory without an index are for: the
    directory is one finite map from names to inodes, the union of the maps of its
    blocks, and they look a name up in it, add a name and remove one. *)

From S2P Require Import Prelude Layout Types Super BlockGroup Inode ExtNode DirBlock DirLaws DirSpec DirProps Store Group Fs FsSpec.
From S2P Require Import Extent ExtentProps Balloc ExtTree ExtRemove Imap ImapSpec Ialloc InodeOps DirIdx Dir.
From S2P Require Import Device Bcache CacheSpec CacheProps Sample.

Local Abbreviation name_map := (gmap (list Z) (Z * Z)).

(** ** The map of a directory *)

Definition dir_names (ms : list name_map) : name_map := foldr (∪) ∅ ms.
Definition apart (ms : list name_map) : Prop :=
  forall i j Mi Mj, ms !! i = Some Mi -> ms !! j = Some Mj -> i <> j -> Mi ##ₘ Mj.

Lemma apart_cons M ms : apart (M :: ms) -> apart ms /\ M ##ₘ dir_names ms.
Proof.
  intros H. split; [intros i j Mi Mj Hi Hj Hne; apply (H (S i) (S j)); [done..|lia]|].
  assert (H0 : forall N, N ∈ ms -> M ##ₘ N).
  { intros N (j & Hj)%list_elem_of_lookup_1. by apply (H 0%nat (S j)). }
  clear H. induction ms as [|N ms IH]; [apply map_disjoint_empty_r|]. cbn [dir_names foldr].
  apply map_disjoint_union_r. split; [apply H0; by left|]. apply IH. intros N' HN. apply H0. by right.
Qed.
Lemma names_lookup ms i M name v :
  apart ms -> ms !! i = Some M -> M !! name = Some v -> dir_names ms !! name = Some v.
Proof.
  revert i. induction ms as [|N ms IH]; intros i Ha Hi Hv; [done|]. apply apart_cons in Ha as [Ha Hd]. cbn [dir_names foldr].
  destruct i as [|i]; [injection Hi as ->; by apply lookup_union_Some_l|]. apply lookup_union_Some_r; [done|]. by apply (IH i).
Qed.
Lemma names_none ms name : (forall i M, ms !! i = Some M -> M !! name = None) -> dir_names ms !! name = None.
Proof.
  induction ms as [|N ms IH]; intros H; [done|]. cbn [dir_names foldr]. apply lookup_union_None.
  split; [by apply (H 0%nat)|]. apply IH. intros i M. by apply (H (S i)).
Qed.
Lemma none_names ms name i M : apart ms -> dir_names ms !! name = None -> ms !! i = Some M -> M !! name = None.
Proof.
  intros Ha Hn Hi. destruct (M !! name) as [v|] eqn:E; [|done]. by rewrite (names_lookup ms i M name v Ha Hi E) in Hn.
Qed.

Lemma names_insert ms i M name v :
  apart ms -> ms !! i = Some M -> dir_names ms !! name = None ->
  apart (<[i := <[name := v]> M]> ms) /\ dir_names (<[i := <[name := v]> M]> ms) = <[name := v]> (dir_names ms).
Proof.
  intros Ha Hi Hn. split.
  - intros j k Mj Mk Hj Hk Hne.
    assert (HD : forall l N, ms !! l = Some N -> l <> i -> <[name := v]> M ##ₘ N).
    { intros l N Hl Hli. apply map_disjoint_insert_l. split; [by apply (none_names ms name l)|]. by apply (Ha i l). }
    destruct (decide (j = i)) as [->|Hji], (decide (k = i)) as [->|Hki]; [done|..].
    + rewrite list_lookup_insert_eq in Hj by by eapply lookup_lt_Some. injection Hj as <-.
      rewrite list_lookup_insert_ne in Hk by done. by apply (HD k).
    + rewrite list_lookup_insert_eq in Hk by by eapply lookup_lt_Some. injection Hk as <-.
      rewrite list_lookup_insert_ne in Hj by done. symmetry. by apply (HD j).
    + rewrite list_lookup_insert_ne in Hj, Hk by done. by apply (Ha j k).
  - revert i Hi. induction ms as [|N ms IH]; intros i Hi; [done|]. pose proof (apart_cons N ms Ha) as [Ha' Hd].
    cbn [dir_names foldr] in Hn. apply lookup_union_None in Hn as [Hn1 Hn2].
    destruct i as [|i]; cbn in Hi; [injection Hi as ->; cbn; by rewrite insert_union_l|].
    change (N ∪ dir_names (<[i := <[name := v]> M]> ms) = <[name := v]> (N ∪ dir_names ms)).
    by rewrite (IH Ha' Hn2 i Hi), insert_union_r.
Qed.
Lemma names_delete ms i M name :
  apart ms -> ms !! i = Some M -> is_Some (M !! name) ->
  apart (<[i := delete name M]> ms) /\ dir_names (<[i := delete name M]> ms) = delete name (dir_names ms).
Proof.
  intros Ha Hi Hv. split.
  - intros j k Mj Mk Hj Hk Hne.
    assert (HD : forall l N, ms !! l = Some N -> l <> i -> delete name M ##ₘ N).
    { intros l N Hl Hli. apply map_disjoint_delete_l. by apply (Ha i l). }
    destruct (decide (j = i)) as [->|Hji], (decide (k = i)) as [->|Hki]; [done|..].
    + rewrite list_lookup_insert_eq in Hj by by eapply lookup_lt_Some. injection Hj as <-.
      rewrite list_lookup_insert_ne in Hk by done. by apply (HD k).
    + rewrite list_lookup_insert_eq in Hk by by eapply lookup_lt_Some. injection Hk as <-.
      rewrite list_lookup_insert_ne in Hj by done. symmetry. by apply (HD j).
    + rewrite list_lookup_insert_ne in Hj, Hk by done. by apply (Ha j k).
  - revert i Hi. induction ms as [|N ms IH]; intros i Hi; [done|]. pose proof (apart_cons N ms Ha) as [Ha' Hd].
    destruct Hv as [v Hv]. destruct i as [|i]; cbn in Hi.
    + injection Hi as ->. change (delete name M ∪ dir_names ms = delete name (M ∪ dir_names ms)). rewrite delete_union. f_equal. symmetry. apply delete_id. eapply map_disjoint_Some_l; [exact Hd|exact Hv].
    + change (N ∪ dir_names (<[i := delete name M]> ms) = delete name (N ∪ dir_names ms)).
      rewrite (IH Ha' i Hi), delete_union. f_equal. symmetry. apply delete_id.
      eapply map_disjoint_Some_r; [exact Hd|]. by eapply names_lookup.
Qed.

(** ** A directory on a volume *)

Definition inode_dir (ir : inode_ref) (c : Z -> list Z) : dir_ref :=
  mk_dir_ref (ir_index ir) (ext4_inode_get_generation (ir_off ir) (c (ir_block ir))).
Definition inode_indexed (sb : list Z) (ir : inode_ref) (c : Z -> list Z) : bool :=
  ext4_sb_feature_com sb EXT4_FCOM_DIR_INDEX && ext4_inode_has_flag (ir_off ir) (c (ir_block ir)) EXT4_INODE_FLAG_INDEX.

(** The inode [ir] is a directory without an index; its blocks, at [m 0], [m 1],
    ..., stand for the maps [ms]. *)
Record dir_vol (sb : list Z) (ir : inode_ref) (c : Z -> list Z) (m : Z -> Z) (meta : list Z) (ms : list name_map) : Prop := {
  dv_plain : inode_indexed sb ir c = false;
  dv_count : Z.of_nat (length ms) < 2 ^ 32;
  dv_size : ext4_inode_get_size sb (ir_off ir) (c (ir_block ir)) = Z.of_nat (length ms) * ext4_sb_get_block_size sb;
  dv_map : file_map sb ir (Z.of_nat (length ms)) c m meta;
  dv_place : forall i, (i < length ms)%nat -> 0 <= m (Z.of_nat i) /\ m (Z.of_nat i) <> ir_block ir /\ m (Z.of_nat i) ∉ meta;
  dv_inj : forall i j, (i < length ms)%nat -> (j < length ms)%nat -> m (Z.of_nat i) = m (Z.of_nat j) -> i = j;
  dv_blocks : forall i M, ms !! i = Some M -> dir_holds sb (inode_dir ir c) (c (m (Z.of_nat i))) M;
  dv_apart : apart ms;
}.

Section DirWalk.
Context {St : Type} {BS : BlockStore St} {bsz : Z} {BL : BlockStoreLaws St bsz}.
Context (sb : list Z) (ir : inode_ref) (li : Z) (h : Z -> Z) (m : Z -> Z) (meta : list Z).
Context (G : dir_geom sb) (Hbsz : ext4_sb_get_block_size sb = bsz).
Local Abbreviation fa n f c h := (fabs (bsz := bsz) n f sb ir li c h ∅).
Local Abbreviation vol c ms := (dir_vol sb ir c m meta ms).

(** A change outside the directory's blocks and its inode keeps it, if the map of
    its blocks survives. *)
Lemma vol_same c c' ms :
  vol c ms -> c' (ir_block ir) = c (ir_block ir) -> file_map sb ir (Z.of_nat (length ms)) c' m meta ->
  (forall i, (i < length ms)%nat -> c' (m (Z.of_nat i)) = c (m (Z.of_nat i))) -> vol c' ms.
Proof.
  intros [V1 V2 V3 V4 V5 V6 V7 V8] Hi Hm Hb. split; [|exact V2| |exact Hm|exact V5|exact V6| |exact V8].
  - unfold inode_indexed in *. by rewrite Hi.
  - rewrite Hi. exact V3.
  - intros i M HM. unfold inode_dir. rewrite Hi, Hb by by eapply lookup_lt_Some. by apply V7.
Qed.
(** A new block in place of block [j]. *)
Lemma vol_update c c' ms j M' :
  vol c ms -> (j < length ms)%nat -> (forall x, x <> m (Z.of_nat j) -> c' x = c x) ->
  dir_holds sb (inode_dir ir c) (c' (m (Z.of_nat j))) M' -> apart (<[j := M']> ms) -> vol c' (<[j := M']> ms).
Proof.
  intros [V1 V2 V3 V4 V5 V6 V7 V8] Hj Ho HM' Ha. destruct (V5 j Hj) as (_ & Hne & Hmeta).
  assert (Hi : c' (ir_block ir) = c (ir_block ir)) by (apply Ho; congruence).
  split; rewrite ?length_insert; try assumption.
  - unfold inode_indexed in *. rewrite Hi. assumption.
  - rewrite Hi. assumption.
  - eapply file_map_same; [exact V4|done|]. intros x Hx. apply Ho. congruence.
  - intros i M HM. unfold inode_dir. rewrite Hi. destruct (decide (i = j)) as [->|Hij].
    + rewrite list_lookup_insert_eq in HM by exact Hj. by injection HM as <-.
    + rewrite list_lookup_insert_ne in HM by congruence. pose proof (lookup_lt_Some _ _ _ HM). rewrite Ho; [by apply V7|].
      intros E. by apply Hij, V6.
Qed.

(** Finding a block of the directory and fetching it. *)
Lemma dir_fetch_wp {B} (k : Z -> M (fsys St) B) c ms n f i M (Q : result B -> fsys St -> Prop) :
  fa n f c h -> vol c ms -> n + 6 < 2 ^ 32 -> 0 < h (ir_block ir) -> ms !! i = Some M ->
  (forall rc f', clean_err (St := St) rc -> Q (Err rc) f') ->
  (forall c' f', fa (n + 6) f' c' (fupd (m (Z.of_nat i)) (h (m (Z.of_nat i)) + 1) h) -> vol c' ms ->
     (forall j, (j < length ms)%nat -> c' (m (Z.of_nat j)) = c (m (Z.of_nat j))) -> c' (ir_block ir) = c (ir_block ir) ->
     m (Z.of_nat i) <> 0 -> wp (k (m (Z.of_nat i))) f' Q) ->
  wp (fblock <- ext4_fs_get_inode_dblk_idx (Z.of_nat i) false;; on_st (bs_get fblock);;; k fblock) f Q.
Proof.
  intros A V Hn Hir HM HE HQ. pose proof (lookup_lt_Some _ _ _ HM) as Hlt. pose proof (dv_count _ _ _ _ _ _ V).
  fs_step. eapply wp_mono.
  { apply (file_block_wp sb ir li h (Z.of_nat (length ms)) m meta c n f (Z.of_nat i) A); try lia; [|by apply V].
    rewrite (dv_size _ _ _ _ _ _ V). destruct (block_size_cases sb) as (e & He & ->).
    assert (0 < 2 ^ e) by (apply Z.pow_pos_nonneg; lia). nia. }
  intros [b|rc] f1; [|intros; by apply HE]. intros (-> & c1 & A1 & Ho & Hm & Hi). cbv beta iota.
  destruct (dv_place _ _ _ _ _ _ V i Hlt) as (H0 & _).
  fs_step. fs_step; [lia|done|apply not_elem_of_empty| |intros; by apply HE].
  intros f2 Hne A2. apply (HQ c1); [by replace (n + 6) with (n + 5 + 1) by lia| | | |done].
  - eapply vol_same; [exact V|done|done|]. intros j Hj. apply Ho. by apply (dv_place _ _ _ _ _ _ V).
  - intros j Hj. apply Ho. by apply (dv_place _ _ _ _ _ _ V).
  - done.
Qed.

(** ** Finding *)

(** An entry of [name] was found in [blk] at [pos]: the block is held once more. *)
Definition found_in (N : Z) (ms : list name_map) (name : list Z) (i : nat) (r : Z * Z) (f' : fsys St) : Prop :=
  exists j M v c', (i <= j)%nat /\ ms !! j = Some M /\ M !! name = Some v /\ fst r = m (Z.of_nat j) /\ fst r <> 0 /\
    fa N f' c' (fupd (fst r) (h (fst r) + 1) h) /\ vol c' ms /\
    ext4_dir_find_in_block sb name (c' (fst r)) = Ok (snd r) /\
    ext4_dir_en_get_inode (snd r) (c' (fst r)) = v.1 /\ ext4_dir_en_get_inode_type sb (snd r) (c' (fst r)) = v.2.
(** No block from [i] on has the name. *)
Definition not_from (ms : list name_map) (name : list Z) (i : nat) : Prop :=
  forall j M, (i <= j)%nat -> ms !! j = Some M -> M !! name = None.

Lemma find_linear_wp name ms k : forall i c n f,
  (i + k = length ms)%nat -> fa n f c h -> vol c ms -> n + 6 * Z.of_nat k < 2 ^ 32 -> 0 < h (ir_block ir) ->
  wp (find_linear k (Z.of_nat i) name) f (fun r f' =>
    match r with
    | Ok r => found_in (n + 6 * Z.of_nat k) ms name i r f'
    | Err rc => clean_err (St := St) rc \/ (rc = ENOENT /\ not_from ms name i)
    end).
Proof.
  induction k as [|k IH]; intros i c n f Hik A V Hn Hir; cbn [find_linear].
  { fs_step. right. split; [done|]. intros j M Hj HM. apply lookup_lt_Some in HM. lia. }
  destruct (lookup_lt_is_Some_2 ms i) as (M & HM); [lia|]. pose proof (fabs_held _ _ _ _ _ _ _ _ A (m (Z.of_nat i))) as Hh.
  fs_step. fs_step.
  eapply (dir_fetch_wp (fun fblock => b <- data fblock;; _) c ms n f i M); try done; [lia|intros; by left|].
  intros c1 f1 A1 V1 _ _ Hne0. set (a := m (Z.of_nat i)) in *.
  assert (Ha : 0 < fupd a (h a + 1) h a) by (rewrite fupd_eq; lia).
  fs_step. fs_step; [done|]. pose proof (lookup_map sb G _ _ M name (dv_blocks _ _ _ _ _ _ V1 i M HM)) as HL.
  destruct (M !! name) as [[ino type]|] eqn:Hm.
  - destruct HL as (pos & E & E1 & E2). fold a in E, E1, E2. rewrite E. fs_step. exists i, M, (ino, type), c1.
    split; [lia|]. split; [done|]. split; [done|]. split; [done|]. split; [done|]. split; [|by split_and!].
    pose proof (fabs_budget _ _ _ _ _ _ _ _ A1). eapply fabs_weaken; [exact A1|lia|done..].
  - fold a in HL. rewrite HL. change (negb (ENOENT =? ENOENT)) with false. cbv iota.
    fs_step. fs_step; [done|apply not_elem_of_empty|]. intros f2 A2.
    assert (A3 : fa (n + 6) f2 c1 h).
    { eapply fabs_weaken; [exact A2|eapply fabs_budget, A2|done| |done]. intros y. symmetry. apply fupd_restore. }
    replace (Z.of_nat i + 1) with (Z.of_nat (S i)) by lia.
    eapply wp_mono; [apply (IH (S i) c1 (n + 6) f2); try done; lia|]. intros [r|rc] f3.
    + intros (j & Mj & v & c' & Hj & H). exists j, Mj, v, c'. split; [lia|].
      by replace (n + 6 * Z.of_nat (S k)) with (n + 6 + 6 * Z.of_nat k) by lia.
    + intros [H|[-> H]]; [by left|right]. split; [done|]. intros j Mj Hj HMj.
      destruct (decide (j = i)) as [->|]; [congruence|]. apply (H j Mj); [lia|done].
Qed.

(** ** Adding *)

Lemma this_dir_wp c n f (Q : result dir_ref -> fsys St -> Prop) hh :
  fa n f c hh -> 0 < hh (ir_block ir) -> Q (Ok (inode_dir ir c)) f -> wp this_dir f Q.
Proof. intros A Hh HQ. unfold this_dir. fs_step. fs_step. fs_step. eapply on_inode_wp; [done..|]. cbv beta iota. by fs_step. Qed.

(** What adding a name makes of a block's map. *)
Definition named (child : child_ref) (name : list Z) : Z * Z := (ch_index child, d_type (new_dent sb child name 0)).
Definition no_room (child : child_ref) (name : list Z) (c : Z -> list Z) (j : nat) : Prop :=
  ext4_dir_try_insert_entry sb (inode_dir ir c) child name (c (m (Z.of_nat j))) = Err ENOSPC.

(** The block of a held handle replaced by one that stands for [M'] and marked
    dirty. *)
Lemma replace_wp {B} (k : M (fsys St) B) c ms n f j M' b' hh (Q : result B -> fsys St -> Prop) :
  fa n f c hh -> vol c ms -> (j < length ms)%nat ->
  let a := m (Z.of_nat j) in
  0 < hh a -> dir_holds sb (inode_dir ir c) b' M' -> apart (<[j := M']> ms) ->
  (forall c' f', fa n f' c' hh -> vol c' (<[j := M']> ms) -> wp k f' Q) ->
  wp (store a (fun _ => b');;; mtry (on_st (bs_dirty a));;; k) f Q.
Proof.
  intros A V Hj a Ha HM' Hap HQ. fs_step. fs_step; [done| |].
  { intros _ _. destruct HM' as (l & [B1 B2 _ _] & _). split; [by rewrite B2|done]. }
  intros f1 A1. fs_step. fs_step; [done|]. intros f2 A2. apply (HQ (fupd a b' c)).
  { eapply fabs_weaken; [exact A2|eapply fabs_budget, A2|done|done|set_solver]. }
  eapply vol_update; [exact V|done| | |done]; fold a; [intros x Hx; by rewrite fupd_ne|by rewrite fupd_eq].
Qed.

Lemma insert_in_wp child name c ms n f j M hh :
  fa n f c hh -> vol c ms -> ms !! j = Some M -> entry_arg child name -> dir_names ms !! name = None ->
  let a := m (Z.of_nat j) in
  0 < hh a -> 0 < hh (ir_block ir) ->
  wp (mtry (dir_insert_in a child name)) f (fun r f' =>
    (r = Ok (Ok tt) /\ exists c', fa n f' c' hh /\ vol c' (<[j := <[name := named child name]> M]> ms)) \/
    (r = Ok (Err ENOSPC) /\ f' = f /\ no_room child name c j)).
Proof.
  intros A V HM E Hn a Ha Hir. apply wp_try. unfold dir_insert_in. fs_step. fs_step. fs_step.
  eapply this_dir_wp; [done..|]. cbv beta iota. fs_step. fs_step; [done|].
  destruct (names_insert ms j M name (named child name) (dv_apart _ _ _ _ _ _ V) HM Hn) as [Hap _].
  destruct (names_insert_map sb G _ _ M child name (dv_blocks _ _ _ _ _ _ V j M HM) E) as [(b' & Eb & Hb)|Eb].
  { by apply (none_names ms name j M); [apply V|..]. }
  - fold a in Eb. rewrite Eb. assert (Hlt : (j < length ms)%nat) by by eapply lookup_lt_Some.
    eapply replace_wp; [exact A|exact V|done|done|exact Hb|exact Hap|]. intros c' f' A' V'. fs_step.
    left. split; [done|]. by exists c'.
  - fold a in Eb. rewrite Eb. fs_step. right. by split_and!.
Qed.

(** Name after name the blocks are tried; the directory has the name afterwards, or
    no block had room. *)
Lemma add_linear_wp child name ms k : forall i c n f,
  (i + k = length ms)%nat -> fa n f c h -> vol c ms -> n + 6 * Z.of_nat k < 2 ^ 32 -> 0 < h (ir_block ir) ->
  entry_arg child name -> dir_names ms !! name = None ->
  wp (add_linear k (Z.of_nat i) child name) f (fun r f' =>
    let N := n + 6 * Z.of_nat k in
    match r with
    | Ok true => exists c' ms', fa N f' c' h /\ vol c' ms' /\ dir_names ms' = <[name := named child name]> (dir_names ms)
    | Ok false => exists c', fa N f' c' h /\ vol c' ms /\ forall j, (i <= j < length ms)%nat -> no_room child name c j
    | Err rc => clean_err (St := St) rc
    end).
Proof.
  induction k as [|k IH]; intros i c n f Hik A V Hn Hir E Hno; cbn [add_linear].
  { fs_step. exists c. split; [by replace (n + 6 * Z.of_nat 0) with n by lia|]. split; [done|]. lia. }
  destruct (lookup_lt_is_Some_2 ms i) as (M & HM); [lia|]. pose proof (fabs_held _ _ _ _ _ _ _ _ A (m (Z.of_nat i))) as Hh.
  fs_step. fs_step. fs_step. eapply this_dir_wp; [done..|]. cbv beta iota.
  eapply (dir_fetch_wp (fun fblock => b <- data fblock;; _) c ms n f i M); try done; [lia|].
  intros c1 f1 A1 V1 Hsame Hino _. set (a := m (Z.of_nat i)) in *. set (h1 := fupd a (h a + 1) h) in *.
  assert (Ha : 0 < h1 a) by (unfold h1; rewrite fupd_eq; lia).
  assert (Hi : 0 < h1 (ir_block ir)).
  { unfold h1. rewrite fupd_ne; [done|]. intros Eq. destruct (dv_place _ _ _ _ _ _ V i ltac:(lia)) as (_ & Hne & _). by apply Hne. }
  assert (Edir : inode_dir ir c = inode_dir ir c1) by (unfold inode_dir; by rewrite Hino).
  fs_step. fs_step; [done|]. rewrite Edir.
  assert (Hv : ext4_dir_csum_verify sb (inode_dir ir c1) (c1 a) = true).
  { destruct (dv_blocks _ _ _ _ _ _ V1 i M HM) as (l & _ & Hv & _). exact Hv. }
  rewrite Hv. cbn [negb]. fs_step.
  assert (Hback : forall cx f2, fa (n + 6) f2 cx (fupd a (h1 a - 1) h1) -> fa (n + 6) f2 cx h).
  { intros cx f2 A2. eapply fabs_weaken; [exact A2|eapply fabs_budget, A2|done| |done]. intros y. symmetry. apply fupd_restore. }
  eapply wp_mono; [by apply (insert_in_wp child name c1 ms (n + 6) f1 i M h1 A1 V1 HM E Hno Ha Hi)|].
  intros r f2 [(-> & c2 & A2 & V2)|(-> & -> & Hfull)]; cbv beta iota.
  - fs_step. fs_step; [done|apply not_elem_of_empty|]. intros f3 A3%Hback. fs_step.
    destruct (names_insert ms i M name (named child name) (dv_apart _ _ _ _ _ _ V) HM Hno) as [_ Hnames].
    exists c2, (<[i := <[name := named child name]> M]> ms). split; [|by split].
    eapply fabs_weaken; [exact A3|pose proof (fabs_budget _ _ _ _ _ _ _ _ A3); lia|done..].
  - change (negb (ENOSPC =? ENOSPC)) with false. cbv iota.
    fs_step. fs_step; [done|apply not_elem_of_empty|]. intros f3 A3%Hback.
    replace (Z.of_nat i + 1) with (Z.of_nat (S i)) by lia. replace (n + 6 * Z.of_nat (S k)) with (n + 6 + 6 * Z.of_nat k) by lia.
    eapply wp_mono; [apply (IH (S i) c1 (n + 6) f3); try done; lia|]. intros [[]|rc] f4; [done| |done].
    intros (c' & A4 & V4 & Hj). exists c'. split_and!; [done..|]. intros j Hj'. unfold no_room in *.
    rewrite Edir, <- Hsame by lia. destruct (decide (j = i)) as [->|]; [done|]. apply Hj. lia.
Qed.

(** ** The operations *)

Context (stack : list Z).
Context (qsort : (dx_sort_entry -> dx_sort_entry -> Z) -> list dx_sort_entry -> list dx_sort_entry).
Context (c : Z -> list Z) (n : Z) (f : fsys St) (ms : list name_map) (name : list Z).
Context (A : fa n f c h) (V : vol c ms) (Hn : n + 6 * Z.of_nat (length ms) < 2 ^ 32) (Hir : 0 < h (ir_block ir)).
Local Abbreviation N := (n + 6 * Z.of_nat (length ms)).

Lemma with_index_wp {B} (by_index : M (fsys St) (option B)) linear (Q : result (option B) -> fsys St -> Prop) :
  wp linear f (fun r f' => match r with Ok b => Q (Ok (Some b)) f' | Err rc => Q (Err rc) f' end) ->
  wp (with_index by_index linear) f Q.
Proof.
  intros HQ. unfold with_index, has_index. fs_step. fs_step. fs_step. fs_step. eapply on_inode_wp; [done..|].
  cbv beta iota. fs_step. pose proof (dv_plain _ _ _ _ _ _ V) as Hp. unfold inode_indexed in Hp. rewrite Hp.
  fs_step. eapply wp_mono; [exact HQ|]. intros [b|rc] f' H; [by fs_step|done].
Qed.
Lemma total_blocks_wp (Q : result Z -> fsys St -> Prop) :
  Q (Ok (Z.of_nat (length ms))) f -> wp dir_total_blocks f Q.
Proof.
  intros HQ. unfold dir_total_blocks. fs_step. fs_step. fs_step. eapply on_inode_wp; [done..|]. cbv beta iota. fs_step.
  rewrite (dv_size _ _ _ _ _ _ V). pose proof (dv_count _ _ _ _ _ _ V). destruct (block_size_cases sb) as (e & He & ->).
  assert (0 < 2 ^ e) by (apply Z.pow_pos_nonneg; lia). rewrite Z.div_mul by lia. rewrite u32_id by lia. done.
Qed.

Lemma find_entry_wp :
  wp (ext4_dir_find_entry stack name) f (fun r f' =>
    match r with
    | Ok (Some r) => found_in N ms name 0 r f'
    | Ok None => False
    | Err rc => clean_err (St := St) rc \/ (rc = ENOENT /\ not_from ms name 0)
    end).
Proof.
  unfold ext4_dir_find_entry. apply with_index_wp. fs_step. apply total_blocks_wp. cbv beta iota. rewrite Nat2Z.id.
  apply (find_linear_wp name ms (length ms) 0 c n f); done.
Qed.

(** The store itself says that there is no entry; a device has no reason to. *)
Definition store_enoent : Prop := exists a s, fst (bs_get (St := St) a s) = Err ENOENT.
Lemma not_found_wp rc :
  clean_err (St := St) rc \/ (rc = ENOENT /\ not_from ms name 0) ->
  rc <> EOK /\ (rc = ENOENT -> dir_names ms !! name = None \/ store_enoent).
Proof.
  intros [[H1 H2]|[-> H]]; (split; [done|]); [intros ->; right; apply H2; by right|].
  intros _. left. apply names_none. intros j M. apply H. lia.
Qed.

(** C7: A directory is one map from names to inodes, whatever the number of its blocks
    and whether extents or a block map say where they are (no index).  Finding a name
    (ext4_dir_find_entry) gives the entry the map has for it, with its block held;
    ENOENT says that no block has the name.  Adding a name the map lacks, where a
    block has room (ext4_dir_add_entry), and removing one (ext4_dir_remove_entry) give
    the map with the name added or removed, every block well formed with its checksum,
    and no handle left.  A failure is an error code, and never ENOENT unless the name
    is missing or the store said so. *)
Theorem directory_is_a_map (child : child_ref) :
  wp (ext4_dir_find_entry stack name) f (fun r f' =>
    match r with
    | Ok (Some (blk, pos)) => exists c', fa N f' c' (fupd blk (h blk + 1) h) /\ vol c' ms /\
        dir_names ms !! name =
          Some (ext4_dir_en_get_inode pos (c' blk), ext4_dir_en_get_inode_type sb pos (c' blk))
    | Ok None => False
    | Err rc => rc <> EOK /\ (rc = ENOENT -> dir_names ms !! name = None \/ store_enoent)
    end) /\
  (entry_arg child name -> dir_names ms !! name = None ->
   (exists j, (j < length ms)%nat /\ ~ no_room child name c j) ->
   wp (ext4_dir_add_entry stack qsort name child) f (fun r f' =>
     match r with
     | Ok (Some _) => exists c' ms', fa N f' c' h /\ vol c' ms' /\
         dir_names ms' = <[name := named child name]> (dir_names ms)
     | Ok None => False
     | Err rc => clean_err (St := St) rc
     end)) /\
  (ext4_inode_is_type sb (ir_off ir) (c (ir_block ir)) EXT4_INODE_MODE_DIRECTORY = true ->
   wp (ext4_dir_remove_entry stack name) f (fun r f' =>
     match r with
     | Ok (Some _) => is_Some (dir_names ms !! name) /\ exists c' ms', fa N f' c' h /\ vol c' ms' /\
         dir_names ms' = delete name (dir_names ms)
     | Ok None => False
     | Err rc => rc <> EOK /\ (rc = ENOENT -> dir_names ms !! name = None \/ store_enoent)
     end)).
Proof.
  pose proof (dv_apart _ _ _ _ _ _ V) as Hap. split; [|split].
  - eapply wp_mono; [apply find_entry_wp|]. intros [[[blk pos]|]|rc] f'; [|done|apply not_found_wp].
    intros (j & M & v & c' & _ & HM & Hv & _ & _ & A' & V' & _ & E1 & E2). exists c'. split; [done|]. split; [done|].
    rewrite (names_lookup ms j M name v Hap HM Hv). cbn in E1, E2. rewrite E1, E2. by destruct v.
  - intros E Hno (j & Hj & Hroom). unfold ext4_dir_add_entry. apply with_index_wp. fs_step. apply total_blocks_wp.
    cbv beta iota. rewrite Nat2Z.id. fs_step.
    eapply wp_mono; [apply (add_linear_wp child name ms (length ms) 0 c n f); done|]. cbv zeta.
    intros [[]|rc] f'; [|intros (c' & _ & _ & Hfull)|done]; cbv beta iota; [intros H; by fs_step|].
    exfalso. apply Hroom, Hfull. lia.
  - intros Hdir. unfold ext4_dir_remove_entry. fs_step. fs_step. fs_step. eapply on_inode_wp; [done..|]. cbv beta iota.
    rewrite Hdir. cbn [negb]. fs_step. eapply wp_mono; [apply find_entry_wp|].
    intros [[[blk pos]|]|rc] f'; [|done|apply not_found_wp]. cbv beta iota.
    intros (j & M & v & c' & _ & HM & Hv & Eb & Hne & A' & V' & Hf & _). cbn [fst snd] in *. subst blk.
    set (a := m (Z.of_nat j)) in *. set (h1 := fupd a (h a + 1) h) in *.
    pose proof (fabs_held _ _ _ _ _ _ _ _ A a) as Hh. assert (Hlt : (j < length ms)%nat) by by eapply lookup_lt_Some.
    assert (Ha : 0 < h1 a) by (unfold h1; rewrite fupd_eq; lia).
    assert (Hi : 0 < h1 (ir_block ir)).
    { unfold h1. rewrite fupd_ne; [done|]. destruct (dv_place _ _ _ _ _ _ V j Hlt) as (_ & Hneq & _). intros Eq. by apply Hneq. }
    fs_step. eapply this_dir_wp; [done..|]. cbv beta iota. fs_step. fs_step; [done|].
    destruct (remove_map sb G _ _ M name v (dv_blocks _ _ _ _ _ _ V' j M HM) Hv) as (pos' & b' & Hf' & Hr & Hb').
    fold a in Hf', Hr. rewrite Hf in Hf'. injection Hf' as <-.
    destruct (dv_blocks _ _ _ _ _ _ V' j M HM) as (l & _ & Hver & _). fold a in Hver. rewrite Hver, Hr. cbn [negb].
    destruct (names_delete ms j M name Hap HM ltac:(by exists v)) as [Hap' Hnames].
    eapply replace_wp; [exact A'|exact V'|done|done|exact Hb'|exact Hap'|]. intros c2 f2 A2 V2. fs_step.
    unfold ext4_dir_destroy_result. cbn [fst]. replace (a =? 0) with false by (symmetry; by apply Z.eqb_neq).
    fs_step; [done|apply not_elem_of_empty|]. intros f3 A3. fs_step.
    split; [exists v; by eapply names_lookup|]. eexists c2, _. split; [|by split].
    eapply fabs_weaken; [exact A3|eapply fabs_budget, A3|done| |done]. intros y. symmetry. apply fupd_restore.
Qed.
End DirWalk.

(** ** On the sample volume *)

Definition vol_dir_iref : inode_ref := mk_inode_ref 5 256 3 false.
Definition vol_dir_maps : list name_map := [{[ [97] := (13, 0) ]}; {[ [98] := (14, 0) ]}].
Definition vol_dir_place (i : Z) : Z := 40 + i.

Local Ltac vc := by vm_compute.

Lemma vol_dir_geom : dir_geom vol_sb.
Proof. split; vc. Qed.
Lemma vol_dir_block i name child b :
  entry_arg child name -> bytes_ok b -> blen b = 1024 -> vol_contents (vol_dir_place i) = dir_new_block vol_sb (inode_dir vol_dir_iref vol_contents) child name b ->
  dir_holds vol_sb (inode_dir vol_dir_iref vol_contents) (vol_contents (vol_dir_place i))
    {[name := (ch_index child, d_type (new_dent vol_sb child name 0))]}.
Proof. intros E Hb Hl ->. apply new_map; [exact vol_dir_geom|done|done|]. rewrite Hl. vc. Qed.
Lemma vol_dir_vol : dir_vol vol_sb vol_dir_iref vol_contents vol_dir_place [] vol_dir_maps.
Proof.
  assert (Hlen : forall i, (i < length vol_dir_maps)%nat -> i = 0%nat \/ i = 1%nat) by (cbn; lia).
  assert (Hz : bytes_ok (replicate 1024 0)) by (apply (bool_decide_unpack _); vc).
  split; [vc|vc|vc| | | | |].
  - assert (E : inode_extents vol_sb vol_dir_iref vol_contents = false) by vc. unfold file_map. rewrite E.
    intros i Hi. change (Z.of_nat (length vol_dir_maps)) with 2 in Hi.
    assert (H : i = 0 \/ i = 1) by lia. destruct H as [->| ->]; (split; [vc|]); intros x Hx; vm_compute in Hx; done.
  - intros i [->| ->]%Hlen; (split; [vc|]); (split; [vc|apply not_elem_of_nil]).
  - intros i j [->| ->]%Hlen [->| ->]%Hlen; done.
  - intros [|[|i]] M HM; [injection HM as <-|injection HM as <-|done].
    + apply (vol_dir_block 0 [97] (mk_child_ref 13 EXT4_INODE_MODE_FILE) (replicate 1024 0)); [|done..|vm_compute; reflexivity].
      split; [by vm_compute; repeat constructor|vc|done].
    + apply (vol_dir_block 1 [98] (mk_child_ref 14 EXT4_INODE_MODE_FILE) (replicate 1024 0)); [|done..|vm_compute; reflexivity].
      split; [by vm_compute; repeat constructor|vc|done].
  - intros [|[|i]] [|[|j]] Mi Mj Hi Hj Hne; try done; injection Hi as <-; injection Hj as <-;
      apply map_disjoint_singleton_l; vc.
Qed.

Lemma directory_is_a_map_witness :
  fst (@ext4_dir_remove_entry _ vol_store [] [98] (vol_fs_of vol_dir_iref)) = Ok (Some tt) /\
  exists f' c' ms', @fabs _ vol_store 1024 vol_laws 13 f' vol_sb vol_dir_iref 0 c' vol_held ∅ /\
    dir_vol vol_sb vol_dir_iref c' vol_dir_place [] ms' /\ dir_names ms' = {[ [97] := (13, 0) ]}.
Proof.
  assert (E : fst (@ext4_dir_remove_entry _ vol_store [] [98] (vol_fs_of vol_dir_iref)) = Ok (Some tt)) by (vm_compute; reflexivity).
  split; [exact E|].
  pose proof (directory_is_a_map (BL := vol_laws) vol_sb vol_dir_iref 0 vol_held vol_dir_place [] vol_dir_geom ltac:(vc) [] (fun _ l => l)
    vol_contents 1 (vol_fs_of vol_dir_iref) vol_dir_maps [98] (vol_fabs_of vol_dir_iref) vol_dir_vol ltac:(vc) ltac:(vc)
    (mk_child_ref 13 EXT4_INODE_MODE_FILE)) as (_ & _ & H).
  specialize (H ltac:(vc)). unfold wp in H.
  destruct (@ext4_dir_remove_entry _ vol_store [] [98] (vol_fs_of vol_dir_iref)) as [r f']. cbn [fst] in E. rewrite E in H.
  destruct H as (_ & c' & ms' & H1 & H2 & H3). exists f', c', ms'. split; [exact H1|]. split; [exact H2|]. rewrite H3. vc.
Defined.
