(* ===== verification/Probe.v ===== *)
(** * The probe of a volume

    [ext4b_probe] of Core/shim/ext4_bridge.c with its table of features, and the
    counters the bridge reports.  The probe reads the superblock by offsets of its
    own, before anything is mounted, and its verdict is what lets every other part
    of the program compute addresses from the superblock. *)

From stdpp Require Import strings.
From S2P Require Import Prelude Layout Types Bitmap Crc Super BlockGroup Group.

Definition SB_OFFSET : Z := 1024.
Definition SB_SIZE : Z := 1024.
Definition SBF_INODES_COUNT : Z := 0x000.
Definition SBF_BLOCKS_COUNT_LO : Z := 0x004.
Definition SBF_FREE_BLOCKS_LO : Z := 0x00C.
Definition SBF_FREE_INODES : Z := 0x010.
Definition SBF_LOG_BLOCK_SIZE : Z := 0x018.
Definition SBF_MAGIC : Z := 0x038.
Definition SBF_FEATURE_COMPAT : Z := 0x05C.
Definition SBF_FEATURE_INCOMPAT : Z := 0x060.
Definition SBF_FEATURE_RO_COMPAT : Z := 0x064.
Definition SBF_UUID : Z := 0x068.
Definition SBF_VOLUME_NAME : Z := 0x078.
Definition SBF_BLOCKS_COUNT_HI : Z := 0x150.
Definition SBF_FREE_BLOCKS_HI : Z := 0x158.
Definition SBF_CHECKSUM : Z := 0x3FC.
Definition SBF_FIRST_DATA_BLOCK : Z := 0x014.
Definition SBF_BLOCKS_PER_GROUP : Z := 0x020.
Definition SBF_INODES_PER_GROUP : Z := 0x028.
Definition SBF_FIRST_INO : Z := 0x054.
Definition SBF_INODE_SIZE : Z := 0x058.
Definition SBF_JOURNAL_INUM : Z := 0x0E0.
Definition SBF_RESERVED_GDT : Z := 0x0CE.
Definition SBF_DESC_SIZE : Z := 0x0FE.
Definition SBF_LOG_GROUPS_PER_FLEX : Z := 0x174.
Definition EXT_MAGIC : Z := 0xEF53.
Definition INCOMPAT_RECOVER : Z := 0x0004.
Definition COMPAT_HAS_JOURNAL : Z := 0x0004.

Definition rd16 (p : list Z) (off : Z) : Z :=
  u16 (Z.lor (byte_at p off) (u16 (Z.shiftl (byte_at p (off + 1)) 8))).
Definition rd32 (p : list Z) (off : Z) : Z :=
  Z.lor (Z.lor (Z.lor (byte_at p off) (u32 (Z.shiftl (byte_at p (off + 1)) 8)))
    (u32 (Z.shiftl (byte_at p (off + 2)) 16))) (u32 (Z.shiftl (byte_at p (off + 3)) 24)).

(** ** The policy *)

Inductive ext4b_policy := EXT4B_POLICY_SUPPORTED | EXT4B_POLICY_DOWNGRADED | EXT4B_POLICY_REFUSED.
#[export] Instance ext4b_policy_dec : EqDecision ext4b_policy.
Proof. solve_decision. Defined.
(** The two sets of features: 'I' incompat, 'R' ro_compat. *)
Inductive feature_set := set_I | set_R.
#[export] Instance feature_set_dec : EqDecision feature_set.
Proof. solve_decision. Defined.

Record ext4b_feature_rule := mk_rule {
  r_set : feature_set;
  r_bit : Z;
  r_name : string;
  r_policy : ext4b_policy;
  r_why : string;
}.

Local Open Scope string_scope.
Local Open Scope Z_scope.
Definition ext4b_feature_rules : list ext4b_feature_rule := [
  mk_rule set_I 0x0001 "compression" EXT4B_POLICY_REFUSED "filesystem uses compression";
  mk_rule set_I 0x0002 "filetype" EXT4B_POLICY_SUPPORTED "";
  mk_rule set_I 0x0004 "needs_recovery" EXT4B_POLICY_SUPPORTED "";
  mk_rule set_I 0x0008 "journal_dev" EXT4B_POLICY_REFUSED "this is an external journal device";
  mk_rule set_I 0x0010 "meta_bg" EXT4B_POLICY_REFUSED
    "filesystem uses meta_bg descriptor placement, which this driver reads incorrectly";
  mk_rule set_I 0x0040 "extent" EXT4B_POLICY_SUPPORTED "";
  mk_rule set_I 0x0080 "64bit" EXT4B_POLICY_SUPPORTED "";
  mk_rule set_I 0x0100 "mmp" EXT4B_POLICY_SUPPORTED "";
  mk_rule set_I 0x0200 "flex_bg" EXT4B_POLICY_SUPPORTED "";
  mk_rule set_I 0x0400 "ea_inode" EXT4B_POLICY_REFUSED "filesystem uses EA inodes";
  mk_rule set_I 0x2000 "metadata_csum_seed" EXT4B_POLICY_SUPPORTED "";
  mk_rule set_I 0x4000 "large_dir" EXT4B_POLICY_REFUSED "filesystem uses large directories";
  mk_rule set_I 0x8000 "inline_data" EXT4B_POLICY_REFUSED "filesystem uses inline data";
  mk_rule set_I 0x10000 "encrypt" EXT4B_POLICY_REFUSED "filesystem uses encryption (fscrypt)";
  mk_rule set_I 0x20000 "casefold" EXT4B_POLICY_REFUSED "filesystem uses case-folding";
  mk_rule set_R 0x0001 "sparse_super" EXT4B_POLICY_SUPPORTED "";
  mk_rule set_R 0x0002 "large_file" EXT4B_POLICY_SUPPORTED "";
  mk_rule set_R 0x0008 "huge_file" EXT4B_POLICY_SUPPORTED "";
  mk_rule set_R 0x0010 "uninit_bg" EXT4B_POLICY_SUPPORTED "";
  mk_rule set_R 0x0020 "dir_nlink" EXT4B_POLICY_SUPPORTED "";
  mk_rule set_R 0x0040 "extra_isize" EXT4B_POLICY_SUPPORTED "";
  mk_rule set_R 0x0100 "quota" EXT4B_POLICY_DOWNGRADED "filesystem uses quotas";
  mk_rule set_R 0x0200 "bigalloc" EXT4B_POLICY_REFUSED
    "bigalloc (clustered allocation) is not supported by this driver; the volume itself is fine";
  mk_rule set_R 0x0400 "metadata_csum" EXT4B_POLICY_SUPPORTED "";
  mk_rule set_R 0x2000 "project" EXT4B_POLICY_DOWNGRADED "filesystem uses project quotas";
  mk_rule set_R 0x8000 "verity" EXT4B_POLICY_DOWNGRADED "filesystem uses fs-verity" ].

Definition ext4b_supported_mask (set : feature_set) : Z :=
  foldl (fun m r =>
    if bool_decide (r_set r = set) && bool_decide (r_policy r = EXT4B_POLICY_SUPPORTED)
    then Z.lor m (r_bit r) else m) 0 ext4b_feature_rules.
Definition ext4b_rule_for (set : feature_set) (bits : Z) (policy : ext4b_policy) : option ext4b_feature_rule :=
  List.find (fun r => bool_decide (r_set r = set) && bool_decide (r_policy r = policy) && has_bits bits (r_bit r))
    ext4b_feature_rules.

(** ** The verdict *)

Inductive ext4b_probe_verdict :=
  EXT4B_PROBE_NOT_EXT | EXT4B_PROBE_USABLE | EXT4B_PROBE_READ_ONLY | EXT4B_PROBE_UNSUPPORTED.

(** What [snprintf] makes the message of. *)
Inductive probe_reason :=
| ReasonNone
| ReasonBlockSize (log_bs : Z)
| ReasonTooLarge (block_count : Z)
| ReasonFeature (why : string)
| ReasonGeometry (why : string)
| ReasonChecksum
| ReasonIncompat (why : string) (bits : Z)
| ReasonRoCompat (why : string) (bits : Z).

Record ext4b_probe_info := mk_probe_info {
  pi_verdict : ext4b_probe_verdict;
  pi_label : list Z;
  pi_uuid : list Z;
  pi_block_size : Z;
  pi_block_count : Z;
  pi_free_blocks : Z;
  pi_inode_count : Z;
  pi_free_inodes : Z;
  pi_feature_incompat : Z;
  pi_feature_ro_compat : Z;
  pi_feature_compat : Z;
  pi_has_journal : bool;
  pi_needs_recovery : bool;
  pi_generation : Z;
  pi_unsupported : probe_reason;
}.
Definition pi_blank : ext4b_probe_info :=
  mk_probe_info EXT4B_PROBE_NOT_EXT [] [] 0 0 0 0 0 0 0 0 false false 0 ReasonNone.
Definition pi_answer (v : ext4b_probe_verdict) (why : probe_reason) (i : ext4b_probe_info) : ext4b_probe_info :=
  mk_probe_info v (pi_label i) (pi_uuid i) (pi_block_size i) (pi_block_count i) (pi_free_blocks i) (pi_inode_count i)
    (pi_free_inodes i) (pi_feature_incompat i) (pi_feature_ro_compat i) (pi_feature_compat i) (pi_has_journal i)
    (pi_needs_recovery i) (pi_generation i) why.

(** The fields, once the block size is plausible. *)
Definition probe_fields (sb : list Z) (log_bs : Z) : ext4b_probe_info :=
  let compat := rd32 sb SBF_FEATURE_COMPAT in
  let incompat := rd32 sb SBF_FEATURE_INCOMPAT in
  let is64 := negb (Z.land incompat 0x0080 =? 0) in
  let high off := if is64 then u64 (Z.shiftl (rd32 sb off) 32) else 0 in
  let has_journal := negb (Z.land compat COMPAT_HAS_JOURNAL =? 0) in
  mk_probe_info EXT4B_PROBE_NOT_EXT (slice SBF_VOLUME_NAME 16 sb) (slice SBF_UUID 16 sb) (u32 (Z.shiftl 1024 log_bs))
    (Z.lor (rd32 sb SBF_BLOCKS_COUNT_LO) (high SBF_BLOCKS_COUNT_HI))
    (Z.lor (rd32 sb SBF_FREE_BLOCKS_LO) (high SBF_FREE_BLOCKS_HI))
    (rd32 sb SBF_INODES_COUNT) (rd32 sb SBF_FREE_INODES) incompat (rd32 sb SBF_FEATURE_RO_COMPAT) compat has_journal
    (negb (Z.land incompat INCOMPAT_RECOVER =? 0))
    (if negb (Z.land incompat 0x0040 =? 0) then 4 else if has_journal then 3 else 2) ReasonNone.

(** The chain of [if] and [else if] of the geometry gate. *)
Definition geometry_fault (sb : list Z) (i : ext4b_probe_info) : option string :=
  let bs := pi_block_size i in
  let inode_size := rd16 sb SBF_INODE_SIZE in
  let first_data_block := rd32 sb SBF_FIRST_DATA_BLOCK in
  let blocks_per_group := rd32 sb SBF_BLOCKS_PER_GROUP in
  let inodes_per_group := rd32 sb SBF_INODES_PER_GROUP in
  let rev_level := rd32 sb 0x04C in
  if (rev_level =? 0) && negb (inode_size =? 128) then
    Some "revision-0 superblock with an inode size other than 128"
  else if (inode_size <? 128) || (bs <? inode_size) then Some "inode size is outside [128, block size]"
  else if negb (Z.land inode_size (inode_size - 1) =? 0) then Some "inode size is not a power of two"
  else if (blocks_per_group <? 8) || (8 * bs <? blocks_per_group) then
    Some "blocks per group is outside [8, 8 x block size]"
  else if negb (blocks_per_group mod 8 =? 0) then Some "blocks per group is not a multiple of 8"
  else if (inodes_per_group =? 0) || (u32 (8 * bs) <? inodes_per_group) then
    Some "inodes per group is outside [1, 8 x block size]"
  else if negb (inodes_per_group mod 8 =? 0) then Some "inodes per group is not a multiple of 8"
  else if pi_inode_count i <? inodes_per_group then Some "inodes per group exceeds the total inode count"
  else if negb (first_data_block =? (if bs =? 1024 then 1 else 0)) then
    Some "first data block does not match the block size"
  else if pi_block_count i <=? first_data_block then Some "the volume has no blocks past its first"
  else if negb (rev_level =? 0) && (rd32 sb SBF_FIRST_INO <? 11) then Some "first non-reserved inode is below 11"
  else if pi_inode_count i <? rd32 sb SBF_JOURNAL_INUM then Some "journal inode is past the end of the inode table"
  else if 31 <? byte_at sb SBF_LOG_GROUPS_PER_FLEX then Some "flex_bg group shift is impossible"
  else if bs / 4 <? rd16 sb SBF_RESERVED_GDT then Some "reserved GDT blocks exceed what one block can address"
  else None.
Definition desc_size_fault (sb : list Z) (i : ext4b_probe_info) : option string :=
  let desc_size := rd16 sb SBF_DESC_SIZE in
  if negb (desc_size =? 0) then
    if (desc_size <? 32) || (pi_block_size i <? desc_size) then Some "group descriptor size is outside [32, block size]"
    else if negb (Z.land desc_size (desc_size - 1) =? 0) then Some "group descriptor size is not a power of two"
    else None
  else if negb (Z.land (pi_feature_incompat i) 0x0080 =? 0) then Some "64-bit volume with no group descriptor size"
  else None.
Definition probe_groups (sb : list Z) (i : ext4b_probe_info) : Z :=
  u64 (pi_block_count i - rd32 sb SBF_FIRST_DATA_BLOCK + rd32 sb SBF_BLOCKS_PER_GROUP - 1)
    / rd32 sb SBF_BLOCKS_PER_GROUP.
Definition groups_fault (sb : list Z) (i : ext4b_probe_info) : option string :=
  let groups := probe_groups sb i in
  if (groups =? 0) || (0xFFFFFFFF <? groups) then Some "the volume needs more block groups than ext4 can address"
  else if negb (u64 (rd32 sb SBF_INODES_PER_GROUP * groups) =? pi_inode_count i) then
    Some "inode count is not block groups x inodes per group"
  else None.
Definition first_fault (l : list (option string)) : option string :=
  foldr (fun o rest => match o with Some why => Some why | None => rest end) None l.

(** The answer for a superblock on a device of [dev_bytes] bytes. *)
Definition probe_sb (dev_bytes : Z) (sb : list Z) : ext4b_probe_info :=
  if negb (rd16 sb SBF_MAGIC =? EXT_MAGIC) then pi_blank
  else
    let log_bs := rd32 sb SBF_LOG_BLOCK_SIZE in
    if 6 <? log_bs then pi_answer EXT4B_PROBE_UNSUPPORTED (ReasonBlockSize log_bs) pi_blank
    else
      let out := probe_fields sb log_bs in
      let max_blocks := if pi_block_size out =? 0 then 0 else dev_bytes / pi_block_size out in
      if (pi_block_count out =? 0) || (max_blocks <? pi_block_count out) then
        pi_answer EXT4B_PROBE_UNSUPPORTED (ReasonTooLarge (pi_block_count out)) out
      else if negb (Z.land (rd32 sb 0x064) 0x0200 =? 0) then
        pi_answer EXT4B_PROBE_UNSUPPORTED
          (ReasonFeature (match ext4b_rule_for set_R 0x0200 EXT4B_POLICY_REFUSED with
                          | Some r => r_why r | None => "bigalloc is not supported by this driver" end)) out
      else
        match first_fault [geometry_fault sb out; desc_size_fault sb out; groups_fault sb out] with
        | Some why => pi_answer EXT4B_PROBE_UNSUPPORTED (ReasonGeometry why) out
        | None =>
            if negb (Z.land (pi_feature_ro_compat out) 0x0400 =? 0) &&
               negb (rd32 sb SBF_CHECKSUM =? ext4_crc32c EXT4_CRC32_INIT (slice 0 SBF_CHECKSUM sb))
            then pi_answer EXT4B_PROBE_UNSUPPORTED ReasonChecksum out
            else
              let bad_incompat := Z.land (pi_feature_incompat out) (u32 (Z.lnot (ext4b_supported_mask set_I))) in
              let bad_ro := Z.land (pi_feature_ro_compat out) (u32 (Z.lnot (ext4b_supported_mask set_R))) in
              if negb (bad_incompat =? 0) then
                pi_answer EXT4B_PROBE_UNSUPPORTED
                  (ReasonIncompat (match ext4b_rule_for set_I bad_incompat EXT4B_POLICY_REFUSED with
                     | Some r => r_why r | None => "unsupported incompatible features" end) bad_incompat) out
              else if negb (bad_ro =? 0) then
                pi_answer EXT4B_PROBE_READ_ONLY
                  (ReasonRoCompat (match ext4b_rule_for set_R bad_ro EXT4B_POLICY_DOWNGRADED with
                     | Some r => r_why r | None => "unsupported read-only features" end) bad_ro) out
              else pi_answer EXT4B_PROBE_USABLE ReasonNone out
        end.
Local Close Scope string_scope.

(** [read_fn] is the host's callback, [off] and [count] in bytes. *)
Definition ext4b_probe {D} (read_fn : Z -> Z -> M D (list Z)) (ph_bcnt ph_bsize : Z) : M D ext4b_probe_info :=
  r <- mtry (read_fn SB_OFFSET SB_SIZE);;
  match r with
  | Err _ => mfail EIO
  | Ok sb => mok (probe_sb (u64 (ph_bcnt * ph_bsize)) sb)
  end.

(** ** What the probe reads *)

Lemma rd16_field p off : 0 <= off -> rd16 p off = rd (mk_field off 2) 0 p.
Proof.
  intros Ho. unfold rd16, rd. change (Z.to_nat (f_size (mk_field off 2))) with 2%nat. cbn [get_le f_off].
  pose proof (byte_at_range p off). pose proof (byte_at_range p (off + 1)).
  rewrite (u16_id (Z.shiftl _ 8)) by (rewrite Z.shiftl_mul_pow2; lia).
  rewrite Z.lor_comm, lor_shiftl_add, u16_id by lia. rewrite Z.add_0_l. lia.
Qed.
Lemma rd32_field p off : 0 <= off -> rd32 p off = rd (mk_field off 4) 0 p.
Proof.
  intros Ho. unfold rd32, rd. change (Z.to_nat (f_size (mk_field off 4))) with 4%nat. cbn [get_le f_off].
  pose proof (byte_at_range p off). pose proof (byte_at_range p (off + 1)).
  pose proof (byte_at_range p (off + 2)). pose proof (byte_at_range p (off + 3)).
  rewrite !u32_id by (rewrite Z.shiftl_mul_pow2; lia).
  rewrite (Z.lor_comm (byte_at p off)), lor_shiftl_add by lia.
  rewrite (Z.lor_comm _ (Z.shiftl _ 16)), lor_shiftl_add by lia.
  rewrite (Z.lor_comm _ (Z.shiftl _ 24)), lor_shiftl_add by lia.
  rewrite Z.add_0_l. replace (off + 1 + 1) with (off + 2) by lia. replace (off + 2 + 1) with (off + 3) by lia. lia.
Qed.

(** A number that shares no bit with its predecessor is a power of two. *)
Lemma land_pred_pow2 n : 0 < n -> Z.land n (n - 1) = 0 -> exists k, 0 <= k /\ n = 2 ^ k.
Proof.
  intros Hn E. exists (Z.log2 n). split; [apply Z.log2_nonneg|].
  pose proof (Z.log2_spec n Hn) as [H1 H2]. destruct (Z.eq_dec n (2 ^ Z.log2 n)) as [|Hne]; [done|exfalso].
  assert (Hl : Z.log2 (n - 1) = Z.log2 n) by (apply Z.log2_unique; [apply Z.log2_nonneg|lia]).
  assert (Hb : Z.testbit (Z.land n (n - 1)) (Z.log2 n) = true).
  { rewrite Z.land_spec, Z.bit_log2 by done. rewrite <- Hl. apply Z.bit_log2. pose proof (Z.pow_pos_nonneg 2 (Z.log2 n)). pose proof (Z.log2_nonneg n). lia. }
  rewrite E, Z.testbit_0_l in Hb. done.
Qed.

(** Items of a size that divides the block never cross its end. *)
Lemma item_in_block a size n : 0 <= a -> 0 < size -> 0 < n -> n mod size = 0 -> (a * size) mod n + size <= n.
Proof.
  intros Ha Hs Hn Hd. apply Z.div_exact in Hd; [|lia]. set (q := n / size) in *.
  assert (0 < q) by nia. rewrite Hd, (Z.mul_comm a), Zmult_mod_distr_l.
  pose proof (Z.mod_pos_bound a q). nia.
Qed.
Lemma pow2_divides a b : 0 <= a -> 2 ^ a <= 2 ^ b -> 2 ^ b mod 2 ^ a = 0.
Proof.
  intros Ha H. assert (a <= b).
  { destruct (Z.le_gt_cases a b); [done|]. pose proof (Z.pow_lt_mono_r 2 b a). lia. }
  replace b with (b - a + a) by lia. rewrite Z.pow_add_r by lia. apply Z.mod_mul. pose proof (Z.pow_pos_nonneg 2 a). lia.
Qed.

(** Every bit of the mask is a supported row of the table. *)
Lemma supported_mask_spec set k :
  0 <= k -> Z.testbit (ext4b_supported_mask set) k = true ->
  exists r, In r ext4b_feature_rules /\ r_set r = set /\ r_bit r = 2 ^ k /\ r_policy r = EXT4B_POLICY_SUPPORTED.
Proof.
  intros Hk Hb. set (ok := fun k r => bool_decide (r_set r = set) && (r_bit r =? 2 ^ k) &&
    bool_decide (r_policy r = EXT4B_POLICY_SUPPORTED)).
  assert (Hlt : k < 32).
  { destruct (Z.lt_ge_cases k 32); [done|exfalso]. revert Hb. rewrite (testbit_above 32); [done|lia|destruct set; split; by vm_compute|done]. }
  assert (H : forallb (fun i => implb (Z.testbit (ext4b_supported_mask set) (Z.of_nat i))
    (existsb (ok (Z.of_nat i)) ext4b_feature_rules)) (seq 0 32) = true) by (destruct set; by vm_compute).
  rewrite forallb_forall in H. specialize (H (Z.to_nat k) ltac:(apply in_seq; lia)). rewrite Z2Nat.id in H by done.
  rewrite Hb in H. cbn [implb] in H. apply existsb_exists in H as (r & Hin & H). unfold ok in H.
  exists r. split; [done|]. apply andb_true_iff in H as [[H1%bool_decide_eq_true H2]%andb_true_iff H3%bool_decide_eq_true].
  split_and!; [done|lia|done].
Qed.
Lemma no_unknown_bits set v :
  0 <= v < 2 ^ 32 -> Z.land v (u32 (Z.lnot (ext4b_supported_mask set))) = 0 ->
  forall k, 0 <= k -> Z.testbit v k = true ->
  exists r, In r ext4b_feature_rules /\ r_set r = set /\ r_bit r = 2 ^ k /\ r_policy r = EXT4B_POLICY_SUPPORTED.
Proof.
  intros Hv E k Hk Hb. apply supported_mask_spec; [done|].
  rewrite land_lnot_u32 in E by (done || (destruct set; split; by vm_compute)).
  assert (H : Z.testbit (Z.ldiff v (ext4b_supported_mask set)) k = false) by (by rewrite E, Z.testbit_0_l).
  rewrite Z.ldiff_spec, Hb in H. by destruct (Z.testbit (ext4b_supported_mask set) k).
Qed.

Definition admitted (i : ext4b_probe_info) : bool :=
  match pi_verdict i with EXT4B_PROBE_USABLE | EXT4B_PROBE_READ_ONLY => true | _ => false end.

(** The checks a volume that is not refused has passed. *)
Record passed (dev_bytes : Z) (sb : list Z) (i : ext4b_probe_info) : Prop := {
  pp_log : rd32 sb SBF_LOG_BLOCK_SIZE <= 6;
  pp_bs : pi_block_size i = 1024 * 2 ^ rd32 sb SBF_LOG_BLOCK_SIZE;
  pp_count : pi_block_count i = pi_block_count (probe_fields sb (rd32 sb SBF_LOG_BLOCK_SIZE));
  pp_inodes : pi_inode_count i = rd32 sb SBF_INODES_COUNT;
  pp_incompat : pi_feature_incompat i = rd32 sb SBF_FEATURE_INCOMPAT;
  pp_ro : pi_feature_ro_compat i = rd32 sb SBF_FEATURE_RO_COMPAT;
  pp_fits : pi_block_count i <= dev_bytes / pi_block_size i;
  pp_geometry : geometry_fault sb i = None;
  pp_desc : desc_size_fault sb i = None;
  pp_groups : groups_fault sb i = None;
  pp_csum : negb (Z.land (pi_feature_ro_compat i) 0x0400 =? 0) = true ->
    rd32 sb SBF_CHECKSUM = ext4_crc32c EXT4_CRC32_INIT (slice 0 SBF_CHECKSUM sb);
  pp_known : Z.land (pi_feature_incompat i) (u32 (Z.lnot (ext4b_supported_mask set_I))) = 0;
  pp_known_ro : pi_verdict i = EXT4B_PROBE_USABLE ->
    Z.land (pi_feature_ro_compat i) (u32 (Z.lnot (ext4b_supported_mask set_R))) = 0;
}.

Lemma rd32_range p off : 0 <= off -> 0 <= rd32 p off < 2 ^ 32.
Proof. intros H. rewrite rd32_field by done. by apply rd_range. Qed.
Lemma rd16_range p off : 0 <= off -> 0 <= rd16 p off < 2 ^ 16.
Proof. intros H. rewrite rd16_field by done. by apply rd_range. Qed.

Lemma probe_passed dev_bytes sb : admitted (probe_sb dev_bytes sb) = true -> passed dev_bytes sb (probe_sb dev_bytes sb).
Proof.
  unfold probe_sb. set (log := rd32 sb SBF_LOG_BLOCK_SIZE). pose proof (rd32_range sb SBF_LOG_BLOCK_SIZE ltac:(done)) as Hr. fold log in Hr.
  destruct (negb (rd16 sb SBF_MAGIC =? EXT_MAGIC)); [done|].
  destruct (Z.ltb_spec 6 log) as [|Hlog]; [done|]. cbv zeta. set (i := probe_fields sb log).
  assert (Hbs : pi_block_size i = 1024 * 2 ^ log).
  { change (pi_block_size i) with (u32 (Z.shiftl 1024 log)). rewrite Z.shiftl_mul_pow2 by lia. apply u32_id.
    pose proof (Z.pow_le_mono_r 2 log 6). pose proof (Z.pow_pos_nonneg 2 log). lia. }
  assert (Hpos : 0 < pi_block_size i) by (rewrite Hbs; pose proof (Z.pow_pos_nonneg 2 log); lia).
  replace (pi_block_size i =? 0) with false by lia.
  destruct ((pi_block_count i =? 0) || (dev_bytes / pi_block_size i <? pi_block_count i)) eqn:Hfit; [done|].
  destruct (negb (Z.land (rd32 sb 100) 512 =? 0)); [done|].
  destruct (geometry_fault sb i) eqn:Hg; [done|]. destruct (desc_size_fault sb i) eqn:Hd; [done|].
  destruct (groups_fault sb i) eqn:Hgr; [done|]. cbn [first_fault foldr].
  destruct (_ && negb (rd32 sb SBF_CHECKSUM =? _)) eqn:Hc; [done|].
  destruct (Z.eqb_spec (Z.land (pi_feature_incompat i) (u32 (Z.lnot (ext4b_supported_mask set_I)))) 0) as [Hi|]; [|done].
  assert (Hcs : negb (Z.land (pi_feature_ro_compat i) 1024 =? 0) = true ->
    rd32 sb SBF_CHECKSUM = ext4_crc32c EXT4_CRC32_INIT (slice 0 SBF_CHECKSUM sb)).
  { intros E. rewrite E in Hc. cbn [andb] in Hc. by apply negb_false_iff, Z.eqb_eq in Hc. }
  apply orb_false_iff in Hfit as [_ Hfit%Z.ltb_ge].
  cbn [negb]. destruct (Z.eqb_spec (Z.land (pi_feature_ro_compat i) (u32 (Z.lnot (ext4b_supported_mask set_R)))) 0) as [Hro|];
    intros _; cbn [negb]; by split.
Qed.

Local Ltac no_fault := repeat match goal with
  | |- (if ?b then Some _ else _) = None -> _ => let E := fresh "E" in destruct b eqn:E; [discriminate|]
  end; intros _.

Lemma geometry_ok sb i :
  geometry_fault sb i = None ->
  let bs := pi_block_size i in
  (128 <= sb_get sb_inode_size sb <= bs /\ exists k, 0 <= k /\ sb_get sb_inode_size sb = 2 ^ k) /\
  (8 <= sb_get sb_blocks_per_group sb <= 8 * bs /\ sb_get sb_blocks_per_group sb mod 8 = 0) /\
  (1 <= sb_get sb_inodes_per_group sb <= u32 (8 * bs) /\ sb_get sb_inodes_per_group sb mod 8 = 0) /\
  sb_get sb_inodes_per_group sb <= pi_inode_count i /\
  sb_get sb_first_data_block sb = (if bs =? 1024 then 1 else 0) /\ sb_get sb_first_data_block sb < pi_block_count i.
Proof.
  pose proof (rd32_range sb SBF_INODES_PER_GROUP ltac:(done)) as R1.
  unfold geometry_fault. cbv zeta. rewrite !rd32_field, !rd16_field in * by done.
  fold (sb_get (mk_field SBF_INODE_SIZE 2) sb). change (mk_field SBF_INODE_SIZE 2) with sb_inode_size.
  fold (sb_get (mk_field SBF_FIRST_DATA_BLOCK 4) sb). change (mk_field SBF_FIRST_DATA_BLOCK 4) with sb_first_data_block.
  fold (sb_get (mk_field SBF_BLOCKS_PER_GROUP 4) sb). change (mk_field SBF_BLOCKS_PER_GROUP 4) with sb_blocks_per_group.
  fold (sb_get (mk_field SBF_INODES_PER_GROUP 4) sb) in *. change (mk_field SBF_INODES_PER_GROUP 4) with sb_inodes_per_group in *.
  no_fault. split_and!; try lia. apply land_pred_pow2; lia.
Qed.

Lemma desc_ok sb i :
  desc_size_fault sb i = None -> 32 <= pi_block_size i ->
  32 <= ext4_sb_get_desc_size sb <= pi_block_size i /\ exists k, 0 <= k /\ ext4_sb_get_desc_size sb = 2 ^ k.
Proof.
  unfold desc_size_fault. cbv zeta. rewrite rd16_field by done.
  change (rd (mk_field SBF_DESC_SIZE 2) 0 sb) with (sb_get sb_desc_size sb).
  unfold ext4_sb_get_desc_size, EXT4_MIN_BLOCK_GROUP_DESCRIPTOR_SIZE.
  destruct (Z.eqb_spec (sb_get sb_desc_size sb) 0) as [->|]; cbn [negb]; no_fault; intros H1.
  - change (0 <? 32) with true. cbv iota. split; [lia|]. by exists 5.
  - replace (sb_get sb_desc_size sb <? 32) with false by lia. split; [lia|]. apply land_pred_pow2; lia.
Qed.

(** The group count of the probe and that of [ext4_block_group_cnt] differ by one at
    most; the inodes are those of the probe's groups. *)
Lemma groups_ok sb i :
  groups_fault sb i = None ->
  let n := pi_block_count i in
  let bpg := sb_get sb_blocks_per_group sb in
  let first := sb_get sb_first_data_block sb in
  0 <= first <= 1 -> first < n -> n < 2 ^ 63 -> 8 <= bpg ->
  1 <= sb_get sb_inodes_per_group sb ->
  pi_inode_count i < 2 ^ 32 ->
  exists g, 0 < g < 2 ^ 32 /\ pi_inode_count i = sb_get sb_inodes_per_group sb * g /\ g = (n - first + bpg - 1) / bpg.
Proof.
  unfold groups_fault, probe_groups. cbv zeta. rewrite !rd32_field by done.
  change (rd (mk_field SBF_FIRST_DATA_BLOCK 4) 0 sb) with (sb_get sb_first_data_block sb).
  change (rd (mk_field SBF_BLOCKS_PER_GROUP 4) 0 sb) with (sb_get sb_blocks_per_group sb).
  change (rd (mk_field SBF_INODES_PER_GROUP 4) 0 sb) with (sb_get sb_inodes_per_group sb).
  sb_range sb_blocks_per_group sb. sb_range sb_inodes_per_group sb. intros E H1 H2 H3 H4 H5 H6.
  rewrite (u64_id (_ - _ + _ - _)) in E by lia.
  set (g := (_ + _ - 1) / _) in *. exists g.
  revert E. no_fault. assert (0 <= g) by (apply Z.div_pos; lia).
  assert (Hg : g < 2 ^ 32) by lia. split; [lia|]. split; [|done].
  rewrite u64_id in E0 by nia. lia.
Qed.

(** lwext4 puts the high half of the block count in whatever the features say, the
    probe only on a 64-bit volume. *)
Definition high_half_ok (sb : list Z) : Prop :=
  ext4_sb_feature_incom sb EXT4_FINCOM_64BIT = true \/ sb_get sb_blocks_count_hi sb = 0.

Lemma probe_block_count sb log :
  high_half_ok sb -> pi_block_count (probe_fields sb log) = ext4_sb_get_blocks_cnt sb.
Proof.
  intros H. unfold probe_fields, ext4_sb_get_blocks_cnt. cbn [pi_block_count]. rewrite !rd32_field by done.
  change (rd (mk_field SBF_BLOCKS_COUNT_LO 4) 0 sb) with (sb_get sb_blocks_count_lo sb).
  change (rd (mk_field SBF_BLOCKS_COUNT_HI 4) 0 sb) with (sb_get sb_blocks_count_hi sb).
  change (rd (mk_field SBF_FEATURE_INCOMPAT 4) 0 sb) with (sb_get sb_features_incompatible sb).
  rewrite Z.lor_comm. f_equal.
  change (negb (Z.land (sb_get sb_features_incompatible sb) 128 =? 0)) with (ext4_sb_feature_incom sb EXT4_FINCOM_64BIT).
  destruct H as [->|E]; [done|]. rewrite E. by case_match.
Qed.

(** The counts of the groups of lwext4, from what the gate of the probe checks. *)
Lemma inodes_in_group_ok sb g :
  let n := ext4_sb_get_blocks_cnt sb in
  let bpg := sb_get sb_blocks_per_group sb in
  let ipg := sb_get sb_inodes_per_group sb in
  let first := sb_get sb_first_data_block sb in
  let groups := (n - first + bpg - 1) / bpg in
  0 <= first <= 1 -> first < n -> 8 <= bpg -> 8 <= ipg -> sb_get sb_inodes_count sb = ipg * groups ->
  0 <= g < ext4_block_group_cnt sb -> 0 <= ext4_inodes_in_group_cnt sb g <= ipg.
Proof.
  cbv zeta. intros Hf Hn Hb Hi Ec. unfold ext4_inodes_in_group_cnt. rewrite Ec.
  sb_range sb_inodes_count sb. rewrite Ec in Hr.
  pose proof (block_group_cnt_ceil sb ltac:(lia)) as EC.
  set (n := ext4_sb_get_blocks_cnt sb) in *. set (bpg := sb_get sb_blocks_per_group sb) in *.
  set (ipg := sb_get sb_inodes_per_group sb) in *. set (first := sb_get sb_first_data_block sb) in *.
  set (groups := (n - first + bpg - 1) / bpg) in *.
  assert (Hg : groups < 2 ^ 29 /\ 0 < groups) by (unfold groups in *; split; [nia|apply Z.div_str_pos; lia]).
  assert (HC : groups <= (n + bpg - 1) / bpg <= groups + 1).
  { split; [apply Z.div_le_mono; lia|]. unfold groups. rewrite <- Z.div_add by lia. apply Z.div_le_mono; lia. }
  rewrite EC by lia. set (C := (n + bpg - 1) / bpg) in *. clearbody C groups. intros Hgr.
  rewrite (u32_id (C - 1)) by lia. destruct (Z.ltb_spec g (C - 1)); [lia|].
  assert (HCg : C = groups \/ C = groups + 1) by lia.
  destruct HCg as [-> | ->]; rewrite (u32_id (_ * ipg)) by nia; rewrite u32_id by nia; nia.
Qed.

Lemma inode_count_field sb i : pi_inode_count i = rd32 sb SBF_INODES_COUNT -> pi_inode_count i = sb_get sb_inodes_count sb.
Proof. intros ->. by rewrite rd32_field by done. Qed.
Lemma block_size_field sb : rd32 sb SBF_LOG_BLOCK_SIZE <= 6 -> 1024 * 2 ^ rd32 sb SBF_LOG_BLOCK_SIZE = ext4_sb_get_block_size sb.
Proof.
  intros H. rewrite rd32_field in * by done. change (rd (mk_field SBF_LOG_BLOCK_SIZE 4) 0 sb) with (sb_get sb_log_block_size sb) in *.
  sb_range sb_log_block_size sb. unfold ext4_sb_get_block_size. replace (6 <? _) with false by lia.
  rewrite Z.shiftl_mul_pow2 by lia. done.
Qed.
Lemma feature_bits sb set k :
  0 <= k -> (if set is set_I then ext4_sb_feature_incom sb (2 ^ k) else ext4_sb_feature_ro_com sb (2 ^ k)) = true ->
  Z.land (if set is set_I then rd32 sb SBF_FEATURE_INCOMPAT else rd32 sb SBF_FEATURE_RO_COMPAT)
    (u32 (Z.lnot (ext4b_supported_mask set))) = 0 ->
  exists r, In r ext4b_feature_rules /\ r_set r = set /\ r_bit r = 2 ^ k /\ r_policy r = EXT4B_POLICY_SUPPORTED.
Proof.
  intros Hk Hf E. eapply no_unknown_bits; [|exact E|done|].
  - destruct set; by apply rd32_range.
  - unfold ext4_sb_feature_incom, ext4_sb_feature_ro_com in Hf. rewrite <- Z.shiftl_1_l in Hf.
    destruct set; rewrite rd32_field by done; rewrite has_bits_pow2 in Hf by done; exact Hf.
Qed.

(** C9: a volume the probe does not refuse can be addressed.  Whatever bytes the
    superblock holds: the volume fits the device; every inode lies inside one block
    and every group descriptor too, at any index; the bitmaps of a group fit a
    block, and so do the bytes their checksums cover; the stored checksum is right
    where there is one; every incompatible feature set is a supported row of the
    table, and every read-only one when the verdict is "usable".  With a high half of
    the block count that is zero, or used, the block count is the one of lwext4 and
    no group has more inodes than [inodes_per_group], so the count of the last group
    does not wrap. *)
Theorem probe_admits_addressable (dev_bytes : Z) (sb : list Z) (Hdev : 0 <= dev_bytes < 2 ^ 64)
    (Hv : admitted (probe_sb dev_bytes sb) = true) :
  let i := probe_sb dev_bytes sb in
  let bs := ext4_sb_get_block_size sb in
  pi_block_size i = bs /\ pi_block_count i * bs <= dev_bytes /\
  (forall index, 0 <= index -> (index * sb_get sb_inode_size sb) mod bs + sb_get sb_inode_size sb <= bs) /\
  0 < dsc_per_block sb /\
  (forall g, 0 <= g -> (g mod dsc_per_block sb) * ext4_sb_get_desc_size sb + ext4_sb_get_desc_size sb <= bs) /\
  8 <= sb_get sb_blocks_per_group sb <= 8 * bs /\ sb_get sb_blocks_per_group sb mod 8 = 0 /\
  8 <= sb_get sb_inodes_per_group sb <= 8 * bs /\ sb_get sb_inodes_per_group sb mod 8 = 0 /\
  (ext4_sb_feature_ro_com sb EXT4_FRO_COM_METADATA_CSUM = true -> sb_get sb_checksum sb = ext4_sb_csum sb) /\
  (forall k, 0 <= k -> ext4_sb_feature_incom sb (2 ^ k) = true ->
     exists r, In r ext4b_feature_rules /\ r_set r = set_I /\ r_bit r = 2 ^ k /\ r_policy r = EXT4B_POLICY_SUPPORTED) /\
  (pi_verdict i = EXT4B_PROBE_USABLE -> forall k, 0 <= k -> ext4_sb_feature_ro_com sb (2 ^ k) = true ->
     exists r, In r ext4b_feature_rules /\ r_set r = set_R /\ r_bit r = 2 ^ k /\ r_policy r = EXT4B_POLICY_SUPPORTED) /\
  (high_half_ok sb -> pi_block_count i = ext4_sb_get_blocks_cnt sb /\
     forall g, 0 <= g < ext4_block_group_cnt sb -> 0 <= ext4_inodes_in_group_cnt sb g <= sb_get sb_inodes_per_group sb).
Proof.
  cbv zeta. apply probe_passed in Hv. set (i := probe_sb dev_bytes sb) in *.
  destruct Hv as [P1 P2 P3 P4 P5 P6 P7 P8 P9 P10 P11 P12 P13].
  rewrite (block_size_field sb P1) in P2. pose proof (block_size_cases sb) as (e & He & Ebs).
  assert (Hbs : 1024 <= ext4_sb_get_block_size sb <= 65536).
  { rewrite Ebs. pose proof (Z.pow_le_mono_r 2 e 6). pose proof (Z.pow_pos_nonneg 2 e). lia. }
  assert (E2 : ext4_sb_get_block_size sb = 2 ^ (10 + e)) by (rewrite Ebs, Z.pow_add_r by lia; done).
  apply geometry_ok in P8 as ((G1 & ki & Hki & Gi) & (G2 & G3) & (G4 & G5) & G6 & G7 & G8).
  apply desc_ok in P9 as (D1 & kd & Hkd & D2); [|rewrite P2; lia].
  set (bs := ext4_sb_get_block_size sb) in *. rewrite P2 in *.
  rewrite (u32_id (8 * bs)) in G4 by lia.
  pose proof (inode_count_field _ _ P4) as Hic. sb_range sb_inodes_count sb.
  assert (Hcnt : pi_block_count i * bs <= dev_bytes /\ pi_block_count i < 2 ^ 63).
  { assert (pi_block_count i * bs <= dev_bytes) by (pose proof (Z.mul_div_le dev_bytes bs ltac:(lia)); nia). nia. }
  assert (Hfirst : 0 <= sb_get sb_first_data_block sb <= 1) by (rewrite G7; case_match; lia).
  assert (Hipg : 8 <= sb_get sb_inodes_per_group sb) by (Z.div_mod_to_equations; lia).
  assert (Hdsc : 0 < dsc_per_block sb /\ dsc_per_block sb * ext4_sb_get_desc_size sb <= bs).
  { unfold dsc_per_block. fold bs. split; [apply Z.div_str_pos; lia|]. rewrite Z.mul_comm. apply Z.mul_div_le. lia. }
  split; [done|]. split; [apply Hcnt|]. split.
  { intros index Hi. apply item_in_block; [done|lia|lia|]. rewrite E2, Gi. apply pow2_divides; [done|]. rewrite <- E2, <- Gi. lia. }
  split; [apply Hdsc|]. split.
  { intros g Hg. pose proof (Z.mod_pos_bound g (dsc_per_block sb) ltac:(lia)). nia. }
  split; [lia|]. split; [done|]. split; [lia|]. split; [done|]. split.
  { intros Hf. rewrite P6, !rd32_field in P11 by done. apply P11, Hf. }
  split; [intros k Hk Hf; apply (feature_bits sb set_I); [done|done|by rewrite <- P5]|].
  split; [intros Hu k Hk Hf; apply (feature_bits sb set_R); [done|done|by rewrite <- P6; apply P13]|].
  intros Hh. rewrite P3, (probe_block_count sb _ Hh) in *. split; [done|]. intros g Hg.
  apply groups_ok in P10 as (gr & _ & Hgr1 & Hgr2); [|rewrite ?P3; lia..]. rewrite P3 in Hgr2.
  apply inodes_in_group_ok; [lia|lia|lia|lia|by rewrite <- Hic, Hgr1, Hgr2|done].
Qed.

(** 100000 blocks of 4 KiB in four groups. *)
Definition probe_sample : list Z :=
  sb_set sb_magic 0xEF53 (sb_set sb_log_block_size 2 (sb_set sb_blocks_count_lo 100000
    (sb_set sb_blocks_per_group 32768 (sb_set sb_inodes_per_group 8192 (sb_set sb_inodes_count 32768
    (sb_set sb_inode_size 256 (sb_set sb_rev_level 1 (sb_set sb_first_inode 11 (replicate 1024 0))))))))).
Lemma probe_admits_addressable_witness :
  pi_verdict (probe_sb 409600000 probe_sample) = EXT4B_PROBE_USABLE /\
  ext4_inodes_in_group_cnt probe_sample 3 <= 8192 /\ (1000 * 256) mod 4096 + 256 <= 4096.
Proof.
  pose proof (probe_admits_addressable 409600000 probe_sample ltac:(done) ltac:(by vm_compute)) as H. cbv zeta in H.
  destruct H as (_ & _ & Hi & _ & _ & _ & _ & _ & _ & _ & _ & _ & Hg). split; [by vm_compute|]. split.
  - destruct Hg as [_ Hg]; [right; by vm_compute|].
    specialize (Hg 3 ltac:(by vm_compute)) as [_ Hg]. revert Hg. by vm_compute.
  - specialize (Hi 1000 ltac:(done)). revert Hi. by vm_compute.
Defined.

(** A volume of 100000 blocks without the 64-bit feature and with a high half: usable,
    says the probe, and lwext4 takes it for one of 2^32 blocks more. *)
Lemma probe_misses_high_half :
  let sb := sb_set sb_blocks_count_hi 1 probe_sample in
  pi_verdict (probe_sb 409600000 sb) = EXT4B_PROBE_USABLE /\
  ext4_sb_get_blocks_cnt sb = 2 ^ 32 + 100000 /\ ext4_block_group_cnt sb = 2 ^ 17 + 4.
Proof. by vm_compute. Qed.
