(* ===== verification/Xattr.v ===== *)
(** * Extended attributes

    Core/lwext4/src/ext4_xattr.c.  Attributes are kept in areas: one after the fields
    of the inode, and one block that inodes may share.  An area has entries from its
    start and values from its end; a pointer into it is an offset in the buffer that
    holds it.  A loop over entries has fuel for every entry that fits the buffer: what
    is read past the end of one is 0, the mark of the last entry. *)

From Stdlib Require Import Ascii String.
From stdpp Require Import strings.
From S2P Require Import Prelude Layout Types Crc Super BlockGroup Inode Store Fs Balloc ExtTree Imap.

Definition ENODATA : Z := 61.
Definition EXT4_XATTR_MAGIC : Z := 0xEA020000.
Definition EXT4_XATTR_INDEX_USER : Z := 1.
Definition EXT4_XATTR_INDEX_POSIX_ACL_ACCESS : Z := 2.
Definition EXT4_XATTR_INDEX_POSIX_ACL_DEFAULT : Z := 3.
Definition EXT4_XATTR_INDEX_TRUSTED : Z := 4.
Definition EXT4_XATTR_INDEX_SECURITY : Z := 6.
Definition EXT4_XATTR_INDEX_SYSTEM : Z := 7.
Definition EXT4_XATTR_INDEX_RICHACL : Z := 8.

Definition ext4_xattr_header_layout : list (string * Z) :=
  [("h_magic", 4); ("h_refcount", 4); ("h_blocks", 4); ("h_hash", 4); ("h_checksum", 4); ("h_reserved", 12)]%string.
Definition ext4_xattr_entry_layout : list (string * Z) :=
  [("e_name_len", 1); ("e_name_index", 1); ("e_value_offs", 2); ("e_value_block", 4); ("e_value_size", 4);
   ("e_hash", 4)]%string.
Definition xh_magic : field := Eval vm_compute in field_of ext4_xattr_header_layout "h_magic"%string.
Definition xh_refcount : field := Eval vm_compute in field_of ext4_xattr_header_layout "h_refcount"%string.
Definition xh_blocks : field := Eval vm_compute in field_of ext4_xattr_header_layout "h_blocks"%string.
Definition xh_hash : field := Eval vm_compute in field_of ext4_xattr_header_layout "h_hash"%string.
Definition xh_checksum : field := Eval vm_compute in field_of ext4_xattr_header_layout "h_checksum"%string.
Definition xe_name_len : field := Eval vm_compute in field_of ext4_xattr_entry_layout "e_name_len"%string.
Definition xe_name_index : field := Eval vm_compute in field_of ext4_xattr_entry_layout "e_name_index"%string.
Definition xe_value_offs : field := Eval vm_compute in field_of ext4_xattr_entry_layout "e_value_offs"%string.
Definition xe_value_block : field := Eval vm_compute in field_of ext4_xattr_entry_layout "e_value_block"%string.
Definition xe_value_size : field := Eval vm_compute in field_of ext4_xattr_entry_layout "e_value_size"%string.
Definition xe_hash : field := Eval vm_compute in field_of ext4_xattr_entry_layout "e_hash"%string.
(** [sizeof(struct ext4_xattr_header)], [sizeof(struct ext4_xattr_entry)], and the
    size of the header of an area in an inode. *)
Definition XATTR_HEADER : Z := Eval vm_compute in layout_size ext4_xattr_header_layout.
Definition XATTR_ENTRY : Z := Eval vm_compute in layout_size ext4_xattr_entry_layout.
Definition XATTR_IHEADER : Z := 4.

(** ** Entries *)

Definition EXT4_XATTR_LEN (name_len : Z) : Z := Z.ldiff (name_len + 3 + XATTR_ENTRY) 3.
Definition EXT4_XATTR_SIZE (size : Z) : Z := Z.ldiff (size + 3) 3.
Definition EXT4_XATTR_NEXT (entry : Z) (b : list Z) : Z := entry + EXT4_XATTR_LEN (rd xe_name_len entry b).
Definition EXT4_XATTR_NAME (entry : Z) : Z := entry + XATTR_ENTRY.
Definition EXT4_XATTR_IS_LAST_ENTRY (entry : Z) (b : list Z) : bool := get_le 4 entry b =? 0.
(** [EXT4_XATTR_SIZE(to_le32(entry->e_value_size))], 32 bits wide. *)
Definition entry_room (entry : Z) (b : list Z) : Z := u32 (EXT4_XATTR_SIZE (rd xe_value_size entry b)).
Definition xattr_fuel (b : list Z) : nat := S (Z.to_nat (blen b / XATTR_ENTRY)).

(** [struct ext4_xattr_info]; no value is the null pointer. *)
Record xattr_info := mk_xinfo { xi_name_index : Z; xi_name : list Z; xi_value : option (list Z) }.
(** [struct ext4_xattr_search]. *)
Record xattr_search := mk_search {
  xs_first : Z; xs_base : Z; xs_end : Z; xs_here : option Z; xs_not_found : bool;
}.
(** After [memset(&finder->s, 0, ...)]. *)
Definition search_zero (not_found : bool) : xattr_search := mk_search 0 0 0 None not_found.

(** ** Hashes and the checksum of a block *)

(** [for (n = 0; n < entry->e_name_len; n++)]; a [char] is signed. *)
Definition name_hash (name : list Z) : Z :=
  fold_left (fun hash c =>
    Z.lxor (Z.lxor (u32 (Z.shiftl hash 5)) (Z.shiftr hash 27)) (u32 (i8 c))) name 0.
Fixpoint value_hash (n : nat) (value hash : Z) (b : list Z) : Z :=
  match n with
  | O => hash
  | S n =>
      value_hash n (value + 4)
        (Z.lxor (Z.lxor (u32 (Z.shiftl hash 16)) (Z.shiftr hash 16)) (get_le 4 value b)) b
  end.
(** [header] is where the block begins. *)
Definition ext4_xattr_compute_hash (header entry : Z) (b : list Z) : list Z :=
  let hash := name_hash (slice (EXT4_XATTR_NAME entry) (rd xe_name_len entry b) b) in
  let hash :=
    if (rd xe_value_block entry b =? 0) && negb (rd xe_value_size entry b =? 0) then
      value_hash (Z.to_nat (Z.shiftr (u32 (rd xe_value_size entry b + 3)) 2)) (header + rd xe_value_offs entry b) hash b
    else hash in
  wr xe_hash entry hash b.
Fixpoint block_hash (fuel : nat) (here hash : Z) (b : list Z) : Z :=
  match fuel with
  | O => hash
  | S fuel =>
      if EXT4_XATTR_IS_LAST_ENTRY here b then hash
      else if rd xe_hash here b =? 0 then 0
      else
        block_hash fuel (EXT4_XATTR_NEXT here b)
          (Z.lxor (Z.lxor (u32 (Z.shiftl hash 16)) (Z.shiftr hash 16)) (rd xe_hash here b)) b
  end.
Definition ext4_xattr_rehash (header entry : Z) (b : list Z) : list Z :=
  let b := ext4_xattr_compute_hash header entry b in
  wr xh_hash header (block_hash (xattr_fuel b) (header + XATTR_HEADER) 0 b) b.

Definition ext4_xattr_block_checksum (sb : list Z) (blocknr : Z) (b : list Z) : Z :=
  if ext4_sb_feature_ro_com sb EXT4_FRO_COM_METADATA_CSUM then
    let checksum := ext4_crc32c (ext4_sb_csum_seed sb) (set_le 8 0 blocknr (replicate 8 0)) in
    ext4_crc32c checksum (slice 0 (ext4_sb_get_block_size sb) (wr xh_checksum 0 0 b))
  else 0.
Definition ext4_xattr_set_block_checksum (sb : list Z) (blocknr : Z) (b : list Z) : list Z :=
  if ext4_sb_feature_ro_com sb EXT4_FRO_COM_METADATA_CSUM
  then wr xh_checksum 0 (ext4_xattr_block_checksum sb blocknr b) b else b.

(** ** Names *)

Definition bytes_of (s : string) : list Z := map (fun c => Z.of_nat (nat_of_ascii c)) (list_ascii_of_string s).
Definition prefix_tbl : list (list Z * Z) := Eval vm_compute in
  [(bytes_of "user.", EXT4_XATTR_INDEX_USER);
   (bytes_of "system.posix_acl_access", EXT4_XATTR_INDEX_POSIX_ACL_ACCESS);
   (bytes_of "system.posix_acl_default", EXT4_XATTR_INDEX_POSIX_ACL_DEFAULT);
   (bytes_of "trusted.", EXT4_XATTR_INDEX_TRUSTED);
   (bytes_of "security.", EXT4_XATTR_INDEX_SECURITY);
   (bytes_of "system.", EXT4_XATTR_INDEX_SYSTEM);
   (bytes_of "system.richacl", EXT4_XATTR_INDEX_RICHACL)].

(** What is found: the index, the length and the name, which may be null.  [None]:
    [*found] is false. *)
Fixpoint extract_loop (tbl : list (list Z * Z)) (full_name : list Z) : option (Z * Z * option (list Z)) :=
  match tbl with
  | [] => None
  | (prefix, index) :: tbl =>
      let prefix_len := blen prefix in
      if (prefix_len <=? blen full_name) && bool_decide (slice 0 prefix_len full_name = prefix) then
        let require_name := byte_at prefix (prefix_len - 1) =? 46 in
        let name_len := blen full_name - prefix_len in
        if (name_len =? 0) && require_name then None
        else Some (index, name_len, if require_name then Some (drop (Z.to_nat prefix_len) full_name) else None)
      else extract_loop tbl full_name
  end.
Definition ext4_extract_xattr_name (full_name : list Z) : option (Z * Z * option (list Z)) :=
  if blen full_name =? 0 then None else extract_loop prefix_tbl full_name.
Definition ext4_get_xattr_name_prefix (name_index : Z) : option (list Z) :=
  option_map fst (List.find (fun p => snd p =? name_index) prefix_tbl).

(** ** One area *)

(** The first loop of [ext4_xattr_set_entry]: the lowest offset of a value, and the
    mark after the last entry. *)
Fixpoint xattr_scan (fuel : nat) (min_offs last : Z) (b : list Z) : Z * Z :=
  match fuel with
  | O => (min_offs, last)
  | S fuel =>
      if EXT4_XATTR_IS_LAST_ENTRY last b then (min_offs, last)
      else
        let offs := rd xe_value_offs last b in
        let min_offs := if negb (rd xe_value_size last b =? 0) && (offs <? min_offs) then offs else min_offs in
        xattr_scan fuel min_offs (EXT4_XATTR_NEXT last b) b
  end.
(** The offsets below [value_offs] moved up by [value_size]. *)
Fixpoint shift_offsets (fuel : nat) (value_offs value_size entry : Z) (b : list Z) : list Z :=
  match fuel with
  | O => b
  | S fuel =>
      if EXT4_XATTR_IS_LAST_ENTRY entry b then b
      else
        let offs := rd xe_value_offs entry b in
        let b := if offs <? value_offs then wr xe_value_offs entry (offs + value_size) b else b in
        shift_offsets fuel value_offs value_size (EXT4_XATTR_NEXT entry b) b
  end.
(** [memmove(dst, src, n)]. *)
Definition memmove_at (dst src n : Z) (b : list Z) : list Z := memcpy_at dst (slice src n b) b.

(** The old value's part is removed: [min_offs] afterwards, and the area. *)
Definition remove_value (s : xattr_search) (here min_offs : Z) (b : list Z) : Z * list Z :=
  let value_offs := rd xe_value_offs here b in
  let value_size := entry_room here b in
  let '(min', b) :=
    if value_offs =? 0 then (min_offs, b)
    else
      let b := memmove_at (xs_base s + min_offs + value_size) (xs_base s + min_offs) (u64 (value_offs - min_offs)) b in
      (u64 (min_offs + value_size), memset_at (xs_base s + min_offs) 0 value_size b) in
  (min', shift_offsets (xattr_fuel b) value_offs value_size (xs_first s) b).
(** The value [v] is put below [min_offs], for the entry [here] or a new one at
    [last]. *)
Definition put_value (i : xattr_info) (s : xattr_search) (v : list Z) (min_offs last : Z) (b : list Z)
  : xattr_search * list Z :=
  let room := u64 (EXT4_XATTR_SIZE (blen v)) in
  let value_offs := if blen v =? 0 then 0 else u64 (min_offs - room) in
  let '(here, b) :=
    match xs_here s with
    | Some here =>
        (here, wr xe_value_size here (blen v) (wr xe_value_offs here value_offs b))
    | None =>
        let b := wr xe_name_len last (blen (xi_name i)) b in
        let b := wr xe_name_index last (xi_name_index i) b in
        let b := wr xe_value_offs last value_offs b in
        let b := wr xe_value_block last 0 b in
        let b := wr xe_value_size last (blen v) b in
        let b := memcpy_at (EXT4_XATTR_NAME last) (xi_name i) b in
        (last, set_le 4 (EXT4_XATTR_NEXT last b) 0 b)
    end in
  let b :=
    if value_offs =? 0 then b
    else
      let b := memcpy_at (xs_base s + value_offs) v b in
      memset_at (xs_base s + value_offs + blen v) 0 (room - blen v) b in
  (mk_search (xs_first s) (xs_base s) (xs_end s) (Some here) (xs_not_found s), b).
(** The whole entry [here] is removed. *)
Definition remove_entry (s : xattr_search) (here last : Z) (b : list Z) : xattr_search * list Z :=
  let next := EXT4_XATTR_NEXT here b in
  let shift_offs := next - here in
  let b := memmove_at here next (last + 4 - next) b in
  let b := memset_at (last - shift_offs + 4) 0 shift_offs b in
  (mk_search (xs_first s) (xs_base s) (xs_end s) None (xs_not_found s), b).

(** [xs_here] is null exactly when [xs_not_found] holds.  EOK or ENOSPC, the search
    and the buffer afterwards; [dry_run] is false in every call. *)
Definition ext4_xattr_set_entry (i : xattr_info) (s : xattr_search) (b : list Z) : Z * xattr_search * list Z :=
  match xi_value i, xs_here s with
  | None, None => (EOK, s, b)
  | value, here =>
      let '(min_offs, last) := xattr_scan (xattr_fuel b) (xs_end s - xs_base s) (xs_first s) b in
      let free := u64 (min_offs - (last - xs_base s) - 4) in
      let free :=
        match here with
        | Some h => u64 (free + (entry_room h b + EXT4_XATTR_LEN (rd xe_name_len h b)))
        | None => free
        end in
      let too_small :=
        match value with
        | Some v => free <? u64 (u64 (EXT4_XATTR_SIZE (blen v)) + EXT4_XATTR_LEN (blen (xi_name i)))
        | None => false
        end in
      if too_small then (ENOSPC, s, b)
      else
        let '(min_offs, b) := match here with Some h => remove_value s h min_offs b | None => (min_offs, b) end in
        let '(s, b) :=
          match value, here with
          | Some v, _ => put_value i s v min_offs last b
          | None, Some h => remove_entry s h last b
          | None, None => (s, b)
          end in
        (EOK, s, b)
  end.
Definition ext4_xattr_is_empty (s : xattr_search) (b : list Z) : bool := EXT4_XATTR_IS_LAST_ENTRY (xs_first s) b.

Fixpoint find_entry_loop (fuel : nat) (i : xattr_info) (entry : Z) (b : list Z) : option Z :=
  match fuel with
  | O => None
  | S fuel =>
      if EXT4_XATTR_IS_LAST_ENTRY entry b then None
      else
        let name_len := rd xe_name_len entry b in
        if (name_len =? blen (xi_name i)) && (rd xe_name_index entry b =? xi_name_index i) &&
           bool_decide (slice (EXT4_XATTR_NAME entry) name_len b = xi_name i)
        then Some entry
        else find_entry_loop fuel i (EXT4_XATTR_NEXT entry b) b
  end.
(** The length and the place of the value, which it puts in the finder too, are read
    from the entry by those who use them. *)
Definition ext4_xattr_find_entry (i : xattr_info) (s : xattr_search) (b : list Z) : xattr_search :=
  let here := find_entry_loop (xattr_fuel b) i (xs_first s) b in
  mk_search (xs_first s) (xs_base s) (xs_end s) here (match here with Some _ => false | None => true end).

(** The loop of both checks: the lowest offset of a value and the mark after the last
    entry, or nothing when an entry is refused. *)
Fixpoint check_entries (fuel : nat) (base end_ min_offs entry : Z) (b : list Z) : option (Z * Z) :=
  match fuel with
  | O => None
  | S fuel =>
      if end_ <? entry + 4 then None
      else if EXT4_XATTR_IS_LAST_ENTRY entry b then Some (min_offs, entry)
      else if end_ <? entry + XATTR_ENTRY then None
      else
        let size := rd xe_value_size entry b in
        let offs := rd xe_value_offs entry b in
        if (size =? 0) && negb (offs =? 0) then None
        else if end_ <? base + offs + size then None
        else if end_ <? EXT4_XATTR_NEXT entry b + 4 then None
        else
          let min_offs := if negb (size =? 0) && (offs <? min_offs) then offs else min_offs in
          check_entries fuel base end_ min_offs (EXT4_XATTR_NEXT entry b) b
  end.
Definition entries_valid (base end_ first : Z) (b : list Z) : bool :=
  match check_entries (xattr_fuel b) base end_ (end_ - base) first b with
  | None => false
  | Some (min_offs, entry) => negb (base + min_offs <? entry + 4)
  end.

(** *** The block *)

Definition ext4_xattr_is_block_valid (sb b : list Z) : bool :=
  if negb (rd xh_magic 0 b =? EXT4_XATTR_MAGIC) then false
  else if negb (rd xh_blocks 0 b =? 1) then false
  else entries_valid 0 (ext4_sb_get_block_size sb) XATTR_HEADER b.
Definition ext4_xattr_block_init_search (sb : list Z) : xattr_search :=
  mk_search XATTR_HEADER 0 (ext4_sb_get_block_size sb) None true.
Definition ext4_xattr_block_initialize (sb : list Z) (b : list Z) : list Z :=
  let b := memset_at 0 0 (ext4_sb_get_block_size sb) b in
  let b := wr xh_magic 0 EXT4_XATTR_MAGIC b in
  let b := wr xh_refcount 0 1 b in
  wr xh_blocks 0 1 b.
Definition ext4_xattr_block_find_entry (sb : list Z) (i : xattr_info) (b : list Z) : result xattr_search :=
  if negb (ext4_xattr_is_block_valid sb b) then Err EIO
  else Ok (ext4_xattr_find_entry i (ext4_xattr_block_init_search sb) b).

(** *** The inode *)

(** [p]: where the inode begins in the buffer [b]. *)
Definition EXT4_XATTR_IHDR (sb : list Z) (p : Z) (b : list Z) : Z :=
  p + EXT4_GOOD_OLD_INODE_SIZE + ext4_inode_get_extra_isize sb p b.
Definition EXT4_XATTR_IFIRST (hdr : Z) : Z := hdr + XATTR_IHEADER.
Definition ibody_magic (sb : list Z) (p : Z) (b : list Z) : bool :=
  get_le 4 (EXT4_XATTR_IHDR sb p b) b =? EXT4_XATTR_MAGIC.
Definition ext4_xattr_ibody_misaligned (sb : list Z) (p : Z) (b : list Z) : bool :=
  negb (Z.land (ext4_inode_get_extra_isize sb p b) 3 =? 0).
(** Offsets count from the header here, and from the first entry everywhere else. *)
Definition ext4_xattr_is_ibody_valid (sb : list Z) (p : Z) (b : list Z) : bool :=
  let iheader := EXT4_XATTR_IHDR sb p b in
  let entry := EXT4_XATTR_IFIRST iheader in
  let end_ := p + sb_get sb_inode_size sb in
  if (end_ <? entry + 4) || ext4_xattr_ibody_misaligned sb p b then false
  else if negb (ibody_magic sb p b) then false
  else entries_valid iheader end_ entry b.
(** Whether the inode is made dirty, and the buffer. *)
Definition ext4_xattr_ibody_initialize (sb : list Z) (p : Z) (b : list Z) : bool * list Z :=
  let extra_isize := ext4_inode_get_extra_isize sb p b in
  let inode_size := sb_get sb_inode_size sb in
  if extra_isize =? 0 then (false, b)
  else if (inode_size <? EXT4_GOOD_OLD_INODE_SIZE + extra_isize + XATTR_IHEADER) || ext4_xattr_ibody_misaligned sb p b
  then (false, b)
  else
    let header := EXT4_XATTR_IHDR sb p b in
    let b := memset_at header 0 (inode_size - EXT4_GOOD_OLD_INODE_SIZE - extra_isize) b in
    (true, set_le 4 header EXT4_XATTR_MAGIC b).
Definition ext4_xattr_ibody_initialized (sb : list Z) (p : Z) (b : list Z) : bool :=
  if ext4_inode_get_extra_isize sb p b =? 0 then false else ibody_magic sb p b.
Definition ext4_xattr_ibody_find_entry (sb : list Z) (i : xattr_info) (p : Z) (b : list Z) : result xattr_search :=
  let extra_isize := ext4_inode_get_extra_isize sb p b in
  let end_ := p + sb_get sb_inode_size sb in
  if extra_isize =? 0 then Ok (search_zero true)
  else
    let iheader := EXT4_XATTR_IHDR sb p b in
    if (end_ <? iheader + XATTR_IHEADER) || ext4_xattr_ibody_misaligned sb p b then Err EIO
    else if negb (ibody_magic sb p b) then Ok (search_zero true)
    else if negb (ext4_xattr_is_ibody_valid sb p b) then Err EIO
    else
      let first := EXT4_XATTR_IFIRST iheader in
      Ok (ext4_xattr_find_entry i (mk_search first first end_ None true) b).

(** *** Listing *)

Fixpoint list_entries (fuel : nat) (entry : Z) (b : list Z) : list (Z * list Z) :=
  match fuel with
  | O => []
  | S fuel =>
      if EXT4_XATTR_IS_LAST_ENTRY entry b then []
      else
        (rd xe_name_index entry b, slice (EXT4_XATTR_NAME entry) (rd xe_name_len entry b) b) ::
        list_entries fuel (EXT4_XATTR_NEXT entry b) b
  end.
(** What an entry of the list takes of the caller's buffer: [struct
    ext4_xattr_list_entry] is 32 bytes, a pointer 8. *)
Definition EXT4_XATTR_LIST_STRIDE (name_len : Z) : Z := Z.ldiff (32 + name_len + 1 + 7) 7.
Definition list_len (l : list (Z * list Z)) : Z :=
  fold_right (fun e a => EXT4_XATTR_LIST_STRIDE (blen e.2) + a) 0 l.

(** ** Attributes of an inode *)

Section Xattr.
Context {St : Type} {BS : BlockStore St}.
Local Abbreviation fsys := (fsys St).

Definition file_acl : M fsys Z :=
  sb <- mget f_sb;;
  on_inode (fun p b => ext4_inode_get_file_acl p b sb).
Definition set_acl (blk : Z) : M fsys unit :=
  sb <- mget f_sb;;
  inode_store (fun p => ext4_inode_set_file_acl p sb blk).
Definition ibody_find (i : xattr_info) : M fsys xattr_search :=
  sb <- mget f_sb;;
  r <- on_inode (ext4_xattr_ibody_find_entry sb i);;
  lift_result r.
Definition block_find (i : xattr_info) (blk : Z) : M fsys xattr_search :=
  sb <- mget f_sb;;
  b <- data blk;;
  lift_result (ext4_xattr_block_find_entry sb i b).
(** The result of [ext4_block_set] dropped. *)
Definition give_back (blk : Z) : M fsys unit := mtry (on_st (bs_set blk));;; mok tt.
Definition mark_dirty (blk : Z) : M fsys unit := mtry (on_st (bs_dirty blk));;; mok tt.

Definition ext4_xattr_try_alloc_block : M fsys unit :=
  xattr_block <- file_acl;;
  if negb (xattr_block =? 0) then mok tt
  else
    goal <- ext4_fs_inode_to_goal_block;;
    xattr_block <- ext4_balloc_alloc_block goal;;
    set_acl xattr_block.
Definition ext4_xattr_try_free_block : M fsys unit :=
  xattr_block <- file_acl;;
  if xattr_block =? 0 then mok tt
  else
    set_acl 0;;;
    mtry (ext4_balloc_free_block xattr_block);;;
    inode_dirty.

Definition ext4_xattr_list : M fsys (list (Z * list Z)) :=
  sb <- mget f_sb;;
  xattr_block <- file_acl;;
  in_body <- on_inode (fun p b =>
    if negb (ext4_inode_get_extra_isize sb p b =? 0) && ext4_xattr_is_ibody_valid sb p b
    then list_entries (xattr_fuel b) (EXT4_XATTR_IFIRST (EXT4_XATTR_IHDR sb p b)) b else []);;
  if xattr_block =? 0 then mok in_body
  else
    on_st (bs_get xattr_block);;;
    finally
      (b <- data xattr_block;;
       if negb (ext4_xattr_is_block_valid sb b) then mfail EIO
       else mok (in_body ++ list_entries (xattr_fuel b) XATTR_HEADER b))
      (on_st (bs_set xattr_block)).

(** The length of the value of the entry found, and what is copied of it. *)
Definition value_found (buf_len : Z) (s : xattr_search) (b : list Z) : Z * list Z :=
  match xs_here s with
  | None => (0, [])
  | Some here =>
      let value_len := rd xe_value_size here b in
      (value_len, slice (xs_base s + rd xe_value_offs here b) (if buf_len <? value_len then buf_len else value_len) b)
  end.
Definition ext4_xattr_get (name_index : Z) (name : list Z) (buf_len : Z) : M fsys (Z * list Z) :=
  let i := mk_xinfo name_index name None in
  xattr_block <- file_acl;;
  s <- ibody_find i;;
  if negb (xs_not_found s) then on_inode (fun _ => value_found buf_len s)
  else if xattr_block =? 0 then mfail ENODATA
  else
    on_st (bs_get xattr_block);;;
    finally
      (s <- block_find i xattr_block;;
       if xs_not_found s then mfail ENODATA
       else b <- data xattr_block;; mok (value_found buf_len s b))
      (on_st (bs_set xattr_block)).

(** A copy of a block that other inodes have too, for this inode: its number, held. *)
Definition ext4_xattr_copy_new_block (blk : Z) : M fsys (option Z) :=
  sb <- mget f_sb;;
  b <- data blk;;
  let refcount := rd xh_refcount 0 b in
  if negb (1 <? refcount) then mok None
  else
    goal <- ext4_fs_inode_to_goal_block;;
    xattr_block <- ext4_balloc_alloc_block goal;;
    or_else (on_st (bs_get xattr_block)) (ext4_balloc_free_block xattr_block);;;
    store xattr_block (memcpy_at 0 (slice 0 (ext4_sb_get_block_size sb) b));;;
    store blk (wr xh_refcount 0 (u32 (refcount - 1)));;;
    mark_dirty blk;;;
    mark_dirty xattr_block;;;
    store xattr_block (wr xh_refcount 0 1);;;
    set_acl xattr_block;;;
    inode_dirty;;;
    mok (Some xattr_block).

(** The block after a change: the hash of the entry [here], that of the first entry
    and of the block, and the checksum for block [lb_id]. *)
Definition seal_block (sb : list Z) (here : option Z) (lb_id : Z) (b : list Z) : list Z :=
  let b := match here with Some h => ext4_xattr_compute_hash 0 h b | None => b end in
  ext4_xattr_set_block_checksum sb lb_id (ext4_xattr_rehash 0 XATTR_HEADER b).

(** When the entry leaves the block [new], a copy of [old] or [old] itself.  A block
    that is refused keeps its handle. *)
Definition remove_from_block (i : xattr_info) (old new : Z) : M fsys unit :=
  sb <- mget f_sb;;
  s <- block_find i new;;
  b <- data new;;
  let '(_, s, b) := ext4_xattr_set_entry i s b in
  store new (fun _ => b);;;
  if ext4_xattr_is_empty s b then give_back new;;; ext4_xattr_try_free_block
  else
    store new (seal_block sb None old);;;
    mark_dirty new;;;
    give_back new.
Definition ext4_xattr_remove (name_index : Z) (name : list Z) : M fsys unit :=
  let i := mk_xinfo name_index name None in
  xattr_block <- file_acl;;
  s <- ibody_find i;;
  if xs_not_found s && negb (xattr_block =? 0) then
    on_st (bs_get xattr_block);;;
    let drop_block {A} (m : M fsys A) : M fsys A := or_else m (give_back xattr_block) in
    drop_block (s <- block_find i xattr_block;; if xs_not_found s then mfail ENODATA else mok tt);;;
    new <- drop_block (ext4_xattr_copy_new_block xattr_block);;
    match new with
    | None => remove_from_block i xattr_block xattr_block
    | Some new => finally (remove_from_block i xattr_block new) (give_back xattr_block)
    end
  else
    inode_store (fun _ b => snd (ext4_xattr_set_entry i s b));;;
    inode_dirty.

(** The value entered in the block that is held. *)
Definition set_in_block (i : xattr_info) (blk : Z) (s : xattr_search) : M fsys Z :=
  sb <- mget f_sb;;
  b <- data blk;;
  let '(rc, s, b) := ext4_xattr_set_entry i s b in
  (if rc =? EOK then
     store blk (fun _ => seal_block sb (xs_here s) blk b);;;
     mark_dirty blk
   else mok tt);;;
  mok rc.
Definition ret_code (rc : Z) : M fsys (option unit) := if rc =? EOK then mok (Some tt) else mfail rc.
(** [None]: after copying a shared block, the handle on it is given back and then used
    all the same, with a null pointer for its data. *)
Definition ext4_xattr_block_set (i : xattr_info) (no_insert : bool) : M fsys (option unit) :=
  sb <- mget f_sb;;
  orig <- file_acl;;
  if orig =? 0 then
    if no_insert then mfail ENODATA
    else
      ext4_xattr_try_alloc_block;;;
      orig <- file_acl;;
      or_else (on_st (bs_get orig)) ext4_xattr_try_free_block;;;
      store orig (ext4_xattr_block_initialize sb);;;
      mark_dirty orig;;;
      rc <- set_in_block i orig (ext4_xattr_block_init_search sb);;
      give_back orig;;;
      (if rc =? EOK then mok tt else ext4_xattr_try_free_block);;;
      ret_code rc
  else
    on_st (bs_get orig);;;
    let drop_block {A} (m : M fsys A) : M fsys A := or_else m (give_back orig) in
    b <- data orig;;
    (if (1 <? rd xh_refcount 0 b) && no_insert then
       drop_block (s <- block_find i orig;; if xs_not_found s then mfail ENODATA else mok tt)
     else mok tt);;;
    new <- drop_block (ext4_xattr_copy_new_block orig);;
    match new with
    | Some _ => give_back orig;;; mok None
    | None =>
        s <- drop_block (block_find i orig);;
        rc <- set_in_block i orig s;;
        give_back orig;;;
        ret_code rc
    end.

(** [stack]: what the finder holds before anything is put in it; the function looks
    for that.  [None]: a block that is refused is worked on with null pointers. *)
Definition ext4_xattr_block_remove (stack i : xattr_info) : M fsys (option unit) :=
  sb <- mget f_sb;;
  orig <- file_acl;;
  on_st (bs_get orig);;;
  new <- or_else (ext4_xattr_copy_new_block orig) (give_back orig);;
  blk <- (match new with Some new => give_back orig;;; mok new | None => mok orig end);;
  b <- data blk;;
  match ext4_xattr_block_find_entry sb stack b with
  | Err _ => mok None
  | Ok s =>
      (if xs_not_found s then mok tt
       else
         store blk (fun b => snd (ext4_xattr_set_entry (mk_xinfo (xi_name_index i) (xi_name i) None) s b));;;
         store blk (seal_block sb None blk);;;
         mark_dirty blk);;;
      give_back blk;;;
      mok (Some tt)
  end.

(** [try_insert]: into the inode, or else into the block. *)
Definition try_insert (stack i : xattr_info) (s : xattr_search) (block_found : bool) : M fsys (option unit) :=
  sb <- mget f_sb;;
  extra_isize <- on_inode (ext4_inode_get_extra_isize sb);;
  rc <- (if negb (extra_isize =? 0) then
           let* (rc, b) := on_inode (fun _ b => let '(rc, _, b) := ext4_xattr_set_entry i s b in (rc, b)) in
           inode_store (fun _ _ => b);;;
           mok rc
         else mok ENOSPC);;
  if rc =? ENOSPC then
    if block_found then mfail rc
    else
      r <- mtry (ext4_xattr_block_set i false);;
      inode_store (fun _ b => snd (ext4_xattr_set_entry (mk_xinfo (xi_name_index i) (xi_name i) None) s b));;;
      inode_dirty;;;
      lift_result r
  else
    r <- (if block_found then mtry (ext4_xattr_block_remove stack i) else mok (Ok (Some tt)));;
    inode_dirty;;;
    lift_result r.
Definition ext4_xattr_set (stack : xattr_info) (name_index : Z) (name value : list Z) : M fsys (option unit) :=
  let i := mk_xinfo name_index name (Some value) in
  sb <- mget f_sb;;
  orig_xattr_block <- file_acl;;
  s <- ibody_find i;;
  initialized <- on_inode (ext4_xattr_ibody_initialized sb);;
  s <- (if initialized : bool then mok s
        else
          let* (dirty, b) := on_inode (ext4_xattr_ibody_initialize sb) in
          (if dirty : bool then inode_store (fun _ _ => b);;; inode_dirty else mok tt);;;
          ibody_find i);;
  if xs_not_found s && negb (orig_xattr_block =? 0) then
    r <- mtry (ext4_xattr_block_set i true);;
    match r with
    | Ok x => mok x
    | Err rc =>
        if (rc =? ENOSPC) || (rc =? ENODATA) then try_insert stack i s true else mfail rc
    end
  else try_insert stack i s false.
End Xattr.
