(* ===== verification/XattrLaws.v ===== *)
(** * What an area of attributes is

    The entries of an area (Xattr.v) as a list, what makes an area well formed, and
    what the operations on one area do to it. *)

From S2P Require Import Prelude Layout Types Xattr.

(** An entry: the namespace, the name, and where the value is. *)
Record xent := mk_xent { xn_index : Z; xn_name : list Z; xn_offs : Z; xn_size : Z }.
Definition xent_at (off : Z) (b : list Z) : xent :=
  mk_xent (rd xe_name_index off b) (slice (off + 16) (rd xe_name_len off b) b) (rd xe_value_offs off b)
    (rd xe_value_size off b).
Definition xkey (x : xent) : Z * list Z := (xn_index x, xn_name x).
Definition xlen (x : xent) : Z := EXT4_XATTR_LEN (blen (xn_name x)).
Definition xroom (x : xent) : Z := EXT4_XATTR_SIZE (xn_size x).
Definition xvalue (base : Z) (b : list Z) (x : xent) : list Z := slice (base + xn_offs x) (xn_size x) b.
Definition xspan (l : list xent) : Z := fold_right (fun x a => xlen x + a) 0 l.

(** The entries from [off] to the mark at [stop]. *)
Fixpoint xchain (b : list Z) (off : Z) (l : list xent) (stop : Z) : Prop :=
  match l with
  | [] => off = stop
  | x :: l =>
      (xent_at off b = x /\ EXT4_XATTR_IS_LAST_ENTRY off b = false /\ rd xe_name_len off b = blen (xn_name x)) /\
      off + xlen x <= stop /\ xchain b (off + xlen x) l stop
  end.

(** The lowest offset of a value, the room that is left, and the map. *)
Definition xmin (n : Z) (l : list xent) : Z :=
  fold_left (fun m x => if negb (xn_size x =? 0) && (xn_offs x <? m) then xn_offs x else m) l n.
Definition xfree (base first end_ : Z) (l : list xent) : Z := xmin (end_ - base) l - (first + xspan l - base) - 4.
Definition xkvs (base : Z) (b : list Z) (l : list xent) : list ((Z * list Z) * list Z) :=
  map (fun x => (xkey x, xvalue base b x)) l.
Definition xmap (base : Z) (b : list Z) (l : list xent) : gmap (Z * list Z) (list Z) := list_to_map (xkvs base b l).

(** The values of [l] are above [low], in the area, and apart. *)
Definition xapart (x y : xent) : Prop :=
  xn_size x = 0 \/ xn_size y = 0 \/ xn_offs x + xroom x <= xn_offs y \/ xn_offs y + xroom y <= xn_offs x.
Definition xinside (low high : Z) (x : xent) : Prop :=
  0 <= xn_size x /\ (xn_size x = 0 -> xn_offs x = 0) /\
  (xn_size x <> 0 -> low <= xn_offs x /\ xn_offs x + xroom x <= high).
Fixpoint xall_apart (l : list xent) : Prop :=
  match l with
  | [] => True
  | x :: l => Forall (xapart x) l /\ xall_apart l
  end.
Record xvalues (low high : Z) (l : list xent) : Prop := {
  xv_inside : Forall (xinside low high) l;
  xv_apart : xall_apart l;
}.
Record xframe (base first end_ : Z) (b : list Z) (l : list xent) : Prop := {
  xf_bytes : bytes_ok b;
  xf_base : 0 <= base <= first;
  xf_end : end_ <= blen b /\ end_ - base <= 65536;
  xf_chain : xchain b first l (first + xspan l);
  xf_last : EXT4_XATTR_IS_LAST_ENTRY (first + xspan l) b = true;
  xf_room : first + xspan l + 4 <= end_;
  xf_keys : NoDup (map xkey l);
}.
(** A well-formed area. *)
Record xarea (base first end_ : Z) (b : list Z) (l : list xent) : Prop := {
  xa_frame : xframe base first end_ b l;
  xa_values : xvalues (first + xspan l + 4 - base) (end_ - base) l;
}.

(** ** Lengths *)

Lemma ldiff3 a : Z.ldiff a 3 = a / 4 * 4.
Proof.
  change 3 with (Z.ones 2). rewrite Z.ldiff_ones_r by lia. rewrite Z.shiftl_mul_pow2, Z.shiftr_div_pow2 by lia. done.
Qed.
Lemma xattr_len n : EXT4_XATTR_LEN n = (n + 19) / 4 * 4.
Proof. unfold EXT4_XATTR_LEN. rewrite ldiff3. change XATTR_ENTRY with 16. do 2 f_equal. lia. Qed.
Lemma xattr_len_range n : n + 16 <= EXT4_XATTR_LEN n <= n + 19.
Proof. rewrite xattr_len. dlia. Qed.
Lemma xattr_size_range n : n <= EXT4_XATTR_SIZE n <= n + 3.
Proof. unfold EXT4_XATTR_SIZE. rewrite ldiff3. dlia. Qed.
Lemma xlen_range x : blen (xn_name x) + 16 <= xlen x <= blen (xn_name x) + 19.
Proof. apply xattr_len_range. Qed.
Lemma xlen_pos x : 16 <= xlen x.
Proof. pose proof (xlen_range x). pose proof (blen_nonneg (xn_name x)). lia. Qed.
Lemma xspan_nonneg l : 0 <= xspan l.
Proof. induction l as [|x l IH]; cbn; [lia|]. pose proof (xlen_pos x). unfold xspan in IH. lia. Qed.
Lemma xspan_app l1 l2 : xspan (l1 ++ l2) = xspan l1 + xspan l2.
Proof. unfold xspan. induction l1 as [|x l IH]; cbn [app fold_right]; lia. Qed.
Lemma xspan_length l : 16 * Z.of_nat (length l) <= xspan l.
Proof. induction l as [|x l IH]; cbn; [lia|]. pose proof (xlen_pos x). unfold xspan in IH. lia. Qed.

Lemma slice_eq off off' n b b' :
  bytes_ok b -> bytes_ok b' -> 0 <= off -> 0 <= off' -> 0 <= n -> off + n <= blen b -> off' + n <= blen b' ->
  (forall j, 0 <= j < n -> byte_at b (off + j) = byte_at b' (off' + j)) -> slice off n b = slice off' n b'.
Proof.
  intros Hb Hb' Ho Ho' Hn Hl Hl' H. apply bytes_ext; try by apply bytes_ok_slice.
  - rewrite !blen_slice; lia.
  - intros j. rewrite blen_slice by lia. intros. rewrite !byte_at_slice by lia. by apply H.
Qed.

(** ** Entries *)

Lemma is_last_fields off b : bytes_ok b ->
  EXT4_XATTR_IS_LAST_ENTRY off b =
  (rd xe_name_len off b =? 0) && (rd xe_name_index off b =? 0) && (rd xe_value_offs off b =? 0).
Proof.
  intros Hb. unfold EXT4_XATTR_IS_LAST_ENTRY, rd. cbn [Z.to_nat f_size f_off xe_name_len xe_name_index xe_value_offs].
  change (Z.to_nat 1) with 1%nat. change (Z.to_nat 2) with 2%nat. cbn [get_le].
  replace (off + 0) with off by lia. replace (off + 1 + 1) with (off + 2) by lia.
  pose proof (byte_at_range b off). pose proof (byte_at_range b (off + 1)).
  pose proof (byte_at_range b (off + 2)). pose proof (byte_at_range b (off + 2 + 1)). lia.
Qed.
Lemma xent_last off b x : bytes_ok b -> xent_at off b = x -> forall n, rd xe_name_len off b = n ->
  EXT4_XATTR_IS_LAST_ENTRY off b = (n =? 0) && (xn_index x =? 0) && (xn_offs x =? 0).
Proof. intros Hb <- n <-. by rewrite is_last_fields. Qed.
Lemma is_last_ext off b b' :
  (forall j, off <= j < off + 4 -> byte_at b j = byte_at b' j) ->
  EXT4_XATTR_IS_LAST_ENTRY off b = EXT4_XATTR_IS_LAST_ENTRY off b'.
Proof. intros H. unfold EXT4_XATTR_IS_LAST_ENTRY. by rewrite (get_le_ext 4 off b b') by (intros; apply H; lia). Qed.

Lemma rd_move f off off' b b' n :
  f_within n f = true -> (forall j, 0 <= j < n -> byte_at b (off + j) = byte_at b' (off' + j)) ->
  rd f off b = rd f off' b'.
Proof.
  intros Hf H. unfold f_within in Hf. unfold rd.
  assert (G : forall k o, 0 <= o -> o + Z.of_nat k <= n -> get_le k (off + o) b = get_le k (off' + o) b').
  { induction k as [|k IH]; intros o Ho Hk; [done|]. cbn [get_le]. rewrite H by lia.
    replace (off + o + 1) with (off + (o + 1)) by lia. replace (off' + o + 1) with (off' + (o + 1)) by lia.
    rewrite IH by lia. done. }
  apply G; lia.
Qed.
(** An entry that is elsewhere, byte for byte. *)
Lemma xent_move off off' b b' :
  bytes_ok b -> bytes_ok b' -> 0 <= off -> 0 <= off' ->
  let x := xent_at off b in
  rd xe_name_len off b = blen (xn_name x) -> off + xlen x <= blen b -> off' + xlen x <= blen b' ->
  (forall j, 0 <= j < xlen x -> byte_at b (off + j) = byte_at b' (off' + j)) ->
  xent_at off' b' = x /\ rd xe_name_len off' b' = blen (xn_name x) /\
  EXT4_XATTR_IS_LAST_ENTRY off' b' = EXT4_XATTR_IS_LAST_ENTRY off b.
Proof.
  intros Hb Hb' Ho Ho' x Hn Hl Hl' H. pose proof (xlen_range x) as R. pose proof (blen_nonneg (xn_name x)).
  assert (F : forall f, f_within 16 f = true -> rd f off' b' = rd f off b).
  { intros f Hf. symmetry. apply (rd_move f off off' b b' 16 Hf). intros j Hj. apply H. lia. }
  split; [|split].
  - unfold x at 1, xent_at. rewrite !F by done. f_equal. symmetry.
    rewrite Hn in *. apply slice_eq; try done; try lia. intros j Hj.
    rewrite <- !Z.add_assoc. apply H. lia.
  - by rewrite F.
  - rewrite !is_last_fields by done. by rewrite !F.
Qed.

Lemma xchain_le b l : forall off stop, xchain b off l stop -> off <= stop.
Proof. induction l as [|x l IH]; intros off stop; cbn; [lia|]. intros (_ & H & C). apply IH in C. pose proof (xlen_pos x). lia. Qed.
Lemma xchain_span b l : forall off stop, xchain b off l stop -> stop = off + xspan l.
Proof.
  induction l as [|x l IH]; intros off stop; cbn [xchain]; [cbn; lia|]. intros (_ & _ & C). apply IH in C. rewrite C.
  cbn [xspan fold_right]. unfold xspan. lia.
Qed.
Lemma xchain_app b l1 l2 : forall off stop,
  xchain b off (l1 ++ l2) stop <-> xchain b off l1 (off + xspan l1) /\ xchain b (off + xspan l1) l2 stop /\ off + xspan l1 <= stop.
Proof.
  induction l1 as [|x l1 IH]; intros off stop; cbn [app xchain xspan fold_right].
  - replace (off + 0) with off by lia. split; [intros H; split_and!; [done|done|by eapply xchain_le]|by intros (_ & H & _)].
  - fold (xspan l1). rewrite IH. replace (off + (xlen x + xspan l1)) with (off + xlen x + xspan l1) by lia.
    pose proof (xspan_nonneg l1). split.
    + intros (E & H1 & C1 & C2 & H2). split_and!; try done; try lia; apply E.
    + intros ((E & H1 & C1) & C2 & H2). split_and!; try done; try lia; apply E.
Qed.
(** A chain that is elsewhere, byte for byte. *)
Lemma xchain_move b b' l : forall off off' stop,
  bytes_ok b -> bytes_ok b' -> 0 <= off -> 0 <= off' -> stop <= blen b -> off' + (stop - off) <= blen b' ->
  (forall j, 0 <= j < stop - off -> byte_at b (off + j) = byte_at b' (off' + j)) ->
  xchain b off l stop -> xchain b' off' l (off' + (stop - off)).
Proof.
  induction l as [|x l IH]; intros off off' stop Hb Hb' Ho Ho' Hs Hs' H; cbn [xchain]; [lia|].
  intros ((<- & Hl & Hn) & Hle & C). pose proof (xlen_pos (xent_at off b)).
  destruct (xent_move off off' b b') as (E1 & E2 & E3); try done; try lia.
  { intros j Hj. apply H. lia. }
  split; [rewrite E3; done|]. split; [lia|].
  replace (off' + (stop - off)) with (off' + xlen (xent_at off b) + (stop - (off + xlen (xent_at off b)))) by lia.
  apply IH; try done; try lia. intros j Hj. rewrite <- !Z.add_assoc. apply H. lia.
Qed.
Lemma xchain_ext b b' l off stop :
  bytes_ok b -> bytes_ok b' -> blen b = blen b' -> 0 <= off -> stop <= blen b ->
  (forall j, off <= j < stop -> byte_at b j = byte_at b' j) -> xchain b off l stop -> xchain b' off l stop.
Proof.
  intros Hb Hb' El Ho Hs H C. pose proof (xchain_le _ _ _ _ C).
  replace stop with (off + (stop - off)) by lia. apply (xchain_move b b'); try done; try lia.
  intros j Hj. apply H. lia.
Qed.
Lemma xchain_length b l off stop : xchain b off l stop -> 0 <= off -> stop <= blen b -> (length l < xattr_fuel b)%nat.
Proof.
  intros C Ho Hs. apply xchain_span in C. pose proof (xspan_length l). unfold xattr_fuel. change XATTR_ENTRY with 16.
  assert (Z.of_nat (length l) <= blen b / 16) by (apply Z.div_le_lower_bound; lia). lia.
Qed.
Lemma xnext off b : rd xe_name_len off b = blen (xn_name (xent_at off b)) -> EXT4_XATTR_NEXT off b = off + xlen (xent_at off b).
Proof. unfold EXT4_XATTR_NEXT, xlen. by intros ->. Qed.

(** ** The loops *)

Lemma find_spec i b stop : forall fuel off l,
  xchain b off l stop -> EXT4_XATTR_IS_LAST_ENTRY stop b = true -> (length l < fuel)%nat ->
  match find_entry_loop fuel i off b with
  | None => forall x, x ∈ l -> xkey x <> (xi_name_index i, xi_name i)
  | Some h => exists l1 x l2, l = l1 ++ x :: l2 /\ h = off + xspan l1 /\ xkey x = (xi_name_index i, xi_name i)
  end.
Proof.
  induction fuel as [|fuel IH]; intros off l C Hs Hf; [lia|]. cbn [find_entry_loop]. destruct l as [|x l].
  { cbn in C. subst stop. rewrite Hs. intros x Hx. by apply not_elem_of_nil in Hx. }
  cbn [xchain] in C. destruct C as ((<- & Hl & Hn) & Hle & C). rewrite Hl.
  set (x := xent_at off b) in *. destruct (_ && _) eqn:E.
  - rewrite !andb_true_iff in E. destruct E as [[E1%Z.eqb_eq E2%Z.eqb_eq] E3%bool_decide_eq_true].
    exists [], x, l. split; [done|]. split; [cbn; lia|]. unfold xkey. f_equal; [done|exact E3].
  - rewrite xnext by done. fold x. cbn [length] in Hf. specialize (IH _ _ C Hs ltac:(lia)). destruct (find_entry_loop _ _ _ _) as [h|].
    + destruct IH as (l1 & y & l2 & -> & -> & Hk). exists (x :: l1), y, l2. split; [done|]. split; [cbn; unfold xspan; lia|done].
    + intros y [->|Hy]%elem_of_cons; [|by apply IH]. intros Hk. unfold xkey in Hk. injection Hk as K1 K2.
      rewrite !andb_false_iff in E. rewrite <- K2 in E.
      destruct E as [[E%Z.eqb_neq|E%Z.eqb_neq]|E%bool_decide_eq_false]; [done|done|by apply E].
Qed.
Lemma scan_spec b stop : forall fuel m off l,
  xchain b off l stop -> EXT4_XATTR_IS_LAST_ENTRY stop b = true -> (length l < fuel)%nat ->
  xattr_scan fuel m off b = (xmin m l, stop).
Proof.
  induction fuel as [|fuel IH]; intros m off l C Hs Hf; [lia|]. cbn [xattr_scan]. destruct l as [|x l].
  { cbn in C. subst stop. by rewrite Hs. }
  cbn [xchain] in C. destruct C as ((<- & Hl & Hn) & Hle & C). rewrite Hl, xnext by done. cbn [length] in Hf.
  by rewrite (IH _ _ l) by (done || lia).
Qed.
Lemma xmin_spec l : forall m,
  xmin m l <= m /\ (forall x, x ∈ l -> xn_size x <> 0 -> xmin m l <= xn_offs x) /\
  (xmin m l = m \/ exists x, x ∈ l /\ xn_size x <> 0 /\ xmin m l = xn_offs x).
Proof.
  induction l as [|x l IH]; intros m; cbn [xmin fold_left].
  { split; [lia|]. split; [intros x Hx; by apply not_elem_of_nil in Hx|by left]. }
  fold (xmin (if negb (xn_size x =? 0) && (xn_offs x <? m) then xn_offs x else m) l).
  set (m' := if negb (xn_size x =? 0) && (xn_offs x <? m) then xn_offs x else m). destruct (IH m') as (I1 & I2 & I3).
  assert (Hm : m' <= m /\ (xn_size x <> 0 -> m' <= xn_offs x) /\ (m' = m \/ xn_size x <> 0 /\ m' = xn_offs x)).
  { unfold m'. destruct (Z.eqb_spec (xn_size x) 0), (Z.ltb_spec (xn_offs x) m); cbn; lia. }
  destruct Hm as (M1 & M2 & M3). split; [lia|]. split.
  - intros y [->|Hy]%elem_of_cons Hs; [specialize (M2 Hs); lia|by apply I2].
  - destruct I3 as [E|(y & Hy & Hs & E)].
    + destruct M3 as [E'|[Hs E']]; [left; lia|]. right. exists x. split; [by left|]. split; [done|lia].
    + right. exists y. split; [by right|]. done.
Qed.

Definition xshift (o r : Z) (x : xent) : xent :=
  if xn_offs x <? o then mk_xent (xn_index x) (xn_name x) (xn_offs x + r) (xn_size x) else x.
Lemma xshift_same o r x : xkey (xshift o r x) = xkey x /\ xlen (xshift o r x) = xlen x /\ xn_size (xshift o r x) = xn_size x /\
  xn_name (xshift o r x) = xn_name x.
Proof. unfold xshift. by case_match. Qed.
Lemma xspan_shift o r l : xspan (map (xshift o r) l) = xspan l.
Proof. induction l as [|x l IH]; [done|]. cbn [map xspan fold_right]. unfold xspan in IH. rewrite IH. by rewrite (proj1 (proj2 (xshift_same o r x))). Qed.
Lemma xkeys_shift o r l : map xkey (map (xshift o r) l) = map xkey l.
Proof. rewrite map_map. apply map_ext. intros x. apply xshift_same. Qed.

(** Writing a field of an entry other than its name's length leaves the name where it is. *)
Lemma xent_wr f v off b :
  bytes_ok b -> 0 <= off -> f_within 16 f = true -> rd xe_name_len off b = blen (xn_name (xent_at off b)) ->
  off + xlen (xent_at off b) <= blen b ->
  slice (off + 16) (rd xe_name_len off b) (wr f off v b) = xn_name (xent_at off b).
Proof.
  intros Hb Ho Hf Hn Hl. pose proof (xlen_range (xent_at off b)). pose proof (blen_nonneg (xn_name (xent_at off b))).
  apply slice_eq; try done; try lia; [by apply bytes_ok_wr|rewrite blen_wr; lia|].
  intros j Hj. by apply (byte_at_wr_out _ _ _ _ _ 16); try lia.
Qed.
Lemma xent_set_offs v off b :
  bytes_ok b -> 0 <= off -> let x := xent_at off b in rd xe_name_len off b = blen (xn_name x) -> off + xlen x <= blen b ->
  0 <= v < 65536 ->
  let b' := wr xe_value_offs off v b in
  xent_at off b' = mk_xent (xn_index x) (xn_name x) v (xn_size x) /\ rd xe_name_len off b' = blen (xn_name x) /\
  changed_in off (off + 16) b b'.
Proof.
  intros Hb Ho x Hn Hl Hv b'. pose proof (xlen_range x). pose proof (blen_nonneg (xn_name x)). split; [|split].
  - unfold xent_at, b'. rewrite (rd_wr_ne xe_value_offs xe_name_index), (rd_wr_ne xe_value_offs xe_name_len),
      (rd_wr_ne xe_value_offs xe_value_size) by done. rewrite (rd_wr_eq _ _ _ _ 16) by (done || lia).
    rewrite xent_wr by done. rewrite Z.mod_small by done. done.
  - unfold b'. by rewrite (rd_wr_ne xe_value_offs xe_name_len) by done.
  - by apply changed_in_wr.
Qed.
Lemma xent_set_value vo n off b :
  bytes_ok b -> 0 <= off -> let x := xent_at off b in rd xe_name_len off b = blen (xn_name x) -> off + xlen x <= blen b ->
  0 <= vo < 65536 -> 0 <= n < 2 ^ 32 ->
  let b' := wr xe_value_size off n (wr xe_value_offs off vo b) in
  bytes_ok b' /\ blen b' = blen b /\ xent_at off b' = mk_xent (xn_index x) (xn_name x) vo n /\
  rd xe_name_len off b' = blen (xn_name x) /\ changed_in off (off + 16) b b'.
Proof.
  intros Hb Ho x Hn Hl Hv Hn' b'. pose proof (xlen_range x). pose proof (blen_nonneg (xn_name x)).
  destruct (xent_set_offs vo off b Hb Ho Hn Hl Hv) as (X1 & X2 & X3). set (b1 := wr xe_value_offs off vo b) in *.
  assert (B1 : bytes_ok b1) by (by apply bytes_ok_wr). assert (L1 : blen b1 = blen b) by apply blen_wr.
  split_and!; [by apply bytes_ok_wr|unfold b'; by rewrite blen_wr| | |].
  - unfold xent_at, b'. rewrite (rd_wr_ne xe_value_size xe_name_index), (rd_wr_ne xe_value_size xe_name_len),
      (rd_wr_ne xe_value_size xe_value_offs) by done. rewrite (rd_wr_eq _ _ _ _ 16) by (done || lia).
    rewrite xent_wr by (done || (rewrite ?X1, ?L1; done)). rewrite Z.mod_small by done.
    change (rd xe_name_index off b1) with (xn_index (xent_at off b1)). change (rd xe_value_offs off b1) with (xn_offs (xent_at off b1)).
    by rewrite X1.
  - unfold b'. by rewrite (rd_wr_ne xe_value_size xe_name_len) by done.
  - apply (changed_in_trans _ _ _ b1); [done|]. by apply changed_in_wr.
Qed.
Lemma shift_spec o r stop : 0 <= r -> forall fuel off l b,
  bytes_ok b -> 0 <= off -> stop + 4 <= blen b ->
  xchain b off l stop -> EXT4_XATTR_IS_LAST_ENTRY stop b = true -> (length l < fuel)%nat ->
  (forall x, x ∈ l -> xn_offs x < o -> xn_offs x + r < 65536) ->
  let b' := shift_offsets fuel o r off b in
  bytes_ok b' /\ blen b' = blen b /\ changed_in off stop b b' /\ xchain b' off (map (xshift o r) l) stop.
Proof.
  intros Hr. induction fuel as [|fuel IH]; intros off l b Hb Ho Hs C Hst Hf Hx; [lia|]. cbn [shift_offsets]. destruct l as [|x l].
  { cbn in C. subst stop. rewrite Hst. done. }
  cbn [xchain] in C. destruct C as ((E & Hl & Hn) & Hle & C). rewrite Hl. pose proof (xlen_pos x). pose proof (xchain_le _ _ _ _ C).
  set (b1 := if rd xe_value_offs off b <? o then wr xe_value_offs off (rd xe_value_offs off b + r) b else b).
  assert (Eo : rd xe_value_offs off b = xn_offs x) by (by rewrite <- E).
  assert (H1 : bytes_ok b1 /\ blen b1 = blen b /\ changed_in off (off + 16) b b1 /\ xent_at off b1 = xshift o r x /\
    rd xe_name_len off b1 = blen (xn_name x) /\ EXT4_XATTR_IS_LAST_ENTRY off b1 = false).
  { unfold b1, xshift. rewrite Eo. destruct (Z.ltb_spec (xn_offs x) o) as [Hlt|Hlt]; [|done].
    assert (Hx0 : 0 <= xn_offs x) by (rewrite <- Eo; apply rd_range; done).
    destruct (xent_set_offs (xn_offs x + r) off b) as (X1 & X2 & X3); rewrite ?E; try done; try lia.
    { split; [lia|]. apply Hx; [by left|done]. }
    rewrite E in X1, X2. split_and!; try done; [by apply bytes_ok_wr|by rewrite blen_wr|].
    rewrite (xent_last _ _ _ (bytes_ok_wr _ _ _ _ Hb) X1 _ X2). rewrite (xent_last _ _ _ Hb E _ Hn) in Hl. cbn [xn_index xn_offs]. lia. }
  destruct H1 as (B1 & L1 & Ch1 & E1 & N1 & La1).
  assert (Enx : EXT4_XATTR_NEXT off b1 = off + xlen x).
  { unfold EXT4_XATTR_NEXT. by rewrite N1. }
  rewrite Enx. cbn [length] in Hf.
  destruct (IH (off + xlen x) l b1) as (I1 & I2 & I3 & I4); try done; try lia.
  - apply (xchain_ext b); try done; try lia. intros j Hj. symmetry. apply Ch1; lia.
  - rewrite <- Hst. symmetry. apply is_last_ext. intros j Hj. symmetry. apply Ch1; lia.
  - intros y Hy. apply Hx. by right.
  - set (b' := shift_offsets fuel o r (off + xlen x) b1) in *. split; [done|]. split; [lia|]. split.
    { apply (changed_in_trans _ _ _ b1); [apply (changed_in_weaken _ _ _ _ _ _ Ch1); lia|apply (changed_in_weaken _ _ _ _ _ _ I3); lia]. }
    cbn [map xchain]. rewrite (proj1 (proj2 (xshift_same o r x))). split; [|split; [done|exact I4]].
    destruct (xent_move off off b1 b') as (M1 & M2 & M3); try done; rewrite ?E1, ?(proj1 (proj2 (xshift_same o r x))); try done; try lia.
    { rewrite (proj2 (proj2 (proj2 (xshift_same o r x)))). done. }
    { intros j Hj. symmetry. apply I3; lia. }
    rewrite M1, M2, M3, E1. done.
Qed.

(** ** Values *)

Lemma xapart_sym x y : xapart x y -> xapart y x.
Proof. unfold xapart. tauto. Qed.
Lemma apart_mid l1 x l2 : xall_apart (l1 ++ x :: l2) <-> Forall (xapart x) (l1 ++ l2) /\ xall_apart (l1 ++ l2).
Proof.
  induction l1 as [|y l1 IH]; cbn [app xall_apart]; [done|]. rewrite IH. rewrite !Forall_app, !Forall_cons. rewrite Forall_app.
  split; intros H; decompose [and] H; split_and!; auto using xapart_sym.
Qed.
Lemma apart_map (f : xent -> xent) l :
  (forall x y, x ∈ l -> y ∈ l -> xapart x y -> xapart (f x) (f y)) -> xall_apart l -> xall_apart (map f l).
Proof.
  induction l as [|x l IH]; intros H; [done|]. cbn [map xall_apart]. intros [Hx Hl]. split.
  - rewrite List.Forall_map. rewrite Forall_forall in *. intros y Hy. apply H; [by left|by right|]. by apply Hx.
  - apply IH; [|done]. intros y z Hy Hz. apply H; by right.
Qed.
Lemma values_mid low high l1 x l2 :
  xvalues low high (l1 ++ x :: l2) <-> xinside low high x /\ Forall (xapart x) (l1 ++ l2) /\ xvalues low high (l1 ++ l2).
Proof.
  split.
  - intros [I A]. apply apart_mid in A as [A1 A2]. apply Forall_app in I as [I1 I2]. apply Forall_cons in I2 as [Ix I2].
    split_and!; try done. split; [by apply Forall_app|done].
  - intros (Ix & A1 & [I A2]). apply Forall_app in I as [I1 I2]. split; [by apply Forall_app; split; [|by apply Forall_cons]|].
    by apply apart_mid.
Qed.
Lemma values_weaken low low' high l : low' <= low -> xvalues low high l -> xvalues low' high l.
Proof.
  intros Hle [I A]. split; [|done]. eapply Forall_impl; [exact I|]. intros x (H1 & H2 & H3). split_and!; try done. intros H.
  specialize (H3 H). lia.
Qed.
Lemma xmin_low low high l : low <= high -> xvalues low high l -> low <= xmin high l.
Proof.
  intros Hle [I _]. destruct (xmin_spec l high) as (_ & _ & [->|(x & Hx & Hs & ->)]); [done|].
  rewrite Forall_forall in I. by apply I.
Qed.
(** No value is below the lowest one. *)
Lemma values_xmin low high l : xvalues low high l -> xvalues (xmin high l) high l.
Proof.
  intros [I A]. split; [|done]. rewrite Forall_forall in *. intros x Hx. destruct (I x Hx) as (H1 & H2 & H3).
  destruct (xmin_spec l high) as (_ & M & _). split_and!; try done. intros H. split; [by apply M|by apply H3].
Qed.

(** ** Moving bytes *)

Lemma memmove_spec dst src n b :
  bytes_ok b -> 0 <= dst -> 0 <= src -> 0 <= n -> dst + n <= blen b -> src + n <= blen b ->
  let b' := memmove_at dst src n b in
  bytes_ok b' /\ blen b' = blen b /\
  forall j, 0 <= j -> byte_at b' j = if (dst <=? j) && (j <? dst + n) then byte_at b (src + (j - dst)) else byte_at b j.
Proof.
  intros Hb Hd Hs Hn Hdn Hsn b'. unfold b', memmove_at. assert (L : blen (slice src n b) = n) by (by apply blen_slice).
  split_and!.
  - apply bytes_ok_memcpy_at; [by apply bytes_ok_slice|done].
  - apply blen_memcpy_at; lia.
  - intros j Hj. rewrite byte_at_memcpy_at, L by lia. destruct (_ && _) eqn:E; [|done]. rewrite byte_at_slice by lia. done.
Qed.
Lemma frame_ext base first end_ b b' l :
  xframe base first end_ b l -> bytes_ok b' -> blen b' = blen b ->
  (forall j, first <= j < first + xspan l + 4 -> byte_at b j = byte_at b' j) -> xframe base first end_ b' l.
Proof.
  intros F Hb El H. destruct F as [F1 F2 F3 F4 F5 F6 F7]. pose proof (xspan_nonneg l).
  split; rewrite ?El; try done.
  - apply (xchain_ext b); try done; try lia. intros j Hj. apply H. lia.
  - rewrite <- F5. symmetry. apply is_last_ext. intros j Hj. apply H. lia.
Qed.

(** ** Removing a value *)

Lemma map_fixed {A} (f : A -> A) l : Forall (fun y => f y = y) l -> map f l = l.
Proof. induction 1 as [|y l E _ IH]; [done|]. cbn. by rewrite E, IH. Qed.

Section RemoveValue.
Context (base first end_ : Z) (b : list Z) (l1 : list xent) (x : xent) (l2 : list xent).
Local Abbreviation l := (l1 ++ x :: l2).
Context (A : xarea base first end_ b l).
(** Nothing empty is left when [x] goes, unless [x] is empty. *)
Definition no_empty_but : Prop := xn_size x <> 0 -> Forall (fun y => xn_size y <> 0) (l1 ++ l2).
Local Abbreviation m := (xmin (end_ - base) l).
Local Abbreviation f := (xshift (xn_offs x) (xroom x)).

Lemma area_low : first + xspan l + 4 - base <= m.
Proof. destruct A as [F V]. apply xmin_low; [|done]. destruct F. lia. Qed.
Lemma area_x : xinside m (end_ - base) x /\ Forall (xapart x) (l1 ++ l2) /\ xvalues m (end_ - base) (l1 ++ l2).
Proof. destruct A as [F V]. apply values_mid. by eapply values_xmin. Qed.
Lemma xroom_range y : 0 <= xn_size y -> xn_size y <= xroom y <= xn_size y + 3.
Proof. intros. apply xattr_size_range. Qed.

Lemma shift_inside : no_empty_but -> xn_size x <> 0 -> xvalues (m + xroom x) (end_ - base) (map f (l1 ++ l2)).
Proof.
  intros Hsafe Hx. destruct area_x as ((X1 & _ & X3) & Xa & [I Ap]). specialize (X3 Hx). pose proof (xroom_range x X1).
  specialize (Hsafe Hx). rewrite Forall_forall in *. split.
  - rewrite List.Forall_map, Forall_forall. intros y Hy.
    destruct (I y Hy) as (Y1 & Y2 & Y3). specialize (Hsafe y Hy). specialize (Y3 Hsafe). pose proof (xroom_range y Y1).
    destruct (Xa y Hy) as [?|[?|Hd]]; try done. unfold xinside, xshift. destruct (Z.ltb_spec (xn_offs y) (xn_offs x)); unfold xroom in *; cbn; lia.
  - apply apart_map; [|done]. intros y z Hy Hz. destruct (I y Hy) as (Y1 & _ & Y3), (I z Hz) as (Z1 & _ & Z3).
    specialize (Y3 (Hsafe y Hy)). specialize (Z3 (Hsafe z Hz)). pose proof (xroom_range y Y1). pose proof (xroom_range z Z1).
    pose proof (Hsafe y Hy). pose proof (Hsafe z Hz).
    destruct (Xa y Hy) as [?|[?|Hd]]; try done. destruct (Xa z Hz) as [?|[?|Hd']]; try done.
    unfold xapart, xshift. destruct (Z.ltb_spec (xn_offs y) (xn_offs x)), (Z.ltb_spec (xn_offs z) (xn_offs x)); unfold xroom in *; cbn; lia.
Qed.
Lemma no_shift : xn_size x = 0 -> Forall (fun y => f y = y) l.
Proof.
  intros Hx. destruct area_x as ((_ & X2 & _) & _ & [I _]). specialize (X2 Hx).
  assert (P : forall y, xn_size y = 0 \/ 0 <= xn_offs y -> (xn_size y = 0 -> xn_offs y = 0) -> f y = y).
  { intros y Hy Hz. unfold xshift. rewrite X2. replace (xn_offs y <? 0) with false; [done|]. symmetry. apply Z.ltb_ge.
    destruct Hy as [H|H]; [by rewrite Hz|done]. }
  pose proof area_low. pose proof (xspan_nonneg l). destruct (xa_frame _ _ _ _ _ A) as [_ F2 _ _ _ _ _].
  assert (Q : Forall (fun y => f y = y) (l1 ++ l2)).
  { eapply Forall_impl; [exact I|]. intros y (Y1 & Y2 & Y3). apply P; [|done]. destruct (Z.eq_dec (xn_size y) 0); [by left|right].
    specialize (Y3 ltac:(done)). lia. }
  apply Forall_app in Q as [Q1 Q2]. apply Forall_app. split; [done|]. apply Forall_cons. split; [|done]. apply P; [by left|done].
Qed.
Lemma shift_bound y : y ∈ l -> xn_offs y < xn_offs x -> xn_offs y + xroom x < 65536.
Proof.
  intros Hy Hlt. destruct (Z.eq_dec (xn_size x) 0) as [Hx|Hx].
  - pose proof (no_shift Hx) as N. rewrite Forall_forall in N. specialize (N y Hy). unfold xshift in N.
    replace (xn_offs y <? xn_offs x) with true in N by lia. apply (f_equal xn_offs) in N. cbn in N.
    unfold xroom in *. rewrite Hx in *. change (EXT4_XATTR_SIZE 0) with 0 in *.
    destruct area_x as ((_ & X2 & _) & _). specialize (X2 Hx). lia.
  - destruct area_x as ((X1 & _ & X3) & _). specialize (X3 Hx). destruct (xa_frame _ _ _ _ _ A) as [_ _ F3 _ _ _ _]. lia.
Qed.

(** What is at the place of a value after the move. *)
Lemma moved_value b' y :
  bytes_ok b' -> blen b' = blen b -> xn_size x <> 0 -> y ∈ l1 ++ l2 ->
  (forall j, base + m + xroom x <= j < base + xn_offs x + xroom x -> byte_at b' j = byte_at b (j - xroom x)) ->
  (forall j, base + xn_offs x + xroom x <= j -> byte_at b' j = byte_at b j) ->
  xvalue base b' (f y) = xvalue base b y.
Proof.
  intros Hb' El Hx Hy H1 H2. destruct (Z.eq_dec (xn_size y) 0) as [Hy0|Hy0].
  { unfold xvalue. by rewrite (proj1 (proj2 (proj2 (xshift_same _ _ _)))), Hy0. }
  destruct area_x as ((X1 & _ & X3) & Xa & [I _]). specialize (X3 Hx).
  rewrite Forall_forall in *. destruct (I y Hy) as (Y1 & _ & Y3). specialize (Y3 Hy0).
  pose proof area_low. pose proof (xspan_nonneg l). destruct (xa_frame _ _ _ _ _ A) as [Hb F2 F3 _ _ _ _].
  pose proof (xroom_range x X1). pose proof (xroom_range y Y1).
  destruct (Xa y Hy) as [?|[?|Hd]]; try done. unfold xvalue, xshift.
  destruct (Z.ltb_spec (xn_offs y) (xn_offs x)); cbn [xn_offs xn_size]; apply slice_eq; try done; try lia.
  - intros j Hj. rewrite H1 by lia. f_equal. lia.
  - intros j Hj. rewrite H2 by lia. done.
Qed.

Lemma remove_value_bytes s : xs_base s = base -> xn_size x <> 0 ->
  let b' := memset_at (base + m) 0 (xroom x) (memmove_at (base + m + xroom x) (base + m) (u64 (xn_offs x - m)) b) in
  bytes_ok b' /\ blen b' = blen b /\
  (forall j, 0 <= j < base + m -> byte_at b' j = byte_at b j) /\
  (forall j, base + m + xroom x <= j < base + xn_offs x + xroom x -> byte_at b' j = byte_at b (j - xroom x)) /\
  (forall j, base + xn_offs x + xroom x <= j -> byte_at b' j = byte_at b j).
Proof.
  intros Es Hx. destruct area_x as ((X1 & _ & X3) & _). specialize (X3 Hx). pose proof (xroom_range x X1).
  pose proof area_low. pose proof (xspan_nonneg l). destruct (xa_frame _ _ _ _ _ A) as [Hb F2 F3 _ _ _ _].
  rewrite u64_id by lia. set (b1 := memmove_at _ _ _ b).
  destruct (memmove_spec (base + m + xroom x) (base + m) (xn_offs x - m) b) as (M1 & M2 & M3); try done; try lia. fold b1 in M1, M2, M3.
  destruct (memset_spec (base + m) 0 (xroom x) b1) as (S1 & S2 & S3); try done; try lia.
  cbv zeta. split; [done|]. split; [lia|]. split_and!.
  - intros j Hj. rewrite S3 by lia. rewrite M3 by lia. by replace ((base + m + xroom x <=? j) && _) with false by lia.
  - intros j Hj. rewrite S3 by lia. rewrite M3 by lia.
    replace ((base + m + xroom x <=? j) && (j <? base + m + xroom x + (xn_offs x - m))) with true by lia. f_equal. lia.
  - intros j Hj. rewrite S3 by lia. rewrite M3 by lia. by replace ((base + m + xroom x <=? j) && (j <? base + m + xroom x + (xn_offs x - m))) with false by lia.
Qed.

Lemma remove_value_spec s : xs_base s = base -> xs_first s = first ->
  let '(m', b') := remove_value s (first + xspan l1) m b in
  m' = m + xroom x /\ m' <= end_ - base /\
  xframe base first end_ b' (map f l) /\ (no_empty_but -> xvalues m' (end_ - base) (map f (l1 ++ l2))) /\
  Forall (fun y => xvalue base b' (f y) = xvalue base b y) (l1 ++ l2) /\ changed_in first end_ b b'.
Proof.
  intros Es Ef. destruct area_x as ((X1 & X2 & X3) & Xa & V). pose proof (xroom_range x X1).
  pose proof area_low. pose proof (xspan_nonneg l). pose proof (xa_frame _ _ _ _ _ A) as F. destruct F as [Hb F2 F3 F4 F5 F6 F7].
  pose proof (proj1 (xchain_app _ _ _ _ _) F4) as (C1 & C2 & _). cbn [xchain] in C2. destruct C2 as ((E & El & En) & Hle & _).
  assert (Ho : rd xe_value_offs (first + xspan l1) b = xn_offs x) by (by rewrite <- E).
  assert (Er : entry_room (first + xspan l1) b = xroom x).
  { unfold entry_room. change (rd xe_value_size (first + xspan l1) b) with (xn_size (xent_at (first + xspan l1) b)). rewrite E.
    fold (xroom x). apply u32_id. destruct (Z.eq_dec (xn_size x) 0) as [Hz|Hz]; [unfold xroom; rewrite Hz; done|].
    specialize (X3 Hz). lia. }
  unfold remove_value. rewrite Ho, Er, Es, Ef.
  set (q := if xn_offs x =? 0 then _ else _).
  assert (Q : let '(m', b1) := q in m' = m + xroom x /\ m' <= end_ - base /\ bytes_ok b1 /\ blen b1 = blen b /\
    (forall j, 0 <= j < base + m -> byte_at b1 j = byte_at b j) /\ (forall j, end_ <= j -> byte_at b1 j = byte_at b j) /\
    Forall (fun y => forall b', bytes_ok b' -> blen b' = blen b -> (forall j, base + m <= j -> byte_at b' j = byte_at b1 j) ->
      xvalue base b' (f y) = xvalue base b y) (l1 ++ l2)).
  { destruct (xmin_spec l (end_ - base)) as (Mle & _). unfold q. destruct (Z.eq_dec (xn_size x) 0) as [Hz|Hz].
    - rewrite X2 by done. cbn [Z.eqb]. unfold xroom. rewrite Hz. change (EXT4_XATTR_SIZE 0) with 0. split_and!; try done; try lia.
      pose proof (no_shift Hz) as N. apply Forall_app in N as [N1 N2]. apply Forall_cons in N2 as [_ N2].
      assert (N : Forall (fun y => f y = y) (l1 ++ l2)) by (by apply Forall_app). destruct V as [I _].
      rewrite Forall_forall in *. intros y Hy b' Hb' El' Heq. specialize (N y Hy). unfold xroom in N. rewrite Hz in N.
      change (EXT4_XATTR_SIZE 0) with 0 in N. rewrite X2 in N by done. rewrite N. destruct (I y Hy) as (Y1 & _ & Y3).
      unfold xvalue. destruct (Z.eq_dec (xn_size y) 0) as [Hy0|Hy0]; [by rewrite Hy0|]. specialize (Y3 Hy0).
      pose proof (xroom_range y Y1). apply slice_eq; try done; try lia. intros j Hj. apply Heq. lia.
    - specialize (X3 Hz). replace (xn_offs x =? 0) with false by lia.
      destruct (remove_value_bytes s Es Hz) as (B1 & B2 & B3 & B4 & B5). set (b1 := memset_at _ _ _ _) in *.
      rewrite u64_id by lia. split_and!; try done; try lia.
      { intros j Hj. apply B5. lia. }
      rewrite Forall_forall. intros y Hy b' Hb' El' Heq. apply moved_value; try done.
      + intros j Hj. rewrite Heq by lia. by apply B4.
      + intros j Hj. rewrite Heq by lia. by apply B5. }
  destruct q as [m' b1]. destruct Q as (-> & Q1 & Q2 & Q3 & Q4 & Q5 & Q6).
  assert (F1 : xframe base first end_ b1 l).
  { apply (frame_ext _ _ _ b); [by destruct A|done|done|]. intros j Hj. symmetry. apply Q4. lia. }
  destruct F1 as [Hb1 G2 G3 G4 G5 G6 G7].
  destruct (shift_spec (xn_offs x) (xroom x) (first + xspan l) ltac:(lia) (xattr_fuel b1) first l b1) as (S1 & S2 & S3 & S4); try done; try lia.
  { eapply xchain_length; [exact G4|lia..]. }
  set (b' := shift_offsets _ _ _ _ b1) in *. split; [done|]. split; [done|]. split_and!.
  - split; rewrite ?xspan_shift, ?xkeys_shift; try done; try lia. rewrite <- G5. apply is_last_ext. intros j Hj. apply S3; lia.
  - intros Hsafe. destruct (Z.eq_dec (xn_size x) 0) as [Hz|Hz]; [|by apply shift_inside].
    pose proof (no_shift Hz) as N. apply Forall_app in N as [N1 N2]. apply Forall_cons in N2 as [_ N2].
    replace (map f (l1 ++ l2)) with (l1 ++ l2).
    + unfold xroom. rewrite Hz. change (EXT4_XATTR_SIZE 0) with 0. by rewrite Z.add_0_r.
    + symmetry. apply map_fixed. by apply Forall_app.
  - eapply Forall_impl; [exact Q6|]. intros y Hy. apply Hy; [done|lia|]. intros j Hj. apply S3; lia.
  - intros j Hj Hd. rewrite S3 by lia. destruct Hd; [apply Q4|apply Q5]; lia.
Qed.
End RemoveValue.

(** ** Putting a value *)

Lemma put_bytes_spec base vo v b :
  bytes_ok b -> bytes_ok v -> 0 <= base -> 0 <= vo -> base + vo + EXT4_XATTR_SIZE (blen v) <= blen b ->
  let b' := memset_at (base + vo + blen v) 0 (EXT4_XATTR_SIZE (blen v) - blen v) (memcpy_at (base + vo) v b) in
  bytes_ok b' /\ blen b' = blen b /\ changed_in (base + vo) (base + vo + EXT4_XATTR_SIZE (blen v)) b b' /\
  slice (base + vo) (blen v) b' = v.
Proof.
  intros Hb Hv Hbase Hvo Hin. pose proof (xattr_size_range (blen v)). pose proof (blen_nonneg v).
  set (b1 := memcpy_at _ v b). assert (L1 : blen b1 = blen b) by (apply blen_memcpy_at; lia).
  assert (B1 : bytes_ok b1) by (by apply bytes_ok_memcpy_at).
  destruct (memset_spec (base + vo + blen v) 0 (EXT4_XATTR_SIZE (blen v) - blen v) b1) as (S1 & S2 & S3); try done; try lia.
  cbv zeta. split; [done|]. split; [lia|]. split.
  - intros j Hj Hd. rewrite S3 by lia. unfold b1. rewrite byte_at_memcpy_at by lia.
    by replace ((base + vo <=? j) && (j <? base + vo + blen v)) with false by lia.
  - transitivity (slice (base + vo) (blen v) b1); [|apply slice_memcpy; (done || lia)]. apply slice_ext; try done; try lia.
    intros j Hj. apply S3; lia.
Qed.

Definition new_offs (m : Z) (v : list Z) : Z := if blen v =? 0 then 0 else m - EXT4_XATTR_SIZE (blen v).
Definition new_ent (key : Z * list Z) (m : Z) (v : list Z) : xent := mk_xent key.1 key.2 (new_offs m v) (blen v).

(** The entry [x] of a frame replaced by one of the same name. *)
Lemma frame_mid base first end_ b b1 l1 x x' l2 :
  xframe base first end_ b (l1 ++ x :: l2) -> bytes_ok b1 -> blen b1 = blen b ->
  changed_in (first + xspan l1) (first + xspan l1 + 16) b b1 ->
  xent_at (first + xspan l1) b1 = x' -> xkey x' = xkey x -> EXT4_XATTR_IS_LAST_ENTRY (first + xspan l1) b1 = false ->
  rd xe_name_len (first + xspan l1) b1 = blen (xn_name x') ->
  xframe base first end_ b1 (l1 ++ x' :: l2).
Proof.
  intros [F1 F2 F3 F4 F5 F6 F7] B1 L1 Ch E K La N. assert (El : xlen x' = xlen x) by (unfold xlen; injection K as _ ->; done).
  assert (Es : xspan (l1 ++ x' :: l2) = xspan (l1 ++ x :: l2)).
  { rewrite !xspan_app. cbn [xspan fold_right]. by rewrite El. }
  pose proof (xlen_pos x). pose proof (xspan_nonneg l1). apply xchain_app in F4 as (C1 & C2 & Hle). cbn [xchain] in C2. destruct C2 as (_ & Hx & C2).
  pose proof (xchain_le _ _ _ _ C2). split; rewrite ?Es, ?L1; try done.
  - apply xchain_app. split; [|split; [|done]].
    + apply (xchain_ext b); try done; try lia. intros j Hj. symmetry. apply Ch; lia.
    + cbn [xchain]. rewrite El. split; [done|]. split; [done|].
      apply (xchain_ext b); try done; try lia. intros j Hj. symmetry. apply Ch; lia.
  - rewrite <- F5. apply is_last_ext. intros j Hj. apply Ch; lia.
  - rewrite map_app in *. cbn [map] in *. by rewrite K.
Qed.

(** The two buffers [b] and [b1] agree but for one value. *)
Record put_done (base first end_ : Z) (b b' : list Z) (l : list xent) (rest : list xent) (x : xent) (v : list Z) : Prop := {
  pd_area : xarea base first end_ b' l;
  pd_value : xvalue base b' x = v;
  pd_rest : Forall (fun y => xvalue base b' y = xvalue base b y) rest;
  pd_changed : changed_in first end_ b b';
}.

Section PutValue.
Context (base first end_ m : Z) (i : xattr_info) (v : list Z).
Context (Hi : 0 < xi_name_index i < 256) (Hname : bytes_ok (xi_name i)) (Hnlen : blen (xi_name i) < 256) (Hv : bytes_ok v).
Local Abbreviation key := (xi_name_index i, xi_name i).
Local Abbreviation x' := (new_ent key m v).
Local Abbreviation room := (EXT4_XATTR_SIZE (blen v)).

(** Once the entry is there, in [b1], the value is put. *)
Lemma put_bytes_done l1 l2 b b1 :
  xframe base first end_ b1 (l1 ++ x' :: l2) -> xvalues m (end_ - base) (l1 ++ l2) -> m <= end_ - base ->
  first + xspan (l1 ++ x' :: l2) + 4 - base <= m - room -> bytes_ok b -> blen b = blen b1 ->
  changed_in first (first + xspan (l1 ++ x' :: l2) + 4) b b1 ->
  let b' := if new_offs m v =? 0 then b1
    else memset_at (base + new_offs m v + blen v) 0 (room - blen v) (memcpy_at (base + new_offs m v) v b1) in
  put_done base first end_ b b' (l1 ++ x' :: l2) (l1 ++ l2) x' v.
Proof.
  intros F V Hm Hlow Hb Lb Ch b'. pose proof F as [F1 F2 F3 F4 F5 F6 F7]. pose proof (xspan_nonneg (l1 ++ x' :: l2)).
  pose proof (xattr_size_range (blen v)). pose proof (blen_nonneg v). destruct V as [I Ap].
  set (low := first + xspan (l1 ++ x' :: l2) + 4 - base) in *.
  assert (Q : bytes_ok b' /\ blen b' = blen b1 /\ changed_in (base + low) (base + m) b1 b' /\ xvalue base b' x' = v).
  { unfold b', xvalue, new_offs. cbn [xn_offs xn_size new_ent fst snd]. unfold new_offs. destruct (Z.eqb_spec (blen v) 0) as [Hz|Hz].
    - cbn. split_and!; try done. rewrite Hz. destruct v; [done|]. unfold blen in Hz. cbn [length] in Hz. lia.
    - replace (m - room =? 0) with false by lia.
      destruct (put_bytes_spec base (m - room) v b1) as (P1 & P2 & P3 & P4); try done; try lia. split_and!; try done.
      apply (changed_in_weaken _ _ _ _ _ _ P3); lia. }
  destruct Q as (B' & L' & Ch' & Ev).
  assert (Hin : Forall (xinside m (end_ - base)) (l1 ++ l2)) by done. rewrite Forall_forall in I.
  split; [|done|..].
  - split.
    + apply (frame_ext _ _ _ b1); [done..|]. intros j Hj. symmetry. apply Ch'; lia.
    + fold low. apply values_mid. split_and!.
      * unfold xinside, xroom, new_ent, new_offs. cbn. destruct (Z.eqb_spec (blen v) 0); lia.
      * rewrite Forall_forall. intros y Hy. unfold xapart, xroom, new_ent, new_offs. cbn. destruct (I y Hy) as (Y1 & _ & Y3).
        destruct (Z.eq_dec (xn_size y) 0) as [Hy0|Hy0]; [by right; left|]. specialize (Y3 Hy0).
        destruct (Z.eqb_spec (blen v) 0); [by left|]. right. right. left. lia.
      * apply (values_weaken m); [lia|]. by split.
  - rewrite Forall_forall. intros y Hy. unfold xvalue. destruct (I y Hy) as (Y1 & _ & Y3).
    destruct (Z.eq_dec (xn_size y) 0) as [Hy0|Hy0]; [by rewrite Hy0|]. specialize (Y3 Hy0). pose proof (xattr_size_range (xn_size y)).
    unfold xroom in Y3. apply slice_ext; try done; try lia. intros j Hj. rewrite Ch' by lia. apply Ch; lia.
  - intros j Hj Hd. rewrite Ch' by lia. apply Ch; lia.
Qed.

Lemma put_replace s l1 x l2 last b :
  xframe base first end_ b (l1 ++ x :: l2) -> xkey x = key -> xvalues m (end_ - base) (l1 ++ l2) -> m <= end_ - base ->
  first + xspan (l1 ++ x :: l2) + 4 - base <= m - room ->
  xs_base s = base -> xs_here s = Some (first + xspan l1) ->
  put_done base first end_ b (snd (put_value i s v m last b)) (l1 ++ x' :: l2) (l1 ++ l2) x' v.
Proof.
  intros F K V Hm Hlow Eb Eh. pose proof F as [F1 F2 F3 F4 F5 F6 F7]. pose proof (xspan_nonneg (l1 ++ x :: l2)).
  pose proof (xattr_size_range (blen v)). pose proof (blen_nonneg v). pose proof (xspan_nonneg l1).
  pose proof (proj1 (xchain_app _ _ _ _ _) F4) as (C1 & C2 & Hle). cbn [xchain] in C2. destruct C2 as ((E & La & En) & Hx & C2).
  apply xchain_le in C2. set (here := first + xspan l1) in *.
  assert (Ho : 0 <= new_offs m v < 65536) by (unfold new_offs; destruct (Z.eqb_spec (blen v) 0); lia).
  destruct (xent_set_value (new_offs m v) (blen v) here b) as (B1 & L1 & E1 & N1 & Ch1); rewrite ?E; try done; try lia.
  set (b1 := wr xe_value_size _ _ _) in *. rewrite E in E1, N1. injection K as K1 K2.
  assert (F' : xframe base first end_ b1 (l1 ++ x' :: l2)).
  { apply (frame_mid _ _ _ b _ _ x); try done.
    - etransitivity; [exact E1|]. unfold new_ent. cbn. by rewrite K1, K2.
    - unfold xkey. cbn. by rewrite K1, K2.
    - etransitivity; [exact (xent_last _ _ _ B1 E1 _ N1)|]. cbn [xn_index]. rewrite K1. replace (xi_name_index i =? 0) with false by lia. by rewrite andb_false_r.
    - etransitivity; [exact N1|]. cbn. by rewrite K2. }
  assert (Es : xspan (l1 ++ x' :: l2) = xspan (l1 ++ x :: l2)).
  { rewrite !xspan_app. cbn [xspan fold_right]. unfold xlen, x'. cbn. by rewrite K2. }
  unfold put_value. rewrite Eh, Eb. rewrite (u64_id room) by lia.
  replace (if blen v =? 0 then 0 else u64 (m - room)) with (new_offs m v).
  2: { unfold new_offs. destruct (blen v =? 0); [done|]. rewrite u64_id; lia. }
  fold b1. cbn [snd]. apply (put_bytes_done l1 l2 b b1); try done; rewrite ?Es; try done; try lia.
  pose proof (xlen_pos x). apply (changed_in_weaken _ _ _ _ _ _ Ch1); lia.
Qed.

(** A new entry at [last]. *)
Definition fresh_entry (last : Z) (b : list Z) : list Z :=
  let b := wr xe_name_len last (blen (xi_name i)) b in
  let b := wr xe_name_index last (xi_name_index i) b in
  let b := wr xe_value_offs last (new_offs m v) b in
  let b := wr xe_value_block last 0 b in
  let b := wr xe_value_size last (blen v) b in
  let b := memcpy_at (EXT4_XATTR_NAME last) (xi_name i) b in
  set_le 4 (EXT4_XATTR_NEXT last b) 0 b.
Lemma fresh_entry_spec last b :
  bytes_ok b -> 0 <= last -> last + EXT4_XATTR_LEN (blen (xi_name i)) + 4 <= blen b -> 0 <= new_offs m v < 65536 -> blen v < 2 ^ 32 ->
  let b1 := fresh_entry last b in
  bytes_ok b1 /\ blen b1 = blen b /\ xent_at last b1 = x' /\ rd xe_name_len last b1 = blen (xn_name x') /\
  EXT4_XATTR_IS_LAST_ENTRY (last + xlen x') b1 = true /\ changed_in last (last + xlen x' + 4) b b1.
Proof.
  intros Hb Ho Hl Hvo Hn b1. pose proof (xattr_len_range (blen (xi_name i))) as R. pose proof (blen_nonneg (xi_name i)).
  pose proof (blen_nonneg v).
  unfold b1, fresh_entry. set (b2 := wr xe_value_size last _ _).
  assert (B2 : bytes_ok b2) by (unfold b2; repeat apply bytes_ok_wr; done). assert (L2 : blen b2 = blen b) by (unfold b2; by rewrite !blen_wr).
  assert (G : rd xe_name_len last b2 = blen (xi_name i) /\ rd xe_name_index last b2 = xi_name_index i /\
    rd xe_value_offs last b2 = new_offs m v /\ rd xe_value_size last b2 = blen v).
  { unfold b2. split_and!; struct_reads 16; apply Z.mod_small;
    match goal with |- context [2 ^ (8 * f_size ?f)] => let w := eval vm_compute in (2 ^ (8 * f_size f)) in change (2 ^ (8 * f_size f)) with w end; lia. }
  assert (Ch2 : changed_in last (last + 16) b b2).
  { unfold b2. repeat (eapply changed_in_trans; [|by apply changed_in_wr]). done. }
  destruct G as (G1 & G2 & G3 & G4). change (EXT4_XATTR_NAME last) with (last + 16).
  set (b3 := memcpy_at (last + 16) (xi_name i) b2).
  assert (L3 : blen b3 = blen b) by (unfold b3; rewrite blen_memcpy_at; lia).
  assert (B3 : bytes_ok b3) by (by apply bytes_ok_memcpy_at).
  assert (M3 : forall j, 0 <= j -> j < last + 16 \/ last + 16 + blen (xi_name i) <= j -> byte_at b3 j = byte_at b2 j).
  { intros j Hj Hd. unfold b3. rewrite byte_at_memcpy_at by lia.
    by replace ((last + 16 <=? j) && (j <? last + 16 + blen (xi_name i))) with false by lia. }
  assert (F3 : forall f, f_within 16 f = true -> rd f last b3 = rd f last b2).
  { intros f Hf. apply (rd_ext _ _ _ _ 16 Hf). intros j Hj. apply M3; lia. }
  assert (En : EXT4_XATTR_NEXT last b3 = last + xlen x').
  { unfold EXT4_XATTR_NEXT. rewrite F3 by done. by rewrite G1. }
  rewrite En. assert (Ex : xlen x' = EXT4_XATTR_LEN (blen (xi_name i))) by done. rewrite Ex in *.
  set (b4 := set_le 4 _ 0 b3). assert (L4 : blen b4 = blen b) by (unfold b4; by rewrite blen_set_le).
  assert (B4 : bytes_ok b4) by (by apply bytes_ok_set_le).
  assert (M4 : forall j, 0 <= j -> j < last + EXT4_XATTR_LEN (blen (xi_name i)) \/ last + EXT4_XATTR_LEN (blen (xi_name i)) + 4 <= j ->
    byte_at b4 j = byte_at b3 j) by (intros j Hj Hd; apply byte_at_set_le_ne; lia).
  assert (F4 : forall f, f_within 16 f = true -> rd f last b4 = rd f last b2).
  { intros f Hf. rewrite <- F3 by done. apply (rd_ext _ _ _ _ 16 Hf). intros j Hj. apply M4; lia. }
  split_and!; try done.
  - unfold xent_at. rewrite !F4 by done. rewrite G1, G2, G3, G4. unfold new_ent. cbn [fst snd]. f_equal.
    transitivity (slice (last + 16) (blen (xi_name i)) b3); [|apply slice_memcpy; (done || lia)].
    apply slice_ext; try done; try lia. intros j Hj. apply M4; lia.
  - by rewrite F4.
  - unfold EXT4_XATTR_IS_LAST_ENTRY, b4. rewrite get_set_le_eq by lia. done.
  - intros j Hj Hd. rewrite M4, M3 by lia. apply Ch2; lia.
Qed.
Lemma put_insert s l b :
  xframe base first end_ b l -> key ∉ map xkey l -> xvalues m (end_ - base) l -> m <= end_ - base ->
  first + xspan l + EXT4_XATTR_LEN (blen (xi_name i)) + 4 - base <= m - room ->
  xs_base s = base -> xs_here s = None ->
  put_done base first end_ b (snd (put_value i s v m (first + xspan l) b)) (l ++ [x']) l x' v.
Proof.
  intros F K V Hm Hlow Eb Eh. pose proof F as [F1 F2 F3 F4 F5 F6 F7]. pose proof (xspan_nonneg l).
  pose proof (xattr_size_range (blen v)). pose proof (blen_nonneg v). pose proof (xattr_len_range (blen (xi_name i))).
  pose proof (blen_nonneg (xi_name i)).
  assert (Ho : 0 <= new_offs m v < 65536) by (unfold new_offs; destruct (Z.eqb_spec (blen v) 0); lia).
  destruct (fresh_entry_spec (first + xspan l) b) as (B1 & L1 & E1 & N1 & La1 & Ch1); try done; try lia.
  set (b1 := fresh_entry _ b) in *. assert (Ex : xlen x' = EXT4_XATTR_LEN (blen (xi_name i))) by done.
  assert (Es : xspan (l ++ [x']) = xspan l + xlen x') by (rewrite xspan_app; cbn; lia).
  assert (F' : xframe base first end_ b1 (l ++ [x'])).
  { split; rewrite ?Es, ?L1; try done; try lia.
    - apply xchain_app. split; [|split; [|lia]].
      + apply (xchain_ext b); try done; try lia. intros j Hj. symmetry. apply Ch1; lia.
      + cbn [xchain]. split; [|split; lia]. split; [done|]. split; [|done]. rewrite (xent_last _ _ _ B1 E1 _ N1). cbn [xn_index new_ent fst].
        replace (xi_name_index i =? 0) with false by lia. by rewrite andb_false_r.
    - by rewrite Z.add_assoc.
    - rewrite map_app. apply NoDup_app. split_and!; [done| |apply NoDup_singleton]. intros k Hk Hk'.
      cbn in Hk'. apply list_elem_of_singleton in Hk'. subst k. done. }
  unfold put_value. rewrite Eh, Eb. rewrite (u64_id room) by lia.
  replace (if blen v =? 0 then 0 else u64 (m - room)) with (new_offs m v).
  2: { unfold new_offs. destruct (blen v =? 0); [done|]. rewrite u64_id; lia. }
  change (set_le 4 _ 0 _) with b1. cbn [snd].
  pose proof (put_bytes_done l [] b b1) as P. rewrite app_nil_r, Es in P. apply P; try done; try lia.
  apply (changed_in_weaken _ _ _ _ _ _ Ch1); lia.
Qed.
End PutValue.

(** ** Removing an entry *)

Lemma frame_remove base first end_ b l1 x l2 s :
  xframe base first end_ b (l1 ++ x :: l2) ->
  let b' := snd (remove_entry s (first + xspan l1) (first + xspan (l1 ++ x :: l2)) b) in
  xframe base first end_ b' (l1 ++ l2) /\ blen b' = blen b /\ changed_in first (first + xspan (l1 ++ x :: l2) + 4) b b'.
Proof.
  intros F b'. pose proof F as [F1 F2 F3 F4 F5 F6 F7]. pose proof (xspan_nonneg l1). pose proof (xspan_nonneg l2). pose proof (xlen_pos x).
  assert (Es : xspan (l1 ++ x :: l2) = xspan l1 + xlen x + xspan l2).
  { rewrite xspan_app. cbn [xspan fold_right]. fold (xspan l2). lia. }
  assert (Es' : xspan (l1 ++ l2) = xspan l1 + xspan l2) by apply xspan_app.
  pose proof (proj1 (xchain_app _ _ _ _ _) F4) as (C1 & C2 & Hle). cbn [xchain] in C2. destruct C2 as ((E & La & En) & Hx & C2).
  set (here := first + xspan l1) in *. set (last := first + xspan (l1 ++ x :: l2)) in *.
  assert (Enx : EXT4_XATTR_NEXT here b = here + xlen x) by (unfold EXT4_XATTR_NEXT; by rewrite En).
  assert (Eb : b' = memset_at (last - xlen x + 4) 0 (xlen x) (memmove_at here (here + xlen x) (last + 4 - (here + xlen x)) b)).
  { unfold b', remove_entry. rewrite Enx. cbn [snd]. do 2 f_equal; lia. }
  destruct (memmove_spec here (here + xlen x) (last + 4 - (here + xlen x)) b) as (M1 & M2 & M3); try done; try lia.
  set (b1 := memmove_at _ _ _ b) in *.
  destruct (memset_spec (last - xlen x + 4) 0 (xlen x) b1) as (S1 & S2 & S3); try done; try lia. rewrite <- Eb in S1, S2, S3.
  assert (Bl : forall j, 0 <= j < here -> byte_at b' j = byte_at b j).
  { intros j Hj. rewrite S3, M3 by lia. by replace ((here <=? j) && _) with false by lia. }
  assert (Bm : forall j, 0 <= j < last + 4 - (here + xlen x) -> byte_at b' (here + j) = byte_at b (here + xlen x + j)).
  { intros j Hj. rewrite S3, M3 by lia.
    replace ((here <=? here + j) && (here + j <? here + (last + 4 - (here + xlen x)))) with true by lia. f_equal. lia. }
  split.
  - split; rewrite ?Es', ?S2, ?M2; try done; try lia.
    + apply xchain_app. split; [|split; [|lia]].
      * apply (xchain_ext b); try done; try lia. intros j Hj. symmetry. apply Bl. lia.
      * replace (first + (xspan l1 + xspan l2)) with (here + (last - (here + xlen x))) by lia.
        apply (xchain_move b b'); try done; try lia. intros j Hj. symmetry. apply Bm. lia.
    + replace (first + (xspan l1 + xspan l2)) with (last - xlen x) by lia. rewrite <- F5. unfold EXT4_XATTR_IS_LAST_ENTRY.
      f_equal.
      pose proof (rd_move (mk_field 0 4) (last - xlen x) last b' b 4 eq_refl) as R. unfold rd in R. cbn [f_off f_size] in R.
      rewrite !Z.add_0_r in R. apply R. intros j Hj. replace (last - xlen x + j) with (here + (last - xlen x + j - here)) by lia.
      rewrite Bm by lia. f_equal. lia.
    + rewrite map_app in F7 |- *. cbn [map] in F7. rewrite <- Permutation_middle in F7. by apply NoDup_cons in F7 as [_ F7].
  - split; [lia|]. intros j Hj Hd. rewrite S3, M3 by lia. by replace ((here <=? j) && (j <? here + (last + 4 - (here + xlen x)))) with false by lia.
Qed.

(** ** The map *)

Lemma xkvs_keys base b l : (xkvs base b l).*1 = map xkey l.
Proof. unfold xkvs. rewrite <- list_fmap_compose. by apply list_fmap_ext. Qed.
Lemma xmap_mid base b l1 x l2 : NoDup (map xkey (l1 ++ x :: l2)) ->
  xmap base b (l1 ++ x :: l2) = <[xkey x := xvalue base b x]> (xmap base b (l1 ++ l2)).
Proof.
  intros N. unfold xmap. change (<[xkey x := xvalue base b x]> (list_to_map (xkvs base b (l1 ++ l2))))
    with (list_to_map ((xkey x, xvalue base b x) :: xkvs base b (l1 ++ l2)) : gmap (Z * list Z) (list Z)).
  apply list_to_map_proper; [by rewrite xkvs_keys|]. unfold xkvs. rewrite !map_app. cbn [map]. symmetry. apply Permutation_middle.
Qed.
Lemma xmap_none base b l k : k ∉ map xkey l -> xmap base b l !! k = None.
Proof. intros H. apply not_elem_of_list_to_map_1. by rewrite xkvs_keys. Qed.
Lemma xkey_mid l1 x l2 : NoDup (map xkey (l1 ++ x :: l2)) -> xkey x ∉ map xkey (l1 ++ l2).
Proof. rewrite !map_app. cbn [map]. rewrite <- Permutation_middle. by intros [H _]%NoDup_cons. Qed.
(** The same keys and the same values, though the values are elsewhere. *)
Lemma xmap_same base b b' f l : (forall x, xkey (f x) = xkey x) -> Forall (fun y => xvalue base b' (f y) = xvalue base b y) l ->
  xmap base b' (map f l) = xmap base b l.
Proof.
  intros K H. unfold xmap, xkvs. f_equal. rewrite map_map. apply map_ext_Forall. eapply Forall_impl; [exact H|].
  intros y Hy. by rewrite K, Hy.
Qed.
Lemma xmap_rest base b b' l : Forall (fun y => xvalue base b' y = xvalue base b y) l -> xmap base b' l = xmap base b l.
Proof. intros H. rewrite <- (map_id l) at 1. by apply xmap_same. Qed.

(** ** The check accepts it *)

Lemma check_spec base end_ b stop : forall fuel m off l,
  xchain b off l stop -> EXT4_XATTR_IS_LAST_ENTRY stop b = true -> (length l < fuel)%nat -> stop + 4 <= end_ -> base <= off ->
  Forall (xinside 0 (end_ - base)) l ->
  check_entries fuel base end_ m off b = Some (xmin m l, stop).
Proof.
  induction fuel as [|fuel IH]; intros m off l C Hs Hf Hr Hbo I; [lia|]. cbn [check_entries]. destruct l as [|x l].
  { cbn in C. subst stop. replace (end_ <? off + 4) with false by lia. by rewrite Hs. }
  cbn [xchain] in C. destruct C as ((<- & Hl & Hn) & Hle & C). set (x := xent_at off b) in *. pose proof (xlen_pos x).
  pose proof (xchain_le _ _ _ _ C). apply Forall_cons in I as [(X1 & X2 & X3) I]. pose proof (xattr_size_range (xn_size x)).
  replace (end_ <? off + 4) with false by lia. rewrite Hl. change XATTR_ENTRY with 16. replace (end_ <? off + 16) with false by lia.
  change (rd xe_value_size off b) with (xn_size x). change (rd xe_value_offs off b) with (xn_offs x).
  rewrite xnext by done. fold x. cbn [length] in Hf. unfold xroom in X3.
  replace ((xn_size x =? 0) && negb (xn_offs x =? 0)) with false by (destruct (Z.eqb_spec (xn_size x) 0) as [E|E]; [by rewrite X2|done]).
  replace (end_ <? base + xn_offs x + xn_size x) with false
    by (destruct (Z.eq_dec (xn_size x) 0) as [E|E]; [rewrite X2, E by done|]; lia).
  replace (end_ <? off + xlen x + 4) with false by lia. by rewrite (IH _ _ l) by (done || lia).
Qed.
Lemma area_valid base first end_ b l : xarea base first end_ b l -> entries_valid base end_ first b = true.
Proof.
  intros [F V]. pose proof F as [F1 F2 F3 F4 F5 F6 F7]. unfold entries_valid.
  pose proof (xspan_nonneg l). destruct V as [I Ap].
  rewrite (check_spec base end_ b (first + xspan l) _ _ _ l); try done; try lia.
  - assert (first + xspan l + 4 - base <= xmin (end_ - base) l) by (apply xmin_low; [lia|by split]). lia.
  - eapply xchain_length; [exact F4|lia..].
  - eapply Forall_impl; [exact I|]. intros x (X1 & X2 & X3). split; [done|]. split; [done|]. intros Hx. specialize (X3 Hx). lia.
Qed.
