(* ===== verification/XattrProps.v ===== *)
(** * An area of attributes is a map

    Searching, entering and removing in one area (Xattr.v) against a finite map from
    names to values; examples of what the code does where that fails. *)

From S2P Require Import Prelude Layout Types Super Inode Xattr XattrLaws.

(** The room that the entry [key] and its value take. *)
Definition xheld (key : Z * list Z) (l : list xent) : Z :=
  fold_right (fun x a => if decide (xkey x = key) then xroom x + xlen x else a) 0 l.
(** What a change of an area comes to: a well-formed area again, that the checks of a
    block accept, with the map [mp]. *)
Definition changed_to (base first end_ : Z) (b b' : list Z) (mp : gmap (Z * list Z) (list Z)) : Prop :=
  (exists l', xarea base first end_ b' l' /\ xmap base b' l' = mp) /\
  entries_valid base end_ first b' = true /\ changed_in first end_ b b'.

Lemma xheld_mid key l1 x l2 : NoDup (map xkey (l1 ++ x :: l2)) -> xkey x = key -> xheld key (l1 ++ x :: l2) = xroom x + xlen x.
Proof.
  intros N K. induction l1 as [|y l1 IH]; cbn.
  - by rewrite decide_True.
  - cbn in N. apply NoDup_cons in N as [Ny N]. rewrite decide_False; [by apply IH|]. intros Ky. apply Ny. rewrite Ky, <- K, map_app.
    apply elem_of_app. right. by left.
Qed.
Lemma xheld_none key l : key ∉ map xkey l -> xheld key l = 0.
Proof.
  induction l as [|y l IH]; [done|]. cbn. intros H. apply not_elem_of_cons in H as [H1 H2]. rewrite decide_False by done. by apply IH.
Qed.

Section Area.
Context (base first end_ : Z) (b : list Z) (l : list xent) (A : xarea base first end_ b l).
Context (i : xattr_info) (Hi : 0 < xi_name_index i < 256) (Hname : bytes_ok (xi_name i)) (Hnlen : blen (xi_name i) < 256).
Local Abbreviation key := (xi_name_index i, xi_name i).
Local Abbreviation start := (mk_search first base end_ None true).
Local Abbreviation found := (ext4_xattr_find_entry i start b).

Lemma found_spec :
  match xs_here found with
  | None => xs_not_found found = true /\ key ∉ map xkey l
  | Some h => xs_not_found found = false /\
      exists l1 x l2, l = l1 ++ x :: l2 /\ h = first + xspan l1 /\ xkey x = key /\ xent_at h b = x /\ rd xe_name_len h b = blen (xn_name x)
  end.
Proof.
  destruct A as [F V]. pose proof F as [F1 F2 F3 F4 F5 F6 F7]. pose proof (xspan_nonneg l).
  pose proof (find_spec i b _ (xattr_fuel b) first l F4 F5 ltac:(eapply xchain_length; [exact F4|lia..])) as S.
  unfold ext4_xattr_find_entry. cbn [xs_here xs_first xs_not_found]. destruct (find_entry_loop _ _ _ _) as [h|].
  - split; [done|]. destruct S as (l1 & x & l2 & -> & -> & K). exists l1, x, l2. split_and!; try done.
    all: apply xchain_app in F4 as (_ & C2 & _); cbn [xchain] in C2; apply C2.
  - split; [done|]. rewrite list_elem_of_fmap. intros (x & E & Hx). by apply (S x).
Qed.

Lemma set_entry_scan (j : xattr_info) :
  xattr_scan (xattr_fuel b) (xs_end found - xs_base found) (xs_first found) b = (xmin (end_ - base) l, first + xspan l).
Proof.
  destruct A as [F V]. pose proof F as [F1 F2 F3 F4 F5 F6 F7]. pose proof (xspan_nonneg l).
  apply scan_spec; [done..|]. eapply xchain_length; [exact F4|lia..].
Qed.

Lemma area_done b' l' mp : xarea base first end_ b' l' -> xmap base b' l' = mp -> changed_in first end_ b b' ->
  changed_to base first end_ b b' mp.
Proof. intros A' E Ch. split; [by exists l'|]. split; [by eapply area_valid|done]. Qed.

(** The attribute that is replaced or removed has an empty value, or no other has. *)
Definition no_empty_left : Prop :=
  forall x y, x ∈ l -> y ∈ l -> xkey x = key -> xn_size x <> 0 -> xn_size y <> 0.
Context (Hne : no_empty_left).

Lemma safe_mid l1 x l2 : l = l1 ++ x :: l2 -> xkey x = key -> xn_size x <> 0 -> Forall (fun y => xn_size y <> 0) (l1 ++ l2).
Proof.
  intros El K Hx. rewrite Forall_forall. intros y Hy. apply (Hne x y); try done; rewrite El; [apply elem_of_app; right; by left|].
  apply elem_of_app in Hy as [Hy|Hy]; apply elem_of_app; [by left|right; by right].
Qed.
Lemma room_exact h l1 x l2 : l = l1 ++ x :: l2 -> xent_at h b = x -> entry_room h b = xroom x.
Proof.
  intros El E. unfold entry_room. change (rd xe_value_size h b) with (xn_size (xent_at h b)). rewrite E. fold (xroom x).
  pose proof (area_x base first end_ b l1 x l2) as X. rewrite <- El in X. destruct (X A) as ((X1 & X2 & X3) & _).
  apply u32_id. pose proof (xattr_size_range (xn_size x)). destruct A as [[_ F2 F3 _ _ _ _] _]. unfold xroom in *.
  destruct (Z.eq_dec (xn_size x) 0) as [H0|H0]; [rewrite H0; done|]. specialize (X3 H0).
  pose proof (area_low base first end_ b l1 x l2) as Lo. rewrite <- El in Lo. specialize (Lo A). pose proof (xspan_nonneg l). lia.
Qed.

Lemma free_range : 0 <= xfree base first end_ l <= 65536 /\ xmin (end_ - base) l <= end_ - base.
Proof.
  destruct A as [F V]. pose proof F as [F1 F2 F3 F4 F5 F6 F7]. pose proof (xspan_nonneg l).
  assert (first + xspan l + 4 - base <= xmin (end_ - base) l) by (apply xmin_low; [lia|done]).
  destruct (xmin_spec l (end_ - base)) as (M & _). unfold xfree. lia.
Qed.

Lemma set_value_spec v : bytes_ok v -> blen v < 2 ^ 32 ->
  let need := EXT4_XATTR_SIZE (blen v) + EXT4_XATTR_LEN (blen (xi_name i)) in
  let '(rc, _, b') := ext4_xattr_set_entry (mk_xinfo (xi_name_index i) (xi_name i) (Some v)) found b in
  if xfree base first end_ l + xheld key l <? need then rc = ENOSPC /\ b' = b
  else rc = EOK /\ changed_to base first end_ b b' (<[key := v]> (xmap base b l)).
Proof.
  intros Hv Hvl need. pose proof A as [F V]. pose proof F as [F1 F2 F3 F4 F5 F6 F7]. pose proof (xspan_nonneg l).
  pose proof free_range as [Hfree Hmin]. pose proof (xattr_size_range (blen v)). pose proof (blen_nonneg v).
  pose proof (xattr_len_range (blen (xi_name i))). pose proof (blen_nonneg (xi_name i)).
  set (j := mk_xinfo _ _ (Some v)). pose proof found_spec as S. unfold ext4_xattr_set_entry. rewrite (set_entry_scan j).
  change (xs_base found) with base in *. cbn [xi_value j].
  change (u64 (xmin (end_ - base) l - (first + xspan l - base) - 4)) with (u64 (xfree base first end_ l)). rewrite (u64_id (xfree _ _ _ _)) by lia.
  destruct (xs_here found) as [h|] eqn:Eh.
  - destruct S as (Enf & l1 & x & l2 & El & -> & K & E & En). pose proof (room_exact _ l1 x l2 El E) as Er. rewrite Er, En.
    pose proof (safe_mid l1 x l2 El K) as Hs. rewrite El in *. fold (xlen x). rewrite xheld_mid by done.
    destruct (area_x _ _ _ _ _ _ _ A) as ((X1 & X2 & X3) & _).
    assert (Hroom : 0 <= xroom x <= 65536).
    { unfold xroom in *. pose proof (xattr_size_range (xn_size x)). pose proof (area_low _ _ _ _ _ _ _ A).
      destruct (Z.eq_dec (xn_size x) 0) as [Hz|Hz]; [rewrite Hz; done|]. specialize (X3 Hz). lia. }
    assert (Elen : xlen x = EXT4_XATTR_LEN (blen (xi_name i))) by (unfold xlen; injection K as _ ->; done).
    change (xi_name j) with (xi_name i). rewrite (u64_id (xfree _ _ _ _ + _)), (u64_id (EXT4_XATTR_SIZE (blen v))) by lia.
    rewrite u64_id by lia. fold need. destruct (Z.ltb_spec (xfree base first end_ (l1 ++ x :: l2) + (xroom x + xlen x)) need) as [Hlt|Hge]; [done|].
    pose proof (remove_value_spec base first end_ b l1 x l2 A found eq_refl eq_refl) as R.
    destruct (remove_value found _ _ b) as [m' b1]. destruct R as (Em & Hm' & G & W & Ev & Ch1). specialize (W Hs).
    set (f := xshift (xn_offs x) (xroom x)) in *. assert (Efx : f x = x) by (unfold f, xshift; by rewrite Z.ltb_irrefl).
    rewrite map_app in G. cbn [map] in G. rewrite Efx in G. rewrite map_app in W.
    assert (Es : xspan (map f l1) = xspan l1) by apply xspan_shift.
    pose proof (put_replace base first end_ m' j v Hi Hv found (map f l1) x (map f l2) (first + xspan (l1 ++ x :: l2)) b1 G K W Hm') as P.
    assert (Esp : xspan (map f l1 ++ x :: map f l2) = xspan (l1 ++ x :: l2)).
    { rewrite !xspan_app. cbn [xspan fold_right]. unfold f. pose proof (xspan_shift (xn_offs x) (xroom x) l1) as S1.
      pose proof (xspan_shift (xn_offs x) (xroom x) l2) as S2. unfold xspan in *. lia. }
    rewrite Esp, Es in P. destruct P as [PA PV PR PC]; [unfold xfree, need in *; lia|done|done|].
    destruct (put_value j found v m' _ b1) as [s' b']. cbn [snd] in *. split; [done|].
    apply (area_done _ _ _ PA); [|by eapply changed_in_trans].
    rewrite xmap_mid by apply PA. rewrite PV. rewrite (xmap_mid _ _ l1 x l2) by done. rewrite K, insert_insert_eq. f_equal.
    rewrite (xmap_rest _ _ _ _ PR), <- map_app. apply xmap_same; [|done]. intros y. apply xshift_same.
  - destruct S as (Enf & K). rewrite xheld_none by done. rewrite Z.add_0_r.
    change (xi_name j) with (xi_name i). rewrite (u64_id (EXT4_XATTR_SIZE (blen v))) by lia. rewrite u64_id by lia. fold need.
    destruct (Z.ltb_spec (xfree base first end_ l) need) as [Hlt|Hge]; [done|].
    pose proof (put_insert base first end_ (xmin (end_ - base) l) j v Hi Hname Hnlen Hv found l b F K (values_xmin _ _ _ V) Hmin) as P.
    destruct P as [PA PV PR PC]; [unfold xfree, need in *; cbn [xi_name j]; lia|done|done|].
    destruct (put_value j found v _ _ b) as [s' b']. cbn [snd] in *. split; [done|].
    apply (area_done _ _ _ PA); [|done]. rewrite xmap_mid by apply PA. rewrite PV, app_nil_r, (xmap_rest _ _ _ _ PR). done.
Qed.

Lemma remove_spec :
  let '(rc, _, b') := ext4_xattr_set_entry (mk_xinfo (xi_name_index i) (xi_name i) None) found b in
  rc = EOK /\ changed_to base first end_ b b' (delete key (xmap base b l)).
Proof.
  pose proof A as [F V]. pose proof F as [F1 F2 F3 F4 F5 F6 F7]. pose proof (xspan_nonneg l).
  set (j := mk_xinfo _ _ None). pose proof found_spec as S. unfold ext4_xattr_set_entry. rewrite (set_entry_scan j).
  cbn [xi_value j]. destruct (xs_here found) as [h|] eqn:Eh.
  - destruct S as (Enf & l1 & x & l2 & El & -> & K & E & En). pose proof (safe_mid l1 x l2 El K) as Hs. rewrite El in *.
    pose proof (remove_value_spec base first end_ b l1 x l2 A found eq_refl eq_refl) as R.
    destruct (remove_value found _ _ b) as [m' b1]. destruct R as (Em & Hm' & G & W & Ev & Ch1). specialize (W Hs).
    set (f := xshift (xn_offs x) (xroom x)) in *. assert (Efx : f x = x) by (unfold f, xshift; by rewrite Z.ltb_irrefl).
    assert (Es : xspan (map f l1) = xspan l1) by apply xspan_shift.
    assert (Esp : xspan (map f (l1 ++ x :: l2)) = xspan (l1 ++ x :: l2)) by apply xspan_shift.
    rewrite map_app in G, Esp. cbn [map] in G, Esp. rewrite Efx in G, Esp.
    pose proof (frame_remove base first end_ b1 (map f l1) x (map f l2) found G) as P. rewrite Esp, Es in P.
    destruct (remove_entry found _ _ b1) as [s' b']. cbn [snd] in *. destruct P as (PF & PL & PC). split; [done|].
    pose proof (area_low _ _ _ _ _ _ _ A) as Lo. destruct (area_x _ _ _ _ _ _ _ A) as ((X1 & _) & _).
    pose proof (xattr_size_range (xn_size x)). rewrite map_app in W. unfold xroom in Em.
    assert (Esd : xspan (map f l1 ++ map f l2) <= xspan (l1 ++ x :: l2)).
    { rewrite <- map_app. unfold f. rewrite xspan_shift, !xspan_app. cbn [xspan fold_right]. pose proof (xlen_pos x). fold (xspan l2). lia. }
    assert (PA : xarea base first end_ b' (map f l1 ++ map f l2)).
    { split; [done|]. eapply values_weaken; [|exact W]. lia. }
    apply (area_done _ _ _ PA).
    + rewrite (xmap_mid _ _ l1 x l2), K by done. rewrite delete_insert_id by (apply xmap_none; rewrite <- K; by apply xkey_mid).
      transitivity (xmap base b1 (map f (l1 ++ l2))); [|apply xmap_same; [intros y; apply xshift_same|done]].
      rewrite map_app. apply xmap_rest. destruct W as [I _]. rewrite Forall_forall in *. intros y Hy. destruct (I y Hy) as (Y1 & _ & Y3).
      unfold xvalue. destruct (Z.eq_dec (xn_size y) 0) as [Hy0|Hy0]; [by rewrite Hy0|]. specialize (Y3 Hy0).
      pose proof (xattr_size_range (xn_size y)). unfold xroom in Y3.
      apply slice_ext; try apply PF; try apply G; try lia; [destruct G as [_ _ G3 _ _ _ _]; lia|]. intros k Hk. apply PC; lia.
    + eapply changed_in_trans; [exact Ch1|]. apply (changed_in_weaken _ _ _ _ _ _ PC); lia.
  - destruct S as (Enf & K). split; [done|]. apply (area_done _ l); [done| |by intros k].
    symmetry. apply delete_id. by apply xmap_none.
Qed.
End Area.

(** ** What the checks refuse *)

(** An entry with no value and an offset all the same. *)
Lemma check_bad base end_ b stop : forall fuel m off l y,
  xchain b off l stop -> y ∈ l -> xn_size y = 0 -> xn_offs y <> 0 -> check_entries fuel base end_ m off b = None.
Proof.
  induction fuel as [|fuel IH]; intros m off l y C Hy Hs Ho; [done|]. cbn [check_entries].
  destruct l as [|x l]; [by apply not_elem_of_nil in Hy|]. cbn [xchain] in C. destruct C as ((<- & Hl & Hn) & Hle & C).
  set (x := xent_at off b) in *. destruct (end_ <? off + 4); [done|]. rewrite Hl. destruct (end_ <? off + XATTR_ENTRY); [done|].
  change (rd xe_value_size off b) with (xn_size x). change (rd xe_value_offs off b) with (xn_offs x).
  apply elem_of_cons in Hy as [->|Hy].
  - rewrite Hs. by replace (xn_offs x =? 0) with false by lia.
  - rewrite xnext by done. fold x. repeat case_match; try done; by eapply IH.
Qed.
Lemma xmin_init l m m' x : x ∈ l -> xn_size x <> 0 -> xn_offs x <= m -> xn_offs x <= m' -> xmin m l = xmin m' l.
Proof.
  intros Hx Hs Hm Hm'.
  assert (H : forall m m', xn_offs x <= m' -> xmin m l <= xmin m' l).
  { intros n n' Hn'. destruct (xmin_spec l n) as (_ & N2 & _). destruct (xmin_spec l n') as (_ & _ & [E|(y & Hy & Hys & ->)]).
    - rewrite E. specialize (N2 x Hx Hs). lia.
    - by apply N2. }
  apply Z.le_antisymm; by apply H.
Qed.

(** ** Properties *)

(** C12: An area of extended attributes is a map from namespace and name to value.  On every well-formed area (in an
    inode or a block) the search finds an entry exactly when the map has the name, and where its value is; setting a
    value either is refused with ENOSPC and changes nothing, exactly when the free bytes and those of the entry it
    would replace are fewer than it needs, or leaves a well-formed area whose map has the value under the name and is
    otherwise the same; removing deletes the name.  No byte outside the area changes, and the checks made before an
    area is used accept the result.  (When the value replaced or removed has bytes, no attribute with an empty value
    may be there: see the next property.) *)
Theorem attribute_area_is_a_map base first end_ b l i v :
  xarea base first end_ b l -> 0 < xi_name_index i < 256 -> bytes_ok (xi_name i) -> blen (xi_name i) < 256 ->
  bytes_ok v -> blen v < 2 ^ 32 -> no_empty_left l i ->
  let key := (xi_name_index i, xi_name i) in
  let s := ext4_xattr_find_entry i (mk_search first base end_ None true) b in
  match xs_here s with
  | None => xs_not_found s = true /\ xmap base b l !! key = None
  | Some h => xs_not_found s = false /\
      xmap base b l !! key = Some (slice (base + rd xe_value_offs h b) (rd xe_value_size h b) b)
  end /\
  (let '(rc, _, b') := ext4_xattr_set_entry (mk_xinfo (xi_name_index i) (xi_name i) (Some v)) s b in
   if xfree base first end_ l + xheld key l <? EXT4_XATTR_SIZE (blen v) + EXT4_XATTR_LEN (blen (xi_name i))
   then rc = ENOSPC /\ b' = b
   else rc = EOK /\ changed_to base first end_ b b' (<[key := v]> (xmap base b l))) /\
  (let '(rc, _, b') := ext4_xattr_set_entry (mk_xinfo (xi_name_index i) (xi_name i) None) s b in
   rc = EOK /\ changed_to base first end_ b b' (delete key (xmap base b l))).
Proof.
  intros A Hi Hn Hnl Hv Hvl Hne key s. split; [|split].
  - pose proof (found_spec _ _ _ _ _ A i) as S. fold s in S. destruct (xs_here s) as [h|].
    + destruct S as (-> & l1 & x & l2 & -> & -> & K & E & En). split; [done|].
      rewrite xmap_mid by apply A. rewrite K. rewrite lookup_insert_eq. unfold xvalue. by rewrite <- E.
    + destruct S as [-> K]. split; [done|]. by apply xmap_none.
  - by apply set_value_spec.
  - by apply remove_spec.
Qed.

(** C24: The code loses areas that have an attribute with an empty value.  When an attribute with bytes is removed from
    a well-formed area in which another one's value is empty, the removal reports success, and the check made before
    an area is used refuses what is left: the empty attribute was given the offset of a value (its own is 0, below
    every other), so every attribute of the area is out of reach from then on. *)
Theorem empty_attribute_loses_area base first end_ b l i x y :
  xarea base first end_ b l -> x ∈ l -> xkey x = (xi_name_index i, xi_name i) -> xn_size x <> 0 -> y ∈ l -> xn_size y = 0 ->
  let s := ext4_xattr_find_entry i (mk_search first base end_ None true) b in
  let '(rc, _, b') := ext4_xattr_set_entry (mk_xinfo (xi_name_index i) (xi_name i) None) s b in
  rc = EOK /\ entries_valid base end_ first b' = false.
Proof.
  intros A Hx Kx Hxs Hy Hys s. pose proof (found_spec _ _ _ _ _ A i) as S. fold s in S. unfold ext4_xattr_set_entry.
  unfold s. rewrite (set_entry_scan _ _ _ _ _ A i i). fold s. cbn [xi_value]. destruct (xs_here s) as [h|] eqn:Eh.
  2: { destruct S as [_ K]. destruct K. rewrite <- Kx. by apply list_elem_of_fmap_2. }
  destruct S as (_ & l1 & z & l2 & -> & -> & K & E & En).
  pose proof (xf_keys _ _ _ _ _ (xa_frame _ _ _ _ _ A)) as N.
  assert (z = x) as ->.
  { apply elem_of_app in Hx as [Hx|[->|Hx]%elem_of_cons]; [exfalso|done|exfalso]; apply (xkey_mid l1 z l2 N); rewrite K, <- Kx;
      apply list_elem_of_fmap_2, elem_of_app; auto. }
  pose proof (remove_value_spec base first end_ b l1 x l2 A s eq_refl eq_refl) as R.
  pose proof (area_low _ _ _ _ _ _ _ A) as Lo. destruct (area_x _ _ _ _ _ _ _ A) as ((X1 & _ & X3) & _ & [I _]). specialize (X3 Hxs).
  destruct (remove_value s _ _ b) as [m' b1]. destruct R as (_ & _ & G & _ & _ & _).
  set (f := xshift (xn_offs x) (xroom x)) in *. assert (Efx : f x = x) by (unfold f, xshift; by rewrite Z.ltb_irrefl).
  assert (Es : xspan (map f l1) = xspan l1) by apply xspan_shift.
  assert (Esp : xspan (map f (l1 ++ x :: l2)) = xspan (l1 ++ x :: l2)) by apply xspan_shift.
  rewrite map_app in G, Esp. cbn [map] in G, Esp. rewrite Efx in G, Esp.
  pose proof (frame_remove base first end_ b1 (map f l1) x (map f l2) s G) as P. rewrite Esp, Es in P.
  destruct (remove_entry s _ _ b1) as [s' b']. cbn [snd] in *. destruct P as (PF & _). split; [done|].
  pose proof (xspan_nonneg (l1 ++ x :: l2)). destruct (xa_frame _ _ _ _ _ A) as [_ F2 _ _ _ _ _].
  assert (Hy' : y ∈ l1 ++ l2) by (apply elem_of_app in Hy as [Hy|[->|Hy]%elem_of_cons]; [apply elem_of_app; by left|done|apply elem_of_app; by right]).
  rewrite Forall_forall in I. destruct (I y Hy') as (_ & Y2 & _). specialize (Y2 Hys). pose proof (xattr_size_range (xn_size x)).
  assert (Ef : xn_offs (f y) = xroom x) by (unfold f, xshift; rewrite Y2; by replace (0 <? xn_offs x) with true by lia).
  unfold entries_valid. rewrite (check_bad base end_ b' _ _ _ _ _ (f y) (xf_chain _ _ _ _ _ PF)); [done| |..].
  - rewrite <- map_app. by apply list_elem_of_fmap_2.
  - unfold f. by rewrite (proj1 (proj2 (proj2 (xshift_same _ _ y)))).
  - rewrite Ef. unfold xroom. lia.
Qed.

(** C25: The check of the attributes in an inode is off by the four bytes of their header.  A well-formed area in an
    inode, with the magic number, with aligned extra fields and a value in it, is accepted exactly when four bytes or
    more of it are free; the code that enters values fills it to the last byte.  An inode with a full area is reported
    as corrupt. *)
Theorem body_check_wants_four_bytes sb p b l x :
  let first := EXT4_XATTR_IFIRST (EXT4_XATTR_IHDR sb p b) in
  let end_ := p + sb_get sb_inode_size sb in
  xarea first first end_ b l -> 4 <= first -> x ∈ l -> xn_size x <> 0 ->
  ibody_magic sb p b = true -> ext4_xattr_ibody_misaligned sb p b = false ->
  ext4_xattr_is_ibody_valid sb p b = (4 <=? xfree first first end_ l).
Proof.
  intros first end_ [F V] Hfirst Hx Hs Hm Ha. pose proof F as [F1 F2 F3 F4 F5 F6 F7]. pose proof (xspan_nonneg l). destruct V as [I Ap].
  assert (Eh : EXT4_XATTR_IHDR sb p b = first - 4) by (unfold first, EXT4_XATTR_IFIRST, XATTR_IHEADER; lia).
  unfold ext4_xattr_is_ibody_valid. fold first end_. rewrite Eh, Hm, Ha. replace (end_ <? first + 4) with false by lia. cbn [orb negb].
  rewrite Forall_forall in I. unfold entries_valid. rewrite (check_spec _ _ b (first + xspan l) _ _ _ l); try done; try lia.
  - destruct (I x Hx) as (X1 & _ & X3). specialize (X3 Hs). pose proof (xattr_size_range (xn_size x)). unfold xroom in X3.
    rewrite (xmin_init l _ (end_ - first) x) by (done || lia). unfold xfree. lia.
  - eapply xchain_length; [exact F4|lia..].
  - rewrite Forall_forall. intros y Hy. destruct (I y Hy) as (Y1 & Y2 & Y3). split; [done|]. split; [done|]. intros H'. specialize (Y3 H'). lia.
Qed.

(** ** Samples *)

(** An area of 128 bytes with the attributes a = 1, 2, 3 and b, which is empty. *)
Definition area_start : xattr_search := mk_search 0 0 128 None true.
Definition area_set (name value : list Z) (b : list Z) : list Z :=
  let i := mk_xinfo 1 name (Some value) in snd (ext4_xattr_set_entry i (ext4_xattr_find_entry i area_start b) b).
Definition sample_area : list Z := Eval vm_compute in area_set [98] [] (area_set [97] [1; 2; 3] (replicate 128 0)).
Definition sample_ents : list xent := [mk_xent 1 [97] 124 3; mk_xent 1 [98] 0 0].
Lemma sample_area_ok : xarea 0 0 128 sample_area sample_ents.
Proof.
  split; split.
  - apply (bool_decide_unpack _). vm_compute. exact I.
  - lia.
  - done.
  - vm_compute. split_and!; done.
  - done.
  - done.
  - apply (bool_decide_unpack _). vm_compute. exact I.
  - repeat constructor; vm_compute; try done; intros; lia.
  - cbn. split; [|done]. apply Forall_singleton. right. by left.
Defined.

Lemma attribute_area_is_a_map_witness :
  let i := mk_xinfo 1 [99] None in
  let s := ext4_xattr_find_entry i area_start sample_area in
  xs_here s = None /\ exists b', changed_to 0 0 128 sample_area b' (<[(1, [99]) := [9]]> (xmap 0 sample_area sample_ents)).
Proof.
  intros i s. destruct (attribute_area_is_a_map 0 0 128 sample_area sample_ents i [9] sample_area_ok) as (H1 & H2 & _).
  - done.
  - repeat constructor; lia.
  - done.
  - repeat constructor; lia.
  - done.
  - intros x y Hx _ K. exfalso. repeat (apply elem_of_cons in Hx as [->|Hx]; [by vm_compute in K|]). by apply not_elem_of_nil in Hx.
  - split; [by vm_compute|].
    change (mk_search 0 0 128 None true) with area_start in H2. fold s in H2. revert H2.
    destruct (ext4_xattr_set_entry (mk_xinfo (xi_name_index i) (xi_name i) (Some [9])) s sample_area) as [[rc s'] b'].
    replace (xfree 0 0 128 sample_ents + _ <? _) with false by (by vm_compute). intros [_ H2]. by exists b'.
Defined.

Lemma empty_attribute_loses_area_witness :
  let i := mk_xinfo 1 [97] None in
  let '(rc, _, b') := ext4_xattr_set_entry i (ext4_xattr_find_entry i area_start sample_area) sample_area in
  entries_valid 0 128 0 sample_area = true /\ rc = EOK /\ entries_valid 0 128 0 b' = false.
Proof.
  intros i. assert (H0 : entries_valid 0 128 0 sample_area = true) by (by vm_compute).
  pose proof (empty_attribute_loses_area 0 0 128 sample_area sample_ents i (mk_xent 1 [97] 124 3) (mk_xent 1 [98] 0 0) sample_area_ok
    ltac:(by left) eq_refl ltac:(done) ltac:(right; by left) eq_refl) as H.
  change (mk_search 0 0 128 None true) with area_start in H. cbv zeta in H.
  change (mk_xinfo (xi_name_index i) (xi_name i) None) with i in H.
  destruct (ext4_xattr_set_entry i _ sample_area) as [[rc s'] b']. by split.
Defined.

(** An inode of 256 bytes with 32 bytes of extra fields, whose area holds one value
    and is full. *)
Definition full_sb : list Z := wr sb_inode_size 0 256 (replicate 1024 0).
Definition full_inode : list Z := Eval vm_compute in
  let b := snd (ext4_xattr_ibody_initialize full_sb 0 (ext4_inode_set_extra_isize full_sb 0 32 (replicate 256 0))) in
  let i := mk_xinfo 1 [97; 98; 99; 100; 101; 102; 103; 104] (Some (replicate 64 7)) in
  snd (ext4_xattr_set_entry i (ext4_xattr_find_entry i (mk_search 164 164 256 None true) b) b).
Definition full_ents : list xent := [mk_xent 1 [97; 98; 99; 100; 101; 102; 103; 104] 28 64].
Lemma full_inode_ok : xarea 164 164 256 full_inode full_ents.
Proof.
  split; split.
  - apply (bool_decide_unpack _). vm_compute. exact I.
  - lia.
  - done.
  - vm_compute. split_and!; done.
  - done.
  - done.
  - apply (bool_decide_unpack _). vm_compute. exact I.
  - repeat constructor; vm_compute; try done; intros; lia.
  - by cbn.
Defined.
Lemma body_check_wants_four_bytes_witness :
  xfree 164 164 256 full_ents = 0 /\ ext4_xattr_is_ibody_valid full_sb 0 full_inode = false.
Proof.
  split; [by vm_compute|].
  rewrite (body_check_wants_four_bytes full_sb 0 full_inode full_ents (mk_xent 1 [97; 98; 99; 100; 101; 102; 103; 104] 28 64)).
  - by vm_compute.
  - exact full_inode_ok.
  - by vm_compute.
  - by left.
  - done.
  - by vm_compute.
  - by vm_compute.
Defined.
