(* ===== verification/XattrRead.v ===== *)
(** * Reading an attribute of an inode

    [ext4_xattr_get] (Core/lwext4/src/ext4_xattr.c) against the maps of the area in
    the inode and of its block. *)

From S2P Require Import Prelude Layout Types Super Inode Store Fs FsSpec ExtNode Imap Xattr XattrLaws XattrProps.
From S2P Require Import Device Bcache CacheSpec CacheProps Sample.

(** The area in the inode at byte [p] of [b] has the map [mp]: there is none, it was
    never written to, or it is well formed and its check accepts it. *)
Definition body_area (sb : list Z) (p : Z) (b : list Z) (l : list xent) : Prop :=
  let first := EXT4_XATTR_IFIRST (EXT4_XATTR_IHDR sb p b) in
  xarea first first (p + sb_get sb_inode_size sb) b l.
Inductive body_attrs (sb : list Z) (p : Z) (b : list Z) : gmap (Z * list Z) (list Z) -> Prop :=
| body_absent : ext4_inode_get_extra_isize sb p b = 0 -> body_attrs sb p b ∅
| body_unused :
    ext4_inode_get_extra_isize sb p b <> 0 -> EXT4_XATTR_IHDR sb p b + 4 <= p + sb_get sb_inode_size sb ->
    ext4_xattr_ibody_misaligned sb p b = false -> ibody_magic sb p b = false -> body_attrs sb p b ∅
| body_used l :
    ext4_inode_get_extra_isize sb p b <> 0 -> ext4_xattr_ibody_misaligned sb p b = false ->
    ext4_xattr_is_ibody_valid sb p b = true -> body_area sb p b l ->
    body_attrs sb p b (xmap (EXT4_XATTR_IFIRST (EXT4_XATTR_IHDR sb p b)) b l).
(** A block of attributes. *)
Inductive block_attrs (sb b : list Z) : gmap (Z * list Z) (list Z) -> Prop :=
| block_used l : ext4_xattr_is_block_valid sb b = true ->
    xarea 0 XATTR_HEADER (ext4_sb_get_block_size sb) b l -> block_attrs sb b (xmap 0 b l).
(** All the attributes of an inode; those in the inode hide those in the block. *)
Definition acl_of (sb : list Z) (ir : inode_ref) (c : Z -> list Z) : Z := ext4_inode_get_file_acl (ir_off ir) (c (ir_block ir)) sb.
Definition inode_attrs (sb : list Z) (ir : inode_ref) (c : Z -> list Z) (mp : gmap (Z * list Z) (list Z)) : Prop :=
  exists m1 m2, mp = m1 ∪ m2 /\ body_attrs sb (ir_off ir) (c (ir_block ir)) m1 /\
    if acl_of sb ir c =? 0 then m2 = ∅ else block_attrs sb (c (acl_of sb ir c)) m2.

(** What is found is what the map has. *)
Lemma found_value base first end_ b l i buf_len : xarea base first end_ b l -> 0 <= buf_len ->
  let s := ext4_xattr_find_entry i (mk_search first base end_ None true) b in
  match xmap base b l !! (xi_name_index i, xi_name i) with
  | Some v => xs_not_found s = false /\ value_found buf_len s b = (blen v, take (Z.to_nat buf_len) v)
  | None => xs_not_found s = true
  end.
Proof.
  intros A Hbuf s. pose proof (found_spec _ _ _ _ _ A i) as S. fold s in S. unfold value_found.
  destruct (xs_here s) as [h|] eqn:Eh.
  - destruct S as (Enf & l1 & x & l2 & -> & -> & K & E & En). rewrite xmap_mid by apply A. rewrite <- K, lookup_insert_eq.
    split; [done|]. change (rd xe_value_size _ b) with (xn_size (xent_at (first + xspan l1) b)).
    change (rd xe_value_offs _ b) with (xn_offs (xent_at (first + xspan l1) b)). rewrite E.
    destruct (area_x _ _ _ _ _ _ _ A) as ((X1 & X2 & X3) & _). pose proof (xroom_range x X1).
    pose proof (area_low _ _ _ _ _ _ _ A). destruct (xa_frame _ _ _ _ _ A) as [_ F2 F3 _ _ _ _]. pose proof (xspan_nonneg (l1 ++ x :: l2)).
    change (xs_base s) with base. unfold xvalue. destruct (Z.eq_dec (xn_size x) 0) as [Hz|Hz].
    + rewrite Hz. replace (buf_len <? 0) with false by lia. change (slice (base + xn_offs x) 0 b) with (@nil Z). by rewrite take_nil.
    + specialize (X3 Hz). rewrite blen_slice by lia. f_equal. unfold slice. rewrite take_take. f_equal.
      destruct (Z.ltb_spec buf_len (xn_size x)); lia.
  - destruct S as [Enf K]. by rewrite xmap_none.
Qed.

Section Get.
Context {St : Type} {BS : BlockStore St} {bsz : Z} {BL : BlockStoreLaws St bsz}.
Context (n : Z) (f : fsys St) (sb : list Z) (ir : inode_ref) (li : Z) (c : Z -> list Z) (h : Z -> Z).
Context (A : fabs (bsz := bsz) n f sb ir li c h ∅) (Hn : n + 1 < 2 ^ 32) (Hir : 0 < h (ir_block ir)).
Local Abbreviation fa n f h := (fabs (bsz := bsz) n f sb ir li c h ∅).

Lemma inode_wp {T} (g : Z -> list Z -> T) k f1 h1 (Q : result T -> fsys St -> Prop) :
  fa k f1 h1 -> 0 < h1 (ir_block ir) -> Q (Ok (g (ir_off ir) (c (ir_block ir)))) f1 -> wp (on_inode g) f1 Q.
Proof. intros A0 Hh HQ. unfold on_inode. fs_step. fs_step. fs_step. fs_step; [done|]. by fs_step. Qed.
Lemma body_find i m buf_len : body_attrs sb (ir_off ir) (c (ir_block ir)) m -> 0 <= buf_len ->
  exists s, ext4_xattr_ibody_find_entry sb i (ir_off ir) (c (ir_block ir)) = Ok s /\
    match m !! (xi_name_index i, xi_name i) with
    | Some v => xs_not_found s = false /\ value_found buf_len s (c (ir_block ir)) = (blen v, take (Z.to_nat buf_len) v)
    | None => xs_not_found s = true
    end.
Proof.
  set (p := ir_off ir). set (b := c (ir_block ir)). intros B Hbuf. unfold ext4_xattr_ibody_find_entry. destruct B as [E|E Hin Ha Em|l E Ha Hv Ar].
  - rewrite E. cbn. exists (search_zero true). by rewrite lookup_empty.
  - replace (ext4_inode_get_extra_isize sb p b =? 0) with false by lia. rewrite Ha. change XATTR_IHEADER with 4.
    replace (_ <? _) with false by lia. rewrite Em. cbn. exists (search_zero true). by rewrite lookup_empty.
  - replace (ext4_inode_get_extra_isize sb p b =? 0) with false by lia. rewrite Ha, Hv. change XATTR_IHEADER with 4.
    destruct (xa_frame _ _ _ _ _ Ar) as [_ _ _ _ _ F6 _]. pose proof (xspan_nonneg l). unfold EXT4_XATTR_IFIRST in F6. change XATTR_IHEADER with 4 in F6.
    replace (_ <? _) with false by lia. assert (Em : ibody_magic sb p b = true).
    { unfold ext4_xattr_is_ibody_valid in Hv. destruct (_ || _); [done|]. by destruct (ibody_magic sb p b). }
    rewrite Em. cbn [orb negb]. eexists. split; [done|]. by apply (found_value _ _ _ _ l).
Qed.

(** C23: Reading an extended attribute (ext4_xattr_get).  The attributes of an inode are the map of the area in its body
    over the map of its block.  A success gives the length of the value that map has under the namespace and name, and
    the bytes of it that fit the caller's buffer.  An error is ENODATA and the map has no such name, or it is the error
    with which the store refused to fetch the block of attributes, in the state of the call: so a name of the map is
    found unless that one fetch fails, and a fetch that succeeds leaves ENODATA for absent names alone.  Every handle is
    given back and nothing changes.  Conditions: the areas are absent, unused, or well formed and accepted by the
    code's checks ([inode_attrs]), and no store is pending. *)
Theorem get_reads_the_attributes index name buf_len mp :
  inode_attrs sb ir c mp -> 0 <= buf_len -> 0 <= acl_of sb ir c ->
  wp (ext4_xattr_get index name buf_len) f (fun r f' =>
    fa (n + 1) f' h /\
    match r with
    | Ok (len, d) => exists v, mp !! (index, name) = Some v /\ len = blen v /\ d = take (Z.to_nat buf_len) v
    | Err rc => rc = ENODATA /\ mp !! (index, name) = None \/
        rc <> EOK /\ acl_of sb ir c <> 0 /\ fst (bs_get (acl_of sb ir c) (f_st f)) = Err rc
    end).
Proof.
  intros (m1 & m2 & -> & B & Bl) Hbuf Hacl. unfold ext4_xattr_get, file_acl, ibody_find.
  pose proof (body_find (mk_xinfo index name None) m1 buf_len B Hbuf) as (s & Es & Sm). cbn [xi_name_index xi_name] in Sm.
  assert (A1 : forall f', fa n f' h -> fa (n + 1) f' h) by (intros f' A'; eapply fabs_weaken; [exact A'|lia|done..]).
  fs_step. fs_step. fs_step. eapply inode_wp; [done..|]. cbv beta iota. change (ext4_inode_get_file_acl _ _ _) with (acl_of sb ir c).
  fs_step. fs_step. fs_step. fs_step. eapply inode_wp; [done..|]. cbv beta iota. rewrite Es. cbn [lift_result]. fs_step.
  destruct (m1 !! (index, name)) as [v|] eqn:E1.
  - destruct Sm as [-> Ev]. cbn [negb]. eapply inode_wp; [done..|]. cbv beta iota. rewrite Ev. split; [by apply A1|]. exists v.
    by rewrite (lookup_union_Some_l _ _ _ _ E1).
  - rewrite Sm. cbn [negb]. rewrite (lookup_union_r _ _ _ E1). destruct (Z.eqb_spec (acl_of sb ir c) 0) as [Ez|Ez].
    + rewrite Bl. apply wp_fail. split; [by apply A1|]. left. by rewrite lookup_empty.
    + destruct Bl as [l Hv Ar]. set (blk := acl_of sb ir c) in *. fs_step.
      apply (wp_get_block_err _ _ _ _ _ _ _ _ A); [lia|done|apply not_elem_of_empty| |].
      2: { intros rc f2 Hrc E2 A2. split; [done|]. right. by split_and!. }
      intros f2 _ A2. set (h2 := fupd _ _ _) in *. pose proof (fabs_held _ _ _ _ _ _ _ _ A blk) as Hh.
      assert (H2 : 0 < h2 blk) by (unfold h2; rewrite fupd_eq; lia). apply wp_finally.
      pose proof (found_value _ _ _ _ _ (mk_xinfo index name None) buf_len Ar Hbuf) as Fv. cbn [xi_name_index xi_name] in Fv. cbv zeta in Fv.
      assert (Hput : forall (Q : result unit -> fsys St -> Prop), (forall r f3, fa (n + 1) f3 h -> Q r f3) -> wp (on_st (bs_set blk)) f2 Q).
      { intros Q HQ. fs_step; [done|apply not_elem_of_empty|]. intros f3 A3. apply HQ. eapply fabs_weaken; [exact A3|eapply fabs_budget, A3|done| |done].
        intros a. symmetry. apply fupd_restore. }
      unfold block_find. fs_step. fs_step. fs_step. fs_step. fs_step; [done|].
      unfold ext4_xattr_block_find_entry. rewrite Hv. cbn [negb lift_result]. fs_step. unfold ext4_xattr_block_init_search.
      destruct (xmap 0 (c blk) l !! (index, name)) as [v|].
      * destruct Fv as [-> Ev]. fs_step. fs_step; [done|]. fs_step. apply Hput. intros r f3 A3. split; [done|]. rewrite Ev. by exists v.
      * rewrite Fv. apply wp_fail. apply Hput. intros r f3 A3. split; [done|]. by left.
Qed.
End Get.

(** ** On the sample volume *)

(** The fifth inode, and its attribute. *)
Definition vol_attr_iref : inode_ref := mk_inode_ref 5 512 5 false.
Definition vol_attr_ents : list xent := [mk_xent 1 [97] 1020 3].
Lemma vol_attr_area : xarea 0 32 1024 (vol_contents 45) vol_attr_ents.
Proof.
  split; split.
  - apply (bool_decide_unpack _). vm_compute. exact I.
  - lia.
  - vm_compute. split; discriminate.
  - vm_compute. split_and!; done.
  - vm_compute. done.
  - done.
  - apply (bool_decide_unpack _). vm_compute. exact I.
  - repeat constructor; vm_compute; try done; intros; lia.
  - by cbn.
Qed.
Lemma vol_attrs_ok : inode_attrs vol_sb vol_attr_iref vol_contents (∅ ∪ xmap 0 (vol_contents 45) vol_attr_ents).
Proof.
  exists ∅, (xmap 0 (vol_contents 45) vol_attr_ents). split; [done|]. split; [apply body_absent; vm_compute; reflexivity|].
  assert (E : acl_of vol_sb vol_attr_iref vol_contents = 45) by (vm_compute; reflexivity). rewrite E. cbn [Z.eqb].
  apply block_used; [vm_compute; reflexivity|]. replace (ext4_sb_get_block_size vol_sb) with 1024 by (vm_compute; reflexivity).
  exact vol_attr_area.
Qed.
Lemma get_reads_the_attributes_witness :
  fst (@ext4_xattr_get _ vol_store 1 [97] 2 (vol_fs_of vol_attr_iref)) = Ok (3, [1; 2]) /\
  exists v, (∅ ∪ xmap 0 (vol_contents 45) vol_attr_ents) !! (1, [97]) = Some v /\ blen v = 3 /\ take 2 v = [1; 2].
Proof.
  set (run := @ext4_xattr_get _ vol_store 1 [97] 2 (vol_fs_of vol_attr_iref)).
  assert (E : fst run = Ok (3, [1; 2])) by (vm_compute; reflexivity). split; [exact E|].
  assert (H1 : 1 + 1 < 2 ^ 32) by lia. assert (H2 : 0 < vol_held (ir_block vol_attr_iref)) by (vm_compute; reflexivity).
  assert (H3 : 0 <= acl_of vol_sb vol_attr_iref vol_contents) by (vm_compute; discriminate).
  pose proof (get_reads_the_attributes (BL := vol_laws) 1 (vol_fs_of vol_attr_iref) vol_sb vol_attr_iref 0 vol_contents vol_held
    (vol_fabs_of vol_attr_iref) H1 H2 1 [97] 2 _ vol_attrs_ok ltac:(lia) H3) as H.
  unfold wp in H. fold run in H. destruct run as [r f']. cbn [fst] in E. rewrite E in H. destruct H as (_ & v & Hv & El & Ed).
  exists v. split; [exact Hv|]. split; [by rewrite <- El|]. symmetry. exact Ed.
Defined.
