(* ===== verification/Data.v ===== *)
(** * File data

    What the bridge (Core/shim/ext4_bridge.c) needs of the layers below besides the
    block store: transfers that go past the cache, the cache's write-back mode and
    flush, the barrier of the host and the transactions of the journal, as classes;
    the contract of reading past the cache, and the cache as an instance. *)

From S2P Require Import Prelude Types Device Bcache BcacheLaws CacheSpec CacheProps Trans Store.

Class DataStore (St : Type) {BS : BlockStore St} := {
  (** [ext4_blocks_get_direct(lba, cnt)], [ext4_bcache_find_get(lba)] (the buffer is
      held afterwards if there is one), [ext4_block_writebytes(off, bytes)],
      [ext4_bcache_update_if_cached(lba, off, bytes)]. *)
  ds_get_direct : Z -> Z -> M St (list Z);
  ds_find_get : Z -> M St bool;
  ds_writebytes : Z -> list Z -> M St unit;
  ds_update_if_cached : Z -> Z -> list Z -> St -> St;
  (** [ext4_block_cache_write_back], [ext4_block_cache_flush], [dev->flush_fn] (a null
      pointer is [None]). *)
  ds_write_back : bool -> M St unit;
  ds_cache_flush : M St unit;
  ds_flush_fn : option (M St unit);
}.

(** The transactions of the journal, as ext4_journal.c gives them. *)
Class TxStore (St : Type) := {
  (** [jbd_journal_new_trans] ([Err] is the null pointer), [jbd_journal_commit_trans],
      [jbd_journal_free_trans(aborted)], [ext4_sb_write_trans]. *)
  tx_new : M St unit;
  tx_commit : M St unit;
  tx_free : St -> St;
  tx_sb_write : list Z -> M St unit;
  (** [trans->data_cnt]; [maxlen] and [first] of the journal's superblock, [jbd->last]
      and [jbd->start]. *)
  tx_data_cnt : St -> Z;
  tx_maxlen : St -> Z;
  tx_first : St -> Z;
  tx_last : St -> Z;
  tx_start : St -> Z;
}.

(** Block [lba] was read past the cache into [d]: a buffer that is ahead of the medium
    is copied over it. *)
Definition overlay_dirty {St} {BS : BlockStore St} {DS : DataStore St} (lba : Z) (d : list Z) : M St (list Z) :=
  found <- ds_find_get lba;;
  if (found : bool) then
    d <- mget (fun s => if bs_is_dirty lba s then bs_read lba s else d);;
    mtry (bs_set lba);;;
    mok d
  else mok d.

(** The contract of reading past the cache: where no buffer is ahead of the medium,
    the medium has the contents. *)
Class DataStoreLaws (St : Type) {BS : BlockStore St} (bsz bcnt : Z) {BL : BlockStoreLaws St bsz} {DS : DataStore St} := {
  ds_get_direct_wp n s c h p a k :
    bs_abs n s c h p -> 0 < k -> k * bsz < 2 ^ 32 -> 0 <= a -> a + k <= bcnt -> (forall i, 0 <= i < k -> a + i ∉ p) ->
    wp (ds_get_direct a k) s (fun r s' =>
      bs_abs n s' c h p /\ (forall x, bs_is_dirty x s' = bs_is_dirty x s) /\
      match r with
      | Ok d => blen d = k * bsz /\
          forall i, 0 <= i < k -> bs_is_dirty (a + i) s = false -> slice (i * bsz) bsz d = c (a + i)
      | Err rc => rc <> EOK
      end);
  ds_overlay_wp n s c h p a d :
    bs_abs n s c h p -> n + 1 < 2 ^ 32 -> a ∉ p -> (bs_is_dirty a s = false -> d = c a) ->
    wp (overlay_dirty a d) s (fun r s' =>
      r = Ok (c a) /\ bs_abs (n + 1) s' c h p /\ forall x, x <> a -> bs_is_dirty x s' = bs_is_dirty x s);
}.

(** ** Runs of blocks on the device *)

Section Runs.
Context {D : Type} {HD : Host D} {ph : Z} {HL : HostLaws D ph}.
Implicit Types (d : dev D).

Lemma dev_run_addr d lba n :
  dev_ok (ph := ph) d -> geom_ok (ph := ph) d -> 0 < n -> n * d_lg_bsize d < 2 ^ 32 -> 0 <= lba -> lba + n <= d_lg_bcnt d ->
  lba_pba d lba * ph = d_part_offset d + lba * d_lg_bsize d /\
  u32 (d_lg_bsize d / d_ph_bsize d * n) * ph = n * d_lg_bsize d.
Proof.
  intros Hd Hg Hn Hlt Hl Hle. destruct (lba_pba_addr d lba Hd Hg) as (E1 & _ & _); [lia|]. split; [done|].
  destruct Hd as (Ep & (k & Hk & Ek) & _). assert (Hph : 0 < ph) by (rewrite Ek; lia).
  destruct Hg as (Hb & Hm & _ & _). rewrite Ep.
  assert (Eq : d_lg_bsize d = ph * (d_lg_bsize d / ph)) by (apply Z_div_exact_full_2; lia).
  rewrite u32_id; [nia|]. split; [nia|]. change 4294967296 with (2 ^ 32). nia.
Qed.
Lemma dev_get_run_wp d lba n :
  dev_ok (ph := ph) d -> geom_ok (ph := ph) d -> 0 < n -> n * d_lg_bsize d < 2 ^ 32 -> 0 <= lba -> lba + n <= d_lg_bcnt d ->
  wp (ext4_blocks_get_direct lba n) d (reads (ph := ph) d (fun x => blen x = n * d_lg_bsize d /\
    forall i, 0 <= i < n -> slice (i * d_lg_bsize d) (d_lg_bsize d) x = dblk d (lba + i))).
Proof.
  intros Hd Hg Hn Hlt Hl Hle. destruct (dev_run_addr d lba n Hd Hg Hn Hlt Hl Hle) as [E1 E2].
  pose proof (proj1 (proj1 Hg)).
  unfold ext4_blocks_get_direct. do 2 apply wp_bind, wp_get. wp_call (bread_wp (ph := ph)). intros r d' (C & B & R).
  split_and!; [done..|]. destruct r as [x|]; [|done]. rewrite R, E1, E2. split; [apply blen_medium; nia|].
  intros i Hi. rewrite slice_medium by nia. unfold dblk. f_equal. lia.
Qed.
End Runs.

(** ** The cache as a data store *)

Section CacheData.
Context {D : Type} {HD : Host D} {ph : Z} {HL : HostLaws D ph}.
Context (end_write : Z -> Z -> Z -> bdev D -> bdev D).
Context (jbd_trans_set_block_dirty jbd_trans_try_revoke_block : Z -> M (bdev D) unit).
Context (bsz bcnt : Z).
#[local] Instance the_store : BlockStore (bdev D) :=
  cache_store end_write jbd_trans_set_block_dirty jbd_trans_try_revoke_block.
#[local] Instance the_laws : BlockStoreLaws (bdev D) bsz :=
  cache_store_laws (ph := ph) end_write jbd_trans_set_block_dirty jbd_trans_try_revoke_block bsz bcnt.

Definition find_get (lba : Z) : M (bdev D) bool := fun v =>
  let '(found, c) := ext4_bcache_find_get lba (v_bc v) in (Ok found, v_on_bc (fun _ => c) v).

#[export] Instance cache_data : DataStore (bdev D) := {
  ds_get_direct a k := on_dev (ext4_blocks_get_direct a k);
  ds_find_get := find_get;
  ds_writebytes off p := on_dev (ext4_block_writebytes off p);
  ds_update_if_cached lba off p := v_on_bc (ext4_bcache_update_if_cached lba off p);
  ds_write_back := ext4_block_cache_write_back end_write;
  ds_cache_flush := ext4_block_cache_flush end_write;
  ds_flush_fn := match h_flush with Some m => Some (on_dev (on_host m)) | None => None end;
}.

Lemma is_dirty_bufs s s' x : bufs s' x = bufs s x -> bs_is_dirty x s' = bs_is_dirty x s.
Proof. cbn. unfold ext4_buf_lookup, bufs. by intros ->. Qed.

(** A step that a client cannot see. *)
Lemma abs_unseen n n' s s' c h p :
  cache_abs (ph := ph) bsz bcnt n s c h p -> quiet (ph := ph) s s' -> ready (ph := ph) n' s' ->
  (forall a, held s' a = held s a) -> (forall a, 0 < held s a -> rdata s' a = rdata s a) ->
  cache_abs (ph := ph) bsz bcnt n' s' c h p.
Proof.
  intros [A1 A2 A3 A4 A5 A6 A7] Q R Hh Hr. pose proof (dcfg_lg _ _ (q_cfg _ _ Q)) as [G1 G2].
  split; [done|congruence|congruence|..].
  - intros a. by rewrite Hh.
  - intros a. rewrite A5. unfold content. rewrite Hh, (q_view _ _ Q).
    destruct (Z.ltb_spec 0 (held s a)); [by rewrite Hr|done].
  - intros a. rewrite Hh. intros H0. by apply (q_sync _ _ Q), A6.
  - intros a Ha. destruct (A7 a Ha) as [Sy Sd]. split; [by apply (q_sync _ _ Q)|].
    rewrite Hh, (q_view _ _ Q). intros H. by rewrite Hr, Sd.
Qed.

(** A settled block whose buffer is not dirty is what the medium holds. *)
Lemma clean_content n s c h p a :
  cache_abs (ph := ph) bsz bcnt n s c h p -> a ∉ p -> bs_is_dirty a s = false -> c a = dblk (v_dev s) a.
Proof.
  intros A Ha Hd. rewrite (ca_cont _ _ _ _ _ _ _ A), settled_content by apply (ca_settled _ _ _ _ _ _ _ A a Ha).
  unfold view, bufs. cbn [bs_is_dirty the_store cache_store] in Hd. unfold ext4_buf_lookup in Hd.
  destruct (c_lba_root (v_bc s) !! a) as [b|]; [|done]. cbn [bview]. unfold drt. by rewrite Hd, andb_false_r.
Qed.

Lemma cache_get_direct n s c h p a k :
  cache_abs (ph := ph) bsz bcnt n s c h p -> 0 < k -> k * bsz < 2 ^ 32 -> 0 <= a -> a + k <= bcnt ->
  (forall i, 0 <= i < k -> a + i ∉ p) ->
  wp (ds_get_direct a k) s (fun r s' =>
    cache_abs (ph := ph) bsz bcnt n s' c h p /\ (forall x, bs_is_dirty x s' = bs_is_dirty x s) /\
    match r with
    | Ok d => blen d = k * bsz /\
        forall i, 0 <= i < k -> bs_is_dirty (a + i) s = false -> slice (i * bsz) bsz d = c (a + i)
    | Err rc => rc <> EOK
    end).
Proof.
  intros A Hk Hlt Ha Hle Hp. pose proof (ca_ready _ _ _ _ _ _ _ A) as [W Hs]. pose proof W as (W1 & W2 & W3).
  pose proof (ca_bsz _ _ _ _ _ _ _ A) as Eb. pose proof (ca_bcnt _ _ _ _ _ _ _ A) as Ec. cbn [ds_get_direct cache_data].
  apply wp_on_dev. eapply wp_mono; [apply (dev_get_run_wp (ph := ph)); try done; lia|]. cbv beta.
  intros r d' (C & B & R). set (s' := mk_bdev d' _ _).
  destruct (same_bc n s s' W) as (W' & [Q _] & Bf); try done.
  { intros x. by apply dblk_ext. }
  split; [|split].
  - eapply abs_unseen; [done|done|by split|intros x; apply held_bufs, Bf|intros x _; apply held_bufs, Bf].
  - intros x. by apply is_dirty_bufs.
  - destruct r as [x|rc]; [|done]. rewrite Eb in R. destruct R as [Hl R]. split; [done|]. intros i Hi Hd.
    rewrite R by done. symmetry. eapply clean_content; eauto.
Qed.

(** [ext4_block_set] leaves every other buffer as it is. *)
Lemma set_bufs_wp n s a :
  ready (ph := ph) n s -> 0 < held s a ->
  wp (ext4_block_set end_write a) s (fun r s' =>
    quiet (ph := ph) s s' /\ ready (ph := ph) n s' /\ held s' a = held s a - 1 /\
    (forall x, x <> a -> bufs s' x = bufs s x) /\ (1 < held s a -> rdata s' a = rdata s a)).
Proof.
  intros R Hh. pose proof R as [W Hs]. unfold ext4_block_set. apply wp_bind, wp_get. rewrite (ready_open n s R).
  assert (Hb : exists b, bufs s a = Some b /\ b_refctr b = held s a).
  { unfold held in *. destruct (bufs s a) as [b|]; [by exists b|lia]. }
  destruct Hb as (b & Hb & Hr).
  eapply wp_mono; [apply (bcache_free_wp end_write n s a b); try done; lia|]. cbv beta.
  intros r s' (_ & W' & Q & H1 & O & K & Hd & _). split_and!; [done|split; [done|by rewrite (q_shake _ _ Q)]|done|done|].
  intros. apply Hd. lia.
Qed.

Lemma cache_overlay n s c h p a d :
  cache_abs (ph := ph) bsz bcnt n s c h p -> n + 1 < 2 ^ 32 -> a ∉ p -> (bs_is_dirty a s = false -> d = c a) ->
  wp (overlay_dirty a d) s (fun r s' =>
    r = Ok (c a) /\ cache_abs (ph := ph) bsz bcnt (n + 1) s' c h p /\ forall x, x <> a -> bs_is_dirty x s' = bs_is_dirty x s).
Proof.
  intros A Hn Ha Hd. pose proof (ca_ready _ _ _ _ _ _ _ A) as [W Hs]. pose proof W as (W1 & W2 & W3).
  destruct (ca_settled _ _ _ _ _ _ _ A a Ha) as [Sy Sd].
  unfold overlay_dirty. apply wp_bind. unfold wp at 1. cbn [ds_find_get cache_data]. unfold find_get.
  destruct (bufs s a) as [b|] eqn:Hb.
  - destruct (find_get_shape n _ _ (v_bc s) a b W3 Hb Hn) as (E1 & E2 & E3 & _ & E5 & b' & E6 & E7 & E8 & E9).
    set (f := fun _ : bcache => snd (ext4_bcache_find_get a (v_bc s))).
    assert (Hu : utd b' = utd b) by (unfold utd, ext4_bcache_test_flag; by rewrite E7).
    assert (Hdr : drt b' = drt b) by (unfold drt, ext4_bcache_test_flag; by rewrite E7).
    destruct (bc_put n (n + 1) s f a (Some b') W) as (P1 & P2 & P3 & P4 & _ & _); try done.
    { unfold view. rewrite Hb. cbn [bview]. by rewrite Hu, Hdr, E8. }
    { unfold sync. rewrite Hb. cbn [bsync]. by rewrite Hu, Hdr, E8. }
    destruct (ext4_bcache_find_get a (v_bc s)) as [found c'] eqn:Ef. cbn in E1. subst found.
    change (v_on_bc (fun _ => c') s) with (v_on_bc f s). set (s1 := v_on_bc f s) in *.
    assert (R1 : ready (ph := ph) (n + 1) s1) by (split; [done|by rewrite <- Hs, <- E3]).
    assert (H1 : held s1 a = held s a + 1) by (unfold held; rewrite P3, Hb; done).
    pose proof (held_nonneg n s a W) as H0.
    apply wp_bind, wp_get. apply wp_bind, wp_try. cbn [bs_set the_store cache_store].
    eapply wp_mono; [apply (set_bufs_wp (n + 1) s1 a R1); lia|]. cbv beta.
    intros r s2 (Q2 & R2 & H2 & O2 & D2). apply wp_ok. split; [|split].
    + f_equal. cbn [bs_is_dirty bs_read the_store cache_store]. unfold ext4_buf_lookup.
      fold (bufs s1 a). rewrite P3. fold (drt b'). rewrite Hdr, E8. destruct (drt b) eqn:Ed.
      * rewrite (ca_cont _ _ _ _ _ _ _ A), settled_content by done. unfold view. rewrite Hb. cbn [bview].
        by rewrite Ed, (bo_utd _ _ _ _ _ _ (swf_buf n s a b W Hb) Ed).
      * apply Hd. cbn [bs_is_dirty the_store cache_store]. unfold ext4_buf_lookup. fold (bufs s a). by rewrite Hb.
    + eapply abs_unseen; [done|by eapply quiet_trans|done|..].
      * intros x. destruct (decide (x = a)) as [->|Hx]; [lia|].
        apply held_bufs. by rewrite O2, P4.
      * intros x Hx. destruct (decide (x = a)) as [->|Hne].
        -- rewrite D2 by lia. unfold rdata. by rewrite P3, Hb.
        -- apply held_bufs. by rewrite O2, P4.
    + intros x Hx. apply is_dirty_bufs. by rewrite O2, P4.
  - assert (Ef : ext4_bcache_find_get a (v_bc s) = (false, v_bc s)).
    { unfold ext4_bcache_find_get, ext4_buf_lookup. unfold bufs in Hb. by rewrite Hb. }
    rewrite Ef. wp_step. replace (v_on_bc _ s) with s by (by destruct s). split; [|split; [|done]].
    + f_equal. apply Hd. cbn [bs_is_dirty the_store cache_store]. unfold ext4_buf_lookup. fold (bufs s a). by rewrite Hb.
    + destruct A as [[A0 A1] A2 A2' A3 A4 A5 A6]. split; try done. split; [|done]. apply (swf_mono n); [done|lia].
Qed.

#[export] Instance cache_data_laws : DataStoreLaws (bdev D) bsz bcnt.
Proof.
  constructor.
  - apply cache_get_direct.
  - apply cache_overlay.
Qed.
End CacheData.
