(* ===== verification/Bridge.v ===== *)
(** * The bridge: state, transactions and reading

    Core/shim/ext4_bridge.c, the API the file system extension calls.  This file has
    its state, the batching of mutations into transactions, and the operations that
    only read; BridgeDir.v has the ones on names, BridgeData.v the ones on file data.

    A local variable [struct ext4_inode_ref] of an operation is a [ref_var]: its
    references live in the state, so that one that is copied or given back twice is
    so in the model too.  The null tests of arguments, logging, meters and the checks
    for concurrent entry are left out. *)

From stdpp Require Import strings.
From S2P Require Import Prelude Layout Types Bitmap Crc Super BlockGroup Inode Store Group Fs Data.
From S2P Require Import ExtNode Extent DirBlock Balloc ExtTree ExtRemove Imap InodeOps DirIdx Dir.

Definition EPERM : Z := 1.
Definition EBUSY : Z := 16.
Definition EEXIST : Z := 17.
Definition ENODEV : Z := 19.
Definition EISDIR : Z := 21.
Definition EFBIG : Z := 27.
Definition EROFS : Z := 30.
Definition ENOTEMPTY : Z := 39.
Definition ENAMETOOLONG : Z := 63.

Definition EXT4B_RESERVE_SLOTS : nat := 8.
Definition BRIDGE_TXN_BATCH : Z := 64.

Inductive ref_var := Ref | Parent | Dp | Child | Victim.
#[export] Instance ref_var_dec : EqDecision ref_var.
Proof. solve_decision. Defined.

Definition ino_crtime : field := Eval vm_compute in field_of ext4_inode_layout "crtime"%string.
Definition ino_crtime_extra : field := Eval vm_compute in field_of ext4_inode_layout "crtime_extra"%string.
Definition ino_atime_extra : field := Eval vm_compute in field_of ext4_inode_layout "atime_extra"%string.
Definition ino_mtime_extra : field := Eval vm_compute in field_of ext4_inode_layout "mtime_extra"%string.
Definition ino_ctime_extra : field := Eval vm_compute in field_of ext4_inode_layout "ctime_extra"%string.
Definition sb_reserved_blocks_count_lo : field := Eval vm_compute in field_of ext4_sblock_layout "reserved_blocks_count_lo"%string.
Definition sb_reserved_blocks_count_hi : field := Eval vm_compute in field_of ext4_sblock_layout "reserved_blocks_count_hi"%string.

(** One slot of [resv]: inode 0 is a free one. *)
Record resv_slot := mk_slot { rs_inode : Z; rs_end_lblk : Z }.

(** The calls on the journal that open and close a transaction, and whether a commit
    succeeded. *)
Inductive tx_call := TxNew | TxCommit (ok : bool) | TxFree.

(** [struct ext4b_device], with [fs->jbd_journal] and [fs->curr_trans] as null tests.
    [b_calls] is not in the code: the calls made so far, newest first, which the
    theorems speak of and nothing reads. *)
Record bridge (St : Type) := mk_bridge {
  b_fs : fsys St;
  b_refs : ref_var -> inode_ref;
  b_read_only : bool;
  b_mounted : bool;
  b_journal_running : bool;
  b_jbd_journal : bool;
  b_curr_trans : bool;
  b_txn_ops : Z;
  b_txn_batch : Z;
  b_resv : list resv_slot;
  b_resv_next : Z;
  b_calls : list tx_call;
}.
Arguments mk_bridge {St}. Arguments b_fs {St}. Arguments b_refs {St}. Arguments b_read_only {St}.
Arguments b_mounted {St}. Arguments b_journal_running {St}. Arguments b_jbd_journal {St}. Arguments b_curr_trans {St}.
Arguments b_txn_ops {St}. Arguments b_txn_batch {St}. Arguments b_resv {St}. Arguments b_resv_next {St}. Arguments b_calls {St}.

Definition rc_of {A} (r : result A) : Z := match r with Ok _ => EOK | Err rc => rc end.
Definition ret_rc {S} (rc : Z) : M S unit := if rc =? EOK then mok tt else mfail rc.

Inductive ext4b_item_type :=
  EXT4B_TYPE_UNKNOWN | EXT4B_TYPE_FILE | EXT4B_TYPE_DIR | EXT4B_TYPE_SYMLINK | EXT4B_TYPE_FIFO |
  EXT4B_TYPE_CHARDEV | EXT4B_TYPE_BLOCKDEV | EXT4B_TYPE_SOCKET.
#[export] Instance ext4b_item_type_dec : EqDecision ext4b_item_type.
Proof. solve_decision. Defined.

Section Bridge.
Context {St : Type} {BS : BlockStore St} {DS : DataStore St} {TX : TxStore St}.
Local Abbreviation fsys := (fsys St).
Local Abbreviation bridge := (bridge St).

Definition b_set_fs (f : fsys) (b : bridge) : bridge :=
  mk_bridge f (b_refs b) (b_read_only b) (b_mounted b) (b_journal_running b) (b_jbd_journal b) (b_curr_trans b)
    (b_txn_ops b) (b_txn_batch b) (b_resv b) (b_resv_next b) (b_calls b).
Definition b_set_ref (v : ref_var) (r : inode_ref) (b : bridge) : bridge :=
  mk_bridge (b_fs b) (fun w => if decide (w = v) then r else b_refs b w) (b_read_only b) (b_mounted b)
    (b_journal_running b) (b_jbd_journal b) (b_curr_trans b) (b_txn_ops b) (b_txn_batch b) (b_resv b) (b_resv_next b) (b_calls b).
Definition b_set_curr (t : bool) (b : bridge) : bridge :=
  mk_bridge (b_fs b) (b_refs b) (b_read_only b) (b_mounted b) (b_journal_running b) (b_jbd_journal b) t
    (b_txn_ops b) (b_txn_batch b) (b_resv b) (b_resv_next b) (b_calls b).
Definition b_set_ops (n : Z) (b : bridge) : bridge :=
  mk_bridge (b_fs b) (b_refs b) (b_read_only b) (b_mounted b) (b_journal_running b) (b_jbd_journal b) (b_curr_trans b)
    n (b_txn_batch b) (b_resv b) (b_resv_next b) (b_calls b).
Definition b_set_batch (n : Z) (b : bridge) : bridge :=
  mk_bridge (b_fs b) (b_refs b) (b_read_only b) (b_mounted b) (b_journal_running b) (b_jbd_journal b) (b_curr_trans b)
    (b_txn_ops b) n (b_resv b) (b_resv_next b) (b_calls b).
Definition b_set_resv (l : list resv_slot) (n : Z) (b : bridge) : bridge :=
  mk_bridge (b_fs b) (b_refs b) (b_read_only b) (b_mounted b) (b_journal_running b) (b_jbd_journal b) (b_curr_trans b)
    (b_txn_ops b) (b_txn_batch b) l n (b_calls b).
Definition b_log (c : tx_call) (b : bridge) : bridge :=
  mk_bridge (b_fs b) (b_refs b) (b_read_only b) (b_mounted b) (b_journal_running b) (b_jbd_journal b) (b_curr_trans b)
    (b_txn_ops b) (b_txn_batch b) (b_resv b) (b_resv_next b) (c :: b_calls b).

Definition on_fs {A} (m : M fsys A) : M bridge A := fun b =>
  let '(r, f) := m (b_fs b) in (r, b_set_fs f b).
Definition on_store {A} (m : M St A) : M bridge A := on_fs (on_st m).
(** [m] on the inode reference [v]. *)
Definition at_ {A} (v : ref_var) (m : M fsys A) : M bridge A := fun b =>
  let '(r, f) := m (f_set_iref (b_refs b v) (b_fs b)) in (r, b_set_ref v (f_iref f) (b_set_fs f b)).
Definition get_ref (v : ref_var) (index : Z) : M bridge unit := at_ v (ext4_fs_get_inode_ref index).
Definition put_ref (v : ref_var) : M bridge unit := mtry (at_ v ext4_fs_put_inode_ref);;; mok tt.
(** [v] held while [m] runs: every way out of it gives the reference back. *)
Definition with_ref {A} (v : ref_var) (index : Z) (m : M bridge A) : M bridge A :=
  get_ref v index;;;
  finally m (put_ref v).
Definition ref_clean (v : ref_var) : M bridge unit := mmod (fun b =>
  let r := b_refs b v in b_set_ref v (mk_inode_ref (ir_block r) (ir_off r) (ir_index r) false) b).
Definition the_sb : M bridge (list Z) := mget (fun b => f_sb (b_fs b)).
Definition mod_sb (g : list Z -> list Z) : M bridge unit := mmod (fun b => b_set_fs (f_set_sb (g (f_sb (b_fs b))) (b_fs b)) b).
Definition ref_index (v : ref_var) : M bridge Z := mget (fun b => ir_index (b_refs b v)).

(** ** Entering *)

Definition mounted_or (rc : Z) : M bridge unit := m <- mget b_mounted;; if (m : bool) then mok tt else mfail rc.
Definition mounted : M bridge unit := mounted_or EINVAL.
Definition write_prologue : M bridge unit :=
  mounted;;;
  ro <- mget b_read_only;;
  if (ro : bool) then mfail EROFS else mok tt.
Definition ext4b_is_writable (b : bridge) : bool := b_mounted b && negb (b_read_only b).
Definition ext4b_set_txn_batch (batch : Z) : M bridge unit :=
  let batch := if batch <? 1 then 1 else batch in
  let batch := if 1024 <? batch then 1024 else batch in
  mmod (b_set_batch batch).

(** ** Transactions *)

Definition txn_begin : M bridge unit :=
  j <- mget b_jbd_journal;;
  t <- mget b_curr_trans;;
  if j && negb t then
    r <- mtry (on_store tx_new);;
    match r with
    | Err _ => mfail ENOMEM
    | Ok _ => mmod (b_log TxNew);;; mmod (b_set_curr true)
    end
  else mok tt.
Definition txn_commit : M bridge unit :=
  j <- mget b_jbd_journal;;
  t <- mget b_curr_trans;;
  if j && t then
    r <- mtry (on_store tx_commit);;
    mmod (b_log (TxCommit (match r with Ok _ => true | Err _ => false end)));;;
    mmod (b_set_curr false);;;
    lift_result r
  else mok tt.
Definition txn_abort : M bridge unit :=
  j <- mget b_jbd_journal;;
  t <- mget b_curr_trans;;
  if j && t then
    mmod (fun b => b_set_fs (f_set_st (tx_free (f_st (b_fs b))) (b_fs b)) b);;;
    mmod (b_log TxFree);;;
    mmod (b_set_curr false)
  else mok tt.

(** What the open transaction dirtied, against the journal and what its ring has
    left. *)
Definition journal_is_short (data_cnt maxlen first last start : Z) : bool :=
  let data_cnt := u32 data_cnt in
  (negb (maxlen =? 0) && (maxlen / 4 <? data_cnt)) ||
  ((first <? maxlen) &&
   let ring := maxlen - first in
   let used := u32 (u32 (last + ring) - start) mod ring in
   let free_blocks := ring - used in
   (free_blocks / 2 <? data_cnt)).
Definition txn_must_commit (b : bridge) : bool :=
  (b_txn_batch b <=? b_txn_ops b) ||
  (b_jbd_journal b && b_curr_trans b &&
   let s := f_st (b_fs b) in
   journal_is_short (tx_data_cnt s) (tx_maxlen s) (tx_first s) (tx_last s) (tx_start s)).

Definition host_flush : M bridge unit :=
  match ds_flush_fn with
  | None => mok tt
  | Some m => on_store m
  end.
(** The mutation ended with [r]. *)
Definition txn_finish (r : Z) : M bridge unit :=
  if negb (r =? EOK) then
    ops <- mget b_txn_ops;;
    if ops =? 0 then txn_abort;;; mfail r
    else
      cr <- mtry txn_commit;;
      mmod (b_set_ops 0);;;
      mfail (match cr with Ok _ => r | Err cr => cr end)
  else
    mmod (fun b => b_set_ops (u32 (b_txn_ops b + 1)) b);;;
    must <- mget txn_must_commit;;
    if negb must then mok tt
    else
      r <- mtry txn_commit;;
      mmod (b_set_ops 0);;;
      match r with
      | Err rc => mfail rc
      | Ok _ =>
          on_store ds_cache_flush;;;
          running <- mget b_journal_running;;
          if (running : bool) then mok tt
          else
            r <- mtry host_flush;;
            match r with Ok _ => mok tt | Err _ => mfail EIO end
      end.
Definition txn_drain : M bridge unit :=
  ops <- mget b_txn_ops;;
  if ops =? 0 then mok tt
  else
    r <- mtry txn_commit;;
    mmod (b_set_ops 0);;;
    lift_result r;;;
    on_store ds_cache_flush.
(** [r = txn_begin(fs); ...; return txn_finish(dev, fs, r)]. *)
Definition in_txn {A} (m : M bridge A) : M bridge A :=
  txn_begin;;;
  r <- mtry m;;
  txn_finish (rc_of r);;;
  lift_result r.

Definition ext4b_sync : M bridge unit :=
  mounted;;;
  txn_drain;;;
  on_store ds_cache_flush;;;
  host_flush.

(** ** Attributes *)

Definition type_from_mode (mode : Z) : ext4b_item_type :=
  let t := Z.land mode EXT4_INODE_MODE_TYPE_MASK in
  if t =? EXT4_INODE_MODE_FILE then EXT4B_TYPE_FILE
  else if t =? EXT4_INODE_MODE_DIRECTORY then EXT4B_TYPE_DIR
  else if t =? EXT4_INODE_MODE_SOFTLINK then EXT4B_TYPE_SYMLINK
  else if t =? EXT4_INODE_MODE_FIFO then EXT4B_TYPE_FIFO
  else if t =? EXT4_INODE_MODE_CHARDEV then EXT4B_TYPE_CHARDEV
  else if t =? EXT4_INODE_MODE_BLOCKDEV then EXT4B_TYPE_BLOCKDEV
  else if t =? EXT4_INODE_MODE_SOCKET then EXT4B_TYPE_SOCKET
  else EXT4B_TYPE_UNKNOWN.
Definition nsec_from_extra (extra : Z) : Z := Z.shiftr extra 2.

Record ext4b_attrs := mk_attrs {
  at_inode : Z;
  at_type : ext4b_item_type;
  at_mode : Z;
  at_uid : Z;
  at_gid : Z;
  at_link_count : Z;
  at_size : Z;
  at_alloc_size : Z;
  at_flags : Z;
  at_atime : Z; at_mtime : Z; at_ctime : Z; at_crtime : Z;
  at_atime_ns : Z; at_mtime_ns : Z; at_ctime_ns : Z; at_crtime_ns : Z;
  at_uses_extents : bool;
  at_inline_data : bool;
}.
(** The attributes of the inode at byte [p]. *)
Definition attrs_of (sb : list Z) (inode p : Z) (b : list Z) : ext4b_attrs :=
  let mode := ext4_inode_get_mode sb p b in
  let flags := ext4_inode_get_flags p b in
  let wide := 24 <=? ext4_inode_get_extra_isize sb p b in
  let ns f := if wide then nsec_from_extra (rd f p b) else 0 in
  let mtime := ext4_inode_get_modif_time p b in
  mk_attrs inode (type_from_mode mode) (Z.land mode 0x0FFF) (ext4_inode_get_uid p b) (ext4_inode_get_gid p b)
    (ext4_inode_get_links_cnt p b) (ext4_inode_get_size sb p b) (u64 (ext4_inode_get_blocks_count sb p b * 512)) flags
    (ext4_inode_get_access_time p b) mtime (ext4_inode_get_change_inode_time p b)
    (if wide then rd ino_crtime p b else mtime)
    (ns ino_atime_extra) (ns ino_mtime_extra) (ns ino_ctime_extra) (ns ino_crtime_extra)
    (ext4_inode_has_flag p b EXT4_INODE_FLAG_EXTENTS) (has_bits flags 0x10000000).
Definition ext4b_getattr (inode : Z) : M bridge ext4b_attrs :=
  mounted;;;
  if inode =? 0 then mfail EINVAL
  else
    with_ref Ref inode
      (sb <- the_sb;;
       at_ Ref (on_inode (attrs_of sb inode))).

(** ** Directories *)

Definition type_from_dirent (ftype : Z) : ext4b_item_type :=
  if ftype =? 1 then EXT4B_TYPE_FILE
  else if ftype =? 2 then EXT4B_TYPE_DIR
  else if ftype =? 3 then EXT4B_TYPE_CHARDEV
  else if ftype =? 4 then EXT4B_TYPE_BLOCKDEV
  else if ftype =? 5 then EXT4B_TYPE_FIFO
  else if ftype =? 6 then EXT4B_TYPE_SOCKET
  else if ftype =? 7 then EXT4B_TYPE_SYMLINK
  else EXT4B_TYPE_UNKNOWN.
Definition ref_is_type (v : ref_var) (type : Z) : M bridge bool :=
  sb <- the_sb;;
  at_ v (on_inode (fun p b => ext4_inode_is_type sb p b type)).

Section Names.
Context (stack : list Z).

Definition ext4b_lookup (dir_inode : Z) (name : list Z) : M bridge (option (Z * ext4b_item_type)) :=
  mounted;;;
  if (blen name =? 0) || (255 <? blen name) then mfail ENAMETOOLONG
  else
    with_ref Ref dir_inode
      (is_dir <- ref_is_type Ref EXT4_INODE_MODE_DIRECTORY;;
       if negb is_dir then mfail ENOTDIR
       else
         result <-? at_ Ref (ext4_dir_find_entry stack name);;
         sb <- the_sb;;
         b <- on_fs (data (fst result));;
         let inode := ext4_dir_en_get_inode (snd result) b in
         let type := type_from_dirent (ext4_dir_en_get_inode_type sb (snd result) b) in
         mtry (at_ Ref (ext4_dir_destroy_result result));;;
         mok (Some (inode, type))).
End Names.

(** What the callback of [ext4b_readdir] is given. *)
Record dirent := mk_dirent { dn_name : list Z; dn_inode : Z; dn_type : ext4b_item_type; dn_cookie : Z }.

(** [while (it.curr != NULL)]: [cb] says whether to go on.  The error code, the
    entries given out, and the iterator. *)
Fixpoint readdir_loop (fuel : nat) (cb : dirent -> bool) (it : dir_iter) : M bridge (Z * list dirent * dir_iter) :=
  match fuel, it_curr it with
  | S fuel, Some de =>
      sb <- the_sb;;
      b <- on_fs (data (it_blk it));;
      let ino := ext4_dir_en_get_inode de b in
      let nlen := ext4_dir_en_get_name_len sb de b in
      let ftype := ext4_dir_en_get_inode_type sb de b in
      let name := slice (de + 8) nlen b in
      let* (r, it) := at_ Ref (ext4_dir_iterator_next it) in
      if negb (r =? EOK) then mok (r, [], it)
      else if (ino =? 0) || (255 <? nlen) then readdir_loop fuel cb it
      else
        let e := mk_dirent name ino (type_from_dirent ftype) (it_off it) in
        if negb (cb e) then mok (EOK, [e], it)
        else
          let* (r, l, it) := readdir_loop fuel cb it in
          mok (r, e :: l, it)
  | _, _ => mok (EOK, [], it)
  end.
(** An entry takes 8 bytes or more, so there are fewer turns than bytes. *)
Definition ext4b_readdir (dir_inode cookie : Z) (cb : dirent -> bool) : M bridge (Z * list dirent) :=
  mounted;;;
  with_ref Ref dir_inode
    (is_dir <- ref_is_type Ref EXT4_INODE_MODE_DIRECTORY;;
     if negb is_dir then mfail ENOTDIR
     else
       let* (r, it) := at_ Ref (ext4_dir_iterator_init cookie) in
       if negb (r =? EOK) then mfail r
       else
         sb <- the_sb;;
         size <- at_ Ref (on_inode (ext4_inode_get_size sb));;
         let* (r, l, it) := readdir_loop (S (Z.to_nat size)) cb it in
         mtry (at_ Ref (ext4_dir_iterator_fini it));;;
         mok (r, l)).

(** ** Data *)

(** [while ((run + 1) * bsize <= remaining)]: how far the mapping goes on from block
    [fblk]. *)
Fixpoint extend_run (fuel : nat) (run bsize remaining lblk fblk : Z) : M bridge Z :=
  match fuel with
  | O => mok run
  | S fuel =>
      if remaining <? (run + 1) * bsize then mok run
      else
        next <- mtry (at_ Ref (ext4_fs_get_inode_dblk_idx (u32 (lblk + run)) true));;
        match next with
        | Err _ => mok run
        | Ok next =>
            if negb (next =? u64 (fblk + run)) then mok run
            else extend_run fuel (run + 1) bsize remaining lblk fblk
        end
  end.
(** [for (i = 0; i < run; i++)]: the dirty buffers over what was read. *)
Fixpoint overlay_run (n : nat) (bsize fblk : Z) (d : list Z) : M bridge (list Z) :=
  match n with
  | O => mok []
  | S n =>
      x <- on_store (overlay_dirty fblk (slice 0 bsize d));;
      rest <- overlay_run n bsize (u64 (fblk + 1)) (drop (Z.to_nat bsize) d);;
      mok (x ++ rest)
  end.
(** One turn of the loop: the bytes it puts at [dst]. *)
Definition read_chunk (bsize offset remaining : Z) : M bridge (list Z) :=
  let lblk := u32 (offset / bsize) in
  let in_blk_off := u32 (offset mod bsize) in
  let chunk := if remaining <? bsize - in_blk_off then remaining else bsize - in_blk_off in
  fblk <- at_ Ref (ext4_fs_get_inode_dblk_idx lblk true);;
  if (in_blk_off =? 0) && (chunk =? bsize) && negb (fblk =? 0) then
    run <- extend_run (Z.to_nat (remaining / bsize)) 1 bsize remaining lblk fblk;;
    d <- on_store (ds_get_direct fblk run);;
    x <- overlay_run (Z.to_nat run) bsize fblk d;;
    mok (slice 0 (u32 (run * bsize)) x)
  else if fblk =? 0 then mok (replicate (Z.to_nat chunk) 0)
  else
    on_store (bs_get fblk);;;
    b <- on_fs (data fblk);;
    mtry (on_store (bs_set fblk));;;
    mok (slice in_blk_off chunk b).
(** [while (remaining > 0)]: every turn but the first and the last reads a block or
    more.  The error code, and the bytes read. *)
Fixpoint read_loop (fuel : nat) (bsize offset remaining : Z) : M bridge (Z * list Z) :=
  match fuel with
  | O => mok (EOK, [])
  | S fuel =>
      if remaining =? 0 then mok (EOK, [])
      else
        r <- mtry (read_chunk bsize offset remaining);;
        match r with
        | Err rc => mok (rc, [])
        | Ok x =>
            let* (rc, rest) := read_loop fuel bsize (u64 (offset + blen x)) (remaining - blen x) in
            mok (rc, x ++ rest)
        end
  end.
Definition ext4b_read (inode offset count : Z) : M bridge (Z * list Z) :=
  mounted;;;
  if count =? 0 then mok (EOK, [])
  else
    with_ref Ref inode
      (sb <- the_sb;;
       size <- at_ Ref (on_inode (ext4_inode_get_size sb));;
       if size <=? offset then mok (EOK, [])
       else
         let count := if size <? u64 (offset + count) then size - offset else count in
         let bsize := ext4_sb_get_block_size sb in
         read_loop (Z.to_nat (count / bsize) + 2) bsize offset count).

Definition ext4b_readlink (inode buf_size : Z) : M bridge (list Z) :=
  mounted;;;
  if buf_size =? 0 then mfail EINVAL
  else
    target <- with_ref Ref inode
      (is_link <- ref_is_type Ref EXT4_INODE_MODE_SOFTLINK;;
       if negb is_link then mfail EINVAL
       else
         sb <- the_sb;;
         size <- at_ Ref (on_inode (ext4_inode_get_size sb));;
         if buf_size <=? size then mfail ENAMETOOLONG
         else if size <? f_size ino_blocks then
           s <- at_ Ref (on_inode (fun p => slice (p + f_off ino_blocks) size));;
           mok (inl s)
         else mok (inr size));;
    match target with
    | inl s => mok s
    | inr size =>
        let* (rc, s) := ext4b_read inode 0 size in
        if rc =? EOK then mok s else mfail rc
    end.

(** ** Extents *)

Record ext4b_extent := mk_bextent {
  xt_logical_offset : Z; xt_physical_offset : Z; xt_length : Z; xt_is_hole : bool; xt_is_unwritten : bool;
}.
(** [while (lblk <= end_lblk && n < max_extents)] of an inode with extents. *)
Fixpoint map_by_probe (max_extents : nat) (bsize lblk end_lblk : Z) : M bridge (Z * list ext4b_extent) :=
  match max_extents with
  | O => mok (EOK, [])
  | S max_extents =>
      if end_lblk <? lblk then mok (EOK, [])
      else
        r <- mtry (at_ Ref (ext4_extent_probe lblk));;
        match r with
        | Err rc => mok (rc, [])
        | Ok (fblk, run, unwr) =>
            if (fblk =? 0) && (run =? 0) then mok (EOK, [])
            else
              let run := if u32 (end_lblk - lblk + 1) <? run then u32 (end_lblk - lblk + 1) else run in
              let* (rc, l) := map_by_probe max_extents bsize (u32 (lblk + run)) end_lblk in
              mok (rc, mk_bextent (lblk * bsize) (u64 (fblk * bsize)) (run * bsize) (fblk =? 0) unwr :: l)
        end
  end.
(** [while (lblk + run <= end_lblk)]. *)
Fixpoint map_run (fuel : nat) (run lblk end_lblk fblk : Z) : M bridge Z :=
  match fuel with
  | O => mok run
  | S fuel =>
      if end_lblk <? u32 (lblk + run) then mok run
      else
        next <- mtry (at_ Ref (ext4_fs_get_inode_dblk_idx (u32 (lblk + run)) true));;
        match next with
        | Err _ => mok run
        | Ok next =>
            if negb (if fblk =? 0 then next =? 0 else next =? u64 (fblk + run)) then mok run
            else map_run fuel (run + 1) lblk end_lblk fblk
        end
  end.
Fixpoint map_by_index (max_extents : nat) (bsize lblk end_lblk : Z) : M bridge (Z * list ext4b_extent) :=
  match max_extents with
  | O => mok (EOK, [])
  | S max_extents =>
      if end_lblk <? lblk then mok (EOK, [])
      else
        r <- mtry (at_ Ref (ext4_fs_get_inode_dblk_idx lblk true));;
        match r with
        | Err rc => mok (rc, [])
        | Ok fblk =>
            run <- map_run (Z.to_nat (end_lblk - lblk)) 1 lblk end_lblk fblk;;
            let* (rc, l) := map_by_index max_extents bsize (u32 (lblk + run)) end_lblk in
            mok (rc, mk_bextent (lblk * bsize) (u64 (fblk * bsize)) (run * bsize) (fblk =? 0) false :: l)
        end
  end.
Definition ext4b_map_extents (inode offset length max_extents : Z) : M bridge (Z * list ext4b_extent) :=
  mounted;;;
  if max_extents =? 0 then mfail EINVAL
  else if length =? 0 then mok (EOK, [])
  else
    with_ref Ref inode
      (sb <- the_sb;;
       fsize <- at_ Ref (on_inode (ext4_inode_get_size sb));;
       extents <- at_ Ref (on_inode (fun p b => ext4_inode_has_flag p b EXT4_INODE_FLAG_EXTENTS));;
       let bsize := ext4_sb_get_block_size sb in
       if (extents : bool) then
         map_by_probe (Z.to_nat max_extents) bsize (u32 (offset / bsize)) (u32 (u64 (offset + length - 1) / bsize))
       else if fsize <=? offset then mok (EOK, [])
       else
         let length := if fsize <? u64 (offset + length) then fsize - offset else length in
         map_by_index (Z.to_nat max_extents) bsize (u32 (offset / bsize)) (u32 (u64 (offset + length - 1) / bsize))).

(** ** The volume *)

Record ext4b_statfs_info := mk_statfs {
  sf_total_blocks : Z; sf_free_blocks : Z; sf_avail_blocks : Z; sf_block_size : Z; sf_total_inodes : Z; sf_free_inodes : Z;
}.
Definition statfs_of (sb : list Z) : ext4b_statfs_info :=
  let total := ext4_sb_get_blocks_cnt sb in
  let free := ext4_sb_get_free_blocks_cnt sb in
  let free := if total <? free then total else free in
  let total_inodes := sb_get sb_inodes_count sb in
  let free_inodes := sb_get sb_free_inodes_count sb in
  let free_inodes := if total_inodes <? free_inodes then total_inodes else free_inodes in
  let reserved := sb_get sb_reserved_blocks_count_lo sb in
  let reserved :=
    if has_bits (sb_get sb_features_incompatible sb) EXT4_FINCOM_64BIT
    then Z.lor reserved (u64 (Z.shiftl (sb_get sb_reserved_blocks_count_hi sb) 32)) else reserved in
  mk_statfs total free (if reserved <? free then free - reserved else 0) (ext4_sb_get_block_size sb) total_inodes free_inodes.
Definition ext4b_statfs : M bridge ext4b_statfs_info :=
  mounted;;;
  sb <- the_sb;;
  mok (statfs_of sb).

Record ext4b_group_info := mk_group_info {
  gi_index : Z; gi_blocks : Z; gi_free_blocks : Z; gi_block_uninit : bool; gi_inode_uninit : bool;
}.
Definition bridge_read_group_info (i : Z) : M bridge ext4b_group_info :=
  sb <- the_sb;;
  if ext4_sb_feature_incom sb EXT4_FINCOM_META_BG then mfail ENOTSUP
  else
    let bsize := ext4_sb_get_block_size sb in
    let dsc_size := ext4_sb_get_desc_size sb in
    let dsc_cnt := bsize / dsc_size in
    let block_id := u32 (u32 (sb_get sb_first_data_block sb + i / dsc_cnt) + 1) in
    let offset := i mod dsc_cnt * dsc_size in
    r <- mtry (on_store (bs_get block_id));;
    match r with
    | Err _ => mfail EIO
    | Ok _ =>
        b <- on_fs (data block_id);;
        let out := mk_group_info i (ext4_blocks_in_group_cnt sb i) (ext4_bg_get_free_blocks_count offset b sb)
          (ext4_bg_has_flag offset b EXT4_BLOCK_GROUP_BLOCK_UNINIT) (ext4_bg_has_flag offset b EXT4_BLOCK_GROUP_INODE_UNINIT) in
        r <- mtry (on_store (bs_set block_id));;
        match r with
        | Err _ => mfail EIO
        | Ok _ => mok out
        end
    end.
(** [for (i = first; i < groups && n < max; i++, n++)]. *)
Fixpoint group_stats_loop (max : nat) (groups i : Z) : M bridge (list ext4b_group_info) :=
  match max with
  | O => mok []
  | S max =>
      if groups <=? i then mok []
      else
        g <- bridge_read_group_info i;;
        l <- group_stats_loop max groups (i + 1);;
        mok (g :: l)
  end.
Definition ext4b_group_stats (first max : Z) : M bridge (list ext4b_group_info) :=
  mounted_or ENODEV;;;
  sb <- the_sb;;
  group_stats_loop (Z.to_nat max) (ext4_block_group_cnt sb) first.
Definition ext4b_group_count : M bridge Z :=
  mounted_or ENODEV;;;
  sb <- the_sb;;
  if ext4_sb_feature_incom sb EXT4_FINCOM_META_BG then mfail ENOTSUP else mok (ext4_block_group_cnt sb).
Definition ext4b_free_blocks_raw : M bridge (Z * Z) :=
  mounted_or ENODEV;;;
  sb <- the_sb;;
  mok (ext4_sb_get_free_blocks_cnt sb, ext4_sb_get_blocks_cnt sb).

(** The field is as wide as the longest label. *)
Definition ext4b_set_label (label : list Z) : M bridge unit :=
  mounted;;;
  ro <- mget b_read_only;;
  if (ro : bool) then mfail EROFS
  else if f_size sb_volume_name <? blen label then mfail ENAMETOOLONG
  else
    mod_sb (fun sb => memcpy_at (f_off sb_volume_name) label (memset_at (f_off sb_volume_name) 0 (f_size sb_volume_name) sb));;;
    sb <- the_sb;;
    mod_sb ext4_sb_set_csum;;;
    on_store (bs_sb_write sb);;;
    host_flush.
End Bridge.
