(* ===== verification/BridgeRead.v ===== *)
(** * Reading through the bridge

    What [ext4b_read] and [ext4b_lookup] (Core/shim/ext4_bridge.c) answer, in terms of
    the volume's contents: the bytes of the file, and the inode its directory has for
    a name. *)

From S2P Require Import Prelude Layout Types Super BlockGroup Inode Store Group Fs FsSpec.
From S2P Require Import Device Bcache CacheSpec CacheProps Sample.
From S2P Require Import Extent ExtTree Imap ImapSpec DirBlock DirLaws DirSpec DirIdx Dir DirWalk Data Bridge.

(** Where inode [index] is, on a volume with contents [c]. *)
Definition inode_at (sb : list Z) (c : Z -> list Z) (index : Z) : inode_ref :=
  let i := u32 (index - 1) in
  let g := i / sb_get sb_inodes_per_group sb in
  let table := ext4_bg_get_inode_table_first_block (desc_off sb g) (c (desc_blk sb g)) sb in
  let byte := u32 ((i mod sb_get sb_inodes_per_group sb) * sb_get sb_inode_size sb) in
  mk_inode_ref (u64 (table + byte / ext4_sb_get_block_size sb)) (byte mod ext4_sb_get_block_size sb) (u32 (i + 1)) false.
Definition inode_group (sb : list Z) (index : Z) : Z := u32 (index - 1) / sb_get sb_inodes_per_group sb.

Section InodeRef.
Context {St : Type} {BS : BlockStore St} {bsz : Z} {BL : BlockStoreLaws St bsz}.
Context (n : Z) (f : fsys St) (sb : list Z) (ir : inode_ref) (li : Z) (c : Z -> list Z) (h : Z -> Z).
Context (A : fabs (bsz := bsz) n f sb ir li c h ∅) (Hn : n + 2 < 2 ^ 32) (index : Z).
Context (Hg : group_ready sb (inode_group sb index) (c (desc_blk sb (inode_group sb index))) = true).

Lemma get_inode_ref_wp :
  let i := inode_at sb c index in
  wp (ext4_fs_get_inode_ref index) f (fun r f' =>
    match r with
    | Ok _ => fabs (bsz := bsz) (n + 2) f' sb i li c (fupd (ir_block i) (h (ir_block i) + 1) h) ∅
    | Err rc => clean_err (St := St) rc /\ fabs (bsz := bsz) (n + 2) f' sb ir li c h ∅
    end).
Proof.
  intros i. set (g := inode_group sb index) in *. pose proof (fabs_held _ _ _ _ _ _ _ _ A (desc_blk sb g)) as Hh.
  unfold ext4_fs_get_inode_ref. fs_step. fs_step. fs_step. change (_ / sb_get sb_inodes_per_group sb) with g.
  eapply wp_mono; [by apply (get_ref_wp n f sb ir li c h ∅ A g); [lia|apply not_elem_of_empty|]|].
  intros [r|rc] f1; cbv beta iota.
  2: { intros [Hrc A1]. split; [done|]. eapply fabs_weaken; [exact A1|lia|done..]. }
  intros (-> & _ & A1). set (h1 := fupd _ _ h) in A1.
  assert (H1 : 0 < h1 (desc_blk sb g)) by (unfold h1; rewrite fupd_eq; lia).
  fs_step. fs_step; [done|]. fs_step.
  eapply wp_mono; [by apply (put_clean_wp _ f1 sb ir li c h1 ∅ A1 (group_ref sb g)); [| |apply not_elem_of_empty]|].
  intros r f2 [-> A2]. cbv beta iota. cbn [br_block group_ref br_off] in *.
  assert (A3 : fabs (bsz := bsz) (n + 1) f2 sb ir li c h ∅).
  { eapply fabs_weaken; [exact A2|lia|done| |done]. intros y. symmetry. apply fupd_restore. }
  fs_step. fs_step; [lia|apply u64_range|apply not_elem_of_empty| |].
  - intros f3 _ A4. cbv beta iota. apply wp_mod. replace (n + 2) with (n + 1 + 1) by lia. exact (fabs_set_iref _ _ _ _ _ _ _ _ A4 i).
  - intros rc f3 Hrc A4. split; [done|]. by replace (n + 2) with (n + 1 + 1) by lia.
Qed.
End InodeRef.

(** ** Steps of the bridge *)

Section Steps.
Context {St : Type} {BS : BlockStore St}.
Local Abbreviation bridge := (bridge St).

Lemma wp_at {A} v (m : M (fsys St) A) (b : bridge) (Q : result A -> bridge -> Prop) :
  wp m (f_set_iref (b_refs b v) (b_fs b)) (fun r f' => Q r (b_set_ref v (f_iref f') (b_set_fs f' b))) -> wp (at_ v m) b Q.
Proof. unfold wp, at_. by destruct (m _). Qed.
Lemma wp_on_fs {A} (m : M (fsys St) A) (b : bridge) (Q : result A -> bridge -> Prop) :
  wp m (b_fs b) (fun r f' => Q r (b_set_fs f' b)) -> wp (on_fs m) b Q.
Proof. unfold wp, on_fs. by destruct (m _). Qed.
Lemma wp_on_store {A} (m : M St A) (b : bridge) (Q : result A -> bridge -> Prop) :
  wp m (f_st (b_fs b)) (fun r s' => Q r (b_set_fs (f_set_st s' (b_fs b)) b)) -> wp (on_store m) b Q.
Proof. unfold wp, on_store, on_fs, on_st. by destruct (m _). Qed.
Context {bsz : Z} {BL : BlockStoreLaws St bsz} (sb : list Z) (li : Z).
(** The bridge [b] with the inode reference [ir] in [v], on a volume with contents
    [c]. *)
Definition babs (v : ref_var) (n : Z) (b : bridge) (ir : inode_ref) (c : Z -> list Z) (h : Z -> Z) : Prop :=
  b_refs b v = ir /\ fabs (bsz := bsz) n (f_set_iref ir (b_fs b)) sb ir li c h ∅.

Lemma babs_at v n b ir c h n' f' ir' c' h' :
  babs v n b ir c h -> fabs (bsz := bsz) n' f' sb ir' li c' h' ∅ -> babs v n' (b_set_ref v (f_iref f') (b_set_fs f' b)) ir' c' h'.
Proof.
  intros _ A'. split; [cbn; rewrite decide_True by done; by apply A'|]. cbn. by apply (fabs_set_iref _ _ _ _ _ _ _ _ A').
Qed.
Lemma babs_store v n b ir c h n' s' c' h' :
  babs v n b ir c h -> bs_abs (bsz := bsz) n' s' c' h' ∅ -> babs v n' (b_set_fs (f_set_st s' (b_fs b)) b) ir c' h'.
Proof. intros [E [A1 A2 A3 A4]] A'. by split. Qed.
Lemma babs_weaken v n b ir c h n' c' h' :
  babs v n b ir c h -> n <= n' < 2 ^ 32 -> (forall a, c' a = c a) -> (forall a, h' a = h a) -> babs v n' b ir c' h'.
Proof. intros [E A] Hn Hc Hh. split; [done|]. by eapply fabs_weaken. Qed.
Lemma babs_st v n b ir c h : babs v n b ir c h -> bs_abs (bsz := bsz) n (f_st (b_fs b)) c h ∅.
Proof. intros [_ A]. apply A. Qed.
Lemma babs_sb v n b ir c h : babs v n b ir c h -> f_sb (b_fs b) = sb.
Proof. intros [_ A]. apply (fa_sb _ _ _ _ _ _ _ _ A). Qed.
End Steps.

(** ** The bytes of a file *)

(** What byte [q] of the file is: a hole is zeros. *)
Definition file_byte (bsz : Z) (c : Z -> list Z) (m : Z -> Z) (q : Z) : Z :=
  if m (q / bsz) =? 0 then 0 else byte_at (c (m (q / bsz))) (q mod bsz).
(** [x] is the file from byte [off] on. *)
Definition reads_file (bsz : Z) (c : Z -> list Z) (m : Z -> Z) (off : Z) (x : list Z) : Prop :=
  bytes_ok x /\ forall k, 0 <= k < blen x -> byte_at x k = file_byte bsz c m (off + k).

Section Reads.
Context (bsz : Z) (c : Z -> list Z) (m : Z -> Z) (Hb : 0 < bsz).
Local Abbreviation reads := (reads_file bsz c m).

Lemma reads_nil off : reads off [].
Proof. split; [apply Forall_nil_2|]. intros k Hk. change (blen []) with 0 in Hk. lia. Qed.
Lemma reads_app off x y : reads off x -> reads (off + blen x) y -> reads off (x ++ y).
Proof.
  intros [X1 X2] [Y1 Y2]. split; [by apply Forall_app|]. intros k Hk. rewrite blen_app in Hk. rewrite byte_at_app by lia.
  destruct (Z.ltb_spec k (blen x)); [apply X2; lia|]. rewrite Y2 by lia. f_equal. lia.
Qed.
(** A part of one block. *)
Lemma reads_part i o l x :
  0 <= o -> 0 <= l -> o + l <= bsz -> bytes_ok x -> blen x = bsz -> m i <> 0 -> c (m i) = x -> reads (i * bsz + o) (slice o l x).
Proof.
  intros Ho Hl Hle Hx Hlen Hm Ec. split; [by apply bytes_ok_slice|]. rewrite blen_slice by lia. intros k Hk. rewrite byte_at_slice by lia.
  unfold file_byte. assert (E : (i * bsz + o + k) / bsz = i) by (symmetry; apply (Z.div_unique _ _ _ (o + k)); lia).
  assert (Em : (i * bsz + o + k) mod bsz = o + k) by (symmetry; apply (Z.mod_unique _ _ i); lia).
  rewrite E, Em, Ec. by replace (m i =? 0) with false by lia.
Qed.
Lemma reads_hole i o l : 0 <= o -> 0 <= l -> o + l <= bsz -> m i = 0 -> reads (i * bsz + o) (replicate (Z.to_nat l) 0).
Proof.
  intros Ho Hl Hle Hm. assert (El : blen (replicate (Z.to_nat l) 0) = l) by (unfold blen; rewrite length_replicate; lia).
  split; [apply Forall_replicate; lia|]. rewrite El. intros k Hk. unfold file_byte.
  assert (E : (i * bsz + o + k) / bsz = i) by (symmetry; apply (Z.div_unique _ _ _ (o + k)); lia).
  rewrite E, Hm. unfold byte_at. rewrite nth_lookup, lookup_replicate_2 by lia. done.
Qed.
End Reads.

(** ** The file on the volume *)

(** The inode's file: its blocks are at [m 0], [m 1], ..., 0 for a hole, all of them
    on the volume and none a node of the map. *)
Record file_vol (sb : list Z) (ir : inode_ref) (bcnt : Z) (c : Z -> list Z) (m : Z -> Z) (meta : list Z) (size : Z) : Prop := {
  fv_size : ext4_inode_get_size sb (ir_off ir) (c (ir_block ir)) = size;
  fv_count : (size + ext4_sb_get_block_size sb - 1) / ext4_sb_get_block_size sb <= 2 ^ 32;
  fv_map : file_map sb ir ((size + ext4_sb_get_block_size sb - 1) / ext4_sb_get_block_size sb) c m meta;
  fv_shallow : shallow sb ir c;
  fv_place : forall i, 0 <= i < (size + ext4_sb_get_block_size sb - 1) / ext4_sb_get_block_size sb ->
    0 <= m i < bcnt /\ m i ∉ meta;
}.

Section FileRead.
Context {St : Type} {BS : BlockStore St} {bsz bcnt : Z} {BL : BlockStoreLaws St bsz}.
Context {DS : DataStore St} {DL : DataStoreLaws St bsz bcnt}.
Local Abbreviation bridge := (bridge St).
Context (sb : list Z) (ir : inode_ref) (li : Z) (h : Z -> Z) (m : Z -> Z) (meta : list Z) (size : Z) (c : Z -> list Z).
Context (Hbs : ext4_sb_get_block_size sb = bsz) (Hir : 0 < h (ir_block ir)).
Context (V : file_vol sb ir bcnt c m meta size) (Hcnt : bcnt < 2 ^ 64) (Hsz : 0 < size).
Local Abbreviation count := ((size + bsz - 1) / bsz).
Local Abbreviation reads := (reads_file bsz c m).

(** The bridge in the middle of the read. *)
Definition reading (n : Z) (b : bridge) : Prop :=
  exists c', babs (bsz := bsz) sb li Ref n b ir c' h /\ (forall x, x ∉ meta -> c' x = c x) /\
    file_map sb ir count c' m meta /\ c' (ir_block ir) = c (ir_block ir).

Lemma bsz_pos : 0 < bsz.
Proof. rewrite <- Hbs. destruct (block_size_cases sb) as (e & He & ->). assert (0 < 2 ^ e) by (apply Z.pow_pos_nonneg; lia). lia. Qed.
Lemma reading_weaken n n' b : reading n b -> n <= n' < 2 ^ 32 -> reading n' b.
Proof. intros (c' & A & H) Hn. exists c'. split; [|done]. by eapply babs_weaken. Qed.
Lemma reading_budget n b : reading n b -> n < 2 ^ 32.
Proof. intros (c' & A & _). eapply bs_budget, babs_st, A. Qed.

Lemma block_of_wp i n b : reading n b -> n + 5 < 2 ^ 32 -> 0 <= i < count ->
  wp (at_ Ref (ext4_fs_get_inode_dblk_idx i true)) b (fun r b' => reading (n + 5) b' /\
    match r with Ok a => a = m i | Err rc => rc <> EOK end).
Proof.
  intros (c' & A & Ho & Hm & Hi) Hn Hr. apply wp_at. pose proof A as [E A']. rewrite E.
  pose proof (fv_count _ _ _ _ _ _ _ V) as Hc. pose proof (fv_size _ _ _ _ _ _ _ V) as Hs. rewrite Hbs in Hc.
  eapply wp_mono; [apply (dblk_wp sb ir li h count m meta c' n _ i A' Hn Hir Hr Hc); [rewrite Hi, Hs; lia|done]|].
  assert (K : forall f', map_kept sb ir li h count m meta c' n f' -> reading (n + 5) (b_set_ref Ref (f_iref f') (b_set_fs f' b))).
  { intros f' (c2 & A2 & Ho2 & Hm2 & Hi2). exists c2. split; [by eapply babs_at|]. split; [intros x Hx; by rewrite Ho2, Ho|].
    split; [done|congruence]. }
  intros [a|rc] f'; [intros [-> HK]|intros [[Hrc _] HK]]; [by split; [apply K|]|]. split; [|done].
  apply K, HK. intros Hx. pose proof (fv_shallow _ _ _ _ _ _ _ V) as Sh. unfold shallow, inode_extents in *. rewrite Hi in *. by apply Sh.
Qed.

(** A run of blocks that follow each other. *)
Definition run_from (lblk fblk run : Z) : Prop := forall j, 0 <= j < run -> m (lblk + j) = fblk + j.
Lemma extend_run_wp fuel : forall run remaining lblk fblk n b,
  reading n b -> 0 <= lblk -> 1 <= run -> run * bsz <= remaining -> lblk * bsz + remaining <= size -> remaining < 2 ^ 32 ->
  remaining - run * bsz < Z.of_nat fuel * bsz -> n + 5 * (remaining / bsz) < 2 ^ 32 - 5 + 5 * run -> run_from lblk fblk run ->
  wp (extend_run fuel run bsz remaining lblk fblk) b (fun r b' =>
    exists run', r = Ok run' /\ run <= run' /\ run' * bsz <= remaining /\ run_from lblk fblk run' /\ reading (n + 5 * (run' - run) + 5) b').
Proof.
  pose proof bsz_pos as Hb.
  induction fuel as [|fuel IH]; intros run remaining lblk fblk n b R Hl Hrun Hle Hsize Hrem Hf Hn HF; cbn [extend_run].
  { apply wp_ok. exists run. split; [done|]. split; [lia|]. split; [done|]. split; [done|].
    assert (run <= remaining / bsz) by (apply Z.div_le_lower_bound; lia). eapply reading_weaken; [done|lia]. }
  assert (Hq : run <= remaining / bsz) by (apply Z.div_le_lower_bound; lia).
  assert (Hstop : forall b', reading (n + 5) b' -> wp (mok run) b' (fun r b' =>
    exists run', r = Ok run' /\ run <= run' /\ run' * bsz <= remaining /\ run_from lblk fblk run' /\ reading (n + 5 * (run' - run) + 5) b')).
  { intros b' R'. apply wp_ok. exists run. split; [done|]. split; [lia|]. split; [done|]. split; [done|].
    by replace (n + 5 * (run - run) + 5) with (n + 5) by lia. }
  destruct (Z.ltb_spec remaining ((run + 1) * bsz)) as [Hlt|Hge].
  { apply Hstop. eapply reading_weaken; [done|lia]. }
  assert (Hq1 : run + 1 <= remaining / bsz) by (apply Z.div_le_lower_bound; lia).
  assert (Hc : lblk + run < count).
  { assert (lblk + run + 1 <= count); [|lia]. apply Z.div_le_lower_bound; nia. }
  pose proof (fv_count _ _ _ _ _ _ _ V) as Hcc. rewrite Hbs in Hcc.
  rewrite (u32_id (lblk + run)) by lia. apply wp_bind, wp_try.
  eapply wp_mono; [apply (block_of_wp _ n b R); lia|]. intros [a|rc] b1 [R1 Ha]; cbv beta iota; [|by apply Hstop].
  subst a. pose proof (HF (run - 1) ltac:(lia)) as Hlast.
  assert (Hp : forall i, 0 <= i < count -> 0 <= m i < bcnt) by (intros i Hi; apply (fv_place _ _ _ _ _ _ _ V); by rewrite Hbs).
  pose proof (Hp (lblk + (run - 1)) ltac:(lia)). pose proof (Hp (lblk + 0) ltac:(lia)) as Hp0. rewrite (HF 0) in Hp0 by lia.
  rewrite (u64_id (fblk + run)) by lia.
  destruct (Z.eqb_spec (m (lblk + run)) (fblk + run)) as [E|E]; cbn [negb]; [|by apply Hstop].
  eapply wp_mono; [apply (IH (run + 1) remaining lblk fblk (n + 5) b1 R1); try lia|].
  { intros j Hj. destruct (Z.eq_dec j run) as [->|]; [done|apply HF; lia]. }
  intros r b' (run' & -> & H1 & H2 & H3 & R'). exists run'. split; [done|]. split; [lia|]. split; [done|]. split; [done|].
  by replace (n + 5 * (run' - run) + 5) with (n + 5 + 5 * (run' - (run + 1)) + 5) by lia.
Qed.

Lemma place_bound i : 0 <= i < count -> 0 <= m i < bcnt /\ m i ∉ meta.
Proof. intros Hi. apply (fv_place _ _ _ _ _ _ _ V). by rewrite Hbs. Qed.
(** Reading past the cache, with the buffers that are ahead of the medium. *)
Lemma overlay_run_wp k : forall lblk fblk d n b,
  reading n b -> n + Z.of_nat k < 2 ^ 32 -> 0 <= lblk -> lblk + Z.of_nat k <= count -> run_from lblk fblk (Z.of_nat k) ->
  0 < fblk -> blen d = Z.of_nat k * bsz ->
  (forall i, 0 <= i < Z.of_nat k -> bs_is_dirty (fblk + i) (f_st (b_fs b)) = false -> slice (i * bsz) bsz d = c (fblk + i)) ->
  wp (overlay_run k bsz fblk d) b (fun r b' =>
    exists x, r = Ok x /\ blen x = Z.of_nat k * bsz /\ reads (lblk * bsz) x /\ reading (n + Z.of_nat k) b').
Proof.
  pose proof bsz_pos as Hb. induction k as [|k IH]; intros lblk fblk d n b R Hn Hl Hc HF H0 Hd HD; cbn [overlay_run].
  { apply wp_ok. exists []. split; [done|]. split; [done|]. split; [apply reads_nil|]. by replace (n + Z.of_nat 0) with n by lia. }
  pose proof (HF 0 ltac:(lia)) as E0. rewrite !Z.add_0_r in E0. destruct (place_bound lblk ltac:(lia)) as [Hp Hm].
  pose proof R as (c' & A & Ho & Hmap & Hi). rewrite E0 in Hp, Hm. pose proof (babs_st _ _ _ _ _ _ _ _ A) as As.
  apply wp_bind, wp_on_store.
  eapply wp_mono; [apply (ds_overlay_wp n _ c' h ∅ fblk (slice 0 bsz d) As); [lia|apply not_elem_of_empty|]|].
  { intros Hdirty. rewrite Ho by done. pose proof (HD 0 ltac:(lia)) as H. rewrite Z.mul_0_l, Z.add_0_r in H. by apply H. }
  intros r s' (-> & As' & Hother). cbv beta iota. set (b1 := b_set_fs _ b).
  assert (R1 : reading (n + 1) b1) by (exists c'; split; [by eapply babs_store|done]).
  destruct (bs_contents _ _ _ _ _ fblk As) as [Hlen Hok].
  assert (Hnext : Z.of_nat k = 0 \/ u64 (fblk + 1) = fblk + 1).
  { destruct k as [|k']; [by left|right]. pose proof (HF 1 ltac:(lia)) as E1. destruct (place_bound (lblk + 1) ltac:(lia)) as [Hp1 _].
    rewrite E1 in Hp1. apply u64_id. lia. }
  assert (HT : wp (overlay_run k bsz (u64 (fblk + 1)) (drop (Z.to_nat bsz) d)) b1 (fun r b' =>
    exists x, r = Ok x /\ blen x = Z.of_nat k * bsz /\ reads ((lblk + 1) * bsz) x /\ reading (n + 1 + Z.of_nat k) b')).
  { destruct Hnext as [Hk|Hk].
    - destruct k as [|k']; [|lia]. cbn [overlay_run]. apply wp_ok. exists []. split; [done|]. split; [done|]. split; [apply reads_nil|].
      by replace (n + 1 + Z.of_nat 0) with (n + 1) by lia.
    - rewrite Hk. apply (IH (lblk + 1) (fblk + 1)); try done; try lia.
      + intros j Hj. rewrite <- !Z.add_assoc. apply HF. lia.
      + rewrite blen_drop by nia. lia.
      + intros i Hi' Hd'. rewrite <- Z.add_assoc in *. rewrite <- HD; [|lia|].
        * unfold slice. rewrite drop_drop. do 2 f_equal. nia.
        * rewrite <- Hother by lia. exact Hd'. }
  apply wp_bind. eapply wp_mono; [exact HT|]. intros r b' (x & -> & Hx & Hr & R'). cbv beta iota. apply wp_ok.
  exists (c' fblk ++ x). split; [done|]. split; [rewrite blen_app; lia|]. split.
  - apply reads_app.
    + pose proof (reads_part bsz c m lblk 0 bsz (c' fblk)) as HP. rewrite Z.add_0_r in HP. unfold slice in HP.
      rewrite drop_0, take_ge in HP by (unfold blen in Hlen; lia). apply HP; try done; try lia. by rewrite E0, Ho.
    + by replace (lblk * bsz + blen (c' fblk)) with ((lblk + 1) * bsz) by lia.
  - by replace (n + Z.of_nat (S k)) with (n + 1 + Z.of_nat k) by lia.
Qed.

(** The blocks that [rem] bytes from [off] on lie in. *)
Definition blocks_of (off rem : Z) : Z := (off mod bsz + rem + bsz - 1) / bsz.
(** One turn: it gives some bytes of the file, and either there are no more to give
    or the next one begins with a block and is so much cheaper. *)
Lemma read_chunk_wp n b offset remaining :
  reading n b -> 0 <= offset -> 0 < remaining < 2 ^ 32 -> offset + remaining <= size ->
  n + 11 * blocks_of offset remaining < 2 ^ 32 ->
  wp (read_chunk bsz offset remaining) b (fun r b' =>
    match r with
    | Ok x => reads offset x /\ 0 < blen x <= remaining /\ exists n', reading n' b' /\
        n' <= n + 11 * blocks_of offset remaining /\
        (blen x = remaining \/
         (blocks_of (offset + blen x) (remaining - blen x) < blocks_of offset remaining /\
          n' + 11 * blocks_of (offset + blen x) (remaining - blen x) <= n + 11 * blocks_of offset remaining))
    | Err rc => rc <> EOK /\ reading (n + 11 * blocks_of offset remaining) b'
    end).
Proof.
  intros R Ho Hr Hs Hn. pose proof bsz_pos as Hb. pose proof (fv_count _ _ _ _ _ _ _ V) as Hcc. rewrite Hbs in Hcc.
  set (lblk := offset / bsz). set (o := offset mod bsz). pose proof (Z.div_mod offset bsz ltac:(lia)) as Eoff. fold lblk o in Eoff.
  assert (Hor : 0 <= o < bsz) by (apply Z.mod_pos_bound; lia). assert (Hl0 : 0 <= lblk) by (apply Z.div_pos; lia).
  assert (Hlc : 0 <= lblk < count) by (split; [done|]; apply Z.lt_le_trans with (lblk + 1); [lia|]; apply Z.div_le_lower_bound; nia).
  assert (Hb16 : bsz <= 65536).
  { rewrite <- Hbs. destruct (block_size_cases sb) as (e & He & ->). assert (e = 0 \/ e = 1 \/ e = 2 \/ e = 3 \/ e = 4 \/ e = 5 \/ e = 6) as He' by lia.
    by destruct He' as [->|[->|[->|[->|[->|[->| ->]]]]]]. }
  unfold read_chunk. fold lblk o. rewrite (u32_id lblk), (u32_id o) by lia. set (chunk := if remaining <? bsz - o then remaining else bsz - o).
  assert (Hchunk : 0 < chunk <= remaining /\ o + chunk <= bsz /\ (chunk = remaining \/ chunk = bsz - o)) by (unfold chunk; case_match; lia).
  set (T := blocks_of offset remaining) in *. assert (HT1 : 1 <= T) by (apply Z.div_le_lower_bound; unfold o in *; lia).
  assert (Hnext : chunk <> remaining -> blocks_of (offset + chunk) (remaining - chunk) = T - 1).
  { intros Hne. assert (chunk = bsz - o) as Ec by lia. unfold T, blocks_of. fold o.
    replace ((offset + chunk) mod bsz) with 0 by (apply (Z.mod_unique _ _ (lblk + 1)); lia).
    replace (o + remaining + bsz - 1) with (0 + (remaining - chunk) + bsz - 1 + 1 * bsz) by lia. rewrite Z.div_add by lia. lia. }
  assert (Hdone : forall x b' k, reads offset x -> blen x = chunk -> reading (n + k) b' -> 0 <= k <= 11 ->
    reads offset x /\ 0 < blen x <= remaining /\ exists n', reading n' b' /\ n' <= n + 11 * T /\
      (blen x = remaining \/ (blocks_of (offset + blen x) (remaining - blen x) < T /\
        n' + 11 * blocks_of (offset + blen x) (remaining - blen x) <= n + 11 * T))).
  { intros x b' k Hx El R' Hk. rewrite El. split; [done|]. split; [lia|]. exists (n + k). split; [done|]. split; [lia|].
    destruct (Z.eq_dec chunk remaining) as [|Hne]; [by left|right]. rewrite Hnext by done. lia. }
  apply wp_bind. eapply wp_mono; [apply (block_of_wp lblk n b R); lia|]. intros [a|rc] b1 [R1 Ha]; cbv beta iota.
  2: { split; [done|]. eapply reading_weaken; [done|lia]. }
  subst a. destruct (place_bound lblk Hlc) as [Hp Hmeta].
  destruct ((o =? 0) && (chunk =? bsz) && negb (m lblk =? 0)) eqn:Ef.
  - apply andb_true_iff in Ef as [[E1%Z.eqb_eq E2%Z.eqb_eq]%andb_true_iff E3%negb_true_iff%Z.eqb_neq].
    set (q := remaining / bsz). assert (Hq1 : 1 <= q) by (apply Z.div_le_lower_bound; lia).
    assert (HqT : q <= T) by (unfold q, T, blocks_of; fold o; apply Z.div_le_mono; lia).
    assert (Hq2 : remaining < (q + 1) * bsz).
    { pose proof (Z.div_mod remaining bsz ltac:(lia)) as D. pose proof (Z.mod_pos_bound remaining bsz Hb). fold q in D. lia. }
    apply wp_bind. eapply wp_mono; [apply (extend_run_wp (Z.to_nat q) 1 remaining lblk (m lblk) (n + 5) b1 R1); try lia; fold q|].
    { intros j Hj. replace j with 0 by lia. by rewrite !Z.add_0_r. }
    intros r b2 (run & -> & Hr1 & Hrle & HF & R2). cbv beta iota.
    replace (n + 5 + 5 * (run - 1) + 5) with (n + 5 * run + 5) in R2 by lia.
    assert (Hrq : run <= q) by (apply Z.div_le_lower_bound; lia).
    assert (Hrc : lblk + run <= count) by (apply Z.div_le_lower_bound; nia).
    destruct (place_bound (lblk + (run - 1)) ltac:(lia)) as [Hlast _]. rewrite HF in Hlast by lia.
    pose proof R2 as (c' & A2 & Ho2 & Hmap2 & Hi2). pose proof (babs_st _ _ _ _ _ _ _ _ A2) as As.
    assert (Ec : forall i, 0 <= i < run -> c' (m lblk + i) = c (m lblk + i)).
    { intros i Hi. rewrite <- HF by lia. apply Ho2, place_bound. lia. }
    apply wp_bind, wp_on_store.
    eapply wp_mono; [apply (ds_get_direct_wp _ _ c' h ∅ (m lblk) run As); try lia; intros; apply not_elem_of_empty|].
    intros [d|rc] s' (As' & Hdirty & Hd); cbv beta iota; set (b3 := b_set_fs _ b2).
    2: { split; [done|]. eapply reading_weaken; [exists c'; split; [by eapply babs_store|done]|lia]. }
    destruct Hd as [Hlen Hd].
    assert (R3 : reading (n + 5 * run + 5) b3) by (exists c'; split; [by eapply babs_store|done]).
    apply wp_bind. eapply wp_mono; [apply (overlay_run_wp (Z.to_nat run) lblk (m lblk) d _ b3 R3); rewrite ?Z2Nat.id by lia; try done; try lia|].
    { intros i Hi Hdi. rewrite <- Ec by lia. apply Hd; [lia|]. rewrite <- Hdirty. exact Hdi. }
    rewrite Z2Nat.id by lia. intros r b4 (x & -> & Hx & Hreads & R4). cbv beta iota. apply wp_ok.
    rewrite (u32_id (run * bsz)) by lia. assert (Es : slice 0 (run * bsz) x = x).
    { unfold slice. rewrite drop_0, take_ge; [done|]. unfold blen in Hx. lia. }
    rewrite Es, Hx. replace offset with (lblk * bsz) by lia. split; [done|]. split; [nia|].
    exists (n + 6 * run + 5). split; [eapply reading_weaken; [exact R4|lia]|]. split; [lia|]. right.
    assert (EB : blocks_of (lblk * bsz + run * bsz) (remaining - run * bsz) = T - run).
    { unfold T, blocks_of. fold o. replace ((lblk * bsz + run * bsz) mod bsz) with 0 by (apply (Z.mod_unique _ _ (lblk + run)); lia).
      rewrite E1. replace (0 + remaining + bsz - 1) with (0 + (remaining - run * bsz) + bsz - 1 + run * bsz) by lia. rewrite Z.div_add by lia. lia. }
    rewrite EB. lia.
  - destruct (Z.eqb_spec (m lblk) 0) as [E0|E0].
    + apply wp_ok. apply (Hdone _ b1 5); [|unfold blen; rewrite length_replicate; lia|done|lia].
      replace offset with (lblk * bsz + o) by lia. by apply reads_hole; try lia.
    + pose proof R1 as (c' & A1 & Ho1 & Hmap1 & Hi1). pose proof A1 as [E A1'].
      pose proof (babs_st _ _ _ _ _ _ _ _ A1) as As. pose proof (bs_handles _ _ _ _ _ (m lblk) As) as Hh.
      apply wp_bind, wp_on_store. eapply wp_mono; [apply (bs_get_wp _ _ c' h ∅ (m lblk) As); [lia|lia|apply not_elem_of_empty]|].
      intros [[]|rc] s'; cbv beta iota; set (b2 := b_set_fs _ b1).
      2: { intros [Hrc As']. split; [done|]. eapply reading_weaken; [exists c'; split; [by eapply babs_store|done]|lia]. }
      intros [_ As']. set (h1 := fupd _ _ h) in As'. assert (Hh1 : 0 < h1 (m lblk)) by (unfold h1; rewrite fupd_eq; lia).
      assert (Hread : wp (data (m lblk)) (b_fs b2) (fun r f' => r = Ok (c' (m lblk)) /\ f' = b_fs b2)).
      { apply wp_get. split; [|done]. f_equal. by apply (bs_read_abs _ _ _ _ _ _ As'). }
      apply wp_bind, wp_on_fs. eapply wp_mono; [exact Hread|]. intros r f' [-> ->]. cbv beta iota.
      apply wp_bind, wp_try, wp_on_store. cbn [b_fs b_set_fs f_st f_set_st b2].
      eapply wp_mono; [apply (bs_set_wp _ _ c' h1 ∅ (m lblk) As'); [done|apply not_elem_of_empty]|].
      intros r s2 [-> As2]. cbv beta iota. apply wp_ok. destruct (bs_contents _ _ _ _ _ (m lblk) As) as [Hlen Hok].
      apply (Hdone _ _ 6).
      * replace offset with (lblk * bsz + o) by lia. apply reads_part; try done; try lia. symmetry. by apply Ho1.
      * apply blen_slice; lia.
      * exists c'. split; [|done]. apply (babs_store _ _ _ _ _ _ _ _ _ _ _ _ A1). eapply bs_weaken; [exact As2|lia|done| |done].
        intros y. symmetry. apply fupd_restore.
      * lia.
Qed.

Lemma read_loop_wp fuel : forall n b offset remaining,
  reading n b -> 0 <= offset -> 0 <= remaining < 2 ^ 32 -> offset + remaining <= size -> size < 2 ^ 64 ->
  remaining = 0 \/ blocks_of offset remaining <= Z.of_nat fuel -> n + 11 * blocks_of offset remaining < 2 ^ 32 ->
  wp (read_loop fuel bsz offset remaining) b (fun r b' =>
    exists rc x, r = Ok (rc, x) /\ reads offset x /\ blen x <= remaining /\ (rc = EOK -> blen x = remaining) /\
      reading (n + 11 * blocks_of offset remaining) b').
Proof.
  pose proof bsz_pos as Hb. induction fuel as [|fuel IH]; intros n b offset remaining R Ho Hr Hs H64 Hf Hn; cbn [read_loop].
  all: pose proof (Z.mod_pos_bound offset bsz Hb) as Hmod.
  all: assert (HT0 : 0 <= blocks_of offset remaining) by (apply Z.div_pos; lia).
  all: assert (Hend : forall rc, (rc = EOK -> remaining = 0) -> exists rc' x, Ok (rc, []) = Ok (rc', x) /\ reads offset x /\ blen x <= remaining /\
    (rc' = EOK -> blen x = remaining) /\ reading (n + 11 * blocks_of offset remaining) b).
  all: try (intros rc Hrc; exists rc, []; change (blen []) with 0; split; [done|]; split; [apply reads_nil|]; split; [lia|];
    split; [intros E; symmetry; by apply Hrc|]; eapply reading_weaken; [done|lia]).
  - apply wp_ok. apply Hend. intros _. destruct Hf as [|Hf]; [done|]. destruct (Z.eq_dec remaining 0); [done|].
    assert (1 <= blocks_of offset remaining) by (apply Z.div_le_lower_bound; lia). lia.
  - destruct (Z.eqb_spec remaining 0) as [E|E]; [apply wp_ok; by apply Hend|].
    apply wp_bind, wp_try. eapply wp_mono; [apply (read_chunk_wp n b offset remaining R); lia|].
    intros [x|rc] b1; cbv beta iota.
    2: { intros [Hrc R1]. apply wp_ok. exists rc, []. change (blen []) with 0. split; [done|]. split; [apply reads_nil|].
         split; [lia|]. by split. }
    intros (Hx & Hlen & n' & R1 & Hn' & Hnext). set (off' := offset + blen x) in *. set (rem' := remaining - blen x) in *.
    rewrite (u64_id off') by lia. set (T := blocks_of offset remaining) in *.
    assert (HI : wp (read_loop fuel bsz off' rem') b1 (fun r b' => exists rc y, r = Ok (rc, y) /\ reads off' y /\ blen y <= rem' /\
      (rc = EOK -> blen y = rem') /\ reading (n + 11 * T) b')).
    { destruct Hnext as [Hz|[Hlt Hle]].
      - assert (E0 : rem' = 0) by lia. rewrite E0. replace (read_loop fuel bsz off' 0) with (mok (S := bridge) (EOK, @nil Z)) by (by destruct fuel).
        apply wp_ok. exists EOK, []. split; [done|]. split; [apply reads_nil|]. split; [done|]. split; [done|]. eapply reading_weaken; [done|lia].
      - eapply wp_mono; [apply (IH n' b1 off' rem' R1); try lia|]. intros r b' (rc & y & -> & H1 & H2 & H3 & R').
        exists rc, y. split; [done|]. split; [done|]. split; [done|]. split; [done|]. eapply reading_weaken; [done|lia]. }
    apply wp_bind. eapply wp_mono; [exact HI|]. intros r b' (rc & y & -> & H1 & H2 & H3 & R'). cbv beta iota. apply wp_ok.
    exists rc, (x ++ y). rewrite blen_app. split; [done|]. split; [by apply reads_app|]. split; [lia|]. split; [|done].
    intros Erc. specialize (H3 Erc). lia.
Qed.
End FileRead.

(** ** The operation *)

Section Read.
Context {St : Type} {BS : BlockStore St} {bsz bcnt : Z} {BL : BlockStoreLaws St bsz}.
Context {DS : DataStore St} {DL : DataStoreLaws St bsz bcnt}.
Context (n : Z) (b : bridge St) (sb : list Z) (ir0 : inode_ref) (li : Z) (c : Z -> list Z) (h : Z -> Z).
Context (A : fabs (bsz := bsz) n (b_fs b) sb ir0 li c h ∅) (Hm : b_mounted b = true).
Context (Hbs : ext4_sb_get_block_size sb = bsz) (Hcnt : bcnt < 2 ^ 64).
Context (inode : Z) (Hg : group_ready sb (inode_group sb inode) (c (desc_blk sb (inode_group sb inode))) = true).
Local Abbreviation ir := (inode_at sb c inode).
(** The volume afterwards: no handle more, and only nodes of the map changed. *)
Definition read_leaves (meta : list Z) (N : Z) (b' : bridge St) : Prop :=
  exists c' ir', fabs (bsz := bsz) N (b_fs b') sb ir' li c' h ∅ /\ forall x, x ∉ meta -> c' x = c x.

Lemma mounted_wp {A'} (k : M (bridge St) A') (Q : result A' -> bridge St -> Prop) : wp k b Q -> wp (mounted;;; k) b Q.
Proof. intros HQ. unfold mounted, mounted_or. apply wp_bind, wp_bind, wp_get. rewrite Hm. by apply wp_ok. Qed.
(** Putting the inode back. *)
Lemma put_wp b2 c2 N2 (Q : bridge St -> Prop) :
  let h1 := fupd (ir_block ir) (h (ir_block ir) + 1) h in
  babs (bsz := bsz) sb li Ref N2 b2 ir c2 h1 ->
  (forall b3, (exists ir', fabs (bsz := bsz) N2 (b_fs b3) sb ir' li c2 h ∅) -> Q b3) -> wp (put_ref Ref) b2 (fun _ b3 => Q b3).
Proof.
  intros h1 B2 HQ. pose proof (fabs_held _ _ _ _ _ _ _ _ A (ir_block ir)) as Hh.
  assert (Hir : 0 < h1 (ir_block ir)) by (unfold h1; rewrite fupd_eq; lia).
  unfold put_ref. apply wp_bind, wp_try, wp_at. pose proof B2 as [E A2]. rewrite E.
  unfold ext4_fs_put_inode_ref. fs_step. fs_step. fs_step. fs_step. cbn [ir_dirty inode_at]. fs_step. fs_step. fs_step; [done|apply not_elem_of_empty|].
  intros f2 A3. fs_step. apply HQ. eexists. cbn. eapply fabs_weaken; [exact A3|eapply fabs_budget, A3|done| |done].
  intros y. symmetry. apply fupd_restore.
Qed.
(** An inode held while [k] runs. *)
Lemma with_ref_wp {A'} (k : M (bridge St) A') (Q : result A' -> bridge St -> Prop) :
  let h1 := fupd (ir_block ir) (h (ir_block ir) + 1) h in
  n + 2 < 2 ^ 32 ->
  (forall rc b', clean_err (St := St) rc -> (exists ir', fabs (bsz := bsz) (n + 2) (b_fs b') sb ir' li c h ∅) -> Q (Err rc) b') ->
  (forall b1, babs (bsz := bsz) sb li Ref (n + 2) b1 ir c h1 -> 0 < h1 (ir_block ir) ->
     wp k b1 (fun r b2 => wp (put_ref Ref) b2 (fun _ b3 => Q r b3))) ->
  wp (with_ref Ref inode k) b Q.
Proof.
  intros h1 Hn HE HQ. unfold with_ref. apply wp_bind, wp_at. eapply wp_mono.
  { apply (get_inode_ref_wp n (f_set_iref (b_refs b Ref) (b_fs b)) sb (b_refs b Ref) li c h); [|lia|exact Hg].
    by apply (fabs_set_iref _ _ _ _ _ _ _ _ A). }
  intros [[]|rc] f1; cbv beta iota; [|intros [Hrc A1]; apply HE; [done|by eexists]].
  set (b1 := b_set_ref _ _ _). intros A1. pose proof (fabs_held _ _ _ _ _ _ _ _ A (ir_block ir)) as Hh.
  apply wp_finally, HQ; [|unfold h1; rewrite fupd_eq; lia].
  split; [cbn; rewrite decide_True by done; by apply A1|]. cbn. by apply (fabs_set_iref _ _ _ _ _ _ _ _ A1).
Qed.

(** C6: Reading a file through the bridge (ext4b_read).  The bytes given are those of the file from the offset on:
    each one is what the volume's contents have at its block's place, and 0 in a hole or an unwritten block, whatever
    runs the blocks are read in, and also where a block's buffer is ahead of the medium.  Without an error there are
    as many as asked for, or as the file has left; after one there are fewer, and the error is reported.  All handles
    are given back, and nothing but checksums of the file's own extent nodes may have changed.  (The inode is
    in a group whose bitmaps are initialised; its extent tree has one level below the root at most; the count is below
    2^32, and offset and count do not wrap at 2^64.) *)
Theorem read_returns_the_file m meta size offset count :
  file_vol sb ir bcnt c m meta size -> 0 <= offset -> 0 < count < 2 ^ 32 -> offset + count < 2 ^ 64 -> size < 2 ^ 64 ->
  let N := n + 11 * (count / bsz + 3) in
  N < 2 ^ 32 ->
  wp (ext4b_read inode offset count) b (fun r b' =>
    match r with
    | Ok (rc, x) => reads_file bsz c m offset x /\ blen x <= count /\
        (rc = EOK -> blen x = Z.max 0 (Z.min count (size - offset))) /\ read_leaves meta N b'
    | Err rc => rc <> EOK /\ read_leaves [] N b'
    end).
Proof.
  intros V Ho Hc Hoc H64 N HN. unfold ext4b_read. apply mounted_wp. replace (count =? 0) with false by lia.
  pose proof (bsz_pos sb Hbs) as Hb. assert (Hcb : 0 <= count / bsz) by (apply Z.div_pos; lia).
  apply with_ref_wp; [lia| |].
  { intros rc b' [Hrc _] (ir' & A1). split; [done|]. exists c, ir'. split; [|done]. eapply fabs_weaken; [exact A1|lia|done..]. }
  set (h1 := fupd _ _ h). intros b1 B1 Hir. apply wp_bind, wp_get. replace (f_sb (b_fs b1)) with sb by (symmetry; apply (babs_sb _ _ _ _ _ _ _ _ B1)).
  cbv beta iota. apply wp_bind, wp_at. pose proof B1 as [E1 A1']. rewrite E1.
  eapply on_inode_wp; [exact A1'|done|]. cbv beta iota. rewrite (fv_size _ _ _ _ _ _ _ V).
  set (b2 := b_set_ref _ _ (b_set_fs _ b1)). assert (B2 : babs (bsz := bsz) sb li Ref (n + 2) b2 ir c h1) by (by eapply babs_at).
  assert (Hput : forall b3 c3 N3 rc x, babs (bsz := bsz) sb li Ref N3 b3 ir c3 h1 -> N3 <= N -> (forall x, x ∉ meta -> c3 x = c x) ->
    reads_file bsz c m offset x /\ blen x <= count /\ (rc = EOK -> blen x = Z.max 0 (Z.min count (size - offset))) ->
    wp (put_ref Ref) b3 (fun _ b4 => reads_file bsz c m offset x /\ blen x <= count /\
        (rc = EOK -> blen x = Z.max 0 (Z.min count (size - offset))) /\ read_leaves meta N b4)).
  { intros b3 c3 N3 rc x B3 HN3 Ho3 (H1 & H2 & H3). apply (put_wp b3 c3 N3 (fun b4 => _ /\ _ /\ _ /\ read_leaves meta N b4) B3).
    intros b4 (ir' & A4). split; [done|]. split; [done|]. split; [done|]. exists c3, ir'. split; [|done].
    eapply fabs_weaken; [exact A4|lia|done..]. }
  destruct (Z.leb_spec size offset) as [Hle|Hlt].
  { apply wp_ok. apply (Hput b2 c (n + 2) EOK []); [done|lia|done|]. split; [apply reads_nil|]. change (blen []) with 0. lia. }
  rewrite Hbs. rewrite (u64_id (offset + count)) by lia. set (k := if size <? offset + count then size - offset else count).
  assert (Hk : k = Z.min count (size - offset) /\ 0 < k) by (unfold k; case_match; lia).
  pose proof (Z.mod_pos_bound offset bsz Hb) as Hmod.
  assert (HT : blocks_of (bsz := bsz) offset k <= k / bsz + 2 /\ k / bsz <= count / bsz).
  { split; [|apply Z.div_le_mono; lia]. unfold blocks_of.
    pose proof (Z.div_mod k bsz ltac:(lia)) as D. pose proof (Z.mod_pos_bound k bsz Hb).
    assert ((offset mod bsz + k + bsz - 1) / bsz < k / bsz + 3); [|lia]. apply Z.div_lt_upper_bound; lia. }
  assert (0 <= k / bsz) by (apply Z.div_pos; lia).
  eapply wp_mono.
  { apply (read_loop_wp sb ir li h1 m meta size c Hbs Hir V Hcnt ltac:(lia) (Z.to_nat (k / bsz) + 2) (n + 2) b2 offset k); try lia.
    exists c. split; [done|]. split; [done|]. split; [|done]. rewrite <- Hbs. apply V. }
  intros r b3 (rc & x & -> & Hx & Hlen & Hok & (c3 & B3 & Ho3 & _)). apply (Hput b3 c3 _ rc x B3); [lia|done|].
  split; [done|]. split; [lia|]. intros Erc. rewrite Hok by done. lia.
Qed.

(** C10: Looking a name up through the bridge (ext4b_lookup), in a directory without an index.  A success gives the
    inode and the type that the directory's map has for the name, with every handle given back and the directory as
    it was; ENOENT is reported only when the map has no such name, or the device made it up; and a name of the map is
    not found only with another error.  (The inode is in a group whose bitmaps are initialised; [dir_geom]: not 64 KiB
    blocks without checksums.) *)
Theorem lookup_is_the_map stack name m meta ms :
  dir_geom sb -> dir_vol sb ir c m meta ms -> 1 <= blen name <= 255 ->
  ext4_inode_is_type sb (ir_off ir) (c (ir_block ir)) EXT4_INODE_MODE_DIRECTORY = true ->
  let N := n + 2 + 6 * Z.of_nat (length ms) in
  N < 2 ^ 32 ->
  wp (ext4b_lookup stack inode name) b (fun r b' =>
    match r with
    | Ok (Some (ino, type)) =>
        (exists t, dir_names ms !! name = Some (ino, t) /\ type = type_from_dirent t) /\
        exists c' ir', fabs (bsz := bsz) N (b_fs b') sb ir' li c' h ∅ /\ dir_vol sb ir c' m meta ms
    | Ok None => False
    | Err rc => rc <> EOK /\ (rc = ENOENT -> dir_names ms !! name = None \/ store_enoent (St := St))
    end).
Proof.
  intros G V Hname Hdir N HN. unfold ext4b_lookup. apply mounted_wp.
  replace ((blen name =? 0) || (255 <? blen name)) with false by lia.
  apply with_ref_wp; [lia| |].
  { intros rc b' [Hrc He] _. split; [done|]. intros ->. right. apply He. by right. }
  set (h1 := fupd _ _ h). intros b1 B1 Hir. unfold ref_is_type. apply wp_bind, wp_bind, wp_get.
  replace (f_sb (b_fs b1)) with sb by (symmetry; apply (babs_sb _ _ _ _ _ _ _ _ B1)). cbv beta iota.
  apply wp_at. pose proof B1 as [E1 A1]. rewrite E1. eapply on_inode_wp; [exact A1|done|]. cbv beta iota. rewrite Hdir. cbn [negb].
  set (b2 := b_set_ref _ _ (b_set_fs _ b1)). assert (B2 : babs (bsz := bsz) sb li Ref (n + 2) b2 ir c h1) by (by eapply babs_at).
  unfold obnd. apply wp_bind, wp_at. pose proof B2 as [E2 A2]. rewrite E2.
  eapply wp_mono; [apply (find_entry_wp sb ir li h1 m meta G stack c (n + 2) _ ms name A2 V); done|].
  assert (HE : forall rc b3, clean_err (St := St) rc \/ (rc = ENOENT /\ not_from ms name 0) ->
    wp (put_ref Ref) b3 (fun _ _ => rc <> EOK /\ (rc = ENOENT -> dir_names ms !! name = None \/ store_enoent (St := St)))).
  { intros rc b3 H. apply wp_intro. intros _ _ _. by apply not_found_wp. }
  intros [[[blk pos]|]|rc] f2; [|done|by apply HE]. cbv beta iota.
  intros (j & M & v & c' & _ & HM & Hv & _ & Hne & A3 & V3 & _ & Ei & Et). cbn [fst snd] in *.
  set (b3 := b_set_ref _ _ (b_set_fs _ b2)). assert (B3 : babs (bsz := bsz) sb li Ref N b3 ir c' (fupd blk (h1 blk + 1) h1)) by (by eapply babs_at).
  apply wp_bind, wp_get. replace (f_sb (b_fs b3)) with sb by (symmetry; apply (babs_sb _ _ _ _ _ _ _ _ B3)). cbv beta iota.
  pose proof (fabs_held _ _ _ _ _ _ _ _ A2 blk) as Hh. set (h2 := fupd blk _ h1) in *.
  assert (H2 : 0 < h2 blk) by (unfold h2; rewrite fupd_eq; lia).
  apply wp_bind, wp_on_fs, wp_get. rewrite (bs_read_abs _ _ _ _ _ _ (babs_st _ _ _ _ _ _ _ _ B3) H2). cbv beta iota.
  set (b4 := b_set_fs _ b3). assert (B4 : babs (bsz := bsz) sb li Ref N b4 ir c' h2) by done.
  apply wp_bind, wp_try, wp_at. pose proof B4 as [E4 A4]. rewrite E4. unfold ext4_dir_destroy_result. cbn [fst].
  replace (blk =? 0) with false by lia. fs_step; [done|apply not_elem_of_empty|]. intros f5 A5. cbv beta iota. apply wp_ok.
  set (b5 := b_set_ref _ _ (b_set_fs _ b4)). assert (B5 : babs (bsz := bsz) sb li Ref N b5 ir c' h1).
  { eapply babs_weaken; [by eapply babs_at|eapply fabs_budget, A5|done|]. intros y. symmetry. apply fupd_restore. }
  apply (put_wp b5 c' N (fun b6 => (exists t, _ /\ _) /\ _) B5). intros b6 (ir' & A6).
  split; [|by exists c', ir'].
  exists v.2. rewrite Ei, Et. split; [|done]. destruct v as [v1 v2]. by apply (names_lookup ms j M name (v1, v2) (dv_apart _ _ _ _ _ _ V)).
Qed.
End Read.

(** ** On the sample volume *)

Definition vol_data : @DataStore (bdev ramdisk) vol_store := cache_data ram_end_write vol_jbd vol_jbd.
Definition vol_data_laws : @DataStoreLaws (bdev ramdisk) vol_store 1024 10000 vol_laws vol_data :=
  cache_data_laws (ph := 512) ram_end_write vol_jbd vol_jbd 1024 10000.
Definition vol_bridge : bridge (bdev ramdisk) :=
  mk_bridge (mk_fsys false vol_sb 0 vol_iref vol_cache) (fun _ => vol_iref) false true true true false 0 64
    (replicate EXT4B_RESERVE_SLOTS (mk_slot 0 0)) 0 [].

Local Ltac vc := by vm_compute.
Lemma vol_bridge_abs :
  @fabs (bdev ramdisk) vol_store 1024 vol_laws 0 (b_fs vol_bridge) vol_sb vol_iref 0 vol_contents (fun _ => 0) ∅.
Proof. split; [done..|]. apply vol_cache_abs. Qed.
Lemma vol_inode3 : inode_at vol_sb vol_contents 3 = vol_dir_iref.
Proof. vc. Qed.
Lemma vol_file : file_vol vol_sb (inode_at vol_sb vol_contents 3) 10000 vol_contents vol_dir_place [] 2048.
Proof.
  rewrite vol_inode3. split; [vc|vc| | |].
  - exact (dv_map _ _ _ _ _ _ vol_dir_vol).
  - intros Hx. assert (E : inode_extents vol_sb vol_dir_iref vol_contents = false) by vc. congruence.
  - intros i Hi. assert (E : (2048 + ext4_sb_get_block_size vol_sb - 1) / ext4_sb_get_block_size vol_sb = 2) by vc. rewrite E in Hi.
    unfold vol_dir_place. split; [lia|apply not_elem_of_nil].
Qed.

(** The tail of its first block and all of the second. *)
Lemma read_returns_the_file_witness :
  exists x, fst (@ext4b_read _ vol_store vol_data 3 5 4000 vol_bridge) = Ok (EOK, x) /\ blen x = 2043 /\
    byte_at x 3 = 97 /\ byte_at x (1024 + 3) = 98 /\ reads_file 1024 vol_contents vol_dir_place 5 x.
Proof.
  set (run := @ext4b_read _ vol_store vol_data 3 5 4000 vol_bridge).
  assert (E : match fst run with Ok (rc, x) => rc = EOK /\ byte_at x 3 = 97 /\ byte_at x (1024 + 3) = 98 | Err _ => False end)
    by (vm_compute; repeat split).
  pose proof (read_returns_the_file (BL := vol_laws) (DL := vol_data_laws) 0 vol_bridge vol_sb vol_iref 0 vol_contents (fun _ => 0)
    vol_bridge_abs eq_refl ltac:(vc) ltac:(lia) 3 ltac:(vc) vol_dir_place [] 2048 5 4000 vol_file ltac:(lia) ltac:(lia) ltac:(lia) ltac:(lia) ltac:(vc)) as H.
  unfold wp in H. fold run in H. destruct run as [[[rc x]|rc] b']; [|done]. cbn [fst] in E. destruct E as (-> & E1 & E2).
  destruct H as (H1 & _ & H2 & _). exists x. split; [done|]. split; [by rewrite H2|]. done.
Defined.
Lemma lookup_is_the_map_witness :
  fst (@ext4b_lookup _ vol_store [] 3 [98] vol_bridge) = Ok (Some (14, EXT4B_TYPE_UNKNOWN)) /\
  dir_names vol_dir_maps !! [98] = Some (14, 0).
Proof.
  set (run := @ext4b_lookup _ vol_store [] 3 [98] vol_bridge).
  assert (E : fst run = Ok (Some (14, EXT4B_TYPE_UNKNOWN))) by (vm_compute; reflexivity). split; [exact E|].
  pose proof (lookup_is_the_map (BL := vol_laws) 0 vol_bridge vol_sb vol_iref 0 vol_contents (fun _ => 0)
    vol_bridge_abs eq_refl 3 ltac:(vc) [] [98] vol_dir_place [] vol_dir_maps vol_dir_geom) as H.
  rewrite vol_inode3 in H. specialize (H vol_dir_vol).
  assert (H1 : 1 <= blen [98] <= 255) by (split; vc). specialize (H H1).
  assert (H2 : ext4_inode_is_type vol_sb (ir_off vol_dir_iref) (vol_contents (ir_block vol_dir_iref)) EXT4_INODE_MODE_DIRECTORY = true) by vc.
  specialize (H H2). cbv zeta in H. assert (H3 : 0 + 2 + 6 * Z.of_nat (length vol_dir_maps) < 2 ^ 32) by vc. specialize (H H3).
  unfold wp in H. fold run in H.
  destruct run as [r b']. cbn [fst] in E. rewrite E in H. destruct H as ((t & H & Ht) & _). rewrite H. vc.
Defined.
