(* ===== verification/BridgeDir.v ===== *)
(** * The bridge: names and the orphan list

    The operations of Core/shim/ext4_bridge.c that change directories: creating,
    linking, removing and renaming, with the list of inodes that lost their last name
    while open. *)

From S2P Require Import Prelude Layout Types Bitmap Super BlockGroup Inode Store Group Fs Data.
From S2P Require Import ExtNode Extent DirBlock Balloc Ialloc ExtTree ExtRemove Imap InodeOps DirIdx Dir Bridge.

Definition TOUCH_ATIME : Z := 1.
Definition TOUCH_MTIME : Z := 2.
Definition TOUCH_CTIME : Z := 4.
Definition TOUCH_CRTIME : Z := 8.
Definition EXT4_DIRECTORY_FILENAME_LEN : Z := 255.
Definition EXT4B_ROOT_INO : Z := 2.
Definition EXT4_GOOD_OLD_FIRST_INO : Z := 11.
Definition ORPHAN_WALK_LIMIT : nat := Z.to_nat 4096.
Definition dot : list Z := [46].
Definition dotdot : list Z := [46; 46].

Definition type_to_filetype (t : ext4b_item_type) : option Z :=
  match t with
  | EXT4B_TYPE_FILE => Some EXT4_DE_REG_FILE
  | EXT4B_TYPE_DIR => Some EXT4_DE_DIR
  | EXT4B_TYPE_SYMLINK => Some EXT4_DE_SYMLINK
  | EXT4B_TYPE_FIFO => Some EXT4_DE_FIFO
  | EXT4B_TYPE_CHARDEV => Some EXT4_DE_CHRDEV
  | EXT4B_TYPE_BLOCKDEV => Some EXT4_DE_BLKDEV
  | EXT4B_TYPE_SOCKET => Some EXT4_DE_SOCK
  | EXT4B_TYPE_UNKNOWN => None
  end.

(** The times [which] of the inode at byte [p]. *)
Definition touch_inode (sb : list Z) (t which p : Z) (b : list Z) : list Z :=
  let b := if has_bits which TOUCH_ATIME then ext4_inode_set_access_time p t b else b in
  let b := if has_bits which TOUCH_MTIME then ext4_inode_set_modif_time p t b else b in
  let b := if has_bits which TOUCH_CTIME then ext4_inode_set_change_inode_time p t b else b in
  if (24 <=? ext4_inode_get_extra_isize sb p b) && has_bits which TOUCH_CRTIME then wr ino_crtime p t b else b.

Definition is_immutable (p : Z) (b : list Z) : bool := ext4_inode_has_flag p b EXT4_INODE_FLAG_IMMUTABLE.
Definition is_append_only (p : Z) (b : list Z) : bool := ext4_inode_has_flag p b EXT4_INODE_FLAG_APPEND.

(** Reserved inodes are never orphans, nor is what lies past the table. *)
Definition orphan_plausible (sb : list Z) (ino : Z) : bool :=
  let first := sb_get sb_first_inode sb in
  let first := if first <? EXT4B_ROOT_INO then EXT4_GOOD_OLD_FIRST_INO else first in
  (first <=? ino) && (ino <=? sb_get sb_inodes_count sb).

(** Inode [inode] off the table of reservations. *)
Definition resv_forget_in (inode : Z) (l : list resv_slot) : list resv_slot :=
  map (fun s => if rs_inode s =? inode then mk_slot 0 (rs_end_lblk s) else s) l.

Section BridgeDir.
Context {St : Type} {BS : BlockStore St} {DS : DataStore St} {TX : TxStore St}.
Context (stack : list Z).
Context (qsort : (dx_sort_entry -> dx_sort_entry -> Z) -> list dx_sort_entry -> list dx_sort_entry).
(** [clock_gettime]; the bound on loops whose end the medium decides. *)
Context (now : M St Z) (fuel : nat).
Local Abbreviation fsys := (fsys St).
Local Abbreviation bridge := (bridge St).

Definition now_seconds : M bridge Z :=
  r <- mtry (on_store now);;
  mok (match r with Ok t => u32 t | Err _ => 0 end).
(** The inode of [v], changed; [set_dirty] is [ref->dirty = true]. *)
Definition ref_store (v : ref_var) (g : Z -> list Z -> list Z) : M bridge unit := at_ v (inode_store g).
Definition set_dirty (v : ref_var) : M bridge unit := at_ v inode_dirty.
Definition touch (v : ref_var) (which : Z) : M bridge unit :=
  t <- now_seconds;;
  sb <- the_sb;;
  ref_store v (touch_inode sb t which);;;
  set_dirty v.
Definition ref_get {A} (v : ref_var) (g : Z -> list Z -> A) : M bridge A := at_ v (on_inode g).
Definition links_inc (v : ref_var) : M bridge unit := at_ v ext4_fs_inode_links_count_inc.
Definition links_dec (v : ref_var) : M bridge unit := at_ v ext4_fs_inode_links_count_dec.
Definition find_name (v : ref_var) (name : list Z) : M bridge (option (Z * Z)) := at_ v (ext4_dir_find_entry stack name).
Definition remove_name (v : ref_var) (name : list Z) : M bridge (option unit) := at_ v (ext4_dir_remove_entry stack name).
Definition destroy_result (v : ref_var) (result : Z * Z) : M bridge unit := at_ v (ext4_dir_destroy_result result).
(** The inode number of an entry that was found, which is given back. *)
Definition entry_inode (v : ref_var) (result : Z * Z) : M bridge Z :=
  b <- on_fs (data (fst result));;
  mtry (destroy_result v result);;;
  mok (ext4_dir_en_get_inode (snd result) b).
(** [name] is not in the directory, and the directory could be searched. *)
Definition name_is_free (v : ref_var) (name : list Z) : M bridge (option unit) :=
  r <- mtry (find_name v name);;
  match r with
  | Ok None => mok None
  | Ok (Some result) => mtry (destroy_result v result);;; mfail EEXIST
  | Err rc => if negb (rc =? ENOENT) then mfail rc else mok (Some tt)
  end.
(** A failed undo is dropped. *)
Definition dropped (m : M bridge (option unit)) : M bridge (option unit) :=
  r <- mtry m;;
  mok (match r with Ok None => None | _ => Some tt end).

(** ** Directories *)

(** [while (it.curr != NULL)]: the error code, the answer and the iterator. *)
Fixpoint has_children_loop (v : ref_var) (fuel : nat) (it : dir_iter) : M bridge (Z * bool * dir_iter) :=
  match fuel, it_curr it with
  | S fuel, Some de =>
      sb <- the_sb;;
      b <- on_fs (data (it_blk it));;
      let len := ext4_dir_en_get_name_len sb de b in
      let nm := slice (de + 8) len b in
      if negb (ext4_dir_en_get_inode de b =? 0) && negb (bool_decide (nm = dot)) && negb (bool_decide (nm = dotdot))
      then mok (EOK, true, it)
      else
        let* (r, it) := at_ v (ext4_dir_iterator_next it) in
        if negb (r =? EOK) then mok (r, false, it) else has_children_loop v fuel it
  | _, _ => mok (EOK, false, it)
  end.
Definition dir_has_children (v : ref_var) : M bridge bool :=
  is_dir <- ref_is_type v EXT4_INODE_MODE_DIRECTORY;;
  if negb is_dir then mfail ENOTDIR
  else
    let* (r, it) := at_ v (ext4_dir_iterator_init 0) in
    if negb (r =? EOK) then mfail r
    else
      sb <- the_sb;;
      size <- ref_get v (ext4_inode_get_size sb);;
      let* (r, out, it) := has_children_loop v (S (Z.to_nat size)) it in
      mtry (at_ v (ext4_dir_iterator_fini it));;;
      if r =? EOK then mok out else mfail r.

(** A new directory's own entries. *)
Definition make_dots (parent child : ref_var) (name : list Z) : M bridge (option unit) :=
  sb <- the_sb;;
  self <- at_ child this_child;;
  up <- at_ parent this_child;;
  if ext4_sb_feature_com sb EXT4_FCOM_DIR_INDEX then
    at_ child (ext4_dir_dx_init up);;;
    ref_store child (fun p => ext4_inode_set_flag p EXT4_INODE_FLAG_INDEX);;;
    set_dirty child;;;
    mok (Some tt)
  else
    r <- mtry (at_ child (ext4_dir_add_entry stack qsort dot self));;
    match r with
    | Ok None => mok None
    | Err rc => dropped (remove_name parent name) ;;? mfail rc
    | Ok (Some _) =>
        r <- mtry (at_ child (ext4_dir_add_entry stack qsort dotdot up));;
        match r with
        | Ok None => mok None
        | Err rc => dropped (remove_name parent name) ;;? dropped (remove_name child dot) ;;? mfail rc
        | Ok (Some _) => mok (Some tt)
        end
    end.
(** A directory that gets another parent: its entry "..". *)
Definition repoint_dotdot (parent child : ref_var) : M bridge (option unit) :=
  indexed <- ref_get child (fun p b => ext4_inode_has_flag p b EXT4_INODE_FLAG_INDEX);;
  index <- ref_index parent;;
  if negb indexed then
    r <- mtry (find_name child dotdot);;
    match r with
    | Err _ => mfail EIO
    | Ok None => mok None
    | Ok (Some (blk, de)) =>
        on_fs (store blk (ext4_dir_en_set_inode de index));;;
        mtry (on_store (bs_dirty blk));;;
        osome (destroy_result child (blk, de))
    end
  else osome (at_ child (ext4_dir_dx_reset_parent_inode index)).
Definition link_child (parent child : ref_var) (name : list Z) (rename : bool) : M bridge (option unit) :=
  if EXT4_DIRECTORY_FILENAME_LEN <? blen name then mfail ENAMETOOLONG
  else
    self <- at_ child this_child;;
    at_ parent (ext4_dir_add_entry stack qsort name self) ;;?
    is_dir <- ref_is_type child EXT4_INODE_MODE_DIRECTORY;;
    if is_dir && negb rename then
      make_dots parent child name ;;?
      ref_store child (fun p => ext4_inode_set_links_cnt p 2);;;
      links_inc parent;;;
      set_dirty child;;;
      set_dirty parent;;;
      mok (Some tt)
    else
      (if (is_dir : bool) then
         repoint_dotdot parent child ;;?
         links_inc parent;;;
         set_dirty parent;;;
         mok (Some tt)
       else mok (Some tt)) ;;?
      (if negb rename then links_inc child;;; set_dirty child else mok tt);;;
      mok (Some tt).
Definition unlink_child (parent child : ref_var) (name : list Z) : M bridge (option unit) :=
  is_dir <- ref_is_type child EXT4_INODE_MODE_DIRECTORY;;
  has_children <- (if (is_dir : bool) then dir_has_children child else mok false);;
  if (has_children : bool) then mfail ENOTEMPTY
  else
    remove_name parent name ;;?
    (if (is_dir : bool) then
       links_dec parent;;;
       set_dirty parent;;;
       ref_store child (fun p => ext4_inode_set_links_cnt p 0)
     else links_dec child);;;
    touch parent (Z.lor TOUCH_MTIME TOUCH_CTIME);;;
    touch child TOUCH_CTIME;;;
    set_dirty child;;;
    mok (Some tt).

Definition ref_immutable (v : ref_var) : M bridge bool := ref_get v is_immutable.
Definition ref_append_only (v : ref_var) : M bridge bool := ref_get v is_append_only.
Definition unlink_forbidden (dir victim : ref_var) : M bridge bool :=
  a <- ref_immutable dir;;
  b <- ref_append_only dir;;
  c <- ref_immutable victim;;
  d <- ref_append_only victim;;
  mok (a || b || c || d).

(** What ".." of a directory names; 0 on any failure. *)
Definition dir_parent_inode (dir_inode : Z) : M bridge Z :=
  r <- mtry (with_ref Ref dir_inode
    (sb <- the_sb;;
     fblk <- mtry (at_ Ref (ext4_fs_get_inode_dblk_idx 0 false));;
     match fblk with
     | Err _ => mok 0
     | Ok fblk =>
         if fblk =? 0 then mok 0
         else
           r <- mtry (on_store (bs_get fblk));;
           match r with
           | Err _ => mok 0
           | Ok _ =>
               b <- on_fs (data fblk);;
               mtry (on_store (bs_set fblk));;;
               mok (match ext4_dir_find_in_block sb dotdot b with
                    | Ok de => ext4_dir_en_get_inode de b
                    | Err _ => 0
                    end)
           end
     end));;
  mok (match r with Ok parent => parent | Err _ => 0 end).

(** The blocks of an inode given back, and the inode. *)
Definition truncate_and_free (v : ref_var) : M bridge (option unit) :=
  t <- at_ v (ext4_fs_truncate_inode fuel 0);;
  match t with
  | Some true => osome (at_ v ext4_fs_free_inode)
  | _ => mok None
  end.
Definition set_del_time (v : ref_var) : M bridge unit :=
  t <- now_seconds;;
  ref_store v (fun p => ext4_inode_set_del_time p t).

(** ** Creating *)

(** The target of a new symbolic link, in the inode or in a block of its own. *)
Definition link_payload (target : list Z) : M bridge unit :=
  if blen target <? f_size ino_blocks then
    ref_store Child (fun p b =>
      let at_ := p + f_off ino_blocks in
      ext4_inode_set_size p (blen target) (memcpy_at at_ target (memset_at at_ 0 (f_size ino_blocks) b)));;;
    set_dirty Child
  else
    let* (fblk, iblk) := at_ Child ext4_fs_append_inode_dblk in
    sb <- the_sb;;
    let bsize := ext4_sb_get_block_size sb in
    r <- mtry (on_store (bs_calloc bsize));;
    match r with
    | Err _ => mfail ENOMEM
    | Ok _ =>
        on_store (ds_writebytes (u64 (fblk * bsize)) (memcpy_at 0 target (replicate (Z.to_nat bsize) 0)));;;
        ref_store Child (fun p => ext4_inode_set_size p (blen target));;;
        set_dirty Child
    end.
Definition new_attributes (sb : list Z) (mode uid gid p : Z) (b : list Z) : list Z :=
  let full_mode := ext4_inode_get_mode sb p b in
  let full_mode := Z.lor (Z.land full_mode EXT4_INODE_MODE_TYPE_MASK) (Z.land mode 0x0FFF) in
  ext4_inode_set_gid p gid (ext4_inode_set_uid p uid (ext4_inode_set_mode sb p full_mode b)).
(** The new inode, when something after its allocation failed: freed, and not
    written. *)
Definition undo_inode : M bridge unit :=
  mtry (at_ Child ext4_fs_free_inode);;;
  ref_clean Child.
Definition create_body (name : list Z) (filetype mode uid gid : Z) (target : list Z) : M bridge (option Z) :=
  immutable <- ref_immutable Parent;;
  is_dir <- ref_is_type Parent EXT4_INODE_MODE_DIRECTORY;;
  if (immutable : bool) then mfail EPERM
  else if negb is_dir then mfail ENOTDIR
  else
    name_is_free Parent name ;;?
    at_ Child (ext4_fs_alloc_inode filetype);;;
    finally
      (mtry (at_ Child ext4_fs_inode_blocks_init);;;
       sb <- the_sb;;
       ref_store Child (new_attributes sb mode uid gid);;;
       touch Child (Z.lor (Z.lor TOUCH_ATIME TOUCH_MTIME) (Z.lor TOUCH_CTIME TOUCH_CRTIME));;;
       r <- mtry (link_child Parent Child name false);;
       match r with
       | Ok None => mok None
       | Err rc => undo_inode;;; mfail rc
       | Ok (Some _) =>
           r <- (if blen target =? 0 then mok (Ok tt) else mtry (link_payload target));;
           match r with
           | Err rc =>
               dropped (remove_name Parent name) ;;?
               links_dec Child;;;
               set_del_time Child;;;
               undo_inode;;;
               mfail rc
           | Ok _ =>
               touch Parent (Z.lor TOUCH_MTIME TOUCH_CTIME);;;
               index <- ref_index Child;;
               mok (Some index)
           end
       end)
      (put_ref Child).
Definition create_common (parent_inode : Z) (name : list Z) (filetype mode uid gid : Z) (target : list Z) : M bridge (option Z) :=
  if (blen name =? 0) || (EXT4_DIRECTORY_FILENAME_LEN <? blen name) then mfail ENAMETOOLONG
  else in_txn (with_ref Parent parent_inode (create_body name filetype mode uid gid target)).
Definition ext4b_create (parent_inode : Z) (name : list Z) (type : ext4b_item_type) (mode uid gid : Z) : M bridge (option Z) :=
  write_prologue;;;
  match type_to_filetype type with
  | None => mfail EINVAL
  | Some filetype =>
      if bool_decide (type = EXT4B_TYPE_SYMLINK) then mfail EINVAL
      else create_common parent_inode name filetype mode uid gid []
  end.
Definition ext4b_symlink (parent_inode : Z) (name target : list Z) (uid gid : Z) : M bridge (option Z) :=
  write_prologue;;;
  if blen target =? 0 then mfail EINVAL
  else
    sb <- the_sb;;
    if (ext4_sb_get_block_size sb <=? blen target) || (4095 <? blen target) then mfail ENAMETOOLONG
    else create_common parent_inode name EXT4_DE_SYMLINK 0x1FF uid gid target.
Definition hardlink_body (name : list Z) : M bridge (option unit) :=
  a <- ref_immutable Parent;;
  b <- ref_immutable Child;;
  c <- ref_append_only Child;;
  is_dir <- ref_is_type Child EXT4_INODE_MODE_DIRECTORY;;
  if a || b || c then mfail EPERM
  else if (is_dir : bool) then mfail EPERM
  else
    name_is_free Parent name ;;?
    link_child Parent Child name false ;;?
    touch Child TOUCH_CTIME;;;
    touch Parent (Z.lor TOUCH_MTIME TOUCH_CTIME);;;
    mok (Some tt).
Definition ext4b_hardlink (parent_inode : Z) (name : list Z) (target_inode : Z) : M bridge (option unit) :=
  write_prologue;;;
  if (blen name =? 0) || (EXT4_DIRECTORY_FILENAME_LEN <? blen name) then mfail ENAMETOOLONG
  else in_txn (with_ref Parent parent_inode (with_ref Child target_inode (hardlink_body name))).

(** ** The orphan list

    A chain from [last_orphan] of the superblock through the deletion times of its
    inodes. *)

Definition orphan_next (v : ref_var) : M bridge Z := ref_get v ext4_inode_get_del_time.
(** The successor, or 0 where it cannot be one. *)
Definition orphan_after (v : ref_var) : M bridge Z :=
  sb <- the_sb;;
  next <- orphan_next v;;
  mok (if orphan_plausible sb next then next else 0).
Definition orphan_set_next (v : ref_var) (next : Z) : M bridge unit :=
  ref_store v (fun p => ext4_inode_set_del_time p next);;;
  set_dirty v.
Definition last_orphan : M bridge Z := sb <- the_sb;; mok (sb_get sb_last_orphan sb).
Definition set_last_orphan (ino : Z) : M bridge unit := mod_sb (sb_set sb_last_orphan ino).

Definition inode_in_use (index : Z) : M bridge bool :=
  sb <- the_sb;;
  let per_group := sb_get sb_inodes_per_group sb in
  if (per_group =? 0) || (index =? 0) then mfail EINVAL
  else
    g <- on_fs (ext4_fs_get_block_group_ref ((index - 1) / per_group));;
    bg <- on_fs (data (br_block g));;
    let bitmap := ext4_bg_get_inode_bitmap (br_off g) bg sb in
    r <- mtry (on_store (bs_get bitmap));;
    match r with
    | Err rc => mtry (on_fs (ext4_fs_put_block_group_ref g));;; mfail rc
    | Ok _ =>
        b <- on_fs (data bitmap);;
        mtry (on_store (bs_set bitmap));;;
        mtry (on_fs (ext4_fs_put_block_group_ref g));;;
        mok (ext4_bmap_is_bit_set b ((index - 1) mod per_group))
    end.

(** In a transaction the superblock is part of it; outside one it is written at
    once. *)
Definition orphan_publish_head (ino : Z) : M bridge unit :=
  set_last_orphan ino;;;
  sb <- the_sb;;
  mod_sb ext4_sb_set_csum;;;
  j <- mget b_jbd_journal;;
  t <- mget b_curr_trans;;
  if j && t then on_store (tx_sb_write sb)
  else
    on_store (bs_sb_write sb);;;
    host_flush.

(** [for (guard = 0; prev != 0 && guard < ORPHAN_WALK_LIMIT; guard++)]: the entry
    before [ino] gets the successor [after]. *)
Fixpoint orphan_unlink (guard : nat) (prev ino after : Z) : M bridge unit :=
  match guard with
  | O => mok tt
  | S guard =>
      sb <- the_sb;;
      if (prev =? 0) || negb (orphan_plausible sb prev) then mok tt
      else
        next <- with_ref Ref prev
          (next <- orphan_next Ref;;
           (if next =? ino then orphan_set_next Ref after else mok tt);;;
           mok next);;
        if next =? ino then mok tt else orphan_unlink guard next ino after
  end.
Definition orphan_del (ino : Z) : M bridge unit :=
  head <- last_orphan;;
  if (head =? 0) || (ino =? 0) then mok tt
  else
    r <- mtry (in_txn
      (after <- with_ref Ref ino
         (after <- orphan_after Ref;;
          orphan_set_next Ref 0;;;
          mok after);;
       if head =? ino then orphan_publish_head after
       else orphan_unlink ORPHAN_WALK_LIMIT head ino after));;
    match r with
    | Ok _ => mok tt
    | Err rc =>
        (if head =? ino then set_last_orphan head else mok tt);;;
        mfail rc
    end.

(** What is to be done with an entry of the list: [None] of the answer is undefined;
    else whether the inode was freed.  An inode whose bit is clear has been freed
    already, one with links is not deleted. *)
Definition orphan_settle (ino : Z) : M bridge (option bool) :=
  next <- orphan_after Ref;;
  in_use <- inode_in_use ino;;
  orphan_publish_head next;;;
  links <- ref_get Ref ext4_inode_get_links_cnt;;
  if negb in_use then mok (Some false)
  else if negb (links =? 0) then orphan_set_next Ref 0;;; mok (Some false)
  else
    set_del_time Ref;;;
    set_dirty Ref;;;
    truncate_and_free Ref ;;?
    mok (Some true).
(** [for (guard = 0; guard < ORPHAN_WALK_LIMIT; guard++)]: how many were freed and how
    many dropped. *)
Fixpoint orphan_cleanup_loop (guard : nat) (freed dropped : Z) : M bridge (option (Z * Z)) :=
  match guard with
  | O => mok (Some (freed, dropped))
  | S guard =>
      sb <- the_sb;;
      let ino := sb_get sb_last_orphan sb in
      if ino =? 0 then mok (Some (freed, dropped))
      else if negb (orphan_plausible sb ino) then orphan_publish_head 0;;; mok (Some (freed, dropped))
      else
        f <-? in_txn (with_ref Ref ino (orphan_settle ino));;
        if (f : bool) then orphan_cleanup_loop guard (freed + 1) dropped
        else orphan_cleanup_loop guard freed (dropped + 1)
  end.
Definition ext4b_orphan_cleanup : M bridge (option (Z * Z)) :=
  write_prologue;;;
  orphan_cleanup_loop ORPHAN_WALK_LIMIT 0 0.

Definition resv_forget (inode : Z) : M bridge unit :=
  mmod (fun b => b_set_resv (resv_forget_in inode (b_resv b)) (b_resv_next b) b).

(** The inode's blocks and number given back; its successor on the list.  An inode
    that has been freed already is left alone. *)
Definition release_body (inode : Z) : M bridge (option (option Z)) :=
  links <- ref_get Ref ext4_inode_get_links_cnt;;
  if negb (links =? 0) then mfail EBUSY
  else
    in_use <- mtry (inode_in_use inode);;
    match in_use with
    | Ok false => mok (Some None)
    | _ =>
        next <- orphan_after Ref;;
        set_del_time Ref;;;
        set_dirty Ref;;;
        truncate_and_free Ref ;;?
        mok (Some (Some next))
    end.
Definition ext4b_release_inode (inode : Z) : M bridge (option unit) :=
  write_prologue;;;
  if inode <? EXT4B_ROOT_INO then mfail EINVAL
  else
    resv_forget inode;;;
    head <- last_orphan;;
    let is_head := head =? inode in
    (if negb is_head then orphan_del inode else mok tt);;;
    r <- mtry (in_txn
      (next <-? with_ref Ref inode (release_body inode);;
       match next with
       | Some next => if is_head then osome (orphan_publish_head next) else mok (Some tt)
       | None => mok (Some tt)
       end));;
    match r with
    | Ok x => mok x
    | Err rc =>
        (if is_head then set_last_orphan inode else mok tt);;;
        mfail rc
    end.

(** ** Removing *)

(** The last name is gone: the inode joins the orphan list, or goes. *)
Definition release_name (defer_release : bool) : M bridge (option bool) :=
  prev_head <- last_orphan;;
  links <- ref_get Child ext4_inode_get_links_cnt;;
  if negb (links =? 0) then mok (Some false)
  else if defer_release then orphan_set_next Child prev_head;;; mok (Some true)
  else
    index <- ref_index Child;;
    resv_forget index;;;
    set_del_time Child;;;
    truncate_and_free Child ;;?
    mok (Some false).
(** The inode removed, and whether it has to be put on the orphan list. *)
Definition unlink_body (name : list Z) (defer_release : bool) : M bridge (option (Z * bool)) :=
  found <- mtry (find_name Parent name);;
  match found with
  | Err _ => mfail ENOENT
  | Ok None => mok None
  | Ok (Some result) =>
      child_ino <- entry_inode Parent result;;
      with_ref Child child_ino
        (forbidden <- unlink_forbidden Parent Child;;
         if (forbidden : bool) then mfail EPERM
         else
           unlink_child Parent Child name ;;?
           joins <-? release_name defer_release;;
           mok (Some (child_ino, joins)))
  end.
(** Publishing the head; a failure is logged and the head in memory put back.  Whether
    the inode is on the list. *)
Definition join_orphans (prev_head child_ino : Z) : M bridge bool :=
  r <- mtry (orphan_publish_head child_ino);;
  match r with
  | Ok _ => mok true
  | Err _ => set_last_orphan prev_head;;; mok false
  end.
(** Whether the inode is now without a name and waits to be released. *)
Definition ext4b_unlink_ex (parent_inode : Z) (name : list Z) (defer_release : bool) : M bridge (option bool) :=
  write_prologue;;;
  if (blen name =? 0) || bool_decide (name = dot) || bool_decide (name = dotdot) then mfail EINVAL
  else
    txn_begin;;;
    prev_head <- last_orphan;;
    r <- mtry
      (x <-? with_ref Parent parent_inode (unlink_body name defer_release);;
       joined <- (if (snd x : bool) then join_orphans prev_head (fst x) else mok false);;
       mok (Some (snd x, joined)));;
    f <- mtry (txn_finish (rc_of r));;
    match r, f with
    | Ok None, Ok _ => mok None
    | Ok (Some (unreferenced, _)), Ok _ => mok (Some unreferenced)
    | Ok (Some (_, true)), Err rc => mtry (orphan_publish_head prev_head);;; mfail rc
    | _, Err rc => mfail rc
    | Err rc, Ok _ => mfail rc
    end.
Definition ext4b_unlink (parent_inode : Z) (name : list Z) : M bridge (option bool) :=
  ext4b_unlink_ex parent_inode name false.

(** ** Renaming *)

(** [while (walk != EXT4_INODE_ROOT_INDEX)]: [child_ino] is not above [walk]. *)
Fixpoint not_above (fuel : nat) (walk child_ino : Z) : M bridge (option unit) :=
  if walk =? EXT4B_ROOT_INO then mok (Some tt)
  else
    match fuel with
    | O => mok None
    | S fuel =>
        if walk =? child_ino then mfail EINVAL
        else
          parent_of <- dir_parent_inode walk;;
          if (parent_of =? 0) || (parent_of =? walk) then mok (Some tt) else not_above fuel parent_of child_ino
    end.
(** What has the destination's name is removed. *)
Definition replace_victim (child_is_dir : bool) (dst_name : list Z) : M bridge (option unit) :=
  victim_is_dir <- ref_is_type Victim EXT4_INODE_MODE_DIRECTORY;;
  if negb child_is_dir && victim_is_dir then mfail EISDIR
  else if child_is_dir && negb victim_is_dir then mfail ENOTDIR
  else
    forbidden <- unlink_forbidden Dp Victim;;
    if (forbidden : bool) then mfail EPERM
    else
      unlink_child Dp Victim dst_name ;;?
      links <- ref_get Victim ext4_inode_get_links_cnt;;
      if negb (links =? 0) then mok (Some tt)
      else
        index <- ref_index Victim;;
        resv_forget index;;;
        set_del_time Victim;;;
        truncate_and_free Victim.
Definition rename_child (src_parent dst_parent child_ino : Z) (src_name dst_name : list Z) : M bridge (option unit) :=
  forbidden <- unlink_forbidden Parent Child;;
  immutable <- ref_immutable Dp;;
  if forbidden || immutable then mfail EPERM
  else
    child_is_dir <- ref_is_type Child EXT4_INODE_MODE_DIRECTORY;;
    (if child_is_dir && negb (dst_parent =? src_parent) then not_above fuel dst_parent child_ino else mok (Some tt)) ;;?
    found <- mtry (find_name Dp dst_name);;
    (match found with
     | Ok None => mok None
     | Err rc => if negb (rc =? ENOENT) then mfail rc else mok (Some tt)
     | Ok (Some result) =>
         victim_ino <- entry_inode Dp result;;
         if victim_ino =? child_ino then mok (Some tt)
         else with_ref Victim victim_ino (replace_victim child_is_dir dst_name)
     end) ;;?
    link_child Dp Child dst_name true ;;?
    remove_name Parent src_name ;;?
    (if child_is_dir && negb (src_parent =? dst_parent) then links_dec Parent;;; set_dirty Parent else mok tt);;;
    touch Child TOUCH_CTIME;;;
    touch Parent (Z.lor TOUCH_MTIME TOUCH_CTIME);;;
    (if negb (src_parent =? dst_parent) then touch Dp (Z.lor TOUCH_MTIME TOUCH_CTIME) else mok tt);;;
    mok (Some tt).
Definition rename_body (src_parent dst_parent : Z) (src_name dst_name : list Z) : M bridge (option unit) :=
  found <- mtry (find_name Parent src_name);;
  match found with
  | Err _ => mfail ENOENT
  | Ok None => mok None
  | Ok (Some result) =>
      child_ino <- entry_inode Parent result;;
      with_ref Child child_ino (rename_child src_parent dst_parent child_ino src_name dst_name)
  end.
(** Within one directory the second reference is a copy of the first, and is not given
    back. *)
Definition ext4b_rename (src_parent : Z) (src_name : list Z) (dst_parent : Z) (dst_name : list Z) : M bridge (option unit) :=
  write_prologue;;;
  if (blen src_name =? 0) || (blen dst_name =? 0) || (EXT4_DIRECTORY_FILENAME_LEN <? blen dst_name) then mfail EINVAL
  else
    in_txn (with_ref Parent src_parent
      (if dst_parent =? src_parent then
         mmod (fun b => b_set_ref Dp (b_refs b Parent) b);;;
         rename_body src_parent dst_parent src_name dst_name
       else with_ref Dp dst_parent (rename_body src_parent dst_parent src_name dst_name))).
End BridgeDir.
