(* ===== verification/BridgeData.v ===== *)
(** * The bridge: file data

    The operations of Core/shim/ext4_bridge.c that write, resize and preallocate files,
    with the table of the blocks they allocate ahead. *)

From S2P Require Import Prelude Layout Types Super BlockGroup Inode Store Group Fs Data.
From S2P Require Import ExtNode Extent Balloc ExtTree ExtRemove Imap InodeOps DirIdx Dir Bridge BridgeDir.

Definition EXT4B_RESERVE_TRIGGER : Z := 64.
Definition EXT4B_RESERVE_AHEAD : Z := 2048.

(** ** The table of reservations *)

(** [resv_end]: the first slot of the inode; 0 if it has none. *)
Fixpoint resv_end_in (l : list resv_slot) (inode : Z) : Z :=
  match l with
  | [] => 0
  | s :: l => if rs_inode s =? inode then rs_end_lblk s else resv_end_in l inode
  end.
(** The first slot [p] picks, overwritten. *)
Fixpoint resv_put_first (p : resv_slot -> bool) (s' : resv_slot) (l : list resv_slot) : option (list resv_slot) :=
  match l with
  | [] => None
  | s :: l => if p s then Some (s' :: l) else (fun l => s :: l) <$> resv_put_first p s' l
  end.
(** The table and the cursor after [resv_set], and the inode evicted, if one was. *)
Definition resv_set_in (l : list resv_slot) (cursor inode end_lblk : Z) : list resv_slot * Z * option Z :=
  let s := mk_slot inode end_lblk in
  match resv_put_first (fun s => rs_inode s =? inode) s l with
  | Some l => (l, cursor, None)
  | None =>
      match resv_put_first (fun s => rs_inode s =? 0) s l with
      | Some l => (l, cursor, None)
      | None =>
          let slot := cursor mod Z.of_nat EXT4B_RESERVE_SLOTS in
          let victim := match l !! Z.to_nat slot with Some s => rs_inode s | None => 0 end in
          (<[Z.to_nat slot := s]> l, u32 (slot + 1), Some victim)
      end
  end.

(** What the loop of [ext4b_write] keeps: the bytes still to write and where, the
    blocks the file has, the run that is pending and the bytes counted as written. *)
Record wstate := mk_wstate {
  w_src : list Z;
  w_pos : Z;
  w_have_blocks : Z;
  w_run_first : Z;
  w_run_blocks : Z;
  w_run_bytes : Z;
  w_run_src : list Z;
  w_written : Z;
}.
Definition w_set_have (n : Z) (w : wstate) : wstate :=
  mk_wstate (w_src w) (w_pos w) n (w_run_first w) (w_run_blocks w) (w_run_bytes w) (w_run_src w) (w_written w).
(** [run_blocks = 0]; then [*out_written += run_bytes; run_bytes = n]. *)
Definition w_no_run (w : wstate) : wstate :=
  mk_wstate (w_src w) (w_pos w) (w_have_blocks w) (w_run_first w) 0 (w_run_bytes w) (w_run_src w) (w_written w).
Definition w_count_run (n : Z) (w : wstate) : wstate :=
  mk_wstate (w_src w) (w_pos w) (w_have_blocks w) (w_run_first w) (w_run_blocks w) n (w_run_src w)
    (w_written w + w_run_bytes w).
Definition w_new_run (first : Z) (w : wstate) : wstate :=
  mk_wstate (w_src w) (w_pos w) (w_have_blocks w) first 1 (w_run_bytes w) (w_src w) (w_written w).
Definition w_extend_run (chunk : Z) (w : wstate) : wstate :=
  mk_wstate (w_src w) (w_pos w) (w_have_blocks w) (w_run_first w) (u32 (w_run_blocks w + 1)) (w_run_bytes w + chunk)
    (w_run_src w) (w_written w).
Definition w_add_written (n : Z) (w : wstate) : wstate :=
  mk_wstate (w_src w) (w_pos w) (w_have_blocks w) (w_run_first w) (w_run_blocks w) (w_run_bytes w) (w_run_src w)
    (w_written w + n).
(** [src += n; pos += n; remaining -= n]. *)
Definition w_advance (n : Z) (w : wstate) : wstate :=
  mk_wstate (drop (Z.to_nat n) (w_src w)) (u64 (w_pos w + n)) (w_have_blocks w) (w_run_first w) (w_run_blocks w)
    (w_run_bytes w) (w_run_src w) (w_written w).
Definition w_remaining (w : wstate) : Z := blen (w_src w).

Section BridgeData.
Context {St : Type} {BS : BlockStore St} {DS : DataStore St} {TX : TxStore St}.
Context (now : M St Z) (fuel : nat).
Local Abbreviation fsys := (fsys St).
Local Abbreviation bridge := (bridge St).

Definition uses_extents_flag (v : ref_var) : M bridge bool :=
  ref_get v (fun p b => ext4_inode_has_flag p b EXT4_INODE_FLAG_EXTENTS).
Definition update_cached (lba off : Z) (p : list Z) : M bridge unit :=
  mmod (fun b => b_set_fs (f_set_st (ds_update_if_cached lba off p (f_st (b_fs b))) (b_fs b)) b).

(** Blocks past the end of the file, given back. *)
Definition trim_alloc_to_size (inode : Z) : M bridge (option unit) :=
  with_ref Victim inode
    (sb <- the_sb;;
     extents <- uses_extents_flag Victim;;
     links <- ref_get Victim ext4_inode_get_links_cnt;;
     del_time <- ref_get Victim ext4_inode_get_del_time;;
     if negb extents then mok (Some tt)
     else if (links =? 0) && negb (del_time =? 0) then mok (Some tt)
     else
       fsize <- ref_get Victim (ext4_inode_get_size sb);;
       let bsize := ext4_sb_get_block_size sb in
       let keep := u32 (u64 (fsize + bsize - 1) / bsize) in
       t <- at_ Victim (ext4_extent_remove_space fuel keep EXT_MAX_BLOCKS);;
       match t with
       | Some true => set_dirty Victim;;; mok (Some tt)
       | _ => mok None
       end).

Definition resv_end (inode : Z) : M bridge Z := mget (fun b => resv_end_in (b_resv b) inode).
Definition resv_set (inode end_lblk : Z) : M bridge (option unit) :=
  l <- mget b_resv;;
  cursor <- mget b_resv_next;;
  let '(l, cursor, victim) := resv_set_in l cursor inode end_lblk in
  mmod (b_set_resv l cursor);;;
  match victim with
  | None => mok (Some tt)
  | Some victim => trim_alloc_to_size victim
  end.
(** [for (i = 0; i < EXT4B_RESERVE_SLOTS; i++)]: the first error. *)
Fixpoint resv_release_loop (n i : nat) (first_err : Z) : M bridge (option Z) :=
  match n with
  | O => mok (Some first_err)
  | S n =>
      l <- mget b_resv;;
      let inode := match l !! i with Some s => rs_inode s | None => 0 end in
      mmod (fun b => b_set_resv (alter (fun s => mk_slot 0 (rs_end_lblk s)) i (b_resv b)) (b_resv_next b) b);;;
      if inode =? 0 then resv_release_loop n (S i) first_err
      else
        tr <- mtry (trim_alloc_to_size inode);;
        match tr with
        | Ok None => mok None
        | _ => resv_release_loop n (S i) (if negb (rc_of tr =? EOK) && (first_err =? EOK) then rc_of tr else first_err)
        end
  end.
Definition resv_release_all : M bridge (option Z) := resv_release_loop EXT4B_RESERVE_SLOTS 0 EOK.
Definition resv_drain : M bridge (option unit) :=
  in_txn (rc <-? resv_release_all;; osome (ret_rc rc)).

(** ** Writing *)

(** [for (i = 0; i < n; i++)] over the blocks from [lba] on. *)
Fixpoint update_blocks (n : nat) (bsize lba : Z) (p : list Z) : M bridge unit :=
  match n with
  | O => mok tt
  | S n => update_cached lba 0 (slice 0 bsize p);;; update_blocks n bsize (u64 (lba + 1)) (drop (Z.to_nat bsize) p)
  end.
Definition write_blocks (bsize first blocks : Z) (src : list Z) : M bridge unit :=
  on_store (ds_writebytes (u64 (first * bsize)) (slice 0 (u32 (blocks * bsize)) src));;;
  update_blocks (Z.to_nat blocks) bsize first src.
(** The pending run, written and forgotten: the error code, and what is kept. *)
Definition bridge_flush_run (bsize : Z) (w : wstate) : M bridge (Z * wstate) :=
  if w_run_blocks w =? 0 then mok (EOK, w)
  else
    r <- mtry (write_blocks bsize (w_run_first w) (w_run_blocks w) (w_run_src w));;
    mok (rc_of r, w_no_run w).

(** Whole blocks that are allocated and not yet written: written first, declared live
    after.  [None]: the block is not such a one. *)
Definition write_unwritten (bsize lblk : Z) (w : wstate) : M bridge (option (Z * wstate)) :=
  let want := u32 (w_remaining w / bsize) in
  r <- mtry (at_ Ref (ext4_extent_map_range lblk want));;
  match r with
  | Ok (at_blk, mapped, true) =>
      if (at_blk =? 0) || (mapped =? 0) then mok None
      else
        let* (rc, w) := bridge_flush_run bsize w in
        if negb (rc =? EOK) then mok (Some (rc, w))
        else
          let w := w_count_run 0 w in
          let n := u32 (mapped * bsize) in
          r <- mtry (write_blocks bsize at_blk mapped (w_src w);;; at_ Ref (ext4_extent_mark_written lblk mapped));;
          match r with
          | Err rc => mok (Some (rc, w))
          | Ok _ =>
              let w := w_advance n (w_add_written n w) in
              mok (Some (EOK, if w_have_blocks w <? u32 (lblk + mapped) then w_set_have (u32 (lblk + mapped)) w else w))
          end
  | _ => mok None
  end.

(** [while (have_blocks <= lblk)]: the error code, the last block appended and how
    many blocks the file has. *)
Fixpoint append_to (n : nat) (bsize lblk remaining fblk have : Z) : M bridge (Z * Z * Z) :=
  match n with
  | O => mok (EOK, fblk, have)
  | S n =>
      if lblk <? have then mok (EOK, fblk, have)
      else
        let need := (remaining + bsize - 1) / bsize in
        let need := if 0xFFFFFFFF <? need then 0xFFFFFFFF else need in
        let want := if (have =? lblk) && (1 <? need) then need else 1 in
        r <- mtry (at_ Ref (ext4_fs_append_inode_dblk_range want));;
        match r with
        | Err rc => mok (rc, fblk, have)
        | Ok (fblk, appended, got) => append_to n bsize lblk remaining fblk (u32 (have + got))
        end
  end.
(** The block of the volume to write to: the error code, the block, whether it is
    unwritten, and how many blocks the file has. *)
Definition write_target (bsize lblk : Z) (w : wstate) : M bridge (Z * Z * bool * Z) :=
  let have := w_have_blocks w in
  extents <- uses_extents_flag Ref;;
  mapped <- (if (have <=? lblk) && extents then
     r <- mtry (at_ Ref (ext4_extent_map_range lblk 1));;
     mok (match r with
          | Ok (at_blk, n_lb, unwr) => if negb (at_blk =? 0) && (0 <? n_lb) then Some (at_blk, unwr) else None
          | Err _ => None
          end)
   else mok None);;
  match mapped with
  | Some (at_blk, unwr) => mok (EOK, at_blk, unwr, have)
  | None =>
      if lblk <? have then
        r <- mtry (at_ Ref (ext4_fs_init_inode_dblk_idx lblk));;
        mok (match r with Ok fblk => (EOK, fblk, false, have) | Err rc => (rc, 0, false, have) end)
      else
        let* (rc, fblk, have) := append_to (Z.to_nat (lblk - have + 1)) bsize lblk (w_remaining w) 0 have in
        mok (rc, fblk, false, have)
  end.
(** A part of a block.  An unwritten one is made whole with zeros first. *)
Definition write_part (bsize lblk fblk in_off : Z) (unwritten : bool) (p : list Z) : M bridge unit :=
  if unwritten then
    r <- mtry (on_store (bs_calloc bsize));;
    match r with
    | Err _ => mfail ENOMEM
    | Ok _ =>
        let whole := memcpy_at in_off p (replicate (Z.to_nat bsize) 0) in
        on_store (ds_writebytes (u64 (fblk * bsize)) whole);;;
        update_cached fblk 0 whole;;;
        at_ Ref (ext4_extent_mark_written lblk 1)
    end
  else
    on_store (ds_writebytes (u64 (u64 (fblk * bsize) + in_off)) p);;;
    update_cached fblk in_off p.
(** One block or a part of one at [fblk]: the error code, and what is kept. *)
Definition write_chunk (bsize lblk fblk in_off chunk : Z) (unwritten : bool) (w : wstate) : M bridge (Z * wstate) :=
  if (in_off =? 0) && (chunk =? bsize) then
    if negb (w_run_blocks w =? 0) && (fblk =? u64 (w_run_first w + w_run_blocks w)) then
      mok (EOK, w_advance chunk (w_extend_run chunk w))
    else
      let* (rc, w) := bridge_flush_run bsize w in
      if negb (rc =? EOK) then mok (rc, w)
      else mok (EOK, w_advance chunk (w_new_run fblk (w_count_run chunk w)))
  else
    let* (rc, w) := bridge_flush_run bsize w in
    if negb (rc =? EOK) then mok (rc, w)
    else
      let w := w_count_run 0 w in
      r <- mtry (write_part bsize lblk fblk in_off unwritten (slice 0 chunk (w_src w)));;
      match r with
      | Err rc => mok (rc, w)
      | Ok _ => mok (EOK, w_advance chunk (w_add_written chunk w))
      end.
Definition write_turn (bsize : Z) (w : wstate) : M bridge (Z * wstate) :=
  let lblk := u32 (w_pos w / bsize) in
  let in_off := u32 (w_pos w mod bsize) in
  let chunk := if w_remaining w <? bsize - in_off then w_remaining w else bsize - in_off in
  fast <- (if (in_off =? 0) && (bsize <=? w_remaining w) then write_unwritten bsize lblk w else mok None);;
  match fast with
  | Some x => mok x
  | None =>
      let* (rc, fblk, unwritten, have) := write_target bsize lblk w in
      let w := w_set_have have w in
      if negb (rc =? EOK) then mok (rc, w)
      else if fblk =? 0 then mok (EIO, w)
      else write_chunk bsize lblk fblk in_off chunk unwritten w
  end.
(** [while (remaining > 0)]: every turn writes a byte or more. *)
Fixpoint write_loop (n : nat) (bsize : Z) (w : wstate) : M bridge (Z * wstate) :=
  match n with
  | O => mok (EOK, w)
  | S n =>
      if w_remaining w =? 0 then mok (EOK, w)
      else
        let* (rc, w) := write_turn bsize w in
        if negb (rc =? EOK) then mok (rc, w) else write_loop n bsize w
  end.
(** The loop and what it still holds: the error code and the bytes counted. *)
Definition write_all (bsize : Z) (w : wstate) : M bridge (Z * Z) :=
  let* (r, w) := write_loop (S (length (w_src w))) bsize w in
  let* (run_r, w) := bridge_flush_run bsize w in
  mok (if run_r =? EOK then (r, w_written w + w_run_bytes w)
       else (if r =? EOK then run_r else r, w_written w)).

(** Blocks taken ahead of a large append.  An error only when blocks could not be
    given back. *)
Definition reserve_ahead (inode offset count fsize have_blocks bsize : Z) : M bridge (option unit) :=
  extents <- uses_extents_flag Ref;;
  if (EXT4B_RESERVE_TRIGGER * bsize <=? count) && (offset <=? fsize) && (fsize <? u64 (offset + count)) && extents then
    end_ <- resv_end inode;;
    mapped <- (if end_ =? 0 then
       r <- mtry (at_ Ref (ext4_extent_map_range have_blocks 1));;
       mok (match r with Ok (at_blk, _, _) => negb (at_blk =? 0) | Err _ => false end)
     else mok false);;
    if (mapped : bool) then mok (Some tt)
    else
      let reach := if end_ <? have_blocks then have_blocks else end_ in
      let through := u32 (u64 (offset + count + bsize - 1) / bsize) in
      sb <- the_sb;;
      if ext4_sb_get_free_blocks_cnt sb <=? EXT4B_RESERVE_AHEAD * Z.of_nat EXT4B_RESERVE_SLOTS * 4 then
        rc <-? resv_release_all;;
        osome (ret_rc rc)
      else if reach <? through then
        let ask := u32 (through - reach + EXT4B_RESERVE_AHEAD) in
        r <- mtry (at_ Ref (ext4_extent_preallocate reach ask));;
        let alloc := match r with Ok (_, alloc) => alloc | Err _ => 0 end in
        if 0 <? alloc then set_dirty Ref;;; resv_set inode (u32 (reach + alloc)) else mok (Some tt)
      else mok (Some tt)
  else mok (Some tt).
(** The bytes written.  A write that got somewhere is a success. *)
Definition write_body (inode offset : Z) (buf : list Z) : M bridge (option Z) :=
  let count := blen buf in
  sb <- the_sb;;
  is_dir <- ref_is_type Ref EXT4_INODE_MODE_DIRECTORY;;
  if (is_dir : bool) then mfail EISDIR
  else
    let bsize := ext4_sb_get_block_size sb in
    fsize <- ref_get Ref (ext4_inode_get_size sb);;
    let max_file_size := u64 (Z.shiftl bsize 32) in
    if (max_file_size <? count) || (max_file_size - count <? offset) then mfail EFBIG
    else
      immutable <- ref_immutable Ref;;
      append_only <- ref_append_only Ref;;
      if immutable || (append_only && (u64 (offset + count) <? fsize)) then mfail EPERM
      else
        let have_blocks := u32 (u64 (fsize + bsize - 1) / bsize) in
        reserve_ahead inode offset count fsize have_blocks bsize ;;?
        mtry (on_store (ds_write_back true));;;
        let* (r, written) := write_all bsize (mk_wstate buf offset have_blocks 0 0 0 [] 0) in
        flush_r <- mtry (on_store (ds_write_back false));;
        (if 0 <? written then
           let end_ := u64 (offset + written) in
           (if fsize <? end_ then ref_store Ref (fun p => ext4_inode_set_size p end_) else mok tt);;;
           touch now Ref (Z.lor TOUCH_MTIME TOUCH_CTIME);;;
           set_dirty Ref
         else mok tt);;;
        let r := if 0 <? written then EOK else r in
        let r := if rc_of flush_r =? EOK then r else rc_of flush_r in
        if r =? EOK then mok (Some written) else mfail r.
Definition ext4b_write (inode offset : Z) (buf : list Z) : M bridge (option Z) :=
  write_prologue;;;
  if blen buf =? 0 then mok (Some 0)
  else in_txn (with_ref Ref inode (write_body inode offset buf)).

(** ** Resizing *)

(** [for (i = 0; i < mapped && pos < to; i++)]: where it stops. *)
Fixpoint zero_run (n : nat) (bsize fblk off pos to : Z) : M bridge Z :=
  match n with
  | O => mok pos
  | S n =>
      if to <=? pos then mok pos
      else
        let k := if to - pos <? bsize - off then to - pos else bsize - off in
        let zeros := replicate (Z.to_nat k) 0 in
        on_store (ds_writebytes (u64 (u64 (fblk * bsize) + off)) zeros);;;
        update_cached fblk off zeros;;;
        zero_run n bsize (u64 (fblk + 1)) 0 (pos + k) to
  end.
(** [while (pos < to)]: every turn that does not end the loop zeroes a byte or more. *)
Fixpoint zero_exposed_loop (n : nat) (bsize pos to : Z) : M bridge unit :=
  match n with
  | O => mok tt
  | S n =>
      if to <=? pos then mok tt
      else
        let lblk := u32 (pos / bsize) in
        let in_off := u32 (pos mod bsize) in
        extents <- uses_extents_flag Ref;;
        let* (fblk, mapped, unwritten) :=
          (if (extents : bool) then at_ Ref (ext4_extent_map_range lblk (u32 (u64 (to - pos + bsize - 1) / bsize)))
           else
             fblk <- at_ Ref (ext4_fs_get_inode_dblk_idx lblk true);;
             mok (fblk, (if fblk =? 0 then 0 else 1), false)) in
        if (fblk =? 0) || (mapped =? 0) || unwritten then mok tt
        else
          pos <- zero_run (Z.to_nat mapped) bsize fblk in_off pos to;;
          zero_exposed_loop n bsize pos to
  end.
Definition zero_exposed_range (from to : Z) : M bridge unit :=
  sb <- the_sb;;
  let bsize := ext4_sb_get_block_size sb in
  r <- mtry (on_store (bs_calloc bsize));;
  match r with
  | Err _ => mfail ENOMEM
  | Ok _ => zero_exposed_loop (Z.to_nat (to / bsize - from / bsize + 1)) bsize from to
  end.
Definition truncate_body (new_size : Z) : M bridge (option unit) :=
  is_dir <- ref_is_type Ref EXT4_INODE_MODE_DIRECTORY;;
  immutable <- ref_immutable Ref;;
  append_only <- ref_append_only Ref;;
  if (is_dir : bool) then mfail EISDIR
  else if immutable || append_only then mfail EPERM
  else
    sb <- the_sb;;
    old_size <- ref_get Ref (ext4_inode_get_size sb);;
    (if new_size <? old_size then
       t <- at_ Ref (ext4_fs_truncate_inode fuel new_size);;
       mok (match t with Some true => Some tt | _ => None end)
     else if old_size <? new_size then
       zero_exposed_range old_size new_size;;;
       ref_store Ref (fun p => ext4_inode_set_size p new_size);;;
       set_dirty Ref;;;
       mok (Some tt)
     else mok (Some tt)) ;;?
    (if negb (new_size =? old_size) then touch now Ref (Z.lor TOUCH_MTIME TOUCH_CTIME) else mok tt);;;
    mok (Some tt).
Definition ext4b_truncate (inode new_size : Z) : M bridge (option unit) :=
  write_prologue;;;
  resv_forget inode;;;
  in_txn (with_ref Ref inode (truncate_body new_size)).

(** The bytes newly allocated. *)
Definition preallocate_body (offset length : Z) : M bridge Z :=
  is_dir <- ref_is_type Ref EXT4_INODE_MODE_DIRECTORY;;
  immutable <- ref_immutable Ref;;
  append_only <- ref_append_only Ref;;
  extents <- uses_extents_flag Ref;;
  if (is_dir : bool) then mfail EISDIR
  else if immutable || append_only then mfail EPERM
  else if negb extents then mfail ENOTSUP
  else
    sb <- the_sb;;
    let bsize := ext4_sb_get_block_size sb in
    let first := offset / bsize in
    let last := u64 (offset + length - 1) / bsize in
    if 0xFFFFFFFF <=? last then mfail EFBIG
    else
      let* (r, got) := at_ Ref (ext4_extent_preallocate (u32 first) (u32 (last - first + 1))) in
      (if negb (got =? 0) then set_dirty Ref else mok tt);;;
      if r =? EOK then mok (got * bsize) else mfail r.
Definition ext4b_preallocate (inode offset length : Z) : M bridge Z :=
  write_prologue;;;
  if length =? 0 then mok 0
  else
    resv_forget inode;;;
    in_txn (with_ref Ref inode (preallocate_body offset length)).
Definition ext4b_trim_preallocation (inode : Z) : M bridge (option unit) :=
  write_prologue;;;
  in_txn (resv_forget inode;;; trim_alloc_to_size inode).

(** ** Attributes *)

(** [ext4b_setattr_mask]. *)
Definition EXT4B_SET_MODE : Z := 1.
Definition EXT4B_SET_UID : Z := 2.
Definition EXT4B_SET_GID : Z := 4.
Definition EXT4B_SET_SIZE : Z := 8.
Definition EXT4B_SET_ATIME : Z := 16.
Definition EXT4B_SET_MTIME : Z := 32.

Definition set_attributes (sb : list Z) (mask : Z) (attrs : ext4b_attrs) (p : Z) (b : list Z) : list Z :=
  let b := if has_bits mask EXT4B_SET_MODE then
      let m := ext4_inode_get_mode sb p b in
      ext4_inode_set_mode sb p (Z.lor (Z.land m EXT4_INODE_MODE_TYPE_MASK) (Z.land (at_mode attrs) 0x0FFF)) b
    else b in
  let b := if has_bits mask EXT4B_SET_UID then ext4_inode_set_uid p (at_uid attrs) b else b in
  let b := if has_bits mask EXT4B_SET_GID then ext4_inode_set_gid p (at_gid attrs) b else b in
  let b := if has_bits mask EXT4B_SET_ATIME then ext4_inode_set_access_time p (u32 (at_atime attrs)) b else b in
  if has_bits mask EXT4B_SET_MTIME then ext4_inode_set_modif_time p (u32 (at_mtime attrs)) b else b.
Definition setattr_body (mask : Z) (attrs : ext4b_attrs) : M bridge unit :=
  immutable <- ref_immutable Ref;;
  if (immutable : bool) then mfail EPERM
  else
    sb <- the_sb;;
    ref_store Ref (set_attributes sb mask attrs);;;
    touch now Ref TOUCH_CTIME;;;
    set_dirty Ref.
Definition ext4b_setattr (inode mask : Z) (attrs : ext4b_attrs) : M bridge (option unit) :=
  write_prologue;;;
  (if has_bits mask EXT4B_SET_SIZE then ext4b_truncate inode (at_size attrs) else mok (Some tt)) ;;?
  let mask' := Z.ldiff mask EXT4B_SET_SIZE in
  if has_bits mask EXT4B_SET_SIZE && (mask' =? 0) then mok (Some tt)
  else osome (in_txn (with_ref Ref inode (setattr_body mask' attrs))).
End BridgeData.
