(* ===== verification/BridgeXattr.v ===== *)
(** * The bridge: extended attributes

    The operations of Core/shim/ext4_bridge.c on extended attributes: the split of a
    name into a namespace and the rest, listing, reading, setting and removing. *)

From S2P Require Import Prelude Types Inode Store Fs Data Imap InodeOps Xattr DirIdx Bridge BridgeDir.

Definition EXT4B_XATTR_INDEX_USER : Z := 1.
Definition ENOATTR : Z := 93.

(** A name in no namespace of its own is one of the user's.  [None]: a name with
    something after "system.posix_acl_access" or "system.posix_acl_default" comes back
    as a null pointer and a length, and what is done with it is not defined. *)
Definition xattr_split (name : list Z) : option (Z * list Z) :=
  match ext4_extract_xattr_name name with
  | Some (index, len, Some sub) => Some (index, sub)
  | Some (index, len, None) => if len =? 0 then Some (index, []) else None
  | None => Some (EXT4B_XATTR_INDEX_USER, name)
  end.
Definition xattr_errno (rc : Z) : Z := if rc =? ENODATA then ENOATTR else rc.
(** The full names the callback is given, until it says no; one that does not fit
    [full] is passed over. *)
Fixpoint give_names (cb : list Z -> bool) (l : list (Z * list Z)) : list (list Z) :=
  match l with
  | [] => []
  | (name_index, name) :: l =>
      let full := default [] (ext4_get_xattr_name_prefix name_index) ++ name in
      if 256 <=? blen full then give_names cb l
      else full :: if cb full then give_names cb l else []
  end.

Section BridgeXattr.
Context {St : Type} {BS : BlockStore St} {DS : DataStore St} {TX : TxStore St}.
Context (stack : xattr_info) (now : M St Z).
Local Abbreviation fsys := (fsys St).
Local Abbreviation bridge := (bridge St).

(** The first list is for its length only. *)
Definition ext4b_listxattr (inode : Z) (cb : list Z -> bool) : M bridge (list (list Z)) :=
  mounted;;;
  with_ref Ref inode
    (l <- at_ Ref ext4_xattr_list;;
     if list_len l =? 0 then mok []
     else
       r <- mtry (on_store (bs_calloc (list_len l)));;
       match r with
       | Err _ => mfail ENOMEM
       | Ok _ => l <- at_ Ref ext4_xattr_list;; mok (give_names cb l)
       end).

(** The length of the value, and what fits the buffer of it. *)
Definition ext4b_getxattr (inode : Z) (name : list Z) (buf_size : Z) : M bridge (option (Z * list Z)) :=
  mounted;;;
  with_ref Ref inode
    (match xattr_split name with
     | None => mok None
     | Some (name_index, short_name) =>
         r <- mtry (at_ Ref (ext4_xattr_get name_index short_name buf_size));;
         match r with
         | Ok x => mok (Some x)
         | Err rc => mfail (xattr_errno rc)
         end
     end).

Definition xattr_forbidden : M bridge bool :=
  a <- ref_immutable Ref;;
  b <- ref_append_only Ref;;
  mok (a || b).
Definition setxattr_body (name_index : Z) (short_name value : list Z) : M bridge (option unit) :=
  no <- xattr_forbidden;;
  if no : bool then mfail EPERM
  else
    at_ Ref (ext4_xattr_set stack name_index short_name value) ;;?
    osome (touch now Ref TOUCH_CTIME).
Definition ext4b_setxattr (inode : Z) (name value : list Z) : M bridge (option unit) :=
  write_prologue;;;
  match xattr_split name with
  | None => mok None
  | Some (name_index, short_name) =>
      in_txn (with_ref Ref inode (setxattr_body name_index short_name value))
  end.

Definition removexattr_body (name_index : Z) (short_name : list Z) : M bridge unit :=
  no <- xattr_forbidden;;
  if no : bool then mfail EPERM
  else
    at_ Ref (ext4_xattr_remove name_index short_name);;;
    touch now Ref TOUCH_CTIME.
(** An ENODATA of the device while the inode is fetched is not translated by the code;
    it is here. *)
Definition ext4b_removexattr (inode : Z) (name : list Z) : M bridge (option unit) :=
  write_prologue;;;
  match xattr_split name with
  | None => mok None
  | Some (name_index, short_name) =>
      r <- mtry (in_txn (with_ref Ref inode (removexattr_body name_index short_name)));;
      match r with
      | Ok _ => mok (Some tt)
      | Err rc => mfail (xattr_errno rc)
      end
  end.
End BridgeXattr.
