(* ===== verification/BridgeTxn.v ===== *)
(** * Batched transactions

    The mutations of the bridge share transactions of the journal ([txn_begin],
    [txn_finish], [txn_drain] of Core/shim/ext4_bridge.c).  What that promises: no
    mutation that was reported as done is in a transaction that is aborted, a commit
    that fails is reported, and a sync that succeeds leaves none uncommitted. *)

From S2P Require Import Prelude Types Inode Device Bcache CacheSpec CacheProps Store Fs Data Sample DirBlock DirIdx Dir Xattr Bridge BridgeRead BridgeDir BridgeData BridgeXattr.

(** ** What leaves the transactions alone *)

Section Keeps.
Context {St : Type} {BS : BlockStore St} {DS : DataStore St} {TX : TxStore St}.
Local Abbreviation bridge := (bridge St).

Definition tx_part (b : bridge) : bool * bool * bool * bool * bool * Z * Z * list tx_call :=
  (b_read_only b, b_mounted b, b_journal_running b, b_jbd_journal b, b_curr_trans b, b_txn_ops b, b_txn_batch b, b_calls b).
Definition keeps_txn {A} (m : M bridge A) : Prop := forall b, tx_part (snd (m b)) = tx_part b.

Lemma keeps_ok {A} (a : A) : keeps_txn (mok a).
Proof. done. Qed.
Lemma keeps_fail {A} rc : keeps_txn (@mfail bridge A rc).
Proof. done. Qed.
Lemma keeps_get {A} (f : bridge -> A) : keeps_txn (mget f).
Proof. done. Qed.
Lemma keeps_bind {A B} (m : M bridge A) (k : A -> M bridge B) : keeps_txn m -> (forall a, keeps_txn (k a)) -> keeps_txn (mbnd m k).
Proof.
  intros Hm Hk b. unfold mbnd. pose proof (Hm b) as E. destruct (m b) as [[a|rc] b']; [|done].
  rewrite <- E. apply Hk.
Qed.
Lemma keeps_obind {A B} (m : M bridge (option A)) (k : A -> M bridge (option B)) :
  keeps_txn m -> (forall a, keeps_txn (k a)) -> keeps_txn (obnd m k).
Proof. intros Hm Hk. apply keeps_bind; [done|]. intros [a|]; [apply Hk|done]. Qed.
Lemma keeps_try {A} (m : M bridge A) : keeps_txn m -> keeps_txn (mtry m).
Proof. intros Hm b. unfold mtry. pose proof (Hm b) as E. by destruct (m b). Qed.
Lemma keeps_some {A} (m : M bridge A) : keeps_txn m -> keeps_txn (osome m).
Proof. intros Hm. by apply keeps_bind. Qed.
Lemma keeps_lift {A} (r : result A) : keeps_txn (lift_result r).
Proof. by destruct r. Qed.
Lemma keeps_finally {A} (m : M bridge A) cl : keeps_txn m -> keeps_txn cl -> keeps_txn (finally m cl).
Proof.
  intros Hm Hc. apply keeps_bind; [by apply keeps_try|]. intros r. apply keeps_bind; [by apply keeps_try|].
  by destruct r.
Qed.
Lemma keeps_on_fs {A} (m : M (fsys St) A) : keeps_txn (on_fs m).
Proof. intros b. unfold on_fs. by destruct (m (b_fs b)). Qed.
Lemma keeps_at {A} v (m : M (fsys St) A) : keeps_txn (at_ v m).
Proof. intros b. unfold at_. by destruct (m _). Qed.
Lemma keeps_mod_sb g : keeps_txn (mod_sb g).
Proof. done. Qed.
End Keeps.

Create HintDb keeps discriminated.
#[export] Hint Resolve keeps_ok keeps_fail keeps_get keeps_bind keeps_obind keeps_try keeps_some keeps_lift keeps_finally
  keeps_on_fs keeps_at keeps_mod_sb : keeps.
(** Down the program: its steps, its cases, and the definitions named. *)
Ltac keep_step :=
  match goal with
  | |- forall _, _ => intro
  | |- keeps_txn (mmod _) => intros ?; reflexivity
  | |- keeps_txn (match ?x with _ => _ end) => destruct x
  | |- keeps_txn (let _ := _ in _) => cbv zeta
  | |- keeps_txn _ => solve [eauto 1 with keeps nocore]
  | |- keeps_txn (mbnd _ _) => apply keeps_bind
  | |- keeps_txn (obnd _ _) => apply keeps_obind
  | |- keeps_txn (mtry _) => apply keeps_try
  | |- keeps_txn (osome _) => apply keeps_some
  | |- keeps_txn (finally _ _) => apply keeps_finally
  | |- keeps_txn ?t => let h := head_of t in unfold h
  end
with head_of t := lazymatch t with ?f _ => head_of f | _ => t end.
Ltac keep := repeat keep_step.

(** ** The bodies of the mutations *)

Section Bodies.
Context {St : Type} {BS : BlockStore St} {DS : DataStore St} {TX : TxStore St}.
Context (stack : list Z).
Context (qsort : (dx_sort_entry -> dx_sort_entry -> Z) -> list dx_sort_entry -> list dx_sort_entry).
Context (now : M St Z) (fuel : nat).
Local Abbreviation bridge := (bridge St).
Lemma keeps_has_children v n it : keeps_txn (has_children_loop v n it).
Proof. revert it. induction n as [|n IH]; intros it; cbn; keep; apply IH. Qed.
#[local] Hint Resolve keeps_has_children : keeps.
Lemma keeps_orphan_unlink n prev ino after : keeps_txn (St := St) (orphan_unlink n prev ino after).
Proof. revert prev. induction n as [|n IH]; intros prev; cbn; keep; apply IH. Qed.
#[local] Hint Resolve keeps_orphan_unlink : keeps.
Lemma keeps_not_above n walk ino : keeps_txn (not_above n walk ino).
Proof. revert walk. induction n as [|n IH]; intros walk; cbn; keep; apply IH. Qed.
#[local] Hint Resolve keeps_not_above : keeps.

Lemma keeps_update_blocks n bsize lba p : keeps_txn (update_blocks n bsize lba p).
Proof. revert lba p. induction n as [|n IH]; intros lba p; cbn; keep; apply IH. Qed.
#[local] Hint Resolve keeps_update_blocks : keeps.
Lemma keeps_resv_release n i e : keeps_txn (resv_release_loop fuel n i e).
Proof. revert i e. induction n as [|n IH]; intros i e; cbn; keep; apply IH. Qed.
#[local] Hint Resolve keeps_resv_release : keeps.
Lemma keeps_append_to n bsize lblk rem fblk have : keeps_txn (append_to n bsize lblk rem fblk have).
Proof. revert fblk have. induction n as [|n IH]; intros fblk have; cbn; keep; apply IH. Qed.
#[local] Hint Resolve keeps_append_to : keeps.
Lemma keeps_write_turn bsize w : keeps_txn (write_turn bsize w).
Proof. keep. Qed.
#[local] Hint Resolve keeps_write_turn : keeps.
Lemma keeps_write_loop n bsize w : keeps_txn (write_loop n bsize w).
Proof. revert w. induction n as [|n IH]; intros w; cbn; keep; apply IH. Qed.
#[local] Hint Resolve keeps_write_loop : keeps.
Lemma keeps_zero_run n bsize fblk off pos to : keeps_txn (zero_run n bsize fblk off pos to).
Proof. revert fblk off pos. induction n as [|n IH]; intros fblk off pos; cbn; keep; apply IH. Qed.
#[local] Hint Resolve keeps_zero_run : keeps.
Lemma keeps_zero_exposed n bsize pos to : keeps_txn (zero_exposed_loop n bsize pos to).
Proof. revert pos. induction n as [|n IH]; intros pos; cbn; keep; apply IH. Qed.
#[local] Hint Resolve keeps_zero_exposed : keeps.
Lemma keeps_publish ino : keeps_txn (St := St) (orphan_publish_head ino).
Proof. keep. Qed.
Lemma keeps_create p name ft mode uid gid target :
  keeps_txn (with_ref Parent p (create_body stack qsort now name ft mode uid gid target)).
Proof. keep. Qed.
Lemma keeps_hardlink p t name : keeps_txn (with_ref Parent p (with_ref Child t (hardlink_body stack qsort now name))).
Proof. keep. Qed.
Lemma keeps_unlink p name d : keeps_txn (with_ref Parent p (unlink_body stack now fuel name d)).
Proof. keep. Qed.
Lemma keeps_rename_body s d sn dn : keeps_txn (rename_body stack qsort now fuel s d sn dn).
Proof. keep. Qed.
Lemma keeps_release ino : keeps_txn (with_ref Ref ino (release_body now fuel ino)).
Proof. keep. Qed.
Lemma keeps_write ino off buf : keeps_txn (with_ref Ref ino (write_body now fuel ino off buf)).
Proof. keep. Qed.
Lemma keeps_truncate ino n : keeps_txn (with_ref Ref ino (truncate_body now fuel n)).
Proof. keep. Qed.
Lemma keeps_preallocate ino off n : keeps_txn (St := St) (with_ref Ref ino (preallocate_body off n)).
Proof. keep. Qed.
Lemma keeps_trim ino : keeps_txn (trim_alloc_to_size fuel ino).
Proof. keep. Qed.
Lemma keeps_setattr ino mask attrs : keeps_txn (with_ref Ref ino (setattr_body now mask attrs)).
Proof. keep. Qed.
Lemma keeps_setxattr xstack ino index name value : keeps_txn (with_ref Ref ino (setxattr_body xstack now index name value)).
Proof. keep. Qed.
Lemma keeps_removexattr ino index name : keeps_txn (with_ref Ref ino (removexattr_body now index name)).
Proof. keep. Qed.
End Bodies.
#[export] Hint Resolve keeps_has_children keeps_orphan_unlink keeps_not_above keeps_publish keeps_create keeps_hardlink keeps_unlink keeps_rename_body keeps_release keeps_write
  keeps_truncate keeps_preallocate keeps_trim keeps_setattr keeps_setxattr keeps_removexattr : keeps.

(** ** What a call of the bridge does to the transactions *)

Definition closes (c : tx_call) : bool := match c with TxNew => false | _ => true end.
Definition commit_failed (c : tx_call) : bool := match c with TxCommit ok => negb ok | _ => false end.
(** How many mutations are reported as done and not committed, after the calls [cs]:
    [None] if a transaction that has such ones is aborted. *)
Fixpoint replay (a : Z) (cs : list tx_call) : option Z :=
  match cs with
  | [] => Some a
  | TxNew :: cs => replay a cs
  | TxCommit _ :: cs => replay 0 cs
  | TxFree :: cs => if a =? 0 then replay 0 cs else None
  end.
(** After the calls [cs] there is a transaction open, if one was or is before them. *)
Definition open_after (cs : list tx_call) : bool := match last cs with Some c => negb (closes c) | None => true end.

Definition succeeds {A} (r : result A) : bool := match r with Ok _ => true | Err _ => false end.
(** One more mutation in the open transaction. *)
Definition credit (done : bool) (cs : list tx_call) : Z := if done && open_after cs then 1 else 0.
Definition done_by {A} (ok : A -> bool) (r : result A) : bool := match r with Ok a => ok a | Err _ => false end.

Section Txn.
Context {St : Type} {BS : BlockStore St} {DS : DataStore St} {TX : TxStore St}.
Local Abbreviation bridge := (bridge St).

Record tinv (b : bridge) : Prop := {
  ti_journal : b_jbd_journal b = true;
  ti_batch : 1 <= b_txn_batch b <= 1024;
  ti_ops : 0 <= b_txn_ops b < 1024;
  ti_closed : b_curr_trans b = false -> b_txn_ops b = 0;
}.

(** The calls [cs] from [b] to [b'], with result [r]: the results [ok] picks are those
    of a mutation that is done. *)
Record txs_to {A} (ok : A -> bool) (b : bridge) (r : result A) (b' : bridge) (cs : list tx_call) : Prop := {
  tt_calls : b_calls b' = rev cs ++ b_calls b;
  tt_inv : tinv b';
  tt_failed : existsb commit_failed cs = true -> succeeds r = false;
  tt_replay a : 0 <= a <= b_txn_ops b -> exists a', replay a cs = Some a' /\ 0 <= a' /\
    a' + credit (done_by ok r) cs <= b_txn_ops b';
}.
Definition txs {A} (ok : A -> bool) (m : M bridge A) : Prop :=
  forall b, tinv b -> exists cs, txs_to ok b (fst (m b)) (snd (m b)) cs.
Definition never {A} (_ : A) : bool := false.

Lemma credit_bound d cs : 0 <= credit d cs <= 1.
Proof. unfold credit. by destruct (d && _). Qed.
Lemma replay_app a cs ds : replay a (cs ++ ds) = x ← replay a cs; replay x ds.
Proof. revert a. induction cs as [|[| |] cs IH]; intros a; cbn; auto. by destruct (a =? 0). Qed.
Lemma credit_app d cs ds : credit d (cs ++ ds) <= credit d ds.
Proof.
  unfold credit. destruct ds as [|c ds]; [rewrite app_nil_r; destruct d, (open_after cs); cbn; lia|].
  unfold open_after. by rewrite last_app_cons.
Qed.

Lemma tinv_part (b b' : bridge) : tx_part b' = tx_part b -> tinv b -> tinv b'.
Proof. intros E [A B C D]. injection E as E1 E2 E3 E4 E5 E6 E7 E8. split; rewrite ?E4, ?E5, ?E6, ?E7; auto. Qed.
Lemma txs_to_part {A} (b b' : bridge) (r : result A) : tinv b -> tx_part b' = tx_part b -> txs_to never b r b' [].
Proof.
  intros I E. pose proof (tinv_part b b' E I) as I'. injection E as E1 E2 E3 E4 E5 E6 E7 E8. split; [done..|].
  intros a Ha. exists a. replace (done_by never r) with false by (by destruct r). unfold credit. rewrite E6. cbn. split; [done|lia].
Qed.
Lemma txs_keeps {A} (m : M bridge A) : keeps_txn m -> txs never m.
Proof. intros H b I. exists []. by apply txs_to_part. Qed.
Lemma txs_to_weaken {A B} ok ok' b b' (r : result A) (r' : result B) cs :
  (succeeds r' = true -> succeeds r = true) -> (done_by ok' r' = true -> done_by ok r = true) ->
  txs_to ok b r b' cs -> txs_to ok' b r' b' cs.
Proof.
  intros L1 L2 [X1 X2 X3 X4]. split; [done|done|..].
  - intros H. apply X3 in H. destruct (succeeds r'); [by rewrite L1 in H|done].
  - intros a Ha. destruct (X4 a Ha) as (a' & E & P & Q). exists a'. split; [done|]. split; [done|]. revert Q.
    unfold credit. destruct (done_by ok' r'); [rewrite L2 by done; lia|]. cbn. case_match; lia.
Qed.
(** One after the other, when the first one succeeds. *)
Lemma txs_to_app {A B} ok ok' b b1 b2 (a : A) (r : result B) cs ds :
  txs_to ok b (Ok a) b1 cs -> txs_to ok' b1 r b2 ds -> txs_to ok' b r b2 (cs ++ ds).
Proof.
  intros [A1 A2 A3 A4] [B1 B2 B3 B4]. split; [|done|..].
  - by rewrite B1, A1, rev_app_distr, app_assoc.
  - rewrite existsb_app. intros H. apply orb_true_iff in H as [H|H]; [by apply A3 in H|by apply B3].
  - intros x Hx. destruct (A4 x Hx) as (x' & Ex & Px & Lx). pose proof (credit_bound (done_by ok (Ok a)) cs).
    destruct (B4 x') as (y & Ey & Py & Ly); [lia|]. exists y. rewrite replay_app, Ex. cbn. split; [done|]. split; [done|].
    pose proof (credit_app (done_by ok' r) cs ds). lia.
Qed.
Lemma txs_bind {A B} ok ok' (m : M bridge A) (k : A -> M bridge B) : txs ok m -> (forall a, txs ok' (k a)) -> txs ok' (mbnd m k).
Proof.
  intros Hm Hk b I. destruct (Hm b I) as [cs X]. unfold mbnd. destruct (m b) as [[a|rc] b1].
  - destruct (Hk a b1 (tt_inv _ _ _ _ _ X)) as [ds Y]. exists (cs ++ ds). by eapply txs_to_app.
  - exists cs. by eapply txs_to_weaken; [..|exact X].
Qed.
(** What follows changes no transaction and does not turn an error into a success. *)
Lemma txs_then {A B} ok ok' (m : M bridge A) (k : result A -> M bridge B) :
  txs ok m -> (forall r, keeps_txn (k r)) -> (forall rc b, succeeds (fst (k (Err rc) b)) = false) ->
  (forall a b, done_by ok' (fst (k (Ok a) b)) = true -> ok a = true) -> txs ok' (mbnd (mtry m) k).
Proof.
  intros Hm Hk He Ho b I. destruct (Hm b I) as [cs X]. unfold mbnd, mtry. destruct (m b) as [r b1]. cbn in X.
  pose proof (txs_to_part b1 _ (fst (k r b1)) (tt_inv _ _ _ _ _ X) (Hk r b1)) as Y. exists cs.
  destruct X as [X1 X2 X3 X4], Y as [Y1 Y2 Y3 Y4]. split; [by rewrite Y1|done|..].
  - intros H. apply X3 in H. destruct r as [a|rc]; [done|apply He].
  - intros a Ha. destruct (X4 a Ha) as (a' & E & P & Q). exists a'. split; [done|]. split; [done|].
    pose proof (credit_bound (done_by ok r) cs). destruct (Y4 a') as (a2 & [= <-] & _ & L); [lia|].
    pose proof (Hk r b1) as Ep. injection Ep as E1 E2 E3 E4 E5 E6 E7 E8. rewrite E6. revert Q. unfold credit.
    destruct (done_by ok' _) eqn:Eo; [|cbn; case_match; lia].
    destruct r as [x|rc].
    + cbn [done_by]. rewrite (Ho _ _ Eo). lia.
    + pose proof (He rc b1) as Hf. destruct (fst (k (Err rc) b1)); done.
Qed.

(** In [b1] the transaction that [b] has, or a new one. *)
Record opened (b b1 : bridge) : Prop := {
  op_journal : b_jbd_journal b1 = true;
  op_batch : b_txn_batch b1 = b_txn_batch b;
  op_ops : b_txn_ops b1 = b_txn_ops b;
  op_open : b_curr_trans b1 = true;
  op_calls : b_calls b1 = (if b_curr_trans b then [] else [TxNew]) ++ b_calls b;
}.
Lemma opened_part b b1 b2 : opened b b1 -> tx_part b2 = tx_part b1 -> opened b b2.
Proof. intros [A B C D E] H. injection H as E1 E2 E3 E4 E5 E6 E7 E8. split; congruence. Qed.
Lemma begin_spec b : tinv b -> let '(r, b1) := txn_begin b in
  match r with Ok _ => opened b b1 | Err _ => tx_part b1 = tx_part b end.
Proof.
  intros I. unfold txn_begin, mbnd, mget, mtry, on_store, on_fs. rewrite (ti_journal _ I). cbn [andb].
  destruct (b_curr_trans b) eqn:Ec; cbn [negb].
  - split; [apply I|done..|by rewrite Ec].
  - destruct (on_st tx_new (b_fs b)) as [[]]; cbn; [|done]. split; [apply I|done..|]. cbn. by rewrite Ec.
Qed.
(** A transaction that is closed with the calls [c]. *)
Lemma closed_to {A} (r : result A) b b1 b2 c :
  tinv b -> opened b b1 -> closes c = true -> (c = TxFree -> b_txn_ops b = 0) -> (commit_failed c = true -> succeeds r = false) ->
  b_jbd_journal b2 = true -> b_txn_batch b2 = b_txn_batch b -> b_txn_ops b2 = 0 -> b_calls b2 = c :: b_calls b1 ->
  exists cs, txs_to (fun _ => true) b r b2 cs.
Proof.
  intros I O Hc Hf Hr E1 E2 E3 E4. set (new := if b_curr_trans b then [] else [TxNew]).
  assert (Hn : new = [] \/ new = [TxNew]) by (unfold new; case_match; auto).
  exists (new ++ [c]). split.
  - rewrite E4, (op_calls _ _ O), rev_app_distr. fold new. by destruct Hn as [-> | ->].
  - split; rewrite ?E2, ?E3; [done|apply I|lia|done].
  - rewrite existsb_app. cbn. replace (existsb commit_failed new) with false by (by destruct Hn as [-> | ->]).
    rewrite orb_false_r. done.
  - intros a Ha. exists 0. rewrite E3. replace (replay a (new ++ [c])) with (Some 0).
    + unfold credit, open_after. rewrite last_snoc, Hc, andb_false_r. done.
    + rewrite replay_app. replace (replay a new) with (Some a) by (by destruct Hn as [-> | ->]). cbn.
      destruct c; [done..|]. specialize (Hf eq_refl). by replace a with 0 by lia.
Qed.

Lemma commit_spec b : b_jbd_journal b = true -> b_curr_trans b = true -> let '(r, b2) := txn_commit b in
  b_jbd_journal b2 = true /\ b_txn_batch b2 = b_txn_batch b /\ b_txn_ops b2 = b_txn_ops b /\ b_curr_trans b2 = false /\
  b_calls b2 = TxCommit (succeeds r) :: b_calls b.
Proof.
  intros Ej Ec. unfold txn_commit, mbnd, mget, mtry, mmod, on_store, on_fs. rewrite Ej, Ec. cbn.
  destruct (on_st tx_commit (b_fs b)) as [[]]; cbn; done.
Qed.
Lemma keeps_flushes : keeps_txn (St := St) (on_store ds_cache_flush;;;
    running <- mget b_journal_running;;
    if (running : bool) then mok tt
    else r <- mtry host_flush;; match r with Ok _ => mok tt | Err _ => mfail EIO end).
Proof. keep. Qed.
Lemma finish_to rc b b1 f b' : tinv b -> opened b b1 -> txn_finish rc b1 = (f, b') ->
  exists cs, txs_to (fun _ => true) b f b' cs.
Proof.
  intros I O E. pose proof O as [Oj Ob Oo Oc Ol]. pose proof (ti_ops _ I) as Hops. unfold txn_finish in E.
  destruct (Z.eqb_spec rc EOK) as [->|Hrc]; cbn [negb] in E.
  - unfold mbnd at 1, mmod at 1 in E. set (b2 := b_set_ops _ b1) in E.
    assert (O2 : b_txn_ops b2 = b_txn_ops b + 1) by (cbn; rewrite Oo; apply u32_id; lia).
    unfold mbnd at 1, mget at 1 in E. destruct (txn_must_commit b2) eqn:Hm; cbn [negb] in E.
    + unfold mbnd at 1, mtry at 1 in E. pose proof (commit_spec b2 Oj Oc) as C. destruct (txn_commit b2) as [r b3].
      destruct C as (C1 & C2 & C3 & C4 & C5). unfold mbnd at 1, mmod at 1 in E. set (b4 := b_set_ops 0 b3) in E.
      destruct r as [[]|e].
      * pose proof (keeps_flushes b4) as K. rewrite E in K. injection K as E1 E2 E3 E4 E5 E6 E7 E8.
        eapply (closed_to _ b b1 _ (TxCommit true)); try done; cbn in *; congruence.
      * injection E as <- <-. eapply (closed_to _ b b1 _ (TxCommit false)); try done; subst b4 b2; cbn in *; congruence.
    + injection E as <- <-. exists (if b_curr_trans b then [] else [TxNew]).
      unfold txn_must_commit in Hm. apply orb_false_iff in Hm as [Hm _].
      apply Z.leb_gt in Hm. change (b_txn_batch b2) with (b_txn_batch b1) in Hm. pose proof (ti_batch _ I). split.
      * cbn. rewrite Ol. by destruct (b_curr_trans b).
      * split; [done|cbn; lia|lia|]. cbn. congruence.
      * by destruct (b_curr_trans b).
      * intros a Ha. exists a. rewrite O2. destruct (b_curr_trans b); (split; [done|]); (split; [lia|]).
        all: match goal with |- _ + credit ?d ?cs <= _ => pose proof (credit_bound d cs) end; lia.
  - unfold mbnd at 1, mget at 1 in E. destruct (Z.eqb_spec (b_txn_ops b1) 0) as [H0|H0].
    + unfold txn_abort, mbnd, mget, mmod in E. rewrite Oj, Oc in E. injection E as <- <-.
      eapply (closed_to _ b b1 _ TxFree); try done; cbn; congruence.
    + pose proof (commit_spec b1 Oj Oc) as C. unfold mbnd, mtry, mmod in E. destruct (txn_commit b1) as [r b3].
      destruct C as (C1 & C2 & C3 & C4 & C5). injection E as <- <-. eapply (closed_to _ b b1 _ (TxCommit (succeeds r))); try done; cbn; congruence.
Qed.
Lemma finish_fails rc b : rc <> EOK -> succeeds (fst (txn_finish rc b)) = false.
Proof.
  intros H. unfold txn_finish. rewrite (proj2 (Z.eqb_neq rc EOK) H). unfold mbnd, mget, mtry. cbn [negb].
  case_match; [destruct (txn_abort b) as [[]]; done|]. by destruct (txn_commit b).
Qed.
(** A mutation in a transaction, whatever follows it. *)
Lemma txn_to {A B} ok (m : M bridge (result A)) (k : result A -> result unit -> M bridge B) b :
  tinv b -> keeps_txn m -> (forall b, succeeds (fst (m b)) = true) -> (forall r f, keeps_txn (k r f)) ->
  (forall r rc b, succeeds (fst (k r (Err rc) b)) = false) ->
  exists cs, txs_to ok b (fst (mbnd txn_begin (fun _ => r <- m;; f <- mtry (txn_finish (rc_of r));; k r f) b))
    (snd (mbnd txn_begin (fun _ => r <- m;; f <- mtry (txn_finish (rc_of r));; k r f) b)) cs.
Proof.
  intros I Hm Hs Hk Hf. pose proof (begin_spec b I) as Sp. unfold mbnd at 1 4. destruct (txn_begin b) as [[[]|rc] b1].
  - pose proof (Hm b1) as Km. pose proof (Hs b1) as Sm. unfold mbnd at 1 3. destruct (m b1) as [[r|] b2]; [|done].
    destruct (txn_finish (rc_of r) b2) as [f b3] eqn:Ef.
    destruct (finish_to _ b b2 f b3 I (opened_part _ _ _ Sp Km) Ef) as [cs X].
    unfold mbnd, mtry. rewrite Ef. exists cs.
    pose proof (txs_to_part b3 _ (fst (k r f b3)) (tt_inv _ _ _ _ _ X) (Hk r f b3)) as Y.
    assert (Z : txs_to (fun _ => true) b f (snd (k r f b3)) cs).
    { destruct X as [X1 X2 X3 X4], Y as [Y1 Y2 Y3 Y4]. pose proof (Hk r f b3) as E. injection E as E1 E2 E3 E4 E5 E6 E7 E8.
      split; [congruence|done..|]. intros a Ha. rewrite E6. by apply X4. }
    eapply txs_to_weaken; [..|exact Z]; destruct f as [|rc]; try done; intros H; pose proof (Hf r rc b3) as N.
    + by rewrite N in H.
    + destruct (fst (k r (Err rc) b3)); done.
  - exists []. cbn. eapply txs_to_weaken; [..|by apply (txs_to_part b b1 (Err (A := unit) rc))]; done.
Qed.
Lemma txs_in_txn {A} (m : M bridge A) : keeps_txn m -> txs (fun _ => true) (in_txn m).
Proof.
  intros Hm b I.
  destruct (txn_to (fun _ : A => true) (mtry m) (fun r f => lift_result f;;; lift_result r) b I) as [cs X].
  - by apply keeps_try.
  - intros b'. unfold mtry. by destruct (m b').
  - intros r f. apply keeps_bind; intros; apply keeps_lift.
  - done.
  - exists cs. replace (in_txn m b) with (mbnd txn_begin
      (fun _ => r <- mtry m;; f <- mtry (txn_finish (rc_of r));; lift_result f;;; lift_result r) b); [exact X|].
    unfold in_txn, mbnd, mtry. destruct (txn_begin b) as [[] b1]; [|done]. destruct (m b1) as [r b2].
    by destruct (txn_finish (rc_of r) b2) as [[] b3].
Qed.
Lemma txs_drain : txs never txn_drain.
Proof.
  intros b I. destruct (Z.eq_dec (b_txn_ops b) 0) as [H0|H0].
  - exists []. replace (txn_drain b) with (Ok tt, b); [by apply txs_to_part|].
    unfold txn_drain, mbnd, mget. by rewrite H0.
  - assert (Hc : b_curr_trans b = true) by (destruct (b_curr_trans b) eqn:E; [done|by apply (ti_closed _ I) in E]).
    assert (O : opened b b) by (split; try done; [apply I|by rewrite Hc]).
    destruct (txn_drain b) as [f b'] eqn:E. cbn [fst snd]. unfold txn_drain in E. unfold mbnd at 1, mget at 1 in E.
    rewrite (proj2 (Z.eqb_neq _ _) H0) in E.
    pose proof (commit_spec b (ti_journal _ I) Hc) as C. unfold mbnd at 1, mtry at 1 in E. destruct (txn_commit b) as [r b3].
    destruct C as (C1 & C2 & C3 & C4 & C5). unfold mbnd at 1, mmod at 1 in E. set (b4 := b_set_ops 0 b3) in E.
    assert (Q : exists ok, (ok = false -> succeeds f = false) /\ tx_part b' = tx_part b4 /\ b_calls b4 = TxCommit ok :: b_calls b).
    { destruct r as [[]|e].
      - exists true. split; [done|]. unfold mbnd, lift_result in E. pose proof (keeps_on_fs (on_st ds_cache_flush) b4) as K.
        cbn in E. unfold on_store in E. rewrite E in K. by split.
      - injection E as <- <-. by exists false. }
    destruct Q as (ok & Q1 & Q2 & Q3). injection Q2 as E1 E2 E3 E4 E5 E6 E7 E8.
    destruct (closed_to f b b b' (TxCommit ok)) as [cs X]; try done; try (cbn in *; congruence).
    + cbn. intros H. apply Q1. by destruct ok.
    + exists cs. eapply txs_to_weaken; [..|exact X]; [done|]. by destruct f.
Qed.
End Txn.

(** ** A history of calls *)

Inductive bridge_call :=
| CCreate (parent : Z) (name : list Z) (type : ext4b_item_type) (mode uid gid : Z)
| CSymlink (parent : Z) (name target : list Z) (uid gid : Z)
| CHardlink (parent : Z) (name : list Z) (target : Z)
| CUnlink (parent : Z) (name : list Z) (defer_release : bool)
| CRename (src_parent : Z) (src_name : list Z) (dst_parent : Z) (dst_name : list Z)
| CRelease (inode : Z)
| CWrite (inode offset : Z) (buf : list Z)
| CTruncate (inode new_size : Z)
| CPreallocate (inode offset length : Z)
| CTrim (inode : Z)
| CSetattr (inode mask : Z) (attrs : ext4b_attrs)
| CSetxattr (inode : Z) (name value : list Z)
| CRemovexattr (inode : Z) (name : list Z)
| CBatch (batch : Z)
| CSync.
(** The calls that put something into a transaction when they succeed. *)
Definition mutates (c : bridge_call) : bool :=
  match c with
  | CWrite _ _ buf => negb (blen buf =? 0)
  | CPreallocate _ _ length => negb (length =? 0)
  | CBatch _ | CSync => false
  | _ => true
  end.
Definition is_sync (c : bridge_call) : bool := match c with CSync => true | _ => false end.

(** A call that was made: what it asked of the journal, oldest first, and whether it
    reported success. *)
Record entry := mk_entry { en_call : bridge_call; en_calls : list tx_call; en_ok : bool }.
(** What is to hold of a history that starts with [a] mutations that are not committed. *)
Fixpoint audit (a : Z) (h : list entry) : bool :=
  match h with
  | [] => true
  | e :: h =>
      match replay a (en_calls e) with
      | None => false
      | Some a' =>
          let a' := a' + credit (en_ok e && mutates (en_call e)) (en_calls e) in
          implb (existsb commit_failed (en_calls e)) (negb (en_ok e)) &&
          implb (is_sync (en_call e) && en_ok e) (a' =? 0) &&
          (a' <? 1024) && audit a' h
      end
  end.

Section History.
Context {St : Type} {BS : BlockStore St} {DS : DataStore St} {TX : TxStore St}.
Context (stack : list Z).
Context (qsort : (dx_sort_entry -> dx_sort_entry -> Z) -> list dx_sort_entry -> list dx_sort_entry).
Context (now : M St Z) (fuel : nat) (xstack : xattr_info).
Local Abbreviation bridge := (bridge St).

Definition completes {A} (m : M bridge (option A)) : M bridge bool :=
  x <- m;; mok (match x with Some _ => true | None => false end).
Definition returns {A} (m : M bridge A) : M bridge bool := m;;; mok true.
Definition exec (c : bridge_call) : M bridge bool :=
  match c with
  | CCreate parent name type mode uid gid => completes (ext4b_create stack qsort now parent name type mode uid gid)
  | CSymlink parent name target uid gid => completes (ext4b_symlink stack qsort now parent name target uid gid)
  | CHardlink parent name target => completes (ext4b_hardlink stack qsort now parent name target)
  | CUnlink parent name defer => completes (ext4b_unlink_ex stack now fuel parent name defer)
  | CRename sp sn dp dn => completes (ext4b_rename stack qsort now fuel sp sn dp dn)
  | CRelease inode => completes (ext4b_release_inode now fuel inode)
  | CWrite inode offset buf => completes (ext4b_write now fuel inode offset buf)
  | CTruncate inode n => completes (ext4b_truncate now fuel inode n)
  | CPreallocate inode offset length => returns (ext4b_preallocate inode offset length)
  | CTrim inode => completes (ext4b_trim_preallocation fuel inode)
  | CSetattr inode mask attrs => completes (ext4b_setattr now fuel inode mask attrs)
  | CSetxattr inode name value => completes (ext4b_setxattr xstack now inode name value)
  | CRemovexattr inode name => completes (ext4b_removexattr now inode name)
  | CBatch batch => returns (ext4b_set_txn_batch batch)
  | CSync => returns ext4b_sync
  end.
(** [b_calls] only grows, at the front. *)
Definition calls_since (b b' : bridge) : list tx_call :=
  rev (firstn (length (b_calls b') - length (b_calls b)) (b_calls b')).
Fixpoint run_calls (cs : list bridge_call) (b : bridge) : list entry :=
  match cs with
  | [] => []
  | c :: cs =>
      let '(r, b') := exec c b in
      mk_entry c (calls_since b b') (done_by (fun ok => ok) r) :: run_calls cs b'
  end.

(** *** Every call keeps the books *)

Definition good {A} (_ : A) : bool := true.
Lemma txs_any {A} (m : M bridge A) : txs good m -> forall ok, txs ok m.
Proof.
  intros H ok b I. destruct (H b I) as [cs X]. exists cs. eapply txs_to_weaken; [..|exact X]; [done|]. by destruct (fst (m b)).
Qed.
Lemma txs_none {A} (m : M bridge A) ok : (forall a, ok a = false) -> txs never m -> txs ok m.
Proof.
  intros Ho H b I. destruct (H b I) as [cs X]. exists cs. eapply txs_to_weaken; [..|exact X]; [done|].
  destruct (fst (m b)); cbn; [by rewrite Ho|done].
Qed.
Lemma txs_fail {A} ok rc : txs ok (@mfail bridge A rc).
Proof. intros b I. exists []. eapply txs_to_weaken; [..|by apply (txs_to_part b b (Err (A := A) rc))]; done. Qed.
Lemma txs_ok {A} ok (a : A) : ok a = false -> txs ok (@mok bridge A a).
Proof. intros E b I. exists []. eapply txs_to_weaken; [..|by apply (txs_to_part b b (Ok a))]; [done|]. cbn. by rewrite E. Qed.
Lemma txs_seq {A B} ok (m : M bridge A) (k : A -> M bridge B) : keeps_txn m -> (forall a, txs ok (k a)) -> txs ok (mbnd m k).
Proof. intros Hm. apply (txs_bind never). by apply txs_keeps. Qed.
(** [Ok None] is not a success. *)
Definition defined {A} (x : option A) : bool := match x with Some _ => true | None => false end.
Lemma txs_obind {A B} (m : M bridge (option A)) (k : A -> M bridge (option B)) :
  txs defined m -> (forall a, txs defined (k a)) -> txs defined (obnd m k).
Proof. intros Hm Hk. apply (txs_bind defined); [done|]. intros [a|]; [apply Hk|by apply txs_ok]. Qed.
Lemma txs_after {A B} ok ok' (m : M bridge A) (f : A -> B) : txs ok m -> (forall a, ok' (f a) = ok a) ->
  txs ok' (x <- m;; mok (f x)).
Proof.
  intros H E b I. destruct (H b I) as [cs X]. exists cs. unfold mbnd, mok. destruct (m b) as [[a|] b1]; cbn in *.
  - eapply txs_to_weaken; [..|exact X]; [done|]. cbn. by rewrite E.
  - by eapply txs_to_weaken; [..|exact X].
Qed.
Lemma txs_post {A B} ok ok' (m : M bridge A) (k : A -> M bridge B) : txs ok m -> (forall a, keeps_txn (k a)) ->
  (forall a b, done_by ok' (fst (k a b)) = true -> ok a = true) -> txs ok' (mbnd m k).
Proof.
  intros Hm Hk Ho b I.
  destruct (txs_then ok ok' m (fun r => match r with Ok a => k a | Err rc => mfail rc end) Hm) with (b := b) as [cs X]; try done.
  { by intros []. }
  exists cs. unfold mbnd, mtry in *. by destruct (m b) as [[] b1].
Qed.
Lemma txs_osome {A} (m : M bridge A) : txs good m -> txs defined (osome m).
Proof. intros H. by apply (txs_after good). Qed.

Lemma keeps_prologue : keeps_txn (St := St) write_prologue.
Proof. keep. Qed.
#[local] Hint Resolve keeps_prologue : keeps.
Ltac txs_step :=
  match goal with
  | |- txs _ (mfail _) => apply txs_fail
  | |- txs _ (in_txn _) => apply (txs_any (in_txn _)), txs_in_txn; keep
  | |- txs defined (osome _) => apply txs_osome
  | |- txs _ (if ?x then _ else _) => destruct x
  | |- txs _ (match ?x with _ => _ end) => destruct x
  | |- txs _ (mbnd write_prologue _) => apply txs_seq; [apply keeps_prologue|intros []]
  | |- txs _ (mbnd the_sb _) => apply txs_seq; [keep|intros ?]
  | |- txs _ (mbnd (resv_forget _) _) => apply txs_seq; [keep|intros ?]
  | |- txs _ (mbnd last_orphan _) => apply txs_seq; [keep|intros ?]
  end.
Ltac txs := cbv zeta; repeat txs_step.

Lemma txs_create p name type mode uid gid : txs defined (ext4b_create stack qsort now p name type mode uid gid).
Proof. unfold ext4b_create, create_common. txs. Qed.
Lemma txs_symlink p name target uid gid : txs defined (ext4b_symlink stack qsort now p name target uid gid).
Proof. unfold ext4b_symlink, create_common. txs. Qed.
Lemma txs_hardlink p name t : txs defined (ext4b_hardlink stack qsort now p name t).
Proof. unfold ext4b_hardlink. txs. Qed.
Lemma txs_rename sp sn dp dn : txs defined (ext4b_rename stack qsort now fuel sp sn dp dn).
Proof. unfold ext4b_rename. txs. Qed.
Lemma txs_write ino off buf : negb (blen buf =? 0) = true -> txs defined (ext4b_write now fuel ino off buf).
Proof. unfold ext4b_write. intros E. apply negb_true_iff in E. rewrite E. txs. Qed.
Lemma txs_write_any ino off buf : txs never (ext4b_write now fuel ino off buf).
Proof. unfold ext4b_write. txs. by apply txs_ok. Qed.
Lemma txs_truncate ino n : txs defined (ext4b_truncate now fuel ino n).
Proof. unfold ext4b_truncate. txs. Qed.
Lemma txs_preallocate ino off n : negb (n =? 0) = true -> txs good (ext4b_preallocate (St := St) ino off n).
Proof. unfold ext4b_preallocate. intros E. apply negb_true_iff in E. rewrite E. txs. Qed.
Lemma txs_preallocate_any ino off n : txs never (ext4b_preallocate (St := St) ino off n).
Proof. unfold ext4b_preallocate. txs. by apply txs_ok. Qed.
Lemma txs_trim ino : txs defined (ext4b_trim_preallocation fuel ino).
Proof. unfold ext4b_trim_preallocation. txs. Qed.
Lemma txs_setattr ino mask attrs : txs defined (ext4b_setattr now fuel ino mask attrs).
Proof.
  unfold ext4b_setattr. cbv zeta. txs_step. destruct (has_bits mask EXT4B_SET_SIZE); cbn [andb].
  - destruct (Z.ldiff mask EXT4B_SET_SIZE =? 0).
    + apply (txs_post defined); [apply txs_truncate|intros []; keep|]. by intros [].
    + apply txs_obind; [apply txs_truncate|]. intros _. txs.
  - apply txs_seq; [keep|]. intros [|]; [txs|by apply txs_ok].
Qed.
Lemma txs_setxattr ino name value : txs defined (ext4b_setxattr xstack now ino name value).
Proof. unfold ext4b_setxattr. txs. by apply txs_ok. Qed.
Lemma fails_after {A B} (m : M bridge A) rc b : succeeds (fst ((m;;; @mfail bridge B rc) b)) = false.
Proof. unfold mbnd. by destruct (m b) as [[] b1]. Qed.
Lemma txs_orphan_del ino : txs never (orphan_del (St := St) ino).
Proof.
  unfold orphan_del. txs; [by apply txs_ok|]. apply (txs_then good); [txs|intros []; keep|idtac..].
  - intros. apply fails_after.
  - done.
Qed.
Lemma txs_removexattr ino name : txs defined (ext4b_removexattr (St := St) now ino name).
Proof.
  unfold ext4b_removexattr. txs; [|by apply txs_ok]. by apply (txs_then good); [txs|intros []; keep|..].
Qed.
Lemma txs_release ino : txs defined (ext4b_release_inode now fuel ino).
Proof.
  unfold ext4b_release_inode. txs. apply (txs_bind never).
  { destruct (negb _); [apply txs_orphan_del|by apply txs_ok]. }
  intros _. apply (txs_then defined); [txs|intros []; keep|idtac..].
  - intros. apply fails_after.
  - intros []; done.
Qed.
Definition with_prev {A} (prev : Z) (r : result A) : result (Z * A) := match r with Ok x => Ok (prev, x) | Err rc => Err rc end.
Lemma carry_prev {A B} (beg : M bridge unit) (lo : M bridge Z) (body : Z -> M bridge A) (fin : Z -> M bridge unit)
    (K : Z -> result A -> result unit -> M bridge B) (K' : result (Z * A) -> result unit -> M bridge B) b :
  (forall prev r f, K prev r f = K' (with_prev prev r) f) ->
  (beg;;; prev <- lo;; r <- mtry (body prev);; f <- mtry (fin (rc_of r));; K prev r f) b =
  (beg;;; r <- (prev <- lo;; r <- mtry (body prev);; mok (with_prev prev r));; f <- mtry (fin (rc_of r));; K' r f) b.
Proof.
  intros E. unfold mbnd, mtry. destruct (beg b) as [[] b1]; [|done]. destruct (lo b1) as [[prev|] b2]; [|done].
  destruct (body prev b2) as [[x|rc] b3]; cbn; destruct (fin _ b3) as [f b4].
  all: exact (f_equal (fun m => m b4) (E prev _ f)).
Qed.
Lemma txs_unlink p name defer : txs defined (ext4b_unlink_ex stack now fuel p name defer).
Proof.
  unfold ext4b_unlink_ex. txs. intros b I.
  erewrite carry_prev with (K' := fun r f =>
    match r, f with
    | Ok (_, None), Ok _ => mok None
    | Ok (_, Some (unreferenced, _)), Ok _ => mok (Some unreferenced)
    | Ok (prev_head, Some (_, true)), Err rc => mtry (orphan_publish_head prev_head);;; mfail rc
    | _, Err rc => mfail rc
    | Err rc, Ok _ => mfail rc
    end); [|by intros prev [[[u []]|]|rc] [|e]].
  apply txn_to; [done|keep|..].
  - intros b'. unfold mbnd, mtry, last_orphan, the_sb, mget. cbn. by destruct ((_ : M bridge _) b').
  - intros [[prev [[u []]|]]|rc] []; keep.
  - intros [[prev [[u []]|]]|rc'] rc b'; try done. apply fails_after.
Qed.
Lemma txs_batch n : txs (A := unit) (St := St) never (ext4b_set_txn_batch n).
Proof.
  intros b [I1 I2 I3 I4]. exists []. unfold ext4b_set_txn_batch, mmod. split; try done.
  - split; [done| |done..]. cbn. destruct (Z.ltb_spec n 1); [cbn; lia|]. destruct (Z.ltb_spec 1024 n); lia.
  - intros a Ha. exists a. cbn. split; [done|lia].
Qed.
Lemma txs_sync : txs never (ext4b_sync (St := St)).
Proof.
  unfold ext4b_sync. apply txs_seq; [keep|intros _]. apply (txs_post never); [apply txs_drain|intros; keep|].
  intros a b'. by destruct (fst _).
Qed.
(** A sync that succeeds leaves no mutation in a transaction. *)
Lemma drain_empties b : succeeds (fst (txn_drain b)) = true -> b_txn_ops (snd (txn_drain b)) = 0.
Proof.
  unfold txn_drain, mbnd, mget, mtry, mmod. destruct (Z.eqb_spec (b_txn_ops b) 0) as [H|H]; [done|].
  destruct (txn_commit b) as [[[]|rc] b1]; [|done]. intros _. cbn.
  pose proof (keeps_on_fs (on_st ds_cache_flush) (b_set_ops 0 b1)) as K. injection K as E1 E2 E3 E4 E5 E6 E7 E8.
  unfold on_store. by rewrite E6.
Qed.
Lemma sync_empties b : succeeds (fst (ext4b_sync b)) = true -> b_txn_ops (snd (ext4b_sync b)) = 0.
Proof.
  assert (K : keeps_txn (St := St) (on_store ds_cache_flush;;; host_flush)) by keep.
  assert (K0 : forall (m : M bridge unit), (mounted;;; m) b = if b_mounted b then m b else (Err EINVAL, b)).
  { intros m. unfold mounted, mounted_or, mbnd, mget. by destruct (b_mounted b). }
  unfold ext4b_sync. rewrite K0. destruct (b_mounted b); [|done]. unfold mbnd at 1 3.
  pose proof (drain_empties b) as D. destruct (txn_drain b) as [[[]|] b1]; [|done].
  specialize (K b1). intros _. injection K as E1 E2 E3 E4 E5 E6 E7 E8. rewrite E6. by apply D.
Qed.

Lemma txs_completes {A} (m : M bridge (option A)) : txs defined m -> txs (fun ok => ok && true) (completes m).
Proof. intros H. apply (txs_after defined); [done|]. by intros []. Qed.
Lemma txs_returns {A} (m : M bridge A) (c : bool) : (if c then txs good m else txs never m) -> txs (fun ok => ok && c) (returns m).
Proof. destruct c; intros H; [by apply (txs_after good)|by apply (txs_after never)]. Qed.
Lemma txs_exec c : txs (fun ok => ok && mutates c) (exec c).
Proof.
  destruct c; cbn [exec mutates];
    try (apply txs_completes; auto using txs_create, txs_symlink, txs_hardlink, txs_unlink, txs_rename, txs_release,
           txs_truncate, txs_trim, txs_setattr, txs_setxattr, txs_removexattr; fail).
  - destruct (negb _) eqn:E; [by apply txs_completes, txs_write|].
    apply (txs_after never); [apply txs_write_any|]. intros a. by rewrite andb_false_r.
  - apply txs_returns. destruct (negb _) eqn:E; [by apply txs_preallocate|apply txs_preallocate_any].
  - apply txs_returns, txs_batch.
  - apply txs_returns, txs_sync.
Qed.
Lemma calls_since_app b b' cs : b_calls b' = rev cs ++ b_calls b -> calls_since b b' = cs.
Proof.
  intros E. unfold calls_since. rewrite E, length_app. replace (_ + _ - _)%nat with (length (rev cs)) by lia.
  rewrite take_app_length. apply rev_involutive.
Qed.
Lemma audit_runs cs b a : tinv b -> 0 <= a <= b_txn_ops b -> audit a (run_calls cs b) = true.
Proof.
  revert b a. induction cs as [|c cs IH]; intros b a I Ha; [done|]. cbn [run_calls].
  destruct (txs_exec c b I) as [ds [X1 X2 X3 X4]].
  assert (Hs : is_sync c = true -> succeeds (fst (exec c b)) = true -> b_txn_ops (snd (exec c b)) = 0).
  { intros Ec. destruct c; try discriminate. cbn [exec]. unfold returns, mbnd. pose proof (sync_empties b) as D.
    destruct (ext4b_sync b) as [[] b1]; [|done]. exact D. }
  destruct (exec c b) as [r b']. cbn [fst snd] in *. rewrite (calls_since_app b b' ds) by done. cbn [audit en_calls en_ok en_call].
  destruct (X4 a Ha) as (a' & E & P & Q). rewrite E. pose proof (ti_ops _ X2) as Ho.
  assert (Eo : done_by (fun ok => ok && mutates c) r = done_by (fun ok => ok) r && mutates c) by (by destruct r).
  rewrite Eo in Q. pose proof (credit_bound (done_by (fun ok => ok) r && mutates c) ds).
  rewrite !andb_true_iff. split_and!.
  - destruct (existsb commit_failed ds); [|done]. specialize (X3 eq_refl). by destruct r.
  - destruct (is_sync c) eqn:Ec; [|done]. destruct (done_by (fun ok => ok) r) eqn:Er; [|done]. cbn [andb implb] in *.
    rewrite Hs in Q; [apply Z.eqb_eq; lia|done|by destruct r].
  - apply Z.ltb_lt. lia.
  - apply IH; [done|]. lia.
Qed.

(** C5: safety of the batched transactions.  In a volume that is mounted with a journal and has nothing pending, for
    every sequence of calls (create, symlink, hard link, unlink, rename, release, write, truncate, preallocate, trim,
    setattr, setting and removing extended attributes, batch size, sync), whatever each of them returns and whatever
    the device and the journal do: a transaction is freed without a commit only while no mutation that was reported
    as done is in it; a call during which a commit fails reports an error; after a sync that succeeds no mutation that
    was reported as done is left uncommitted; and there are never 1024 of them or more. *)
Theorem acknowledged_is_not_aborted cs b :
  b_jbd_journal b = true -> 1 <= b_txn_batch b <= 1024 -> b_txn_ops b = 0 -> audit 0 (run_calls cs b) = true.
Proof. intros Hj Hb Ho. apply audit_runs; [split; [done..|lia|done]|lia]. Qed.
End History.

(** *** On the sample volume *)

Definition vol_tx : TxStore (bdev ramdisk) :=
  {| tx_new := mok tt; tx_commit := mok tt; tx_free s := s; tx_sb_write _ := mok tt; tx_data_cnt _ := 0; tx_maxlen _ := 0;
     tx_first _ := 0; tx_last _ := 0; tx_start _ := 0 |}.
Definition vol_attrs : ext4b_attrs :=
  mk_attrs 0 EXT4B_TYPE_UNKNOWN 0x1A4 0 0 0 0 0 0 0 0 0 0 0 0 0 0 false false.
(** Two changes of attributes, a failure that has to be committed with them, one more
    and a sync; then a failure alone. *)
Definition vol_calls : list bridge_call :=
  [CSetattr 1 EXT4B_SET_MODE vol_attrs; CSetattr 2 EXT4B_SET_MODE vol_attrs; CTruncate 3 0;
   CSetattr 1 EXT4B_SET_MODE vol_attrs; CSync; CTruncate 3 0].
Definition vol_run : list entry :=
  @run_calls (bdev ramdisk) vol_store vol_data vol_tx [0] (fun _ l => l) (mok 0) 5 (mk_xinfo 0 [] None) vol_calls vol_bridge.
Lemma acknowledged_is_not_aborted_witness :
  map (fun e => (en_calls e, en_ok e)) vol_run =
    [([TxNew], true); ([], true); ([TxCommit true], false); ([TxNew], true); ([TxCommit true], true); ([TxNew; TxFree], false)] /\
  audit 0 vol_run = true.
Proof.
  split; [vm_compute; reflexivity|].
  apply (@acknowledged_is_not_aborted (bdev ramdisk) vol_store vol_data vol_tx [0] (fun _ l => l) (mok 0) 5 (mk_xinfo 0 [] None) vol_calls vol_bridge).
  - reflexivity.
  - cbn. lia.
  - reflexivity.
Defined.
