(* ===== verification/Resv.v ===== *)
(** * The table of reservations

    Blocks that [ext4b_write] takes ahead of a large append are remembered in eight
    slots (Core/shim/ext4_bridge.c, [resv_set], [resv_end], [resv_forget]).  The table
    is a finite map from inodes to the end of what they hold. *)

From S2P Require Import Prelude Types Fs Bridge BridgeDir BridgeData.

(** The map of a table. *)
Definition resv_map (l : list resv_slot) : gmap Z Z :=
  foldr (fun s M => if rs_inode s =? 0 then M else <[rs_inode s := rs_end_lblk s]> M) ∅ l.
(** Eight slots, no inode in two of them, and a cursor that has not run away. *)
Record table_ok (l : list resv_slot) (cursor : Z) : Prop := {
  to_length : length l = EXT4B_RESERVE_SLOTS;
  to_cursor : 0 <= cursor <= Z.of_nat EXT4B_RESERVE_SLOTS;
  to_once : forall j k s t, l !! j = Some s -> l !! k = Some t -> rs_inode s = rs_inode t -> rs_inode s <> 0 -> j = k;
}.
Definition once (l : list resv_slot) : Prop :=
  forall j k s t, l !! j = Some s -> l !! k = Some t -> rs_inode s = rs_inode t -> rs_inode s <> 0 -> j = k.

Lemma once_tail s l : once (s :: l) -> once l /\ (rs_inode s <> 0 -> forall t, t ∈ l -> rs_inode t <> rs_inode s).
Proof.
  intros H. split.
  - intros j k t u Hj Hk E E0. by injection (H (S j) (S k) t u Hj Hk E E0).
  - intros Hs t (k & Hk)%list_elem_of_lookup_1 E. by specialize (H 0%nat (S k) s t eq_refl Hk (eq_sym E) Hs).
Qed.
(** What the map says is what a slot says. *)
Lemma resv_map_lookup l i e : once l -> resv_map l !! i = Some e <-> i <> 0 /\ mk_slot i e ∈ l.
Proof.
  induction l as [|[a x] l IH]; intros H; cbn.
  { split; [done|]. by intros [_ ?%not_elem_of_nil]. }
  apply once_tail in H as [H Hne]. cbn in Hne. rewrite elem_of_cons. destruct (Z.eqb_spec a 0) as [->|Ha].
  - rewrite IH by done. split; [tauto|]. intros [Hi [[= -> _]|Hin]]; [done|by split].
  - rewrite lookup_insert_Some, IH by done. split.
    + intros [[-> ->]|(Hi & H1 & H2)]; [by split; [|left]|by split; [|right]].
    + intros [Hi [[= -> ->]|Hin]]; [by left|right]. split; [|done]. intros ->. by apply (Hne Ha _ Hin).
Qed.
Lemma resv_map_none l i : once l -> resv_map l !! i = None <-> (i = 0 \/ forall s, s ∈ l -> rs_inode s <> i).
Proof.
  intros H. rewrite eq_None_not_Some. split.
  - intros Hn. destruct (Z.eq_dec i 0) as [|Hi]; [by left|right]. intros [a x] Hin E. cbn in E. subst a. apply Hn.
    exists x. by apply resv_map_lookup.
  - intros [->|Hs] [e He]; apply resv_map_lookup in He as [Hi Hin]; [done|done|by apply (Hs _ Hin)|done].
Qed.

(** Slot [k] overwritten. *)
Lemma overwrite l cursor k s inode e :
  table_ok l cursor -> l !! k = Some s -> inode <> 0 -> (rs_inode s = inode \/ resv_map l !! inode = None) ->
  table_ok (<[k := mk_slot inode e]> l) cursor /\
  resv_map (<[k := mk_slot inode e]> l) = <[inode := e]> (delete (rs_inode s) (resv_map l)).
Proof.
  intros [T1 T2 T3] Hk Hi Hs. pose proof (lookup_lt_Some _ _ _ Hk) as Hlt.
  assert (Hother : forall j t, l !! j = Some t -> rs_inode t = inode -> j = k).
  { intros j t Hj Et. destruct Hs as [Es|Hn]; [apply (T3 j k t s); congruence|].
    apply resv_map_none in Hn as [?|Hn]; [done| |done]. by destruct (Hn t (list_elem_of_lookup_2 _ _ _ Hj)). }
  assert (T3' : once (<[k := mk_slot inode e]> l)).
  { intros j j' t u Hj Hj' E E0. apply list_lookup_insert_Some in Hj as [(<- & <- & _)|[Hne Hj]];
      apply list_lookup_insert_Some in Hj' as [(<- & <- & _)|[Hne' Hj']]; try done.
    - cbn in E. destruct Hne'. symmetry. by eapply Hother.
    - cbn in E. destruct Hne. symmetry. by eapply Hother.
    - by eapply T3. }
  split; [split; [by rewrite length_insert|done|exact T3']|].
  apply map_eq. intros i. apply option_eq. intros x.
  rewrite resv_map_lookup, lookup_insert_Some, lookup_delete_Some, resv_map_lookup by done. split.
  - intros [Hi0 (j & Hj)%list_elem_of_lookup_1]. apply list_lookup_insert_Some in Hj as [(_ & [= <- <-] & _)|[Hne Hj]]; [by left|right].
    split; [|split; [|split; [done|by eapply list_elem_of_lookup_2]]].
    + intros ->. apply Hne. symmetry. by eapply Hother.
    + intros Es. apply Hne. apply (T3 k j s _ Hk Hj); cbn; [done|]. by rewrite Es.
  - intros [[-> ->]|(Hne & Hnes & Hi0 & (j & Hj)%list_elem_of_lookup_1)].
    + split; [done|]. eapply list_elem_of_lookup_2. by apply list_lookup_insert_eq.
    + split; [done|]. apply (list_elem_of_lookup_2 _ j). rewrite list_lookup_insert_ne; [done|]. intros ->. rewrite Hj in Hk. injection Hk as <-. by apply Hnes.
Qed.

Lemma put_first_spec p s' l :
  match resv_put_first p s' l with
  | Some l' => exists k s, l !! k = Some s /\ p s = true /\ l' = <[k := s']> l
  | None => forall s, s ∈ l -> p s = false
  end.
Proof.
  induction l as [|s l IH]; cbn; [by intros s ?%not_elem_of_nil|]. destruct (p s) eqn:E.
  - by exists 0%nat, s.
  - destruct (resv_put_first p s' l) as [l'|]; cbn.
    + destruct IH as (k & t & Hk & Hp & ->). by exists (S k), t.
    + intros t [->|Ht]%elem_of_cons; [done|by apply IH].
Qed.
Lemma end_in_spec l inode : inode <> 0 -> once l -> resv_end_in l inode = default 0 (resv_map l !! inode).
Proof.
  induction l as [|[a x] l IH]; intros Hi H; [done|]. apply once_tail in H as [H Hne]. cbn. destruct (Z.eqb_spec a inode) as [->|Ha].
  - replace (inode =? 0) with false by lia. by rewrite lookup_insert_eq.
  - destruct (a =? 0); [by apply IH|]. rewrite lookup_insert_ne by done. by apply IH.
Qed.
Lemma forget_spec l cursor inode :
  table_ok l cursor -> inode <> 0 ->
  table_ok (resv_forget_in inode l) cursor /\ resv_map (resv_forget_in inode l) = delete inode (resv_map l).
Proof.
  intros [T1 T2 T3] Hi. set (f := fun s => if rs_inode s =? inode then mk_slot 0 (rs_end_lblk s) else s).
  assert (Hf : forall k t, resv_forget_in inode l !! k = Some t -> rs_inode t <> 0 -> l !! k = Some t /\ rs_inode t <> inode).
  { intros k t Hk Ht. unfold resv_forget_in in Hk. rewrite list_lookup_fmap in Hk. destruct (l !! k) as [s|] eqn:E; [|done].
    injection Hk as <-. destruct (Z.eqb_spec (rs_inode s) inode); [done|by split]. }
  assert (T3' : once (resv_forget_in inode l)).
  { intros j k s t Hj Hk E E0. apply Hf in Hj as [Hj _]; [|done]. apply Hf in Hk as [Hk _]; [|congruence]. by eapply T3. }
  split; [split; [by unfold resv_forget_in; rewrite length_fmap|done|exact T3']|].
  apply map_eq. intros i. apply option_eq. intros x. rewrite resv_map_lookup, lookup_delete_Some, resv_map_lookup by done. split.
  - intros [Hi0 (k & Hk)%list_elem_of_lookup_1]. apply Hf in Hk as [Hk Hne]; [|done].
    split; [by intros ->|]. split; [done|]. by eapply list_elem_of_lookup_2.
  - intros (Hne & Hi0 & Hin). split; [done|]. unfold resv_forget_in. apply list_elem_of_fmap. exists (mk_slot i x). split; [|done].
    cbn. by replace (i =? inode) with false by lia.
Qed.

Lemma cursor_next cursor :
  0 <= u32 (cursor mod Z.of_nat EXT4B_RESERVE_SLOTS + 1) <= Z.of_nat EXT4B_RESERVE_SLOTS.
Proof.
  change (Z.of_nat EXT4B_RESERVE_SLOTS) with 8. pose proof (Z.mod_pos_bound cursor 8 ltac:(lia)). rewrite u32_id by lia. lia.
Qed.

(** C22: The table of reservations is a map from inodes to ends, of eight entries at most.  Taking a reservation
    (resv_set) enters it, or renews the inode's own; only when the table is full of other inodes is one evicted, the
    one that is reported, so that its blocks can be given back, and no other entry changes.  resv_end answers what the
    map has, and resv_forget removes an inode.  Every operation leaves a well-formed table: no inode twice, eight
    slots, the cursor in range. *)
Theorem reservations_are_a_map l cursor inode end_lblk :
  table_ok l cursor -> inode <> 0 ->
  resv_end_in l inode = default 0 (resv_map l !! inode) /\
  (table_ok (resv_forget_in inode l) cursor /\ resv_map (resv_forget_in inode l) = delete inode (resv_map l)) /\
  let '(l', cursor', victim) := resv_set_in l cursor inode end_lblk in
  table_ok l' cursor' /\
  match victim with
  | None => resv_map l' = <[inode := end_lblk]> (resv_map l)
  | Some v => v <> 0 /\ v <> inode /\ resv_map l !! inode = None /\ (forall s, s ∈ l -> rs_inode s <> 0) /\
      resv_map l' = <[inode := end_lblk]> (delete v (resv_map l))
  end.
Proof.
  intros T Hi. pose proof T as [T1 T2 T3]. split; [by apply end_in_spec|]. split; [by apply forget_spec|]. unfold resv_set_in.
  pose proof (put_first_spec (fun s => rs_inode s =? inode) (mk_slot inode end_lblk) l) as P.
  destruct (resv_put_first _ _ l) as [l1|].
  { destruct P as (k & s & Hk & Hp%Z.eqb_eq & ->). destruct (overwrite l cursor k s inode end_lblk T Hk Hi) as [O1 O2]; [by left|].
    split; [done|]. by rewrite O2, Hp, insert_delete_eq. }
  assert (Hn : resv_map l !! inode = None).
  { apply resv_map_none; [done|]. right. intros s Hs. by apply Z.eqb_neq, P. }
  pose proof (put_first_spec (fun s => rs_inode s =? 0) (mk_slot inode end_lblk) l) as P0.
  destruct (resv_put_first _ _ l) as [l1|].
  { destruct P0 as (k & s & Hk & Hp%Z.eqb_eq & ->). destruct (overwrite l cursor k s inode end_lblk T Hk Hi) as [O1 O2]; [by right|].
    split; [done|]. rewrite O2, Hp. f_equal. apply delete_id. apply resv_map_none; [done|by left]. }
  set (slot := cursor mod Z.of_nat EXT4B_RESERVE_SLOTS).
  assert (Hs : 0 <= slot < Z.of_nat EXT4B_RESERVE_SLOTS) by (by apply Z.mod_pos_bound).
  destruct (lookup_lt_is_Some_2 l (Z.to_nat slot)) as [s Hk]; [lia|]. rewrite Hk.
  destruct (overwrite l cursor (Z.to_nat slot) s inode end_lblk T Hk Hi) as [[O1 O2 O3] O4]; [by right|].
  pose proof (list_elem_of_lookup_2 _ _ _ Hk) as Hin. assert (Hfull : forall s, s ∈ l -> rs_inode s <> 0) by (intros t Ht; by apply Z.eqb_neq, P0).
  split; [split; [done|apply cursor_next|done]|]. split; [by apply Hfull|]. split; [by apply Z.eqb_neq, P|]. done.
Qed.
(** A table that is full: the ninth inode takes the place of the one the cursor is at. *)
Lemma reservations_are_a_map_witness :
  let l := map (fun i => mk_slot (100 + Z.of_nat i) 7) (seq 0 8) in
  resv_set_in l 2 11 99 = (<[2%nat := mk_slot 11 99]> l, 3, Some 102) /\
  table_ok (<[2%nat := mk_slot 11 99]> l) 3 /\
  resv_map (<[2%nat := mk_slot 11 99]> l) = <[11 := 99]> (delete 102 (resv_map l)).
Proof.
  intros l. assert (T : table_ok l 2).
  { split; [done|done|]. intros j k s t Hj Hk E _.
    assert (F : forall i u, l !! i = Some u -> rs_inode u = 100 + Z.of_nat i).
    { intros i u Hu. unfold l in Hu. rewrite list_lookup_fmap in Hu. destruct (seq 0 8 !! i) as [a|] eqn:Ea; [|done].
      apply lookup_seq in Ea as [-> _]. by injection Hu as <-. }
    apply F in Hj, Hk. lia. }
  split; [reflexivity|]. destruct (reservations_are_a_map l 2 11 99 T ltac:(lia)) as (_ & _ & H). cbn [resv_set_in] in H.
  change (resv_set_in l 2 11 99) with (<[2%nat := mk_slot 11 99]> l, 3, Some 102) in H. destruct H as (H1 & _ & _ & _ & _ & H2).
  split; [exact H1|exact H2].
Defined.
